(* ===== verification/_CoqProject ===== *)
-Q . S2P
Prelude.v
Js.v
Entities.v
StateMapping.v
OperationTtl.v
JsText.v
Redaction.v
Db.v
LogPartition.v
Encryption.v
RateLimit.v
Pagination.v
OperationService.v
OperationPolling.v
OperationPurge.v
CredentialRepository.v
DefinitionRepository.v
ConnectionRepository.v
TenantRepository.v
OidcSessions.v
ConnectorRepository.v
Auth.v
TenantUserService.v
ConnectorService.v
AdapterRegistry.v
TractionHttp.v
TractionAdapter.v
TractionConnector.v
TractionCorrectness.v
TractionTraffic.v
TractionWebhooks.v
TenantService.v
OAuthClient.v
RoleScope.v
ConnectorAdmin.v
ConnectionService.v
ProtocolStateChange.v
Lifecycle.v
TenantUserCorrectness.v
OAuthClientCorrectness.v
TenantStatusChange.v
ConnectorCorrectness.v
LogAccess.v
TokenValidation.v
ProtocolLifecycle.v
ProtocolNotification.v
WebhookIngestion.v
Listing.v
OperationCorrectness.v
BatchSettlement.v
CredentialExchangeService.v
ServiceLogic.v
NotificationCorrectness.v
RoleScopeCorrectness.v
OidcCorrectness.v
TenantSwitch.v
TokenIssuance.v
SignIn.v
SignInCorrectness.v
OidcPurge.v
RequestBoundary.v
ConnectionCorrectness.v
ExchangeCorrectness.v
CredentialAction.v
ActionCorrectness.v
FormatValidators.v
ClaimValidators.v
DefinitionService.v
RegistrationWorker.v
RegistrationCorrectness.v
PublicationIntents.v
DefinitionCorrectness.v
ProfileService.v
ProfileLifecycle.v
PresentationRequest.v
PresentationCorrectness.v
CredentialOffer.v
OfferCorrectness.v
Requests.v
AuditLog.v
