(* ===== verification/Prelude.v ===== *)
(** * Digital Trust Common Service: verification library

    The Digital Trust Common Service puts one multi-tenant API in front of
    credential agents.  A tenant offers, issues and revokes verifiable credentials
    and accepts offers made to it; the work is done by an agent (Traction, Credo)
    behind a port, and the agent reports progress through webhooks.  This library
    models the part of the NestJS back end that carries that logic
    (src/apps/digital-trust-common-service/src and src/libs, called S and L below)
    as executable definitions, and proves what makes it correct.

    ** The program and the files

    - The data.  [Js] has JavaScript numbers (binary64), JSON values and objects,
      [JsText] the parsing and printing of numbers and JSON texts; [Entities] the
      persisted rows and their enumerations (the TypeORM entities of S and L); [Db]
      the tables, the pg-boss queue in the same database, transactions, and the
      effects that leave the process.  A handler is a [Prog]: it takes a
      [World] and returns the world it leaves and a value or an exception ([Exn]).
      A repository call uses the committed tables ([NoTx]) or its transaction's
      working copy ([Tx]), as the source passes a manager or not.
    - Operations, the records clients poll.  [OperationService]
      (S/operation, repository and service): every statement, the guarded transitions,
      first views and served results.  [OperationTtl] (operation-ttl.util.ts),
      [OperationPolling] (long polls and the endpoints of
      operation.controller.ts that wait), [OperationPurge] (the hourly sweep),
      [Pagination] and [Listing] (keyset pages of operations and connections).
    - Credentials, exchanges and connections.  [CredentialRepository]
      (S/credential and S/credential-exchange), [ConnectionRepository] and
      [ConnectionService] (S/connection).
    - Agents.  [AdapterRegistry] (S/adapter-registry, L/credential-ports): the
      choice of connector and adapter.  The port is the record [AgentAdapter], whose
      operations are programs run by the agent; what the services rely on is the
      class [AdapterLaws], and their theorems hold for every adapter that has it.
      The implementation for Traction is [TractionHttp] (the HTTP client and the
      token cache of S/connector/connectors/traction), [TractionAdapter]
      (S/adapter-registry/adapters) and [TractionConnector] (publication on the
      ledger, with [Redaction], the regular expressions that redact diagnostics,
      and the manager of a connector).
    - Webhooks in.  [WebhookIngestion] authenticates an agent's call and queues it
      (S/webhook-ingestion), [StateMapping] and [ProtocolStateChange]
      (S/protocol-state-change) apply it in one transaction.
    - Requests.  [TokenValidation] (the bearer token guard, the validation of tokens
      and the key cache of L/auth), [Auth] (L/auth, S/common/assert-tenant-access.ts),
      [FormatValidators] and [ClaimValidators] (L/credential-ports/src/validators),
      [CredentialOffer] and [CredentialAction] (S/credential: offers, holder
      actions and revocation),
      [CredentialExchangeService] (S/credential-exchange), [PresentationRequest]
      (S/presentation-request), and [Requests], any sequence of these requests and
      of webhook deliveries.  [Listing] (S/common/cursor-pagination.ts)
      has the cursors a client gets and sends back, [RequestBoundary] (S/common/filters,
      S/jobs/jobs.service.ts) the error responses and what a job carries to its worker,
      and [AuditLog] (S/audit-log) the log of what was done: its table and partitions,
      listing, export, worker and interceptor.
    - What is issued and asked for.  [DefinitionRepository] (the tables) and
      [DefinitionService] (S/credential-definition), [RegistrationWorker] (the job
      that publishes a definition through the [RegistrationPort]), [ProfileService]
      (S/issuance-profile, S/verification-profile and
      presentation-definition.validator.ts).
    - Secrets and budgets.  [Encryption] (S/common/crypto) and [RateLimit]
      (S/rate-limit, log-access-rate-limiter.ts).
    - Administration.  [TenantRepository], [TenantService] and [TenantStatusChange]
      (S/tenant); [TenantUserService] (S/tenant-user, its table in
      [TenantRepository]);
      [ConnectorRepository], [ConnectorService] and [ConnectorAdmin] (S/connector),
      over the class of managers of a connector type [ManagerLaws]; [OAuthClient]
      (S/oauth-client); [RoleScope] (S/role-scope and the forced logout of S/admin);
      [OidcSessions] (the storage adapter, sessions and session limit of L/oidc).
    - Signing in.  [SignIn] (S/upstream-oidc, the federation with the upstream identity
      provider, and the interaction endpoints of L/oidc),
      [TokenIssuance] (the hooks through which oidc-provider asks for claims, scopes,
      resources, lifetimes, accounts and clients), [TenantSwitch] (S/auth) and
      [OidcPurge] (the hourly purge of L/oidc).  The oidc-provider and openid-client
      packages are the records [Provider] and [UpstreamClient], with what they
      document as the classes [ProviderLaws] and [SignInLaws].
    - Log access.  [LogPartition] (partition keys and their cache) and [LogAccess]
      (the token check, the resolver and the endpoint of S/log-access).

    Definitions keep the names of the source; where two classes have a method of
    the same name the definition is prefixed ([operations_findById],
    [exchange_get], [offer_reconcile]).

    ** What is proved

    - Lifecycle.  [Lifecycle] states the contract [evolves]: no record disappears,
      none changes its identity, states only move along their lifecycle, and only
      rows of the tenants concerned change.  [ProtocolLifecycle] proves it for a
      webhook delivery, [ServiceLogic] has the rules for services that alternate
      their own transactions with agent calls, and [ConnectionCorrectness],
      [ExchangeCorrectness], [ActionCorrectness] and [OfferCorrectness] prove it
      for the services; [Requests] concludes it for every sequence of requests.
    - Atomicity and notification.  [ProtocolNotification]: a delivery and the
      notification of its change commit together or not at all.
      [NotificationCorrectness]: exactly what a delivery moved is announced, under
      the event of the state tables.
    - One winner.  [OperationCorrectness]: a guarded transition and a first view
      happen once.  [ExchangeCorrectness]: the agent is asked to issue only on a
      recorded claim, and never again after one.  [BatchSettlement]: a batch parent
      is settled by the outcome of all children, exactly once however the workers
      interleave (a step relation over the statements of their transactions), and
      they can always run to their end.
    - No caller is left waiting: [ActionCorrectness] and [OfferCorrectness] (the
      operation answered is settled or with the agent; the rows of an offer agree),
      [OperationPolling] (long polls answer within the seconds asked for, and early
      only for a reason).
    - Isolation and authorization.  [ProtocolLifecycle], [AdapterRegistry],
      [WebhookIngestion], [Auth] and [ConnectionCorrectness].
    - Definitions, profiles and presentations.  [DefinitionCorrectness]: requests
      keep the definition table well-formed and move it forward only;
      a registration is answered with the operation that tracks it; [RegistrationCorrectness]: a worker run settles a registration or
      queues the next look, and the queue of looks runs dry only when it is settled; [PublicationIntents]: an artifact is
      published at most once, over all interleavings of worker runs (a step
      relation).  [ProfileLifecycle]: verification profiles refine an abstract
      machine, and a published issuance profile can be issued from.
      [PresentationCorrectness]: a presentation request asks for exactly what was
      specified and is settled.  [ServiceLogic] has the rules for tables a program does
      not touch.
    - Secrets and budgets.  [Encryption]: credentials can be read back after key
      rotations.  [RateLimit]: bucket keys can be taken apart again, and the sliding
      window holds for any overlap of requests (a step relation).
    - Administration.  [ConnectorCorrectness]: through requests and key rotations every
      connector stays readable and no sub-wallet is bound twice.
      [TenantUserCorrectness]: a tenant keeps its owner and administrators, and only
      owners manage owners.  [OAuthClientCorrectness]: no escalation through clients,
      and issued secrets verify.  [RoleScopeCorrectness]: the hierarchy of roles is
      kept, and after a role was narrowed one sweep ends what its holders had.
      [TenantStatusChange]: what deactivation of a tenant does to its clients,
      connectors and connections, and that reactivation is its inverse on the clients.  [OidcCorrectness]: the session limit, forced logout, and what the
      provider stores it finds.  [LogAccess]: a log scope is one tenant's, of
      the last five minutes, and within a process the cache agrees with the database
      (a step relation).
    - Agents.  [TractionCorrectness]: the Traction adapter, its registration service
      and the connector manager satisfy the interfaces the services are proved
      against, an issuance is reported as refused only when it was, and no secret
      reaches an error text.  [TractionTraffic]: whatever sequence of calls, requests
      go to the address of a connector with that connector's credentials.
      [TractionWebhooks]: registrations of connectors on one wallet coexist.
    - Signing in.  [TokenValidation]: the guard admits only the issuer's tokens for
      this service.  [SignInCorrectness]: nobody signs in without the upstream
      provider (a step relation over requests).  [TokenIssuance]: a token's scopes
      are those of the role.  [TenantSwitch]: a switch is to a tenant the user is a
      member of, and leaves nothing of the old one.  [OidcPurge]: only expired
      records go.
    - Texts.  [Listing]: cursors read back as themselves.  [TokenValidation]: a
      challenge reads back as its two parameters.  [RequestBoundary]: internal errors
      are opaque in production.  A job's worker sees the context of its
      sender.  [AuditLog]: the export reads back as the entries it was made of, and
      every instant of the months kept ahead has exactly one partition.
    - Inputs.  [FormatValidators], [ClaimValidators] and [OfferCorrectness]: exactly
      which attributes are accepted, and that a request put to an agent rests on a published,
      registered definition of the tenant.  [OperationTtl]: durations and expiries.
    - Listings and purge.  [Listing] (nothing missed or repeated), [OperationPurge]
      (only expired rows and their items go, and a run drains or hits its cap).

    Some theorems state a behaviour that is not the intended one: a purge blocked
    by a credential, a connection listing that stands still, a claim lost with a
    failed audit insert, a revocation left pending, a TTL override beyond the range
    of dates, a webhook state that names a member of Object.prototype, an update
    that takes back the publication of an issuance profile, and a presentation
    request that leaves the connector of its connection, a platform operator flag and a
    client revocation undone by a stale save, a revocation for cause that
    reactivation takes back, audit entries that no page lists, entries that are
    refused because they name no UUID, and an exported entry that a carriage return
    splits in two.

    ** Bounds, fuel and assumptions

    Numbers are binary64 where the code computes with them (TTLs) and timestamps
    are integers, microseconds in columns and milliseconds in a [Date].  The long
    polls take fuel, one unit per poll; a wait of at most 30 s and polls at least
    1 s apart (or up to the deadline) make 30 units enough, which is proved.  The
    purge loop is structural on its cap.  The JSON parser and the URI decoder take
    the length of their text as fuel, which the round trips show to be enough.  The
    purge of OIDC records is structural on its cap too.
    Everything else recurs on data.

    Concurrency is modelled where an outcome depends on it: agent calls and poll
    waits may let other requests commit anything the contract allows, profile
    requests take the program of the others between their read and their write,
    requests at a rate limit overlap between their count and their insert, and the
    workers of a batch interleave statement by statement under READ COMMITTED.
    Otherwise a transaction runs without interruption, which its row locks and
    guarded UPDATEs are there to ensure.  Generated identifiers may collide, which
    the primary key then reports; any pg-boss insert may fail, before or in the
    database.  An exception carries the message of its response body.

    ** What is not modelled

    What is not under src: argon2, AES-256-GCM, HMAC and SHA-256, jose, axios, DNS,
    cockatiel, oidc-provider, openid-client, class-validator and pg-boss; where the
    code relies on one it is a parameter with its documented behaviour as a law.
    Controllers other than those named, DTO decorators, module wiring, the
    construction of the provider with its keys and configuration, logging, tracing,
    metrics beyond the counters an outcome bumps, the metrics wrapper of adapters,
    and health checks: they translate, observe or configure, and decide nothing the
    theorems speak of.  Migrations and seeds (the constraints they declare are part of
    the repositories) and the React user interface.

    This file holds the tactics, hint databases and string and list helpers every
    other file uses. *)

From Stdlib Require Import ZArith Lia.
From stdpp Require Import base gmap strings list fin_maps sorting.

(** ** Automation shared by the components *)

Create HintDb dtcs.
Create Rewrite HintDb dtcs.

(** Case analysis on every [match] of the goal and hypotheses, discarding the
    impossible branches on the way. *)
Ltac split_matches :=
  repeat (case_match; simplify_eq/=; try done).

(** Closes a goal by case analysis on the finitely many constructors of the
    enumerations in scope. *)
Ltac by_enum :=
  repeat match goal with
         | x : ?T |- _ => is_var x; destruct x; try done
         end.

(** ** Strings as the service uses them

    JavaScript strings are modelled by [string]; the code only ever inspects
    ASCII characters in the places modelled here. *)

Definition eq_ascii (a b : Ascii.ascii) : bool := Ascii.eqb a b.

(** [s.replace(/a/g, b)] for single characters. *)
Fixpoint replace_char (a b : Ascii.ascii) (s : string) : string :=
  match s with
  | EmptyString => EmptyString
  | String c s' => String (if eq_ascii c a then b else c) (replace_char a b s')
  end.

(** Characters [String.prototype.trim] removes, within ASCII. *)
Definition is_js_space (c : Ascii.ascii) : bool :=
  let n := Ascii.N_of_ascii c in
  ((9 <=? n)%N && (n <=? 13)%N) || (n =? 32)%N || (n =? 160)%N.

Fixpoint trim_start (s : string) : string :=
  match s with
  | String c s' => if is_js_space c then trim_start s' else s
  | EmptyString => EmptyString
  end.

Fixpoint trim_end (s : string) : string :=
  match s with
  | EmptyString => EmptyString
  | String c s' =>
      match trim_end s' with
      | EmptyString => if is_js_space c then EmptyString else String c EmptyString
      | t => String c t
      end
  end.

(** [s.trim()] *)
Definition js_trim (s : string) : string := trim_end (trim_start s).

Definition lower_ascii (c : Ascii.ascii) : Ascii.ascii :=
  let n := Ascii.N_of_ascii c in
  if ((65 <=? n)%N && (n <=? 90)%N) then Ascii.ascii_of_N (n + 32) else c.

Definition upper_ascii (c : Ascii.ascii) : Ascii.ascii :=
  let n := Ascii.N_of_ascii c in
  if ((97 <=? n)%N && (n <=? 122)%N) then Ascii.ascii_of_N (n - 32) else c.

Fixpoint map_string (f : Ascii.ascii -> Ascii.ascii) (s : string) : string :=
  match s with
  | EmptyString => EmptyString
  | String c s' => String (f c) (map_string f s')
  end.

(** [s.toLowerCase()] and [s.toUpperCase()] on ASCII. *)
Definition js_lower : string -> string := map_string lower_ascii.
Definition js_upper : string -> string := map_string upper_ascii.

(** [s.endsWith(suffix)] *)
Fixpoint ends_with (suffix s : string) : bool :=
  if String.eqb suffix s then true
  else match s with
       | EmptyString => false
       | String _ s' => ends_with suffix s'
       end.

(** JavaScript truthiness of a [string | null | undefined]. *)
Definition truthy_str (s : option string) : bool :=
  match s with
  | Some EmptyString | None => false
  | Some _ => true
  end.

Lemma truthy_str_spec s : truthy_str s = true <-> exists t, s = Some t /\ t <> EmptyString.
Proof.
  destruct s as [[|c s]|]; simpl; split; try done; intros.
  - by destruct H as (?&[=<-]&?).
  - by eexists.
  - by destruct H as (?&?&?).
Qed.

Lemma ends_with_app p suffix : ends_with suffix (p +:+ suffix) = true.
Proof.
  induction p as [|c p IH]; simpl.
  - destruct suffix; simpl; rewrite ?Ascii.eqb_refl, ?String.eqb_refl; done.
  - by destruct (String.eqb _ _).
Qed.

Lemma ends_with_spec suffix s :
  ends_with suffix s = true <-> exists p, s = p +:+ suffix.
Proof.
  split; [|intros [p ->]; apply ends_with_app].
  induction s as [|c s IH]; simpl.
  - destruct (String.eqb_spec suffix ""); intros; [|done]. by exists "".
  - destruct (String.eqb_spec suffix (String c s)) as [->|_]; intros H.
    + by exists "".
    + destruct (IH H) as [p ->]. by exists (String c p).
Qed.

Lemma replace_char_idem a b s :
  a <> b -> replace_char a b (replace_char a b s) = replace_char a b s.
Proof.
  intros Hab. induction s as [|c s IH]; simpl; [done|]. f_equal; [|done].
  unfold eq_ascii. destruct (Ascii.eqb_spec c a) as [->|Hc].
  - by destruct (Ascii.eqb_spec b a) as [->|].
  - by rewrite (proj2 (Ascii.eqb_neq _ _) Hc).
Qed.

(** ** Lists *)

Definition mem_str (x : string) (l : list string) : bool := existsb (String.eqb x) l.

Lemma mem_str_spec x l : mem_str x l = true <-> x ∈ l.
Proof.
  unfold mem_str. rewrite existsb_exists. setoid_rewrite String.eqb_eq.
  rewrite list_elem_of_In. naive_solver.
Qed.

Lemma mem_str_false x l : mem_str x l = false <-> x ∉ l.
Proof. rewrite <-mem_str_spec. by destruct (mem_str x l). Qed.

#[export] Hint Rewrite mem_str_spec mem_str_false : dtcs.
