(* ===== verification/Js.v ===== *)
(** * JavaScript values

    Numbers are IEEE 754 binary64: a finite number is a dyadic [m * 2^e], and
    every arithmetic result is rounded to the nearest representable one, ties
    to even, with gradual underflow and overflow to infinity.  Values read
    from [jsonb] columns, request bodies and webhook payloads are [json];
    [undefined] is the [None] of [option json]. *)

From Stdlib Require Import ZArith Lia.
From stdpp Require Import base decidable strings sets list list_relations.
From S2P Require Import Prelude.

Local Open Scope Z_scope.

(** ** Numbers *)

Inductive jsnum :=
| NFin (m e : Z)      (* m * 2^e *)
| NInf (neg : bool)
| NNaN.

#[export] Instance jsnum_eq_dec : EqDecision jsnum.
Proof. solve_decision. Defined.

(** [floor (log2 (a / d))] for positive [a] and [d]. *)
Definition floor_log2_ratio (a d : Z) : Z :=
  let k := Z.log2 a - Z.log2 d in
  if (if 0 <=? k then d * 2 ^ k <=? a else d <=? a * 2 ^ (- k)) then k else k - 1.

Definition round_half_even (n d : Z) : Z :=
  let q := n / d in
  let r := n mod d in
  if 2 * r <? d then q
  else if d <? 2 * r then q + 1
  else if Z.even q then q else q + 1.

(** The binary64 number nearest to the positive rational [a / d]. *)
Definition round_pos (a d : Z) : jsnum :=
  let e := Z.max (-1074) (floor_log2_ratio a d - 52) in
  let m := if 0 <=? e then round_half_even a (d * 2 ^ e)
           else round_half_even (a * 2 ^ (- e)) d in
  if (0 <=? e) && (2 ^ 1024 <=? m * 2 ^ e) then NInf false else NFin m e.

Definition neg_num (x : jsnum) : jsnum :=
  match x with
  | NFin m e => NFin (- m) e
  | NInf s => NInf (negb s)
  | NNaN => NNaN
  end.

Definition round_ratio (n d : Z) : jsnum :=
  if n =? 0 then NFin 0 0
  else if 0 <? n then round_pos n d else neg_num (round_pos (- n) d).

Definition round_dyadic (m e : Z) : jsnum :=
  if 0 <=? e then round_ratio (m * 2 ^ e) 1 else round_ratio m (2 ^ (- e)).

Definition is_zero (x : jsnum) : bool :=
  match x with NFin m _ => m =? 0 | _ => false end.

Definition is_neg (x : jsnum) : bool :=
  match x with NFin m _ => m <? 0 | NInf s => s | NNaN => false end.

Definition js_mul (x y : jsnum) : jsnum :=
  match x, y with
  | NNaN, _ | _, NNaN => NNaN
  | NFin m1 e1, NFin m2 e2 => round_dyadic (m1 * m2) (e1 + e2)
  | _, _ =>
      if is_zero x || is_zero y then NNaN else NInf (xorb (is_neg x) (is_neg y))
  end.

Definition js_add (x y : jsnum) : jsnum :=
  match x, y with
  | NNaN, _ | _, NNaN => NNaN
  | NInf s1, NInf s2 => if Bool.eqb s1 s2 then NInf s1 else NNaN
  | NInf s, _ | _, NInf s => NInf s
  | NFin m1 e1, NFin m2 e2 =>
      let e := Z.min e1 e2 in
      round_dyadic (m1 * 2 ^ (e1 - e) + m2 * 2 ^ (e2 - e)) e
  end.

(** [Number.isFinite(x)] *)
Definition is_finite (x : jsnum) : bool :=
  match x with NFin _ _ => true | _ => false end.

(** [x > 0] *)
Definition gt_zero (x : jsnum) : bool :=
  match x with NFin m _ => 0 <? m | NInf s => negb s | NNaN => false end.

(** [x > n] *)
Definition num_gt (x : jsnum) (n : Z) : bool :=
  match x with
  | NFin m e => if 0 <=? e then n <? m * 2 ^ e else n * 2 ^ (- e) <? m
  | NInf neg => negb neg
  | NNaN => false
  end.

Definition num_of_Z (z : Z) : jsnum := round_ratio z 1.

(** [ToIntegerOrInfinity] of a finite number: truncation towards zero. *)
Definition num_trunc (m e : Z) : Z :=
  if 0 <=? e then m * 2 ^ e else Z.quot m (2 ^ (- e)).

(** [new Date(x)]: [TimeClip]; [None] is an Invalid Date. *)
Definition new_date (x : jsnum) : option Z :=
  match x with
  | NFin m e =>
      let t := num_trunc m e in
      if Z.abs t <=? 8640000000000000 then Some t else None
  | _ => None
  end.

(** *** Integers below [2^53] are exact *)

Lemma pow2_pos k : 0 <= k -> 0 < 2 ^ k.
Proof. intros. by apply Z.pow_pos_nonneg. Qed.

Lemma round_half_even_exact q d : 0 < d -> round_half_even (q * d) d = q.
Proof.
  intros Hd. unfold round_half_even.
  rewrite Z.div_mul, Z.mod_mul by lia. simpl.
  by rewrite (proj2 (Z.ltb_lt (2 * 0) d)) by lia.
Qed.

Lemma floor_log2_ratio_int a : 0 < a -> floor_log2_ratio a 1 = Z.log2 a.
Proof.
  intros Ha. unfold floor_log2_ratio. change (Z.log2 1) with 0.
  rewrite Z.sub_0_r. pose proof (Z.log2_nonneg a).
  rewrite (proj2 (Z.leb_le 0 _)) by done.
  destruct (Z.log2_spec a Ha) as [Hle _].
  by rewrite (proj2 (Z.leb_le (1 * _) a)) by lia.
Qed.

Lemma round_pos_int a :
  0 < a < 2 ^ 53 ->
  round_pos a 1 = NFin (a * 2 ^ (52 - Z.log2 a)) (Z.log2 a - 52).
Proof.
  intros [Ha Hub]. unfold round_pos. rewrite floor_log2_ratio_int by done.
  pose proof (Z.log2_nonneg a) as Hl0.
  assert (Z.log2 a < 53) as Hl by (apply Z.log2_lt_pow2; lia).
  rewrite Z.max_r by lia.
  destruct (Z.leb_spec 0 (Z.log2 a - 52)) as [He|He].
  - assert (Z.log2 a = 52) as -> by lia. change (52 - 52) with 0. change (2 ^ 0) with 1.
    pose proof (round_half_even_exact a 1 ltac:(lia)) as Hr.
    rewrite !Z.mul_1_r in *. rewrite Hr. simpl.
    destruct (Z.leb_spec (2 ^ 1024) a); [|done].
    assert (2 ^ 53 <= 2 ^ 1024) by (apply Z.pow_le_mono_r; lia). lia.
  - simpl. f_equal. replace (- (Z.log2 a - 52)) with (52 - Z.log2 a) by lia.
    pose proof (round_half_even_exact (a * 2 ^ (52 - Z.log2 a)) 1 ltac:(lia)) as Hr.
    by rewrite Z.mul_1_r in Hr.
Qed.

Lemma num_trunc_shift a k : 0 <= k -> num_trunc (a * 2 ^ k) (- k) = a.
Proof.
  intros Hk. unfold num_trunc. pose proof (pow2_pos k Hk).
  destruct (Z.leb_spec 0 (- k)) as [Hk'|Hk'].
  - assert (k = 0) as -> by lia. simpl. by rewrite !Z.mul_1_r.
  - rewrite Z.opp_involutive. apply Z.quot_mul. lia.
Qed.

Lemma num_of_Z_trunc z :
  0 <= z < 2 ^ 53 -> exists m e, num_of_Z z = NFin m e /\ num_trunc m e = z.
Proof.
  intros [H0 Hub]. unfold num_of_Z, round_ratio.
  destruct (Z.eqb_spec z 0) as [->|Hz]; [by exists 0, 0|].
  rewrite (proj2 (Z.ltb_lt 0 z)) by lia.
  rewrite round_pos_int by lia. do 2 eexists. split; [done|].
  replace (Z.log2 z - 52) with (- (52 - Z.log2 z)) by lia.
  apply num_trunc_shift.
  assert (Z.log2 z < 53) by (apply Z.log2_lt_pow2; lia). lia.
Qed.

(** *** Sums and products of integers round like the exact result *)

Lemma round_half_even_scale n d c :
  0 < d -> 0 < c -> round_half_even (n * c) (d * c) = round_half_even n d.
Proof.
  intros Hd Hc. unfold round_half_even.
  rewrite Z.div_mul_cancel_r, Z.mul_mod_distr_r by lia.
  replace (2 * (n mod d * c)) with (2 * (n mod d) * c) by lia.
  assert (forall x y, (x * c <? y * c) = (x <? y)) as Hlt.
  { intros x y. destruct (Z.ltb_spec x y), (Z.ltb_spec (x * c) (y * c)); nia. }
  by rewrite !Hlt.
Qed.

Lemma floor_log2_ratio_shift a k :
  0 < a -> 0 <= k -> floor_log2_ratio (a * 2 ^ k) (2 ^ k) = Z.log2 a.
Proof.
  intros Ha Hk. unfold floor_log2_ratio.
  rewrite Z.log2_mul_pow2, Z.log2_pow2 by lia.
  replace (k + Z.log2 a - k) with (Z.log2 a) by lia.
  pose proof (Z.log2_nonneg a). pose proof (pow2_pos k Hk).
  rewrite (proj2 (Z.leb_le 0 _)) by done.
  destruct (Z.log2_spec a Ha) as [Hle _].
  by rewrite (proj2 (Z.leb_le _ (a * 2 ^ k))) by nia.
Qed.

Lemma round_pos_shift a k :
  0 < a -> 0 <= k -> round_pos (a * 2 ^ k) (2 ^ k) = round_pos a 1.
Proof.
  intros Ha Hk. unfold round_pos. cbv zeta.
  rewrite floor_log2_ratio_shift, floor_log2_ratio_int by done.
  generalize (Z.max (-1074) (Z.log2 a - 52)). intros e. pose proof (pow2_pos k Hk).
  destruct (Z.leb_spec 0 e) as [He|He].
  - pose proof (pow2_pos e He).
    rewrite (Z.mul_comm (2 ^ k)), round_half_even_scale by lia. by rewrite Z.mul_1_l.
  - replace (a * 2 ^ k * 2 ^ (- e)) with (a * 2 ^ (- e) * 2 ^ k) by ring.
    pose proof (round_half_even_scale (a * 2 ^ (- e)) 1 (2 ^ k)) as Hs.
    rewrite Z.mul_1_l in Hs. by rewrite Hs by lia.
Qed.

Lemma round_dyadic_shift n k :
  0 <= n -> 0 <= k -> round_dyadic (n * 2 ^ k) (- k) = num_of_Z n.
Proof.
  intros Hn Hk. unfold round_dyadic, num_of_Z. pose proof (pow2_pos k Hk).
  destruct (Z.leb_spec 0 (- k)) as [Hk'|Hk'].
  - assert (k = 0) as -> by lia. by rewrite !Z.mul_1_r.
  - rewrite Z.opp_involutive. unfold round_ratio.
    destruct (Z.eqb_spec n 0) as [->|Hn0]; [done|].
    rewrite (proj2 (Z.eqb_neq (n * 2 ^ k) 0)) by nia.
    rewrite (proj2 (Z.ltb_lt 0 (n * 2 ^ k))), (proj2 (Z.ltb_lt 0 n)) by nia.
    apply round_pos_shift; lia.
Qed.

Lemma num_of_Z_form z :
  0 <= z < 2 ^ 53 -> exists k, 0 <= k /\ num_of_Z z = NFin (z * 2 ^ k) (- k).
Proof.
  intros [H0 Hub]. unfold num_of_Z, round_ratio.
  destruct (Z.eqb_spec z 0) as [->|Hz]; [by exists 0|].
  rewrite (proj2 (Z.ltb_lt 0 z)) by lia. rewrite round_pos_int by lia.
  assert (Z.log2 z < 53) by (apply Z.log2_lt_pow2; lia).
  exists (52 - Z.log2 z). split; [lia|]. f_equal. lia.
Qed.

Lemma js_mul_int a b :
  0 <= a < 2 ^ 53 -> 0 <= b < 2 ^ 53 ->
  js_mul (num_of_Z a) (num_of_Z b) = num_of_Z (a * b).
Proof.
  intros Ha Hb.
  destruct (num_of_Z_form a Ha) as (k & Hk & ->), (num_of_Z_form b Hb) as (l & Hl & ->). simpl.
  replace (a * 2 ^ k * (b * 2 ^ l)) with (a * b * 2 ^ (k + l))
    by (rewrite Z.pow_add_r by lia; ring).
  replace (- k + - l) with (- (k + l)) by lia. apply round_dyadic_shift; lia.
Qed.

Lemma js_add_int a b :
  0 <= a < 2 ^ 53 -> 0 <= b < 2 ^ 53 ->
  js_add (num_of_Z a) (num_of_Z b) = num_of_Z (a + b).
Proof.
  intros Ha Hb.
  destruct (num_of_Z_form a Ha) as (k & Hk & ->), (num_of_Z_form b Hb) as (l & Hl & ->). simpl.
  set (n := Z.max k l).
  replace (Z.min (- k) (- l)) with (- n) by lia.
  replace (a * 2 ^ k * 2 ^ (- k - - n) + b * 2 ^ l * 2 ^ (- l - - n)) with ((a + b) * 2 ^ n).
  - apply round_dyadic_shift; lia.
  - rewrite <-!Z.mul_assoc, <-!Z.pow_add_r by lia.
    replace (k + (- k - - n)) with n by lia. replace (l + (- l - - n)) with n by lia. ring.
Qed.

(** A [Date] built from a sum of in-range integers is that sum. *)
Lemma new_date_add a b :
  0 <= a < 2 ^ 53 -> 0 <= b < 2 ^ 53 -> a + b <= 8640000000000000 ->
  new_date (js_add (num_of_Z a) (num_of_Z b)) = Some (a + b).
Proof.
  intros Ha Hb Hs. rewrite js_add_int by done.
  destruct (num_of_Z_trunc (a + b)) as (m & e & -> & Ht).
  { assert (8640000000000000 < 2 ^ 53) by (by vm_compute). lia. }
  simpl. rewrite Ht. destruct (Z.leb_spec (Z.abs (a + b)) 8640000000000000); [done|lia].
Qed.

(** ** JSON values *)

Inductive json :=
| JNull
| JBool (b : bool)
| JNum (n : jsnum)
| JStr (s : string)
| JArr (l : list json)
| JObj (o : list (string * json)).

Fixpoint json_eqb (x y : json) {struct x} : bool :=
  let fix eqb_list (l1 l2 : list json) : bool :=
    match l1, l2 with
    | [], [] => true
    | a :: l1', b :: l2' => json_eqb a b && eqb_list l1' l2'
    | _, _ => false
    end in
  let fix eqb_obj (o1 o2 : list (string * json)) : bool :=
    match o1, o2 with
    | [], [] => true
    | (k1, a) :: o1', (k2, b) :: o2' =>
        String.eqb k1 k2 && json_eqb a b && eqb_obj o1' o2'
    | _, _ => false
    end in
  match x, y with
  | JNull, JNull => true
  | JBool a, JBool b => Bool.eqb a b
  | JNum a, JNum b => bool_decide (a = b)
  | JStr a, JStr b => String.eqb a b
  | JArr l1, JArr l2 => eqb_list l1 l2
  | JObj o1, JObj o2 => eqb_obj o1 o2
  | _, _ => false
  end.

Lemma json_eqb_eq x : forall y, json_eqb x y = true <-> x = y.
Proof.
  revert x. fix IH 1. intros x y. destruct x as [|b|n|s|l|o], y as [|b'|n'|s'|l'|o'];
    simpl; try (clear IH; split; [done|congruence]).
  - rewrite Bool.eqb_true_iff. clear IH. split; congruence.
  - rewrite bool_decide_eq_true. clear IH. split; congruence.
  - rewrite String.eqb_eq. clear IH. split; congruence.
  - transitivity (l = l'); [|clear IH; split; congruence]. revert l'.
    induction l as [|a l IHl]; intros [|b l']; try (clear IH; split; [done|congruence]).
    rewrite andb_true_iff, IHl, (IH a). clear IH. split; [intros [-> ->]; done|].
    by intros [= -> ->].
  - transitivity (o = o'); [|clear IH; split; congruence]. revert o'.
    induction o as [|[k a] o IHo]; intros [|[k' b] o']; try (clear IH; split; [done|congruence]).
    rewrite !andb_true_iff, IHo, (IH a), String.eqb_eq. clear IH.
    split; [intros [[-> ->] ->]; done|]. by intros [= -> -> ->].
Qed.

#[export] Instance json_eq_dec : EqDecision json.
Proof.
  intros x y. destruct (json_eqb x y) eqn:E.
  - left. by apply json_eqb_eq.
  - right. intros Heq. apply json_eqb_eq in Heq. congruence.
Defined.

(** Own-property lookup [o[k]] of an object's entries. *)
Fixpoint assoc {A} (k : string) (o : list (string * A)) : option A :=
  match o with
  | [] => None
  | (k', v) :: o' => if String.eqb k k' then Some v else assoc k o'
  end.

(** [delete o[k]] on a copy. *)
Fixpoint dissoc {A} (k : string) (o : list (string * A)) : list (string * A) :=
  match o with
  | [] => []
  | (k', v) :: o' => if String.eqb k k' then dissoc k o' else (k', v) :: dissoc k o'
  end.

(** Assignment [o[k] = v]: an existing key keeps its place. *)
Fixpoint assoc_set {A} (k : string) (v : A) (o : list (string * A)) : list (string * A) :=
  match o with
  | [] => [(k, v)]
  | (k', v') :: o' =>
      if String.eqb k k' then (k, v) :: o' else (k', v') :: assoc_set k v o'
  end.

(** [{ ...a, ...b }] *)
Definition spread {A} (a b : list (string * A)) : list (string * A) :=
  fold_left (fun acc kv => assoc_set kv.1 kv.2 acc) b a.

(** [v.k] on an unknown value that may be [undefined], reading own properties
    of plain objects (no property read in this way is inherited). *)
Definition get_prop (k : string) (v : option json) : option json :=
  match v with Some (JObj o) => assoc k o | _ => None end.

(** JavaScript truthiness. *)
Definition truthy (v : option json) : bool :=
  match v with
  | None | Some JNull => false
  | Some (JBool b) => b
  | Some (JNum n) => match n with NFin m _ => negb (m =? 0) | NInf _ => true | NNaN => false end
  | Some (JStr s) => negb (String.eqb s "")
  | Some (JArr _) | Some (JObj _) => true
  end.

Definition as_string (v : option json) : option string :=
  match v with Some (JStr s) => Some s | _ => None end.

Definition as_bool (v : option json) : option bool :=
  match v with Some (JBool b) => Some b | _ => None end.

Lemma assoc_set_key {A} k (v : A) o x : x ∈ (assoc_set k v o).*1 -> x = k \/ x ∈ o.*1.
Proof.
  induction o as [|[k' v'] o IH]; simpl; [set_solver|].
  destruct (String.eqb_spec k k'); simpl; set_solver.
Qed.

Lemma assoc_set_keys {A} k (v : A) o : NoDup o.*1 -> NoDup (assoc_set k v o).*1.
Proof.
  induction o as [|[k' v'] o IH]; simpl; [intros _; apply NoDup_singleton|].
  intros [Hk Ho]%NoDup_cons. destruct (String.eqb_spec k k') as [->|Hne]; simpl; apply NoDup_cons.
  - done.
  - split; [|by apply IH]. intros [?|?]%assoc_set_key; [by destruct Hne|done].
Qed.

Lemma assoc_set_eq {A} k (v : A) o : assoc k (assoc_set k v o) = Some v.
Proof.
  induction o as [|[k' v'] o IH]; simpl.
  - by rewrite String.eqb_refl.
  - destruct (String.eqb_spec k k') as [->|Hk]; simpl.
    + by rewrite String.eqb_refl.
    + by rewrite (proj2 (String.eqb_neq _ _) Hk).
Qed.

Lemma assoc_set_ne {A} k k' (v : A) o : k <> k' -> assoc k (assoc_set k' v o) = assoc k o.
Proof.
  intros Hk. induction o as [|[k'' v'] o IH]; simpl.
  - by rewrite (proj2 (String.eqb_neq _ _) Hk).
  - destruct (String.eqb_spec k' k'') as [->|Hk']; simpl.
    + by rewrite (proj2 (String.eqb_neq _ _) Hk).
    + by destruct (String.eqb k k'').
Qed.

Lemma assoc_dissoc_eq {A} k (o : list (string * A)) : assoc k (dissoc k o) = None.
Proof.
  induction o as [|[k' v] o IH]; simpl; [done|].
  destruct (String.eqb_spec k k') as [->|Hk]; simpl; [done|].
  by rewrite (proj2 (String.eqb_neq _ _) Hk).
Qed.

Lemma assoc_dissoc_ne {A} k k' (o : list (string * A)) :
  k <> k' -> assoc k (dissoc k' o) = assoc k o.
Proof.
  intros Hk. induction o as [|[k'' v] o IH]; simpl; [done|].
  destruct (String.eqb_spec k' k'') as [->|Hk']; simpl.
  - by rewrite (proj2 (String.eqb_neq _ _) Hk).
  - by destruct (String.eqb k k'').
Qed.

(** [{ ...a, ...b }[k]] is [b]'s value when [b] has the key, [a]'s otherwise. *)
Lemma assoc_spread {A} k (a b : list (string * A)) :
  NoDup b.*1 -> assoc k (spread a b) = match assoc k b with Some v => Some v | None => assoc k a end.
Proof.
  revert a. induction b as [|[k' v] b IH]; intros a Hnd; simpl; [done|].
  apply NoDup_cons in Hnd as [Hni Hnd]. unfold spread in *. simpl. rewrite IH by done.
  destruct (String.eqb_spec k k') as [->|Hk].
  - assert (assoc k' b = None) as ->.
    { clear -Hni. induction b as [|[k v'] b IH]; simpl in *; [done|].
      destruct (String.eqb_spec k' k) as [->|]; [set_solver|]. apply IH. set_solver. }
    by rewrite assoc_set_eq.
  - by rewrite assoc_set_ne.
Qed.

(** [isDeepStrictEqual] on plain data: objects compare by key, in any order. *)
Fixpoint deep_equal (x y : json) {struct x} : bool :=
  let fix equal_list (l1 l2 : list json) : bool :=
    match l1, l2 with
    | [], [] => true
    | a :: l1', b :: l2' => deep_equal a b && equal_list l1' l2'
    | _, _ => false
    end in
  let fix equal_entries (o1 o2 : list (string * json)) : bool :=
    match o1 with
    | [] => true
    | (k, a) :: o1' =>
        match assoc k o2 with Some b => deep_equal a b | None => false end && equal_entries o1' o2
    end in
  match x, y with
  | JNull, JNull => true
  | JBool a, JBool b => Bool.eqb a b
  | JNum a, JNum b => bool_decide (a = b)
  | JStr a, JStr b => String.eqb a b
  | JArr l1, JArr l2 => equal_list l1 l2
  | JObj o1, JObj o2 => (length o1 =? length o2)%nat && equal_entries o1 o2
  | _, _ => false
  end.

(** ** Sets of strings *)

(** [[...new Set(l)]] *)
Definition js_set (l : list string) : list string :=
  fold_left (fun acc x => if mem_str x acc then acc else acc ++ [x]) l [].

Lemma js_set_acc l acc x :
  x ∈ fold_left (fun acc x => if mem_str x acc then acc else acc ++ [x]) l acc <-> x ∈ acc \/ x ∈ l.
Proof.
  revert acc. induction l as [|y l IH]; intros acc; simpl; [set_solver|]. rewrite IH.
  destruct (mem_str y acc) eqn:E; [apply mem_str_spec in E|]; set_solver.
Qed.

Lemma js_set_elem l x : x ∈ js_set l <-> x ∈ l.
Proof. unfold js_set. rewrite js_set_acc. set_solver. Qed.

Lemma js_set_length l acc :
  NoDup acc ->
  (length (fold_left (fun acc x => if mem_str x acc then acc else acc ++ [x]) l acc) <=
   length acc + length l)%nat /\
  (length (fold_left (fun acc x => if mem_str x acc then acc else acc ++ [x]) l acc) =
   (length acc + length l)%nat <-> NoDup (acc ++ l)).
Proof.
  revert acc. induction l as [|y l IH]; intros acc Hacc; simpl.
  { rewrite app_nil_r, Nat.add_0_r. naive_solver. }
  destruct (mem_str y acc) eqn:E.
  - apply mem_str_spec in E. destruct (IH acc Hacc) as [Hle _]. split; [lia|].
    split; [lia|]. intros (_ & Hd & _)%NoDup_app. destruct (Hd y E). set_solver.
  - apply mem_str_false in E. destruct (IH (acc ++ [y])) as [Hle Hiff].
    { apply NoDup_app. split_and!; [done|set_solver|]. apply NoDup_singleton. }
    rewrite length_app in Hle, Hiff. simpl in Hle, Hiff. split; [lia|].
    rewrite <-app_assoc in Hiff. simpl in Hiff. rewrite <-Hiff. lia.
Qed.

Lemma js_set_NoDup l : (length (js_set l) =? length l)%nat = true <-> NoDup l.
Proof.
  rewrite Nat.eqb_eq. destruct (js_set_length l []) as [_ H]; [constructor|exact H].
Qed.
