(* ===== verification/Entities.v ===== *)
(** * Entities

    The rows the service persists, as the TypeORM entities declare them, with
    the enumerations they use.  Column timestamps are microseconds since the
    epoch ([timestamptz] precision); a JavaScript [Date] read from a column is
    its millisecond part ([date_of]), and a [Date] written to a column becomes
    a whole number of milliseconds ([column_of]). *)

From Stdlib Require Import ZArith Lia.
From stdpp Require Import base decidable strings gmap list.
From S2P Require Import Prelude Js.

Local Open Scope Z_scope.

Definition date_of (us : Z) : Z := us / 1000.
Definition column_of (ms : Z) : Z := ms * 1000.

Lemma date_of_column_of ms : date_of (column_of ms) = ms.
Proof. unfold date_of, column_of. by apply Z.div_mul. Qed.

(** The path all routes are under. *)
Definition API_BASE_PATH : string := "/api/v1".

(** ** Enumerations *)

Inductive OperationState := PENDING | PROCESSING | COMPLETED | FAILED.

Definition operation_state_str (s : OperationState) : string :=
  match s with
  | PENDING => "pending" | PROCESSING => "processing"
  | COMPLETED => "completed" | FAILED => "failed"
  end.

(** [Object.values(OperationState)] *)
Definition operation_states : list OperationState := [PENDING; PROCESSING; COMPLETED; FAILED].

Inductive CredentialState := OFFERED | ISSUED | REVOKED | EXPIRED | CFAILED.

Inductive ConnectionState :=
| INVITED | REQUESTED | RESPONDED | ACTIVE | CN_COMPLETED | ABANDONED.

Definition connection_states : list ConnectionState :=
  [INVITED; REQUESTED; RESPONDED; ACTIVE; CN_COMPLETED; ABANDONED].

Definition connection_state_str (s : ConnectionState) : string :=
  match s with
  | INVITED => "invited" | REQUESTED => "requested" | RESPONDED => "responded"
  | ACTIVE => "active" | CN_COMPLETED => "completed" | ABANDONED => "abandoned"
  end.

Inductive ConnectionProtocol := DIDCOMM_V1 | DIDCOMM_V2 | OPENID4VC.

Inductive ConnectorType := TRACTION | CREDO.

(** libs/credential-ports: the agent-agnostic exchange states. *)
Inductive CredentialExchangeState :=
| ProposalSent | OfferSent | OfferReceived | RequestSent | RequestReceived
| CredentialIssued | CredentialReceived | Done | Abandoned.

Definition cred_ex_states : list CredentialExchangeState :=
  [ProposalSent; OfferSent; OfferReceived; RequestSent; RequestReceived;
   CredentialIssued; CredentialReceived; Done; Abandoned].

Definition cred_ex_str (s : CredentialExchangeState) : string :=
  match s with
  | ProposalSent => "proposal-sent" | OfferSent => "offer-sent"
  | OfferReceived => "offer-received" | RequestSent => "request-sent"
  | RequestReceived => "request-received" | CredentialIssued => "credential-issued"
  | CredentialReceived => "credential-received" | Done => "done"
  | Abandoned => "abandoned"
  end.

Inductive PresentationExchangeState :=
| PRequestSent | PRequestReceived | PresentationSent | PresentationReceived
| Verified | PAbandoned | PDone.

Definition pres_ex_states : list PresentationExchangeState :=
  [PRequestSent; PRequestReceived; PresentationSent; PresentationReceived;
   Verified; PAbandoned; PDone].

Definition pres_ex_str (s : PresentationExchangeState) : string :=
  match s with
  | PRequestSent => "request-sent" | PRequestReceived => "request-received"
  | PresentationSent => "presentation-sent"
  | PresentationReceived => "presentation-received"
  | Verified => "verified" | PAbandoned => "abandoned" | PDone => "done"
  end.

Inductive AgentConnectionState :=
| Invitation | Request | Response | Active | Completed | Error.

Definition agent_connection_states : list AgentConnectionState :=
  [Invitation; Request; Response; Active; Completed; Error].

Definition agent_connection_str (s : AgentConnectionState) : string :=
  match s with
  | Invitation => "invitation" | Request => "request" | Response => "response"
  | Active => "active" | Completed => "completed" | Error => "error"
  end.

Inductive CredentialDefinitionFormat := ANONCREDS | SD_JWT | MDL | W3C_VC.

Inductive CredentialFormat := AnonCreds | JsonLd | SdJwtVc | Mdl.
Definition credential_formats : list CredentialFormat := [AnonCreds; JsonLd; SdJwtVc; Mdl].

Definition definition_format_str (f : CredentialDefinitionFormat) : string :=
  match f with
  | ANONCREDS => "anoncreds" | SD_JWT => "sd-jwt" | MDL => "mdl" | W3C_VC => "w3c-vc"
  end.
Definition credential_format_str (f : CredentialFormat) : string :=
  match f with
  | AnonCreds => "anoncreds" | JsonLd => "jsonld" | SdJwtVc => "sd-jwt-vc" | Mdl => "mdl"
  end.

Inductive RegistrationState := Unverified | RegPending | RegReady | RegFailed.
Inductive CredentialDefinitionStatus := DF_DRAFT | DF_PUBLISHED | DF_DEPRECATED.
(** [IssuanceProfileStatus] and [VerificationProfileStatus] *)
Inductive ProfileStatus := IP_DRAFT | IP_PUBLISHED | IP_DEPRECATED.

Inductive IssueSubmission := NotSubmitted | Submitting | Submitted | Uncertain.

(** [CredentialExchangeState | 'pending' | 'failed'] *)
Inductive ExchangeState := Ex (s : CredentialExchangeState) | ExPending | ExFailed.

Definition exchange_state_str (s : ExchangeState) : string :=
  match s with Ex c => cred_ex_str c | ExPending => "pending" | ExFailed => "failed" end.

Inductive ExchangeRole := Issuer | Holder.

#[export] Instance OperationState_eq : EqDecision OperationState.
Proof. solve_decision. Defined.
#[export] Instance CredentialState_eq : EqDecision CredentialState.
Proof. solve_decision. Defined.
#[export] Instance ConnectionState_eq : EqDecision ConnectionState.
Proof. solve_decision. Defined.
#[export] Instance ConnectionProtocol_eq : EqDecision ConnectionProtocol.
Proof. solve_decision. Defined.
#[export] Instance ConnectorType_eq : EqDecision ConnectorType.
Proof. solve_decision. Defined.
#[export] Instance CredentialExchangeState_eq : EqDecision CredentialExchangeState.
Proof. solve_decision. Defined.
#[export] Instance AgentConnectionState_eq : EqDecision AgentConnectionState.
Proof. solve_decision. Defined.
#[export] Instance CredentialDefinitionFormat_eq : EqDecision CredentialDefinitionFormat.
Proof. solve_decision. Defined.
#[export] Instance CredentialFormat_eq : EqDecision CredentialFormat.
Proof. solve_decision. Defined.
#[export] Instance RegistrationState_eq : EqDecision RegistrationState.
Proof. solve_decision. Defined.
#[export] Instance CredentialDefinitionStatus_eq : EqDecision CredentialDefinitionStatus.
Proof. solve_decision. Defined.
#[export] Instance ProfileStatus_eq : EqDecision ProfileStatus.
Proof. solve_decision. Defined.
#[export] Instance IssueSubmission_eq : EqDecision IssueSubmission.
Proof. solve_decision. Defined.
#[export] Instance ExchangeState_eq : EqDecision ExchangeState.
Proof. solve_decision. Defined.
#[export] Instance ExchangeRole_eq : EqDecision ExchangeRole.
Proof. solve_decision. Defined.

(** ** Rows *)

Record Operation := mkOperation {
  op_id : string;
  op_tenantId : string;
  op_batchId : option string;
  op_type : string;
  op_state : OperationState;
  op_request : json;
  op_result : option json;
  op_externalId : option string;
  op_exchangeId : option string;
  op_viewedAt : option Z;
  op_expiresAt : Z;
  op_createdAt : Z;
  op_updatedAt : Z
}.

Record Credential := mkCredential {
  cr_id : string;
  cr_tenantId : string;
  cr_issuanceProfileId : option string;
  cr_connectionId : option string;
  cr_connectorId : string;
  cr_externalId : option string;
  cr_format : CredentialDefinitionFormat;
  cr_state : CredentialState;
  cr_operationId : string;
  cr_exchangeId : option string;
  cr_metadata : json;
  cr_issuedAt : option Z;
  cr_revokedAt : option Z;
  cr_createdAt : Z;
  cr_updatedAt : Z
}.

Record Connection := mkConnection {
  cn_id : string;
  cn_tenantId : string;
  cn_externalConnectionId : option string;
  cn_theirLabel : option string;
  cn_theirDid : option string;
  cn_state : ConnectionState;
  cn_connectorType : ConnectorType;
  cn_connectorId : option string;
  cn_protocol : ConnectionProtocol;
  cn_metadata : list (string * json);
  cn_createdAt : Z;
  cn_updatedAt : Z
}.

Record CredentialExchange := mkExchange {
  ex_id : string;
  ex_tenantId : string;
  ex_connectorId : string;
  ex_connectionId : option string;
  ex_role : ExchangeRole;
  ex_protocol : string;
  ex_format : CredentialDefinitionFormat;
  ex_state : ExchangeState;
  ex_externalId : option string;
  ex_issueSubmission : IssueSubmission;
  ex_issueOperationId : option string;
  ex_createdAt : Z;
  ex_updatedAt : Z
}.

Inductive TenantStatus := TN_ACTIVE | TN_PENDING_APPROVAL | TN_REJECTED | TN_SUSPENDED | TN_DEACTIVATED.

Definition tenant_status_str (s : TenantStatus) : string :=
  match s with
  | TN_ACTIVE => "active" | TN_PENDING_APPROVAL => "pending_approval" | TN_REJECTED => "rejected"
  | TN_SUSPENDED => "suspended" | TN_DEACTIVATED => "deactivated"
  end.

Record Tenant := mkTenant {
  tn_id : string;
  tn_name : string;
  tn_slug : string;
  tn_description : option string;
  tn_status : TenantStatus;
  tn_config : option json;
  tn_createdAt : Z;
  tn_updatedAt : Z;
  tn_deletedAt : option Z;
  tn_deactivatedAt : option Z
}.

(** Queries leave soft-deleted rows out. *)
Definition tenant_live (t : Tenant) : bool := bool_decide (t.(tn_deletedAt) = None).
Definition find_tenant (id : string) (tenants : gmap string Tenant) : option Tenant :=
  match tenants !! id with
  | Some t => if tenant_live t then Some t else None
  | None => None
  end.

(** An active tenant, for concrete databases. *)
Definition sample_tenant (id : string) (config : option json) : Tenant :=
  mkTenant id id id None TN_ACTIVE config 0 0 None None.

(** Administration: a tenant's users, its OAuth clients, and the rows oidc-provider
    keeps of sessions, grants and tokens. *)
Inductive TenantUserRole := OWNER | ADMIN | MEMBER | READONLY.
Inductive TenantUserStatus := TU_ACTIVE | TU_INVITED | TU_DISABLED.

Definition role_str (r : TenantUserRole) : string :=
  match r with OWNER => "owner" | ADMIN => "admin" | MEMBER => "member" | READONLY => "readonly" end.

Record TenantUser := mkTenantUser {
  tu_id : string;
  tu_tenantId : string;
  tu_externalUserId : option string;
  tu_email : string;
  tu_displayName : option string;
  tu_role : TenantUserRole;
  tu_status : TenantUserStatus;
  tu_isPlatformOperator : bool;
  tu_createdAt : Z;
  tu_updatedAt : Z
}.

Inductive OAuthClientRevokedReason := TENANT_DEACTIVATION.

Record OAuthClient := mkOAuthClient {
  oc_id : string;
  oc_tenantId : string;
  oc_clientId : string;
  oc_clientSecretHash : option string;
  oc_isPublic : bool;
  oc_name : string;
  oc_scopes : list string;
  oc_roles : list string;
  oc_redirectUris : list string;
  oc_postLogoutRedirectUris : list string;
  oc_grantTypes : list string;
  oc_createdBy : option string;
  oc_createdAt : Z;
  oc_refreshTokenTtlSeconds : option Z;
  oc_revokedAt : option Z;
  oc_revokedReason : option OAuthClientRevokedReason
}.

Record OidcModel := mkOidcModel {
  om_id : string;
  om_modelName : string;
  om_oidcId : string;
  om_payload : json;
  om_grantId : option string;
  om_userCode : option string;
  om_uid : option string;
  om_accountId : option string;
  om_expiresAt : option Z;
  om_consumedAt : option Z;
  om_createdAt : Z
}.

Record OidcUpstreamInteraction := mkUpstreamInteraction {
  ui_id : string;
  ui_state : string;
  ui_nonce : string;
  ui_interactionUid : string;
  ui_codeVerifier : string;
  ui_tenantId : string;
  ui_tenantUserId : option string;
  ui_createdAt : Z;
  ui_expiresAt : Z;
  ui_consumedAt : option Z
}.

Record OidcUpstreamSession := mkUpstreamSession {
  us_id : string;
  us_oidcModelId : option string;
  us_oidcSessionUid : option string;
  us_tenantUserId : string;
  us_upstreamSubject : string;
  us_upstreamIdToken : string;
  us_createdAt : Z;
  us_expiresAt : option Z
}.

#[export] Instance TenantStatus_eq : EqDecision TenantStatus.
Proof. solve_decision. Defined.
#[export] Instance TenantUserRole_eq : EqDecision TenantUserRole.
Proof. solve_decision. Defined.
#[export] Instance TenantUserStatus_eq : EqDecision TenantUserStatus.
Proof. solve_decision. Defined.
#[export] Instance OAuthClientRevokedReason_eq : EqDecision OAuthClientRevokedReason.
Proof. solve_decision. Defined.
#[export] Instance Tenant_eq : EqDecision Tenant.
Proof. solve_decision. Defined.
#[export] Instance TenantUser_eq : EqDecision TenantUser.
Proof. solve_decision. Defined.
#[export] Instance OAuthClient_eq : EqDecision OAuthClient.
Proof. solve_decision. Defined.

(** How far the publication of a schema or a credential definition has come. *)
Inductive ArtifactState := Finished | Wait | Action | ArtifactFailed.

Record ArtifactProgress := mkProgress {
  ap_id : option string;
  ap_jobId : option string;
  ap_transactionId : option string;
  ap_state : option ArtifactState
}.

(** The [registration] column; rows of earlier releases may lack the artifacts. *)
Record DefinitionRegistration := mkRegistration {
  dr_issuerId : string;
  dr_schema : option ArtifactProgress;
  dr_definition : option ArtifactProgress;
  dr_stage : option string
}.

Record CredentialDefinition := mkDefinition {
  df_id : string;
  df_tenantId : string;
  df_name : string;
  df_format : CredentialDefinitionFormat;
  df_schemaDefinition : list (string * json);
  df_externalId : option string;
  df_connectorId : option string;
  df_registrationState : RegistrationState;
  df_registrationOperationId : option string;
  df_options : list (string * json);
  df_registration : option DefinitionRegistration;
  df_connectorType : ConnectorType;
  df_version : string;
  df_status : CredentialDefinitionStatus;
  df_metadata : option (list (string * json));
  df_isActive : bool;
  df_createdAt : Z;
  df_updatedAt : Z
}.

(** The claim on publishing one artifact ([anoncreds_publication_intent]). *)
Inductive IntentState := Publishing | IntentSubmitted | IntentRejected.

Record IssuanceProfile := mkProfile {
  ip_id : string;
  ip_tenantId : string;
  ip_name : string;
  ip_version : string;
  ip_description : option string;
  ip_credentialDefinitionId : string;
  ip_attributeSchema : list (string * json);
  ip_defaults : option (list (string * json));
  ip_display : option (list (string * json));
  ip_metadata : list (string * json);
  ip_protocolHint : string;
  ip_status : ProfileStatus;
  ip_createdAt : Z;
  ip_updatedAt : Z
}.

(** A stored predicate, as VerificationPredicateDto writes it. *)
Record VerificationPredicate := mkVPredicate {
  pr_attribute : string;
  pr_condition : string;
  pr_value : string
}.

Record VerificationProfile := mkVProfile {
  vp_id : string;
  vp_tenantId : string;
  vp_name : string;
  vp_version : string;
  vp_description : option string;
  vp_presentationDefinition : list (string * json);
  vp_requestedAttributes : option (list string);
  vp_predicates : option (list VerificationPredicate);
  vp_metadata : list (string * json);
  vp_isPublic : bool;
  vp_protocolHint : string;
  vp_status : ProfileStatus;
  vp_createdAt : Z;
  vp_updatedAt : Z
}.

Definition connector_type_str (t : ConnectorType) : string :=
  match t with TRACTION => "traction" | CREDO => "credo" end.

(** [connector_credential] *)
Record Connector := mkConnector {
  con_id : string;
  con_tenantId : string;
  con_type : ConnectorType;
  con_endpointUrl : string;
  con_active : bool;
  con_credentialsEncrypted : string;       (* bytea *)
  con_keyVersion : jsnum;
  con_agentLogIdHash : option string;
  con_createdAt : Z;
  con_updatedAt : Z
}.

#[export] Instance Operation_eq : EqDecision Operation.
Proof. solve_decision. Defined.
#[export] Instance Credential_eq : EqDecision Credential.
Proof. solve_decision. Defined.
#[export] Instance Connection_eq : EqDecision Connection.
Proof. solve_decision. Defined.
#[export] Instance CredentialExchange_eq : EqDecision CredentialExchange.
Proof. solve_decision. Defined.
#[export] Instance ArtifactState_eq : EqDecision ArtifactState.
Proof. solve_decision. Defined.
#[export] Instance ArtifactProgress_eq : EqDecision ArtifactProgress.
Proof. solve_decision. Defined.
#[export] Instance DefinitionRegistration_eq : EqDecision DefinitionRegistration.
Proof. solve_decision. Defined.
#[export] Instance CredentialDefinition_eq : EqDecision CredentialDefinition.
Proof. solve_decision. Defined.
#[export] Instance IntentState_eq : EqDecision IntentState.
Proof. solve_decision. Defined.
#[export] Instance IssuanceProfile_eq : EqDecision IssuanceProfile.
Proof. solve_decision. Defined.
#[export] Instance VerificationPredicate_eq : EqDecision VerificationPredicate.
Proof. solve_decision. Defined.
#[export] Instance VerificationProfile_eq : EqDecision VerificationProfile.
Proof. solve_decision. Defined.

(** Field updates. *)

Definition op_set_updatedAt (t : Z) (o : Operation) : Operation :=
  mkOperation o.(op_id) o.(op_tenantId) o.(op_batchId) o.(op_type) o.(op_state) o.(op_request)
    o.(op_result) o.(op_externalId) o.(op_exchangeId) o.(op_viewedAt) o.(op_expiresAt)
    o.(op_createdAt) t.

(** [viewedAt] and [expiresAt] *)
Definition op_set_view (v : option Z) (x : Z) (o : Operation) : Operation :=
  mkOperation o.(op_id) o.(op_tenantId) o.(op_batchId) o.(op_type) o.(op_state) o.(op_request)
    o.(op_result) o.(op_externalId) o.(op_exchangeId) v x o.(op_createdAt) o.(op_updatedAt).

Definition op_set_result (r : option json) (o : Operation) : Operation :=
  mkOperation o.(op_id) o.(op_tenantId) o.(op_batchId) o.(op_type) o.(op_state) o.(op_request)
    r o.(op_externalId) o.(op_exchangeId) o.(op_viewedAt) o.(op_expiresAt)
    o.(op_createdAt) o.(op_updatedAt).

Definition op_set_state (s : OperationState) (o : Operation) : Operation :=
  mkOperation o.(op_id) o.(op_tenantId) o.(op_batchId) o.(op_type) s o.(op_request)
    o.(op_result) o.(op_externalId) o.(op_exchangeId) o.(op_viewedAt) o.(op_expiresAt)
    o.(op_createdAt) o.(op_updatedAt).

Definition op_set_expiresAt (x : Z) (o : Operation) : Operation :=
  op_set_view o.(op_viewedAt) x o.

Definition op_set_externalId (e : option string) (o : Operation) : Operation :=
  mkOperation o.(op_id) o.(op_tenantId) o.(op_batchId) o.(op_type) o.(op_state) o.(op_request)
    o.(op_result) e o.(op_exchangeId) o.(op_viewedAt) o.(op_expiresAt)
    o.(op_createdAt) o.(op_updatedAt).

Definition cr_update (s : CredentialState) (issued revoked : option Z)
    (ext : option string) (now : Z) (c : Credential) : Credential :=
  mkCredential c.(cr_id) c.(cr_tenantId) c.(cr_issuanceProfileId) c.(cr_connectionId)
    c.(cr_connectorId) ext c.(cr_format) s c.(cr_operationId) c.(cr_exchangeId)
    c.(cr_metadata) issued revoked c.(cr_createdAt) now.

(** ON DELETE SET NULL of the connection a row refers to. *)
Definition cr_unlink (connection : string) (c : Credential) : Credential :=
  if decide (c.(cr_connectionId) = Some connection) then
    mkCredential c.(cr_id) c.(cr_tenantId) c.(cr_issuanceProfileId) None
      c.(cr_connectorId) c.(cr_externalId) c.(cr_format) c.(cr_state) c.(cr_operationId)
      c.(cr_exchangeId) c.(cr_metadata) c.(cr_issuedAt) c.(cr_revokedAt) c.(cr_createdAt)
      c.(cr_updatedAt)
  else c.

Definition ex_unlink (connection : string) (x : CredentialExchange) : CredentialExchange :=
  if decide (x.(ex_connectionId) = Some connection) then
    mkExchange x.(ex_id) x.(ex_tenantId) x.(ex_connectorId) None x.(ex_role)
      x.(ex_protocol) x.(ex_format) x.(ex_state) x.(ex_externalId) x.(ex_issueSubmission)
      x.(ex_issueOperationId) x.(ex_createdAt) x.(ex_updatedAt)
  else x.

Definition cn_set_state (s : ConnectionState) (c : Connection) : Connection :=
  mkConnection c.(cn_id) c.(cn_tenantId) c.(cn_externalConnectionId) c.(cn_theirLabel)
    c.(cn_theirDid) s c.(cn_connectorType) c.(cn_connectorId) c.(cn_protocol)
    c.(cn_metadata) c.(cn_createdAt) c.(cn_updatedAt).

Definition cn_set_updatedAt (t : Z) (c : Connection) : Connection :=
  mkConnection c.(cn_id) c.(cn_tenantId) c.(cn_externalConnectionId) c.(cn_theirLabel)
    c.(cn_theirDid) c.(cn_state) c.(cn_connectorType) c.(cn_connectorId) c.(cn_protocol)
    c.(cn_metadata) c.(cn_createdAt) t.

Definition cn_set_metadata (md : list (string * json)) (c : Connection) : Connection :=
  mkConnection c.(cn_id) c.(cn_tenantId) c.(cn_externalConnectionId) c.(cn_theirLabel)
    c.(cn_theirDid) c.(cn_state) c.(cn_connectorType) c.(cn_connectorId) c.(cn_protocol)
    md c.(cn_createdAt) c.(cn_updatedAt).

(** Connector binding and what the agent reports about the other party. *)
Definition cn_bind (connector : option string) (ext label did : option string)
    (p : ConnectionProtocol) (c : Connection) : Connection :=
  mkConnection c.(cn_id) c.(cn_tenantId) ext label did c.(cn_state) c.(cn_connectorType)
    connector p c.(cn_metadata) c.(cn_createdAt) c.(cn_updatedAt).

Definition ex_set_state (s : ExchangeState) (x : CredentialExchange) : CredentialExchange :=
  mkExchange x.(ex_id) x.(ex_tenantId) x.(ex_connectorId) x.(ex_connectionId) x.(ex_role)
    x.(ex_protocol) x.(ex_format) s x.(ex_externalId) x.(ex_issueSubmission)
    x.(ex_issueOperationId) x.(ex_createdAt) x.(ex_updatedAt).

Definition ex_set_externalId (e : option string) (x : CredentialExchange) : CredentialExchange :=
  mkExchange x.(ex_id) x.(ex_tenantId) x.(ex_connectorId) x.(ex_connectionId) x.(ex_role)
    x.(ex_protocol) x.(ex_format) x.(ex_state) e x.(ex_issueSubmission)
    x.(ex_issueOperationId) x.(ex_createdAt) x.(ex_updatedAt).

Definition ex_set_submission (s : IssueSubmission) (o : option string)
    (x : CredentialExchange) : CredentialExchange :=
  mkExchange x.(ex_id) x.(ex_tenantId) x.(ex_connectorId) x.(ex_connectionId) x.(ex_role)
    x.(ex_protocol) x.(ex_format) x.(ex_state) x.(ex_externalId) s o
    x.(ex_createdAt) x.(ex_updatedAt).

Definition ex_set_updatedAt (t : Z) (x : CredentialExchange) : CredentialExchange :=
  mkExchange x.(ex_id) x.(ex_tenantId) x.(ex_connectorId) x.(ex_connectionId) x.(ex_role)
    x.(ex_protocol) x.(ex_format) x.(ex_state) x.(ex_externalId) x.(ex_issueSubmission)
    x.(ex_issueOperationId) x.(ex_createdAt) t.

(** Credential definitions: name, schema, connector, version, status, metadata. *)
Definition df_edit (name : string) (schema : list (string * json)) (connector : option string)
    (type : ConnectorType) (version : string) (status : CredentialDefinitionStatus)
    (metadata : option (list (string * json))) (d : CredentialDefinition) : CredentialDefinition :=
  mkDefinition d.(df_id) d.(df_tenantId) name d.(df_format) schema d.(df_externalId) connector
    d.(df_registrationState) d.(df_registrationOperationId) d.(df_options) d.(df_registration)
    type version status metadata d.(df_isActive) d.(df_createdAt) d.(df_updatedAt).

(** The columns registration writes. *)
Definition df_register (external : option string) (state : RegistrationState)
    (operation : option string) (registration : option DefinitionRegistration)
    (status : CredentialDefinitionStatus) (active : bool) (d : CredentialDefinition)
    : CredentialDefinition :=
  mkDefinition d.(df_id) d.(df_tenantId) d.(df_name) d.(df_format) d.(df_schemaDefinition) external
    d.(df_connectorId) state operation d.(df_options) registration d.(df_connectorType)
    d.(df_version) status d.(df_metadata) active d.(df_createdAt) d.(df_updatedAt).

Definition df_set_updatedAt (t : Z) (d : CredentialDefinition) : CredentialDefinition :=
  mkDefinition d.(df_id) d.(df_tenantId) d.(df_name) d.(df_format) d.(df_schemaDefinition)
    d.(df_externalId) d.(df_connectorId) d.(df_registrationState) d.(df_registrationOperationId)
    d.(df_options) d.(df_registration) d.(df_connectorType) d.(df_version) d.(df_status)
    d.(df_metadata) d.(df_isActive) d.(df_createdAt) t.

(** Profiles: what an update of a draft may change, and the status. *)
Definition ip_edit (description : option string) (defaults display : option (list (string * json)))
    (metadata : list (string * json)) (hint : string) (p : IssuanceProfile) : IssuanceProfile :=
  mkProfile p.(ip_id) p.(ip_tenantId) p.(ip_name) p.(ip_version) description
    p.(ip_credentialDefinitionId) p.(ip_attributeSchema) defaults display metadata hint
    p.(ip_status) p.(ip_createdAt) p.(ip_updatedAt).
Definition ip_set_status (s : ProfileStatus) (p : IssuanceProfile) : IssuanceProfile :=
  mkProfile p.(ip_id) p.(ip_tenantId) p.(ip_name) p.(ip_version) p.(ip_description)
    p.(ip_credentialDefinitionId) p.(ip_attributeSchema) p.(ip_defaults) p.(ip_display)
    p.(ip_metadata) p.(ip_protocolHint) s p.(ip_createdAt) p.(ip_updatedAt).
Definition ip_set_updatedAt (t : Z) (p : IssuanceProfile) : IssuanceProfile :=
  mkProfile p.(ip_id) p.(ip_tenantId) p.(ip_name) p.(ip_version) p.(ip_description)
    p.(ip_credentialDefinitionId) p.(ip_attributeSchema) p.(ip_defaults) p.(ip_display)
    p.(ip_metadata) p.(ip_protocolHint) p.(ip_status) p.(ip_createdAt) t.

Definition vp_edit (description : option string) (definition : list (string * json))
    (requested : option (list string)) (predicates : option (list VerificationPredicate))
    (metadata : list (string * json)) (isPublic : bool) (hint : string) (p : VerificationProfile)
    : VerificationProfile :=
  mkVProfile p.(vp_id) p.(vp_tenantId) p.(vp_name) p.(vp_version) description definition requested
    predicates metadata isPublic hint p.(vp_status) p.(vp_createdAt) p.(vp_updatedAt).
Definition vp_set_status (s : ProfileStatus) (p : VerificationProfile) : VerificationProfile :=
  mkVProfile p.(vp_id) p.(vp_tenantId) p.(vp_name) p.(vp_version) p.(vp_description)
    p.(vp_presentationDefinition) p.(vp_requestedAttributes) p.(vp_predicates) p.(vp_metadata)
    p.(vp_isPublic) p.(vp_protocolHint) s p.(vp_createdAt) p.(vp_updatedAt).
Definition vp_set_updatedAt (t : Z) (p : VerificationProfile) : VerificationProfile :=
  mkVProfile p.(vp_id) p.(vp_tenantId) p.(vp_name) p.(vp_version) p.(vp_description)
    p.(vp_presentationDefinition) p.(vp_requestedAttributes) p.(vp_predicates) p.(vp_metadata)
    p.(vp_isPublic) p.(vp_protocolHint) p.(vp_status) p.(vp_createdAt) t.
