(* ===== verification/StateMapping.v ===== *)
(** * Protocol states to record states

    Models protocol-state-change/state-mapping.ts and the operation type
    constants: the tables that turn an agent's webhook state into target
    states of the Operation, Credential and Connection, and the sets of prior
    states a guarded write may move forward from. *)

From Stdlib Require Import Ascii ZArith Lia.
From stdpp Require Import base decidable strings list relations.
From S2P Require Import Prelude Js Entities.

(** ** Operation types *)

Definition CREDENTIAL_DEFINITION_REGISTER : string := "credential-definition.register".
Definition CREDENTIAL_OFFER : string := "credential.offer".
Definition CREDENTIAL_ISSUE : string := "credential.issue".
Definition CREDENTIAL_OFFER_BATCH : string := "credential.offer-batch".
Definition CREDENTIAL_ACCEPT : string := "credential.accept".
Definition CREDENTIAL_REJECT : string := "credential.reject".
Definition CREDENTIAL_REVOKE : string := "credential.revoke".
Definition CREDENTIAL_REVOKE_BATCH : string := "credential.revoke-batch".
Definition PRESENTATION_REQUEST : string := "presentation.request".
Definition CONNECTION_CREATE : string := "connection.create".

Definition KNOWN_OPERATION_TYPES : list string :=
  [CREDENTIAL_DEFINITION_REGISTER; CREDENTIAL_OFFER; CREDENTIAL_ISSUE; CREDENTIAL_OFFER_BATCH;
   CREDENTIAL_ACCEPT; CREDENTIAL_REJECT; CREDENTIAL_REVOKE; CREDENTIAL_REVOKE_BATCH;
   PRESENTATION_REQUEST; CONNECTION_CREATE].

Definition isBatchOperationType (type : string) : bool := ends_with "-batch" type.

Definition isKnownOperationType (type : string) : bool := mem_str type KNOWN_OPERATION_TYPES.

(** ** Topics *)

Inductive ProtocolTopic := issue_credential | present_proof | connections | revocation_registry.

#[export] Instance ProtocolTopic_eq : EqDecision ProtocolTopic.
Proof. solve_decision. Defined.

Definition topic_str (t : ProtocolTopic) : string :=
  match t with
  | issue_credential => "issue_credential"
  | present_proof => "present_proof"
  | connections => "connections"
  | revocation_registry => "revocation_registry"
  end.

Definition TOPIC_OPERATION_TYPES (t : ProtocolTopic) : list string :=
  match t with
  | issue_credential =>
      [CREDENTIAL_OFFER; CREDENTIAL_ISSUE; CREDENTIAL_OFFER_BATCH; CREDENTIAL_ACCEPT;
       CREDENTIAL_REJECT]
  | revocation_registry => [CREDENTIAL_REVOKE; CREDENTIAL_REVOKE_BATCH]
  | present_proof => [PRESENTATION_REQUEST]
  | connections => [CONNECTION_CREATE]
  end.

(** ** Ranks and forward transitions *)

Definition OPERATION_STATE_RANK (s : OperationState) : nat :=
  match s with PENDING => 0 | PROCESSING => 1 | COMPLETED => 2 | FAILED => 2 end.

Definition CREDENTIAL_ALLOWED_FROM_STATES (s : CredentialState) : list CredentialState :=
  match s with
  | OFFERED => []
  | ISSUED => [OFFERED]
  | CFAILED => [OFFERED]
  | REVOKED => [ISSUED]
  | EXPIRED => [OFFERED]
  end.

Definition CONNECTION_STATE_RANK (s : ConnectionState) : nat :=
  match s with
  | INVITED => 0 | REQUESTED => 1 | RESPONDED => 2 | ACTIVE => 3
  | CN_COMPLETED => 4 | ABANDONED => 4
  end.

Definition isForwardOperationTransition (from to : OperationState) : bool :=
  OPERATION_STATE_RANK from <? OPERATION_STATE_RANK to.

Definition isForwardCredentialTransition (from to : CredentialState) : bool :=
  bool_decide (from ∈ CREDENTIAL_ALLOWED_FROM_STATES to).

Definition isForwardConnectionTransition (from to : ConnectionState) : bool :=
  CONNECTION_STATE_RANK from <? CONNECTION_STATE_RANK to.

(** [None] is a target outside the enum: its rank is [undefined] and every
    comparison with it is false. *)
Definition operationStatesBelow (target : option OperationState) : list OperationState :=
  match target with
  | Some t =>
      filter (fun s => (OPERATION_STATE_RANK s <? OPERATION_STATE_RANK t) = true) operation_states
  | None => []
  end.

Definition credentialStatesBelow (target : CredentialState) : list CredentialState :=
  CREDENTIAL_ALLOWED_FROM_STATES target.

(** A connection state as the mapping yields it: one of the enum's values, or
    a member inherited from [Object.prototype] (see [js_index]). *)
Inductive ConnVal := Known (c : ConnectionState) | Inherited (member : string).

#[export] Instance ConnVal_eq : EqDecision ConnVal.
Proof. solve_decision. Defined.

Definition connectionStatesBelow (target : ConnVal) : list ConnectionState :=
  match target with
  | Known t =>
      filter (fun s => (CONNECTION_STATE_RANK s <? CONNECTION_STATE_RANK t) = true) connection_states
  | Inherited _ => []
  end.

(** ** Outcome tables *)

Record ProtocolOutcome := mkOutcome {
  po_operationState : option OperationState;
  po_credentialState : option CredentialState;
  po_connectionState : option ConnVal;
  po_event : option string
}.

(** Members every object literal inherits from [Object.prototype]. *)
Definition object_prototype_members : list string :=
  ["constructor"; "__defineGetter__"; "__defineSetter__"; "hasOwnProperty";
   "__lookupGetter__"; "__lookupSetter__"; "isPrototypeOf"; "propertyIsEnumerable";
   "toString"; "valueOf"; "__proto__"; "toLocaleString"].

(** [table[key]] on an object literal: an own value, else an inherited member. *)
Definition js_index {A} (table : list (string * A)) (key : string) : option (A + string) :=
  match assoc key table with
  | Some v => Some (inl v)
  | None => if mem_str key object_prototype_members then Some (inr key) else None
  end.

Definition ISSUE_CREDENTIAL_OUTCOMES : list (string * ProtocolOutcome) :=
  [(cred_ex_str CredentialIssued,
     mkOutcome (Some COMPLETED) (Some ISSUED) None (Some "credential.issued"));
   (cred_ex_str Done,
     mkOutcome (Some COMPLETED) (Some ISSUED) None (Some "credential.issued"));
   (cred_ex_str Abandoned,
     mkOutcome (Some FAILED) (Some CFAILED) None (Some "credential.rejected"))].

Definition PRESENT_PROOF_OUTCOMES : list (string * ProtocolOutcome) :=
  [(pres_ex_str Verified, mkOutcome (Some COMPLETED) None None (Some "credential.verified"));
   (pres_ex_str PDone, mkOutcome (Some COMPLETED) None None (Some "credential.verified"));
   (pres_ex_str PAbandoned, mkOutcome (Some FAILED) None None None)].

Definition AGENT_TO_CONNECTION_STATE : list (string * ConnectionState) :=
  [(agent_connection_str Invitation, INVITED); (agent_connection_str Request, REQUESTED);
   (agent_connection_str Response, RESPONDED); (agent_connection_str Active, ACTIVE);
   (agent_connection_str Completed, CN_COMPLETED); (agent_connection_str Error, ABANDONED)].

(** An inherited member is truthy and has none of an outcome's properties. *)
Definition inherited_outcome : ProtocolOutcome := mkOutcome None None None None.

Definition resolveFromTable (table : list (string * ProtocolOutcome)) (knownStates : list string)
    (protocolState : string) : option ProtocolOutcome :=
  match js_index table protocolState with
  | Some (inl outcome) => Some outcome
  | Some (inr _) => Some inherited_outcome
  | None =>
      if mem_str protocolState knownStates
      then Some (mkOutcome (Some PROCESSING) None None None)
      else None
  end.

Definition resolveConnectionsOutcome (protocolState : string) : option ProtocolOutcome :=
  match js_index AGENT_TO_CONNECTION_STATE protocolState with
  | None => None
  | Some (inr m) => Some (mkOutcome (Some PROCESSING) None (Some (Inherited m)) None)
  | Some (inl mapped) =>
      if decide (mapped = ABANDONED) then
        Some (mkOutcome (Some FAILED) None (Some (Known mapped)) None)
      else if decide (mapped = ACTIVE \/ mapped = CN_COMPLETED) then
        Some (mkOutcome (Some COMPLETED) None (Some (Known mapped))
                (if decide (mapped = ACTIVE) then Some "connection.established" else None))
      else Some (mkOutcome (Some PROCESSING) None (Some (Known mapped)) None)
  end.

Definition normalize_state (s : string) : string := replace_char "_"%char "-"%char s.

Definition resolveProtocolOutcome (topic : ProtocolTopic) (protocolState : string)
    : option ProtocolOutcome :=
  let normalizedState := normalize_state protocolState in
  match topic with
  | issue_credential =>
      resolveFromTable ISSUE_CREDENTIAL_OUTCOMES (map cred_ex_str cred_ex_states) normalizedState
  | present_proof =>
      resolveFromTable PRESENT_PROOF_OUTCOMES (map pres_ex_str pres_ex_states) normalizedState
  | connections => resolveConnectionsOutcome normalizedState
  | revocation_registry =>
      if String.eqb normalizedState "revoked"
      then Some (mkOutcome (Some COMPLETED) (Some REVOKED) None (Some "credential.revoked"))
      else None
  end.

(** ** The guards admit exactly the forward transitions *)

Lemma operationStatesBelow_spec s t :
  s ∈ operationStatesBelow (Some t) <-> isForwardOperationTransition s t = true.
Proof.
  unfold operationStatesBelow, isForwardOperationTransition.
  rewrite list_elem_of_filter.
  split; [by intros [H _]|]. intros H; split; [done|]. destruct s; set_solver.
Qed.

Lemma credentialStatesBelow_spec s t :
  s ∈ credentialStatesBelow t <-> isForwardCredentialTransition s t = true.
Proof. unfold isForwardCredentialTransition. by rewrite bool_decide_eq_true. Qed.

Lemma connectionStatesBelow_spec s t :
  s ∈ connectionStatesBelow (Known t) <-> isForwardConnectionTransition s t = true.
Proof.
  unfold connectionStatesBelow, isForwardConnectionTransition.
  rewrite list_elem_of_filter.
  split; [by intros [H _]|]. intros H; split; [done|]. destruct s; set_solver.
Qed.

(** ** Lifecycles

    One guarded write moves a record along [op_step], [cred_step] or
    [conn_step]; a record's history is a sequence of such steps. *)

Definition op_step (s t : OperationState) : Prop := isForwardOperationTransition s t = true.
Definition cred_step (s t : CredentialState) : Prop := isForwardCredentialTransition s t = true.
Definition conn_step (s t : ConnectionState) : Prop := isForwardConnectionTransition s t = true.

Definition op_history : relation OperationState := rtc op_step.
Definition cred_history : relation CredentialState := rtc cred_step.
Definition conn_history : relation ConnectionState := rtc conn_step.

#[export] Instance op_history_preorder : PreOrder op_history.
Proof. apply _. Qed.
#[export] Instance cred_history_preorder : PreOrder cred_history.
Proof. apply _. Qed.
#[export] Instance conn_history_preorder : PreOrder conn_history.
Proof. apply _. Qed.

Definition op_terminal (s : OperationState) : Prop := s = COMPLETED \/ s = FAILED.

#[export] Instance op_terminal_dec s : Decision (op_terminal s).
Proof. unfold op_terminal. apply _. Defined.

Lemma op_step_rank s t : op_step s t <-> OPERATION_STATE_RANK s < OPERATION_STATE_RANK t.
Proof. unfold op_step, isForwardOperationTransition. by rewrite Nat.ltb_lt. Qed.

Lemma op_history_rank s t :
  op_history s t -> s = t \/ OPERATION_STATE_RANK s < OPERATION_STATE_RANK t.
Proof.
  induction 1 as [|s u t Hstep _ [->|IH]]; [by left|right..]; apply op_step_rank in Hstep; lia.
Qed.

Lemma op_history_terminal s t : op_terminal s -> op_history s t -> t = s.
Proof.
  intros Hs Hh. apply op_history_rank in Hh as [->|Hr]; [done|].
  destruct Hs as [-> | ->], t; simpl in Hr; lia.
Qed.

Lemma conn_history_rank s t :
  conn_history s t -> s = t \/ CONNECTION_STATE_RANK s < CONNECTION_STATE_RANK t.
Proof.
  induction 1 as [|s u t Hstep _ IH]; [by left|].
  unfold conn_step, isForwardConnectionTransition in Hstep. apply Nat.ltb_lt in Hstep.
  destruct IH as [->|IH]; right; lia.
Qed.

Lemma cred_step_inv s t :
  cred_step s t ->
  (s = OFFERED /\ (t = ISSUED \/ t = CFAILED \/ t = EXPIRED)) \/ (s = ISSUED /\ t = REVOKED).
Proof. destruct s, t; try (by vm_compute); intros _; naive_solver. Qed.

Lemma cred_history_issued t : cred_history ISSUED t -> t = ISSUED \/ t = REVOKED.
Proof.
  intros H. apply rtc_inv in H as [<-|(u & Hs & H)]; [by left|].
  apply cred_step_inv in Hs as [[? _]|[_ ->]]; [done|].
  apply rtc_inv in H as [<-|(v & Hv & _)]; [by right|].
  apply cred_step_inv in Hv. naive_solver.
Qed.

(** Wire states may use underscores or hyphens. *)
Lemma resolveProtocolOutcome_normalized topic s :
  resolveProtocolOutcome topic (normalize_state s) = resolveProtocolOutcome topic s.
Proof.
  unfold resolveProtocolOutcome, normalize_state. by rewrite replace_char_idem.
Qed.
