(* ===== verification/OperationTtl.v ===== *)
(** * Operation time-to-live

    Models operation/operation-ttl.util.ts: the duration parser, the per-tenant
    resolution of TTL overrides and the expiry computation.  An expiry is
    [None] when the JavaScript [Date] is invalid. *)

From Stdlib Require Import Ascii ZArith Lia.
From stdpp Require Import base decidable strings sets list list_relations.
From S2P Require Import Prelude Js Entities StateMapping.

Local Open Scope Z_scope.

Definition HOUR_MS : Z := 60 * 60 * 1000.
Definition DAY_MS : Z := 24 * HOUR_MS.

Inductive OperationTtlKey :=
| completedViewed | completedUnviewed | failedViewed | failedUnviewed | pendingStale.

#[export] Instance OperationTtlKey_eq : EqDecision OperationTtlKey.
Proof. solve_decision. Defined.

Definition DEFAULT_OPERATION_TTL_MS (k : OperationTtlKey) : Z :=
  match k with
  | completedViewed => 1 * HOUR_MS
  | completedUnviewed => 72 * HOUR_MS
  | failedViewed => 24 * HOUR_MS
  | failedUnviewed => 7 * DAY_MS
  | pendingStale => 24 * HOUR_MS
  end.

Definition DEFAULT_CREATED_TTL_MS : Z := 72 * HOUR_MS.

Definition CONFIG_KEY_MAP (k : OperationTtlKey) : string :=
  match k with
  | completedViewed => "completed_viewed"
  | completedUnviewed => "completed_unviewed"
  | failedViewed => "failed_viewed"
  | failedUnviewed => "failed_unviewed"
  | pendingStale => "pending_stale"
  end.

Definition UNIT_TO_MS (unit : string) : option Z :=
  assoc unit [("ms", 1); ("s", 1000); ("m", 60 * 1000); ("h", HOUR_MS); ("d", DAY_MS)].

(** ** The duration pattern

    [/^(\d+(?:\.\d+)?)(ms|s|m|h|d)$/i]: a match is the digits before the
    point, the digits after it, and the lower-cased unit. *)

Definition digit_value (c : ascii) : option Z :=
  let n := N_of_ascii c in
  if ((48 <=? n)%N && (n <=? 57)%N) then Some (Z.of_N (n - 48)) else None.

(** The longest prefix of digits, as their values, and the rest. *)
Fixpoint take_digits (s : string) : list Z * string :=
  match s with
  | String c s' =>
      match digit_value c with
      | Some d => let '(ds, r) := take_digits s' in (d :: ds, r)
      | None => ([], s)
      end
  | EmptyString => ([], s)
  end.

Definition digits_value (ds : list Z) : Z := fold_left (fun acc d => acc * 10 + d) ds 0.

Definition match_duration (s : string) : option (list Z * list Z * string) :=
  let '(int_part, r) := take_digits s in
  match int_part with
  | [] => None
  | _ =>
      let '(frac_part, r') :=
        match r with
        | String "." t =>
            match take_digits t with
            | ([], _) => ([], r)
            | p => p
            end
        | _ => ([], r)
        end in
      let unit := js_lower r' in
      match UNIT_TO_MS unit with
      | Some _ => Some (int_part, frac_part, unit)
      | None => None
      end
  end.

(** [parseFloat] of the matched digits: the nearest binary64 number. *)
Definition parse_float (int_part frac_part : list Z) : jsnum :=
  round_ratio (digits_value (int_part ++ frac_part)) (10 ^ Z.of_nat (length frac_part)).

Definition parseDurationMs (value : json) : option jsnum :=
  match value with
  | JNum n => if is_finite n && gt_zero n then Some n else None
  | JStr s =>
      match match_duration (js_trim s) with
      | Some (i, f, unit) =>
          let amount := parse_float i f in
          match UNIT_TO_MS unit with
          | Some multiplier =>
              if negb (is_finite amount) || negb (gt_zero amount) then None
              else Some (js_mul amount (num_of_Z multiplier))
          | None => None
          end
      | None => None
      end
  | _ => None
  end.

(** The value of [tenantConfig.operation_ttl[key]], [None] when undefined; an
    array is an object without these keys. *)
Definition raw_override (tenantConfig : option json) (k : OperationTtlKey) : option json :=
  get_prop (CONFIG_KEY_MAP k) (get_prop "operation_ttl" tenantConfig).

Definition resolveOperationTtlMs (tenantConfig : option json) (k : OperationTtlKey) : jsnum :=
  match raw_override tenantConfig k with
  | Some raw =>
      match parseDurationMs raw with
      | Some parsed => parsed
      | None => num_of_Z (DEFAULT_OPERATION_TTL_MS k)
      end
  | None => num_of_Z (DEFAULT_OPERATION_TTL_MS k)
  end.

Definition isTerminalOperationState (s : OperationState) : bool :=
  match s with COMPLETED | FAILED => true | _ => false end.

(** Dates are milliseconds; [None] for [state] is a value outside the enum. *)
Definition computeOperationExpiresAt (state : option OperationState) (createdAt : Z)
    (viewedAt : option Z) (tenantConfig : option json) : option Z :=
  let ttl := resolveOperationTtlMs tenantConfig in
  match state with
  | Some PENDING => new_date (js_add (num_of_Z createdAt) (ttl pendingStale))
  | Some PROCESSING => new_date (js_add (num_of_Z createdAt) (num_of_Z DEFAULT_CREATED_TTL_MS))
  | Some COMPLETED =>
      match viewedAt with
      | Some v => new_date (js_add (num_of_Z v) (ttl completedViewed))
      | None => new_date (js_add (num_of_Z createdAt) (ttl completedUnviewed))
      end
  | Some FAILED =>
      match viewedAt with
      | Some v => new_date (js_add (num_of_Z v) (ttl failedViewed))
      | None => new_date (js_add (num_of_Z createdAt) (ttl failedUnviewed))
      end
  | None => new_date (js_add (num_of_Z createdAt) (num_of_Z DEFAULT_CREATED_TTL_MS))
  end.

(** ** Properties *)

Lemma isTerminalOperationState_spec s : isTerminalOperationState s = true <-> op_terminal s.
Proof. unfold op_terminal. destruct s; simpl; split; naive_solver. Qed.

(** A string of decimal digits. *)
Fixpoint digit_string (ds : list Z) : string :=
  match ds with
  | [] => ""
  | d :: ds' => String (ascii_of_N (Z.to_N (d + 48))) (digit_string ds')
  end.

Definition digits (ds : list Z) : Prop := Forall (fun d => 0 <= d < 10) ds.

Lemma digit_value_ascii d : 0 <= d < 10 -> digit_value (ascii_of_N (Z.to_N (d + 48))) = Some d.
Proof.
  intros Hd.
  assert (d = 0 \/ d = 1 \/ d = 2 \/ d = 3 \/ d = 4 \/ d = 5 \/ d = 6 \/ d = 7 \/ d = 8 \/ d = 9)
    as H by lia.
  by destruct H as [->|[->|[->|[->|[->|[->|[->|[->|[->| ->]]]]]]]]].
Qed.

Definition starts_with_digit (s : string) : bool :=
  match s with String c _ => bool_decide (is_Some (digit_value c)) | EmptyString => false end.

Lemma take_digits_string ds r :
  digits ds -> starts_with_digit r = false -> take_digits (digit_string ds +:+ r) = (ds, r).
Proof.
  intros Hds Hr. induction Hds as [|d ds Hd _ IH]; simpl.
  - destruct r as [|c r]; simpl in *; [done|].
    apply bool_decide_eq_false in Hr. destruct (digit_value c); [|done].
    by destruct Hr; eexists.
  - rewrite digit_value_ascii by done. by rewrite IH.
Qed.

Lemma digits_value_nonneg ds : digits ds -> 0 <= digits_value ds.
Proof.
  unfold digits_value. cut (forall acc, 0 <= acc -> digits ds ->
    0 <= fold_left (fun acc d => acc * 10 + d) ds acc); [intros H ?; by apply H|].
  induction ds as [|d ds IH]; intros acc Hacc Hds; simpl; [done|].
  inversion Hds; subst. apply IH; [lia|done].
Qed.

(** Unit names, in the order of the pattern's alternatives. *)
Definition duration_units : list (string * Z) :=
  [("ms", 1); ("s", 1000); ("m", 60 * 1000); ("h", HOUR_MS); ("d", DAY_MS)].

Lemma match_duration_int ds u mult :
  digits ds -> ds <> [] -> (u, mult) ∈ duration_units ->
  match_duration (digit_string ds +:+ u) = Some (ds, [], u) /\ UNIT_TO_MS u = Some mult.
Proof.
  intros Hds Hne Hu.
  assert (starts_with_digit u = false /\ js_lower u = u /\ UNIT_TO_MS u = Some mult /\
          (forall t, u <> String "." t)) as (Hs & Hl & Hm & Hdot).
  { unfold duration_units in Hu. rewrite !elem_of_cons in Hu.
    destruct Hu as [[= -> ->]|[[= -> ->]|[[= -> ->]|[[= -> ->]|[[= -> ->]|Hu]]]]];
      [repeat split; done..|]. by apply elem_of_nil in Hu. }
  split; [|done]. unfold match_duration. rewrite take_digits_string by done.
  destruct ds as [|d ds]; [done|].
  assert (match u with
          | String "." t => match take_digits t with ([], _) => ([], u) | p => p end
          | _ => ([], u) end = ([], u)) as ->.
  { destruct u as [|c u]; [done|]. destruct c as [[] [] [] [] [] [] [] []]; try done. }
  by rewrite Hl, Hm.
Qed.

(** Trimming leaves a digits-then-unit string alone. *)
Lemma trim_start_digit d s : 0 <= d < 10 ->
  trim_start (String (ascii_of_N (Z.to_N (d + 48))) s) = String (ascii_of_N (Z.to_N (d + 48))) s.
Proof.
  intros Hd.
  assert (d = 0 \/ d = 1 \/ d = 2 \/ d = 3 \/ d = 4 \/ d = 5 \/ d = 6 \/ d = 7 \/ d = 8 \/ d = 9)
    as H by lia.
  by destruct H as [->|[->|[->|[->|[->|[->|[->|[->|[->| ->]]]]]]]]].
Qed.

Lemma trim_end_app s u : u <> "" -> trim_end u = u -> trim_end (s +:+ u) = s +:+ u.
Proof.
  intros Hne Hu. induction s as [|c s IH]; simpl; [done|].
  rewrite IH. destruct s; simpl; [|done]. by destruct u.
Qed.

Lemma js_trim_duration ds u mult :
  digits ds -> ds <> [] -> (u, mult) ∈ duration_units ->
  js_trim (digit_string ds +:+ u) = digit_string ds +:+ u.
Proof.
  intros Hds Hne Hu. unfold js_trim.
  destruct ds as [|d ds]; [done|]. inversion Hds; subst.
  assert (trim_start (digit_string (d :: ds) +:+ u) = digit_string (d :: ds) +:+ u) as ->
    by (by apply trim_start_digit).
  unfold duration_units in Hu. rewrite !elem_of_cons in Hu.
  destruct Hu as [[= -> ->]|[[= -> ->]|[[= -> ->]|[[= -> ->]|[[= -> ->]|Hu]]]]];
    [by apply trim_end_app..|]. by apply elem_of_nil in Hu.
Qed.

Lemma parse_float_int ds : parse_float ds [] = num_of_Z (digits_value ds).
Proof. unfold parse_float, num_of_Z. by rewrite app_nil_r. Qed.

Lemma num_of_Z_pos z : 0 < z < 2 ^ 53 -> is_finite (num_of_Z z) && gt_zero (num_of_Z z) = true.
Proof.
  intros Hz. destruct (num_of_Z_form z) as (k & Hk & ->); [lia|]. simpl.
  pose proof (pow2_pos k Hk). apply Z.ltb_lt. nia.
Qed.

(** A duration string of decimal digits followed by a unit is accepted and
    is worth exactly that many units in milliseconds; a number above zero whose
    digits fit a double loses nothing to parsing or to the multiplication's
    operands. *)
Theorem parseDurationMs_units ds u mult :
  digits ds -> ds <> [] -> (u, mult) ∈ duration_units ->
  0 < digits_value ds < 2 ^ 53 ->
  parseDurationMs (JStr (digit_string ds +:+ u)) = Some (num_of_Z (digits_value ds * mult)).
Proof.
  intros Hds Hne Hu Hv. unfold parseDurationMs.
  rewrite (js_trim_duration ds u mult) by done.
  destruct (match_duration_int ds u mult Hds Hne Hu) as [-> ->].
  rewrite parse_float_int.
  pose proof (num_of_Z_pos _ Hv) as Hp. apply andb_true_iff in Hp as [-> ->]. simpl.
  rewrite js_mul_int; [done|lia|].
  unfold duration_units in Hu. rewrite !elem_of_cons in Hu.
  destruct Hu as [[= -> ->]|[[= -> ->]|[[= -> ->]|[[= -> ->]|[[= -> ->]|Hu]]]]];
    [by vm_compute..|]. by apply elem_of_nil in Hu.
Qed.

Lemma parseDurationMs_units_witness :
  parseDurationMs (JStr "72h") = Some (num_of_Z 259200000).
Proof.
  apply (parseDurationMs_units [7; 2] "h" HOUR_MS).
  - repeat (constructor; [lia|]). constructor.
  - done.
  - unfold duration_units. set_solver.
  - by vm_compute.
Defined.

(** The instant the TTL counts from, and the TTL that applies. *)
Definition expiry_base (state : OperationState) (createdAt : Z) (viewedAt : option Z) : Z :=
  match state with
  | PENDING | PROCESSING => createdAt
  | COMPLETED | FAILED => default createdAt viewedAt
  end.

Definition expiry_ttl (state : OperationState) (viewedAt : option Z) (cfg : option json) : jsnum :=
  match state, viewedAt with
  | PENDING, _ => resolveOperationTtlMs cfg pendingStale
  | PROCESSING, _ => num_of_Z DEFAULT_CREATED_TTL_MS
  | COMPLETED, Some _ => resolveOperationTtlMs cfg completedViewed
  | COMPLETED, None => resolveOperationTtlMs cfg completedUnviewed
  | FAILED, Some _ => resolveOperationTtlMs cfg failedViewed
  | FAILED, None => resolveOperationTtlMs cfg failedUnviewed
  end.

Lemma computeOperationExpiresAt_unfold state c v cfg :
  computeOperationExpiresAt (Some state) c v cfg =
  new_date (js_add (num_of_Z (expiry_base state c v)) (expiry_ttl state v cfg)).
Proof. by destruct state, v. Qed.

(** Whenever the TTL that applies is a whole number of milliseconds, the
    expiry is exactly that long after its base: the creation time while the
    operation is in flight or unviewed, the first view otherwise; no rounding
    occurs for any date JavaScript can represent. *)
Theorem computeOperationExpiresAt_exact state c v cfg t :
  expiry_ttl state v cfg = num_of_Z t ->
  0 <= expiry_base state c v -> 0 <= t ->
  expiry_base state c v + t <= 8640000000000000 ->
  computeOperationExpiresAt (Some state) c v cfg = Some (expiry_base state c v + t).
Proof.
  intros Ht Hb H0 Hs. rewrite computeOperationExpiresAt_unfold, Ht.
  assert (8640000000000000 < 2 ^ 53) by (by vm_compute).
  apply new_date_add; lia.
Qed.

Definition sample_ttl_config : option json :=
  Some (JObj [("operation_ttl", JObj [("completed_viewed", JStr "30m"); ("failed_viewed", JNull)])]).

Lemma computeOperationExpiresAt_exact_witness :
  computeOperationExpiresAt (Some COMPLETED) 1700000000000 (Some 1700000500000) sample_ttl_config
  = Some (1700000500000 + 1800000).
Proof.
  apply (computeOperationExpiresAt_exact COMPLETED 1700000000000 (Some 1700000500000)
           sample_ttl_config 1800000); [by vm_compute|simpl; lia..].
Defined.

(** Viewing an operation that is still in flight never moves its expiry,
    and no tenant override reaches an operation that is being processed. *)
Theorem inflight_expiry_ignores_view state c v cfg cfg' :
  isTerminalOperationState state = false ->
  computeOperationExpiresAt (Some state) c v cfg = computeOperationExpiresAt (Some state) c None cfg /\
  (state = PROCESSING ->
   computeOperationExpiresAt (Some state) c v cfg = computeOperationExpiresAt (Some state) c v cfg').
Proof. by destruct state. Qed.

Lemma inflight_expiry_ignores_view_witness :
  computeOperationExpiresAt (Some PENDING) 5 (Some 9) sample_ttl_config
  = computeOperationExpiresAt (Some PENDING) 5 None sample_ttl_config.
Proof.
  exact (proj1 (inflight_expiry_ignores_view PENDING 5 (Some 9) sample_ttl_config None eq_refl)).
Defined.

(** An override that parses is used whatever its size, an override that does
    not parse and a missing one both mean the system default; in particular a
    parseable override is never bounded, so one of [100000000d] yields an
    invalid expiry for every operation created after the epoch. *)
Theorem resolveOperationTtlMs_override cfg k :
  (resolveOperationTtlMs cfg k =
   match raw_override cfg k ≫= parseDurationMs with
   | Some n => n
   | None => num_of_Z (DEFAULT_OPERATION_TTL_MS k)
   end) /\
  (forall c v, 0 < c < 300000000000000 ->
     computeOperationExpiresAt (Some PENDING) c v
       (Some (JObj [("operation_ttl", JObj [("pending_stale", JStr "100000000d")])])) = None).
Proof.
  split; [unfold resolveOperationTtlMs; by destruct (raw_override cfg k)|].
  intros c v Hc. unfold computeOperationExpiresAt.
  replace (resolveOperationTtlMs _ pendingStale) with (num_of_Z 8640000000000000) by (by vm_compute).
  assert (8640000000000000 + 300000000000000 < 2 ^ 53) by (by vm_compute).
  rewrite js_add_int by lia.
  destruct (num_of_Z_trunc (c + 8640000000000000)) as (m & e & -> & Ht); [lia|].
  simpl. rewrite Ht. destruct (Z.leb_spec (Z.abs (c + 8640000000000000)) 8640000000000000); [lia|done].
Qed.
