(* ===== verification/JsText.v ===== *)
(** * Text to values

    What the code uses of the language to read text: [Number(s)], [JSON.parse] and,
    for objects whose values are strings, [JSON.stringify], with the round trip
    between the two.  Texts are UTF-8 byte sequences. *)

From Stdlib Require Import Ascii ZArith Lia.
From stdpp Require Import base decidable strings sets gmap list list_relations.
From S2P Require Import Prelude Js OperationTtl.

Local Open Scope Z_scope.

(** ** [Number(value)] of a string *)

Module JsNumber.

Definition radix_digit (radix : Z) (c : ascii) : option Z :=
  let n := Z.of_N (N_of_ascii (lower_ascii c)) in
  let d := if (48 <=? n) && (n <=? 57) then Some (n - 48)
           else if (97 <=? n) && (n <=? 102) then Some (n - 87) else None in
  match d with Some v => if v <? radix then Some v else None | None => None end.

Fixpoint radix_value (radix acc : Z) (s : string) : option Z :=
  match s with
  | EmptyString => Some acc
  | String c s' => match radix_digit radix c with
                   | Some d => radix_value radix (acc * radix + d) s'
                   | None => None
                   end
  end.

(** [0x], [0o], [0b] literals: digits must follow, and nothing else. *)
Definition radix_literal (radix : Z) (s : string) : jsnum :=
  match s with
  | EmptyString => NNaN
  | _ => match radix_value radix 0 s with Some v => num_of_Z v | None => NNaN end
  end.

(** The exponent part, if there is one: its value; [None]: not a number. *)
Definition exponent (s : string) : option Z :=
  match s with
  | EmptyString => Some 0
  | String c s' =>
      if eq_ascii (lower_ascii c) "e"%char then
        let '(neg, r) := match s' with
                         | String "-" r => (true, r)
                         | String "+" r => (false, r)
                         | _ => (false, s')
                         end in
        match take_digits r with
        | ([], _) => None
        | (ds, EmptyString) => Some (if neg then - digits_value ds else digits_value ds)
        | _ => None
        end
      else None
  end.

(** [digits . digits exponent]; at least one digit on either side. *)
Definition unsigned_decimal (s : string) : jsnum :=
  if String.eqb s "Infinity" then NInf false
  else
    let '(int_part, r) := take_digits s in
    let '(frac_part, r) := match r with String "." t => take_digits t | _ => ([], r) end in
    match int_part ++ frac_part, exponent r with
    | [], _ | _, None => NNaN
    | ds, Some e =>
        let k := e - Z.of_nat (length frac_part) in
        if 0 <=? k then round_ratio (digits_value ds * 10 ^ k) 1
        else round_ratio (digits_value ds) (10 ^ (- k))
    end.

Definition of_string (s : string) : jsnum :=
  match js_trim s with
  | EmptyString => NFin 0 0
  | String "-" r => neg_num (unsigned_decimal r)
  | String "+" r => unsigned_decimal r
  | String "0" (String c r) =>
      let x := lower_ascii c in
      if eq_ascii x "x"%char then radix_literal 16 r
      else if eq_ascii x "o"%char then radix_literal 8 r
      else if eq_ascii x "b"%char then radix_literal 2 r
      else unsigned_decimal (js_trim s)
  | t => unsigned_decimal t
  end.
End JsNumber.

(** ** Patterns of fixed length, one predicate per character *)

Fixpoint match_chars (ps : list (ascii -> bool)) (s : string) : bool :=
  match ps, s with
  | [], EmptyString => true
  | p :: ps', String c s' => p c && match_chars ps' s'
  | _, _ => false
  end.

(** ** JSON texts *)

Lemma assoc_string_app a b c : (a +:+ b) +:+ c = a +:+ (b +:+ c).
Proof. induction a as [|x a IH]; [done|]. exact (f_equal (String x) IH). Qed.

Lemma string_app_nil s : s +:+ "" = s.
Proof. induction s as [|c s IH]; [done|]. exact (f_equal (String c) IH). Qed.

Module JsonText.

Definition QUOTE : ascii := ascii_of_N 34.
Definition BACKSLASH : ascii := ascii_of_N 92.

(** *** [JSON.stringify] of strings, and of objects whose values are strings *)

Definition hex_digit (n : N) : ascii := if (n <? 10)%N then ascii_of_N (48 + n) else ascii_of_N (87 + n).

(** The escape of one character, without the backslash; [None]: itself. *)
Definition escape (c : ascii) : option string :=
  let n := N_of_ascii c in
  if (n =? 34)%N then Some (String QUOTE "")
  else if (n =? 92)%N then Some (String BACKSLASH "")
  else if (n =? 8)%N then Some "b"
  else if (n =? 9)%N then Some "t"
  else if (n =? 10)%N then Some "n"
  else if (n =? 12)%N then Some "f"
  else if (n =? 13)%N then Some "r"
  else if (n <? 32)%N then
    Some ("u00" +:+ String (hex_digit (n / 16)%N) (String (hex_digit (n mod 16)%N) ""))
  else None.

Fixpoint print_chars (s : string) : string :=
  match s with
  | EmptyString => EmptyString
  | String c s' =>
      match escape c with
      | Some e => String BACKSLASH (e +:+ print_chars s')
      | None => String c (print_chars s')
      end
  end.

Definition print_string (s : string) : string := String QUOTE (print_chars s +:+ String QUOTE "").

Definition print_field (f : string * string) : string :=
  print_string f.1 +:+ String ":" (print_string f.2).

Fixpoint print_fields (fs : list (string * string)) : string :=
  match fs with
  | [] => ""
  | [f] => print_field f
  | f :: fs' => print_field f +:+ String "," (print_fields fs')
  end.

Definition print_object (fs : list (string * string)) : string :=
  String "{" (print_fields fs +:+ "}").

(** *** [JSON.parse] *)

Definition is_ws (c : ascii) : bool :=
  let n := N_of_ascii c in (n =? 32)%N || (n =? 9)%N || (n =? 10)%N || (n =? 13)%N.

Fixpoint skip_ws (s : string) : string :=
  match s with
  | String c s' => if is_ws c then skip_ws s' else s
  | EmptyString => EmptyString
  end.

(** UTF-8 of a code point. *)
Definition utf8 (n : Z) : string :=
  let byte x := ascii_of_N (Z.to_N x) in
  if n <? 128 then String (byte n) ""
  else if n <? 2048 then String (byte (192 + n / 64)) (String (byte (128 + n mod 64)) "")
  else if n <? 65536 then
    String (byte (224 + n / 4096)) (String (byte (128 + n / 64 mod 64)) (String (byte (128 + n mod 64)) ""))
  else String (byte (240 + n / 262144)) (String (byte (128 + n / 4096 mod 64))
         (String (byte (128 + n / 64 mod 64)) (String (byte (128 + n mod 64)) ""))).

Definition hex4 (a b c d : ascii) : option Z :=
  match JsNumber.radix_digit 16 a, JsNumber.radix_digit 16 b, JsNumber.radix_digit 16 c,
        JsNumber.radix_digit 16 d with
  | Some x, Some y, Some z, Some t => Some (((x * 16 + y) * 16 + z) * 16 + t)
  | _, _, _, _ => None
  end.

(** A string after its opening quote: its text and what follows the closing one.
    A surrogate pair is one code point; a lone surrogate is U+FFFD once the text
    is UTF-8. *)
Fixpoint parse_chars (s : string) : option (string * string) :=
  match s with
  | EmptyString => None
  | String c s' =>
      if eq_ascii c QUOTE then Some (EmptyString, s')
      else if eq_ascii c BACKSLASH then
        match s' with
        | EmptyString => None
        | String e r =>
            let put (t : string) (k : option (string * string)) :=
              match k with Some (u, rest) => Some (t +:+ u, rest) | None => None end in
            let one n := put (String (ascii_of_N n) "") (parse_chars r) in
            if eq_ascii e QUOTE then one 34%N
            else if eq_ascii e BACKSLASH then one 92%N
            else if eq_ascii e "/"%char then one 47%N
            else if eq_ascii e "b"%char then one 8%N
            else if eq_ascii e "f"%char then one 12%N
            else if eq_ascii e "n"%char then one 10%N
            else if eq_ascii e "r"%char then one 13%N
            else if eq_ascii e "t"%char then one 9%N
            else if eq_ascii e "u"%char then
              match r with
              | String a (String b (String x (String y r4))) =>
                  match hex4 a b x y with
                  | None => None
                  | Some hi =>
                      if (55296 <=? hi) && (hi <=? 56319) then
                        match r4 with
                        | String q (String v (String a' (String b' (String x' (String y' r10))))) =>
                            match (if eq_ascii q BACKSLASH && eq_ascii v "u"%char
                                   then hex4 a' b' x' y' else None) with
                            | Some lo =>
                                if (56320 <=? lo) && (lo <=? 57343)
                                then put (utf8 (65536 + (hi - 55296) * 1024 + (lo - 56320))) (parse_chars r10)
                                else put (utf8 65533) (parse_chars r4)
                            | None => put (utf8 65533) (parse_chars r4)
                            end
                        | _ => put (utf8 65533) (parse_chars r4)
                        end
                      else if (56320 <=? hi) && (hi <=? 57343) then put (utf8 65533) (parse_chars r4)
                      else put (utf8 hi) (parse_chars r4)
                  end
              | _ => None
              end
            else None
        end
      else if (N_of_ascii c <? 32)%N then None
      else match parse_chars s' with Some (u, rest) => Some (String c u, rest) | None => None end
  end.

(** A number of the JSON grammar (no leading zeros, digits after a point), and the
    rest of the text. *)
Definition parse_number (s : string) : option (jsnum * string) :=
  let '(neg, s1) := match s with String "-" r => (true, r) | _ => (false, s) end in
  let '(ip, r1) := take_digits s1 in
  if match ip with [] => true | [_] => false | d :: _ => d =? 0 end then None
  else
    match (match r1 with
           | String "." r2 => match take_digits r2 with ([], _) => None | x => Some x end
           | _ => Some ([], r1)
           end) with
    | None => None
    | Some (fp, r3) =>
        match (match r3 with
               | String c r4 =>
                   if eq_ascii (lower_ascii c) "e"%char then
                     let '(eneg, r5) := match r4 with
                                        | String "-" r => (true, r)
                                        | String "+" r => (false, r)
                                        | _ => (false, r4)
                                        end in
                     match take_digits r5 with
                     | ([], _) => None
                     | (ds, r6) => Some (if eneg : bool then - digits_value ds else digits_value ds, r6)
                     end
                   else Some (0, r3)
               | EmptyString => Some (0, r3)
               end) with
        | None => None
        | Some (e, rest) =>
            let k := e - Z.of_nat (length fp) in
            let v := if 0 <=? k then round_ratio (digits_value (ip ++ fp) * 10 ^ k) 1
                     else round_ratio (digits_value (ip ++ fp)) (10 ^ (- k)) in
            Some (if neg : bool then neg_num v else v, rest)
        end
    end.

Fixpoint strip (prefix s : string) : option string :=
  match prefix, s with
  | EmptyString, _ => Some s
  | String a p', String b s' => if eq_ascii a b then strip p' s' else None
  | _, EmptyString => None
  end.

(** A value and the text after it; [fuel] bounds the nesting and the number of
    elements. *)
Fixpoint parse_value (fuel : nat) (s : string) : option (json * string) :=
  match fuel with
  | O => None
  | S fuel' =>
      match skip_ws s with
      | EmptyString => None
      | String c r as t =>
          if eq_ascii c QUOTE then
            match parse_chars r with Some (u, rest) => Some (JStr u, rest) | None => None end
          else if eq_ascii c "{"%char then
            match skip_ws r with
            | String d r' => if eq_ascii d "}"%char then Some (JObj [], r')
                             else parse_members fuel' [] (skip_ws r)
            | EmptyString => None
            end
          else if eq_ascii c "["%char then
            match skip_ws r with
            | String d r' => if eq_ascii d "]"%char then Some (JArr [], r')
                             else parse_elements fuel' [] (skip_ws r)
            | EmptyString => None
            end
          else match strip "true" t, strip "false" t, strip "null" t with
               | Some r', _, _ => Some (JBool true, r')
               | _, Some r', _ => Some (JBool false, r')
               | _, _, Some r' => Some (JNull, r')
               | _, _, _ => match parse_number t with Some (n, r') => Some (JNum n, r') | None => None end
               end
      end
  end
(** [ "key" : value ( , | } ) ]; a repeated key takes the later value. *)
with parse_members (fuel : nat) (acc : list (string * json)) (s : string) : option (json * string) :=
  match fuel with
  | O => None
  | S fuel' =>
      match skip_ws s with
      | String c r =>
          if eq_ascii c QUOTE then
            match parse_chars r with
            | Some (k, r1) =>
                match skip_ws r1 with
                | String colon r2 =>
                    if eq_ascii colon ":"%char then
                      match parse_value fuel' r2 with
                      | Some (v, r3) =>
                          match skip_ws r3 with
                          | String d r4 =>
                              if eq_ascii d ","%char then parse_members fuel' (assoc_set k v acc) r4
                              else if eq_ascii d "}"%char then Some (JObj (assoc_set k v acc), r4)
                              else None
                          | EmptyString => None
                          end
                      | None => None
                      end
                    else None
                | EmptyString => None
                end
            | None => None
            end
          else None
      | EmptyString => None
      end
  end
with parse_elements (fuel : nat) (acc : list json) (s : string) : option (json * string) :=
  match fuel with
  | O => None
  | S fuel' =>
      match parse_value fuel' s with
      | Some (v, r3) =>
          match skip_ws r3 with
          | String d r4 =>
              if eq_ascii d ","%char then parse_elements fuel' (acc ++ [v]) r4
              else if eq_ascii d "]"%char then Some (JArr (acc ++ [v]), r4)
              else None
          | EmptyString => None
          end
      | None => None
      end
  end.

(** The whole text: every level of nesting and every element takes at least one
    character. *)
Definition parse (s : string) : option json :=
  match parse_value (S (2 * String.length s)) s with
  | Some (v, rest) => match skip_ws rest with EmptyString => Some v | _ => None end
  | None => None
  end.

(** *** The round trip *)

Lemma parse_char c k :
  parse_chars (match escape c with Some e => String BACKSLASH (e +:+ k) | None => String c k end)
  = match parse_chars k with Some (u, rest) => Some (String c u, rest) | None => None end.
Proof. destruct c as [[] [] [] [] [] [] [] []]; reflexivity. Qed.

Lemma parse_print_chars s rest :
  parse_chars (print_chars s +:+ String QUOTE rest) = Some (s, rest).
Proof.
  induction s as [|c s IH]; [reflexivity|].
  replace (print_chars (String c s) +:+ String QUOTE rest) with
    (match escape c with
     | Some e => String BACKSLASH (e +:+ (print_chars s +:+ String QUOTE rest))
     | None => String c (print_chars s +:+ String QUOTE rest)
     end).
  - by rewrite parse_char, IH.
  - cbn [print_chars]. destruct (escape c) as [e|]; [|reflexivity].
    exact (f_equal (String BACKSLASH) (eq_sym (assoc_string_app e (print_chars s) (String QUOTE rest)))).
Qed.

Lemma parse_print_string s rest :
  exists t, print_string s +:+ rest = String QUOTE t /\ parse_chars t = Some (s, rest).
Proof.
  eexists. split; [reflexivity|].
  rewrite assoc_string_app. apply parse_print_chars.
Qed.

Definition strings (fs : list (string * string)) : list (string * json) :=
  (fun f => (f.1, JStr f.2)) <$> fs.

Lemma assoc_set_fresh {A} k (v : A) o : k ∉ o.*1 -> assoc_set k v o = o ++ [(k, v)].
Proof.
  induction o as [|[k' v'] o IH]; intros H; [done|]. simpl in *.
  destruct (String.eqb_spec k k') as [->|]; [by destruct H; left|].
  rewrite IH; [done|]. intros Hin. apply H. by right.
Qed.

(** One member, up to its comma or brace. *)
Lemma parse_member fuel acc f d rest :
  is_ws d = false ->
  parse_members (S (S fuel)) acc (print_field f +:+ String d rest) =
    if eq_ascii d ","%char then parse_members (S fuel) (assoc_set f.1 (JStr f.2) acc) rest
    else if eq_ascii d "}"%char then Some (JObj (assoc_set f.1 (JStr f.2) acc), rest)
    else None.
Proof.
  intros Hd. destruct f as [k v]. unfold print_field. cbn [fst snd].
  rewrite assoc_string_app.
  destruct (parse_print_string k (String ":" (print_string v) +:+ String d rest)) as (t & -> & Hk).
  destruct (parse_print_string v (String d rest)) as (t' & Hv & Hv').
  change (String ":" (print_string v) +:+ String d rest)
    with (String ":" (print_string v +:+ String d rest)) in Hk. rewrite Hv in Hk.
  assert (parse_value (S fuel) (String QUOTE t') = Some (JStr v, String d rest)) as Hval.
  { change (parse_value (S fuel) (String QUOTE t')) with
      (match parse_chars t' with Some (u, rest) => Some (JStr u, rest) | None => None end).
    by rewrite Hv'. }
  assert (skip_ws (String d rest) = String d rest) as Hws by (simpl; by rewrite Hd).
  change (parse_members (S (S fuel)) acc (String QUOTE t)) with
    (match parse_chars t with
     | Some (k, r1) =>
         match skip_ws r1 with
         | String colon r2 =>
             if eq_ascii colon ":"%char then
               match parse_value (S fuel) r2 with
               | Some (v, r3) =>
                   match skip_ws r3 with
                   | String d r4 =>
                       if eq_ascii d ","%char then parse_members (S fuel) (assoc_set k v acc) r4
                       else if eq_ascii d "}"%char then Some (JObj (assoc_set k v acc), r4)
                       else None
                   | EmptyString => None
                   end
               | None => None
               end
             else None
         | EmptyString => None
         end
     | None => None
     end).
  rewrite Hk. change (skip_ws (String ":" (String QUOTE t'))) with (String ":" (String QUOTE t')).
  cbv iota. change (eq_ascii ":" ":") with true. cbv iota. by rewrite Hval, Hws.
Qed.

Lemma parse_print_fields fs : forall fuel acc rest,
  NoDup (acc.*1 ++ fs.*1) -> fs <> [] -> (length fs < fuel)%nat ->
  parse_members (S fuel) acc (print_fields fs +:+ String "}" rest) = Some (JObj (acc ++ strings fs), rest).
Proof.
  induction fs as [|f fs IH]; intros fuel acc rest Hnd Hne Hf; [done|].
  destruct fuel as [|fuel]; [lia|]. simpl in Hnd.
  assert (f.1 ∉ acc.*1) as Hfresh.
  { apply NoDup_app in Hnd as (_ & H & _). intros Hin. destruct (H _ Hin). by left. }
  destruct fs as [|g fs].
  - change (print_fields [f]) with (print_field f). rewrite parse_member by done.
    change (eq_ascii "}" ",") with false. cbv iota. simpl (eq_ascii "}" "}").
    by rewrite assoc_set_fresh.
  - change (print_fields (f :: g :: fs)) with (print_field f +:+ String "," (print_fields (g :: fs))).
    rewrite assoc_string_app.
    change (String "," (print_fields (g :: fs)) +:+ String "}" rest) with
      (String "," (print_fields (g :: fs) +:+ String "}" rest)).
    rewrite parse_member by done. change (eq_ascii "," ",") with true. cbv iota.
    rewrite assoc_set_fresh by done. rewrite IH.
    + by rewrite <-app_assoc.
    + rewrite fmap_app. simpl. by rewrite <-app_assoc.
    + done.
    + simpl in *. lia.
Qed.

Lemma string_length_app a b : String.length (a +:+ b) = (String.length a + String.length b)%nat.
Proof. induction a as [|c a IH]; [done|]. exact (f_equal S IH). Qed.

Lemma print_fields_length fs : (length fs <= String.length (print_fields fs))%nat.
Proof.
  induction fs as [|f fs IH]; [simpl; lia|]. destruct fs as [|g fs].
  - simpl. lia.
  - change (print_fields (f :: g :: fs)) with (print_field f +:+ String "," (print_fields (g :: fs))).
    rewrite string_length_app. simpl in *. lia.
Qed.

(** Parsing what was printed gives the fields back, whatever characters their
    values contain. *)
Lemma parse_print_object fs : NoDup fs.*1 -> parse (print_object fs) = Some (JObj (strings fs)).
Proof.
  intros Hnd. unfold parse, print_object. destruct fs as [|f fs]; [reflexivity|].
  pose proof (print_fields_length (f :: fs)) as Hlen.
  set (text := print_fields (f :: fs) +:+ "}").
  assert (exists t, text = String QUOTE t) as [t Ht].
  { unfold text. destruct fs; eexists; reflexivity. }
  assert (exists n, (length (f :: fs) < n)%nat /\ (2 * String.length (String "{" text) = S n)%nat)
    as (n & Hn & ->).
  { exists (2 * String.length (String "{" text) - 1)%nat. unfold text. simpl String.length.
    rewrite string_length_app. simpl in *. lia. }
  replace (parse_value (S (S n)) (String "{" text)) with (parse_members (S n) [] text).
  - unfold text. rewrite parse_print_fields by done. reflexivity.
  - rewrite Ht. reflexivity.
Qed.

(** *** A parsed object has each key once *)

Lemma elem_of_assoc_set {A} k k' (v : A) o : k ∈ (assoc_set k' v o).*1 <-> k = k' \/ k ∈ o.*1.
Proof.
  induction o as [|[k0 v0] o IH]; simpl.
  - rewrite elem_of_cons, elem_of_nil. tauto.
  - destruct (String.eqb_spec k' k0) as [->|]; simpl; rewrite !elem_of_cons; [|rewrite IH]; tauto.
Qed.

Lemma NoDup_assoc_set {A} k (v : A) o : NoDup o.*1 -> NoDup (assoc_set k v o).*1.
Proof.
  induction o as [|[k0 v0] o IH]; simpl; [intros _; apply NoDup_singleton|]. intros [Hn Hd]%NoDup_cons.
  destruct (String.eqb_spec k k0) as [->|Hk]; simpl; apply NoDup_cons; split; auto.
  rewrite elem_of_assoc_set. naive_solver.
Qed.

Lemma parse_object_keys fuel :
  (forall s o r, parse_value fuel s = Some (JObj o, r) -> NoDup o.*1) /\
  (forall acc s o r, parse_members fuel acc s = Some (JObj o, r) -> NoDup acc.*1 -> NoDup o.*1) /\
  (forall acc s o r, parse_elements fuel acc s <> Some (JObj o, r)).
Proof.
  induction fuel as [|fuel (IHv & IHm & IHe)]; [split_and!; intros; discriminate|]. split_and!.
  - intros s o r H. cbn [parse_value] in H.
    repeat (case_match; try discriminate H; [|]); try (injection H; congruence).
    all: try (injection H as <- <-; apply NoDup_nil_2).
    all: try (by eapply IHm; [exact H|apply NoDup_nil_2]).
    all: try (by apply IHe in H).
    all: repeat (case_match; try discriminate H); try (injection H; congruence).
    all: try (injection H as <- <-; apply NoDup_nil_2).
    all: try (by eapply IHm; [exact H|apply NoDup_nil_2]).
    all: try (by apply IHe in H).
  - intros acc s o r H Hacc. cbn [parse_members] in H.
    repeat (case_match; try discriminate H).
    + eapply IHm; [exact H|by apply NoDup_assoc_set].
    + injection H as <- <-. by apply NoDup_assoc_set.
  - intros acc s o r H. cbn [parse_elements] in H. repeat (case_match; try discriminate H).
    by apply IHe in H.
Qed.

Lemma parse_keys s o : parse s = Some (JObj o) -> NoDup o.*1.
Proof.
  unfold parse. destruct (parse_value _ s) as [[v rest]|] eqn:E; [|done].
  destruct (skip_ws rest); [|done]. intros [= ->].
  exact (proj1 (parse_object_keys _) _ _ _ E).
Qed.
End JsonText.

(** ** [String(value)] and [Number(value)] of a value read from JSON *)

Module JsValue.

(** [floor (log10 (a / d))]; the estimate from the binary logarithm is off by one at most. *)
Definition floor_log10_ratio (a d : Z) : Z :=
  let est := floor_log2_ratio a d * 30103 / 100000 in
  let ge10 p := if 0 <=? p then d * 10 ^ p <=? a else d <=? a * 10 ^ (- p) in
  if ge10 (est + 1) then est + 1 else if ge10 est then est else est - 1.

(** The rational [a * 10^p / d], as numerator and denominator. *)
Definition scale10 (a d p : Z) : Z * Z := if 0 <=? p then (a * 10 ^ p, d) else (a, d * 10 ^ (- p)).

(** The shortest decimal [s * 10^(n - k)] of [k] digits that is read back as the number, the
    nearest of them when there are two. *)
Fixpoint shortest_digits (fuel : nat) (x : jsnum) (a d n k : Z) : Z * Z * Z :=
  let '(num, den) := scale10 a d (k - n) in
  let s := num / den in
  let reads t := let '(p, q) := scale10 t 1 (n - k) in bool_decide (round_ratio p q = x) in
  let nearer := if 2 * (num mod den) <? den then s else if den <? 2 * (num mod den) then s + 1
                else if Z.even s then s else s + 1 in
  if reads nearer then (nearer, k, n)
  else if reads s then (s, k, n)
  else if reads (s + 1) then (s + 1, k, n)
  else match fuel with
       | O => (nearer, k, n)
       | S f => shortest_digits f x a d n (k + 1)
       end.

Fixpoint zeros (n : nat) : string := match n with O => EmptyString | S m => String "0" (zeros m) end.

Fixpoint decimal (fuel : nat) (n : Z) (acc : string) : string :=
  let acc' := String (ascii_of_N (Z.to_N (n mod 10 + 48))) acc in
  match fuel with
  | O => acc'
  | S f => if n / 10 =? 0 then acc' else decimal f (n / 10) acc'
  end.

Definition decimal_text (n : Z) : string := decimal (Z.to_nat (Z.log2 (n + 1))) n "".

(** [Number::toString] from the digits [ds] of the value [0.ds * 10^n]. *)
Definition layout (ds : string) (n : Z) : string :=
  let k := Z.of_nat (String.length ds) in
  let cut i := String.substring i (String.length ds - i) ds in
  if (k <=? n) && (n <=? 21) then ds +:+ zeros (Z.to_nat (n - k))
  else if (0 <? n) && (n <=? 21) then String.substring 0 (Z.to_nat n) ds +:+ ("." +:+ cut (Z.to_nat n))
  else if (-6 <? n) && (n <=? 0) then "0." +:+ (zeros (Z.to_nat (- n)) +:+ ds)
  else
    let sign := if 0 <=? n - 1 then "+" else "-" in
    let mantissa := if k =? 1 then ds else String.substring 0 1 ds +:+ ("." +:+ cut 1%nat) in
    mantissa +:+ ("e" +:+ (sign +:+ decimal_text (Z.abs (n - 1)))).

Definition positive_text (m e : Z) : string :=
  let '(a, d) := if 0 <=? e then (m * 2 ^ e, 1) else (m, 2 ^ (- e)) in
  let '(s, k, n) := shortest_digits 17 (round_dyadic m e) a d (floor_log10_ratio a d + 1) 1 in
  if s =? 10 ^ k then layout "1" (n + 1) else layout (decimal_text s) n.

Definition number_text (x : jsnum) : string :=
  match x with
  | NNaN => "NaN"
  | NInf neg => if neg then "-Infinity" else "Infinity"
  | NFin m e => if m =? 0 then "0" else if m <? 0 then "-" +:+ positive_text (- m) e else positive_text m e
  end.

(** [String(value)]; an array is the texts of its elements, [null] as nothing. *)
Fixpoint to_string (v : json) : string :=
  match v with
  | JNull => "null"
  | JBool b => if b then "true" else "false"
  | JNum x => number_text x
  | JStr s => s
  | JArr l => String.concat "," (map (fun x => match x with JNull => EmptyString | _ => to_string x end) l)
  | JObj _ => "[object Object]"
  end.

(** [Number(value)] *)
Definition to_number (v : json) : jsnum :=
  match v with
  | JNull => NFin 0 0
  | JBool b => num_of_Z (if b then 1 else 0)
  | JNum x => x
  | JStr s => JsNumber.of_string s
  | JArr _ => JsNumber.of_string (to_string v)
  | JObj _ => NNaN
  end.

Example number_texts :
  map (fun s => to_string (JNum (JsNumber.of_string s)))
    ["0.1"; "123456789012345680000"; "1e21"; "1.5e-7"; "0.000001"; "-42"; "9007199254740993"; "5e-324"; "0.30000000000000004"; "1.7976931348623157e308"]
  = ["0.1"; "123456789012345680000"; "1e+21"; "1.5e-7"; "0.000001"; "-42"; "9007199254740992"; "5e-324"; "0.30000000000000004"; "1.7976931348623157e+308"].
Proof. vm_compute. reflexivity. Qed.

(** *** Digits read back *)

Fixpoint decimal_read (s : string) (v : Z) : Z :=
  match s with
  | EmptyString => v
  | String c r => decimal_read r (10 * v + (Z.of_N (N_of_ascii c) - 48))
  end.

Lemma digit_value n : 0 <= n < 10 -> Z.of_N (N_of_ascii (ascii_of_N (Z.to_N (n + 48)))) - 48 = n.
Proof. intros H. rewrite N_ascii_embedding by lia. lia. Qed.

Lemma decimal_value fuel : forall n acc,
  0 <= n < 10 ^ (Z.of_nat fuel + 1) -> decimal_read (decimal fuel n acc) 0 = decimal_read acc n.
Proof.
  induction fuel as [|f IH]; intros n acc Hn.
  - change (10 ^ (Z.of_nat 0 + 1)) with 10 in Hn. cbn [decimal decimal_read]. rewrite digit_value by (apply Z.mod_pos_bound; lia).
    by rewrite Z.mod_small by lia.
  - cbn [decimal]. assert (0 <= n mod 10 < 10) by (apply Z.mod_pos_bound; lia).
    destruct (Z.eqb_spec (n / 10) 0) as [E|E].
    + cbn [decimal_read]. rewrite digit_value by done. f_equal. pose proof (Z.div_mod n 10). lia.
    + rewrite IH. { cbn [decimal_read]. rewrite digit_value by done. f_equal. pose proof (Z.div_mod n 10). lia. }
      rewrite Nat2Z.inj_succ in Hn. replace (Z.succ (Z.of_nat f) + 1) with (Z.of_nat f + 1 + 1) in Hn by lia.
      rewrite (Z.pow_add_r 10 (Z.of_nat f + 1) 1) in Hn by lia. split; [apply Z.div_pos; lia|]. apply Z.div_lt_upper_bound; lia.
Qed.

Lemma decimal_text_value n : 0 <= n -> decimal_read (decimal_text n) 0 = n.
Proof.
  intros Hn. unfold decimal_text. rewrite decimal_value; [done|]. split; [done|].
  rewrite Z2Nat.id by apply Z.log2_nonneg. pose proof (Z.log2_spec (n + 1) ltac:(lia)) as [_ H].
  apply (Z.lt_le_trans _ (2 ^ (Z.log2 (n + 1) + 1))); [unfold Z.succ in H; lia|].
  apply Z.pow_le_mono_l. lia.
Qed.

Lemma decimal_text_inj n n' : 0 <= n -> 0 <= n' -> decimal_text n = decimal_text n' -> n = n'.
Proof. intros H H' E. rewrite <-(decimal_text_value n), <-(decimal_text_value n') by done. by rewrite E. Qed.
End JsValue.
