(* ===== verification/Redaction.v ===== *)
(** * Redaction of agent diagnostics

    common/registration-backend-error.ts: what of an agent's error text reaches a
    caller of the service.  The regular expressions of the source are run by a
    backtracking matcher with the priorities of JavaScript: greedy repetition,
    alternatives from left to right.  Lengths count the characters of the model. *)

From Stdlib Require Import Ascii ZArith Lia.
From stdpp Require Import base decidable strings sets list.
From S2P Require Import Prelude Js JsText.

(** ** Regular expressions *)

Inductive rx :=
| REmpty
| RChr (p : ascii -> bool)
| RMany (p : ascii -> bool) (min : nat)         (* [p{min,}], greedy *)
| RSeq (r1 r2 : rx)
| RAlt (r1 r2 : rx)
| RBound.                                       (* [\b] *)

Definition in_range (lo hi : N) (c : ascii) : bool := ((lo <=? N_of_ascii c) && (N_of_ascii c <=? hi))%N.

Definition digit_char (c : ascii) : bool := in_range 48 57 c.
Definition upper_char (c : ascii) : bool := in_range 65 90 c.
Definition lower_char (c : ascii) : bool := in_range 97 122 c.
Definition is_word (c : ascii) : bool := digit_char c || upper_char c || lower_char c || eq_ascii c "_".
Definition char_in (s : string) (c : ascii) : bool := existsb (eq_ascii c) (String.list_ascii_of_string s).

Definition word_at (c : option ascii) : bool := match c with Some c => is_word c | None => false end.
Definition first_char (s : string) : option ascii := match s with String c _ => Some c | EmptyString => None end.

Section Match.
Context {A : Type}.

(** The character before the position, the number of characters matched so far and
    what is left of the subject. *)
Definition cont : Type := option ascii -> nat -> string -> option A.

Fixpoint rx_many (p : ascii -> bool) (k : cont) (min : nat) (before : option ascii) (n : nat) (s : string)
    : option A :=
  let stop := if (min =? 0)%nat then k before n s else None in
  match s with
  | String c t => if p c then match rx_many p k (pred min) (Some c) (S n) t with
                              | Some x => Some x
                              | None => stop
                              end
                  else stop
  | EmptyString => stop
  end.

Fixpoint rx_match (r : rx) (before : option ascii) (n : nat) (s : string) (k : cont) : option A :=
  match r with
  | REmpty => k before n s
  | RChr p => match s with String c t => if p c then k (Some c) (S n) t else None | EmptyString => None end
  | RMany p min => rx_many p k min before n s
  | RSeq r1 r2 => rx_match r1 before n s (fun b m t => rx_match r2 b m t k)
  | RAlt r1 r2 => match rx_match r1 before n s k with Some x => Some x | None => rx_match r2 before n s k end
  | RBound => if xorb (word_at before) (word_at (first_char s)) then k before n s else None
  end.
End Match.

(** A literal; [ci] is the [i] flag. *)
Fixpoint rx_lit (ci : bool) (s : string) : rx :=
  match s with
  | EmptyString => REmpty
  | String c t => RSeq (RChr (fun x => if ci then eq_ascii (lower_ascii x) (lower_ascii c) else eq_ascii x c))
                    (rx_lit ci t)
  end.

Definition rx_opt (r : rx) : rx := RAlt r REmpty.

Fixpoint rx_seq (rs : list rx) : rx :=
  match rs with [] => REmpty | [r] => r | r :: rs' => RSeq r (rx_seq rs') end.

Fixpoint rx_alt (r : rx) (rs : list rx) : rx :=
  match rs with [] => r | r' :: rs' => RAlt r (rx_alt r' rs') end.

(** Where [/(kept)dropped/] matches at the start of a text: the length of the group
    and of the match. *)
Definition match_here (kept dropped : rx) (before : option ascii) (s : string) : option (nat * nat) :=
  rx_match kept before 0 s (fun b n t => rx_match dropped b n t (fun _ m _ => Some (n, m))).

(** [s.replace(/(kept)dropped/g, '$1' + marker)], for a pattern that matches no empty
    text; [skip] characters belong to the previous match. *)
Fixpoint replace_rx (kept dropped : rx) (marker : string) (skip : nat) (before : option ascii) (s : string)
    : string :=
  match s with
  | EmptyString => EmptyString
  | String c t =>
      match skip with
      | S k => replace_rx kept dropped marker k (Some c) t
      | O => match match_here kept dropped before s with
             | Some (n, S m) =>
                 String.substring 0 n s +:+ (marker +:+ replace_rx kept dropped marker m (Some c) t)
             | _ => String c (replace_rx kept dropped marker 0 (Some c) t)
             end
      end
  end.

(** [s.split(text).join(marker)] for a text that is not empty *)
Fixpoint replace_text (text marker : string) (skip : nat) (s : string) : string :=
  match s with
  | EmptyString => EmptyString
  | String c t =>
      match skip with
      | S k => replace_text text marker k t
      | O => if String.prefix text s then marker +:+ replace_text text marker (String.length text - 1) t
             else String c (replace_text text marker 0 t)
      end
  end.

(** ** registrationErrorText *)

Definition REDACTED : string := "[REDACTED]".
Definition URL_REDACTED : string := "[URL REDACTED]".

Definition not_space (c : ascii) : bool := negb (is_js_space c).
Definition base64url_char (c : ascii) : bool := is_word c || eq_ascii c "-".
Definition APOSTROPHE : ascii := "'".

(** [/\b(Bearer|Basic)\s+\S+/gi]: the scheme is kept *)
Definition AUTH_SCHEME : rx := rx_seq [RBound; RAlt (rx_lit true "Bearer") (rx_lit true "Basic")].
Definition AUTH_VALUE : rx := RSeq (RMany is_js_space 1) (RMany not_space 1).

(** [/\beyJ[A-Za-z0-9_-]*\.[A-Za-z0-9_-]+\.[A-Za-z0-9_-]+\b/g] *)
Definition JWT : rx :=
  rx_seq [RBound; rx_lit false "eyJ"; RMany base64url_char 0; rx_lit false "."; RMany base64url_char 1;
          rx_lit false "."; RMany base64url_char 1; RBound].

Definition rx_two (a b : string) : rx :=
  rx_seq [rx_lit true a; rx_opt (RChr (char_in "_-")); rx_lit true b].

(** The names whose values are dropped, up to the value; and the value. *)
Definition SECRET_NAME : rx :=
  rx_seq [rx_alt (rx_lit true "authorization")
            [rx_two "api" "key"; rx_two "access" "token"; rx_two "refresh" "token"; rx_two "client" "secret";
             rx_two "wallet" "secret"; rx_lit true "password"; rx_lit true "secret"; rx_lit true "token"];
          rx_opt (RChr (fun c => eq_ascii c JsonText.QUOTE || eq_ascii c APOSTROPHE));
          RMany is_js_space 0; RChr (char_in ":="); RMany is_js_space 0].
Definition rx_quoted (q : ascii) : rx :=
  rx_seq [RChr (eq_ascii q); RMany (fun c => negb (eq_ascii c q)) 0; RChr (eq_ascii q)].
Definition SECRET_VALUE : rx :=
  rx_alt (rx_quoted JsonText.QUOTE)
    [rx_quoted APOSTROPHE; RMany (fun c => not_space c && negb (char_in ",;}" c)) 1].

(** The address of a page, up to a space, a quote or an angle bracket, in any case. *)
Definition URL_TEXT : rx :=
  rx_seq [rx_lit true "http"; rx_opt (rx_lit true "s"); rx_lit true "://";
          RMany (fun c => not_space c && negb (eq_ascii c JsonText.QUOTE || eq_ascii c APOSTROPHE || char_in "<>" c)) 1].

Definition is_control (c : ascii) : bool := ((N_of_ascii c <? 32) || (N_of_ascii c =? 127))%N.
Definition blank_control (c : ascii) : ascii := if is_control c then " "%char else c.

Definition redact_secret (text secret : string) : string :=
  if String.eqb secret "" then text else replace_text secret REDACTED 0 text.

Definition redact_patterns (text : string) : string :=
  let t := replace_rx AUTH_SCHEME AUTH_VALUE (" " +:+ REDACTED) 0 None text in
  let t := replace_rx REmpty JWT REDACTED 0 None t in
  let t := replace_rx SECRET_NAME SECRET_VALUE REDACTED 0 None t in
  replace_rx REmpty URL_TEXT URL_REDACTED 0 None t.

Definition registrationErrorText (value : option json) (secrets : list string) : option string :=
  match value with
  | Some (JStr v) =>
      if String.eqb (js_trim v) "" then None
      else Some (String.substring 0 1024
                   (map_string blank_control (redact_patterns (fold_left redact_secret secrets v))))
  | _ => None
  end.

(** ** Occurrences *)

Definition occurs (t s : string) : Prop := exists a b, s = a +:+ (t +:+ b).

(** A secret that cannot come from the markers themselves: no bracket, no space, and
    not a piece of their words. *)
Definition redactable (secret : string) : Prop :=
  (forall c, c ∈ String.list_ascii_of_string secret -> char_in "[] " c = false) /\
  ~ occurs secret "URL REDACTED".

Fixpoint sdrop (n : nat) (s : string) : string :=
  match n, s with
  | O, _ => s
  | S k, String _ t => sdrop k t
  | S _, EmptyString => EmptyString
  end.

Lemma sdrop_split n s : s = String.substring 0 n s +:+ sdrop n s.
Proof.
  revert n. induction s as [|c s IH]; intros [|n]; simpl; try done.
  exact (f_equal (String c) (IH n)).
Qed.

Lemma sdrop_skip n m s : n <= m -> exists x, sdrop n s = x +:+ sdrop m s.
Proof.
  intros H. exists (String.substring 0 (m - n) (sdrop n s)).
  replace (sdrop m s) with (sdrop (m - n) (sdrop n s)); [apply sdrop_split|].
  revert m s H. induction n as [|n IH]; intros m s H; simpl; [by rewrite Nat.sub_0_r|].
  destruct m as [|m]; [lia|]. destruct s as [|c s]; simpl; [by destruct (m - n)|]. apply IH. lia.
Qed.

Lemma occurs_cons t c s : occurs t s -> occurs t (String c s).
Proof. intros (a & b & ->). by exists (String c a), b. Qed.

Lemma occurs_cons_inv t c s : occurs t (String c s) -> (exists b, String c s = t +:+ b) \/ occurs t s.
Proof.
  intros ([|x a] & b & E); [by left; exists b|]. right. injection E as <- ->. by exists a, b.
Qed.

Lemma occurs_prefix t n s : occurs t (String.substring 0 n s) -> occurs t s.
Proof.
  intros (a & b & E). exists a, (b +:+ sdrop n s).
  rewrite (sdrop_split n s) at 1. rewrite E. by rewrite !assoc_string_app.
Qed.

(** ** Edits

    Every step keeps characters, or puts a marker in place of some. *)
Definition markers : list string := [" [REDACTED]"; REDACTED; URL_REDACTED].

Inductive redacted : string -> string -> Prop :=
| redacted_nil : redacted "" ""
| redacted_keep c s t : redacted s t -> redacted (String c s) (String c t)
| redacted_mark x m s t : m ∈ markers -> redacted s t -> redacted (x +:+ s) (m +:+ t).

Lemma redacted_keeps p s t : redacted s t -> redacted (p +:+ s) (p +:+ t).
Proof. intros H. induction p as [|c p IH]; [done|]. exact (redacted_keep c _ _ IH). Qed.

Section Secret.
Context (secret : string) (Hs : redactable secret).

Lemma redactable_nonempty : secret <> "".
Proof. intros ->. pose proof Hs as [_ H]. apply H. by exists "", "URL REDACTED". Qed.

(** Text without brackets and spaces that starts a result starts the original. *)
Lemma redacted_prefix s t : redacted s t ->
  forall p b, (forall c, c ∈ String.list_ascii_of_string p -> char_in "[] " c = false) ->
  t = p +:+ b -> exists b', s = p +:+ b'.
Proof.
  induction 1 as [|c s t _ IH|x m s t Hm _ _]; intros p b Hp Ht.
  - destruct p; [by exists ""|done].
  - destruct p as [|c' p]; [by eexists|]. injection Ht as <- Ht.
    destruct (IH p b) as [b' ->]; [|done|by exists b'].
    intros c' Hc. apply Hp. simpl. by right.
  - destruct p as [|c p]; [by eexists|]. exfalso.
    assert (char_in "[] " c = false) as Hc by (apply Hp; left).
    unfold markers in Hm. set_unfold in Hm. destruct Hm as [->|[->|[->|[]]]]; by injection Ht as <- _.
Qed.

(** The secret does not start with a character the markers are delimited by. *)
Lemma redactable_head c s : char_in "[] " c = true -> occurs secret (String c s) -> occurs secret s.
Proof.
  intros Hc [[b E]|H]%occurs_cons_inv; [exfalso|done].
  pose proof redactable_nonempty as Hne. pose proof Hs as [Hch _]. destruct secret as [|x r]; [done|].
  injection E as <- _. assert (char_in "[] " c = false) by (apply Hch; left). congruence.
Qed.

Lemma prefix_of_word p b w t :
  (forall c, c ∈ String.list_ascii_of_string p -> char_in "[] " c = false) ->
  w +:+ String "]" t = p +:+ b -> exists b', w = p +:+ b'.
Proof.
  revert w. induction p as [|c p IH]; intros w Hp E; [by exists w|].
  destruct w as [|c' w]; simpl in E.
  - injection E as <- _. specialize (Hp "]"%char). simpl in Hp. discriminate Hp. left.
  - injection E as <- E. destruct (IH w) as [b' ->]; [|done|by exists b'].
    intros x Hx. apply Hp. simpl. by right.
Qed.

Lemma occurs_word v w t : v +:+ w = "URL REDACTED" -> occurs secret (w +:+ String "]" t) -> occurs secret t.
Proof.
  revert v. induction w as [|c w IH]; intros v Hv H; [by apply (redactable_head "]")|].
  apply occurs_cons_inv in H as [[b E]|H].
  - exfalso. pose proof Hs as [Hch Hw]. apply Hw.
    destruct (prefix_of_word secret b (String c w) t) as [b' E']; [done..|].
    exists v, b'. by rewrite <-E', Hv.
  - apply (IH (v +:+ String c "")); [|done]. rewrite assoc_string_app. exact Hv.
Qed.

Lemma occurs_mark m t : m ∈ markers -> occurs secret (m +:+ t) -> occurs secret t.
Proof.
  unfold markers. intros Hm H. set_unfold in Hm. destruct Hm as [->|[->|[->|[]]]].
  - apply (redactable_head " "), (redactable_head "[") in H; [|done..]. by apply (occurs_word "URL " "REDACTED").
  - apply (redactable_head "[") in H; [|done]. by apply (occurs_word "URL " "REDACTED").
  - apply (redactable_head "[") in H; [|done]. by apply (occurs_word "" "URL REDACTED").
Qed.

Lemma redacted_occurs s t : redacted s t -> occurs secret t -> occurs secret s.
Proof.
  induction 1 as [|c s t He IH|x m s t Hm _ IH]; intros Ho; [done| |].
  - apply occurs_cons_inv in Ho as [[b E]|Ho]; [|by apply occurs_cons, IH].
    destruct (redacted_prefix (String c s) (String c t)) with (p := secret) (b := b) as [b' ->];
      [by constructor|apply Hs|done|]. by exists "", b'.
  - destruct (IH (occurs_mark m t Hm Ho)) as (a & b & ->). exists (x +:+ a), b. by rewrite assoc_string_app.
Qed.
End Secret.

(** ** The replacements are edits *)

Lemma replace_text_redacted text marker s skip :
  marker ∈ markers -> redacted (sdrop skip s) (replace_text text marker skip s).
Proof.
  intros Hm. revert skip. induction s as [|c s IH]; intros skip; cbn [replace_text].
  - destruct skip; constructor.
  - destruct skip as [|k]; cbn [sdrop]; [|apply IH]. destruct (String.prefix _ _); [|constructor; apply (IH 0)].
    destruct (sdrop_skip 0 (String.length text - 1) s) as [x E]; [lia|].
    change (sdrop 0 s) with s in E. rewrite E at 1. by apply (redacted_mark (String c x)).
Qed.

Lemma rx_many_le {A} p (k : cont) min before n s (x : A) :
  rx_many p k min before n s = Some x -> exists b m t, n <= m /\ k b m t = Some x.
Proof.
  revert min before n. induction s as [|c s IH]; intros min before n; simpl.
  - destruct (min =? 0)%nat; [|done]. intros. by eexists _, _, _.
  - destruct (p c).
    + destruct (rx_many p k (pred min) (Some c) (S n) s) eqn:E; intros H.
      * injection H as <-. apply IH in E as (b & m & t & Hm & Hk). exists b, m, t. split; [lia|done].
      * destruct (min =? 0)%nat; [|done]. by eexists _, _, _.
    + destruct (min =? 0)%nat; [|done]. intros. by eexists _, _, _.
Qed.

Lemma rx_match_le {A} r before n s k (x : A) :
  rx_match r before n s k = Some x -> exists b m t, n <= m /\ k b m t = Some x.
Proof.
  revert before n s k. induction r as [|p|p min|r1 IH1 r2 IH2|r1 IH1 r2 IH2|]; intros before n s k; simpl.
  - intros. by eexists _, _, _.
  - destruct s as [|c s]; [done|]. destruct (p c); [|done]. intros. eexists _, (S n), _. split; [lia|done].
  - apply rx_many_le.
  - intros (b & m & t & Hm & H)%IH1. apply IH2 in H as (b' & m' & t' & Hm' & H).
    exists b', m', t'. split; [lia|done].
  - destruct (rx_match r1 before n s k) eqn:E; [|apply IH2]. intros [= <-]. by apply IH1 in E.
  - destruct (xorb _ _); [|done]. intros. by eexists _, _, _.
Qed.

Lemma match_here_le kept dropped before s n m : match_here kept dropped before s = Some (n, m) -> n <= m.
Proof.
  unfold match_here. intros (b & n' & t & _ & H)%rx_match_le.
  apply rx_match_le in H as (b' & m' & t' & Hm & [= <- <-]). done.
Qed.

Lemma replace_rx_redacted kept dropped marker s skip before :
  marker ∈ markers -> redacted (sdrop skip s) (replace_rx kept dropped marker skip before s).
Proof.
  intros Hm. revert skip before. induction s as [|c s IH]; intros skip before; simpl.
  - destruct skip; constructor.
  - destruct skip as [|k]; simpl; [|apply IH].
    destruct (match_here _ _ _ _) as [[n [|m]]|] eqn:E; try by (constructor; apply (IH 0)).
    apply match_here_le in E. rewrite (sdrop_split n (String c s)) at 1. apply redacted_keeps.
    destruct (sdrop_skip n (S m) (String c s) E) as [x ->]. by apply redacted_mark, IH.
Qed.

(** ** No secret is left *)

Lemma prefix_spec p s : String.prefix p s = true <-> exists b, s = p +:+ b.
Proof.
  rewrite String.prefix_correct. split.
  - intros E. exists (sdrop (String.length p) s). rewrite <-E at 1. apply sdrop_split.
  - intros [b ->]. induction p as [|c p IH]; simpl; [by destruct b|]. by rewrite IH.
Qed.

Lemma replace_text_clean secret s skip :
  redactable secret -> ~ occurs secret (replace_text secret REDACTED skip s).
Proof.
  intros Hs. assert (REDACTED ∈ markers) as Hm by (unfold markers; set_solver).
  revert skip. induction s as [|c s IH]; intros skip; cbn [replace_text].
  - intros ([|? ?] & b & E); [|done]. pose proof (redactable_nonempty _ Hs). by destruct secret.
  - destruct skip as [|k]; [|apply IH]. destruct (String.prefix secret (String c s)) eqn:Ep.
    + intros Ho%occurs_mark; [|done..]. by eapply IH.
    + intros [[b E]|Ho]%occurs_cons_inv; [|by eapply IH].
      destruct (redacted_prefix (String c s) (String c (replace_text secret REDACTED 0 s))) with (p := secret) (b := b)
        as [b' E']; [|apply Hs|done|].
      * constructor. by apply (replace_text_redacted secret REDACTED s 0).
      * assert (String.prefix secret (String c s) = true) by (apply prefix_spec; by exists b'). congruence.
Qed.

Lemma redact_secret_redacted text secret : redacted text (redact_secret text secret).
Proof.
  unfold redact_secret. destruct (String.eqb_spec secret "").
  - induction text; by constructor.
  - apply (replace_text_redacted secret REDACTED text 0). unfold markers; set_solver.
Qed.

Lemma redact_all_occurs secret secrets text :
  redactable secret -> occurs secret (fold_left redact_secret secrets text) -> occurs secret text.
Proof.
  intros Hs. revert text. induction secrets as [|x l IH]; simpl; [done|].
  intros text Ho%IH. by eapply redacted_occurs, Ho; [|apply redact_secret_redacted].
Qed.

Lemma redact_all_clean secret secrets text :
  redactable secret -> secret ∈ secrets -> ~ occurs secret (fold_left redact_secret secrets text).
Proof.
  intros Hs. revert text. induction secrets as [|x l IH]; intros text Hin; [set_solver|]. simpl.
  apply elem_of_cons in Hin as [<-|Hin]; [|by apply IH]. intros Ho%redact_all_occurs; [|done].
  unfold redact_secret in Ho. destruct (String.eqb_spec secret "") as [->|]; [by eapply redactable_nonempty|].
  by eapply replace_text_clean.
Qed.

Lemma redact_patterns_occurs secret text :
  redactable secret -> occurs secret (redact_patterns text) -> occurs secret text.
Proof.
  intros Hs Ho. unfold redact_patterns in Ho.
  do 4 (eapply redacted_occurs in Ho; [|done|apply (replace_rx_redacted _ _ _ _ 0); unfold markers; set_solver]).
  exact Ho.
Qed.

Lemma map_blank_prefix p s b :
  (forall c, c ∈ String.list_ascii_of_string p -> char_in "[] " c = false) ->
  map_string blank_control s = p +:+ b -> exists b', s = p +:+ b'.
Proof.
  revert s. induction p as [|c p IH]; intros s Hp E; [by exists s|].
  destruct s as [|x s]; [done|]. simpl in E. injection E as Ec E.
  destruct (IH s) as [b' ->]; [|done|].
  { intros y Hy. apply Hp. simpl. by right. }
  exists b'. unfold blank_control in Ec. destruct (is_control x); [|by subst].
  exfalso. assert (char_in "[] " c = false) by (apply Hp; left). by subst c.
Qed.

Lemma blank_control_occurs secret text :
  redactable secret -> occurs secret (map_string blank_control text) -> occurs secret text.
Proof.
  intros Hs. induction text as [|c s IH]; [done|]. intros [[b E]|Ho]%occurs_cons_inv.
  - destruct (map_blank_prefix secret (String c s) b) as [b' ->]; [apply Hs|done|]. by exists "", b'.
  - by apply occurs_cons, IH.
Qed.

(** What is passed on contains none of the secrets. *)
Lemma registrationErrorText_clean value secrets text secret :
  registrationErrorText value secrets = Some text -> secret ∈ secrets -> redactable secret -> ~ occurs secret text.
Proof.
  unfold registrationErrorText. intros H Hin Hs. destruct value as [[| | |v| |]|]; try done.
  destruct (String.eqb _ _); [done|]. injection H as <-.
  intros Ho%occurs_prefix%blank_control_occurs%redact_patterns_occurs; [|done..].
  by apply (redact_all_clean secret secrets v).
Qed.

Lemma substring_length n t : String.length (String.substring 0 n t) <= n.
Proof. revert n. induction t as [|c t IH]; intros [|n]; simpl; try lia. specialize (IH n). lia. Qed.

Lemma registrationErrorText_length value secrets text :
  registrationErrorText value secrets = Some text -> String.length text <= 1024.
Proof.
  unfold registrationErrorText. intros H. destruct value as [[| | |v| |]|]; try done.
  destruct (String.eqb _ _); [done|]. injection H as <-. apply substring_length.
Qed.

(** [redactable] decided. *)
Fixpoint occursb (t s : string) : bool :=
  String.prefix t s || match s with String _ s' => occursb t s' | EmptyString => false end.

Lemma occursb_spec t s : occursb t s = true <-> occurs t s.
Proof.
  induction s as [|c s IH]; cbn [occursb]; rewrite orb_true_iff, prefix_spec.
  - split; [|intros ([|? ?] & b & E); [left; by exists b|done]].
    intros [[b ->]|]; [by exists "", b|done].
  - rewrite IH. split; [|apply occurs_cons_inv]. intros [[b ->]|H]; [by exists "", b|by apply occurs_cons].
Qed.

Definition redactableb (secret : string) : bool :=
  forallb (fun c => negb (char_in "[] " c)) (String.list_ascii_of_string secret) &&
  negb (occursb secret "URL REDACTED").

Lemma redactableb_spec secret : redactableb secret = true -> redactable secret.
Proof.
  unfold redactableb. rewrite andb_true_iff, forallb_forall, negb_true_iff. intros [H1 H2]. split.
  - intros c Hc%list_elem_of_In. by apply H1, negb_true_iff in Hc.
  - intros Ho%occursb_spec. congruence.
Qed.
