(* ===== verification/Db.v ===== *)
(** * Database, transactions and effects

    The service's state: the PostgreSQL tables it writes, the job queue that
    lives in the same database, and what leaves the process (in-process
    events, calls to an agent).  A handler is a [Prog]: a state transformer
    that returns a value or throws.

    A repository call is made either on its own connection ([NoTx], reads and
    writes the committed tables) or with a transaction's manager ([Tx], reads
    and writes the transaction's working copy).  [transaction] starts the
    working copy from the committed tables, commits it when its body returns
    and drops it when the body throws.

    Where SQL leaves the choice of a row open (no [ORDER BY], or ties), the
    model takes the first in key order; the specifications of the selectors
    used by the proofs ([find_one_Some], [find_latest_Some], ...) do not say
    which one. *)

From Stdlib Require Import Ascii ZArith Lia.
From stdpp Require Import base decidable strings pretty sets gmap list list_relations.
From S2P Require Import Prelude Js Entities StateMapping.

Local Open Scope Z_scope.

(** ** Errors *)

Inductive AdapterErrorKind :=
| ConnectorUnavailable | BackendNotFound | SubmissionRejected (reason : string)
| ConnectorSelectionAmbiguous | FormatNotSupported | AdapterTimeout
| AdapterValidation (issues : list string).

Inductive Exn :=
| NotFoundException (msg : string)
| BadRequestException (msg : string)
| ConflictException (msg : string)
| ServiceUnavailableException (msg : string)
| BadGatewayException (msg : string)
| UnauthorizedException (msg : string)
| ForbiddenException (msg : string)
| NotImplementedException (msg : string)
| UnprocessableEntityException (msg : string)
| TenantNotActiveException (msg : string) (status : TenantStatus)
| InsufficientTenantRoleException (msg : string)
| LogAccessDeniedError (status : Z) (reason : string)
| AdapterError (kind : AdapterErrorKind) (code msg : string)
| QueryFailed (code constraint : string)
| RegistrationBackendError (status : option Z) (backendCode : option string) (detail : string)
| AxiosError (status : option Z) (data : option json)  (* [error.response?.status] and [data] *)
    (code : option string) (msg : string)
| JsError (msg : string).

(** [error instanceof AdapterError] *)
Definition is_adapter_error (e : Exn) : option (string * string) :=
  match e with AdapterError _ code msg => Some (code, msg) | _ => None end.

(** [isUniqueConstraintViolation(error)] without a constraint name *)
Definition isUniqueConstraintViolation (e : Exn) : bool :=
  match e with QueryFailed code _ => String.eqb code "23505" | _ => false end.

(** [getPostgresErrorCode(error) === code] *)
Definition has_pg_code (code : string) (e : Exn) : bool :=
  match e with QueryFailed c _ => String.eqb c code | _ => false end.

(** [isUniqueConstraintViolation(error, constraintName)] *)
Definition violates (constraintName : string) (e : Exn) : bool :=
  match e with
  | QueryFailed c constraint => String.eqb c "23505" && String.eqb constraint constraintName
  | _ => false
  end.

(** [error.message] *)
Definition exn_message (e : Exn) : string :=
  match e with
  | NotFoundException m | BadRequestException m | ConflictException m
  | ServiceUnavailableException m | BadGatewayException m | UnauthorizedException m
  | ForbiddenException m | NotImplementedException m | UnprocessableEntityException m
  | TenantNotActiveException m _ | InsufficientTenantRoleException m | LogAccessDeniedError _ m
  | AdapterError _ _ m | JsError m | AxiosError _ _ _ m => m
  | QueryFailed code _ => code
  | RegistrationBackendError _ _ detail => detail
  end.

(** [new ValidationError(issues)] *)
Definition ValidationError (issues : list string) : Exn :=
  AdapterError (AdapterValidation issues) "VALIDATION_ERROR" "Validation failed".

(** ** Jobs *)

Record ProtocolStateChangeJobData := mkPscData {
  psc_tenantId : string;
  psc_topic : ProtocolTopic;
  psc_externalId : string;
  psc_protocolState : string;
  psc_payload : list (string * json)
}.

Inductive Job :=
| WebhookDispatch (tenantId event resourceId : string) (occurredAt : Z)
| AuditWrite (tenantId action resourceType resourceId : string)
| ProtocolStateChange (data : ProtocolStateChangeJobData)
| DefinitionRegister (tenantId definitionId : string) (checks : option Z)
| TenantStatusChange (tenantId : string) (previousStatus status : TenantStatus)
| TenantConfigChange (tenantId : string) (config : option json).

(** ** Tables *)

(** A row of [audit_log]: tenant, action, resource type, resource id. *)
Definition AuditEntry : Type := string * string * string * string.

(** Tenant, connector and artifact key of a publication intent. *)
Definition IntentKey : Type := string * string * string.

(** The tables of tenant administration: users, OAuth clients, the default scopes of
    each role ([role_scope]), the tenants' overrides of them ([tenant_role_scope],
    keyed by tenant and role), oidc-provider's rows ([oidc_model]), and the sign-ins and
    sessions at the upstream identity provider. *)
Record AdminTables := mkAdmin {
  ad_users : gmap string TenantUser;
  ad_clients : gmap string OAuthClient;
  ad_roleScopes : gmap string (list string);
  ad_overrides : gmap (string * string) (list string);
  ad_oidc : gmap string OidcModel;
  ad_interactions : gmap string OidcUpstreamInteraction;
  ad_upstream : gmap string OidcUpstreamSession
}.

Definition empty_admin : AdminTables := mkAdmin ∅ ∅ ∅ ∅ ∅ ∅ ∅.

Record DB := mkDB {
  db_operations : gmap string Operation;
  db_credentials : gmap string Credential;
  db_connections : gmap string Connection;
  db_exchanges : gmap string CredentialExchange;
  db_tenants : gmap string Tenant;
  db_connectors : gmap string Connector;
  db_definitions : gmap string CredentialDefinition;
  db_profiles : gmap string IssuanceProfile;
  db_vprofiles : gmap string VerificationProfile;
  db_intents : gmap IntentKey IntentState;
  db_jobs : list Job;
  db_audit : list AuditEntry;
  (* counters recorded by BusinessMetricsService, which holds them until the
     caller's transaction commits *)
  db_metrics : list (string * string);
  db_admin : AdminTables
}.

Definition set_operations (t : gmap string Operation) (d : DB) : DB :=
  mkDB t d.(db_credentials) d.(db_connections) d.(db_exchanges) d.(db_tenants)
    d.(db_connectors) d.(db_definitions) d.(db_profiles) d.(db_vprofiles) d.(db_intents)
    d.(db_jobs) d.(db_audit) d.(db_metrics) d.(db_admin).
Definition set_credentials (t : gmap string Credential) (d : DB) : DB :=
  mkDB d.(db_operations) t d.(db_connections) d.(db_exchanges) d.(db_tenants) d.(db_connectors)
    d.(db_definitions) d.(db_profiles) d.(db_vprofiles) d.(db_intents) d.(db_jobs) d.(db_audit)
    d.(db_metrics) d.(db_admin).
Definition set_connections (t : gmap string Connection) (d : DB) : DB :=
  mkDB d.(db_operations) d.(db_credentials) t d.(db_exchanges) d.(db_tenants) d.(db_connectors)
    d.(db_definitions) d.(db_profiles) d.(db_vprofiles) d.(db_intents) d.(db_jobs) d.(db_audit)
    d.(db_metrics) d.(db_admin).
Definition set_exchanges (t : gmap string CredentialExchange) (d : DB) : DB :=
  mkDB d.(db_operations) d.(db_credentials) d.(db_connections) t d.(db_tenants)
    d.(db_connectors) d.(db_definitions) d.(db_profiles) d.(db_vprofiles) d.(db_intents)
    d.(db_jobs) d.(db_audit) d.(db_metrics) d.(db_admin).
Definition set_tenants (t : gmap string Tenant) (d : DB) : DB :=
  mkDB d.(db_operations) d.(db_credentials) d.(db_connections) d.(db_exchanges) t
    d.(db_connectors) d.(db_definitions) d.(db_profiles) d.(db_vprofiles) d.(db_intents)
    d.(db_jobs) d.(db_audit) d.(db_metrics) d.(db_admin).
Definition set_connectors (t : gmap string Connector) (d : DB) : DB :=
  mkDB d.(db_operations) d.(db_credentials) d.(db_connections) d.(db_exchanges) d.(db_tenants)
    t d.(db_definitions) d.(db_profiles) d.(db_vprofiles) d.(db_intents) d.(db_jobs)
    d.(db_audit) d.(db_metrics) d.(db_admin).
Definition set_definitions (t : gmap string CredentialDefinition) (d : DB) : DB :=
  mkDB d.(db_operations) d.(db_credentials) d.(db_connections) d.(db_exchanges) d.(db_tenants)
    d.(db_connectors) t d.(db_profiles) d.(db_vprofiles) d.(db_intents) d.(db_jobs)
    d.(db_audit) d.(db_metrics) d.(db_admin).
Definition set_profiles (t : gmap string IssuanceProfile) (d : DB) : DB :=
  mkDB d.(db_operations) d.(db_credentials) d.(db_connections) d.(db_exchanges) d.(db_tenants)
    d.(db_connectors) d.(db_definitions) t d.(db_vprofiles) d.(db_intents) d.(db_jobs)
    d.(db_audit) d.(db_metrics) d.(db_admin).
Definition set_vprofiles (t : gmap string VerificationProfile) (d : DB) : DB :=
  mkDB d.(db_operations) d.(db_credentials) d.(db_connections) d.(db_exchanges) d.(db_tenants)
    d.(db_connectors) d.(db_definitions) d.(db_profiles) t d.(db_intents) d.(db_jobs)
    d.(db_audit) d.(db_metrics) d.(db_admin).
Definition set_intents (t : gmap IntentKey IntentState) (d : DB) : DB :=
  mkDB d.(db_operations) d.(db_credentials) d.(db_connections) d.(db_exchanges) d.(db_tenants)
    d.(db_connectors) d.(db_definitions) d.(db_profiles) d.(db_vprofiles) t d.(db_jobs)
    d.(db_audit) d.(db_metrics) d.(db_admin).
Definition set_logs (jobs : list Job) (audit : list AuditEntry) (metrics : list (string * string))
    (d : DB) : DB :=
  mkDB d.(db_operations) d.(db_credentials) d.(db_connections) d.(db_exchanges) d.(db_tenants)
    d.(db_connectors) d.(db_definitions) d.(db_profiles) d.(db_vprofiles) d.(db_intents) jobs
    audit metrics d.(db_admin).
Definition set_admin (t : AdminTables) (d : DB) : DB :=
  mkDB d.(db_operations) d.(db_credentials) d.(db_connections) d.(db_exchanges) d.(db_tenants)
    d.(db_connectors) d.(db_definitions) d.(db_profiles) d.(db_vprofiles) d.(db_intents)
    d.(db_jobs) d.(db_audit) d.(db_metrics) t.
(** The upstream sessions of a deleted user or record are deleted with it: the foreign
    keys of [oidc_upstream_session] cascade. *)
Definition keep_upstream (P : OidcUpstreamSession -> bool) (t : gmap string OidcUpstreamSession)
    : gmap string OidcUpstreamSession := filter (fun kv => P kv.2 = true) t.
Definition set_users (t : gmap string TenantUser) (d : DB) : DB :=
  let a := d.(db_admin) in
  set_admin (mkAdmin t a.(ad_clients) a.(ad_roleScopes) a.(ad_overrides) a.(ad_oidc) a.(ad_interactions)
    (keep_upstream (fun s => bool_decide (is_Some (t !! s.(us_tenantUserId)))) a.(ad_upstream))) d.
Definition set_clients (t : gmap string OAuthClient) (d : DB) : DB :=
  let a := d.(db_admin) in
  set_admin (mkAdmin a.(ad_users) t a.(ad_roleScopes) a.(ad_overrides) a.(ad_oidc)
    a.(ad_interactions) a.(ad_upstream)) d.
Definition set_overrides (t : gmap (string * string) (list string)) (d : DB) : DB :=
  let a := d.(db_admin) in
  set_admin (mkAdmin a.(ad_users) a.(ad_clients) a.(ad_roleScopes) t a.(ad_oidc)
    a.(ad_interactions) a.(ad_upstream)) d.
Definition set_oidc (t : gmap string OidcModel) (d : DB) : DB :=
  let a := d.(db_admin) in
  set_admin (mkAdmin a.(ad_users) a.(ad_clients) a.(ad_roleScopes) a.(ad_overrides) t a.(ad_interactions)
    (keep_upstream (fun s => match s.(us_oidcModelId) with Some i => bool_decide (is_Some (t !! i)) | None => true end)
       a.(ad_upstream))) d.
Definition set_interactions (t : gmap string OidcUpstreamInteraction) (d : DB) : DB :=
  let a := d.(db_admin) in
  set_admin (mkAdmin a.(ad_users) a.(ad_clients) a.(ad_roleScopes) a.(ad_overrides) a.(ad_oidc)
    t a.(ad_upstream)) d.
Definition set_upstream (t : gmap string OidcUpstreamSession) (d : DB) : DB :=
  let a := d.(db_admin) in
  set_admin (mkAdmin a.(ad_users) a.(ad_clients) a.(ad_roleScopes) a.(ad_overrides) a.(ad_oidc)
    a.(ad_interactions) t) d.
Definition add_job (j : Job) (d : DB) : DB :=
  set_logs (d.(db_jobs) ++ [j]) d.(db_audit) d.(db_metrics) d.
Definition add_audit (x : AuditEntry) (d : DB) : DB :=
  set_logs d.(db_jobs) (d.(db_audit) ++ [x]) d.(db_metrics) d.
Definition add_metric (x : string * string) (d : DB) : DB :=
  set_logs d.(db_jobs) d.(db_audit) (d.(db_metrics) ++ [x]) d.

(** What becomes of a pg-boss insert: done, never sent to the database, or sent
    and failed there. *)
Inductive SendFate := Sent | NotSent | StatementFailed.

(** ** The process *)

(** A request to an agent, with the bearer token it carries. *)
Record HttpRequest := mkHttp {
  hq_method : string;
  hq_url : string;
  hq_params : list (string * json);
  hq_bearer : option string;
  hq_data : option json
}.

(** A token an agent issued, and for which sub-wallet. *)
Record CachedToken := mkCachedToken {
  ct_token : string;
  ct_expiresAtMs : jsnum;
  ct_endpointUrl : string;
  ct_tractionTenantId : option string
}.

(** What a pod keeps between requests: the tokens by connector, and, to reason about
    it, the requests it sent with what came back. *)
Record Pod := mkPod {
  pd_tokens : gmap string CachedToken;
  pd_http : list (HttpRequest * (Exn + json))
}.

Definition empty_pod : Pod := mkPod ∅ [].

(** ** The world *)

Record World := mkWorld {
  committed : DB;
  working : DB;
  clock : Z;                              (* microseconds *)
  uuids : nat -> string;                  (* the identifiers the database generates *)
  uuid_next : nat;
  send_fate : nat -> SendFate;            (* of the n-th pg-boss insert *)
  still_queued : nat -> bool;             (* whether the n-th keyed insert finds its key queued *)
  sends : nat;
  emitted : list (string * string * string);  (* in-process events: name, tenant, external id *)
  calls : list (string * string);         (* agent calls: method, argument *)
  pod : Pod
}.

Definition set_dbs (c t : DB) (w : World) : World :=
  mkWorld c t w.(clock) w.(uuids) w.(uuid_next) w.(send_fate) w.(still_queued) w.(sends) w.(emitted) w.(calls) w.(pod).

Definition set_counters (u s : nat) (w : World) : World :=
  mkWorld w.(committed) w.(working) w.(clock) w.(uuids) u w.(send_fate) w.(still_queued) s w.(emitted) w.(calls) w.(pod).

Definition set_trace (e : list (string * string * string)) (c : list (string * string))
    (w : World) : World :=
  mkWorld w.(committed) w.(working) w.(clock) w.(uuids) w.(uuid_next) w.(send_fate) w.(still_queued) w.(sends) e c w.(pod).

Definition set_clock (t : Z) (w : World) : World :=
  mkWorld w.(committed) w.(working) t w.(uuids) w.(uuid_next) w.(send_fate) w.(still_queued) w.(sends)
    w.(emitted) w.(calls) w.(pod).

Definition set_pod (p : Pod) (w : World) : World :=
  mkWorld w.(committed) w.(working) w.(clock) w.(uuids) w.(uuid_next) w.(send_fate) w.(still_queued) w.(sends)
    w.(emitted) w.(calls) p.

(** Concrete worlds, for evaluation: the given tables, identifiers u0, u1, ...,
    and a queue that accepts every job. *)
Definition empty_db : DB := mkDB ∅ ∅ ∅ ∅ ∅ ∅ ∅ ∅ ∅ ∅ [] [] [] empty_admin.
Definition world_of (d : DB) (clock : Z) : World :=
  mkWorld d d clock (fun n => "u" +:+ pretty n) 0 (fun _ => Sent)
    (fun _ => false) 0 [] [] empty_pod.

Inductive Mgr := NoTx | Tx.

Definition view (m : Mgr) (w : World) : DB :=
  match m with NoTx => w.(committed) | Tx => w.(working) end.

Definition modify_view (m : Mgr) (f : DB -> DB) (w : World) : World :=
  match m with
  | NoTx => set_dbs (f w.(committed)) w.(working) w
  | Tx => set_dbs w.(committed) (f w.(working)) w
  end.

(** ** Programs *)

Definition Prog (A : Type) : Type := World -> World * (Exn + A).

#[export] Instance prog_ret : MRet Prog := fun A a w => (w, inr a).
#[export] Instance prog_bind : MBind Prog := fun A B k m w =>
  match m w with
  | (w', inr a) => k a w'
  | (w', inl e) => (w', inl e)
  end.

Definition throw {A} (e : Exn) : Prog A := fun w => (w, inl e).

(** A check that throws or passes. *)
Definition of_sum {A} (r : Exn + A) : Prog A := fun w => (w, r).

Definition catch {A} (m : Prog A) (h : Exn -> Prog A) : Prog A := fun w =>
  match m w with
  | (w', inl e) => h e w'
  | r => r
  end.

Definition transaction {A} (m : Prog A) : Prog A := fun w =>
  match m (set_dbs w.(committed) w.(committed) w) with
  | (w', inr a) => (set_dbs w'.(working) w.(working) w', inr a)
  | (w', inl e) => (set_dbs w'.(committed) w.(working) w', inl e)
  end.

(** A transaction whose last statement may have failed without its error
    reaching the caller: PostgreSQL answers the COMMIT of an aborted
    transaction with a rollback and no error, so the body's result is returned
    although nothing was written. *)
Definition transaction_or_abort {A} (m : Prog (A * bool)) : Prog A := fun w =>
  match m (set_dbs w.(committed) w.(committed) w) with
  | (w', inr (a, false)) => (set_dbs w'.(working) w.(working) w', inr a)
  | (w', inr (a, true)) => (set_dbs w'.(committed) w.(working) w', inr a)
  | (w', inl e) => (set_dbs w'.(committed) w.(working) w', inl e)
  end.

Definition read {A} (m : Mgr) (f : DB -> A) : Prog A := fun w => (w, inr (f (view m w))).

Definition modify (m : Mgr) (f : DB -> DB) : Prog unit := fun w => (modify_view m f w, inr tt).

Definition prog_when (b : bool) (m : Prog unit) : Prog unit := if b then m else mret tt.

Fixpoint map_prog {A B} (f : A -> Prog B) (l : list A) : Prog (list B) :=
  match l with
  | [] => mret []
  | x :: l' => y ← f x; ys ← map_prog f l'; mret (y :: ys)
  end.

(** [new Date()] in milliseconds, and [now()] of the database. *)
Definition now_ms : Prog Z := fun w => (w, inr (date_of w.(clock))).
Definition now_us : Prog Z := fun w => (w, inr w.(clock)).

Definition gen_uuid : Prog string := fun w =>
  (set_counters (S w.(uuid_next)) w.(sends) w, inr (w.(uuids) w.(uuid_next))).

(** pg-boss [send]: an insert into the queue's table, with the caller's
    transaction when a manager is given. *)
Definition send (m : Mgr) (j : Job) : Prog unit := fun w =>
  let w' := set_counters w.(uuid_next) (S w.(sends)) w in
  match w.(send_fate) w.(sends) with
  | Sent => (modify_view m (add_job j) w', inr tt)
  | NotSent => (w', inl (JsError "pg-boss send failed"))
  | StatementFailed => (w', inl (QueryFailed "XX000" "pg-boss"))
  end.

(** The queues whose jobs carry a [singletonKey]: the key of the job. *)
Definition singleton_key (j : Job) : option string :=
  match j with DefinitionRegister _ definitionId _ => Some definitionId | _ => None end.

(** A send to a queue of policy [stately]: a job whose key is still queued is
    not inserted again, and the sender is not told. *)
Definition send_keyed (m : Mgr) (j : Job) : Prog unit := fun w =>
  if w.(still_queued) w.(sends) &&
     existsb (fun j' => bool_decide (singleton_key j' = singleton_key j)) (view m w).(db_jobs)
  then (set_counters w.(uuid_next) (S w.(sends)) w, inr tt)
  else send m j w.

(** [eventEmitter.emit] *)
Definition emit_event (name tenantId externalId : string) : Prog unit := fun w =>
  (set_trace (w.(emitted) ++ [(name, tenantId, externalId)]) w.(calls) w, inr tt).

Definition log_call (method arg : string) : Prog unit := fun w =>
  (set_trace w.(emitted) (w.(calls) ++ [(method, arg)]) w, inr tt).

(** DomainAuditService.emit: fail-open.  Inside a transaction a statement that
    failed has aborted the transaction, whatever the code does with the error:
    the next statement is refused.  [audit_emit Tx] is used where another
    statement follows, so the refusal is raised here. *)
Definition audit_emit (m : Mgr) (tenantId action resourceType resourceId : string) : Prog unit :=
  catch (send m (AuditWrite tenantId action resourceType resourceId)) (fun e =>
    match m, e with
    | Tx, QueryFailed _ _ => throw (QueryFailed "25P02" "")
    | _, _ => mret tt
    end).

(** The same as the last statement of a transaction: whether it left the
    transaction aborted. *)
Definition audit_emit_last (tenantId action resourceType resourceId : string) : Prog bool :=
  catch (_ ← send Tx (AuditWrite tenantId action resourceType resourceId); mret false)
    (fun e => match e with QueryFailed _ _ => mret true | _ => mret false end).

(** JobsService.sendInTransaction to the webhook.dispatch queue. *)
Definition dispatch (m : Mgr) (tenantId event resourceId : string) : Prog unit :=
  occurredAt ← now_ms;
  send m (WebhookDispatch tenantId event resourceId occurredAt).

(** AuditLogService.write: one row of [audit_log]. *)
Definition audit_write (m : Mgr) (x : AuditEntry) : Prog unit := modify m (add_audit x).

(** BusinessMetricsService.recordCredentialOperation *)
Definition record_metric (m : Mgr) (type outcome : string) : Prog unit :=
  modify m (add_metric (type, outcome)).

(** Running a sequence backwards from its result. *)
Lemma bind_inr {A B} (m : Prog A) (k : A -> Prog B) w w' b :
  (m ≫= k) w = (w', inr b) -> exists w1 a, m w = (w1, inr a) /\ k a w1 = (w', inr b).
Proof. unfold mbind, prog_bind. destruct (m w) as [w1 [e|a]]; intros; simplify_eq; eauto. Qed.

Lemma bind_inl {A B} (m : Prog A) (k : A -> Prog B) w w' e :
  (m ≫= k) w = (w', inl e) ->
  m w = (w', inl e) \/ exists w1 a, m w = (w1, inr a) /\ k a w1 = (w', inl e).
Proof. unfold mbind, prog_bind. destruct (m w) as [w1 [e'|a]]; intros; simplify_eq; eauto. Qed.

Lemma catch_inr {A} (p : Prog A) h w w' a :
  catch p h w = (w', inr a) ->
  p w = (w', inr a) \/ exists w1 e, p w = (w1, inl e) /\ h e w1 = (w', inr a).
Proof. unfold catch. destruct (p w) as [w1 [e|b]]; eauto. Qed.

Lemma bind_run {A B} (m : Prog A) (k : A -> Prog B) w w1 a :
  m w = (w1, inr a) -> (m ≫= k) w = k a w1.
Proof. unfold mbind, prog_bind. by intros ->. Qed.

Lemma bind_throw {A B} (m : Prog A) (k : A -> Prog B) w w1 e :
  m w = (w1, inl e) -> (m ≫= k) w = (w1, inl e).
Proof. unfold mbind, prog_bind. by intros ->. Qed.

(** Splits a successful run of a sequence into the runs of its parts. *)
Ltac run_inv H :=
  let w1 := fresh "w" in let a := fresh "a" in let E := fresh "E" in
  apply bind_inr in H as (w1 & a & E & H).

(** ** Selecting rows *)

Definition rows {A} (t : gmap string A) : list A := (map_to_list t).*2.

Definition select {A} (P : A -> bool) (t : gmap string A) : list A :=
  filter (fun r => P r = true) (rows t).

Definition find_one {A} (P : A -> bool) (t : gmap string A) : option A := head (select P t).

(** [ORDER BY createdAt DESC LIMIT 1] *)
Fixpoint latest {A} (created : A -> Z) (l : list A) : option A :=
  match l with
  | [] => None
  | x :: l' =>
      match latest created l' with
      | Some y => if created x <? created y then Some y else Some x
      | None => Some x
      end
  end.

Definition find_latest {A} (created : A -> Z) (P : A -> bool) (t : gmap string A) : option A :=
  latest created (select P t).

Definition count_rows {A} (P : A -> bool) (t : gmap string A) : nat := length (select P t).

Lemma elem_of_rows {A} (t : gmap string A) r : r ∈ rows t <-> exists id, t !! id = Some r.
Proof.
  unfold rows. rewrite list_elem_of_fmap. setoid_rewrite elem_of_map_to_list'. split.
  - intros ([i r'] & -> & H). by exists i.
  - intros [i H]. by exists (i, r).
Qed.

Lemma elem_of_select {A} (P : A -> bool) (t : gmap string A) r :
  r ∈ select P t <-> P r = true /\ exists id, t !! id = Some r.
Proof. unfold select. by rewrite list_elem_of_filter, elem_of_rows. Qed.

(** Rows stored under their ids are distinct. *)
Lemma select_ids_NoDup {A} (id : A -> string) (P : A -> bool) (t : gmap string A) :
  (forall i r, t !! i = Some r -> id r = i) -> NoDup (id <$> select P t).
Proof.
  intros K. unfold select, rows.
  assert (id <$> (map_to_list t).*2 = (map_to_list t).*1) as E.
  { rewrite <-list_fmap_compose. apply list_fmap_ext. intros ? [i r] H%list_elem_of_lookup_2%elem_of_map_to_list.
    by apply K. }
  eapply sublist_NoDup; [apply (NoDup_fst_map_to_list t)|]. rewrite <-E. apply fmap_sublist, sublist_filter.
Qed.

Lemma find_one_Some {A} (P : A -> bool) (t : gmap string A) r :
  find_one P t = Some r -> P r = true /\ exists id, t !! id = Some r.
Proof.
  unfold find_one. intros H. apply elem_of_select.
  destruct (select P t); simplify_eq/=. by left.
Qed.

Lemma find_one_None {A} (P : A -> bool) (t : gmap string A) :
  find_one P t = None <-> forall id r, t !! id = Some r -> P r = false.
Proof.
  unfold find_one. split.
  - intros H id r Hr. destruct (P r) eqn:HP; [|done].
    assert (r ∈ select P t) as Hin by (apply elem_of_select; eauto).
    destruct (select P t); [by apply elem_of_nil in Hin|done].
  - intros H. destruct (select P t) as [|r l] eqn:E; [done|].
    assert (r ∈ select P t) as Hin by (rewrite E; left).
    apply elem_of_select in Hin as [HP [id Hid]]. apply H in Hid. congruence.
Qed.

Lemma latest_Some {A} (created : A -> Z) l x :
  latest created l = Some x -> x ∈ l /\ forall y, y ∈ l -> created y <= created x.
Proof.
  revert x. induction l as [|a l IH]; intros x H; simplify_eq/=.
  destruct (latest created l) as [y|] eqn:E; [|simplify_eq].
  - destruct (IH y eq_refl) as [Hy Hmax].
    destruct (Z.ltb_spec (created a) (created y)); simplify_eq.
    + split; [by right|]. intros z [->|Hz]%elem_of_cons; [lia|auto].
    + split; [by left|]. intros z [->|Hz]%elem_of_cons; [lia|].
      apply Hmax in Hz. lia.
  - assert (l = []) as ->.
    { destruct l as [|b l]; [done|]. simpl in E. by repeat case_match. }
    split; [by left|]. intros z [->|Hz]%elem_of_cons; [lia|by apply elem_of_nil in Hz].
Qed.

Lemma latest_None {A} (created : A -> Z) l : latest created l = None <-> l = [].
Proof.
  split; [|by intros ->]. destruct l as [|a l]; [done|]. simpl. by repeat case_match.
Qed.

Lemma find_latest_Some {A} (created : A -> Z) (P : A -> bool) (t : gmap string A) r :
  find_latest created P t = Some r ->
  P r = true /\ (exists id, t !! id = Some r) /\
  forall id r', t !! id = Some r' -> P r' = true -> created r' <= created r.
Proof.
  intros [Hin Hmax]%latest_Some. apply elem_of_select in Hin as [HP Hid].
  split_and!; [done..|]. intros id r' Hr' HP'. apply Hmax, elem_of_select. eauto.
Qed.

Lemma find_latest_None {A} (created : A -> Z) (P : A -> bool) (t : gmap string A) :
  find_latest created P t = None <-> forall id r, t !! id = Some r -> P r = false.
Proof.
  unfold find_latest. rewrite latest_None. rewrite <-find_one_None. unfold find_one.
  by destruct (select P t).
Qed.

(** ** Relating the databases before and after a program

    [wrel R] relates both the committed tables and the working copy; a program
    that satisfies [Pres R] moves them along the preorder [R] whether it
    returns or throws, and so does a transaction around it. *)

Definition wrel (R : relation DB) (w w' : World) : Prop :=
  R w.(committed) w'.(committed) /\ R w.(working) w'.(working).

#[export] Instance wrel_preorder R `{!PreOrder R} : PreOrder (wrel R).
Proof.
  split.
  - intros w; by split.
  - intros w1 w2 w3 [? ?] [? ?]; split; by etrans.
Qed.

Class Pres (R : relation DB) {A} (m : Prog A) : Prop := pres w : wrel R w (m w).1.

Section Pres.
Context (R : relation DB) `{!PreOrder R}.

(** The rule for sequencing: the continuation may use what the first
    program returned, and the state it returned it in. *)
Lemma wrel_bind {A B} (m : Prog A) (k : A -> Prog B) w :
  wrel R w (m w).1 ->
  (forall a, (m w).2 = inr a -> wrel R (m w).1 (k a (m w).1).1) ->
  wrel R w ((m ≫= k) w).1.
Proof.
  unfold mbind, prog_bind. destruct (m w) as [w' [e|a]]; simpl; intros H1 H2; [done|].
  etrans; [exact H1|]. by apply H2.
Qed.

Lemma wrel_catch {A} (m : Prog A) h w :
  wrel R w (m w).1 ->
  (forall e, (m w).2 = inl e -> wrel R (m w).1 (h e (m w).1).1) ->
  wrel R w (catch m h w).1.
Proof.
  unfold catch. destruct (m w) as [w' [e|a]]; simpl; intros H1 H2; [|done].
  etrans; [exact H1|]. by apply H2.
Qed.

Lemma wrel_transaction {A} (m : Prog A) w :
  wrel R (set_dbs w.(committed) w.(committed) w) (m (set_dbs w.(committed) w.(committed) w)).1 ->
  wrel R w (transaction m w).1.
Proof.
  unfold transaction. destruct (m _) as [w' [e|a]]; intros [H1 H2]; simpl in *; split; simpl;
    done || reflexivity.
Qed.

#[export] Instance pres_ret {A} (a : A) : Pres R (mret a).
Proof. intros w. reflexivity. Qed.
#[export] Instance pres_throw {A} (e : Exn) : Pres R (throw (A:=A) e).
Proof. intros w. reflexivity. Qed.
#[export] Instance pres_of_sum {A} (r : Exn + A) : Pres R (of_sum r).
Proof. intros w. reflexivity. Qed.
#[export] Instance pres_read {A} m (f : DB -> A) : Pres R (read m f).
Proof. intros w. reflexivity. Qed.
#[export] Instance pres_now_ms : Pres R now_ms.
Proof. intros w. reflexivity. Qed.
#[export] Instance pres_now_us : Pres R now_us.
Proof. intros w. reflexivity. Qed.
#[export] Instance pres_gen_uuid : Pres R gen_uuid.
Proof. intros w. by split. Qed.
#[export] Instance pres_emit_event n t e : Pres R (emit_event n t e).
Proof. intros w. by split. Qed.
#[export] Instance pres_log_call n a : Pres R (log_call n a).
Proof. intros w. by split. Qed.

#[export] Instance pres_bind {A B} (m : Prog A) (k : A -> Prog B) :
  Pres R m -> (forall a, Pres R (k a)) -> Pres R (m ≫= k).
Proof. intros Hm Hk w. apply wrel_bind; intros; apply pres. Qed.

(** The same with the run of the first program, which is known to preserve [R]. *)
Lemma wrel_run {A B} (m : Prog A) (k : A -> Prog B) w :
  Pres R m -> (forall w1 a, m w = (w1, inr a) -> wrel R w1 (k a w1).1) -> wrel R w ((m ≫= k) w).1.
Proof.
  intros Hm Hk. apply wrel_bind; [apply Hm|]. intros a Ha. apply Hk.
  destruct (m w) as [w1 r]. simpl in *. by subst.
Qed.

#[export] Instance pres_catch {A} (m : Prog A) h :
  Pres R m -> (forall e, Pres R (h e)) -> Pres R (catch m h).
Proof. intros Hm Hh w. apply wrel_catch; intros; apply pres. Qed.

#[export] Instance pres_transaction {A} (m : Prog A) : Pres R m -> Pres R (transaction m).
Proof. intros Hm w. apply wrel_transaction, pres. Qed.

Lemma pres_modify m f : (forall d, R d (f d)) -> Pres R (modify m f).
Proof. intros Hf w. destruct m; split; simpl; done || reflexivity. Qed.

#[export] Instance pres_map_prog {A B} (f : A -> Prog B) l :
  (forall a, Pres R (f a)) -> Pres R (map_prog f l).
Proof. intros Hf. induction l; simpl; apply _. Qed.

#[export] Instance pres_prog_when b m : Pres R m -> Pres R (prog_when b m).
Proof. by destruct b; intros; simpl; apply _. Qed.
End Pres.

(** Appending to the queue, the audit log and the metrics touches no record. *)
Class RowsOnly (R : relation DB) : Prop :=
  rows_only d jobs audit metrics : R d (set_logs jobs audit metrics d).

Section RowsOnly.
Context (R : relation DB) `{!PreOrder R, !RowsOnly R}.

#[export] Instance pres_send m j : Pres R (send m j).
Proof.
  intros w. unfold send. destruct (send_fate w (sends w)); [|by split..].
  destruct m; split; simpl; try reflexivity; apply rows_only.
Qed.
#[export] Instance pres_audit_emit m t a rt ri : Pres R (audit_emit m t a rt ri).
Proof. unfold audit_emit. apply pres_catch; [done|apply _|]. intros []; destruct m; apply _. Qed.
#[export] Instance pres_dispatch m t e r : Pres R (dispatch m t e r).
Proof. unfold dispatch. apply _. Qed.
#[export] Instance pres_record_metric m t o : Pres R (record_metric m t o).
Proof. apply pres_modify; [done|]. intros. apply rows_only. Qed.
#[export] Instance pres_audit_write m x : Pres R (audit_write m x).
Proof. apply pres_modify; [done|]. intros. apply rows_only. Qed.
End RowsOnly.

(** Splits a program along its [bind]s, conditionals and matches and closes the
    leaves with the instances above. *)
Ltac solve_pres :=
  repeat first
    [ progress intros
    | apply _
    | apply pres_bind; [solve [done | apply _]| |]
    | apply pres_catch; [solve [done | apply _]| |]
    | apply pres_transaction
    | case_match ].

(** ** Programs that stay inside the database

    A [Quiet] program emits no in-process event, calls no agent, and takes no
    time. *)

Definition same_trace (w w' : World) : Prop :=
  w'.(emitted) = w.(emitted) /\ w'.(calls) = w.(calls) /\ w'.(clock) = w.(clock).

Class Quiet {A} (p : Prog A) : Prop := quiet w : same_trace w (p w).1.

#[export] Instance quiet_ret {A} (a : A) : Quiet (mret (M:=Prog) a).
Proof. by intros w. Qed.
#[export] Instance quiet_throw {A} e : Quiet (throw (A:=A) e).
Proof. by intros w. Qed.
#[export] Instance quiet_of_sum {A} (r : Exn + A) : Quiet (of_sum r).
Proof. by intros w. Qed.
#[export] Instance quiet_read {A} m (f : DB -> A) : Quiet (read m f).
Proof. by intros w. Qed.
#[export] Instance quiet_modify m f : Quiet (modify m f).
Proof. by intros w; destruct m. Qed.
#[export] Instance quiet_now_ms : Quiet now_ms.
Proof. by intros w. Qed.
#[export] Instance quiet_now_us : Quiet now_us.
Proof. by intros w. Qed.
#[export] Instance quiet_gen_uuid : Quiet gen_uuid.
Proof. by intros w. Qed.
#[export] Instance quiet_send m j : Quiet (send m j).
Proof. intros w. unfold send. by destruct (send_fate _ _), m. Qed.
#[export] Instance quiet_bind {A B} (p : Prog A) (k : A -> Prog B) :
  Quiet p -> (forall a, Quiet (k a)) -> Quiet (p ≫= k).
Proof.
  intros Hp Hk w. unfold mbind, prog_bind, same_trace. specialize (Hp w).
  destruct (p w) as [w' [e|a]]; [done|]. specialize (Hk a w').
  unfold same_trace in *. simpl in *. intuition congruence.
Qed.
#[export] Instance quiet_catch {A} (p : Prog A) h :
  Quiet p -> (forall e, Quiet (h e)) -> Quiet (catch p h).
Proof.
  intros Hp Hh w. unfold catch, same_trace. specialize (Hp w).
  destruct (p w) as [w' [e|a]]; [|done]. specialize (Hh e w').
  unfold same_trace in *. simpl in *. intuition congruence.
Qed.
#[export] Instance quiet_transaction {A} (p : Prog A) : Quiet p -> Quiet (transaction p).
Proof.
  intros Hp w. unfold transaction. specialize (Hp (set_dbs (committed w) (committed w) w)).
  by destruct (p _) as [w' [e|a]].
Qed.
#[export] Instance quiet_prog_when b p : Quiet p -> Quiet (prog_when b p).
Proof. by destruct b; intros; simpl; apply _. Qed.

(** Splits a program along its structure and closes the leaves. *)
Ltac solve_quiet :=
  repeat first
    [ progress intros
    | apply _
    | apply quiet_bind
    | apply quiet_catch
    | apply quiet_prog_when
    | progress cbv zeta
    | case_match
    | case_decide ].
