(* ===== verification/LogPartition.v ===== *)
(** * Log partitions

    log-access/log-partition-key.ts, common/agent-log-partition-key.ts and
    log-access/agent-log-partition.cache.ts: the names of the partitions of the
    log store, and the in-memory cache of the partitions a tenant's agents write
    to. *)

From Stdlib Require Import Ascii ZArith Lia.
From stdpp Require Import base decidable strings sets gmap list list_relations.
From S2P Require Import Prelude Js Entities StateMapping OperationTtl JsText Db.

Local Open Scope Z_scope.

(** ** Partition keys *)

Fixpoint all_chars_in (P : ascii -> bool) (s : string) : bool :=
  match s with
  | EmptyString => true
  | String c s' => P c && all_chars_in P s'
  end.

Definition is_digit (c : ascii) : bool := let n := N_of_ascii c in (48 <=? n)%N && (n <=? 57)%N.
Definition is_lower (c : ascii) : bool := let n := N_of_ascii c in (97 <=? n)%N && (n <=? 122)%N.
Definition is_lower_hex (c : ascii) : bool :=
  is_digit c || (let n := N_of_ascii c in (97 <=? n)%N && (n <=? 102)%N).
Definition is_dash (c : ascii) : bool := eq_ascii c "-"%char.

Definition CANONICAL_TENANT_ID : list (ascii -> bool) :=
  replicate 8 is_lower_hex ++ [is_dash] ++ replicate 4 is_lower_hex ++ [is_dash] ++
  replicate 4 is_lower_hex ++ [is_dash] ++ replicate 4 is_lower_hex ++ [is_dash] ++
  replicate 12 is_lower_hex.

Definition isCanonicalTenantId (value : option json) : bool :=
  match value with
  | Some (JStr s) => match_chars CANONICAL_TENANT_ID s
  | _ => false
  end.

Definition deriveTenantPartitionKey (tenantId : string) : Exn + string :=
  if isCanonicalTenantId (Some (JStr tenantId)) then inr ("t-" +:+ tenantId)
  else inl (JsError "tenant_id is not a canonical UUID").

(** [SAFE_PARTITION_KEY] *)
Definition isSafePartitionKey (value : string) : bool :=
  match value with
  | EmptyString => false
  | String c s => (is_lower c || is_digit c) &&
                  all_chars_in (fun c => is_lower c || is_digit c || is_dash c) s &&
                  (String.length s <=? 148)%nat
  end.

(** [AGENT_LOG_ID_PATTERN] *)
Definition isValidAgentLogId (value : string) : bool :=
  all_chars_in (fun c => is_lower c || is_digit c || is_dash c) value &&
  (1 <=? String.length value)%nat && (String.length value <=? 100)%nat.

(** The type is a member of the enumeration by typing. *)
Definition formatAgentLogBindingKey (connectorType : ConnectorType) (agentLogId : string) : Exn + string :=
  if isValidAgentLogId agentLogId then inr (connector_type_str connectorType +:+ (":" +:+ agentLogId))
  else inl (JsError "Agent log identifier is not Loki-safe.").

Definition buildAgentPartitionKey (connectorType : ConnectorType) (agentLogId : string) : Exn + string :=
  match formatAgentLogBindingKey connectorType agentLogId with
  | inl e => inl e
  | inr _ => inr ("a-" +:+ (connector_type_str connectorType +:+ ("-" +:+ agentLogId)))
  end.

(** ** The cache *)

Definition AGENT_PARTITION_CACHE_TTL_MS : Z := 300000.
Definition AGENT_PARTITION_CACHE_MAX_ENTRIES : nat := 1000.

Record CacheEntry := mkCacheEntry {
  ce_partitions : list string;
  ce_expiresAt : Z
}.

Record AgentLogPartitionLookup := mkLookup {
  lk_generation : Z;
  lk_startedAt : Z
}.

(** A [Map] keeps its entries in the order of their insertion. *)
Record AgentLogPartitionCache := mkCache {
  pc_entries : list (string * CacheEntry);
  pc_generation : Z
}.

Definition empty_cache : AgentLogPartitionCache := mkCache [] 0.

(** [now] is [Date.now()], in milliseconds. *)
Definition cache_beginLookup (now : Z) (c : AgentLogPartitionCache) : AgentLogPartitionLookup :=
  mkLookup c.(pc_generation) now.

Definition cache_get (now : Z) (tenantId : string) (c : AgentLogPartitionCache)
    : AgentLogPartitionCache * option (list string) :=
  match assoc tenantId c.(pc_entries) with
  | None => (c, None)
  | Some e =>
      if e.(ce_expiresAt) <=? now
      then (mkCache (dissoc tenantId c.(pc_entries)) c.(pc_generation), None)
      else (c, Some e.(ce_partitions))
  end.

Definition cache_set (now : Z) (tenantId : string) (partitions : list string)
    (lookup : AgentLogPartitionLookup) (c : AgentLogPartitionCache) : Exn + AgentLogPartitionCache :=
  let expiresAt := lookup.(lk_startedAt) + AGENT_PARTITION_CACHE_TTL_MS in
  if expiresAt <=? now
  then inl (JsError "Agent partition lookup exceeded the maximum staleness window.")
  else if negb (lookup.(lk_generation) =? c.(pc_generation)) then inr c
  else
    let entries := dissoc tenantId c.(pc_entries) in
    let entries := if (AGENT_PARTITION_CACHE_MAX_ENTRIES <=? length entries)%nat then tail entries else entries in
    inr (mkCache (entries ++ [(tenantId, mkCacheEntry partitions expiresAt)]) c.(pc_generation)).

Definition cache_invalidate (tenantId : string) (c : AgentLogPartitionCache) : AgentLogPartitionCache :=
  mkCache (dissoc tenantId c.(pc_entries)) (c.(pc_generation) + 1).

(** ** What the cache may serve *)

(** Everything that happens to the cache, newest first. *)
Inductive CacheEvent :=
| Began (tenantId : string) (lookup : AgentLogPartitionLookup)
| Stored (tenantId : string) (partitions : list string) (lookup : AgentLogPartitionLookup)
| Invalidated (tenantId : string).

Record CacheRun := mkCacheRun {
  run_cache : AgentLogPartitionCache;
  run_now : Z;
  run_log : list CacheEvent
}.

(** Requests begin lookups, store what they read, ask and invalidate, in any
    order; a lookup is stored with the handle it was begun with. *)
Inductive cache_step : CacheRun -> CacheRun -> Prop :=
| cache_step_begin r now t :
    r.(run_now) <= now ->
    cache_step r (mkCacheRun r.(run_cache) now
                    (Began t (cache_beginLookup now r.(run_cache)) :: r.(run_log)))
| cache_step_store r now t ps lookup c' :
    r.(run_now) <= now -> Began t lookup ∈ r.(run_log) ->
    cache_set now t ps lookup r.(run_cache) = inr c' ->
    cache_step r (mkCacheRun c' now (Stored t ps lookup :: r.(run_log)))
| cache_step_get r now t :
    r.(run_now) <= now ->
    cache_step r (mkCacheRun (cache_get now t r.(run_cache)).1 now r.(run_log))
| cache_step_invalidate r now t :
    r.(run_now) <= now ->
    cache_step r (mkCacheRun (cache_invalidate t r.(run_cache)) now (Invalidated t :: r.(run_log))).

Definition invalidations (log : list CacheEvent) : Z :=
  Z.of_nat (length (List.filter (fun e => match e with Invalidated _ => true | _ => false end) log)).

(** The partitions were stored for the tenant by this lookup, and the tenant has
    not been invalidated since the lookup began. *)
Definition current_lookup (log : list CacheEvent) (t : string) (ps : list string)
    (lookup : AgentLogPartitionLookup) : Prop :=
  exists after between before,
    log = after ++ Stored t ps lookup :: between ++ Began t lookup :: before /\
    Invalidated t ∉ after /\ Invalidated t ∉ between.

Record Cache_inv (r : CacheRun) : Prop := {
  ci_generation : r.(run_cache).(pc_generation) = invalidations r.(run_log);
  ci_began : forall after t lookup before, r.(run_log) = after ++ Began t lookup :: before ->
             lookup.(lk_generation) = invalidations before /\ lookup.(lk_startedAt) <= r.(run_now);
  ci_entries : forall t e, assoc t r.(run_cache).(pc_entries) = Some e ->
               exists lookup, e.(ce_expiresAt) = lookup.(lk_startedAt) + AGENT_PARTITION_CACHE_TTL_MS /\
                 current_lookup r.(run_log) t e.(ce_partitions) lookup;
  ci_keys : NoDup r.(run_cache).(pc_entries).*1;
  ci_size : (length r.(run_cache).(pc_entries) <= AGENT_PARTITION_CACHE_MAX_ENTRIES)%nat
}.

Lemma invalidations_app l l' : invalidations (l ++ l') = invalidations l + invalidations l'.
Proof. unfold invalidations. rewrite List.filter_app, length_app. lia. Qed.

Lemma invalidations_none l t : invalidations l = 0 -> Invalidated t ∉ l.
Proof.
  unfold invalidations. intros H Hin. apply list_elem_of_In in Hin.
  assert (In (Invalidated t) (List.filter (fun e => match e with Invalidated _ => true | _ => false end) l)) as Hf
    by (apply filter_In; done).
  destruct (List.filter _ l); [done|]. simpl in H. lia.
Qed.

(** An event about another tenant, or no invalidation at all, keeps a lookup
    current. *)
Lemma current_lookup_cons ev log t ps lookup :
  ev <> Invalidated t -> current_lookup log t ps lookup -> current_lookup (ev :: log) t ps lookup.
Proof.
  intros Hne (a & b & c & -> & Ha & Hb). exists (ev :: a), b, c. split_and!; [done| |done].
  intros [H|H]%elem_of_cons; [congruence|done].
Qed.

Lemma assoc_dissoc_some {A} k k' (o : list (string * A)) v :
  assoc k (dissoc k' o) = Some v -> k <> k' /\ assoc k o = Some v.
Proof.
  intros H. destruct (decide (k = k')) as [->|Hne]; [by rewrite assoc_dissoc_eq in H|].
  by rewrite assoc_dissoc_ne in H.
Qed.

Lemma dissoc_length {A} k (o : list (string * A)) : (length (dissoc k o) <= length o)%nat.
Proof. induction o as [|[k' v] o IH]; simpl; [done|]. case_match; simpl; lia. Qed.

Lemma elem_of_dissoc {A} k k' (o : list (string * A)) : k' ∈ (dissoc k o).*1 <-> k' ∈ o.*1 /\ k' <> k.
Proof.
  induction o as [|[k0 v] o IH]; simpl; [set_solver|].
  destruct (String.eqb_spec k k0) as [->|]; simpl; rewrite ?elem_of_cons, IH; naive_solver.
Qed.

Lemma NoDup_dissoc {A} k (o : list (string * A)) : NoDup o.*1 -> NoDup (dissoc k o).*1.
Proof.
  induction o as [|[k0 v] o IH]; simpl; [done|]. intros [Hn Hd]%NoDup_cons.
  destruct (String.eqb_spec k k0); simpl; [auto|]. apply NoDup_cons. split; [|auto].
  rewrite elem_of_dissoc. tauto.
Qed.

Lemma assoc_key_elem {A} k (o : list (string * A)) v : assoc k o = Some v -> k ∈ o.*1.
Proof.
  induction o as [|[k0 v0] o IH]; simpl; [done|].
  destruct (String.eqb_spec k k0) as [->|]; rewrite elem_of_cons; auto.
Qed.

Lemma assoc_tail {A} k (o : list (string * A)) v :
  NoDup o.*1 -> assoc k (tail o) = Some v -> assoc k o = Some v.
Proof.
  destruct o as [|[k0 v0] o]; simpl; [done|]. intros [Hn _]%NoDup_cons H.
  destruct (String.eqb_spec k k0) as [->|]; [|done]. by apply assoc_key_elem in H.
Qed.

Lemma assoc_app {A} k (o o' : list (string * A)) :
  assoc k (o ++ o') = match assoc k o with Some v => Some v | None => assoc k o' end.
Proof. induction o as [|[k0 v0] o IH]; simpl; [done|]. by destruct (String.eqb k k0). Qed.

(** Removing entries keeps the rest of the invariant. *)
Lemma cache_inv_drop r entries now :
  Cache_inv r -> r.(run_now) <= now -> NoDup entries.*1 ->
  (length entries <= length r.(run_cache).(pc_entries))%nat ->
  (forall t e, assoc t entries = Some e -> assoc t r.(run_cache).(pc_entries) = Some e) ->
  Cache_inv (mkCacheRun (mkCache entries r.(run_cache).(pc_generation)) now r.(run_log)).
Proof.
  intros [Hg Hb He Hk Hs] Hn Hnd Hl Hsub. split; simpl; try done.
  - intros after t lookup before Hlog. destruct (Hb _ _ _ _ Hlog). split; [done|lia].
  - intros t e H. by apply He, Hsub.
  - lia.
Qed.

Lemma cache_inv_begin r now t :
  Cache_inv r -> r.(run_now) <= now ->
  Cache_inv (mkCacheRun r.(run_cache) now (Began t (cache_beginLookup now r.(run_cache)) :: r.(run_log))).
Proof.
  intros [Hg Hb He Hk Hs] Hn. split; simpl; try done.
  - intros [|ev after] t' lookup before Hlog; simplify_eq/=; [by rewrite Hg|].
    destruct (Hb after t' lookup before); [done|]. split; [done|lia].
  - intros t' e H. destruct (He t' e H) as (lookup & ? & ?). exists lookup. split; [done|].
    by apply current_lookup_cons.
Qed.

Lemma cache_inv_invalidate r now t :
  Cache_inv r -> r.(run_now) <= now ->
  Cache_inv (mkCacheRun (cache_invalidate t r.(run_cache)) now (Invalidated t :: r.(run_log))).
Proof.
  intros [Hg Hb He Hk Hs] Hn. split; simpl.
  - rewrite Hg. change (Invalidated t :: r.(run_log)) with ([Invalidated t] ++ r.(run_log)).
    rewrite invalidations_app. change (invalidations [Invalidated t]) with 1. lia.
  - intros [|ev after] t' lookup before Hlog; simplify_eq/=.
    destruct (Hb after t' lookup before); [done|]. split; [done|lia].
  - intros t' e [Hne H]%assoc_dissoc_some. destruct (He t' e H) as (lookup & ? & ?). exists lookup.
    split; [done|]. apply current_lookup_cons; congruence.
  - by apply NoDup_dissoc.
  - pose proof (dissoc_length t r.(run_cache).(pc_entries)). lia.
Qed.

(** The handle's generation tells that nothing was invalidated since. *)
Lemma began_current r t lookup ps :
  Cache_inv r -> Began t lookup ∈ r.(run_log) ->
  lookup.(lk_generation) = r.(run_cache).(pc_generation) ->
  current_lookup (Stored t ps lookup :: r.(run_log)) t ps lookup.
Proof.
  intros [Hg Hb _ _ _] (after & before & Hlog)%list_elem_of_split Hgen.
  destruct (Hb _ _ _ _ Hlog) as [Hl _]. exists [], after, before. rewrite Hlog. split_and!; [done|set_solver|].
  apply invalidations_none. rewrite Hg, Hlog, invalidations_app in Hgen.
  change (Began t lookup :: before) with ([Began t lookup] ++ before) in Hgen.
  rewrite invalidations_app in Hgen. change (invalidations [Began t lookup]) with 0 in Hgen. lia.
Qed.

(** What a store leaves: the old entries, some of them evicted, and its own if nothing
    was invalidated since the lookup began. *)
Lemma cache_set_inr now t ps lookup c c' :
  cache_set now t ps lookup c = inr c' -> NoDup c.(pc_entries).*1 ->
  (length c.(pc_entries) <= AGENT_PARTITION_CACHE_MAX_ENTRIES)%nat ->
  c'.(pc_generation) = c.(pc_generation) /\ NoDup c'.(pc_entries).*1 /\
  (length c'.(pc_entries) <= AGENT_PARTITION_CACHE_MAX_ENTRIES)%nat /\
  (forall k e, assoc k c'.(pc_entries) = Some e -> assoc k c.(pc_entries) = Some e \/
     (k = t /\ e = mkCacheEntry ps (lookup.(lk_startedAt) + AGENT_PARTITION_CACHE_TTL_MS) /\
      lookup.(lk_generation) = c.(pc_generation))).
Proof.
  intros Hset Hk Hs. unfold cache_set in Hset. destruct (_ <=? now); [done|].
  destruct (Z.eqb_spec lookup.(lk_generation) c.(pc_generation)) as [Hgen|]; cbn [negb] in Hset.
  2: { injection Hset as <-. auto. }
  match type of Hset with inr ?x = inr _ => assert (x = c') as <- by congruence end.
  clear Hset. set (o := dissoc t c.(pc_entries)).
  set (entries := if (AGENT_PARTITION_CACHE_MAX_ENTRIES <=? length o)%nat then tail o else o).
  assert (NoDup o.*1) as Hno by (by apply NoDup_dissoc).
  assert (forall k, k ∈ entries.*1 -> k ∈ o.*1) as Hin.
  { unfold entries. intros k. destruct (_ <=? _)%nat; [|done]. destruct o; [done|]. simpl. rewrite elem_of_cons. auto. }
  cbn [pc_entries pc_generation]. split_and!; [done| | |].
  - rewrite fmap_app. apply NoDup_app. split_and!; [|intros k Hk' ->%list_elem_of_singleton|].
    + unfold entries. destruct (_ <=? _)%nat; [|done]. destruct o; [done|]. simpl in *. by apply NoDup_cons in Hno as [_ ?].
    + apply Hin in Hk'. unfold o in Hk'. apply elem_of_dissoc in Hk' as [_ ?]. done.
    + apply NoDup_singleton.
  - rewrite length_app. change (length [_]) with 1%nat. pose proof (dissoc_length t c.(pc_entries)) as Hl. fold o in Hl.
    unfold entries. destruct (Nat.leb_spec AGENT_PARTITION_CACHE_MAX_ENTRIES (length o)); [|lia].
    assert (length (tail o) = length o - 1)%nat by (destruct o; simpl; lia).
    assert (0 < AGENT_PARTITION_CACHE_MAX_ENTRIES)%nat by (apply Nat.ltb_lt; reflexivity). lia.
  - intros k e. rewrite assoc_app. destruct (assoc k entries) as [e'|] eqn:Ea.
    + intros H. injection H as <-. left. apply (assoc_dissoc_some k t). fold o. unfold entries in Ea.
      destruct (_ <=? _)%nat; [|done]. by apply assoc_tail.
    + simpl. destruct (String.eqb_spec k t) as [->|]; [|done]. intros H. injection H as <-. auto.
Qed.

Lemma cache_inv_store r now t ps lookup c' :
  Cache_inv r -> r.(run_now) <= now -> Began t lookup ∈ r.(run_log) ->
  cache_set now t ps lookup r.(run_cache) = inr c' ->
  Cache_inv (mkCacheRun c' now (Stored t ps lookup :: r.(run_log))).
Proof.
  intros Hi Hn Hin Hset. pose proof (began_current r t lookup ps Hi Hin) as Hcur.
  destruct Hi as [Hg Hb He Hk Hs]. destruct (cache_set_inr _ _ _ _ _ _ Hset Hk Hs) as (Hg' & Hk' & Hs' & He').
  split; cbn [run_cache run_now run_log]; [by rewrite Hg'| | |done|done].
  - intros [|ev after] t' lk before Hlog; simplify_eq/=. destruct (Hb after t' lk before); [done|]. split; [done|lia].
  - intros t' e [H|(-> & -> & Hgen)]%He'; [|eauto].
    destruct (He t' e H) as (lk & ? & ?). exists lk. split; [done|]. by apply current_lookup_cons.
Qed.

Lemma cache_step_inv r r' : cache_step r r' -> Cache_inv r -> Cache_inv r'.
Proof.
  intros Hs Hi. destruct Hs.
  - by apply cache_inv_begin.
  - by eapply cache_inv_store.
  - unfold cache_get. destruct (assoc t _) as [e|] eqn:Ea; [destruct (_ <=? now)|]; simpl.
    + apply cache_inv_drop; try done; [by apply NoDup_dissoc, Hi|apply dissoc_length|].
      intros t' e' H'. by apply assoc_dissoc_some in H' as [_ ?].
    + destruct r as [[es g] n l]. apply (cache_inv_drop _ es now Hi H); [apply Hi|done|done].
    + destruct r as [[es g] n l]. apply (cache_inv_drop _ es now Hi H); [apply Hi|done|done].
  - by apply cache_inv_invalidate.
Qed.

(** The cache never serves what has been invalidated, or anything older than
    five minutes.  However requests interleave, when the cache answers for a
    tenant, the partitions are those that a lookup for that tenant stored, the
    lookup began less than the time to live ago, and the tenant has not been
    invalidated since the lookup began, not even between its read of the
    connectors and its store.  The cache never exceeds its size. *)
Theorem cache_serves_current r now t ps :
  rtc cache_step (mkCacheRun empty_cache 0 []) r -> r.(run_now) <= now ->
  (length r.(run_cache).(pc_entries) <= AGENT_PARTITION_CACHE_MAX_ENTRIES)%nat /\
  ((cache_get now t r.(run_cache)).2 = Some ps ->
   exists lookup, current_lookup r.(run_log) t ps lookup /\
     now < lookup.(lk_startedAt) + AGENT_PARTITION_CACHE_TTL_MS).
Proof.
  intros Hrun Hn. assert (Cache_inv r) as [Hg Hb He Hk Hs].
  { revert Hrun. apply (rtc_ind_r Cache_inv).
    - split; simpl; [done| |done|apply NoDup_nil_2|lia]. intros [] ? ? ? ?; done.
    - intros r1 r2 _ Hstep Hi. by eapply cache_step_inv. }
  split; [done|]. unfold cache_get. destruct (assoc t _) as [e|] eqn:Ea; [|done].
  destruct (Z.leb_spec e.(ce_expiresAt) now); [done|]. intros H'. injection H' as <-.
  destruct (He t e Ea) as (lookup & Hex & Hc). exists lookup. split; [done|lia].
Qed.

(** A lookup overtaken by an invalidation of its tenant stores nothing. *)
Lemma cache_serves_current_witness :
  let r := mkCacheRun (cache_invalidate "t1" empty_cache) 20 [Invalidated "t1"; Began "t1" (mkLookup 0 10)] in
  let r' := mkCacheRun (mkCache [("t2", mkCacheEntry ["a-traction-w"] 300030)] 1) 40
              [Stored "t2" ["a-traction-w"] (mkLookup 1 30); Began "t2" (mkLookup 1 30);
               Stored "t1" ["a-traction-x"] (mkLookup 0 10); Invalidated "t1"; Began "t1" (mkLookup 0 10)] in
  rtc cache_step (mkCacheRun empty_cache 0 []) r' /\
  (cache_get 50 "t2" r'.(run_cache)).2 = Some ["a-traction-w"] /\
  exists lookup, current_lookup r'.(run_log) "t2" ["a-traction-w"] lookup /\
    50 < lookup.(lk_startedAt) + AGENT_PARTITION_CACHE_TTL_MS.
Proof.
  intros r r'. assert (rtc cache_step (mkCacheRun empty_cache 0 []) r') as Hrun.
  { eapply rtc_l; [apply (cache_step_begin _ 10 "t1"); simpl; lia|].
    eapply rtc_l; [apply (cache_step_invalidate _ 20 "t1"); simpl; lia|].
    eapply rtc_l; [eapply (cache_step_store _ 25 "t1" ["a-traction-x"] (mkLookup 0 10)); simpl;
                   [lia|right; left|reflexivity]|].
    eapply rtc_l; [apply (cache_step_begin _ 30 "t2"); simpl; lia|].
    eapply rtc_l; [eapply (cache_step_store _ 40 "t2" ["a-traction-w"] (mkLookup 1 30)); simpl;
                   [lia|left|reflexivity]|]. apply rtc_refl. }
  split; [exact Hrun|]. split; [reflexivity|].
  apply (cache_serves_current r' 50 "t2" ["a-traction-w"]); [exact Hrun|simpl; lia|reflexivity].
Defined.
