(* ===== verification/Encryption.v ===== *)
(** * Encryption of connector credentials

    common/crypto: the key file ([KeyProviderService]) and the envelope in which
    connector credentials are stored ([EncryptionService]):
    [12-byte IV][16-byte tag][ciphertext].  AES-256-GCM and HMAC are parameters;
    [GcmLaws] is what the code relies on.  Buffers are byte strings. *)

From Stdlib Require Import Ascii ZArith Lia.
From stdpp Require Import base decidable strings sets gmap list list_relations pretty.
From S2P Require Import Prelude Js OperationTtl JsText Entities StateMapping Db.

Local Open Scope Z_scope.

(** ** The key file *)

Record KeyProvider := mkKeyProvider {
  kp_keys : list (jsnum * string);             (* a Map: one entry per version *)
  kp_currentVersion : jsnum
}.

Fixpoint key_lookup (v : jsnum) (keys : list (jsnum * string)) : option string :=
  match keys with
  | [] => None
  | (v', k) :: keys' => if decide (v = v') then Some k else key_lookup v keys'
  end.

(** [Map.set] *)
Fixpoint key_set (v : jsnum) (k : string) (keys : list (jsnum * string)) : list (jsnum * string) :=
  match keys with
  | [] => [(v, k)]
  | (v', k') :: keys' => if decide (v = v') then (v, k) :: keys' else (v', k') :: key_set v k keys'
  end.

(** The messages name the version or the path; these are left out of the text. *)
Definition not_configured : Exn := JsError "Encryption key version is not configured.".

Definition getCurrentKey (kp : KeyProvider) : Exn + (jsnum * string) :=
  match key_lookup kp.(kp_currentVersion) kp.(kp_keys) with
  | Some k => inr (kp.(kp_currentVersion), k)
  | None => inl (JsError "Current encryption key version is not available.")
  end.

Definition getKey (kp : KeyProvider) (version : jsnum) : Exn + string :=
  match key_lookup version kp.(kp_keys) with
  | Some k => inr k
  | None => inl not_configured
  end.

Definition requiresRotation (kp : KeyProvider) (version : jsnum) : bool :=
  negb (bool_decide (version = kp.(kp_currentVersion))).

(** [Buffer.from(value, 'hex')]: whole pairs up to the first character that is not
    a digit. *)
Fixpoint from_hex (s : string) : string :=
  match s with
  | String a (String b r) =>
      match JsNumber.radix_digit 16 a, JsNumber.radix_digit 16 b with
      | Some x, Some y => String (ascii_of_N (Z.to_N (x * 16 + y))) (from_hex r)
      | _, _ => EmptyString
      end
  | _ => EmptyString
  end.

(** The values of the key file are strings; anything else is not hexadecimal. *)
Definition decodeKey (value : json) : Exn + string :=
  match value with
  | JStr s =>
      let key := from_hex s in
      if (String.length key =? 32)%nat then inr key
      else inl (JsError "Encryption key must be exactly 32 bytes (256 bits).")
  | _ => inl (JsError "Encryption key is not valid hexadecimal.")
  end.

(** [Object.entries]: array indices first, in ascending order. *)
Definition index_key (k : string) : option Z :=
  match take_digits k with
  | ([0], EmptyString) => Some 0
  | (0 :: _, _) | ([], _) => None
  | (ds, EmptyString) => if digits_value ds <? 2 ^ 32 - 1 then Some (digits_value ds) else None
  | _ => None
  end.

Fixpoint insert_index (n : Z) (e : string * json) (l : list (Z * (string * json)))
    : list (Z * (string * json)) :=
  match l with
  | [] => [(n, e)]
  | (m, e') :: l' => if n <=? m then (n, e) :: l else (m, e') :: insert_index n e l'
  end.

Definition object_entries (o : list (string * json)) : list (string * json) :=
  (foldr (fun e l => match index_key e.1 with Some n => insert_index n e l | None => l end) [] o).*2 ++
  List.filter (fun e => match index_key e.1 with Some _ => false | None => true end) o.

Definition validateConfig (config : json) : Exn + (jsnum * list (string * json)) :=
  match config with
  | JNull => inl (JsError "Cannot read properties of null")
  | _ =>
      match get_prop "currentVersion" (Some config) with
      | Some (JNum v) =>
          if negb (truthy (Some (JNum v)))
          then inl (JsError "Encryption configuration requires a numeric currentVersion.")
          else
            match get_prop "keys" (Some config) with
            | Some (JObj []) | Some (JArr []) =>
                inl (JsError "Encryption configuration contains no keys.")
            | Some (JObj keys) => inr (v, object_entries keys)
            | Some (JArr l) => inr (v, imap (fun i x => (pretty (N.of_nat i), x)) l)
            | _ => inl (JsError "Encryption configuration requires a keys object.")
            end
      | _ => inl (JsError "Encryption configuration requires a numeric currentVersion.")
      end
  end.

Fixpoint add_keys (keys : list (jsnum * string)) (entries : list (string * json))
    : Exn + list (jsnum * string) :=
  match entries with
  | [] => inr keys
  | (version, encodedKey) :: rest =>
      match decodeKey encodedKey with
      | inl e => inl e
      | inr k => add_keys (key_set (JsNumber.of_string version) k keys) rest
      end
  end.

(** [file]: the contents at the configured path, if there is a file. *)
Definition loadKeys (configPath : option string) (file : option string) : Exn + KeyProvider :=
  if negb (truthy_str configPath)
  then inl (JsError "CONNECTOR_ENCRYPTION_KEYS_PATH is not configured.")
  else match file with
  | None => inl (JsError "Encryption key file does not exist.")
  | Some contents =>
      match JsonText.parse contents with
      | None => inl (JsError "Unable to load encryption key configuration.")
      | Some config =>
          match validateConfig config with
          | inl e => inl e
          | inr (current, entries) =>
              match add_keys [] entries with
              | inl e => inl e
              | inr keys =>
                  match key_lookup current keys with
                  | Some _ => inr (mkKeyProvider keys current)
                  | None => inl (JsError "Current encryption key version is not defined.")
                  end
              end
          end
      end
  end.

(** ** The envelope *)

Definition IV_LENGTH : nat := 12.
Definition AUTH_TAG_LENGTH : nat := 16.

Fixpoint str_take (n : nat) (s : string) : string :=
  match n, s with
  | S n', String c s' => String c (str_take n' s')
  | _, _ => EmptyString
  end.
Fixpoint str_drop (n : nat) (s : string) : string :=
  match n, s with
  | S n', String _ s' => str_drop n' s'
  | _, _ => s
  end.

Record EncryptionResult := mkEncrypted {
  er_ciphertext : string;
  er_keyVersion : jsnum
}.

(** AES-256-GCM of the runtime: [gcm_encrypt key iv plaintext] is the ciphertext and
    its tag; [gcm_decrypt] is [None] when the tag does not authenticate. *)
Record Gcm := mkGcm {
  gcm_encrypt : string -> string -> string -> string * string;
  gcm_decrypt : string -> string -> string -> string -> option string
}.

Class GcmLaws (g : Gcm) : Prop := {
  gcm_tag_length key iv p : String.length (g.(gcm_encrypt) key iv p).2 = AUTH_TAG_LENGTH;
  gcm_correct key iv p :
    g.(gcm_decrypt) key iv (g.(gcm_encrypt) key iv p).2 (g.(gcm_encrypt) key iv p).1 = Some p
}.

Section Service.
Context (gcm : Gcm) (hmac : string -> string -> string).

(** The value is an object of strings; [iv] is what [randomBytes] returned. *)
Definition encrypt (kp : KeyProvider) (iv : string) (value : list (string * string))
    : Exn + EncryptionResult :=
  match getCurrentKey kp with
  | inl e => inl e
  | inr (version, key) =>
      let plaintext := JsonText.print_object value in
      let '(encrypted, authTag) := gcm.(gcm_encrypt) key iv plaintext in
      inr (mkEncrypted (iv +:+ (authTag +:+ encrypted)) version)
  end.

Definition decryptWithKey (ciphertext key : string) : Exn + json :=
  if (String.length ciphertext <? IV_LENGTH + AUTH_TAG_LENGTH)%nat
  then inl (JsError "Invalid encrypted payload.")
  else
    let iv := str_take IV_LENGTH ciphertext in
    let authTag := str_take AUTH_TAG_LENGTH (str_drop IV_LENGTH ciphertext) in
    let encrypted := str_drop (IV_LENGTH + AUTH_TAG_LENGTH) ciphertext in
    match gcm.(gcm_decrypt) key iv authTag encrypted with
    | None => inl (JsError "Unsupported state or unable to authenticate data")
    | Some decrypted =>
        match JsonText.parse decrypted with
        | Some v => inr v
        | None => inl (JsError "Unexpected token in JSON")
        end
    end.

Definition decrypt (kp : KeyProvider) (ciphertext : string) (keyVersion : jsnum) : Exn + json :=
  match getKey kp keyVersion with
  | inl e => inl e
  | inr key => decryptWithKey ciphertext key
  end.

Definition BLIND_INDEX_KEY_VERSION : jsnum := num_of_Z 1.

Definition deriveBlindIndex (kp : KeyProvider) (domain value : string) : Exn + string :=
  match getKey kp BLIND_INDEX_KEY_VERSION with
  | inl e => inl e
  | inr key => inr (hmac key (domain +:+ String (ascii_of_N 0) value))
  end.
End Service.

(** ** Properties *)

Lemma str_take_app a b : str_take (String.length a) (a +:+ b) = a.
Proof. induction a as [|c a IH]; [by destruct b|]. exact (f_equal (String c) IH). Qed.
Lemma str_drop_app a b : str_drop (String.length a) (a +:+ b) = b.
Proof. induction a as [|c a IH]; [by destruct b|]. exact IH. Qed.
Lemma str_drop_app_add a n b : str_drop (String.length a + n) (a +:+ b) = str_drop n b.
Proof. induction a as [|c a IH]; [done|]. exact IH. Qed.

Lemma key_lookup_set v k keys v' :
  key_lookup v' (key_set v k keys) = if decide (v' = v) then Some k else key_lookup v' keys.
Proof.
  induction keys as [|[v0 k0] keys IH]; simpl; [done|].
  destruct (decide (v = v0)) as [->|Hv]; simpl; [by repeat case_decide|].
  rewrite IH. repeat case_decide; congruence.
Qed.

(** Decryption with the key of the stored version undoes encryption. *)
Lemma decrypt_encrypt gcm kp kp' iv value r :
  GcmLaws gcm -> String.length iv = IV_LENGTH -> NoDup value.*1 ->
  encrypt gcm kp iv value = inr r ->
  getKey kp' r.(er_keyVersion) = getKey kp r.(er_keyVersion) ->
  decrypt gcm kp' r.(er_ciphertext) r.(er_keyVersion) = inr (JObj (JsonText.strings value)).
Proof.
  intros L Hiv Hnd E Hkeep. unfold encrypt, getCurrentKey in E.
  destruct (key_lookup _ _) as [key|] eqn:Ek; [|done].
  destruct (gcm_encrypt gcm key iv (JsonText.print_object value)) as [enc tag] eqn:Eg.
  injection E as <-. simpl in *.
  pose proof (gcm_tag_length (g:=gcm) key iv (JsonText.print_object value)) as Htag.
  pose proof (gcm_correct (g:=gcm) key iv (JsonText.print_object value)) as Hok.
  rewrite Eg in Htag, Hok. simpl in Htag, Hok.
  unfold decrypt. rewrite Hkeep. unfold getKey. rewrite Ek. unfold decryptWithKey.
  assert ((String.length (iv +:+ (tag +:+ enc)) <? IV_LENGTH + AUTH_TAG_LENGTH)%nat = false) as ->.
  { apply Nat.ltb_ge. rewrite !JsonText.string_length_app. lia. }
  rewrite <-Hiv, <-Htag, str_take_app, str_drop_app, str_take_app, str_drop_app_add, str_drop_app.
  rewrite Hok, JsonText.parse_print_object by done. done.
Qed.

(** Stored credentials can be read back, also after the keys are rotated.  What
    [encrypt] stores, as envelope and key version, [decrypt] returns unchanged,
    whatever characters the credentials contain, under every later key file that
    still has that version's key, whichever version is current by then. *)
Theorem credentials_survive_rotation gcm kp kp' iv value r :
  GcmLaws gcm -> String.length iv = IV_LENGTH -> NoDup value.*1 ->
  encrypt gcm kp iv value = inr r ->
  getKey kp' r.(er_keyVersion) = getKey kp r.(er_keyVersion) ->
  decrypt gcm kp' r.(er_ciphertext) r.(er_keyVersion) = inr (JObj (JsonText.strings value)).
Proof. apply decrypt_encrypt. Qed.

(** A cipher that satisfies the laws, and a provider before and after a rotation. *)
Fixpoint zeros (n : nat) : string := match n with O => "" | S n' => String "0" (zeros n') end.

Definition plain_gcm : Gcm :=
  mkGcm (fun _ _ p => (p, "0123456789abcdef")) (fun _ _ _ c => Some c).
#[export] Instance plain_gcm_laws : GcmLaws plain_gcm.
Proof. split; intros; reflexivity. Qed.

Definition key_a : string := "aaaaaaaaaaaaaaaaaaaaaaaaaaaaaaaa".
Definition provider1 : KeyProvider := mkKeyProvider [(num_of_Z 1, key_a)] (num_of_Z 1).
Definition provider2 : KeyProvider :=
  mkKeyProvider [(num_of_Z 1, key_a); (num_of_Z 2, key_a)] (num_of_Z 2).
Definition quoted_secret : list (string * string) :=
  [("apiKey", String (ascii_of_N 34) (String (ascii_of_N 10) "\")); ("webhookSecret", "whsec")].

Lemma credentials_survive_rotation_witness :
  exists r, encrypt plain_gcm provider1 "0123456789ab" quoted_secret = inr r /\
    decrypt plain_gcm provider2 r.(er_ciphertext) r.(er_keyVersion)
    = inr (JObj (JsonText.strings quoted_secret)).
Proof.
  eexists. split; [reflexivity|].
  apply (credentials_survive_rotation plain_gcm provider1 provider2 "0123456789ab" quoted_secret).
  - apply plain_gcm_laws.
  - reflexivity.
  - apply (bool_decide_unpack _). vm_compute. exact I.
  - reflexivity.
  - vm_compute. reflexivity.
Defined.

(** A loaded key file always has its current key, so [encrypt] cannot fail on it. *)
Lemma loadKeys_current configPath file kp :
  loadKeys configPath file = inr kp -> exists k, getCurrentKey kp = inr (kp.(kp_currentVersion), k).
Proof.
  unfold loadKeys, getCurrentKey. intros E. repeat (case_match; simplify_eq/=); eauto.
Qed.

Lemma add_keys_length entries : forall keys keys',
  add_keys keys entries = inr keys' ->
  (forall v k, key_lookup v keys = Some k -> String.length k = 32%nat) ->
  forall v k, key_lookup v keys' = Some k -> String.length k = 32%nat.
Proof.
  induction entries as [|[version v] rest IH]; intros keys keys' E H; simpl in E.
  - by injection E as <-.
  - destruct (decodeKey v) as [e|k] eqn:Ed; [done|]. eapply IH; [exact E|].
    intros w k' Hk. rewrite key_lookup_set in Hk. case_decide; [|by eapply H]. simplify_eq.
    unfold decodeKey in Ed. destruct v; try done.
    destruct (Nat.eqb_spec (String.length (from_hex s)) 32); by simplify_eq.
Qed.

(** Every key of a loaded file has 256 bits. *)
Lemma loadKeys_length configPath file kp v k :
  loadKeys configPath file = inr kp -> getKey kp v = inr k -> String.length k = 32%nat.
Proof.
  unfold loadKeys, getKey. intros E Hk.
  destruct (negb _); [done|]. destruct file as [contents|]; [|done].
  destruct (JsonText.parse contents) as [config|]; [|done].
  destruct (validateConfig config) as [|[current entries]]; [done|].
  destruct (add_keys [] entries) as [|keys] eqn:Ea; [done|].
  destruct (key_lookup current keys); [|done]. injection E as <-. simpl in Hk.
  destruct (key_lookup v keys) eqn:El; [|done]. injection Hk as <-.
  by eapply (add_keys_length entries []).
Qed.
