(* ===== verification/RateLimit.v ===== *)
(** * Rate limiting

    rate-limit/: the Postgres-backed sliding window behind the global guard, the
    tenant quota and the log gateway.  A bucket is a tracker (an address or a
    tenant) and a route; the storage interface carries both in one text key. *)

From Stdlib Require Import Ascii ZArith Lia Sorted.
From stdpp Require Import base decidable strings sets gmap list list_relations.
From S2P Require Import Prelude Js OperationTtl JsText Entities StateMapping Db.

Local Open Scope Z_scope.

(** ** Keys *)

Module UriText.
(** Letters, digits and [- _ . ! ~ * ' ( )] stand for themselves. *)
Definition unreserved (c : ascii) : bool :=
  let n := N_of_ascii c in
  ((48 <=? n)%N && (n <=? 57)%N) || ((65 <=? n)%N && (n <=? 90)%N) ||
  ((97 <=? n)%N && (n <=? 122)%N) || (n =? 45)%N || (n =? 95)%N || (n =? 46)%N || (n =? 33)%N ||
  (n =? 126)%N || (n =? 42)%N || (n =? 39)%N || (n =? 40)%N || (n =? 41)%N.

Definition upper_hex (n : N) : ascii := if (n <? 10)%N then ascii_of_N (48 + n) else ascii_of_N (55 + n).

(** [encodeURIComponent] *)
Fixpoint encode (s : string) : string :=
  match s with
  | EmptyString => EmptyString
  | String c s' =>
      if unreserved c then String c (encode s')
      else String "%" (String (upper_hex (N_of_ascii c / 16)) (String (upper_hex (N_of_ascii c mod 16))
             (encode s')))
  end.

Definition escaped (s : string) : option (Z * string) :=
  match s with
  | String p (String a (String b r)) =>
      if eq_ascii p "%"%char then
        match JsNumber.radix_digit 16 a, JsNumber.radix_digit 16 b with
        | Some x, Some y => Some (x * 16 + y, r)
        | _, _ => None
        end
      else None
  | _ => None
  end.

(** A continuation byte of a sequence, escaped too. *)
Definition continuation (s : string) : option (Z * string) :=
  match escaped s with
  | Some (v, r) => if (128 <=? v) && (v <? 192) then Some (v - 128, r) else None
  | None => None
  end.

(** The code point of a multi-byte sequence that starts with [v]. *)
Definition sequence (v : Z) (r : string) : option (Z * string) :=
  let check lo hi n (rest : string) :=
    if (lo <=? n) && (n <=? hi) && negb ((55296 <=? n) && (n <=? 57343)) then Some (n, rest) else None in
  if (192 <=? v) && (v <? 224) then
    match continuation r with
    | Some (a, r1) => check 128 2047 ((v - 192) * 64 + a) r1
    | None => None
    end
  else if (224 <=? v) && (v <? 240) then
    match continuation r with
    | Some (a, r1) =>
        match continuation r1 with
        | Some (b, r2) => check 2048 65535 (((v - 224) * 64 + a) * 64 + b) r2
        | None => None
        end
    | None => None
    end
  else if (240 <=? v) && (v <? 248) then
    match continuation r with
    | Some (a, r1) =>
        match continuation r1 with
        | Some (b, r2) =>
            match continuation r2 with
            | Some (c, r3) => check 65536 1114111 ((((v - 240) * 64 + a) * 64 + b) * 64 + c) r3
            | None => None
            end
        | None => None
        end
    | None => None
    end
  else None.

(** [decodeURIComponent]; [None] is a URIError.  Each step consumes text. *)
Fixpoint decode_fuel (fuel : nat) (s : string) : option string :=
  match fuel with
  | O => None
  | S fuel' =>
      match s with
      | EmptyString => Some EmptyString
      | String c s' =>
          if eq_ascii c "%"%char then
            match escaped s with
            | None => None
            | Some (v, r) =>
                if v <? 128 then
                  match decode_fuel fuel' r with
                  | Some u => Some (String (ascii_of_N (Z.to_N v)) u)
                  | None => None
                  end
                else
                  match sequence v r with
                  | Some (n, rest) =>
                      match decode_fuel fuel' rest with
                      | Some u => Some (JsonText.utf8 n +:+ u)
                      | None => None
                      end
                  | None => None
                  end
            end
          else
            match decode_fuel fuel' s' with
            | Some u => Some (String c u)
            | None => None
            end
      end
  end.

Definition decode (s : string) : option string := decode_fuel (S (String.length s)) s.
End UriText.

Definition KEY_SEPARATOR : string := "::".

Definition buildRateLimitKey (tracker routeKey : string) : string :=
  UriText.encode tracker +:+ (KEY_SEPARATOR +:+ UriText.encode routeKey).

(** The text before and after the first separator. *)
Fixpoint split_separator (s : string) : option (string * string) :=
  match JsonText.strip KEY_SEPARATOR s with
  | Some rest => Some (EmptyString, rest)
  | None =>
      match s with
      | EmptyString => None
      | String c s' => match split_separator s' with
                       | Some (a, b) => Some (String c a, b)
                       | None => None
                       end
      end
  end.

Definition parseRateLimitKey (key : string) : Exn + (string * string) :=
  match split_separator key with
  | None => inl (JsError ("Malformed rate limit key: " +:+ key))
  | Some (a, b) =>
      match UriText.decode a, UriText.decode b with
      | Some tracker, Some routeKey => inr (tracker, routeKey)
      | _, _ => inl (JsError "URI malformed")
      end
  end.

(** *** The key round trip *)

(** Addresses, tenant ids and route names are ASCII. *)
Fixpoint ascii_text (s : string) : bool :=
  match s with
  | EmptyString => true
  | String c s' => (N_of_ascii c <? 128)%N && ascii_text s'
  end.

(** Decoding one encoded character. *)
Lemma decode_char c k fuel :
  (N_of_ascii c <? 128)%N = true ->
  UriText.decode_fuel (S fuel)
    (if UriText.unreserved c then String c k
     else String "%" (String (UriText.upper_hex (N_of_ascii c / 16))
            (String (UriText.upper_hex (N_of_ascii c mod 16)) k)))
  = match UriText.decode_fuel fuel k with Some u => Some (String c u) | None => None end.
Proof.
  intros Hc. destruct c as [[] [] [] [] [] [] [] []]; try discriminate Hc; reflexivity.
Qed.

Lemma decode_encode s fuel :
  ascii_text s = true -> (String.length s < fuel)%nat ->
  UriText.decode_fuel fuel (UriText.encode s) = Some s.
Proof.
  revert fuel. induction s as [|c s IH]; intros [|fuel] Ha Hf; [lia|done|lia|].
  cbn [ascii_text] in Ha. apply andb_prop in Ha as [Hc Hs]. cbn [UriText.encode].
  simpl in Hf. rewrite decode_char by done. rewrite IH by (done || lia). done.
Qed.

Lemma encode_length s : (String.length s <= String.length (UriText.encode s))%nat.
Proof. induction s as [|c s IH]; simpl; [lia|]. destruct (UriText.unreserved c); simpl; lia. Qed.

(** No colon is left in an encoded part. *)
Fixpoint no_colon (s : string) : bool :=
  match s with
  | EmptyString => true
  | String c s' => negb (eq_ascii c ":"%char) && no_colon s'
  end.

Lemma encode_no_colon s : no_colon (UriText.encode s) = true.
Proof.
  induction s as [|c s IH]; [done|]. cbn [UriText.encode].
  destruct c as [[] [] [] [] [] [] [] []]; exact IH.
Qed.

Lemma split_build a b :
  no_colon a = true -> split_separator (a +:+ (KEY_SEPARATOR +:+ b)) = Some (a, b).
Proof.
  induction a as [|c a IH]; intros Ha; [reflexivity|].
  simpl in Ha. apply andb_prop in Ha as [Hc Ha]. apply negb_true_iff in Hc.
  change (String c a +:+ (KEY_SEPARATOR +:+ b)) with (String c (a +:+ (KEY_SEPARATOR +:+ b))).
  assert (JsonText.strip KEY_SEPARATOR (String c (a +:+ (KEY_SEPARATOR +:+ b))) = None) as Hs.
  { destruct c as [[] [] [] [] [] [] [] []]; reflexivity || discriminate Hc. }
  cbn [split_separator]. rewrite Hs, IH by done. done.
Qed.

(** A bucket key can be taken apart again.  Building the storage key from a
    tracker and a route and parsing it gives the same tracker and route back, so
    no two buckets share a key; this holds for trackers that contain the
    separator, such as IPv6 addresses, or percent signs. *)
Theorem rate_limit_key_roundtrip tracker routeKey :
  ascii_text tracker = true -> ascii_text routeKey = true ->
  parseRateLimitKey (buildRateLimitKey tracker routeKey) = inr (tracker, routeKey).
Proof.
  intros Ht Hr. unfold parseRateLimitKey, buildRateLimitKey.
  rewrite split_build by apply encode_no_colon. unfold UriText.decode.
  rewrite !decode_encode; [done|done| |done|].
  - pose proof (encode_length routeKey). lia.
  - pose proof (encode_length tracker). lia.
Qed.

Lemma rate_limit_key_roundtrip_witness :
  parseRateLimitKey (buildRateLimitKey "::ffff:127.0.0.1" "TenantController.findById")
  = inr ("::ffff:127.0.0.1", "TenantController.findById").
Proof. apply rate_limit_key_roundtrip; reflexivity. Defined.

(** ** The table of hits *)

Record RateLimitHit := mkHit {
  hit_tracker : string;
  hit_routeKey : string;
  hit_at : Z  (* microseconds *)
}.

Definition in_bucket (tracker routeKey : string) (h : RateLimitHit) : bool :=
  String.eqb h.(hit_tracker) tracker && String.eqb h.(hit_routeKey) routeKey.

(** [hit_at] is the column's default, the time of the insert. *)
Definition recordHit (now : Z) (tracker routeKey : string) (hits : list RateLimitHit) : list RateLimitHit :=
  hits ++ [mkHit tracker routeKey now].

Definition hits_since (tracker routeKey : string) (us : Z) (hits : list RateLimitHit) : list RateLimitHit :=
  List.filter (fun h => in_bucket tracker routeKey h && (us <=? h.(hit_at))) hits.

(** [since] is a [Date]. *)
Definition countSince (tracker routeKey : string) (since : Z) (hits : list RateLimitHit) : Z :=
  Z.of_nat (length (hits_since tracker routeKey (column_of since) hits)).

(** The groups come in the order of their first hit. *)
Fixpoint route_counts (hits : list RateLimitHit) (acc : list (string * Z)) : list (string * Z) :=
  match hits with
  | [] => acc
  | h :: rest =>
      route_counts rest
        (assoc_set h.(hit_routeKey) (default 0 (assoc h.(hit_routeKey) acc) + 1) acc)
  end.

Definition countGroupedByRouteSince (tenantId : string) (since : Z) (hits : list RateLimitHit)
  : list (string * Z) :=
  route_counts (List.filter (fun h => String.eqb h.(hit_tracker) tenantId
                                      && (column_of since <=? h.(hit_at))) hits) [].

Definition deleteForTenant (tenantId : string) (hits : list RateLimitHit) : list RateLimitHit * Z :=
  let kept := List.filter (fun h => negb (String.eqb h.(hit_tracker) tenantId)) hits in
  (kept, Z.of_nat (length hits) - Z.of_nat (length kept)).

Definition pruneOlderThan (cutoff : Z) (hits : list RateLimitHit) : list RateLimitHit * Z :=
  let kept := List.filter (fun h => negb (h.(hit_at) <? column_of cutoff)) hits in
  (kept, Z.of_nat (length hits) - Z.of_nat (length kept)).

(** ** The sliding window *)

Definition js_sub (x y : jsnum) : jsnum := js_add x (neg_num y).

(** [n > x] for an exact count [n]. *)
Definition count_gt (n : Z) (x : jsnum) : bool :=
  match x with
  | NFin m e => if 0 <=? e then m * 2 ^ e <? n else m <? n * 2 ^ (- e)
  | NInf neg => neg
  | NNaN => false
  end.

Definition falsy_num (x : jsnum) : bool :=
  match x with NNaN => true | _ => is_zero x end.

(** [Math.ceil(x / 1000)] *)
Definition ceil_seconds (x : jsnum) : jsnum :=
  match x with
  | NFin m e =>
      match (if 0 <=? e then round_ratio (m * 2 ^ e) 1000 else round_ratio m (1000 * 2 ^ (- e))) with
      | NFin m' e' => if 0 <=? e' then NFin m' e' else num_of_Z (- ((- m') / 2 ^ (- e')))
      | y => y
      end
  | y => y
  end.

Record RateLimitStorageRecord := mkStorageRecord {
  rl_totalHits : Z;
  rl_timeToExpire : jsnum;
  rl_isBlocked : bool;
  rl_timeToBlockExpire : jsnum
}.

(** [increment] up to the answer of the count: the bucket and the hits already
    in its window.  An Invalid Date is refused by the database. *)
Definition increment_count (now : Z) (key : string) (ttl : jsnum) (hits : list RateLimitHit)
  : Exn + (string * string * Z) :=
  match parseRateLimitKey key with
  | inl e => inl e
  | inr (tracker, routeKey) =>
      match new_date (js_sub (num_of_Z (date_of now)) ttl) with
      | None => inl (QueryFailed "22007" "")
      | Some since => inr (tracker, routeKey, countSince tracker routeKey since hits)
      end
  end.

(** The rest of [increment], once the count is back; the table may have changed
    in between. *)
Definition increment_record (now : Z) (tracker routeKey : string) (existingHits : Z)
    (ttl limit blockDuration : jsnum) (hits : list RateLimitHit)
  : list RateLimitHit * RateLimitStorageRecord :=
  let alreadyBlocked := count_gt existingHits limit in
  let hits' := if alreadyBlocked then hits else recordHit now tracker routeKey hits in
  let totalHits := if alreadyBlocked then existingHits else existingHits + 1 in
  let isBlocked := count_gt totalHits limit in
  (hits', mkStorageRecord totalHits (ceil_seconds ttl) isBlocked
            (if isBlocked then
               ceil_seconds (if falsy_num blockDuration then ttl else blockDuration)
             else num_of_Z 0)).

(** Both halves; [others] is what the rest of the system does to the table while
    the count is awaited. *)
Definition increment (now now' : Z) (others : list RateLimitHit -> list RateLimitHit) (key : string)
    (ttl limit blockDuration : jsnum) (hits : list RateLimitHit)
  : list RateLimitHit * (Exn + RateLimitStorageRecord) :=
  match increment_count now key ttl hits with
  | inl e => (hits, inl e)
  | inr (tracker, routeKey, existingHits) =>
      let '(hits', r) :=
        increment_record now' tracker routeKey existingHits ttl limit blockDuration (others hits) in
      (hits', inr r)
  end.

(** ** The guards *)

(** The environment, each variable as its text; [None] is unset. *)
Definition Env : Type := string -> option string.

Definition env_number (env : Env) (name fallback : string) : jsnum :=
  JsNumber.of_string (default fallback (env name)).

Definition env_disabled (env : Env) (name : string) : bool :=
  String.eqb (default "true" (env name)) "false".

Inductive RateLimitTier := Standard | Premium.

(** Arrays are objects without a [tier]. *)
Definition resolveRateLimitTier (config : option json) : RateLimitTier :=
  match get_prop "tier" (get_prop "rate_limits" config) with
  | Some (JStr "premium") => Premium
  | _ => Standard
  end.

Inductive Verdict :=
| Allowed
| Throttled (retryAfter : jsnum)   (* ThrottlerException, with its header *)
| Errored (e : Exn).

Definition verdict_of (r : Exn + RateLimitStorageRecord) : Verdict :=
  match r with
  | inl e => Errored e
  | inr rec => if rec.(rl_isBlocked) then Throttled rec.(rl_timeToBlockExpire) else Allowed
  end.

(** [RateLimitGuard]: its tracker and key. *)
Definition getTracker (ip : option string) : string := default "unknown" ip.

Definition generateKey (className handlerName tracker : string) : string :=
  buildRateLimitKey tracker (className +:+ ("." +:+ handlerName)).

(** [TenantTierRateLimitGuard.limit] for a tenant's configuration. *)
Definition tier_limit (env : Env) (config : option json) : jsnum :=
  match resolveRateLimitTier config with
  | Premium => env_number env "RATE_LIMIT_PREMIUM_PER_MINUTE" "1000"
  | Standard => env_number env "RATE_LIMIT_STANDARD_PER_MINUTE" "100"
  end.

Definition canActivate (now now' : Z) (others : list RateLimitHit -> list RateLimitHit) (env : Env)
    (tenants : gmap string Tenant) (tenantId : option string) (className handlerName : string)
    (hits : list RateLimitHit) : list RateLimitHit * Verdict :=
  if env_disabled env "RATE_LIMIT_ENABLED" then (hits, Allowed)
  else
    match tenantId with
    | Some t =>
        if String.eqb t "" then (hits, Allowed)
        else
          let ttl := env_number env "RATE_LIMIT_WINDOW_MS" "60000" in
          let limit := tier_limit env (tn ← find_tenant t tenants; tn.(tn_config)) in
          let key := buildRateLimitKey t (className +:+ ("." +:+ handlerName)) in
          let '(hits', r) := increment now now' others key ttl limit ttl hits in
          (hits', verdict_of r)
    | None => (hits, Allowed)
    end.

(** [LogAccessRateLimiter] *)
Definition LOG_ACCESS_RATE_LIMIT_MAX_REQUESTS : Z := 120.
Definition LOG_ACCESS_RATE_LIMIT_WINDOW_MS : Z := 60000.
Definition LOG_ACCESS_RATE_LIMIT_ROUTE_KEY : string := "log-access".

Definition tryConsume (now now' : Z) (others : list RateLimitHit -> list RateLimitHit) (tenantId : string)
    (hits : list RateLimitHit) : list RateLimitHit * (Exn + bool) :=
  let window := num_of_Z LOG_ACCESS_RATE_LIMIT_WINDOW_MS in
  let '(hits', r) :=
    increment now now' others (buildRateLimitKey tenantId LOG_ACCESS_RATE_LIMIT_ROUTE_KEY) window
      (num_of_Z LOG_ACCESS_RATE_LIMIT_MAX_REQUESTS) window hits in
  (hits', match r with inl e => inl e | inr rec => inr (negb rec.(rl_isBlocked)) end).

(** [RateLimitPruneWorker.handle] *)
Definition prune_minutes (env : Env) : jsnum :=
  let retentionMinutes := env_number env "RATE_LIMIT_HIT_RETENTION_MINUTES" "5" in
  if is_finite retentionMinutes && gt_zero retentionMinutes then retentionMinutes else num_of_Z 5.

Definition prune_handle (now : Z) (env : Env) (hits : list RateLimitHit) : list RateLimitHit * (Exn + Z) :=
  match new_date (js_sub (num_of_Z (date_of now))
                   (js_mul (js_mul (prune_minutes env) (num_of_Z 60)) (num_of_Z 1000))) with
  | None => (hits, inl (QueryFailed "22007" ""))
  | Some cutoff => let '(hits', deleted) := pruneOlderThan cutoff hits in (hits', inr deleted)
  end.

(** *** Numbers of the window *)

Lemma js_sub_int a b :
  0 <= b <= a -> a < 2 ^ 53 -> js_sub (num_of_Z a) (num_of_Z b) = num_of_Z (a - b).
Proof.
  intros Hb Ha. unfold js_sub.
  destruct (num_of_Z_form a ltac:(lia)) as (k & Hk & ->), (num_of_Z_form b ltac:(lia)) as (l & Hl & ->).
  simpl. set (n := Z.max k l). replace (Z.min (- k) (- l)) with (- n) by lia.
  replace (a * 2 ^ k * 2 ^ (- k - - n) + - (b * 2 ^ l) * 2 ^ (- l - - n)) with ((a - b) * 2 ^ n).
  - apply round_dyadic_shift; lia.
  - rewrite Z.mul_opp_l, <-!Z.mul_assoc, <-!Z.pow_add_r by lia.
    replace (k + (- k - - n)) with n by lia. replace (l + (- l - - n)) with n by lia. ring.
Qed.

Lemma new_date_sub a b :
  0 <= b <= a -> a <= 8640000000000000 ->
  new_date (js_sub (num_of_Z a) (num_of_Z b)) = Some (a - b).
Proof.
  intros Hb Ha. assert (8640000000000000 < 2 ^ 53) by (by vm_compute).
  rewrite js_sub_int by lia. destruct (num_of_Z_trunc (a - b) ltac:(lia)) as (m & e & -> & Ht).
  simpl. rewrite Ht. destruct (Z.leb_spec (Z.abs (a - b)) 8640000000000000); [done|lia].
Qed.

Lemma count_gt_int n l : 0 <= l < 2 ^ 53 -> count_gt n (num_of_Z l) = (l <? n).
Proof.
  intros Hl. destruct (num_of_Z_form l Hl) as (k & Hk & ->). unfold count_gt.
  pose proof (pow2_pos k Hk). rewrite Z.opp_involutive.
  destruct (Z.leb_spec 0 (- k)).
  - assert (k = 0) as -> by lia. by rewrite !Z.mul_1_r.
  - destruct (Z.ltb_spec l n), (Z.ltb_spec (l * 2 ^ k) (n * 2 ^ k)); done || nia.
Qed.

(** *** Counting *)

Definition tally {A} (P : A -> bool) (l : list A) : Z := Z.of_nat (length (List.filter P l)).

Lemma tally_cons {A} (P : A -> bool) x l : tally P (x :: l) = (if P x then 1 else 0) + tally P l.
Proof. unfold tally. simpl. destruct (P x); simpl length; lia. Qed.

Lemma tally_app {A} (P : A -> bool) l l' : tally P (l ++ l') = tally P l + tally P l'.
Proof. unfold tally. rewrite List.filter_app, length_app. lia. Qed.

Lemma tally_nonneg {A} (P : A -> bool) l : 0 <= tally P l.
Proof. unfold tally. lia. Qed.

Lemma tally_mono {A} (P Q : A -> bool) l :
  (forall x, P x = true -> Q x = true) -> tally P l <= tally Q l.
Proof.
  intros H. induction l as [|x l IH]; [done|]. rewrite !tally_cons.
  destruct (P x) eqn:E; [rewrite (H x E); lia|]. destruct (Q x); lia.
Qed.

(** Rows a deletion keeps are counted as before. *)
Lemma tally_filter {A} (P keep : A -> bool) l :
  (forall x, P x = true -> keep x = true) -> tally P (List.filter keep l) = tally P l.
Proof.
  intros H. induction l as [|x l IH]; [done|]. simpl. rewrite tally_cons.
  destruct (P x) eqn:E.
  - rewrite (H x E), tally_cons, E. lia.
  - destruct (keep x); [rewrite tally_cons, E|]; lia.
Qed.

#[local] Hint Resolve tally_nonneg : core.

(** ** Requests in flight *)

(** A request between its count and its insert. *)
Record Flight := mkFlight {
  fl_tracker : string;
  fl_routeKey : string;
  fl_existing : Z;
  fl_ttl : jsnum;
  fl_limit : jsnum;
  fl_block : jsnum;
  fl_arrived : Z
}.

(** [g_allowed] lists the requests that were let through, with their bucket and
    the time they arrived. *)
Record Gate := mkGate {
  g_clock : Z;
  g_hits : list RateLimitHit;
  g_flights : list Flight;
  g_allowed : list (string * string * Z)
}.

Section Window.
(** One bucket, its window in milliseconds and its limit; [k] requests of it are
    in flight at most.  Other buckets are arbitrary. *)
Context (env : Env) (tracker routeKey : string) (W L : Z) (k : Z).

Definition mine (f : Flight) : bool :=
  String.eqb f.(fl_tracker) tracker && String.eqb f.(fl_routeKey) routeKey.

(** [Date.now()] is a valid date. *)
Definition valid_time (t : Z) : Prop := 0 <= t /\ date_of t <= 8640000000000000.

Inductive gate_step : Gate -> Gate -> Prop :=
| gate_arrive t key ttl limit block tr rk n g :
    g.(g_clock) <= t -> valid_time t ->
    increment_count t key ttl g.(g_hits) = inr (tr, rk, n) ->
    (tr = tracker -> rk = routeKey ->
     ttl = num_of_Z W /\ limit = num_of_Z L /\ tally mine g.(g_flights) < k) ->
    gate_step g (mkGate t g.(g_hits) (mkFlight tr rk n ttl limit block t :: g.(g_flights)) g.(g_allowed))
| gate_answer t f before after hits' r g :
    g.(g_clock) <= t -> valid_time t -> g.(g_flights) = before ++ f :: after ->
    increment_record t f.(fl_tracker) f.(fl_routeKey) f.(fl_existing) f.(fl_ttl) f.(fl_limit) f.(fl_block)
      g.(g_hits) = (hits', r) ->
    gate_step g (mkGate t hits' (before ++ after)
                   (if r.(rl_isBlocked) then g.(g_allowed)
                    else (f.(fl_tracker), f.(fl_routeKey), f.(fl_arrived)) :: g.(g_allowed)))
| gate_abandon t f before after g :
    g.(g_clock) <= t -> valid_time t -> g.(g_flights) = before ++ f :: after ->
    gate_step g (mkGate t g.(g_hits) (before ++ after) g.(g_allowed))
| gate_prune t hits' r g :
    g.(g_clock) <= t -> valid_time t -> prune_handle t env g.(g_hits) = (hits', r) ->
    gate_step g (mkGate t hits' g.(g_flights) g.(g_allowed))
| gate_reset t tenantId g :
    g.(g_clock) <= t -> valid_time t -> tenantId <> tracker ->
    gate_step g (mkGate t (deleteForTenant tenantId g.(g_hits)).1 g.(g_flights) g.(g_allowed)).

(** *** At most [L] requests in a window *)

Definition allowed_in (lo hi : Z) (x : string * string * Z) : bool :=
  String.eqb x.1.1 tracker && String.eqb x.1.2 routeKey && (lo <=? x.2) && (x.2 <=? hi).

Definition allowed_from (lo : Z) (x : string * string * Z) : bool :=
  String.eqb x.1.1 tracker && String.eqb x.1.2 routeKey && (lo <=? x.2).

(** In flight, and let through once answered. *)
Definition passing_in (lo hi : Z) (f : Flight) : bool :=
  mine f && (f.(fl_existing) + 1 <=? L) && (lo <=? f.(fl_arrived)) && (f.(fl_arrived) <=? hi).

Definition hit_from (lo : Z) (h : RateLimitHit) : bool :=
  in_bucket tracker routeKey h && (lo <=? h.(hit_at)).

Record Window_inv (g : Gate) : Prop := {
  win_clock : forall f, f ∈ g.(g_flights) -> mine f = true ->
              f.(fl_arrived) <= g.(g_clock) /\ f.(fl_limit) = num_of_Z L;
  win_hits : forall s, g.(g_clock) - column_of W <= s ->
             tally (allowed_from s) g.(g_allowed) <= tally (hit_from s) g.(g_hits);
  win_bound : forall s, tally (allowed_in s (s + column_of W)) g.(g_allowed)
              + tally (passing_in s (s + column_of W)) g.(g_flights) <= L + k - 1
}.

Context (M : Z).
Hypothesis limit_range : 0 <= L < 2 ^ 53.
Hypothesis window_range : 0 <= W <= M * 60000.
Hypothesis retention : prune_minutes env = num_of_Z M.
Hypothesis flights_range : 1 <= k.

Lemma date_floor t : column_of (date_of t) <= t.
Proof. unfold column_of, date_of. pose proof (Z.mul_div_le t 1000 ltac:(lia)). lia. Qed.

(** What an arrival of the bucket counts. *)
Lemma arrival_count t key hits n :
  increment_count t key (num_of_Z W) hits = inr (tracker, routeKey, n) ->
  valid_time t -> W <= date_of t ->
  exists us, us <= t - column_of W /\ n = tally (hit_from us) hits.
Proof.
  unfold increment_count. intros Hc [Ht0 Ht] HW.
  destruct (parseRateLimitKey key) as [|[tr rk]]; [done|].
  rewrite new_date_sub in Hc by lia. simplify_eq.
  exists (column_of (date_of t - W)). split; [|done].
  pose proof (date_floor t). unfold column_of in *. lia.
Qed.

Lemma prune_cutoff t hits hits' r :
  prune_handle t env hits = (hits', r) -> valid_time t -> M * 60000 <= date_of t ->
  forall s, t - column_of W <= s -> tally (hit_from s) hits' = tally (hit_from s) hits.
Proof.
  unfold prune_handle. intros Hp [Ht0 Ht] HM s Hs. assert (8640000000000000 < 2 ^ 53) by (by vm_compute).
  rewrite retention, !js_mul_int in Hp by lia.
  replace (M * 60 * 1000) with (M * 60000) in Hp by lia.
  rewrite new_date_sub in Hp by lia. unfold pruneOlderThan in Hp. simplify_eq.
  apply tally_filter. intros h Hh. unfold hit_from in Hh. apply andb_prop in Hh as [_ Hh].
  pose proof (date_floor t). unfold column_of in *. apply negb_true_iff, Z.ltb_ge. lia.
Qed.

Lemma reset_cutoff tenantId hits s :
  tenantId <> tracker -> tally (hit_from s) (deleteForTenant tenantId hits).1 = tally (hit_from s) hits.
Proof.
  intros Hne. simpl. apply tally_filter. intros h Hh.
  unfold hit_from, in_bucket in Hh. apply andb_prop in Hh as [Hh _]. apply andb_prop in Hh as [Hh _].
  apply String.eqb_eq in Hh. apply negb_true_iff, String.eqb_neq. congruence.
Qed.

Lemma flights_split {f before after} {l : list Flight} (P : Flight -> bool) :
  l = before ++ f :: after -> tally P l = (if P f then 1 else 0) + tally P (before ++ after).
Proof. intros ->. rewrite !tally_app, tally_cons. lia. Qed.

Lemma flights_rest {f before after} {l : list Flight} x :
  l = before ++ f :: after -> x ∈ before ++ after -> x ∈ l.
Proof. intros ->. rewrite !elem_of_app, elem_of_cons. tauto. Qed.

Lemma allowed_from_in lo hi l : tally (allowed_in lo hi) l <= tally (allowed_from lo) l.
Proof. apply tally_mono. intros x. unfold allowed_in, allowed_from. intros H. by apply andb_prop in H as [-> _]. Qed.

Lemma passing_mine lo hi l : tally (passing_in lo hi) l <= tally mine l.
Proof. apply tally_mono. intros x. unfold passing_in. rewrite !andb_true_iff. tauto. Qed.

Lemma arrive_inv t tr rk n ttl limit block g key :
  Window_inv g -> g.(g_clock) <= t -> valid_time t -> W <= date_of t ->
  increment_count t key ttl g.(g_hits) = inr (tr, rk, n) ->
  (tr = tracker -> rk = routeKey -> ttl = num_of_Z W /\ limit = num_of_Z L /\ tally mine g.(g_flights) < k) ->
  Window_inv (mkGate t g.(g_hits) (mkFlight tr rk n ttl limit block t :: g.(g_flights)) g.(g_allowed)).
Proof.
  intros [Hcl Hh Hb] Hle Ht HW Hc Hmine. split; simpl.
  - intros f [->|Hf]%elem_of_cons Hm.
    + unfold mine in Hm. simpl in *. apply andb_prop in Hm as [->%String.eqb_eq ->%String.eqb_eq].
      destruct Hmine as (_ & -> & _); done.
    + destruct (Hcl f Hf Hm). split; [lia|done].
  - intros s Hs. apply Hh. lia.
  - intros s. rewrite tally_cons. specialize (Hb s).
    destruct (passing_in s (s + column_of W) _) eqn:E; [|lia].
    unfold passing_in, mine in E. simpl in E. rewrite !andb_true_iff, !String.eqb_eq in E.
    destruct E as ((([-> ->] & ?) & ?) & ?).
    destruct Hmine as (-> & -> & Hk); [done..|].
    destruct (arrival_count _ _ _ _ Hc Ht HW) as (us & Hus & ->).
    pose proof (Hh s ltac:(lia)). pose proof (allowed_from_in s (s + column_of W) g.(g_allowed)).
    pose proof (passing_mine s (s + column_of W) g.(g_flights)).
    assert (tally (hit_from s) g.(g_hits) <= tally (hit_from us) g.(g_hits)); [|lia].
    apply tally_mono. intros h. unfold hit_from. intros [-> Hat]%andb_prop. simpl. lia.
Qed.

(** The insert adds to the window's hits; the log entry is counted only for the
    bucket itself. *)
Lemma recordHit_tally s t tr rk hits :
  tally (hit_from s) (recordHit t tr rk hits)
  = tally (hit_from s) hits + (if hit_from s (mkHit tr rk t) then 1 else 0).
Proof. unfold recordHit. rewrite tally_app, tally_cons. change (tally (hit_from s) []) with 0. lia. Qed.

Lemma answer_foreign s hi f allowed (b : bool) :
  mine f = false ->
  tally (allowed_from s) (if b then allowed else (f.(fl_tracker), f.(fl_routeKey), f.(fl_arrived)) :: allowed)
  = tally (allowed_from s) allowed /\
  tally (allowed_in s hi) (if b then allowed else (f.(fl_tracker), f.(fl_routeKey), f.(fl_arrived)) :: allowed)
  = tally (allowed_in s hi) allowed /\ passing_in s hi f = false.
Proof.
  unfold mine, passing_in. intros Hm. unfold mine. rewrite Hm.
  destruct b; rewrite ?tally_cons; unfold allowed_from, allowed_in; simpl; rewrite ?Hm; done.
Qed.

Lemma answer_inv t f before after hits' r g :
  Window_inv g -> g.(g_clock) <= t -> g.(g_flights) = before ++ f :: after ->
  increment_record t f.(fl_tracker) f.(fl_routeKey) f.(fl_existing) f.(fl_ttl) f.(fl_limit) f.(fl_block)
    g.(g_hits) = (hits', r) ->
  Window_inv (mkGate t hits' (before ++ after)
                (if r.(rl_isBlocked) then g.(g_allowed)
                 else (f.(fl_tracker), f.(fl_routeKey), f.(fl_arrived)) :: g.(g_allowed))).
Proof.
  intros [Hcl Hh Hb] Hle Hf Hr.
  assert (f ∈ g.(g_flights)) as Hin by (rewrite Hf, elem_of_app, elem_of_cons; tauto).
  unfold increment_record in Hr. injection Hr as <- <-. cbn [rl_isBlocked].
  assert (forall x, x ∈ before ++ after -> mine x = true ->
                    fl_arrived x <= t /\ fl_limit x = num_of_Z L) as Hrest.
  { intros x Hx Hm. destruct (Hcl x (flights_rest x Hf Hx) Hm). split; [lia|done]. }
  assert (forall s (b : bool), tally (hit_from s) g.(g_hits) <=
            tally (hit_from s) (if b then g.(g_hits) else recordHit t f.(fl_tracker) f.(fl_routeKey) g.(g_hits))) as Hgrow.
  { intros s []; [lia|]. rewrite recordHit_tally. destruct (hit_from _ _); lia. }
  destruct (mine f) eqn:Hm.
  - destruct (Hcl f Hin Hm) as [Harr Hlim]. rewrite Hlim, !count_gt_int by done.
    pose proof Hm as Hm'. unfold mine in Hm'.
    destruct (Z.ltb_spec L f.(fl_existing)) as [Hlt|Hge]; [rewrite (proj2 (Z.ltb_lt _ _) Hlt)|].
    + split; simpl; [done|intros s Hs; apply Hh; lia|]. intros s. specialize (Hb s).
      rewrite (flights_split _ Hf) in Hb. destruct (passing_in _ _ f); lia.
    + destruct (Z.ltb_spec L (f.(fl_existing) + 1)) as [Hlt|Hge']; split; simpl; try done.
      * intros s Hs. specialize (Hh s ltac:(lia)). specialize (Hgrow s false). simpl in Hgrow. lia.
      * intros s. specialize (Hb s). rewrite (flights_split _ Hf) in Hb. destruct (passing_in _ _ f); lia.
      * intros s Hs. specialize (Hh s ltac:(lia)). rewrite recordHit_tally, tally_cons.
        unfold allowed_from at 1, hit_from at 2, in_bucket. simpl. rewrite Hm'. simpl.
        destruct (Z.leb_spec s f.(fl_arrived)), (Z.leb_spec s t); lia.
      * intros s. specialize (Hb s). rewrite (flights_split _ Hf) in Hb. rewrite tally_cons.
        unfold passing_in at 1 in Hb. rewrite Hm, (proj2 (Z.leb_le _ _) Hge') in Hb.
        unfold allowed_in at 1. simpl in *. rewrite Hm'. simpl. lia.
  - split; simpl; [done| |].
    + intros s Hs. destruct (answer_foreign s 0 f g.(g_allowed)
        (count_gt (if count_gt f.(fl_existing) f.(fl_limit) then f.(fl_existing) else f.(fl_existing) + 1) f.(fl_limit)) Hm)
        as (-> & _ & _).
      specialize (Hh s ltac:(lia)). specialize (Hgrow s (count_gt f.(fl_existing) f.(fl_limit))). lia.
    + intros s. destruct (answer_foreign s (s + column_of W) f g.(g_allowed)
        (count_gt (if count_gt f.(fl_existing) f.(fl_limit) then f.(fl_existing) else f.(fl_existing) + 1) f.(fl_limit)) Hm)
        as (_ & -> & Hp).
      specialize (Hb s). rewrite (flights_split _ Hf), Hp in Hb. lia.
Qed.

Lemma gate_step_inv g g' :
  gate_step g g' -> M * 60000 <= date_of g.(g_clock) -> Window_inv g -> Window_inv g'.
Proof.
  assert (forall t t', t <= t' -> M * 60000 <= date_of t -> M * 60000 <= date_of t') as Hmono.
  { intros t t' Ht HM. unfold date_of in *. pose proof (Z.div_le_mono t t' 1000 ltac:(lia) Ht). lia. }
  intros Hs HM Hi. destruct Hs as [t key ttl limit block tr rk n g Hle Ht Hc Hm
    | t f before after hits' r g Hle Ht Hf Hr | t f before after g Hle Ht Hf
    | t hits' r g Hle Ht Hp | t tenantId g Hle Ht Hne].
  - eapply arrive_inv; try done. specialize (Hmono _ _ Hle HM). lia.
  - by eapply answer_inv.
  - destruct Hi as [Hcl Hh Hb]. split; simpl.
    + intros x Hx Hmx. destruct (Hcl x (flights_rest x Hf Hx) Hmx). split; [lia|done].
    + intros s Hs. apply Hh. lia.
    + intros s. specialize (Hb s). rewrite (flights_split _ Hf) in Hb. destruct (passing_in _ _ f); lia.
  - destruct Hi as [Hcl Hh Hb]. split; simpl; [| |done].
    + intros x Hx Hmx. destruct (Hcl x Hx Hmx). split; [lia|done].
    + intros s Hs. rewrite (prune_cutoff _ _ _ _ Hp Ht (Hmono _ _ Hle HM) s Hs). apply Hh. lia.
  - destruct Hi as [Hcl Hh Hb]. split; simpl; [| |done].
    + intros x Hx Hmx. destruct (Hcl x Hx Hmx). split; [lia|done].
    + intros s Hs. pose proof (reset_cutoff tenantId g.(g_hits) s Hne) as Hr. simpl in Hr. rewrite Hr. apply Hh. lia.
Qed.

Lemma gate_step_clock g g' : gate_step g g' -> g.(g_clock) <= g'.(g_clock).
Proof. by destruct 1. Qed.

Lemma gate_run_inv g g' :
  rtc gate_step g g' -> M * 60000 <= date_of g.(g_clock) -> Window_inv g -> Window_inv g'.
Proof.
  induction 1 as [|g g1 g' Hs _ IH]; [done|]. intros HM Hi. apply IH; [|by eapply gate_step_inv].
  pose proof (gate_step_clock _ _ Hs) as Hle. unfold date_of in *.
  pose proof (Z.div_le_mono _ _ 1000 ltac:(lia) Hle). lia.
Qed.

(** C12: the sliding window holds.  Whatever the requests of other buckets, the
    prune job and the resets of other tenants do, and however the requests of a
    bucket overlap, the requests that arrived within one window and were let
    through number at most the limit, plus one for each further request of the
    bucket that may be in flight at once (so exactly the limit when they come one
    at a time).  The hits already in the table only tighten it; the retention
    must cover the window. *)
Theorem rate_limit_window_bound g :
  forall clock hits, M * 60000 <= date_of clock ->
  rtc gate_step (mkGate clock hits [] []) g ->
  forall s, tally (allowed_in s (s + column_of W)) g.(g_allowed) <= L + (k - 1).
Proof.
  intros clock hits HM Hrun s.
  assert (Window_inv (mkGate clock hits [] [])) as Hi.
  { split; simpl; [set_solver|intros; unfold tally; simpl; lia|intros; unfold tally; simpl; lia]. }
  pose proof (win_bound _ (gate_run_inv _ _ Hrun HM Hi) s).
  pose proof (tally_nonneg (passing_in s (s + column_of W)) g.(g_flights)). lia.
Qed.
End Window.

(** A second request of a limit-one bucket is refused: one gets through. *)
Lemma rate_limit_window_bound_witness :
  let c := 1700000000000000 in
  exists g, rtc (gate_step (fun _ => None) "t1" "global" 60000 1 1) (mkGate c [] [] []) g /\
    g.(g_allowed) = [("t1", "global", c)] /\ g.(g_flights) = [] /\ length g.(g_hits) = 2%nat /\
    forall s, tally (allowed_in "t1" "global" s (s + column_of 60000)) g.(g_allowed) <= 1 + (1 - 1).
Proof.
  intros c. set (key := buildRateLimitKey "t1" "global").
  set (w := num_of_Z 60000). set (l := num_of_Z 1).
  assert (forall h n t, c <= t <= c + 2000 -> increment_count t key w h = inr ("t1", "global", n) ->
    forall a, gate_step (fun _ => None) "t1" "global" 60000 1 1 (mkGate t h [] a)
                (mkGate t h [mkFlight "t1" "global" n w l w t] a)) as Harr.
  { intros h n t Ht Hn a. eapply gate_arrive; simpl; [lia| |exact Hn|done].
    split; [lia|]. unfold date_of. apply Z.div_le_upper_bound; lia. }
  assert (forall h n t h' r a, c <= t <= c + 2000 ->
    increment_record (t + 1000) "t1" "global" n w l w h = (h', r) ->
    gate_step (fun _ => None) "t1" "global" 60000 1 1 (mkGate t h [mkFlight "t1" "global" n w l w t] a)
      (mkGate (t + 1000) h' [] (if r.(rl_isBlocked) then a else ("t1", "global", t) :: a))) as Hans.
  { intros h n t h' r a Ht Hr.
    eapply (gate_answer _ _ _ _ _ _ (t + 1000) (mkFlight "t1" "global" n w l w t) [] []); simpl; [lia| |done|exact Hr].
    split; [lia|]. unfold date_of. apply Z.div_le_upper_bound; lia. }
  set (g := mkGate (c + 1000 + 1000) [mkHit "t1" "global" (c + 1000); mkHit "t1" "global" (c + 1000 + 1000)]
              [] [("t1", "global", c)]).
  assert (rtc (gate_step (fun _ => None) "t1" "global" 60000 1 1) (mkGate c [] [] []) g) as Hrun.
  { eapply rtc_l; [apply (Harr [] 0 c); [lia|by vm_compute]|].
    eapply rtc_l; [eapply Hans; [lia|reflexivity]|].
    eapply rtc_l; [apply (Harr [mkHit "t1" "global" (c + 1000)] 1 (c + 1000)); [lia|by vm_compute]|].
    eapply rtc_l; [eapply Hans; [lia|reflexivity]|]. apply rtc_refl. }
  exists g. split; [exact Hrun|]. split_and!; [reflexivity..|].
  apply (rate_limit_window_bound (fun _ => None) "t1" "global" 60000 1 1 5) with c [];
    [by vm_compute|lia|by vm_compute|lia|by vm_compute|exact Hrun].
Defined.
