(* ===== verification/Pagination.v ===== *)
(** * Keyset pagination

    The list endpoints page through a tenant's rows ordered by
    [(created_at, id)].  The query asks for one row more than the page, the
    page ends at the limit, and the next page starts strictly after the last
    row's cursor.  Modelled here once for both directions; the operation and
    connection repositories instantiate it (their [findPageForTenant]). *)

From Stdlib Require Import Ascii ZArith Lia Sorted.
From stdpp Require Import base decidable strings sets gmap list list_relations sorting.
From S2P Require Import Prelude Js Entities StateMapping Db.

Local Open Scope Z_scope.

(** ** Order on identifiers

    [uuid] columns compare bytewise, which on their canonical text is the
    lexicographic order. *)

Fixpoint str_ltb (a b : string) : bool :=
  match a, b with
  | EmptyString, String _ _ => true
  | String x a', String y b' =>
      if Ascii.eqb x y then str_ltb a' b' else (N_of_ascii x <? N_of_ascii y)%N
  | _, EmptyString => false
  end.

Lemma str_ltb_irrefl a : str_ltb a a = false.
Proof. induction a as [|x a IH]; simpl; [done|]. by rewrite Ascii.eqb_refl. Qed.

Lemma str_ltb_trans a b c : str_ltb a b = true -> str_ltb b c = true -> str_ltb a c = true.
Proof.
  revert b c. induction a as [|x a IH]; intros [|y b] [|z c]; simpl; try done.
  destruct (Ascii.eqb_spec x y) as [->|Hxy].
  - destruct (Ascii.eqb_spec y z) as [->|]; [apply IH|done].
  - destruct (Ascii.eqb_spec y z) as [->|Hyz].
    + by rewrite (proj2 (Ascii.eqb_neq x z) Hxy).
    + rewrite !N.ltb_lt. intros H1 H2.
      destruct (Ascii.eqb_spec x z) as [->|]; [lia|]. rewrite N.ltb_lt. lia.
Qed.

Lemma str_ltb_total a b : a = b \/ str_ltb a b = true \/ str_ltb b a = true.
Proof.
  revert b. induction a as [|x a IH]; intros [|y b]; simpl; auto.
  destruct (Ascii.eqb_spec x y) as [->|Hxy].
  - rewrite ?Ascii.eqb_refl. destruct (IH b) as [->|[]]; auto.
  - rewrite (proj2 (Ascii.eqb_neq y x)) by done. rewrite !N.ltb_lt.
    destruct (N.lt_trichotomy (N_of_ascii x) (N_of_ascii y)) as [|[H|]]; auto.
    apply (f_equal ascii_of_N) in H. rewrite !ascii_N_embedding in H. done.
Qed.

(** A cursor: the microseconds it is compared at, and the row id. *)
Record Cursor := mkCursor { cur_createdAt : Z; cur_id : string }.

Definition key_ltb (a b : Z * string) : bool :=
  (a.1 <? b.1) || ((a.1 =? b.1) && str_ltb a.2 b.2).

Definition key_lt (a b : Z * string) : Prop := key_ltb a b = true.

#[export] Instance key_lt_dec a b : Decision (key_lt a b).
Proof. unfold key_lt. apply _. Defined.

Lemma key_lt_irrefl a : ~ key_lt a a.
Proof. unfold key_lt, key_ltb. rewrite Z.ltb_irrefl, Z.eqb_refl, str_ltb_irrefl. done. Qed.

Lemma key_ltb_spec a b :
  key_lt a b <-> a.1 < b.1 \/ (a.1 = b.1 /\ str_ltb a.2 b.2 = true).
Proof.
  unfold key_lt, key_ltb. rewrite orb_true_iff, andb_true_iff, Z.ltb_lt, Z.eqb_eq. done.
Qed.

Lemma key_lt_trans a b c : key_lt a b -> key_lt b c -> key_lt a c.
Proof.
  rewrite !key_ltb_spec. intros [?|[? ?]] [?|[? ?]]; [left; lia..|].
  right. split; [lia|]. by eapply str_ltb_trans.
Qed.

Lemma key_lt_total a b : a = b \/ key_lt a b \/ key_lt b a.
Proof.
  rewrite !key_ltb_spec. destruct a as [x i], b as [y j]; simpl.
  destruct (Z.lt_trichotomy x y) as [?|[->|?]]; [auto| |auto].
  destruct (str_ltb_total i j) as [->|[?|?]]; auto.
Qed.

(** ** The query *)

Inductive Direction := ASC | DESC.

Section Keyset.
Context {A : Type} (key : A -> Z * string) (dir : Direction).

(** [before a b]: [a] is listed before [b]. *)
Definition before (a b : Z * string) : Prop :=
  match dir with ASC => key_lt a b | DESC => key_lt b a end.

Definition beforeb (a b : Z * string) : bool :=
  match dir with ASC => key_ltb a b | DESC => key_ltb b a end.

Lemma beforeb_spec a b : beforeb a b = true <-> before a b.
Proof. by unfold before, beforeb, key_lt; destruct dir. Qed.

Lemma before_irrefl a : ~ before a a.
Proof. unfold before; destruct dir; apply key_lt_irrefl. Qed.

Lemma before_trans a b c : before a b -> before b c -> before a c.
Proof. unfold before; destruct dir; eauto using key_lt_trans. Qed.

Lemma before_total a b : a = b \/ before a b \/ before b a.
Proof. unfold before. destruct dir, (key_lt_total a b) as [?|[?|?]]; auto. Qed.

(** Ordered insertion, and [ORDER BY]. *)
Fixpoint insert_row (r : A) (l : list A) : list A :=
  match l with
  | [] => [r]
  | x :: l' => if beforeb (key r) (key x) then r :: l else x :: insert_row r l'
  end.

Definition order_by (l : list A) : list A := foldr insert_row [] l.

(** [AND (created_at, id) > (cursor)] (or [<]). *)
Definition after_cursor (c : option Cursor) (r : A) : bool :=
  match c with
  | None => true
  | Some c => beforeb (cur_createdAt c, cur_id c) (key r)
  end.

Definition keyset_query (P : A -> bool) (c : option Cursor) (limit : nat) (l : list A) : list A :=
  take limit (order_by (filter (fun r => P r && after_cursor c r = true) l)).

Record Page := mkPage { pg_items : list A; pg_nextCursor : option Cursor; pg_hasMore : bool }.

(** [findPageForTenant] after the query: [cursor_of] renders a row's cursor. *)
Definition paginate (cursor_of : A -> Cursor) (limit : nat) (found : list A) : Page :=
  let hasMore := (limit <? length found)%nat in
  let items := if hasMore then take limit found else found in
  mkPage items
    (if hasMore then cursor_of <$> last items else None)
    hasMore.

Definition find_page (cursor_of : A -> Cursor) (P : A -> bool) (limit : nat)
    (c : option Cursor) (l : list A) : Page :=
  paginate cursor_of limit (keyset_query P c (limit + 1) l).

(** A client following [next_cursor] until there is none, at most [fuel]
    pages; [None] when pages remain. *)
Fixpoint follow (cursor_of : A -> Cursor) (P : A -> bool) (limit : nat) (l : list A)
    (fuel : nat) (c : option Cursor) : option (list A) :=
  match fuel with
  | O => None
  | S fuel' =>
      let p := find_page cursor_of P limit c l in
      match p.(pg_nextCursor) with
      | None => Some p.(pg_items)
      | Some c' => rest ← follow cursor_of P limit l fuel' (Some c'); Some (p.(pg_items) ++ rest)
      end
  end.

(** *** Sorting *)

Definition row_before (a b : A) : Prop := before (key a) (key b).

Definition distinct_keys (l : list A) : Prop := NoDup (key <$> l).

Lemma insert_row_perm r l : insert_row r l ≡ₚ r :: l.
Proof.
  induction l as [|x l IH]; simpl; [done|].
  destruct (beforeb (key r) (key x)); [done|]. rewrite IH. by constructor.
Qed.

Lemma order_by_perm l : order_by l ≡ₚ l.
Proof. induction l as [|x l IH]; simpl; [done|]. by rewrite insert_row_perm, IH. Qed.

Lemma insert_row_sorted r l :
  (forall x, x ∈ l -> key x <> key r) ->
  StronglySorted row_before l -> StronglySorted row_before (insert_row r l).
Proof.
  intros Hne. induction 1 as [|x l Hs IH Hx]; simpl; [by repeat constructor|].
  destruct (beforeb (key r) (key x)) eqn:E.
  - apply beforeb_spec in E. constructor; [by constructor|].
    constructor; [done|]. eapply Forall_impl; [exact Hx|].
    intros y Hy. by eapply before_trans.
  - assert (before (key x) (key r)) as Hb.
    { destruct (before_total (key x) (key r)) as [H|[H|H]]; [|done|].
      - exfalso. apply (Hne x); [by left|done].
      - apply beforeb_spec in H. congruence. }
    constructor; [apply IH; intros; apply Hne; by right|].
    rewrite insert_row_perm. by constructor.
Qed.

Lemma order_by_sorted l : distinct_keys l -> StronglySorted row_before (order_by l).
Proof.
  unfold distinct_keys. induction l as [|x l IH]; simpl; [constructor|].
  intros [Hni Hnd]%NoDup_cons. apply insert_row_sorted; [|by apply IH].
  intros y Hy Heq. apply Hni. rewrite <-Heq. rewrite order_by_perm in Hy.
  by apply list_elem_of_fmap_2.
Qed.

(** A strictly sorted listing is determined by its rows. *)
Lemma sorted_unique l1 l2 :
  StronglySorted row_before l1 -> StronglySorted row_before l2 -> l1 ≡ₚ l2 -> l1 = l2.
Proof.
  intros Hs1. revert l2. induction Hs1 as [|x l1 Hs1 IH Hx]; intros l2 Hs2 Hp.
  { by apply Permutation_nil in Hp. }
  destruct Hs2 as [|y l2 Hs2 Hy]; [by symmetry in Hp; apply Permutation_nil_cons in Hp|].
  assert (x = y) as ->.
  { assert (x ∈ y :: l2) as Hin by (rewrite <-Hp; left).
    apply elem_of_cons in Hin as [|Hin]; [done|].
    assert (y ∈ x :: l1) as Hin' by (rewrite Hp; left).
    apply elem_of_cons in Hin' as [|Hin']; [done|].
    rewrite Forall_forall in Hx, Hy.
    destruct (before_irrefl (key x)). eapply before_trans; [by apply Hx|by apply Hy]. }
  f_equal. apply IH; [done|]. by apply Permutation_cons_inv in Hp.
Qed.

Lemma sorted_filter (Q : A -> Prop) `{!forall x, Decision (Q x)} (l : list A) :
  StronglySorted row_before l -> StronglySorted row_before (filter Q l).
Proof.
  induction 1 as [|x l Hs IH Hx]; [constructor|]. rewrite filter_cons.
  destruct (decide (Q x)); [|done]. constructor; [done|].
  apply Forall_forall. intros y [_ Hy]%list_elem_of_filter.
  by rewrite Forall_forall in Hx; apply Hx.
Qed.

(** The whole listing a client would see without paging. *)
Definition listing (P : A -> bool) (l : list A) : list A :=
  order_by (filter (fun r => P r = true) l).

Lemma distinct_keys_filter (Q : A -> Prop) `{!forall x, Decision (Q x)} (l : list A) :
  distinct_keys l -> distinct_keys (filter Q l).
Proof.
  unfold distinct_keys. induction l as [|x l IH]; [done|]. simpl.
  intros [Hni Hnd]%NoDup_cons. rewrite filter_cons. destruct (decide (Q x)); [|by apply IH].
  simpl. apply NoDup_cons. split; [|by apply IH].
  intros (y & Hk & Hy)%list_elem_of_fmap. apply list_elem_of_filter in Hy as [_ Hy].
  apply Hni. rewrite Hk. by apply list_elem_of_fmap_2.
Qed.

Lemma keyset_query_listing P c n l :
  distinct_keys l ->
  keyset_query P c n l = take n (filter (fun r => after_cursor c r = true) (listing P l)).
Proof.
  intros Hd. unfold keyset_query, listing. f_equal. apply sorted_unique.
  - by apply order_by_sorted, distinct_keys_filter.
  - by apply sorted_filter, order_by_sorted, distinct_keys_filter.
  - rewrite !order_by_perm, list_filter_filter.
    erewrite list_filter_iff; [done|]. intros x. simpl. rewrite andb_true_iff. tauto.
Qed.

Lemma filter_all (Q : A -> Prop) `{!forall x, Decision (Q x)} (l : list A) :
  (forall x, x ∈ l -> Q x) -> filter Q l = l.
Proof.
  induction l as [|x l IH]; [done|]. intros Hall. rewrite filter_cons.
  rewrite decide_True by (apply Hall; left). f_equal. apply IH. intros; apply Hall; by right.
Qed.

Lemma filter_none (Q : A -> Prop) `{!forall x, Decision (Q x)} (l : list A) :
  (forall x, x ∈ l -> ~ Q x) -> filter Q l = [].
Proof.
  induction l as [|x l IH]; [done|]. intros Hall. rewrite filter_cons.
  rewrite decide_False by (apply Hall; left). apply IH. intros; apply Hall; by right.
Qed.

(** In a sorted listing, everything in a first part is before everything in
    the rest. *)
Lemma sorted_app_before l1 l2 x y :
  StronglySorted row_before (l1 ++ l2) -> x ∈ l1 -> y ∈ l2 -> row_before x y.
Proof.
  induction l1 as [|z l1 IH]; intros Hs Hx Hy; [by apply elem_of_nil in Hx|].
  simpl in Hs. inversion Hs as [|? ? Hs' Hz]; subst.
  apply elem_of_cons in Hx as [->|Hx]; [|by apply IH].
  rewrite Forall_forall in Hz. apply Hz. set_solver.
Qed.

Lemma sorted_app l1 l2 :
  StronglySorted row_before l1 -> StronglySorted row_before l2 ->
  (forall x y, x ∈ l1 -> y ∈ l2 -> row_before x y) -> StronglySorted row_before (l1 ++ l2).
Proof.
  intros H1 H2 H12. induction H1 as [|x l1 H1 IH Hx]; simpl; [done|].
  constructor; [apply IH; set_solver|]. apply Forall_app. split; [done|].
  apply Forall_forall. intros y Hy. apply H12; set_solver.
Qed.

(** The rows after the last row of a prefix are exactly the remaining ones. *)
Lemma filter_after pre x rest :
  StronglySorted row_before ((pre ++ [x]) ++ rest) ->
  filter (fun r => beforeb (key x) (key r) = true) ((pre ++ [x]) ++ rest) = rest.
Proof.
  intros Hs. rewrite filter_app, filter_none, filter_all; [done| |].
  - intros y Hy. apply beforeb_spec. eapply (sorted_app_before _ _ x y Hs); set_solver.
  - intros y Hy Hb. apply beforeb_spec in Hb.
    apply elem_of_app in Hy as [Hy|Hy%list_elem_of_singleton]; subst;
      [|by apply before_irrefl in Hb].
    rewrite <-app_assoc in Hs.
    assert (row_before y x) by (eapply (sorted_app_before _ _ y x Hs); set_solver).
    by eapply before_irrefl, before_trans.
Qed.

(** *** Following the cursors *)

Section Follow.
Context (cursor_of : A -> Cursor) (P : A -> bool) (limit : nat) (l : list A).
Hypothesis cursor_exact : forall r, (cur_createdAt (cursor_of r), cur_id (cursor_of r)) = key r.
Hypothesis keys : distinct_keys l.
Hypothesis limit_pos : (0 < limit)%nat.

(** [c] stands at the end of [seen]. *)
Definition cursor_at (seen : list A) : option Cursor := cursor_of <$> last seen.

Lemma query_rest seen rest n :
  listing P l = seen ++ rest ->
  keyset_query P (cursor_at seen) n l = take n rest.
Proof.
  intros Hl. rewrite keyset_query_listing by done. f_equal.
  assert (StronglySorted row_before (seen ++ rest)) as Hs.
  { rewrite <-Hl. by apply order_by_sorted, distinct_keys_filter. }
  rewrite Hl. unfold cursor_at.
  destruct seen as [|x seen _] using rev_ind; simpl; [by apply filter_all|].
  rewrite last_snoc. simpl. rewrite cursor_exact. by apply filter_after.
Qed.

Lemma follow_rest fuel seen rest :
  listing P l = seen ++ rest -> (0 < fuel)%nat -> (length rest <= fuel * limit)%nat ->
  follow cursor_of P limit l fuel (cursor_at seen) = Some rest.
Proof.
  revert seen rest. induction fuel as [|fuel IH]; intros seen rest Hl Hf Hlen; [lia|].
  simpl. unfold find_page. rewrite (query_rest seen rest) by done.
  unfold paginate. rewrite length_take.
  destruct (Nat.ltb_spec limit ((limit + 1) `min` length rest)) as [Hlt|Hge]; simpl.
  - rewrite take_take, (Nat.min_l limit) by lia.
    destruct (last (take limit rest)) as [x|] eqn:Elast; simpl.
    + assert (cursor_at (seen ++ take limit rest) = Some (cursor_of x)) as <-.
      { unfold cursor_at. by rewrite last_app, Elast. }
      rewrite (IH _ (drop limit rest)).
      * simpl. by rewrite take_drop.
      * by rewrite <-app_assoc, take_drop.
      * destruct fuel; [simpl in *; lia|lia].
      * rewrite length_drop. simpl in Hlen. lia.
    + apply last_None in Elast. apply (f_equal length) in Elast.
      rewrite length_take in Elast. simpl in Elast. lia.
  - by rewrite take_ge by lia.
Qed.
End Follow.
End Keyset.

Arguments listing {A} key dir P l : assert.
Arguments follow {A} key dir cursor_of P limit l fuel c : assert.
Arguments find_page {A} key dir cursor_of P limit c l : assert.
Arguments keyset_query {A} key dir P c limit l : assert.
Arguments distinct_keys {A} key l : assert.
Arguments pg_items {A} p : assert.
Arguments pg_nextCursor {A} p : assert.
Arguments pg_hasMore {A} p : assert.
Arguments mkPage {A} _ _ _.
