(* ===== verification/OperationService.v ===== *)
(** * Operations

    OperationRepository and OperationService (operation). *)

From Stdlib Require Import Ascii ZArith Lia.
From stdpp Require Import base decidable strings sets gmap list list_relations.
From S2P Require Import Prelude Js Entities StateMapping OperationTtl Db Pagination.

(** * OperationRepository

    Models operation/operation.repository.ts and the constraints the
    migrations put on the [operation] table: every query and guarded update,
    statement by statement. *)

Local Open Scope Z_scope.

(** ** Constraints

    Migrations 000028 and 000029: at most one in-flight holder action, and at
    most one in-flight revocation, per tenant and external id. *)

Definition in_flight (s : OperationState) : bool :=
  match s with PENDING | PROCESSING => true | _ => false end.

Definition is_holder_action (type : string) : bool :=
  mem_str type [CREDENTIAL_ACCEPT; CREDENTIAL_REJECT].

Definition same_inflight_slot (o o' : Operation) : bool :=
  String.eqb o.(op_tenantId) o'.(op_tenantId) &&
  (match o.(op_externalId), o'.(op_externalId) with
   | Some e, Some e' => String.eqb e e'
   | _, _ => false
   end) &&
  in_flight o.(op_state) && in_flight o'.(op_state) &&
  ((is_holder_action o.(op_type) && is_holder_action o'.(op_type)) ||
   (String.eqb o.(op_type) CREDENTIAL_REVOKE && String.eqb o'.(op_type) CREDENTIAL_REVOKE)).

Definition operation_conflict (id : string) (o : Operation) (t : gmap string Operation) : bool :=
  existsb (fun o' => negb (String.eqb o'.(op_id) id) && same_inflight_slot o o') (rows t).

(** One row written under key [id], or the unique violation. *)
Definition write_operation (m : Mgr) (id : string) (o : Operation) : Prog unit :=
  conflict ← read m (fun d => operation_conflict id o d.(db_operations));
  if conflict : bool then throw (QueryFailed "23505" "uq_operation_inflight")
  else modify m (fun d => set_operations (<[id := o]> d.(db_operations)) d).

(** A date parameter reaches the database as text; an invalid one is refused. *)
Definition date_param (d : option Z) : Prog Z :=
  match d with
  | Some ms => mret (column_of ms)
  | None => throw (QueryFailed "22007" "")
  end.

(** ** Writes *)

(** [save] of a new entity: the database generates id and timestamps. *)
Definition operations_insert (m : Mgr) (mk : string -> Z -> Operation) : Prog Operation :=
  id ← gen_uuid;
  now ← now_us;
  taken ← read m (fun d => bool_decide (is_Some (d.(db_operations) !! id)));
  if taken : bool then throw (QueryFailed "23505" "operation_pkey")
  else _ ← write_operation m id (mk id now); mret (mk id now).

(** [save] of a loaded entity: only changed columns are written, and a write
    refreshes [updated_at]; a row that is gone is inserted again. *)
Definition operations_save (m : Mgr) (o : Operation) : Prog Operation :=
  row ← read m (fun d => d.(db_operations) !! o.(op_id));
  match row with
  | Some r =>
      if decide (op_set_updatedAt 0 r = op_set_updatedAt 0 o) then mret o
      else
        now ← now_us;
        _ ← write_operation m o.(op_id) (op_set_updatedAt now o);
        mret (op_set_updatedAt now o)
  | None => _ ← write_operation m o.(op_id) o; mret o
  end.

(** Raw SQL, single-shot, leaves [updated_at] alone. *)
Definition operations_markFirstView (id : string) (viewedAt : Z) (expiresAt : option Z)
    : Prog (option (Z * Z)) :=
  x ← date_param expiresAt;
  row ← read NoTx (fun d => d.(db_operations) !! id);
  match row with
  | Some o =>
      match o.(op_viewedAt) with
      | None =>
          _ ← write_operation NoTx id (op_set_view (Some (column_of viewedAt)) x o);
          mret (Some (column_of viewedAt, x))
      | Some _ => mret None
      end
  | None => mret None
  end.

(** An [UPDATE ... WHERE id = id AND guard], refreshing [updated_at]; returns
    whether a row was affected. *)
Definition update_operation (m : Mgr) (id : string) (guard : Operation -> bool)
    (f : Operation -> Operation) : Prog bool :=
  row ← read m (fun d => d.(db_operations) !! id);
  match row with
  | Some o =>
      if guard o then
        now ← now_us;
        _ ← write_operation m id (op_set_updatedAt now (f o));
        mret true
      else mret false
  | None => mret false
  end.

Definition operations_updateState (id : string) (state : OperationState)
    (expiresAt : option (option Z)) : Prog unit :=
  match expiresAt with
  | Some x =>
      x ← date_param x;
      _ ← update_operation NoTx id (fun _ => true)
            (fun o => op_set_expiresAt x (op_set_state state o));
      mret tt
  | None =>
      _ ← update_operation NoTx id (fun _ => true) (op_set_state state);
      mret tt
  end.

Record TransitionPatch := mkPatch {
  tp_state : option OperationState;
  tp_result : option (option json);           (* outer [None]: not part of the patch *)
  tp_expiresAt : option Z;
  tp_externalId : option (option string)
}.

Definition apply_patch (p : TransitionPatch) (x : Z) (o : Operation) : Operation :=
  let o := match p.(tp_state) with Some s => op_set_state s o | None => o end in
  let o := match p.(tp_result) with Some r => op_set_result r o | None => o end in
  let o := match p.(tp_externalId) with Some e => op_set_externalId e o | None => o end in
  op_set_expiresAt x o.

Definition operations_transitionIfForward (id tenantId : string)
    (fromStates : list OperationState) (patch : TransitionPatch) (m : Mgr) : Prog bool :=
  x ← date_param patch.(tp_expiresAt);
  update_operation m id
    (fun o => String.eqb o.(op_tenantId) tenantId && bool_decide (o.(op_state) ∈ fromStates))
    (apply_patch patch x).

Definition operations_updateResult (id : string) (result : option json)
    (state : option OperationState) : Prog unit :=
  _ ← update_operation NoTx id (fun _ => true)
        (fun o => let o := op_set_result result o in
                  match state with Some s => op_set_state s o | None => o end);
  mret tt.

Definition operations_claimBatchSettlement (batchId tenantId : string) (state : OperationState)
    (m : Mgr) : Prog bool :=
  update_operation m batchId
    (fun o => String.eqb o.(op_tenantId) tenantId && bool_decide (o.(op_state) = PROCESSING))
    (op_set_state state).

(** ** Reads *)

Definition operations_findById (id : string) (m : Mgr) : Prog (option Operation) :=
  read m (fun d => d.(db_operations) !! id).

Definition operations_findByIdForTenant (id tenantId : string) (m : Mgr)
    : Prog (option Operation) :=
  read m (fun d =>
    match d.(db_operations) !! id with
    | Some o => if String.eqb o.(op_tenantId) tenantId then Some o else None
    | None => None
    end).

Definition matches_external (tenantId externalId : string) (types : list string)
    (o : Operation) : bool :=
  String.eqb o.(op_tenantId) tenantId &&
  bool_decide (o.(op_externalId) = Some externalId) &&
  mem_str o.(op_type) types.

Definition operations_findByExternalIdForTenant (tenantId externalId : string)
    (types : list string) : Prog (option Operation) :=
  read NoTx (fun d =>
    find_latest op_createdAt
      (fun o => matches_external tenantId externalId types o && in_flight o.(op_state))
      d.(db_operations)).

Definition operations_existsByExternalIdForTenant (tenantId externalId : string)
    (types : list string) : Prog bool :=
  read NoTx (fun d =>
    (0 <? count_rows (matches_external tenantId externalId types) d.(db_operations))%nat).

Definition operations_findLatestByExternalIdAndTypeForTenant (tenantId externalId : string)
    (types : list string) : Prog (option Operation) :=
  read NoTx (fun d =>
    find_latest op_createdAt (matches_external tenantId externalId types) d.(db_operations)).

(** [SELECT ... FOR UPDATE] on the batch parent; see BatchSettlement for what
    the lock is for. *)
Definition operations_lockBatchParent (batchId tenantId : string) (m : Mgr) : Prog unit :=
  _ ← operations_findByIdForTenant batchId tenantId m; mret tt.

Record BatchStateCounts := mkCounts {
  bc_pending : nat; bc_processing : nat; bc_completed : nat; bc_failed : nat
}.

Definition is_child (batchId tenantId : string) (o : Operation) : bool :=
  bool_decide (o.(op_batchId) = Some batchId) && String.eqb o.(op_tenantId) tenantId.

Definition count_children (batchId tenantId : string) (s : OperationState)
    (t : gmap string Operation) : nat :=
  count_rows (fun o => is_child batchId tenantId o && bool_decide (o.(op_state) = s)) t.

Definition counts_of (batchId tenantId : string) (t : gmap string Operation) : BatchStateCounts :=
  mkCounts (count_children batchId tenantId PENDING t)
    (count_children batchId tenantId PROCESSING t)
    (count_children batchId tenantId COMPLETED t)
    (count_children batchId tenantId FAILED t).

Definition operations_countByBatchGroupedByState (batchId tenantId : string) (m : Mgr)
    : Prog BatchStateCounts :=
  read m (fun d => counts_of batchId tenantId d.(db_operations)).

(** ** Filtered listing *)

Record FindByTenantFilters := mkFilters {
  fl_tenantId : string;
  fl_state : option OperationState;
  fl_type : option string;
  fl_batchId : option (option string);         (* [Some None]: [batch_id IS NULL] *)
  fl_limit : option nat;
  fl_cursor : option Cursor
}.

Definition DEFAULT_LIMIT : nat := 20.

Definition op_key (o : Operation) : Z * string := (o.(op_createdAt), o.(op_id)).

Definition matches_filters (f : FindByTenantFilters) (o : Operation) : bool :=
  String.eqb o.(op_tenantId) f.(fl_tenantId) &&
  (match f.(fl_state) with Some s => bool_decide (o.(op_state) = s) | None => true end) &&
  (match f.(fl_type) with Some t => String.eqb o.(op_type) t | None => true end) &&
  (match f.(fl_batchId) with
   | Some (Some b) => bool_decide (o.(op_batchId) = Some b)
   | Some None => bool_decide (o.(op_batchId) = None)
   | None => true
   end).

Definition buildFilteredQuery (f : FindByTenantFilters) (t : gmap string Operation)
    : list Operation :=
  keyset_query op_key DESC (matches_filters f) f.(fl_cursor) (default DEFAULT_LIMIT f.(fl_limit))
    (rows t).

Definition operations_findByTenantWithFilters (f : FindByTenantFilters) : Prog (list Operation) :=
  read NoTx (fun d => buildFilteredQuery f d.(db_operations)).

(** The cursor carries the row's microseconds ([to_char ... US]). *)
Definition op_cursor (o : Operation) : Cursor := mkCursor o.(op_createdAt) o.(op_id).

Definition operation_page (f : FindByTenantFilters) (t : gmap string Operation) : Page :=
  find_page op_key DESC op_cursor (matches_filters f) (default DEFAULT_LIMIT f.(fl_limit))
    f.(fl_cursor) (rows t).

Definition operations_findPageForTenant (f : FindByTenantFilters) : Prog Page :=
  read NoTx (fun d => operation_page f d.(db_operations)).

Definition operations_findFailedBatchItemsForTenant (batchId tenantId : string)
    : Prog (list Operation) :=
  operations_findByTenantWithFilters
    (mkFilters tenantId (Some FAILED) None (Some (Some batchId)) (Some 100%nat) None).

(** [md5(string_agg(id || ':' || state, ',' ORDER BY id))]: the digest is left
    out, so the fingerprint is the aggregated text. *)
Definition child_fingerprint (o : Operation) : string :=
  o.(op_id) +:+ ":" +:+ operation_state_str o.(op_state).

Definition operations_findBatchStateFingerprintForTenant (batchId tenantId : string)
    : Prog (list string) :=
  read NoTx (fun d =>
    child_fingerprint <$>
      order_by (fun o => (0, o.(op_id))) ASC
        (select (is_child batchId tenantId) d.(db_operations))).

(** ** Purge

    [DELETE FROM operation WHERE id IN (SELECT id ... WHERE expires_at < now()
    ORDER BY expires_at LIMIT n)].  Deleting a batch parent deletes its
    children (fk_operation_batch, CASCADE); a credential that refers to a
    deleted row makes the statement fail (fk_credential_operation, RESTRICT);
    an exchange's [issue_operation_id] is set to null. *)

Definition expired_batch (limit : Z) (now : Z) (t : gmap string Operation) : list Operation :=
  take (Z.to_nat (Z.max 1 limit))
    (order_by (fun o => (o.(op_expiresAt), o.(op_id))) ASC
      (select (fun o => o.(op_expiresAt) <? now) t)).

(** Rows reached from [ids] through the cascade, [fuel] levels deep. *)
Fixpoint cascade (fuel : nat) (ids : list string) (t : gmap string Operation) : list string :=
  match fuel with
  | O => ids
  | S fuel' =>
      let children := op_id <$> select (fun o =>
        match o.(op_batchId) with Some b => mem_str b ids | None => false end) t in
      ids ++ (match children with [] => [] | _ => cascade fuel' children t end)
  end.

Definition delete_operations (ids : list string) (d : DB) : DB :=
  set_operations (foldr delete d.(db_operations) ids)
    (set_exchanges
       ((fun x => match x.(ex_issueOperationId) with
                  | Some o => if mem_str o ids then ex_set_submission x.(ex_issueSubmission) None x
                              else x
                  | None => x
                  end) <$> d.(db_exchanges)) d).

Definition referenced_by_credential (ids : list string) (d : DB) : bool :=
  existsb (fun c => mem_str c.(cr_operationId) ids) (rows d.(db_credentials)).

(** Rows purged per tenant ([RETURNING tenant_id] does not see cascaded rows). *)
Definition count_by_tenant (l : list Operation) : list (string * nat) :=
  (fun t => (t, length (filter (fun o => o.(op_tenantId) = t) l))) <$>
    remove_dups (op_tenantId <$> l).

Definition operations_purgeExpiredBatch (limit : Z) : Prog (list (string * nat)) :=
  now ← now_us;
  batch ← read NoTx (fun d => expired_batch limit now d.(db_operations));
  ids ← read NoTx (fun d => cascade (size d.(db_operations)) (op_id <$> batch) d.(db_operations));
  blocked ← read NoTx (fun d => referenced_by_credential ids d);
  if blocked : bool then throw (QueryFailed "23503" "fk_credential_operation")
  else _ ← modify NoTx (delete_operations ids); mret (count_by_tenant batch).

Record OperationStats := mkStats {
  st_countsByState : OperationState -> nat;
  st_totalCount : nat;
  st_oldestPendingCreatedAt : option Z
}.

Definition operations_getStats : Prog OperationStats :=
  read NoTx (fun d =>
    let count s := count_rows (fun o => bool_decide (o.(op_state) = s)) d.(db_operations) in
    mkStats count (count PENDING + count PROCESSING + count COMPLETED + count FAILED)%nat
      (op_createdAt <$> head (order_by op_key ASC
        (select (fun o => bool_decide (o.(op_state) = PENDING)) d.(db_operations))))).

(** * OperationService

    Models operation/operation.service.ts: creation, tenant-scoped reads with
    the first-view side effect, the summary a batch parent is served with, and
    the two state-transition methods every other component goes through.  The
    long-poll loops are in OperationPolling. *)

Local Open Scope Z_scope.

(** TenantService.findById *)
Definition tenants_findById (id : string) : Prog Tenant :=
  row ← read NoTx (fun d => find_tenant id d.(db_tenants));
  match row with
  | Some t => mret t
  | None => throw (NotFoundException "Tenant not found")
  end.

(** [this.computeExpiresAt(state, operation.createdAt, viewedAt, config)] on
    column values. *)
Definition computeExpiresAt (state : option OperationState) (createdAt : Z)
    (viewedAt : option Z) (tenantConfig : option json) : option Z :=
  computeOperationExpiresAt state (date_of createdAt) (date_of <$> viewedAt) tenantConfig.

Record CreateOperationInput := mkCreateOp {
  co_tenantId : string;
  co_type : string;
  co_request : json;
  co_batchId : option string;
  co_externalId : option string;
  co_exchangeId : option string
}.

Definition new_operation (i : CreateOperationInput) (expiresAt : Z) (id : string) (now : Z)
    : Operation :=
  mkOperation id i.(co_tenantId) i.(co_batchId) i.(co_type) PENDING i.(co_request) None
    i.(co_externalId) i.(co_exchangeId) None expiresAt now now.

Definition createOperation (input : CreateOperationInput) (m : Mgr) : Prog Operation :=
  now ← now_ms;
  tenant ← tenants_findById input.(co_tenantId);
  x ← date_param (computeOperationExpiresAt (Some PENDING) now None tenant.(tn_config));
  operations_insert m (new_operation input x).

Definition isBatchParent (o : Operation) : bool :=
  negb (truthy_str o.(op_batchId)) && isBatchOperationType o.(op_type).

Definition failureResult (o : Operation) : list (string * json) :=
  [("code", JStr (default "OPERATION_FAILED" (as_string (get_prop "code" o.(op_result)))));
   ("message", JStr (default "Operation failed" (as_string (get_prop "message" o.(op_result)))))].

(** [applyViewed] *)
Definition applyViewed (o : Operation) : Prog Operation :=
  tenant ← tenants_findById o.(op_tenantId);
  viewedAt ← now_ms;
  let expiresAt :=
    computeOperationExpiresAt (Some o.(op_state)) (date_of o.(op_createdAt)) (Some viewedAt)
      tenant.(tn_config) in
  stored ← operations_markFirstView o.(op_id) viewedAt expiresAt;
  match stored with
  | None =>
      current ← operations_findById o.(op_id) NoTx;
      match current with
      | Some c => mret c
      | None => throw (NotFoundException "Operation not found")
      end
  | Some (v, x) => mret (op_set_view (Some v) x o)
  end.

(** Child counts as they appear in a result: numbers. *)
Record ResultCounts := mkResultCounts {
  rc_pending : jsnum; rc_processing : jsnum; rc_completed : jsnum; rc_failed : jsnum
}.

Definition result_counts (c : BatchStateCounts) : ResultCounts :=
  mkResultCounts (num_of_Z (Z.of_nat c.(bc_pending))) (num_of_Z (Z.of_nat c.(bc_processing)))
    (num_of_Z (Z.of_nat c.(bc_completed))) (num_of_Z (Z.of_nat c.(bc_failed))).

(** The counts a settled parent stored in its result, when it has them. *)
Definition settledCounts (o : Operation) : option ResultCounts :=
  if isTerminalOperationState o.(op_state) then
    match get_prop "completed" o.(op_result), get_prop "failed" o.(op_result) with
    | Some (JNum c), Some (JNum f) => Some (mkResultCounts (num_of_Z 0) (num_of_Z 0) c f)
    | _, _ => None
    end
  else None.

Definition counts_total (c : ResultCounts) : jsnum :=
  js_add (js_add (js_add (js_add (num_of_Z 0) c.(rc_pending)) c.(rc_processing))
            c.(rc_completed)) c.(rc_failed).

Definition counts_entries (c : ResultCounts) : list (string * json) :=
  [("pending", JNum c.(rc_pending)); ("processing", JNum c.(rc_processing));
   ("completed", JNum c.(rc_completed)); ("failed", JNum c.(rc_failed))].

Definition serves_batch_summary (o : Operation) : bool :=
  isBatchParent o &&
  match o.(op_state) with
  | PROCESSING | COMPLETED => true
  | FAILED => bool_decide (is_Some (settledCounts o))
  | PENDING => false
  end.

(** The summary a batch parent is served with. *)
Definition batchSummary (o : Operation) (counts : ResultCounts) : Prog Operation :=
  let total := counts_total counts in
  if decide (o.(op_state) = PROCESSING) then
    mret (op_set_result (Some (JObj (("total", JNum total) :: counts_entries counts))) o)
  else
    failures ← operations_findFailedBatchItemsForTenant o.(op_id) o.(op_tenantId);
    mret (op_set_result (Some (JObj
      [("total", JNum total);
       ("completed", JNum counts.(rc_completed));
       ("failed", JNum counts.(rc_failed));
       ("errors", JArr ((fun child => JObj (("id", JStr child.(op_id)) :: failureResult child))
                          <$> take 100 failures))])) o).

(** The second half of [prepareForRead]: what is served as the result. *)
Definition serveResult (o : Operation) : Prog Operation :=
  if serves_batch_summary o then
    counts ← match settledCounts o with
             | Some c => mret c
             | None =>
                 c ← operations_countByBatchGroupedByState o.(op_id) o.(op_tenantId) NoTx;
                 mret (result_counts c)
             end;
    batchSummary o counts
  else if String.eqb o.(op_type) CREDENTIAL_DEFINITION_REGISTER then mret o
  else if negb (isTerminalOperationState o.(op_state)) then mret (op_set_result None o)
  else if decide (o.(op_state) = FAILED) then
    mret (op_set_result (Some (JObj (failureResult o))) o)
  else mret o.

Definition prepareForRead (operation : Operation) : Prog Operation :=
  o ← (if isTerminalOperationState operation.(op_state) &&
          bool_decide (operation.(op_viewedAt) = None)
       then applyViewed operation else mret operation);
  serveResult o.

Definition getForTenant (tenantId id : string) : Prog Operation :=
  row ← operations_findByIdForTenant id tenantId NoTx;
  match row with
  | Some o => prepareForRead o
  | None => throw (NotFoundException "Operation not found")
  end.

Definition listForTenant (f : FindByTenantFilters) : Prog Page :=
  page ← operations_findPageForTenant f;
  data ← map_prog prepareForRead page.(pg_items);
  mret (mkPage data page.(pg_nextCursor) page.(pg_hasMore)).

(** The audited read of the original request. *)
Definition getRequestForTenant (tenantId id : string) : Prog json :=
  o ← getForTenant tenantId id;
  _ ← audit_write NoTx (tenantId, "read", "operation_request", o.(op_id));
  mret o.(op_request).

Definition listItemsForTenant (tenantId id : string) (state : option OperationState)
    (limit : option nat) (cursor : option Cursor) : Prog Page :=
  parent ← operations_findByIdForTenant id tenantId NoTx;
  match parent with
  | Some p =>
      if isBatchParent p then
        listForTenant (mkFilters tenantId state None (Some (Some id)) limit cursor)
      else throw (NotFoundException "Batch operation not found")
  | None => throw (NotFoundException "Batch operation not found")
  end.

Definition markViewed (id : string) : Prog Operation :=
  row ← operations_findById id NoTx;
  match row with
  | None => throw (NotFoundException "Operation not found")
  | Some o => if decide (is_Some o.(op_viewedAt)) then mret o else applyViewed o
  end.

(** Only terminal outcomes are counted; an unknown type is one bucket. *)
Definition recordTerminalOutcome (type : string) (state : option OperationState) (m : Mgr)
    : Prog unit :=
  match state with
  | Some COMPLETED =>
      record_metric m (if isKnownOperationType type then type else "unclassified") "completed"
  | Some FAILED =>
      record_metric m (if isKnownOperationType type then type else "unclassified") "failed"
  | _ => mret tt
  end.

(** Unguarded: the row is read on its own connection unless both a manager and
    a tenant are given. *)
Definition transitionState (id : string) (state : OperationState) (result : option (option json))
    (m : Mgr) (tenantId : option string) : Prog Operation :=
  row ← match m with
        | Tx => if truthy_str tenantId then operations_findByIdForTenant id (default "" tenantId) Tx
                else operations_findById id NoTx
        | NoTx => operations_findById id NoTx
        end;
  match row with
  | None => throw (NotFoundException "Operation not found")
  | Some o =>
      tenant ← tenants_findById o.(op_tenantId);
      let o := op_set_state state o in
      let o := match result with Some r => op_set_result r o | None => o end in
      x ← date_param (computeExpiresAt (Some state) o.(op_createdAt) o.(op_viewedAt)
                        tenant.(tn_config));
      saved ← operations_save m (op_set_expiresAt x o);
      _ ← recordTerminalOutcome saved.(op_type) (Some state) m;
      mret saved
  end.

Definition transitionStateIfForward (id : string) (state : option OperationState)
    (fromStates : list OperationState) (result : option (option json)) (m : Mgr)
    (externalId : option (option string)) : Prog (option Operation) :=
  row ← operations_findById id m;
  match row with
  | None => throw (NotFoundException "Operation not found")
  | Some o =>
      tenant ← tenants_findById o.(op_tenantId);
      let expiresAt := computeExpiresAt state o.(op_createdAt) o.(op_viewedAt) tenant.(tn_config) in
      won ← operations_transitionIfForward id o.(op_tenantId) fromStates
              (mkPatch state result expiresAt externalId) m;
      if won : bool then
        updated ← operations_findById id m;
        match updated with
        | None => throw (NotFoundException "Operation not found")
        | Some u =>
            _ ← recordTerminalOutcome u.(op_type) state m;
            mret (Some u)
        end
      else mret None
  end.
