(* ===== verification/OperationPolling.v ===== *)
(** * Long polling

    Models operation/operation-wait.util.ts ([Prefer: wait=n]), the wait loops of
    operation/operation.service.ts and the two endpoints of
    operation/operation.controller.ts that wait.

    A database read is instantaneous; time passes in [waitForPoll].  What
    happens meanwhile (the timer, and whatever other requests commit) is the
    parameter [elapse]; all that is assumed of it is that a timer does not fire
    early, and where the time of the answer is bounded, how late it may fire.  The
    abort signal of a disconnected client is the instant at which it fires.  The
    loops take fuel and return [None] when it runs out; 30 polls are always
    enough. *)

From Stdlib Require Import Ascii ZArith Lia.
From stdpp Require Import base decidable strings sets gmap list list_relations.
From S2P Require Import Prelude Js Entities StateMapping OperationTtl JsText Db Pagination.
From S2P Require Import OperationService.

Local Open Scope Z_scope.

(** ** The wait preference *)

(** [s.split(',')] *)
Fixpoint split_comma (s : string) : list string :=
  match s with
  | EmptyString => [""]
  | String c s' =>
      if eq_ascii c ","%char then "" :: split_comma s'
      else match split_comma s' with
           | x :: l => String c x :: l
           | [] => [String c ""]
           end
  end.

Fixpoint strip_prefix (p s : string) : option string :=
  match p, s with
  | EmptyString, _ => Some s
  | String a p', String b s' => if eq_ascii a b then strip_prefix p' s' else None
  | String _ _, EmptyString => None
  end.

(** What follows a case-insensitive [^wait]. *)
Definition after_wait (v : string) : option string :=
  match strip_prefix "wait" (js_lower v) with
  | Some r => Some r
  | None => None
  end.

(** [/^wait(?:\s*=|$)/i] *)
Definition is_wait_preference (v : string) : bool :=
  match after_wait v with
  | Some EmptyString => true
  | Some r => match trim_start r with String c _ => eq_ascii c "="%char | EmptyString => false end
  | None => false
  end.

(** [\d+$] *)
Definition all_digits (s : string) : option Z :=
  match take_digits s with
  | ([], _) => None
  | (ds, EmptyString) => Some (digits_value ds)
  | _ => None
  end.

Definition quote : ascii := ascii_of_nat 34.

(** [/^wait\s*=\s*(?:"(\d+)"|(\d+))$/i] *)
Definition wait_seconds (v : string) : option Z :=
  match after_wait v with
  | Some r =>
      match trim_start r with
      | String c r' =>
          if eq_ascii c "="%char then
            match trim_start r' with
            | String q r'' =>
                if eq_ascii q quote then
                  match take_digits r'' with
                  | ([], _) => None
                  | (ds, String q' EmptyString) =>
                      if eq_ascii q' quote then Some (digits_value ds) else None
                  | _ => None
                  end
                else all_digits (String q r'')
            | EmptyString => None
            end
          else None
      | EmptyString => None
      end
  | None => None
  end.

Definition MAX_SAFE_INTEGER : Z := 2 ^ 53 - 1.

Definition parseOperationWait (prefer : option string) : Exn + Z :=
  let preferences := js_trim <$> split_comma (default "" prefer) in
  let refused := inl (BadRequestException "Prefer wait must be a non-negative integer") in
  match filter (fun v => is_wait_preference v = true) preferences with
  | [] => inr 0
  | [v] =>
      match wait_seconds v with
      | Some seconds => if seconds <=? MAX_SAFE_INTEGER then inr (Z.min seconds 30) else refused
      | None => refused
      end
  | _ => refused
  end.

(** ** The loops *)

Section Polling.
(** The timer and the rest of the system, for [ms] milliseconds. *)
Context (elapse : Z -> Prog unit).

(** The client's abort signal: the instant (ms) at which it fires. *)
Context (signal : option Z).

Definition polling_cancelled {A} : Prog A :=
  throw (ServiceUnavailableException "Operation polling cancelled").

Definition awaitWhileConnected {A} (load : Prog A) : Prog A :=
  now ← now_ms;
  match signal with
  | Some abort => if abort <=? now then polling_cancelled else load
  | None => load
  end.

Definition waitForPoll (milliseconds : Z) : Prog unit :=
  _ ← awaitWhileConnected (elapse milliseconds);
  awaitWhileConnected (mret tt).

Definition poll_deadline (waitSeconds now : Z) : Z :=
  now + Z.min (Z.max waitSeconds 0) 30 * 1000.

Fixpoint status_loop (fuel : nat) (tenantId id : string) (deadline : Z)
    (initialState : OperationState) (operation : Operation) : Prog (option Operation) :=
  now ← now_ms;
  if negb (isTerminalOperationState operation.(op_state)) && (now <? deadline) then
    match fuel with
    | O => mret None
    | S fuel' =>
        _ ← waitForPoll (Z.min 1000 (deadline - now));
        row ← awaitWhileConnected (operations_findByIdForTenant id tenantId NoTx);
        match row with
        | None => throw (NotFoundException "Operation not found")
        | Some o =>
            if decide (o.(op_state) <> initialState) then mret (Some o)
            else status_loop fuel' tenantId id deadline initialState o
        end
    end
  else mret (Some operation).

Definition waitForStatusForTenant (fuel : nat) (tenantId id : string) (waitSeconds : Z)
    : Prog (option Operation) :=
  now ← now_ms;
  let deadline := poll_deadline waitSeconds now in
  row ← awaitWhileConnected (operations_findByIdForTenant id tenantId NoTx);
  match row with
  | None => throw (NotFoundException "Operation not found")
  | Some operation =>
      current ← status_loop fuel tenantId id deadline operation.(op_state) operation;
      match current with
      | None => mret None
      | Some o => o ← awaitWhileConnected (prepareForRead o); mret (Some o)
      end
  end.

(** The parent, or the error both batch endpoints report. *)
Definition find_batch_parent (tenantId id : string) : Prog Operation :=
  row ← awaitWhileConnected (operations_findByIdForTenant id tenantId NoTx);
  match row with
  | Some p => if isBatchParent p then mret p
              else throw (NotFoundException "Batch operation not found")
  | None => throw (NotFoundException "Batch operation not found")
  end.

Fixpoint batch_loop (fuel : nat) (tenantId id : string) (deadline : Z)
    (parentState : OperationState) (initial : list string) : Prog (option unit) :=
  now ← now_ms;
  if now <? deadline then
    match fuel with
    | O => mret None
    | S fuel' =>
        _ ← waitForPoll (Z.min 1000 (deadline - now));
        current ← find_batch_parent tenantId id;
        if decide (current.(op_state) <> parentState) then mret (Some tt)
        else
          fingerprint ← awaitWhileConnected
                          (operations_findBatchStateFingerprintForTenant id tenantId);
          if decide (fingerprint <> initial) then mret (Some tt)
          else batch_loop fuel' tenantId id deadline parentState initial
    end
  else mret (Some tt).

Definition waitForBatchChange (fuel : nat) (tenantId id : string) (waitSeconds : Z)
    : Prog (option unit) :=
  start ← now_ms;
  let deadline := poll_deadline waitSeconds start in
  parent ← find_batch_parent tenantId id;
  now ← now_ms;
  if isTerminalOperationState parent.(op_state) || (deadline <=? now) then mret (Some tt)
  else
    initial ← awaitWhileConnected
                (operations_findBatchStateFingerprintForTenant id tenantId);
    batch_loop fuel tenantId id deadline parent.(op_state) initial.

(** The listing after the wait goes through [listItemsForTenant]; its own
    signal checks see the same instant as the last one here. *)
Definition waitForItemsForTenant (fuel : nat) (tenantId id : string)
    (state : option OperationState) (limit : option nat) (cursor : option Cursor)
    (waitSeconds : Z) : Prog (option Page) :=
  done ← waitForBatchChange fuel tenantId id waitSeconds;
  match done with
  | None => mret None
  | Some _ =>
      page ← awaitWhileConnected (listItemsForTenant tenantId id state limit cursor);
      mret (Some page)
  end.

(** OperationController.findById and findItems, once the path's identifiers have been
    parsed: only a positive wait polls. *)
Definition findById (fuel : nat) (tenantId operationId : string) (prefer : option string)
    : Prog (option Operation) :=
  waitSeconds ← of_sum (parseOperationWait prefer);
  if 0 <? waitSeconds then waitForStatusForTenant fuel tenantId operationId waitSeconds
  else operation ← getForTenant tenantId operationId; mret (Some operation).

Definition findItems (fuel : nat) (tenantId operationId : string)
    (state : option OperationState) (limit : option nat) (cursor : option Cursor)
    (prefer : option string) : Prog (option Page) :=
  waitSeconds ← of_sum (parseOperationWait prefer);
  if 0 <? waitSeconds
  then waitForItemsForTenant fuel tenantId operationId state limit cursor waitSeconds
  else page ← listItemsForTenant tenantId operationId state limit cursor; mret (Some page).

(** ** Termination *)

(** A timer does not fire early. *)
Context (elapse_waits : forall ms w w',
  0 <= ms -> elapse ms w = (w', inr tt) -> w.(clock) + column_of ms <= w'.(clock)).

Lemma date_of_mono a b ms : a + column_of ms <= b -> date_of a + ms <= date_of b.
Proof.
  unfold date_of, column_of. intros H.
  rewrite <-Z.div_add by done. apply Z.div_le_mono; lia.
Qed.

Lemma awaitWhileConnected_clock {A} (load : Prog A) w w' a :
  awaitWhileConnected load w = (w', inr a) -> load w = (w', inr a).
Proof. unfold awaitWhileConnected, mbind, prog_bind. simpl. repeat case_match; done. Qed.

Lemma waitForPoll_clock ms w w' :
  0 <= ms -> waitForPoll ms w = (w', inr tt) -> date_of w.(clock) + ms <= date_of w'.(clock).
Proof.
  intros Hms. unfold waitForPoll at 1. unfold mbind, prog_bind at 1.
  destruct (awaitWhileConnected (elapse ms) w) as [w1 [e|[]]] eqn:E; [done|].
  intros E2%awaitWhileConnected_clock. simplify_eq.
  apply awaitWhileConnected_clock in E. injection E2 as <-.
  apply date_of_mono. eauto.
Qed.

(** Enough polls for the milliseconds left. *)
Definition enough (fuel : nat) (deadline now : Z) : Prop :=
  deadline - now <= Z.of_nat fuel * 1000.

Lemma enough_step fuel deadline now now' :
  now < deadline -> enough (S fuel) deadline now ->
  now + Z.min 1000 (deadline - now) <= now' -> enough fuel deadline now'.
Proof. unfold enough. lia. Qed.

Lemma status_loop_enough fuel tenantId id deadline s0 o w :
  enough fuel deadline (date_of w.(clock)) ->
  (status_loop fuel tenantId id deadline s0 o w).2 <> inr None.
Proof.
  revert o w. induction fuel as [|fuel IH]; intros o w Hf Hr; simpl in Hr;
    unfold mbind at 1, prog_bind at 1 in Hr; simpl in Hr;
    destruct (Z.ltb_spec (date_of w.(clock)) deadline) as [Hlt|];
    rewrite ?andb_false_r, ?andb_true_r in Hr; try done;
    destruct (negb (isTerminalOperationState (op_state o))); try done.
  { unfold enough in Hf. lia. }
  match type of Hr with snd ?p = _ => destruct p as [w' r] eqn:E end; simpl in Hr; subst r.
  run_inv E. destruct a. apply waitForPoll_clock in E0; [|lia].
  run_inv E. apply awaitWhileConnected_clock in E1.
  destruct a as [o'|]; [|done]. destruct (decide _); [done|].
  apply (IH o' w1); [|by rewrite E].
  unfold operations_findByIdForTenant, read in E1. injection E1 as <- _.
  by eapply enough_step.
Qed.

Lemma batch_loop_enough fuel tenantId id deadline s0 f0 w :
  enough fuel deadline (date_of w.(clock)) ->
  (batch_loop fuel tenantId id deadline s0 f0 w).2 <> inr None.
Proof.
  revert w. induction fuel as [|fuel IH]; intros w Hf Hr; simpl in Hr;
    unfold mbind at 1, prog_bind at 1 in Hr; simpl in Hr;
    destruct (Z.ltb_spec (date_of w.(clock)) deadline) as [Hlt|]; try done.
  { unfold enough in Hf. lia. }
  match type of Hr with snd ?p = _ => destruct p as [w' r] eqn:E end; simpl in Hr; subst r.
  run_inv E. destruct a. apply waitForPoll_clock in E0; [|lia].
  run_inv E. unfold find_batch_parent in E1. run_inv E1.
  apply awaitWhileConnected_clock in E2. injection E2 as <- <-.
  repeat (case_match; simplify_eq; try done). injection E1 as <- <-.
  destruct (decide _); [done|].
  run_inv E. apply awaitWhileConnected_clock in E1. injection E1 as <- <-.
  destruct (decide _); [done|].
  apply (IH w0); [|by rewrite E]. by eapply enough_step.
Qed.

(** The row a tenant-scoped read of the committed tables finds. *)
Definition row_now (tenantId id : string) (o : Operation) (w : World) : Prop :=
  w.(committed).(db_operations) !! id = Some o /\ o.(op_tenantId) = tenantId.

Lemma findByIdForTenant_row tenantId id w w' o :
  operations_findByIdForTenant id tenantId NoTx w = (w', inr (Some o)) ->
  w' = w /\ row_now tenantId id o w.
Proof.
  unfold operations_findByIdForTenant, read, row_now. simpl. intros H. injection H as -> Ho.
  destruct (db_operations (committed w') !! id) as [r|]; [|done].
  destruct (String.eqb_spec (op_tenantId r) tenantId); naive_solver.
Qed.

Lemma status_loop_wakes fuel tenantId id deadline s0 o w w' o' :
  row_now tenantId id o w ->
  status_loop fuel tenantId id deadline s0 o w = (w', inr (Some o')) ->
  row_now tenantId id o' w' /\
  (op_terminal o'.(op_state) \/ o'.(op_state) <> s0 \/ deadline <= date_of w'.(clock)).
Proof.
  revert o w. induction fuel as [|fuel IH]; intros o w Ho Hr; simpl in Hr;
    unfold mbind at 1, prog_bind at 1 in Hr; simpl in Hr;
    destruct (isTerminalOperationState (op_state o)) eqn:Et; simpl in Hr;
    try (apply isTerminalOperationState_spec in Et; injection Hr as <- <-; by auto);
    destruct (Z.ltb_spec (date_of w.(clock)) deadline) as [Hlt|];
    try (injection Hr as <- <-; by auto); [done|].
  run_inv Hr. run_inv Hr. apply awaitWhileConnected_clock in E0.
  destruct a0 as [o1|]; [|done]. apply findByIdForTenant_row in E0 as [-> Ho1].
  destruct (decide _); [injection Hr as <- <-; by auto|]. by eapply IH.
Qed.
End Polling.

(** ** Properties *)

(** The service's polls never run out of 30 polls. *)
Lemma status_poll_ends elapse signal tenantId id waitSeconds w :
  (forall ms w w', 0 <= ms -> elapse ms w = (w', inr tt) ->
     w.(clock) + column_of ms <= w'.(clock)) ->
  (waitForStatusForTenant elapse signal 30 tenantId id waitSeconds w).2 <> inr None.
Proof.
  intros Hel Hr. unfold waitForStatusForTenant in Hr.
  match type of Hr with snd ?p = _ => destruct p as [w' r] eqn:E end; simpl in Hr; subst r.
  run_inv E. injection E0 as <- <-. run_inv E. apply awaitWhileConnected_clock in E0.
  destruct a as [o|]; [|done]. apply findByIdForTenant_row in E0 as [-> _].
  run_inv E. destruct a as [o'|]; [by run_inv E|].
  eapply (status_loop_enough elapse signal Hel); [|by rewrite E0].
  unfold enough, poll_deadline. lia.
Qed.

Lemma items_poll_ends elapse signal tenantId id state limit cursor waitSeconds w :
  (forall ms w w', 0 <= ms -> elapse ms w = (w', inr tt) ->
     w.(clock) + column_of ms <= w'.(clock)) ->
  (waitForItemsForTenant elapse signal 30 tenantId id state limit cursor waitSeconds w).2
    <> inr None.
Proof.
  intros Hel Hr. unfold waitForItemsForTenant in Hr.
  match type of Hr with snd ?p = _ => destruct p as [w' r] eqn:E end; simpl in Hr; subst r.
  run_inv E. destruct a; [by run_inv E|]. unfold waitForBatchChange in E0.
  run_inv E0. injection E1 as <- <-. run_inv E0. unfold find_batch_parent in E1.
  run_inv E1. apply awaitWhileConnected_clock in E2. injection E2 as <- <-.
  repeat (case_match; simplify_eq; try done). injection E1 as <- <-.
  run_inv E0. injection E1 as <- <-. destruct (_ || _); [done|].
  run_inv E0. apply awaitWhileConnected_clock in E1. injection E1 as <- <-.
  eapply (batch_loop_enough elapse signal Hel); [|by rewrite E0].
  unfold enough, poll_deadline. lia.
Qed.

(** A timer that fires on time in an otherwise idle system. *)
Definition idle_elapse (ms : Z) : Prog unit := fun w =>
  (set_clock (w.(clock) + column_of ms) w, inr tt).

Definition polled_db (s : OperationState) : DB :=
  set_operations
    {[ "o" := mkOperation "o" "t" None CREDENTIAL_OFFER s JNull None None None None 0 0 0 ]}
    (set_tenants {[ "t" := sample_tenant "t" None ]} empty_db).

(** A status poll answers for a reason.  When it returns an operation, the
    row it read last was still stored under the caller's tenant, and that row is
    terminal, or is no longer in the state the first read found, or the capped
    deadline has passed; the answer is that row prepared for reading. *)
Theorem status_poll_wakes elapse signal fuel tenantId id waitSeconds w w' o :
  waitForStatusForTenant elapse signal fuel tenantId id waitSeconds w = (w', inr (Some o)) ->
  exists w1 o0 o1,
    row_now tenantId id o0 w /\ row_now tenantId id o1 w1 /\
    prepareForRead o1 w1 = (w', inr o) /\
    (op_terminal o1.(op_state) \/ o1.(op_state) <> o0.(op_state) \/
     date_of w.(clock) + Z.min (Z.max waitSeconds 0) 30 * 1000 <= date_of w1.(clock)).
Proof.
  unfold waitForStatusForTenant. intros E.
  run_inv E. injection E0 as <- <-. run_inv E. apply awaitWhileConnected_clock in E0.
  destruct a as [o0|]; [|done]. apply findByIdForTenant_row in E0 as [-> Ho0].
  run_inv E. destruct a as [o1|]; [|done].
  apply status_loop_wakes in E0 as [Ho1 Hwhy]; [|done].
  run_inv E. apply awaitWhileConnected_clock in E0. injection E as <- <-.
  eexists _, o0, o1. split; [exact Ho0|]. split; [exact Ho1|]. by split.
Qed.

(** An idle system: the poll of a pending operation runs to its deadline. *)
Lemma status_poll_wakes_witness :
  exists w1 o0 o1,
    row_now "t" "o" o0 (world_of (polled_db PENDING) 0) /\ row_now "t" "o" o1 w1 /\
    prepareForRead o1 w1 =
      (set_clock 2000000 (world_of (polled_db PENDING) 0),
       inr (mkOperation "o" "t" None CREDENTIAL_OFFER PENDING JNull None None None None 0 0 0)) /\
    (op_terminal o1.(op_state) \/ o1.(op_state) <> o0.(op_state) \/
     0 + Z.min (Z.max 2 0) 30 * 1000 <= date_of w1.(clock)).
Proof.
  apply (status_poll_wakes idle_elapse None 30 "t" "o" 2).
  vm_compute. reflexivity.
Defined.

(** ** The time of the answer *)

(** The timer fires, not early and at most [late] milliseconds late. *)
Definition timer (elapse : Z -> Prog unit) (late : Z) : Prop :=
  forall ms w, 0 <= ms -> exists w', elapse ms w = (w', inr tt) /\
    w.(clock) + column_of ms <= w'.(clock) <= w.(clock) + column_of (ms + late).

(** Time does not run back, nor beyond [last]. *)
Definition upto (last : Z) (w w' : World) : Prop :=
  w.(clock) <= w'.(clock) /\ (date_of w.(clock) <= last -> date_of w'.(clock) <= last).

#[export] Instance upto_preorder last : PreOrder (upto last).
Proof. split; [intros w; split; [lia|done]|]. intros w1 w2 w3 [H1 H2] [H3 H4]. split; [lia|auto]. Qed.

Lemma upto_bind {A B} last (p : Prog A) (k : A -> Prog B) w :
  upto last w (p w).1 -> (forall w1 a, p w = (w1, inr a) -> upto last w1 (k a w1).1) ->
  upto last w ((p ≫= k) w).1.
Proof.
  unfold mbind, prog_bind. destruct (p w) as [w1 [e|a]]; simpl; intros H1 H2; [done|].
  etrans; [exact H1|]. by apply H2.
Qed.

Lemma quiet_clock {A} (p : Prog A) `{!Quiet p} w : (p w).1.(clock) = w.(clock).
Proof. by destruct (quiet w) as (_ & _ & ?). Qed.

Lemma upto_same last w w' : w'.(clock) = w.(clock) -> upto last w w'.
Proof. intros E. unfold upto. rewrite E. split; [lia|done]. Qed.

Lemma upto_quiet {A} last (p : Prog A) `{!Quiet p} w : upto last w (p w).1.
Proof. apply upto_same, quiet_clock. done. Qed.

#[export] Instance quiet_awaitWhileConnected {A} signal (p : Prog A) :
  Quiet p -> Quiet (awaitWhileConnected signal p).
Proof. intros Hp. unfold awaitWhileConnected, polling_cancelled. solve_quiet. Qed.

#[export] Instance quiet_prepareForRead o : Quiet (prepareForRead o).
Proof.
  unfold prepareForRead, applyViewed, serveResult, batchSummary, tenants_findById, operations_markFirstView,
    date_param, write_operation, operations_findById, operations_findFailedBatchItemsForTenant,
    operations_countByBatchGroupedByState. solve_quiet.
Qed.
#[export] Instance quiet_map_prog {A B} (f : A -> Prog B) l : (forall a, Quiet (f a)) -> Quiet (map_prog f l).
Proof. intros Hf. induction l; simpl; solve_quiet. Qed.
#[export] Instance quiet_getForTenant t i : Quiet (getForTenant t i).
Proof. unfold getForTenant, operations_findByIdForTenant. solve_quiet. Qed.
#[export] Instance quiet_listItemsForTenant t i s l c : Quiet (listItemsForTenant t i s l c).
Proof.
  unfold listItemsForTenant, operations_findByIdForTenant, listForTenant, operations_findPageForTenant. solve_quiet.
Qed.

Lemma date_of_late a b ms : b <= a + column_of ms -> date_of b <= date_of a + ms.
Proof.
  unfold date_of, column_of. intros H.
  rewrite <-Z.div_add by done. apply Z.div_le_mono; lia.
Qed.

Section Time.
Context (elapse : Z -> Prog unit) (late : Z) (Htimer : timer elapse late) (Hlate : 0 <= late).
Context (signal : option Z).

Lemma timer_not_early ms w w' :
  0 <= ms -> elapse ms w = (w', inr tt) -> w.(clock) + column_of ms <= w'.(clock).
Proof. intros Hms E. destruct (Htimer ms w Hms) as (w1 & E1 & H & _). rewrite E in E1. by injection E1 as <-. Qed.

(** A wait that is due by the deadline ends at most [late] after it. *)
Lemma waitForPoll_upto deadline w :
  date_of w.(clock) < deadline ->
  upto (deadline + late) w (waitForPoll elapse signal (Z.min 1000 (deadline - date_of w.(clock))) w).1.
Proof.
  intros Hdue. unfold waitForPoll. apply upto_bind; [|intros; apply upto_quiet, _].
  destruct (Htimer (Z.min 1000 (deadline - date_of (clock w))) w ltac:(lia)) as (w1 & E & H1 & H2).
  assert (upto (deadline + late) w w1) as Hup.
  { apply date_of_late in H2. split; [unfold column_of in H1; lia|lia]. }
  unfold awaitWhileConnected, polling_cancelled. apply upto_bind; [reflexivity|].
  intros w2 now [= <- <-]. destruct signal as [abort|]; [destruct (abort <=? _); [reflexivity|]|]; by rewrite E.
Qed.

Lemma status_loop_upto fuel tenantId id deadline s0 o w :
  upto (deadline + late) w (status_loop elapse signal fuel tenantId id deadline s0 o w).1.
Proof.
  revert o w. induction fuel as [|fuel IH]; intros o w; simpl; (apply upto_bind; [reflexivity|]);
    intros w1 now [= <- <-]; destruct (negb _); simpl; try reflexivity;
    destruct (Z.ltb_spec (date_of w.(clock)) deadline); simpl; try reflexivity.
  apply upto_bind; [by apply waitForPoll_upto|]. intros w1 _ _.
  apply upto_bind; [unfold operations_findByIdForTenant; apply upto_quiet, _|]. intros w2 [o'|] _; [|reflexivity].
  destruct (decide _); [reflexivity|apply IH].
Qed.

Lemma batch_loop_upto fuel tenantId id deadline s0 f0 w :
  upto (deadline + late) w (batch_loop elapse signal fuel tenantId id deadline s0 f0 w).1.
Proof.
  revert w. induction fuel as [|fuel IH]; intros w; simpl; (apply upto_bind; [reflexivity|]);
    intros w1 now [= <- <-]; destruct (Z.ltb_spec (date_of w.(clock)) deadline); simpl; try reflexivity.
  apply upto_bind; [by apply waitForPoll_upto|]. intros w1 _ _.
  apply upto_bind; [unfold find_batch_parent, operations_findByIdForTenant; apply upto_quiet; solve_quiet|].
  intros w2 p _. destruct (decide _); [reflexivity|].
  apply upto_bind; [unfold operations_findBatchStateFingerprintForTenant; apply upto_quiet; solve_quiet|].
  intros w3 f _. destruct (decide _); [reflexivity|apply IH].
Qed.

Lemma status_poll_upto fuel tenantId id s w :
  upto (poll_deadline s (date_of w.(clock)) + late) w
    (waitForStatusForTenant elapse signal fuel tenantId id s w).1.
Proof.
  unfold waitForStatusForTenant. apply upto_bind; [reflexivity|]. intros w1 now [= <- <-].
  apply upto_bind; [unfold operations_findByIdForTenant; apply upto_quiet, _|]. intros w2 [o|] _; [|reflexivity].
  apply upto_bind; [apply status_loop_upto|]. intros w3 [o'|] _; [|reflexivity]. apply upto_quiet, _.
Qed.

Lemma items_poll_upto fuel tenantId id state limit cursor s w :
  upto (poll_deadline s (date_of w.(clock)) + late) w
    (waitForItemsForTenant elapse signal fuel tenantId id state limit cursor s w).1.
Proof.
  unfold waitForItemsForTenant. apply upto_bind.
  - unfold waitForBatchChange. apply upto_bind; [reflexivity|]. intros w1 now [= <- <-].
    apply upto_bind; [unfold find_batch_parent, operations_findByIdForTenant; apply upto_quiet; solve_quiet|].
    intros w2 p _. apply upto_bind; [reflexivity|]. intros w3 now [= <- <-]. destruct (_ || _); [reflexivity|].
    apply upto_bind; [unfold operations_findBatchStateFingerprintForTenant; apply upto_quiet; solve_quiet|].
    intros w4 f _. apply batch_loop_upto.
  - intros w1 [u|] _; [|reflexivity]. apply upto_quiet; solve_quiet.
Qed.
End Time.

(** *** The header *)

Fixpoint has_char (P : ascii -> bool) (s : string) : bool :=
  match s with EmptyString => false | String c s' => P c || has_char P s' end.

Lemma split_comma_one s : has_char (eq_ascii ","%char) s = false -> split_comma s = [s].
Proof.
  induction s as [|c s IH]; [done|]. cbn [has_char split_comma]. intros [Hc H]%orb_false_elim.
  unfold eq_ascii in *. rewrite Ascii.eqb_sym in Hc. by rewrite Hc, IH.
Qed.

Lemma trim_end_id s : has_char is_js_space s = false -> trim_end s = s.
Proof.
  induction s as [|c s IH]; [done|]. simpl. intros [Hc H]%orb_false_elim.
  rewrite IH, Hc by done. by destruct s.
Qed.

(** The digits of a number are neither separators nor letters. *)
Lemma digit_string_plain P ds :
  digits ds -> forallb (fun n => negb (P (ascii_of_N (Z.to_N (Z.of_nat n + 48))))) (seq 0 10) = true ->
  has_char P (digit_string ds) = false.
Proof.
  intros Hds HP. rewrite forallb_forall in HP. induction Hds as [|d ds Hd _ IH]; [done|]. simpl. rewrite IH, orb_false_r.
  specialize (HP (Z.to_nat d) ltac:(apply in_seq; lia)). rewrite Z2Nat.id in HP by lia. by apply negb_true_iff in HP.
Qed.

Lemma digit_string_lower ds : digits ds -> js_lower (digit_string ds) = digit_string ds.
Proof.
  assert (forallb (fun n => Ascii.eqb (lower_ascii (ascii_of_N (Z.to_N (Z.of_nat n + 48))))
    (ascii_of_N (Z.to_N (Z.of_nat n + 48)))) (seq 0 10) = true) as HP by (vm_compute; reflexivity).
  rewrite forallb_forall in HP. intros Hds. induction Hds as [|d ds Hd _ IH]; [done|].
  unfold js_lower in *. simpl. rewrite IH. f_equal.
  specialize (HP (Z.to_nat d) ltac:(apply in_seq; lia)). rewrite Z2Nat.id in HP by lia. by apply Ascii.eqb_eq in HP.
Qed.

Lemma after_wait_number ds : digits ds -> after_wait ("wait=" +:+ digit_string ds) = Some (String "=" (digit_string ds)).
Proof.
  intros Hds. unfold after_wait, js_lower.
  change (map_string lower_ascii ("wait=" +:+ digit_string ds)) with ("wait=" +:+ js_lower (digit_string ds)).
  by rewrite digit_string_lower.
Qed.

Lemma all_digits_number ds : digits ds -> ds <> [] -> all_digits (digit_string ds) = Some (digits_value ds).
Proof.
  intros Hds Hne. unfold all_digits. rewrite <-(string_app_nil (digit_string ds)), take_digits_string by done.
  by destruct ds.
Qed.

Lemma wait_seconds_number ds :
  digits ds -> ds <> [] -> wait_seconds ("wait=" +:+ digit_string ds) = Some (digits_value ds).
Proof.
  intros Hds Hne. unfold wait_seconds. rewrite after_wait_number by done. cbn [trim_start].
  change (is_js_space "="%char) with false. cbn iota. change (eq_ascii "="%char "="%char) with true. cbn iota.
  pose proof (digit_string_plain is_js_space ds Hds eq_refl) as Hs.
  pose proof (digit_string_plain (fun c => eq_ascii c quote) ds Hds eq_refl) as Hq.
  pose proof (all_digits_number ds Hds Hne) as Hv. destruct ds as [|d ds]; [done|].
  cbn [digit_string has_char] in Hs, Hq. cbn [digit_string trim_start].
  apply orb_false_elim in Hs as [-> _]. apply orb_false_elim in Hq as [-> _]. exact Hv.
Qed.

(** [wait=n] asks for [n] seconds, and gets no more than 30. *)
Lemma parseOperationWait_number ds :
  digits ds -> ds <> [] ->
  parseOperationWait (Some ("wait=" +:+ digit_string ds)) =
    if digits_value ds <=? MAX_SAFE_INTEGER then inr (Z.min (digits_value ds) 30)
    else inl (BadRequestException "Prefer wait must be a non-negative integer").
Proof.
  intros Hds Hne. unfold parseOperationWait.
  change (default "" (Some ("wait=" +:+ digit_string ds))) with ("wait=" +:+ digit_string ds).
  rewrite split_comma_one.
  2:{ change (has_char (eq_ascii ","%char) (digit_string ds) = false). by apply digit_string_plain. }
  assert (js_trim ("wait=" +:+ digit_string ds) = "wait=" +:+ digit_string ds) as Htrim.
  { unfold js_trim. change (trim_start ("wait=" +:+ digit_string ds)) with ("wait=" +:+ digit_string ds).
    apply trim_end_id. change (has_char is_js_space (digit_string ds) = false). by apply digit_string_plain. }
  change (js_trim <$> ["wait=" +:+ digit_string ds]) with [js_trim ("wait=" +:+ digit_string ds)].
  rewrite Htrim, filter_cons_True.
  - cbn [filter list_filter]. by rewrite wait_seconds_number.
  - unfold is_wait_preference. by rewrite after_wait_number.
Qed.

Lemma take_digits_digits s : digits (take_digits s).1.
Proof.
  induction s as [|c s IH]; simpl; [constructor|]. destruct (digit_value c) as [d|] eqn:Ed; [|constructor].
  destruct (take_digits s) as [ds r]. constructor; [|done]. unfold digit_value in Ed. cbv zeta in Ed.
  destruct (_ && _) eqn:Er; [|done]. injection Ed as <-. apply andb_true_iff in Er as [H1%N.leb_le H2%N.leb_le]. lia.
Qed.

Lemma digits_of s ds r : take_digits s = (ds, r) -> 0 <= digits_value ds.
Proof. intros E. apply digits_value_nonneg. pose proof (take_digits_digits s) as H. by rewrite E in H. Qed.

Lemma wait_seconds_nonneg v n : wait_seconds v = Some n -> 0 <= n.
Proof.
  unfold wait_seconds, all_digits. intros E.
  repeat (case_match; simplify_eq; try done); by eapply digits_of.
Qed.

Lemma parseOperationWait_range prefer s : parseOperationWait prefer = inr s -> 0 <= s <= 30.
Proof.
  unfold parseOperationWait. destruct (filter _ _) as [|v [|]]; [intros [= <-]; lia| |done].
  destruct (wait_seconds v) as [n|] eqn:E; [|done]. apply wait_seconds_nonneg in E.
  destruct (n <=? _); [|done]. intros [= <-]. lia.
Qed.

(** ** Properties *)

Lemma mret_bind {A B} (a : A) (k : A -> Prog B) w : (mret (M:=Prog) a ≫= k) w = k a w.
Proof. done. Qed.

(** What an endpoint promises about an answer it gave at [w'] to a request of [w]: it is
    an answer or an error, and it is there within [seconds], but for the lateness of
    one timer; at once where no wait was asked for. *)
Definition in_time {A} (late seconds : Z) (w : World) (run : World * (Exn + option A)) : Prop :=
  run.2 <> inr None /\ w.(clock) <= run.1.(clock) /\
  (if seconds =? 0 then run.1.(clock) = w.(clock)
   else date_of run.1.(clock) <= date_of w.(clock) + seconds * 1000 + late).

Lemma in_time_poll {A} elapse late (seconds : Z) (w : World) (run : World * (Exn + option A)) :
  timer elapse late -> 0 <= late -> 0 < seconds <= 30 -> run.2 <> inr None ->
  upto (poll_deadline seconds (date_of w.(clock)) + late) w run.1 -> in_time late seconds w run.
Proof.
  intros _ Hl Hs Hr [Hc Hu]. unfold in_time, poll_deadline in *. rewrite (proj2 (Z.eqb_neq seconds 0)) by lia.
  split; [done|]. split; [done|]. specialize (Hu ltac:(lia)). lia.
Qed.

Lemma in_time_now {A} late (w : World) (p : Prog A) :
  Quiet p -> in_time late 0 w ((o ← p; mret (Some o)) w).
Proof.
  intros Hq. unfold in_time. cbn [Z.eqb].
  assert (((p ≫= fun x => mret (Some x)) w).1.(clock) = w.(clock)) as Hc by (apply quiet_clock, _).
  rewrite Hc. split_and!; [|lia|done]. unfold mbind, prog_bind. by destruct (p w) as [w1 [e|a]].
Qed.

(** C36: a long poll answers in time, and early only for a reason.  The header
    [Prefer: wait=n] asks for [n] seconds and gets at most 30; a header that is
    refused refuses the request before anything is read.  Otherwise, whatever other
    requests commit during the waits and whether or not the client disconnects, both
    endpoints end, within 30 polls and no later than the seconds asked for plus what
    one timer is late; without a wait they answer at once.  And when the status
    endpoint answers with an operation, that is the row it read last, prepared for
    reading, and it was terminal, or no longer in the state the request found, or the
    seconds asked for had passed. *)
Theorem long_poll_terminates elapse late signal tenantId id prefer state limit cursor w :
  timer elapse late -> 0 <= late ->
  (forall ds, digits ds -> ds <> [] -> digits_value ds <= MAX_SAFE_INTEGER ->
     parseOperationWait (Some ("wait=" +:+ digit_string ds)) = inr (Z.min (digits_value ds) 30)) /\
  let status := findById elapse signal 30 tenantId id prefer w in
  let items := findItems elapse signal 30 tenantId id state limit cursor prefer w in
  match parseOperationWait prefer with
  | inl e => status = (w, inl e) /\ items = (w, inl e)
  | inr seconds =>
      0 <= seconds <= 30 /\ in_time late seconds w status /\ in_time late seconds w items /\
      forall w' o, status = (w', inr (Some o)) -> exists w1 o0 o1,
        row_now tenantId id o0 w /\ row_now tenantId id o1 w1 /\ prepareForRead o1 w1 = (w', inr o) /\
        (op_terminal o1.(op_state) \/ o1.(op_state) <> o0.(op_state) \/
         date_of w.(clock) + seconds * 1000 <= date_of w1.(clock))
  end.
Proof.
  intros Htimer Hlate. split.
  { intros ds Hds Hne Hmax. rewrite parseOperationWait_number by done. by rewrite (proj2 (Z.leb_le _ _) Hmax). }
  pose proof (timer_not_early elapse late Htimer) as Hel. cbv zeta. unfold findById, findItems.
  destruct (parseOperationWait prefer) as [e|s] eqn:Ep; [done|]. apply parseOperationWait_range in Ep.
  change (of_sum (inr s)) with (mret (M:=Prog) s). rewrite !mret_bind.
  split; [done|]. destruct (Z.ltb_spec 0 s) as [Hs|Hs].
  - split; [|split].
    + eapply in_time_poll; [done..|lia|by apply status_poll_ends|by apply status_poll_upto].
    + eapply in_time_poll; [done..|lia|by apply items_poll_ends|by apply items_poll_upto].
    + intros w' o (w1 & o0 & o1 & H0 & H1 & Hp & Hwhy)%status_poll_wakes. exists w1, o0, o1. split_and!; [done..|].
      replace (Z.min (Z.max s 0) 30) with s in Hwhy by lia. done.
  - assert (s = 0) as -> by lia. split; [apply in_time_now, _|split; [apply in_time_now, _|]].
    intros w' o E. run_inv E. injection E as <- <-. unfold getForTenant in E0. run_inv E0.
    destruct a0 as [o0|]; [|done]. apply findByIdForTenant_row in E as [-> Ho]. exists w, o0, o0.
    split_and!; [done..|]. right. right. lia.
Qed.

(** A pending operation, a wait of 45 seconds, a client that leaves after 70. *)
Lemma long_poll_terminates_witness :
  parseOperationWait (Some "respond-async, wait=45") = inr 30 /\
  in_time 5 30 (world_of (polled_db PENDING) 0)
    (findById idle_elapse (Some 70000) 30 "t" "o" (Some "respond-async, wait=45") (world_of (polled_db PENDING) 0)) /\
  (findById idle_elapse (Some 70000) 30 "t" "o" (Some "respond-async, wait=45")
     (world_of (polled_db PENDING) 0)).1.(clock) = 30000000.
Proof.
  assert (parseOperationWait (Some "respond-async, wait=45") = inr 30) as E by (vm_compute; reflexivity).
  split; [exact E|]. split; [|vm_compute; reflexivity].
  pose proof (long_poll_terminates idle_elapse 5 (Some 70000) "t" "o" (Some "respond-async, wait=45") None None None
    (world_of (polled_db PENDING) 0)) as H.
  rewrite E in H. apply H; [|lia]. intros ms w Hms. eexists. split; [reflexivity|].
  unfold column_of. simpl. unfold column_of. lia.
Defined.
