(* ===== verification/OperationPurge.v ===== *)
(** * Purging expired operations

    Models operation/operation-purge.service.ts: the hourly sweep that deletes
    expired operations in bounded batches.  The do-while loop is structural on
    the batches left before the per-run cap. *)

From Stdlib Require Import Ascii ZArith Lia.
From stdpp Require Import base decidable strings sets gmap list list_relations.
From S2P Require Import Prelude Js Entities StateMapping OperationTtl Db Pagination.
From S2P Require Import OperationService.

Local Open Scope Z_scope.

Definition BATCH_SIZE : Z := 500.
Definition MAX_BATCHES_PER_RUN : nat := 50.

(** [totalsByTenant.set(t, (totalsByTenant.get(t) ?? 0) + n)] *)
Definition add_total (totals : list (string * nat)) (entry : string * nat) : list (string * nat) :=
  assoc_set entry.1 (default 0%nat (assoc entry.1 totals) + entry.2)%nat totals.

Definition batch_count (batch : list (string * nat)) : nat :=
  foldl (fun sum entry => (sum + entry.2)%nat) 0%nat batch.

(** The loop with [left] more batches allowed after this one; returns the totals
    the run logs and the number of batches. *)
Fixpoint purge_loop (left : nat) (totals : list (string * nat)) (batches : nat)
    : Prog (list (string * nat) * nat) :=
  batch ← operations_purgeExpiredBatch BATCH_SIZE;
  let batchCount := batch_count batch in
  let totals := foldl add_total totals batch in
  match left with
  | S left' => if (0 <? batchCount)%nat then purge_loop left' totals (S batches)
               else mret (totals, S batches)
  | O => mret (totals, S batches)
  end.

Definition purgeExpiredOperations : Prog (list (string * nat) * nat) :=
  purge_loop (MAX_BATCHES_PER_RUN - 1) [] 0.

(** ** What one batch removes *)

Definition op_keyed (t : gmap string Operation) : Prop :=
  forall id o, t !! id = Some o -> o.(op_id) = id.

(** Expired, or below an expired batch parent. *)
Inductive purgeable (now : Z) (t : gmap string Operation) : string -> Prop :=
| purgeable_expired id o :
    t !! id = Some o -> o.(op_expiresAt) < now -> purgeable now t id
| purgeable_child id o b :
    t !! id = Some o -> o.(op_batchId) = Some b -> purgeable now t b -> purgeable now t id.

Lemma elem_of_expired_batch limit now t o :
  o ∈ expired_batch limit now t ->
  o.(op_expiresAt) < now /\ exists id, t !! id = Some o.
Proof.
  unfold expired_batch. intros Hin.
  assert (o ∈ order_by (fun o => (op_expiresAt o, op_id o)) ASC
                (select (fun o => op_expiresAt o <? now) t)) as H.
  { rewrite <-(take_drop (Z.to_nat (Z.max 1 limit))). by apply elem_of_app; left. }
  rewrite order_by_perm in H. apply elem_of_select in H as [Hlt%Z.ltb_lt Hid]. by split.
Qed.

Lemma cascade_purgeable now t fuel ids id :
  op_keyed t -> (forall i, i ∈ ids -> purgeable now t i) ->
  id ∈ cascade fuel ids t -> purgeable now t id.
Proof.
  intros Hk. revert ids id. induction fuel as [|fuel IH]; intros ids id Hids; simpl; [auto|].
  set (children := op_id <$> _). intros [Hin|Hin]%elem_of_app; [auto|].
  assert (forall i, i ∈ children -> purgeable now t i) as Hch.
  { intros i (o & -> & Ho)%list_elem_of_fmap. apply elem_of_select in Ho as [Hb [k Hko]].
    destruct (op_batchId o) as [b|] eqn:Eb; [|done]. apply mem_str_spec in Hb.
    assert (op_id o = k) as -> by (by apply Hk). eapply purgeable_child; eauto. }
  destruct children as [|c cs]; [by apply elem_of_nil in Hin|]. by eapply IH.
Qed.

Lemma lookup_foldr_delete {A} (t : gmap string A) ids id :
  foldr delete t ids !! id = if decide (id ∈ ids) then None else t !! id.
Proof.
  induction ids as [|i ids IH]; cbn [foldr].
  - by rewrite decide_False by set_solver.
  - destruct (decide (i = id)) as [->|Hne].
    + by rewrite lookup_delete_eq, decide_True by set_solver.
    + rewrite lookup_delete_ne, IH by done.
      destruct (decide (id ∈ ids)); [rewrite decide_True|rewrite decide_False]; set_solver.
Qed.

(** The two ways one batch can go. *)
Lemma purgeExpiredBatch_run limit w :
  exists ids,
    let d := w.(committed) in
    let batch := expired_batch limit w.(clock) d.(db_operations) in
    ids = cascade (size d.(db_operations)) (op_id <$> batch) d.(db_operations) /\
    operations_purgeExpiredBatch limit w =
      (if referenced_by_credential ids d then (w, inl (QueryFailed "23503" "fk_credential_operation"))
       else (set_dbs (delete_operations ids d) w.(working) w, inr (count_by_tenant batch))).
Proof.
  eexists. cbv zeta. split; [reflexivity|].
  unfold operations_purgeExpiredBatch, mbind, prog_bind. simpl. by case_match.
Qed.

Lemma batch_in_cascade t fuel ids id : id ∈ ids -> id ∈ cascade fuel ids t.
Proof. destruct fuel; simpl; [done|]. intros. apply elem_of_app. by left. Qed.

(** ** Draining *)

Lemma batch_count_foldl batch n :
  foldl (fun sum (entry : string * nat) => (sum + entry.2)%nat) n batch =
  (n + batch_count batch)%nat.
Proof.
  unfold batch_count. revert n. induction batch as [|x l IH]; intros n; simpl; [lia|].
  rewrite (IH (n + x.2)%nat), (IH x.2). lia.
Qed.

(** Counts by a column of rows there are. *)
Lemma batch_count_grouped {A} (f : A -> string) (l : list A) :
  l <> [] -> (0 < batch_count ((fun t => (t, length (filter (fun o => f o = t) l))) <$> remove_dups (f <$> l)))%nat.
Proof.
  intros Hne. destruct (remove_dups (f <$> l)) as [|t ts] eqn:E.
  - destruct l as [|o l]; [done|]. exfalso.
    assert (f o ∈ remove_dups (f <$> o :: l)) as Hin by (apply elem_of_remove_dups; left).
    rewrite E in Hin. by apply elem_of_nil in Hin.
  - assert (t ∈ remove_dups (f <$> l)) as Hin by (rewrite E; left).
    apply elem_of_remove_dups, list_elem_of_fmap in Hin as (o & -> & Ho).
    rewrite fmap_cons. unfold batch_count. simpl. rewrite batch_count_foldl.
    assert (o ∈ filter (fun x => f x = f o) l) as Hf by (by apply list_elem_of_filter).
    destruct (filter _ l); [by apply elem_of_nil in Hf|simpl; lia].
Qed.

Lemma batch_count_nonempty l : l <> [] -> (0 < batch_count (count_by_tenant l))%nat.
Proof. apply batch_count_grouped. Qed.

Definition no_expired (now : Z) (t : gmap string Operation) : Prop :=
  forall id o, t !! id = Some o -> now <= o.(op_expiresAt).

Lemma expired_batch_nil limit now t : expired_batch limit now t = [] -> no_expired now t.
Proof.
  unfold expired_batch. intros H id o Ho.
  destruct (Z.le_gt_cases now (op_expiresAt o)) as [|Hlt]; [done|]. exfalso.
  assert (o ∈ select (fun o => op_expiresAt o <? now) t) as Hin.
  { apply elem_of_select. split; [by apply Z.ltb_lt|eauto]. }
  rewrite <-(order_by_perm (fun o => (op_expiresAt o, op_id o)) ASC) in Hin.
  destruct (order_by _ _ _) as [|x l]; [by apply elem_of_nil in Hin|].
  destruct (Z.to_nat (Z.max 1 limit)) eqn:E; [lia|done].
Qed.

Lemma purge_loop_drains left totals batches w w' r :
  purge_loop left totals batches w = (w', inr r) -> (r.2 <= left + batches)%nat ->
  w'.(clock) = w.(clock) /\ no_expired w.(clock) w'.(committed).(db_operations).
Proof.
  revert totals batches w. induction left as [|left IH]; intros totals batches w Hr Hlt;
    simpl in Hr; run_inv Hr; destruct (purgeExpiredBatch_run BATCH_SIZE w) as (ids & Hids & Hb);
    rewrite Hb in E; clear Hb; destruct (referenced_by_credential ids (committed w)); [done| |done|];
    injection E as <- <-.
  { injection Hr as <- <-. simpl in Hlt. lia. }
  destruct (Nat.ltb_spec 0 (batch_count
      (count_by_tenant (expired_batch BATCH_SIZE (clock w) (db_operations (committed w))))))
    as [Hpos|Hz].
  - apply IH in Hr; [|lia]. done.
  - injection Hr as <- <-. split; [done|].
    destruct (expired_batch BATCH_SIZE (clock w) (db_operations (committed w))) as [|x l] eqn:El.
    + apply expired_batch_nil in El. simpl. intros id o. rewrite lookup_foldr_delete.
      case_decide; [done|]. apply El.
    + assert (0 < batch_count (count_by_tenant (x :: l)))%nat by (by apply batch_count_nonempty).
      lia.
Qed.

(** ** A blocked batch stays blocked *)

Section Blocked.
Context (t : gmap string Operation) (keyed : op_keyed t).

Definition expiry_key (o : Operation) : Z * string := (o.(op_expiresAt), o.(op_id)).

Lemma rows_expiry_distinct (P : Operation -> bool) : distinct_keys expiry_key (select P t).
Proof.
  unfold distinct_keys, select. apply distinct_keys_filter.
  unfold distinct_keys, rows.
  assert (NoDup (op_id <$> (map_to_list t).*2)) as Hnd.
  { rewrite <-list_fmap_compose. rewrite (list_fmap_ext _ fst).
    - apply NoDup_fst_map_to_list.
    - intros i [k o] Hko. simpl. apply keyed.
      apply elem_of_map_to_list. by eapply list_elem_of_lookup_2. }
  apply (NoDup_fmap_1 snd). by rewrite <-list_fmap_compose.
Qed.

Lemma expired_order_app now now' :
  now <= now' ->
  order_by expiry_key ASC (select (fun o => op_expiresAt o <? now') t) =
  order_by expiry_key ASC (select (fun o => op_expiresAt o <? now) t) ++
  order_by expiry_key ASC (select (fun o => (now <=? op_expiresAt o) && (op_expiresAt o <? now')) t).
Proof.
  intros Hle. apply (sorted_unique expiry_key ASC).
  - apply order_by_sorted, rows_expiry_distinct.
  - apply sorted_app; [apply order_by_sorted, rows_expiry_distinct..|].
    intros x y. rewrite !order_by_perm, !elem_of_select.
    intros [Hx%Z.ltb_lt _] [[Hy%Z.leb_le _]%andb_prop _].
    unfold row_before, before, key_lt. apply key_ltb_spec. simpl. lia.
  - rewrite !order_by_perm. unfold select.
    rewrite <-(filter_app_complement (fun o => (op_expiresAt o <? now) = true)
                 (filter (fun r => (op_expiresAt r <? now') = true) (rows t))) at 1.
    rewrite !list_filter_filter. apply Permutation_app.
    + erewrite list_filter_iff; [done|]. intros o. simpl. rewrite !Z.ltb_lt. lia.
    + erewrite list_filter_iff; [done|]. intros o. simpl.
      rewrite andb_true_iff, Z.leb_le, !Z.ltb_lt. lia.
Qed.

Lemma expired_batch_later limit now now' o :
  now <= now' -> o ∈ expired_batch limit now t -> o ∈ expired_batch limit now' t.
Proof.
  intros Hle. unfold expired_batch. fold expiry_key.
  change (fun o => (op_expiresAt o, op_id o)) with expiry_key.
  rewrite (expired_order_app now now') by done. rewrite take_app.
  intros. apply elem_of_app. by left.
Qed.
End Blocked.

(** ** Properties *)

(** A purge batch removes only what may go.  When a batch succeeds, every
    operation is either untouched, or was expired (or sat below an expired batch
    parent, through the cascade) and is not the operation of any credential;
    nothing is added, and credentials, connections, tenants and the queue are
    unchanged. *)
Theorem purge_removes_only_expired limit w w' counts :
  op_keyed w.(committed).(db_operations) ->
  operations_purgeExpiredBatch limit w = (w', inr counts) ->
  let d := w.(committed) in let d' := w'.(committed) in
  d'.(db_credentials) = d.(db_credentials) /\ d'.(db_connections) = d.(db_connections) /\
  d'.(db_tenants) = d.(db_tenants) /\ d'.(db_jobs) = d.(db_jobs) /\
  d'.(db_operations) ⊆ d.(db_operations) /\
  forall id o, d.(db_operations) !! id = Some o ->
    d'.(db_operations) !! id = Some o \/
    (d'.(db_operations) !! id = None /\ purgeable w.(clock) d.(db_operations) id /\
     forall cid c, d.(db_credentials) !! cid = Some c -> c.(cr_operationId) <> id).
Proof.
  intros Hk Hr. destruct (purgeExpiredBatch_run limit w) as (ids & Hids & Hrun).
  rewrite Hrun in Hr. destruct (referenced_by_credential ids (committed w)) eqn:Href; [done|].
  injection Hr as <- <-. cbn. split_and!; [done..| |].
  - apply map_subseteq_spec. intros i x. rewrite lookup_foldr_delete. by case_decide.
  - intros id o Ho. rewrite lookup_foldr_delete. case_decide as Hin; [right|by left].
    split_and!; [done| |].
    + eapply cascade_purgeable; [done| |by rewrite Hids in Hin].
      intros i (x & -> & Hx)%list_elem_of_fmap.
      apply elem_of_expired_batch in Hx as [Hlt [k Hkx]].
      assert (op_id x = k) as -> by (by apply Hk). by eapply purgeable_expired.
    + intros cid c Hc <-. unfold referenced_by_credential in Href.
      assert (existsb (fun c => mem_str c.(cr_operationId) ids) (rows (db_credentials (committed w)))
              = true) as Ht; [|congruence].
      apply existsb_exists. exists c. split; [|by apply mem_str_spec].
      apply list_elem_of_In, elem_of_rows. eauto.
Qed.

Definition purge_op (id : string) (batch : option string) (expires : Z) : Operation :=
  mkOperation id "t" batch CREDENTIAL_OFFER COMPLETED JNull None None None None expires 0 0.

Definition purge_db (creds : gmap string Credential) : DB :=
  set_operations {[ "old" := purge_op "old" None 5; "child" := purge_op "child" (Some "old") 900;
                    "new" := purge_op "new" None 900 ]} (set_credentials creds empty_db).

Lemma purge_db_keyed creds : op_keyed (purge_db creds).(db_operations).
Proof.
  apply map_Forall_to_list. vm_compute. repeat constructor.
Qed.

Lemma purge_removes_only_expired_witness :
  let w := world_of (purge_db ∅) 10 in
  let d' := (operations_purgeExpiredBatch 500 w).1.(committed) in
  d'.(db_operations) !! "child" = None /\ d'.(db_operations) !! "new" = Some (purge_op "new" None 900) /\
  d'.(db_operations) ⊆ w.(committed).(db_operations).
Proof.
  split_and!; [by vm_compute..|].
  apply (purge_removes_only_expired 500 (world_of (purge_db ∅) 10) _ [("t", 1%nat)]).
  - apply purge_db_keyed.
  - vm_compute. reflexivity.
Defined.

(** A purge run drains the backlog or hits its cap.  A run that returns
    after fewer than [MAX_BATCHES_PER_RUN] batches leaves no operation that was
    expired when it ran. *)
Theorem purge_run_drains w w' totals batches :
  purgeExpiredOperations w = (w', inr (totals, batches)) ->
  (batches < MAX_BATCHES_PER_RUN)%nat ->
  no_expired w.(clock) w'.(committed).(db_operations).
Proof.
  intros Hr Hlt. apply purge_loop_drains in Hr as [_ H]; [done|].
  unfold MAX_BATCHES_PER_RUN in *. simpl in *. lia.
Qed.

Lemma purge_run_drains_witness :
  no_expired 10 (purgeExpiredOperations (world_of (purge_db ∅) 10)).1.(committed).(db_operations).
Proof.
  apply (purge_run_drains (world_of (purge_db ∅) 10) _ [("t", 1%nat)] 2).
  - vm_compute. reflexivity.
  - vm_compute. lia.
Defined.

(** One credential blocks the sweep for good.  When an operation of the batch
    the sweep would delete is the operation of a stored credential, the run
    throws the foreign-key violation having deleted nothing; and as the batch is
    the longest-expired rows, every later run of the sweep on those tables
    throws as well, so no expired operation is ever deleted. *)
Theorem credential_blocks_purge w o cid c :
  op_keyed w.(committed).(db_operations) ->
  o ∈ expired_batch BATCH_SIZE w.(clock) w.(committed).(db_operations) ->
  w.(committed).(db_credentials) !! cid = Some c -> c.(cr_operationId) = o.(op_id) ->
  forall later, w.(clock) <= later ->
    purgeExpiredOperations (set_clock later w) =
      (set_clock later w, inl (QueryFailed "23503" "fk_credential_operation")).
Proof.
  intros Hk Ho Hc Hco later Hle. unfold purgeExpiredOperations, purge_loop. simpl.
  apply bind_throw. destruct (purgeExpiredBatch_run BATCH_SIZE (set_clock later w))
    as (ids & Hids & Hrun). simpl in *.
  assert (referenced_by_credential ids (committed w) = true) as Href.
  { apply existsb_exists. exists c. split; [apply list_elem_of_In, elem_of_rows; eauto|].
    apply mem_str_spec. rewrite Hids, Hco. apply batch_in_cascade, list_elem_of_fmap_2.
    by apply (expired_batch_later _ Hk BATCH_SIZE (clock w)). }
  by rewrite Hrun, Href.
Qed.

Definition purge_credential : Credential :=
  mkCredential "c" "t" None None "k" None ANONCREDS ISSUED "old" None JNull None None 0 0.

Lemma credential_blocks_purge_witness :
  purgeExpiredOperations (set_clock 1000000 (world_of (purge_db {[ "c" := purge_credential ]}) 10)) =
    (set_clock 1000000 (world_of (purge_db {[ "c" := purge_credential ]}) 10),
     inl (QueryFailed "23503" "fk_credential_operation")).
Proof.
  apply (credential_blocks_purge (world_of (purge_db {[ "c" := purge_credential ]}) 10)
           (purge_op "old" None 5) "c" purge_credential).
  - apply purge_db_keyed.
  - vm_compute. left.
  - reflexivity.
  - reflexivity.
  - simpl. lia.
Defined.
