(* ===== verification/CredentialRepository.v ===== *)
(** * CredentialRepository and CredentialExchangeRepository

    Models credential/credential.repository.ts and
    credential-exchange/credential-exchange.repository.ts with the unique
    indexes of the two tables (migrations 000011 and 000041). *)

From Stdlib Require Import Ascii ZArith Lia.
From stdpp Require Import base decidable strings sets gmap list list_relations.
From S2P Require Import Prelude Js Entities StateMapping OperationTtl Db Pagination.
From S2P Require Import OperationService.

Local Open Scope Z_scope.

(** ** Credentials *)

(** uq_credential_tenant_external_id and uq_credential_exchange *)
Definition same_credential_slot (c c' : Credential) : bool :=
  (String.eqb c.(cr_tenantId) c'.(cr_tenantId) &&
   match c.(cr_externalId), c'.(cr_externalId) with
   | Some e, Some e' => String.eqb e e'
   | _, _ => false
   end) ||
  match c.(cr_exchangeId), c'.(cr_exchangeId) with
  | Some e, Some e' => String.eqb e e'
  | _, _ => false
  end.

Definition write_credential (m : Mgr) (id : string) (c : Credential) : Prog unit :=
  conflict ← read m (fun d =>
    existsb (fun c' => negb (String.eqb c'.(cr_id) id) && same_credential_slot c c')
      (rows d.(db_credentials)));
  if conflict : bool then throw (QueryFailed "23505" "uq_credential")
  else modify m (fun d => set_credentials (<[id := c]> d.(db_credentials)) d).

Definition credentials_create (mk : string -> Z -> Credential) (m : Mgr) : Prog Credential :=
  id ← gen_uuid;
  now ← now_us;
  taken ← read m (fun d => bool_decide (is_Some (d.(db_credentials) !! id)));
  if taken : bool then throw (QueryFailed "23505" "credential_pkey")
  else _ ← write_credential m id (mk id now); mret (mk id now).

Definition credentials_findById (id : string) : Prog (option Credential) :=
  read NoTx (fun d => d.(db_credentials) !! id).

Definition credentials_findByTenant (tenantId : string) : Prog (list Credential) :=
  read NoTx (fun d =>
    order_by (fun c => (c.(cr_createdAt), c.(cr_id))) DESC
      (select (fun c => String.eqb c.(cr_tenantId) tenantId) d.(db_credentials))).

Definition credentials_findByProfile (tenantId issuanceProfileId : string)
    : Prog (list Credential) :=
  read NoTx (fun d =>
    order_by (fun c => (c.(cr_createdAt), c.(cr_id))) DESC
      (select (fun c => String.eqb c.(cr_tenantId) tenantId &&
                        bool_decide (c.(cr_issuanceProfileId) = Some issuanceProfileId))
         d.(db_credentials))).

Definition has_external_id (tenantId externalId : string) (c : Credential) : bool :=
  String.eqb c.(cr_tenantId) tenantId && bool_decide (c.(cr_externalId) = Some externalId).

Definition credentials_findByExternalId (tenantId externalId : string)
    : Prog (option Credential) :=
  read NoTx (fun d => find_one (has_external_id tenantId externalId) d.(db_credentials)).

Definition credentials_findByIdForTenant (id tenantId : string) : Prog (option Credential) :=
  read NoTx (fun d =>
    match d.(db_credentials) !! id with
    | Some c => if String.eqb c.(cr_tenantId) tenantId then Some c else None
    | None => None
    end).

(** [UPDATE credential SET ... WHERE id = id AND guard] *)
Definition update_credential (m : Mgr) (id : string) (guard : Credential -> bool)
    (f : Z -> Credential -> Credential) : Prog bool :=
  row ← read m (fun d => d.(db_credentials) !! id);
  match row with
  | Some c =>
      if guard c then
        now ← now_us;
        _ ← write_credential m id (f now c);
        mret true
      else mret false
  | None => mret false
  end.

(** The optional columns of an update: absent ones keep their value. *)
Record CredentialTimestamps := mkTimestamps {
  ts_issuedAt : option Z;                       (* ms *)
  ts_revokedAt : option Z;
  ts_externalId : option (option string)
}.

Definition no_timestamps : CredentialTimestamps := mkTimestamps None None None.

Definition apply_timestamps (s : CredentialState) (t : CredentialTimestamps) (now : Z)
    (c : Credential) : Credential :=
  cr_update s
    (match t.(ts_issuedAt) with Some x => Some (column_of x) | None => c.(cr_issuedAt) end)
    (match t.(ts_revokedAt) with Some x => Some (column_of x) | None => c.(cr_revokedAt) end)
    (default c.(cr_externalId) t.(ts_externalId)) now c.

Definition credentials_updateState (id : string) (state : CredentialState)
    (t : CredentialTimestamps) : Prog unit :=
  _ ← update_credential NoTx id (fun _ => true)
        (apply_timestamps state (mkTimestamps t.(ts_issuedAt) t.(ts_revokedAt) None));
  mret tt.

Definition credentials_updateStateIfForward (id tenantId : string) (state : CredentialState)
    (fromStates : list CredentialState) (t : CredentialTimestamps) (m : Mgr) : Prog bool :=
  update_credential m id
    (fun c => String.eqb c.(cr_tenantId) tenantId && bool_decide (c.(cr_state) ∈ fromStates))
    (apply_timestamps state t).

Definition credentials_setExternalId (id tenantId externalId : string) (m : Mgr) : Prog unit :=
  _ ← update_credential m id (fun c => String.eqb c.(cr_tenantId) tenantId)
        (fun now c => cr_update c.(cr_state) c.(cr_issuedAt) c.(cr_revokedAt) (Some externalId)
                        now c);
  mret tt.

Definition credentials_existsByConnectorId (connectorId : string) : Prog bool :=
  read NoTx (fun d =>
    (0 <? count_rows (fun c => String.eqb c.(cr_connectorId) connectorId)
            d.(db_credentials))%nat).

(** ** Exchanges *)

Definition STATE_RANK (s : ExchangeState) : nat :=
  match s with
  | ExPending => 0
  | Ex ProposalSent => 1
  | Ex OfferSent | Ex OfferReceived => 2
  | Ex RequestSent | Ex RequestReceived => 3
  | Ex CredentialIssued | Ex CredentialReceived => 4
  | Ex Done | Ex Abandoned | ExFailed => 5
  end.

Definition exchange_states : list ExchangeState :=
  ExPending :: (Ex <$> cred_ex_states) ++ [ExFailed].

(** [isExchangeState]: an own key of [STATE_RANK], hence its state. *)
Definition isExchangeState (s : string) : option ExchangeState :=
  find (fun x => String.eqb (exchange_state_str x) s) exchange_states.

Record ExchangeTransition := mkTransition {
  et_exchangeId : string;
  et_from : ExchangeState;
  et_to : ExchangeState
}.

Definition same_exchange_slot (x x' : CredentialExchange) : bool :=
  String.eqb x.(ex_tenantId) x'.(ex_tenantId) &&
  String.eqb x.(ex_connectorId) x'.(ex_connectorId) &&
  match x.(ex_externalId), x'.(ex_externalId) with
  | Some e, Some e' => String.eqb e e'
  | _, _ => false
  end.

Definition write_exchange (m : Mgr) (id : string) (x : CredentialExchange) : Prog unit :=
  conflict ← read m (fun d =>
    existsb (fun x' => negb (String.eqb x'.(ex_id) id) && same_exchange_slot x x')
      (rows d.(db_exchanges)));
  if conflict : bool then throw (QueryFailed "23505" "uq_credential_exchange_backend")
  else modify m (fun d => set_exchanges (<[id := x]> d.(db_exchanges)) d).

Definition exchanges_create (mk : string -> Z -> CredentialExchange) (m : Mgr)
    : Prog CredentialExchange :=
  id ← gen_uuid;
  now ← now_us;
  taken ← read m (fun d => bool_decide (is_Some (d.(db_exchanges) !! id)));
  if taken : bool then throw (QueryFailed "23505" "credential_exchange_pkey")
  else _ ← write_exchange m id (mk id now); mret (mk id now).

Definition find_exchange (tenantId id : string) (d : DB) : option CredentialExchange :=
  match d.(db_exchanges) !! id with
  | Some x => if String.eqb x.(ex_tenantId) tenantId then Some x else None
  | None => None
  end.

Definition exchanges_findForTenant (tenantId id : string) : Prog (option CredentialExchange) :=
  read NoTx (find_exchange tenantId id).

Definition exchanges_lock (tenantId id : string) (m : Mgr) : Prog (option CredentialExchange) :=
  read m (find_exchange tenantId id).

(** [manager.save(exchange)] of a loaded row. *)
Definition exchanges_save (x : CredentialExchange) (m : Mgr) : Prog CredentialExchange :=
  row ← read m (fun d => d.(db_exchanges) !! x.(ex_id));
  match row with
  | Some r =>
      if decide (ex_set_updatedAt 0 r = ex_set_updatedAt 0 x) then mret x
      else
        now ← now_us;
        _ ← write_exchange m x.(ex_id) (ex_set_updatedAt now x);
        mret (ex_set_updatedAt now x)
  | None => _ ← write_exchange m x.(ex_id) x; mret x
  end.

Definition exchanges_setSubmission (tenantId id : string) (state : IssueSubmission) : Prog unit :=
  row ← read NoTx (find_exchange tenantId id);
  match row with
  | Some x =>
      if decide (x.(ex_issueSubmission) = Submitting) then
        now ← now_us;
        write_exchange NoTx id
          (ex_set_updatedAt now (ex_set_submission state x.(ex_issueOperationId) x))
      else mret tt
  | None => mret tt
  end.

Definition is_failure (s : ExchangeState) : bool :=
  bool_decide (s = ExFailed) || bool_decide (s = Ex Abandoned).

(** [advance]: the exchange with its new state, or [None] for no transition. *)
Definition advance (x : CredentialExchange) (next : ExchangeState)
    : option (CredentialExchange * ExchangeTransition) :=
  let from := x.(ex_state) in
  if (STATE_RANK next <=? STATE_RANK from)%nat ||
     (is_failure next && (4 <=? STATE_RANK from)%nat)
  then None
  else Some (ex_set_state next x, mkTransition x.(ex_id) from next).

Definition exchanges_markFailed (tenantId id : string) (m : Mgr) : Prog unit :=
  row ← exchanges_lock tenantId id m;
  match row with
  | Some x =>
      match advance x ExFailed with
      | Some (x', _) => _ ← exchanges_save x' m; mret tt
      | None => mret tt
      end
  | None => mret tt
  end.

(** The row [observe] locks. *)
Definition exchange_lookup (tenantId connectorId externalId : string) (id : option string)
    (d : DB) : option CredentialExchange :=
  if truthy_str id then
    match find_exchange tenantId (default "" id) d with
    | Some x => if String.eqb x.(ex_connectorId) connectorId then Some x else None
    | None => None
    end
  else
    find_one (fun x => String.eqb x.(ex_tenantId) tenantId &&
                       String.eqb x.(ex_connectorId) connectorId &&
                       bool_decide (x.(ex_externalId) = Some externalId)) d.(db_exchanges).

(** An exchange seen issued was submitted, whatever the submitter recorded. *)
Definition confirm_submission (x : CredentialExchange) : CredentialExchange :=
  if bool_decide (x.(ex_state) = Ex CredentialIssued \/ x.(ex_state) = Ex CredentialReceived \/
                  x.(ex_state) = Ex Done) &&
     negb (bool_decide (x.(ex_issueSubmission) = NotSubmitted))
  then ex_set_submission Submitted x.(ex_issueOperationId) x
  else x.

(** What [observe] does to the row it found. *)
Definition observed (state : string) (x : CredentialExchange)
    : CredentialExchange * option ExchangeTransition :=
  match isExchangeState state with
  | Some next =>
      match advance x next with
      | Some (x', t) => (confirm_submission x', Some t)
      | None => (confirm_submission x, None)
      end
  | None => (x, None)
  end.

Definition exchanges_observe (tenantId connectorId externalId state : string) (m : Mgr)
    (id : option string) : Prog (option ExchangeTransition) :=
  let state := normalize_state state in
  row ← read m (exchange_lookup tenantId connectorId externalId id);
  match row with
  | None => mret None
  | Some x =>
      if truthy_str x.(ex_externalId) && negb (bool_decide (x.(ex_externalId) = Some externalId))
      then throw (ConflictException "Exchange backend correlation changed")
      else
        let '(x', transition) := observed state (ex_set_externalId (Some externalId) x) in
        _ ← exchanges_save x' m;
        mret transition
  end.

(** ** Exchange lifecycle

    One observed state moves an exchange along [ex_step]. *)

Definition ex_step (s t : ExchangeState) : Prop :=
  (STATE_RANK s < STATE_RANK t)%nat /\ (is_failure t = true -> (STATE_RANK s < 4)%nat).

Definition ex_history : relation ExchangeState := rtc ex_step.

#[export] Instance ex_history_preorder : PreOrder ex_history.
Proof. apply _. Qed.

Lemma advance_step x next x' t :
  advance x next = Some (x', t) ->
  x' = ex_set_state next x /\ ex_step x.(ex_state) next /\
  t = mkTransition x.(ex_id) x.(ex_state) next.
Proof.
  unfold advance, ex_step. cbv zeta. intros H. case_match eqn:E; [done|].
  simplify_eq. apply orb_false_iff in E as [E1%Nat.leb_gt E2]. split_and!; [done|done| |done].
  intros Hf. rewrite Hf in E2. by apply Nat.leb_gt in E2.
Qed.

(** Once a credential went out, the only move left is to [Done]. *)
Lemma ex_history_issued s t :
  (4 <= STATE_RANK s)%nat -> ex_history s t -> t = s \/ (t = Ex Done /\ STATE_RANK s = 4%nat).
Proof.
  intros Hs H. apply rtc_inv in H as [->|(u & [Hr Hf] & H)]; [by left|].
  assert (u = Ex Done) as ->.
  { assert (is_failure u = false) by (destruct (is_failure u); [specialize (Hf eq_refl); lia|done]).
    destruct u as [[]| |]; simpl in *; try lia; done. }
  simpl in Hr. right. split; [|lia].
  apply rtc_inv in H as [->|(v & [Hv _] & _)]; [done|].
  destruct v as [[]| |]; simpl in Hv; lia.
Qed.
