(* ===== verification/DefinitionRepository.v ===== *)
(** * Definitions and profiles: repositories

    The repositories of credential-definition, issuance-profile and verification-profile. *)

From Stdlib Require Import Ascii ZArith Lia.
From stdpp Require Import base decidable strings sets gmap list list_relations sorting.
From S2P Require Import Prelude Js Entities StateMapping Db Pagination.

(** * CredentialDefinitionRepository and publication intents

    Models credential-definition/credential-definition.repository.ts with the
    constraints of the [credential_definition] table (the partial unique index
    on active tenant, name and format, and the check that ties the options to
    the format), and the statements on [anoncreds_publication_intent]. *)

Local Open Scope Z_scope.

(** ** Constraints *)

Definition same_active_name (d d' : CredentialDefinition) : bool :=
  d.(df_isActive) && d'.(df_isActive) && String.eqb d.(df_tenantId) d'.(df_tenantId) &&
  String.eqb d.(df_name) d'.(df_name) && bool_decide (d.(df_format) = d'.(df_format)).

Definition definition_conflict (id : string) (d : CredentialDefinition)
    (t : gmap string CredentialDefinition) : bool :=
  existsb (fun d' => negb (String.eqb d'.(df_id) id) && same_active_name d d') (rows t).

(** [options ->> 'format' = format::text] *)
Definition options_match (d : CredentialDefinition) : bool :=
  bool_decide (assoc "format" d.(df_options) = Some (JStr (definition_format_str d.(df_format)))).

Definition write_definition (m : Mgr) (id : string) (d : CredentialDefinition) : Prog unit :=
  conflict ← read m (fun t => definition_conflict id d t.(db_definitions));
  if negb (options_match d)
  then throw (QueryFailed "23514" "chk_credential_definition_options_format")
  else if conflict : bool
  then throw (QueryFailed "23505" "uq_credential_definition_tenant_name_format")
  else modify m (fun t => set_definitions (<[id := d]> t.(db_definitions)) t).

(** ** Writes *)

(** [save] of a new entity. *)
Definition definitions_create (mk : string -> Z -> CredentialDefinition) (m : Mgr)
    : Prog CredentialDefinition :=
  id ← gen_uuid;
  now ← now_us;
  taken ← read m (fun t => bool_decide (is_Some (t.(db_definitions) !! id)));
  if taken : bool then throw (QueryFailed "23505" "credential_definition_pkey")
  else _ ← write_definition m id (mk id now); mret (mk id now).

(** [save] of a loaded entity: changed columns only. *)
Definition definitions_save (m : Mgr) (d : CredentialDefinition) : Prog CredentialDefinition :=
  row ← read m (fun t => t.(db_definitions) !! d.(df_id));
  match row with
  | Some r =>
      if decide (df_set_updatedAt 0 r = df_set_updatedAt 0 d) then mret d
      else
        now ← now_us;
        _ ← write_definition m d.(df_id) (df_set_updatedAt now d);
        mret (df_set_updatedAt now d)
  | None => _ ← write_definition m d.(df_id) d; mret d
  end.

(** [UPDATE ... WHERE id = id AND guard]: whether a row was affected. *)
Definition update_definition (m : Mgr) (id : string) (guard : CredentialDefinition -> bool)
    (f : CredentialDefinition -> CredentialDefinition) : Prog bool :=
  row ← read m (fun t => t.(db_definitions) !! id);
  match row with
  | Some d =>
      if guard d then
        now ← now_us;
        _ ← write_definition m id (df_set_updatedAt now (f d));
        mret true
      else mret false
  | None => mret false
  end.

Definition of_tenant (tenantId : string) (d : CredentialDefinition) : bool :=
  String.eqb d.(df_tenantId) tenantId.

Definition find_active (tenantId id : string) (t : DB) : option CredentialDefinition :=
  match t.(db_definitions) !! id with
  | Some d => if of_tenant tenantId d && d.(df_isActive) then Some d else None
  | None => None
  end.

(** [changes]: the columns present in the patch. *)
Definition definitions_updateEditableFields (tenantId id : string) (name : option string)
    (metadata : option (option (list (string * json)))) : Prog (option CredentialDefinition) :=
  _ ← (if bool_decide (is_Some name) || bool_decide (is_Some metadata)
       then update_definition NoTx id (fun d => of_tenant tenantId d && d.(df_isActive))
              (fun d => df_edit (default d.(df_name) name) d.(df_schemaDefinition)
                          d.(df_connectorId) d.(df_connectorType) d.(df_version) d.(df_status)
                          (default d.(df_metadata) metadata) d)
       else mret false);
  read NoTx (find_active tenantId id).

(** The row is locked for the callback; [applyUpdate] returns the entity as the
    callback leaves it. *)
Definition definitions_updateWithLock (tenantId id : string)
    (applyUpdate : CredentialDefinition -> Prog CredentialDefinition)
    : Prog (option CredentialDefinition) :=
  transaction
    (row ← read Tx (find_active tenantId id);
     match row with
     | None => mret None
     | Some d => d' ← applyUpdate d; saved ← definitions_save Tx d'; mret (Some saved)
     end).

Definition definitions_deactivate (id : string) : Prog unit :=
  _ ← update_definition NoTx id (fun _ => true)
        (fun d => df_register d.(df_externalId) d.(df_registrationState)
                    d.(df_registrationOperationId) d.(df_registration) d.(df_status) false d);
  mret tt.

(** ** Reads *)

Definition definitions_findById (id : string) : Prog (option CredentialDefinition) :=
  read NoTx (fun t => match t.(db_definitions) !! id with
                      | Some d => if d.(df_isActive) then Some d else None
                      | None => None
                      end).

(** [ORDER BY createdAt ASC] over the active rows of the tenant. *)
Definition created_le (d d' : CredentialDefinition) : Prop := d.(df_createdAt) <= d'.(df_createdAt).
#[export] Instance created_le_dec d d' : Decision (created_le d d').
Proof. unfold created_le. apply _. Defined.

Definition list_active (tenantId : string) (P : CredentialDefinition -> bool)
    : Prog (list CredentialDefinition) :=
  read NoTx (fun t => merge_sort created_le
    (select (fun d => of_tenant tenantId d && d.(df_isActive) && P d) t.(db_definitions))).

Definition definitions_findByTenantId (tenantId : string) : Prog (list CredentialDefinition) :=
  list_active tenantId (fun _ => true).

Definition definitions_findByFormat (format : CredentialDefinitionFormat) (tenantId : string)
    : Prog (list CredentialDefinition) :=
  list_active tenantId (fun d => bool_decide (d.(df_format) = format)).

Definition definitions_findByConnector (type : ConnectorType) (tenantId : string)
    : Prog (list CredentialDefinition) :=
  list_active tenantId (fun d => bool_decide (d.(df_connectorType) = type)).

Definition definitions_findByTenantAndName (tenantId name : string)
    : Prog (option CredentialDefinition) :=
  read NoTx (fun t => find_one (fun d => of_tenant tenantId d && String.eqb d.(df_name) name &&
                                  d.(df_isActive)) t.(db_definitions)).

Definition named (tenantId name : string) (format : CredentialDefinitionFormat)
    (d : CredentialDefinition) : bool :=
  of_tenant tenantId d && String.eqb d.(df_name) name && bool_decide (d.(df_format) = format).

Definition definitions_findByTenantAndNameAndFormat (tenantId name : string)
    (format : CredentialDefinitionFormat) (m : Mgr) : Prog (option CredentialDefinition) :=
  read m (fun t => find_one (fun d => named tenantId name format d && d.(df_isActive))
                     t.(db_definitions)).

(** [ORDER BY is_active DESC, created_at DESC, id ASC] *)
Definition definition_before (x y : CredentialDefinition) : bool :=
  if Bool.eqb x.(df_isActive) y.(df_isActive) then
    if x.(df_createdAt) =? y.(df_createdAt) then String.ltb x.(df_id) y.(df_id)
    else y.(df_createdAt) <? x.(df_createdAt)
  else x.(df_isActive).

Fixpoint first_by {A} (before : A -> A -> bool) (l : list A) : option A :=
  match l with
  | [] => None
  | x :: l' =>
      match first_by before l' with
      | Some y => if before y x then Some y else Some x
      | None => Some x
      end
  end.

Definition definitions_findExistingByTenantAndNameAndFormat (tenantId name : string)
    (format : CredentialDefinitionFormat) (m : Mgr) : Prog (option CredentialDefinition) :=
  read m (fun t => first_by definition_before (select (named tenantId name format) t.(db_definitions))).

(** [isCredentialDefinitionReadyForIssuance] *)
Definition isCredentialDefinitionReadyForIssuance (d : CredentialDefinition) : bool :=
  bool_decide (d.(df_registrationState) = RegReady) && truthy_str d.(df_externalId) &&
  truthy_str d.(df_connectorId).

(** ** Publication intents *)

(** [INSERT ... 'publishing' ON CONFLICT DO UPDATE ... WHERE state = 'rejected']:
    whether the statement returned a row. *)
Definition intents_claim (key : IntentKey) (m : Mgr) : Prog bool :=
  row ← read m (fun t => t.(db_intents) !! key);
  match row with
  | Some Publishing | Some IntentSubmitted => mret false
  | Some IntentRejected | None =>
      _ ← modify m (fun t => set_intents (<[key := Publishing]> t.(db_intents)) t);
      mret true
  end.

(** [UPDATE ... SET state] on the row of the key, if there is one. *)
Definition intents_record (key : IntentKey) (s : IntentState) (m : Mgr) : Prog unit :=
  modify m (fun t => set_intents (alter (fun _ => s) key t.(db_intents)) t).

(** * Issuance and verification profiles: repositories

    issuance-profile.repository.ts and verification-profile.repository.ts over
    the tables of [Db], with the unique constraint on tenant, name and version
    and the guarded statements ([transitionStatus], [updateIfDraft]). *)

Local Open Scope Z_scope.

(** A column that may not be NULL. *)
Definition not_null_violation : Exn := QueryFailed "23502" "".

(** ** Issuance profiles *)

Definition ip_named (tenantId name version : string) (p : IssuanceProfile) : bool :=
  String.eqb p.(ip_tenantId) tenantId && String.eqb p.(ip_name) name &&
  String.eqb p.(ip_version) version.

Definition profile_conflict (id : string) (p : IssuanceProfile) (t : gmap string IssuanceProfile)
    : bool :=
  existsb (fun q => negb (String.eqb q.(ip_id) id) &&
                    ip_named p.(ip_tenantId) p.(ip_name) p.(ip_version) q) (rows t).

Definition write_profile (m : Mgr) (id : string) (p : IssuanceProfile) : Prog unit :=
  conflict ← read m (fun t => profile_conflict id p t.(db_profiles));
  if conflict : bool then throw (QueryFailed "23505" "uq_issuance_profile_tenant_name_version")
  else modify m (fun t => set_profiles (<[id := p]> t.(db_profiles)) t).

Definition profiles_create (mk : string -> Z -> IssuanceProfile) : Prog IssuanceProfile :=
  id ← gen_uuid;
  now ← now_us;
  taken ← read NoTx (fun t => bool_decide (is_Some (t.(db_profiles) !! id)));
  if taken : bool then throw (QueryFailed "23505" "issuance_profile_pkey")
  else _ ← write_profile NoTx id (mk id now); mret (mk id now).

(** [save] of a loaded entity: the columns that differ from the row, as it is
    now, are written. *)
Definition profiles_save (p : IssuanceProfile) : Prog IssuanceProfile :=
  row ← read NoTx (fun t => t.(db_profiles) !! p.(ip_id));
  match row with
  | Some r =>
      if decide (ip_set_updatedAt 0 r = ip_set_updatedAt 0 p) then mret p
      else
        now ← now_us;
        _ ← write_profile NoTx p.(ip_id) (ip_set_updatedAt now p);
        mret (ip_set_updatedAt now p)
  | None => _ ← write_profile NoTx p.(ip_id) p; mret p
  end.

(** [UPDATE ... WHERE id = id AND guard]: whether a row was affected. *)
Definition update_profile (id : string) (guard : DB -> IssuanceProfile -> bool)
    (f : IssuanceProfile -> IssuanceProfile) : Prog bool :=
  t ← read NoTx (fun t => t);
  match t.(db_profiles) !! id with
  | Some p =>
      if guard t p then
        now ← now_us;
        _ ← modify NoTx (fun t => set_profiles (<[id := ip_set_updatedAt now (f p)]> t.(db_profiles)) t);
        mret true
      else mret false
  | None => mret false
  end.

Definition profiles_findById (id : string) : Prog (option IssuanceProfile) :=
  read NoTx (fun d => d.(db_profiles) !! id).

Definition profiles_findByNameAndVersion (tenantId name version : string)
    : Prog (option IssuanceProfile) :=
  read NoTx (fun d => find_one (ip_named tenantId name version) d.(db_profiles)).

Definition ip_key (p : IssuanceProfile) : Z * string := (p.(ip_createdAt), p.(ip_id)).
Definition vp_key (p : VerificationProfile) : Z * string := (p.(vp_createdAt), p.(vp_id)).

(** [ORDER BY createdAt ASC] *)
Definition profiles_findByTenant (tenantId : string) : Prog (list IssuanceProfile) :=
  read NoTx (fun d => order_by (fun p => (p.(ip_createdAt), "")) ASC
    (select (fun p => String.eqb p.(ip_tenantId) tenantId) d.(db_profiles))).

Definition profiles_findPublished (tenantId : string) : Prog (list IssuanceProfile) :=
  read NoTx (fun d => order_by (fun p => (p.(ip_createdAt), "")) ASC
    (select (fun p => String.eqb p.(ip_tenantId) tenantId &&
                      bool_decide (p.(ip_status) = IP_PUBLISHED)) d.(db_profiles))).

Definition profiles_updateStatus (id : string) (status : ProfileStatus) : Prog unit :=
  _ ← update_profile id (fun _ _ => true) (ip_set_status status); mret tt.

(** The binding a publication was checked against. *)
Record ExpectedDefinition := mkExpected {
  ed_id : string;
  ed_connectorId : string;
  ed_format : CredentialDefinitionFormat
}.

(** The [EXISTS] subquery: the profile's definition, as it is now, is the one
    that was checked, and its connector is active. *)
Definition definition_still (tenantId : string) (e : ExpectedDefinition) (t : DB)
    (p : IssuanceProfile) : bool :=
  match t.(db_definitions) !! p.(ip_credentialDefinitionId) with
  | Some d =>
      String.eqb d.(df_id) e.(ed_id) && of_tenant tenantId d && d.(df_isActive) &&
      bool_decide (d.(df_status) = DF_PUBLISHED) &&
      bool_decide (d.(df_registrationState) = RegReady) && truthy_str d.(df_externalId) &&
      bool_decide (d.(df_connectorId) = Some e.(ed_connectorId)) &&
      bool_decide (d.(df_format) = e.(ed_format)) &&
      match t.(db_connectors) !! e.(ed_connectorId) with
      | Some c => String.eqb c.(con_tenantId) d.(df_tenantId) && c.(con_active)
      | None => false
      end
  | None => false
  end.

Definition profiles_transitionStatus (tenantId id : string) (fromStatus toStatus : ProfileStatus)
    (expectedDefinition : option ExpectedDefinition) : Prog bool :=
  update_profile id
    (fun t p => String.eqb p.(ip_tenantId) tenantId && bool_decide (p.(ip_status) = fromStatus) &&
                match expectedDefinition with
                | Some e => definition_still tenantId e t p
                | None => true
                end)
    (ip_set_status toStatus).

Record IssuanceProfileFilters := mkProfileFilters {
  pf_status : option ProfileStatus;
  pf_format : option CredentialDefinitionFormat;
  pf_name : option string
}.

Definition matches {A} `{!EqDecision A} (f : option A) (x : A) : bool :=
  match f with Some y => bool_decide (x = y) | None => true end.

(** The definition of the profile is looked up in the tenant's own. *)
Definition profile_matches (tenantId : string) (f : IssuanceProfileFilters)
    (definitions : gmap string CredentialDefinition) (p : IssuanceProfile) : bool :=
  String.eqb p.(ip_tenantId) tenantId && matches f.(pf_status) p.(ip_status) &&
  (match f.(pf_format) with
   | Some x => match definitions !! p.(ip_credentialDefinitionId) with
               | Some d => of_tenant tenantId d && bool_decide (d.(df_format) = x)
               | None => false
               end
   | None => true
   end) && matches f.(pf_name) p.(ip_name).

Definition ip_cursor (p : IssuanceProfile) : Cursor :=
  mkCursor (column_of (date_of p.(ip_createdAt))) p.(ip_id).

Definition profile_page (tenantId : string) (f : IssuanceProfileFilters) (limit : nat)
    (cursor : option Cursor) (d : DB) : Page :=
  find_page ip_key ASC ip_cursor (profile_matches tenantId f d.(db_definitions)) limit cursor
    (rows d.(db_profiles)).

Definition profiles_findPage (tenantId : string) (f : IssuanceProfileFilters) (limit : nat)
    (cursor : option Cursor) : Prog Page :=
  read NoTx (profile_page tenantId f limit cursor).

(** ** Verification profiles *)

Definition vp_named (tenantId name version : string) (p : VerificationProfile) : bool :=
  String.eqb p.(vp_tenantId) tenantId && String.eqb p.(vp_name) name &&
  String.eqb p.(vp_version) version.

Definition vprofile_conflict (id : string) (p : VerificationProfile)
    (t : gmap string VerificationProfile) : bool :=
  existsb (fun q => negb (String.eqb q.(vp_id) id) &&
                    vp_named p.(vp_tenantId) p.(vp_name) p.(vp_version) q) (rows t).

Definition vprofiles_create (mk : string -> Z -> VerificationProfile) : Prog VerificationProfile :=
  id ← gen_uuid;
  now ← now_us;
  taken ← read NoTx (fun t => bool_decide (is_Some (t.(db_vprofiles) !! id)));
  if taken : bool then throw (QueryFailed "23505" "verification_profile_pkey")
  else
    conflict ← read NoTx (fun t => vprofile_conflict id (mk id now) t.(db_vprofiles));
    if conflict : bool
    then throw (QueryFailed "23505" "uq_verification_profile_tenant_name_version")
    else
      _ ← modify NoTx (fun t => set_vprofiles (<[id := mk id now]> t.(db_vprofiles)) t);
      mret (mk id now).

(** [f]: the columns set, or the NULL that a column does not take. *)
Definition update_vprofile (id : string) (guard : VerificationProfile -> bool)
    (f : VerificationProfile -> Exn + VerificationProfile) : Prog bool :=
  row ← read NoTx (fun t => t.(db_vprofiles) !! id);
  match row with
  | Some p =>
      if guard p then
        p' ← of_sum (f p);
        now ← now_us;
        _ ← modify NoTx (fun t => set_vprofiles (<[id := vp_set_updatedAt now p']> t.(db_vprofiles)) t);
        mret true
      else mret false
  | None => mret false
  end.

Definition vprofiles_findById (id : string) : Prog (option VerificationProfile) :=
  read NoTx (fun d => d.(db_vprofiles) !! id).

Definition vprofiles_findByNameAndVersion (tenantId name version : string)
    : Prog (option VerificationProfile) :=
  read NoTx (fun d => find_one (vp_named tenantId name version) d.(db_vprofiles)).

Definition vprofiles_findByTenant (tenantId : string) : Prog (list VerificationProfile) :=
  read NoTx (fun d => order_by (fun p => (p.(vp_createdAt), "")) ASC
    (select (fun p => String.eqb p.(vp_tenantId) tenantId) d.(db_vprofiles))).

Definition vprofiles_findPublicByTenant (tenantId : string) : Prog (list VerificationProfile) :=
  read NoTx (fun d => order_by (fun p => (p.(vp_createdAt), "")) ASC
    (select (fun p => String.eqb p.(vp_tenantId) tenantId && p.(vp_isPublic)) d.(db_vprofiles))).

Definition vprofiles_updateStatus (id : string) (status : ProfileStatus) : Prog unit :=
  _ ← update_vprofile id (fun _ => true) (fun p => inr (vp_set_status status p)); mret tt.

Definition vp_in (tenantId : string) (s : ProfileStatus) (p : VerificationProfile) : bool :=
  String.eqb p.(vp_tenantId) tenantId && bool_decide (p.(vp_status) = s).

Definition vprofiles_transitionStatus (tenantId id : string) (fromStatus toStatus : ProfileStatus)
    : Prog bool :=
  update_vprofile id (vp_in tenantId fromStatus) (fun p => inr (vp_set_status toStatus p)).

Definition vprofiles_updateIfDraft (tenantId id : string)
    (patch : VerificationProfile -> Exn + VerificationProfile) : Prog bool :=
  update_vprofile id (vp_in tenantId IP_DRAFT) patch.

Record VerificationProfileFilters := mkVProfileFilters {
  vf_status : option ProfileStatus;
  vf_isPublic : option bool
}.

Definition vprofile_matches (tenantId : string) (f : VerificationProfileFilters)
    (p : VerificationProfile) : bool :=
  String.eqb p.(vp_tenantId) tenantId && matches f.(vf_status) p.(vp_status) &&
  matches f.(vf_isPublic) p.(vp_isPublic).

Definition vp_cursor (p : VerificationProfile) : Cursor :=
  mkCursor (column_of (date_of p.(vp_createdAt))) p.(vp_id).

Definition vprofile_page (tenantId : string) (f : VerificationProfileFilters) (limit : nat)
    (cursor : option Cursor) (d : DB) : Page :=
  find_page vp_key ASC vp_cursor (vprofile_matches tenantId f) limit cursor (rows d.(db_vprofiles)).

Definition vprofiles_findPage (tenantId : string) (f : VerificationProfileFilters) (limit : nat)
    (cursor : option Cursor) : Prog Page :=
  read NoTx (vprofile_page tenantId f limit cursor).
