(* ===== verification/ConnectionRepository.v ===== *)
(** * ConnectionRepository

    Models connection/connection.repository.ts and
    connection/connection-state-transition.ts, with the unique index on the
    external connection id (migration 000031: one row per external id across
    all tenants). *)

From Stdlib Require Import Ascii ZArith Lia.
From stdpp Require Import base decidable strings sets gmap list list_relations.
From S2P Require Import Prelude Js Entities StateMapping OperationTtl Db Pagination.
From S2P Require Import OperationService.

Local Open Scope Z_scope.

Definition same_connection_slot (c c' : Connection) : bool :=
  match c.(cn_externalConnectionId), c'.(cn_externalConnectionId) with
  | Some e, Some e' => String.eqb e e'
  | _, _ => false
  end.

Definition write_connection (m : Mgr) (id : string) (c : Connection) : Prog unit :=
  conflict ← read m (fun d =>
    existsb (fun c' => negb (String.eqb c'.(cn_id) id) && same_connection_slot c c')
      (rows d.(db_connections)));
  if conflict : bool then throw (QueryFailed "23505" "idx_connection_external_connection_id")
  else modify m (fun d => set_connections (<[id := c]> d.(db_connections)) d).

Definition connections_create (mk : string -> Z -> Connection) (m : Mgr) : Prog Connection :=
  id ← gen_uuid;
  now ← now_us;
  taken ← read m (fun d => bool_decide (is_Some (d.(db_connections) !! id)));
  if taken : bool then throw (QueryFailed "23505" "connection_pkey")
  else _ ← write_connection m id (mk id now); mret (mk id now).

Lemma connections_create_result mk m w w' c :
  connections_create mk m w = (w', inr c) -> exists i now, c = mk i now.
Proof.
  unfold connections_create. intros E. run_inv E. run_inv E. run_inv E.
  destruct a1; [done|]. run_inv E. injection E as <- <-. eauto.
Qed.

Definition connections_findById (id : string) : Prog (option Connection) :=
  read NoTx (fun d => d.(db_connections) !! id).

Definition find_connection (tenantId id : string) (d : DB) : option Connection :=
  match d.(db_connections) !! id with
  | Some c => if String.eqb c.(cn_tenantId) tenantId then Some c else None
  | None => None
  end.

Definition connections_findByIdForTenant (tenantId id : string) : Prog (option Connection) :=
  read NoTx (find_connection tenantId id).

Definition connections_findByExternalConnectionId (ext : string) : Prog (option Connection) :=
  read NoTx (fun d =>
    find_one (fun c => bool_decide (c.(cn_externalConnectionId) = Some ext)) d.(db_connections)).

Definition connections_findByExternalConnectionIdForTenant (tenantId ext : string)
    : Prog (option Connection) :=
  read NoTx (fun d =>
    find_one (fun c => String.eqb c.(cn_tenantId) tenantId &&
                       bool_decide (c.(cn_externalConnectionId) = Some ext)) d.(db_connections)).

(** [metadata ->> 'invitationId' = :invitationMsgId]; the service only ever
    stores a string under that key.  A missing parameter matches no row. *)
Definition connections_findByInvitationMsgIdForTenant (tenantId : string)
    (invitationMsgId : option string) : Prog (option Connection) :=
  read NoTx (fun d =>
    find_one (fun c => String.eqb c.(cn_tenantId) tenantId &&
                       match as_string (assoc "invitationId" c.(cn_metadata)), invitationMsgId with
                       | Some i, Some i' => String.eqb i i'
                       | _, _ => false
                       end) d.(db_connections)).

(** [save] of a loaded entity. *)
Definition connections_update (c : Connection) (m : Mgr) : Prog Connection :=
  row ← read m (fun d => d.(db_connections) !! c.(cn_id));
  match row with
  | Some r =>
      if decide (cn_set_updatedAt 0 r = cn_set_updatedAt 0 c) then mret c
      else
        now ← now_us;
        _ ← write_connection m c.(cn_id) (cn_set_updatedAt now c);
        mret (cn_set_updatedAt now c)
  | None => _ ← write_connection m c.(cn_id) c; mret c
  end.

(** The guarded update.  A value outside the enum is refused by the database
    when the parameter is bound, before any row is looked at. *)
Definition connections_updateStateIfForward (id tenantId : string) (state : ConnVal)
    (fromStates : list ConnectionState) (m : Mgr) : Prog bool :=
  match state with
  | Inherited _ => throw (QueryFailed "22P02" "")
  | Known s =>
      row ← read m (fun d => d.(db_connections) !! id);
      match row with
      | Some c =>
          if String.eqb c.(cn_tenantId) tenantId && bool_decide (c.(cn_state) ∈ fromStates) then
            now ← now_us;
            _ ← write_connection m id (cn_set_updatedAt now (cn_set_state s c));
            mret true
          else mret false
      | None => mret false
      end
  end.

(** Credentials and exchanges that refer to the row lose the reference
    (ON DELETE SET NULL). *)
Definition connections_delete (id : string) : Prog unit :=
  modify NoTx (fun d =>
    set_exchanges (ex_unlink id <$> d.(db_exchanges))
      (set_credentials (cr_unlink id <$> d.(db_credentials))
        (set_connections (delete id d.(db_connections)) d))).

Definition is_open (c : Connection) : bool :=
  match c.(cn_state) with CN_COMPLETED | ABANDONED => false | _ => true end.

Definition abandon_all (tenantId : string) (now : Z) (t : gmap string Connection)
    : gmap string Connection :=
  (fun c => if String.eqb c.(cn_tenantId) tenantId && is_open c
            then cn_set_updatedAt now (cn_set_state ABANDONED c) else c) <$> t.

Definition connections_abandonAllForTenant (tenantId : string) : Prog nat :=
  now ← now_us;
  n ← read NoTx (fun d =>
        count_rows (fun c => String.eqb c.(cn_tenantId) tenantId && is_open c) d.(db_connections));
  _ ← modify NoTx (fun d =>
        set_connections (abandon_all tenantId now d.(db_connections)) d);
  mret n.

(** ** transitionConnectionState *)

Definition transitionConnectionState (target : ConnVal)
    (write : ConnVal -> list ConnectionState -> Prog (option Connection))
    : Prog (option Connection * bool) :=
  active ← (if decide (target = Known CN_COMPLETED)
            then write (Known ACTIVE) (connectionStatesBelow (Known ACTIVE))
            else mret None);
  updated ← write target (connectionStatesBelow target);
  mret (match updated with Some c => Some c | None => active end,
        bool_decide (is_Some active) ||
        (bool_decide (is_Some updated) && bool_decide (target = Known ACTIVE))).

(** ** reconcile *)

(** A connection as the agent reports it. *)
Record RemoteConnection := mkRemote {
  rm_id : string;
  rm_state : AgentConnectionState;
  rm_theirLabel : option string;
  rm_theirDid : option string;
  rm_protocol : option string;
  rm_invitationId : option string
}.

(** Whether the row may be bound to this connector and this remote id. *)
Definition binding_free (connectorId remoteId : string) (c : Connection) : bool :=
  negb (truthy_str c.(cn_connectorId) && negb (bool_decide (c.(cn_connectorId) = Some connectorId)))
  && negb (truthy_str c.(cn_externalConnectionId) &&
           negb (bool_decide (c.(cn_externalConnectionId) = Some remoteId))).

Definition or_else {A} (x y : option A) : option A :=
  match x with Some _ => x | None => y end.

(** The saved entity and the row behind it: an [undefined] label or DID is not
    written, so the row keeps its value while the entity loses it. *)
Definition reconcile_entity (connectorId : string) (remote : RemoteConnection) (c : Connection)
    : Connection :=
  cn_bind (Some connectorId) (Some remote.(rm_id)) remote.(rm_theirLabel) remote.(rm_theirDid)
    DIDCOMM_V1 c.
Definition reconcile_row (connectorId : string) (remote : RemoteConnection) (c : Connection)
    : Connection :=
  cn_bind (Some connectorId) (Some remote.(rm_id))
    (or_else remote.(rm_theirLabel) c.(cn_theirLabel))
    (or_else remote.(rm_theirDid) c.(cn_theirDid)) DIDCOMM_V1 c.

(** The body of the transaction. *)
Definition reconcile_tx (tenantId id connectorId : string) (remote : RemoteConnection)
    (state : ConnectionState) (forwardStates : list ConnectionState) (onEstablished : Prog unit)
    : Prog (option (Connection * bool)) :=
  row ← read Tx (find_connection tenantId id);
  match row with
  | None => mret None
  | Some c =>
      if binding_free connectorId remote.(rm_id) c then
        row ← connections_update (reconcile_row connectorId remote c) Tx;
        let saved := cn_set_updatedAt row.(cn_updatedAt) (reconcile_entity connectorId remote c) in
        moved ← (if decide (saved.(cn_state) ∈ forwardStates) then
                   transitionConnectionState (Known state) (fun s fromStates =>
                     won ← connections_updateStateIfForward id tenantId s fromStates Tx;
                     if won : bool then
                       mret (match s with Known s => Some (cn_set_state s saved)
                                        | Inherited _ => None end)
                     else mret None)
                 else mret (None, false));
        _ ← prog_when moved.2 onEstablished;
        mret (Some (default saved moved.1, moved.2))
      else mret None
  end.

Definition connections_reconcile (tenantId id connectorId : string) (remote : RemoteConnection)
    (state : ConnectionState) (forwardStates : list ConnectionState) (onEstablished : Prog unit)
    : Prog (option (Connection * bool)) :=
  transaction (reconcile_tx tenantId id connectorId remote state forwardStates onEstablished).

(** ** Listing *)

Record ConnectionFilters := mkConnFilters {
  cf_state : option ConnectionState;
  cf_protocol : option ConnectionProtocol
}.

Definition cn_key (c : Connection) : Z * string := (c.(cn_createdAt), c.(cn_id)).

Definition connection_matches (tenantId : string) (f : ConnectionFilters) (c : Connection) : bool :=
  String.eqb c.(cn_tenantId) tenantId &&
  (match f.(cf_state) with Some s => bool_decide (c.(cn_state) = s) | None => true end) &&
  (match f.(cf_protocol) with Some p => bool_decide (c.(cn_protocol) = p) | None => true end).

(** [{ createdAt: last.createdAt.toISOString(), id: last.id }]: a [Date] has
    milliseconds, the column has microseconds. *)
Definition cn_cursor (c : Connection) : Cursor :=
  mkCursor (column_of (date_of c.(cn_createdAt))) c.(cn_id).

Definition connection_page (tenantId : string) (f : ConnectionFilters) (limit : nat)
    (cursor : option Cursor) (t : gmap string Connection) : Page :=
  find_page cn_key ASC cn_cursor (connection_matches tenantId f) limit cursor (rows t).

Definition connections_findPageForTenant (tenantId : string) (f : ConnectionFilters)
    (limit : nat) (cursor : option Cursor) : Prog Page :=
  read NoTx (fun d => connection_page tenantId f limit cursor d.(db_connections)).
