(* ===== verification/TenantRepository.v ===== *)
(** * Tenants and their users: the tables

    The repositories of tenant and of tenant-user. *)

From Stdlib Require Import ZArith Lia Ascii.
From stdpp Require Import base decidable strings sets gmap list list_relations.
From S2P Require Import Prelude Js Entities StateMapping OperationTtl Db Pagination.

(** * Tenants: the table

    tenant/tenant.repository.ts over the [tenant] table.  A slug is unique, also
    among soft-deleted tenants; queries leave soft-deleted rows out unless they
    ask for them. *)

Local Open Scope Z_scope.

Definition tn_set_updatedAt (now : Z) (t : Tenant) : Tenant :=
  mkTenant t.(tn_id) t.(tn_name) t.(tn_slug) t.(tn_description) t.(tn_status) t.(tn_config)
    t.(tn_createdAt) now t.(tn_deletedAt) t.(tn_deactivatedAt).
Definition tn_edit (name : string) (description : option string) (config : option json) (t : Tenant)
    : Tenant :=
  mkTenant t.(tn_id) name t.(tn_slug) description t.(tn_status) config
    t.(tn_createdAt) t.(tn_updatedAt) t.(tn_deletedAt) t.(tn_deactivatedAt).
Definition tn_set_config (config : option json) (t : Tenant) : Tenant :=
  tn_edit t.(tn_name) t.(tn_description) config t.
Definition tn_set_status (status : TenantStatus) (deactivatedAt : option Z) (t : Tenant) : Tenant :=
  mkTenant t.(tn_id) t.(tn_name) t.(tn_slug) t.(tn_description) status t.(tn_config)
    t.(tn_createdAt) t.(tn_updatedAt) t.(tn_deletedAt) deactivatedAt.
Definition tn_set_deletedAt (deletedAt : option Z) (t : Tenant) : Tenant :=
  mkTenant t.(tn_id) t.(tn_name) t.(tn_slug) t.(tn_description) t.(tn_status) t.(tn_config)
    t.(tn_createdAt) t.(tn_updatedAt) deletedAt t.(tn_deactivatedAt).

(** ** Constraints *)

Definition slug_conflict (id : string) (t : Tenant) (tenants : gmap string Tenant) : bool :=
  existsb (fun t' => negb (String.eqb t'.(tn_id) id) && String.eqb t'.(tn_slug) t.(tn_slug)) (rows tenants).

Definition write_tenant (m : Mgr) (id : string) (t : Tenant) : Prog unit :=
  conflict ← read m (fun d => slug_conflict id t d.(db_tenants));
  if conflict : bool then throw (QueryFailed "23505" "idx_tenant_slug")
  else modify m (fun d => set_tenants (<[id := t]> d.(db_tenants)) d).

(** ** Reads *)

Definition tn_key (t : Tenant) : Z * string := (t.(tn_createdAt), t.(tn_id)).

(** [last.createdAt.toISOString()]: milliseconds of a column of microseconds. *)
Definition tn_cursor (t : Tenant) : Cursor := mkCursor (column_of (date_of t.(tn_createdAt))) t.(tn_id).

Definition tenant_page (limit : nat) (cursor : option Cursor) (tenants : gmap string Tenant) : Page :=
  find_page tn_key ASC tn_cursor tenant_live limit cursor (rows tenants).

Definition tenants_findPage (limit : nat) (cursor : option Cursor) : Prog Page :=
  read NoTx (fun d => tenant_page limit cursor d.(db_tenants)).

Definition tenantRepo_findById (id : string) (m : Mgr) : Prog (option Tenant) :=
  read m (fun d => find_tenant id d.(db_tenants)).

(** The row is locked in the source. *)
Definition tenants_findByIdForUpdate (id : string) : Prog (option Tenant) :=
  read Tx (fun d => find_tenant id d.(db_tenants)).

Definition tenants_findBySlug (slug : string) (includeDeleted : bool) : Prog (option Tenant) :=
  read NoTx (fun d => find_one (fun t => String.eqb t.(tn_slug) slug && (includeDeleted || tenant_live t))
                        d.(db_tenants)).

(** ** Writes *)

(** [save] of a new entity. *)
Definition tenants_insert (mk : string -> Z -> Tenant) (m : Mgr) : Prog Tenant :=
  id ← gen_uuid;
  now ← now_us;
  taken ← read m (fun d => bool_decide (is_Some (d.(db_tenants) !! id)));
  if taken : bool then throw (QueryFailed "23505" "tenant_pkey")
  else _ ← write_tenant m id (mk id now); mret (mk id now).

(** [save] of a loaded entity: the columns that differ from the row are written,
    whatever wrote them since the entity was loaded. *)
Definition tenants_update (t : Tenant) (m : Mgr) : Prog Tenant :=
  row ← read m (fun d => d.(db_tenants) !! t.(tn_id));
  match row with
  | Some r =>
      if decide (tn_set_updatedAt 0 r = tn_set_updatedAt 0 t) then mret t
      else
        now ← now_us;
        _ ← write_tenant m t.(tn_id) (tn_set_updatedAt now t);
        mret (tn_set_updatedAt now t)
  | None => _ ← write_tenant m t.(tn_id) t; mret t
  end.

(** [config->>'default_connector' IS NULL]: absent, or JSON null. *)
Definition default_unset (config : option json) : bool :=
  match get_prop "default_connector" config with
  | None | Some JNull => true
  | Some _ => false
  end.

(** [jsonb_set(COALESCE(config, '{}'), '{default_connector}', ..., true)] *)
Definition jsonb_set_default (connectorId : string) (config : option json) : Exn + json :=
  match config with
  | None => inr (JObj [("default_connector", JStr connectorId)])
  | Some (JObj o) => inr (JObj (assoc_set "default_connector" (JStr connectorId) o))
  | Some _ => inl (QueryFailed "22023" "")
  end.

Definition tenants_setDefaultConnectorIfUnset (tenantId connectorId : string) (m : Mgr)
    : Prog (option Tenant) :=
  row ← read m (fun d => d.(db_tenants) !! tenantId);
  match row with
  | Some t =>
      if default_unset t.(tn_config) then
        config ← of_sum (jsonb_set_default connectorId t.(tn_config));
        now ← now_us;
        _ ← write_tenant m tenantId (tn_set_updatedAt now (tn_set_config (Some config) t));
        tenantRepo_findById tenantId m
      else mret None
  | None => mret None
  end.

Definition set_deleted (id : string) (deletedAt : Z -> option Z) : Prog unit :=
  now ← now_us;
  modify NoTx (fun d =>
    set_tenants (alter (fun t => tn_set_updatedAt now (tn_set_deletedAt (deletedAt now) t)) id d.(db_tenants)) d).

(** [softDelete] and [restore] *)
Definition tenants_delete (id : string) : Prog unit := set_deleted id Some.
Definition tenants_restore (id : string) : Prog unit := set_deleted id (fun _ => None).

(** * Tenant users: the table

    tenant-user/tenant-user.repository.ts over the [tenant_user] table, with its
    two unique constraints: one row per tenant and external identity, one per
    tenant and email.  The search of the listing is an SQL LIKE on an escaped
    pattern; [like_escaped] shows that it looks for the text itself. *)

Local Open Scope Z_scope.

Definition tu_set_updatedAt (now : Z) (u : TenantUser) : TenantUser :=
  mkTenantUser u.(tu_id) u.(tu_tenantId) u.(tu_externalUserId) u.(tu_email) u.(tu_displayName)
    u.(tu_role) u.(tu_status) u.(tu_isPlatformOperator) u.(tu_createdAt) now.
Definition tu_edit (email : string) (displayName : option string) (role : TenantUserRole)
    (status : TenantUserStatus) (u : TenantUser) : TenantUser :=
  mkTenantUser u.(tu_id) u.(tu_tenantId) u.(tu_externalUserId) email displayName role status
    u.(tu_isPlatformOperator) u.(tu_createdAt) u.(tu_updatedAt).
Definition tu_set_operator (b : bool) (u : TenantUser) : TenantUser :=
  mkTenantUser u.(tu_id) u.(tu_tenantId) u.(tu_externalUserId) u.(tu_email) u.(tu_displayName)
    u.(tu_role) u.(tu_status) b u.(tu_createdAt) u.(tu_updatedAt).
Definition tu_claim (externalUserId : string) (now : Z) (u : TenantUser) : TenantUser :=
  mkTenantUser u.(tu_id) u.(tu_tenantId) (Some externalUserId) u.(tu_email) u.(tu_displayName)
    u.(tu_role) TU_ACTIVE u.(tu_isPlatformOperator) u.(tu_createdAt) now.

Definition users (d : DB) : gmap string TenantUser := d.(db_admin).(ad_users).

(** ** Constraints *)

Definition same_identity (u u' : TenantUser) : bool :=
  String.eqb u.(tu_tenantId) u'.(tu_tenantId) && bool_decide (is_Some u.(tu_externalUserId)) &&
  bool_decide (u.(tu_externalUserId) = u'.(tu_externalUserId)).

Definition same_email (u u' : TenantUser) : bool :=
  String.eqb u.(tu_tenantId) u'.(tu_tenantId) && String.eqb u.(tu_email) u'.(tu_email).

Definition other_user (id : string) (P : TenantUser -> bool) (t : gmap string TenantUser) : bool :=
  existsb (fun u => negb (String.eqb u.(tu_id) id) && P u) (rows t).

Definition write_user (m : Mgr) (id : string) (u : TenantUser) : Prog unit :=
  identity ← read m (fun d => other_user id (same_identity u) (users d));
  email ← read m (fun d => other_user id (same_email u) (users d));
  if identity : bool then throw (QueryFailed "23505" "uq_tenant_user_external_user")
  else if email : bool then throw (QueryFailed "23505" "uq_tenant_user_tenant_email")
  else modify m (fun d => set_users (<[id := u]> (users d)) d).

(** ** Lookups and counts *)

Definition users_findById (id : string) : Prog (option TenantUser) :=
  read NoTx (fun d => users d !! id).

Definition user_of (tenantId id : string) (d : DB) : option TenantUser :=
  match users d !! id with
  | Some u => if String.eqb u.(tu_tenantId) tenantId then Some u else None
  | None => None
  end.

Definition users_findByTenantAndId (tenantId id : string) (m : Mgr) : Prog (option TenantUser) :=
  read m (user_of tenantId id).

Definition count_users (tenantId : string) (P : TenantUser -> bool) (d : DB) : nat :=
  count_rows (fun u => String.eqb u.(tu_tenantId) tenantId && P u) (users d).

Definition has_role (r : TenantUserRole) (u : TenantUser) : bool := bool_decide (u.(tu_role) = r).
Definition is_active_user (u : TenantUser) : bool := bool_decide (u.(tu_status) = TU_ACTIVE).
Definition is_active_owner (u : TenantUser) : bool := has_role OWNER u && is_active_user u.
Definition is_active_administrator (u : TenantUser) : bool :=
  (has_role OWNER u || has_role ADMIN u) && is_active_user u.

Definition users_countByTenantAndRole (tenantId : string) (role : TenantUserRole) (m : Mgr) : Prog nat :=
  read m (count_users tenantId (has_role role)).
Definition users_countActiveOwnersByTenant (tenantId : string) (m : Mgr) : Prog nat :=
  read m (count_users tenantId is_active_owner).
Definition users_countActiveAdministratorsByTenant (tenantId : string) (m : Mgr) : Prog nat :=
  read m (count_users tenantId is_active_administrator).

Definition tu_key (u : TenantUser) : Z * string := (u.(tu_createdAt), u.(tu_id)).

(** [ORDER BY createdAt ASC, id ASC]; where the source orders by [createdAt]
    alone, ties fall in key order. *)
Definition list_users (P : DB -> TenantUser -> bool) : Prog (list TenantUser) :=
  read NoTx (fun d => order_by tu_key ASC (select (P d) (users d))).

Definition is_identity (externalUserId : string) (u : TenantUser) : bool :=
  bool_decide (u.(tu_externalUserId) = Some externalUserId).

Definition users_findByExternalUserId (externalUserId : string) : Prog (list TenantUser) :=
  list_users (fun _ => is_identity externalUserId).

(** The inner join with the tenant. *)
Definition in_live_tenant (d : DB) (u : TenantUser) : bool :=
  bool_decide (is_Some (find_tenant u.(tu_tenantId) d.(db_tenants))).

Definition users_findActiveByExternalUserId (externalUserId : string) : Prog (list TenantUser) :=
  list_users (fun d u => in_live_tenant d u && is_identity externalUserId u && is_active_user u).

Definition users_findByTenantAndExternalUserId (tenantId externalUserId : string)
    : Prog (option TenantUser) :=
  read NoTx (fun d => find_one (fun u => String.eqb u.(tu_tenantId) tenantId && is_identity externalUserId u)
                        (users d)).

Definition users_findByTenantAndEmail (tenantId email : string) (m : Mgr) : Prog (option TenantUser) :=
  read m (fun d => find_one (fun u => String.eqb u.(tu_tenantId) tenantId && String.eqb u.(tu_email) email)
                     (users d)).

Definition unclaimed_invite (normalizedEmail : string) (u : TenantUser) : bool :=
  String.eqb (js_lower u.(tu_email)) normalizedEmail && bool_decide (u.(tu_externalUserId) = None) &&
  bool_decide (u.(tu_status) = TU_INVITED).

Definition users_findUnclaimedInvitesByEmail (email : string) : Prog (list TenantUser) :=
  list_users (fun d u => in_live_tenant d u && unclaimed_invite (js_lower (js_trim email)) u).

(** ** The listing *)

(** [replace(/[!%_]/g, '!$&')] *)
Definition is_wild (c : ascii) : bool :=
  eq_ascii c "!"%char || eq_ascii c "%"%char || eq_ascii c "_"%char.
Fixpoint escape_like (s : string) : string :=
  match s with
  | EmptyString => EmptyString
  | String c s' => if is_wild c then String "!" (String c (escape_like s')) else String c (escape_like s')
  end.

(** An SQL pattern with [ESCAPE '!'] as a list of items. *)
Inductive LikeItem := Any | One | Lit (c : ascii).

Fixpoint like_items (p : string) : list LikeItem :=
  match p with
  | EmptyString => []
  | String c p' =>
      if eq_ascii c "!"%char then
        match p' with String e p'' => Lit e :: like_items p'' | EmptyString => [] end
      else (if eq_ascii c "%"%char then Any else if eq_ascii c "_"%char then One else Lit c) :: like_items p'
  end.

Fixpoint like_match (items : list LikeItem) (s : string) : bool :=
  match items with
  | [] => String.eqb s ""
  | Any :: items' =>
      (fix any (s : string) : bool :=
         like_match items' s || match s with String _ s' => any s' | EmptyString => false end) s
  | One :: items' => match s with String _ s' => like_match items' s' | EmptyString => false end
  | Lit c :: items' => match s with String x s' => eq_ascii x c && like_match items' s' | EmptyString => false end
  end.

(** [s LIKE p ESCAPE '!'] *)
Definition sql_like (s p : string) : bool := like_match (like_items p) s.

Definition user_matches (search : option string) (u : TenantUser) : bool :=
  let normalizedSearch := js_lower (js_trim (default "" search)) in
  if truthy_str (Some normalizedSearch) then
    let pattern := "%" +:+ (escape_like normalizedSearch +:+ "%") in
    sql_like (js_lower u.(tu_email)) pattern ||
    match u.(tu_displayName) with Some n => sql_like (js_lower n) pattern | None => false end
  else true.

Definition tu_cursor (u : TenantUser) : Cursor := mkCursor (column_of (date_of u.(tu_createdAt))) u.(tu_id).

Definition users_findPageForTenant (tenantId : string) (limit : nat) (cursor : option Cursor)
    (search : option string) : Prog Page :=
  read NoTx (fun d =>
    find_page tu_key ASC tu_cursor (fun u => String.eqb u.(tu_tenantId) tenantId && user_matches search u)
      limit cursor (rows (users d))).

(** ** Writes *)

Definition users_create (mk : string -> Z -> TenantUser) (m : Mgr) : Prog TenantUser :=
  id ← gen_uuid;
  now ← now_us;
  taken ← read m (fun d => bool_decide (is_Some (users d !! id)));
  if taken : bool then throw (QueryFailed "23505" "tenant_user_pkey")
  else _ ← write_user m id (mk id now); mret (mk id now).

(** The compare-and-set of a sign-in. *)
Definition users_claimInvitedById (id externalUserId : string) : Prog (option TenantUser) :=
  row ← read NoTx (fun d => users d !! id);
  match row with
  | Some u =>
      if bool_decide (u.(tu_externalUserId) = None) && bool_decide (u.(tu_status) = TU_INVITED) then
        now ← now_us;
        _ ← write_user NoTx id (tu_claim externalUserId now u);
        users_findById id
      else mret None
  | None => mret None
  end.

(** [save] of a loaded entity. *)
Definition users_update (u : TenantUser) (m : Mgr) : Prog TenantUser :=
  row ← read m (fun d => users d !! u.(tu_id));
  match row with
  | Some r =>
      if decide (tu_set_updatedAt 0 r = tu_set_updatedAt 0 u) then mret u
      else
        now ← now_us;
        _ ← write_user m u.(tu_id) (tu_set_updatedAt now u);
        mret (tu_set_updatedAt now u)
  | None => _ ← write_user m u.(tu_id) u; mret u
  end.

Definition users_delete (id : string) (m : Mgr) : Prog unit :=
  modify m (fun d => set_users (delete id (users d)) d).

Lemma users_set t d : users (set_users t d) = t.
Proof. done. Qed.

(** ** The search looks for the text itself *)

Definition contains (text s : string) : Prop := exists a b, s = a +:+ (text +:+ b).

Definition literally (t : string) (k : list LikeItem) : list LikeItem :=
  fold_right (fun c k => Lit c :: k) k (String.list_ascii_of_string t).

Lemma like_items_escape t rest :
  like_items (escape_like t +:+ rest) = literally t (like_items rest).
Proof.
  induction t as [|c t IH]; [done|]. change (literally (String c t) (like_items rest)) with
    (Lit c :: literally t (like_items rest)). rewrite <-IH. simpl escape_like.
  destruct (is_wild c) eqn:E; [done|]. unfold is_wild in E. apply orb_false_iff in E as [[E1 E2]%orb_false_iff E3].
  change (String c (escape_like t) +:+ rest) with (String c (escape_like t +:+ rest)). cbn [like_items].
  by rewrite E1, E2, E3.
Qed.

Lemma like_any items s : like_match (Any :: items) s = true <-> exists a b, s = a +:+ b /\ like_match items b = true.
Proof.
  cbn [like_match]. induction s as [|c s IH].
  - cbn. rewrite orb_false_r. split; [intros H; by exists "", ""|]. intros (a & b & E & H).
    destruct a; [|done]. change ("" +:+ b) with b in E. by rewrite E.
  - cbn. rewrite orb_true_iff, IH. split.
    + intros [H|(a & b & -> & H)]; [by exists "", (String c s)|by exists (String c a), b].
    + intros ([|x a] & b & E & H); [change ("" +:+ b) with b in E; left; by rewrite E|].
      change (String x a +:+ b) with (String x (a +:+ b)) in E. injection E as <- ->. right. by exists a, b.
Qed.

Lemma like_literally t k s :
  like_match (literally t k) s = true <-> exists b, s = t +:+ b /\ like_match k b = true.
Proof.
  revert s. induction t as [|c t IH]; intros s.
  - split; [intros H; by exists s|]. by intros (b & -> & H).
  - change (literally (String c t) k) with (Lit c :: literally t k). cbn [like_match].
    destruct s as [|x s]; [split; [done|]; by intros (b & E & _)|].
    rewrite andb_true_iff, IH. unfold eq_ascii. rewrite Ascii.eqb_eq. split.
    + intros (-> & b & -> & H). by exists b.
    + intros (b & E & H). change (String c t +:+ b) with (String c (t +:+ b)) in E.
      injection E as -> ->. split; [done|by exists b].
Qed.

(** Whatever characters the search text has, a row matches exactly when the text
    occurs in it. *)
Lemma like_escaped t s : sql_like s ("%" +:+ (escape_like t +:+ "%")) = true <-> contains t s.
Proof.
  unfold sql_like, contains. change ("%" +:+ (escape_like t +:+ "%")) with (String "%" (escape_like t +:+ "%")).
  change (like_items (String "%" (escape_like t +:+ "%"))) with (Any :: like_items (escape_like t +:+ "%")).
  rewrite like_items_escape, like_any. setoid_rewrite like_literally.
  change (like_items "%") with [Any]. split.
  - intros (a & r & -> & b & -> & _). by exists a, b.
  - intros (a & b & ->). exists a, (t +:+ b). split; [done|]. exists b. split; [done|].
    apply like_any. exists b, "". split; [|done]. clear. induction b as [|c b IH]; [done|]. exact (f_equal (String c) IH).
Qed.
