(* ===== verification/OidcSessions.v ===== *)
(** * OIDC records

    The [oidc_model] table of libs/oidc: the adapter through which oidc-provider stores
    its sessions, grants and tokens (adapters/oidc-model.adapter.ts), the deletions by
    account and by role of oidc-account-session.repository.ts, and the cap on
    concurrent sessions of session-limit.service.ts.  The collation of the database,
    which breaks ties between sessions of the same instant, is a parameter. *)

From Stdlib Require Import Ascii ZArith Lia.
From stdpp Require Import base decidable strings sets gmap list list_relations sorting.
From S2P Require Import Prelude Js OperationTtl JsText Entities StateMapping Db Encryption TenantRepository.

Local Open Scope Z_scope.

Definition oidc (d : DB) : gmap string OidcModel := d.(db_admin).(ad_oidc).

Definition ACCOUNT_BOUND_MODELS : list string :=
  ["Session"; "Grant"; "AccessToken"; "RefreshToken"; "AuthorizationCode"; "DeviceCode";
   "BackchannelAuthenticationRequest"].
Definition SESSION_MODEL : string := "Session".

(** ** The adapter *)

Definition payload_str (k : string) (payload : list (string * json)) : option string :=
  match assoc k payload with Some (JStr s) => Some s | _ => None end.

Definition is_record (modelName oidcId : string) (r : OidcModel) : bool :=
  String.eqb r.(om_modelName) modelName && String.eqb r.(om_oidcId) oidcId.

Definition write_oidc (id : string) (r : OidcModel) : Prog unit :=
  modify NoTx (fun d => set_oidc (<[id := r]> (oidc d)) d).

(** [INSERT ... ON CONFLICT (model_name, oidc_id) DO UPDATE] of every column but the
    identifier and the creation time. *)
Definition oidc_upsert (modelName oidcId : string) (payload : list (string * json)) (expiresIn : Z) : Prog unit :=
  now ← now_ms;
  let expiresAt := if 0 <? expiresIn then Some (column_of (now + expiresIn * 1000)) else None in
  let fill id createdAt :=
    mkOidcModel id modelName oidcId (JObj payload) (payload_str "grantId" payload)
      (payload_str "userCode" payload) (payload_str "uid" payload) (payload_str "accountId" payload)
      expiresAt None createdAt in
  existing ← read NoTx (fun d => find_one (is_record modelName oidcId) (oidc d));
  match existing with
  | Some r => write_oidc r.(om_id) (fill r.(om_id) r.(om_createdAt))
  | None =>
      id ← gen_uuid;
      created ← now_us;
      taken ← read NoTx (fun d => bool_decide (is_Some (oidc d !! id)));
      if taken : bool then throw (QueryFailed "23505" "oidc_model_pkey") else write_oidc id (fill id created)
  end.

Definition toPayloadIfActive (now : Z) (row : option OidcModel) : option (list (string * json)) :=
  match row with
  | None => None
  | Some r =>
      if match r.(om_expiresAt) with Some e => date_of e <=? now | None => false end then None
      else
        let payload := match r.(om_payload) with JObj o => o | _ => [] end in
        Some (match r.(om_consumedAt) with
              | Some c => assoc_set "consumed" (JNum (num_of_Z (date_of c / 1000))) payload
              | None => payload
              end)
  end.

Definition find_payload (P : OidcModel -> bool) : Prog (option (list (string * json))) :=
  row ← read NoTx (fun d => find_one P (oidc d));
  now ← now_ms;
  mret (toPayloadIfActive now row).

Definition oidc_find (modelName oidcId : string) : Prog (option (list (string * json))) :=
  find_payload (is_record modelName oidcId).
Definition oidc_findByUserCode (modelName userCode : string) : Prog (option (list (string * json))) :=
  find_payload (fun r => String.eqb r.(om_modelName) modelName && bool_decide (r.(om_userCode) = Some userCode)).
Definition oidc_findByUid (modelName uid : string) : Prog (option (list (string * json))) :=
  find_payload (fun r => String.eqb r.(om_modelName) modelName && bool_decide (r.(om_uid) = Some uid)).

Definition om_set_consumedAt (c : option Z) (r : OidcModel) : OidcModel :=
  mkOidcModel r.(om_id) r.(om_modelName) r.(om_oidcId) r.(om_payload) r.(om_grantId) r.(om_userCode)
    r.(om_uid) r.(om_accountId) r.(om_expiresAt) c r.(om_createdAt).

Definition oidc_consume (modelName oidcId : string) : Prog unit :=
  now ← now_ms;
  modify NoTx (fun d =>
    set_oidc ((fun r => if is_record modelName oidcId r then om_set_consumedAt (Some (column_of now)) r else r)
                <$> oidc d) d).

(** [DELETE ... WHERE P]: the rows that go, by model and count in the source. *)
Definition delete_where (m : Mgr) (P : DB -> OidcModel -> bool) : Prog (list OidcModel) :=
  gone ← read m (fun d => select (P d) (oidc d));
  _ ← modify m (fun d => set_oidc (filter (fun kv => P d kv.2 = false) (oidc d)) d);
  mret gone.

(** A session's upstream session is logged out first; [logout] is that port. *)
Definition oidc_destroy (logout : string -> option string -> Prog unit) (modelName oidcId : string) : Prog unit :=
  _ ← (if String.eqb modelName SESSION_MODEL then
         row ← read NoTx (fun d => find_one (is_record modelName oidcId) (oidc d));
         match row with
         | None => mret tt
         | Some r => logout r.(om_id) r.(om_uid)
         end
       else mret tt);
  _ ← delete_where NoTx (fun _ => is_record modelName oidcId);
  mret tt.

Definition oidc_revokeByGrantId (modelName grantId : string) : Prog unit :=
  _ ← delete_where NoTx (fun _ r => String.eqb r.(om_modelName) modelName &&
                                    bool_decide (r.(om_grantId) = Some grantId));
  mret tt.

(** ** By account *)

Definition is_model (modelName : string) (r : OidcModel) : bool := String.eqb r.(om_modelName) modelName.
Definition bound_model (r : OidcModel) : bool := mem_str r.(om_modelName) ACCOUNT_BOUND_MODELS.
Definition of_account (accountId : string) (r : OidcModel) : bool := bool_decide (r.(om_accountId) = Some accountId).

(** The record hangs off a grant of an account in [A]. *)
Definition under_grant (A : string -> bool) (d : DB) (r : OidcModel) : bool :=
  match r.(om_grantId) with
  | None => false
  | Some g =>
      existsb (fun x => is_model "Grant" x && String.eqb x.(om_oidcId) g &&
                        match x.(om_accountId) with Some a => A a | None => false end) (rows (oidc d))
  end.

(** The records of the accounts in [A] and of their grants. *)
Definition bound_to (A : string -> bool) (d : DB) (r : OidcModel) : bool :=
  (bound_model r && match r.(om_accountId) with Some a => A a | None => false end) || under_grant A d r.

Definition sessions_deleteAllForAccount (accountId : string) (m : Mgr) : Prog (list OidcModel) :=
  delete_where m (bound_to (String.eqb accountId)).

(** [SELECT id::text FROM tenant_user WHERE ...] *)
Definition accounts_of (tenantId : string) (role : TenantUserRole) (d : DB) (a : string) : bool :=
  existsb (fun u => String.eqb u.(tu_id) a && String.eqb u.(tu_tenantId) tenantId && has_role role u) (rows (users d)).

Definition sessions_deleteAllForTenantRole (tenantId : string) (role : TenantUserRole) (m : Mgr)
    : Prog (list OidcModel) :=
  delete_where m (fun d => bound_to (accounts_of tenantId role d) d).

(** ** Sessions *)

(** Object.values(payload.authorizations).map(a => a.grantId), the strings. *)
Definition extractGrantIds (payload : json) : list string :=
  match payload with
  | JObj o =>
      match assoc "authorizations" o with
      | Some (JObj authorizations) =>
          omap (fun kv => match kv.2 with JObj a => payload_str "grantId" a | _ => None end)
            (Encryption.object_entries authorizations)
      | Some (JArr l) =>
          omap (fun v => match v with JObj a => payload_str "grantId" a | _ => None end) l
      | _ => []
      end
  | _ => []
  end.

Record AccountSession := mkAccountSession {
  as_oidcId : string;
  as_createdAt : Z;
  as_grantIds : list string
}.

Definition session_of (r : OidcModel) : AccountSession :=
  mkAccountSession r.(om_oidcId) r.(om_createdAt) (extractGrantIds r.(om_payload)).

(** An unexpired session of the account at [now]. *)
Definition active_session (accountId : string) (now : Z) (r : OidcModel) : bool :=
  is_model SESSION_MODEL r && of_account accountId r &&
  match r.(om_expiresAt) with Some e => now <? e | None => true end.

Definition countActiveSessions (accountId : string) : Prog nat :=
  now ← now_us;
  read NoTx (fun d => count_rows (active_session accountId now) (oidc d)).

Definition deleteSessions (sessions : list AccountSession) : Prog (list OidcModel) :=
  match sessions with
  | [] => mret []
  | _ =>
      let oidcIds := map as_oidcId sessions in
      let grantIds := sessions ≫= as_grantIds in
      delete_where NoTx (fun _ r =>
        (is_model SESSION_MODEL r && mem_str r.(om_oidcId) oidcIds) ||
        match r.(om_grantId) with Some g => mem_str g grantIds | None => false end ||
        (is_model "Grant" r && mem_str r.(om_oidcId) grantIds))
  end.

Section Collation.
Context (collate : relation string) `{!RelDecision collate}.

(** [ORDER BY created_at DESC, oidc_id DESC] *)
Definition newest_first (r r' : OidcModel) : Prop :=
  r'.(om_createdAt) < r.(om_createdAt) \/
  (r'.(om_createdAt) = r.(om_createdAt) /\ collate r'.(om_oidcId) r.(om_oidcId)).
#[export] Instance newest_first_dec : RelDecision newest_first.
Proof. unfold newest_first. solve_decision. Defined.

Definition findActiveSessions (accountId : string) : Prog (list AccountSession) :=
  now ← now_us;
  read NoTx (fun d => map session_of
    (reverse (merge_sort newest_first (select (active_session accountId now) (oidc d))))).

(** The sessions beyond the newest [keep] of those that are not the new one. *)
Definition surplus (accountId : string) (keep : nat) (newSessionId : option string) (now : Z) (d : DB)
    : list OidcModel :=
  drop keep (merge_sort newest_first
    (select (fun r => active_session accountId now r &&
                      match newSessionId with Some s => negb (String.eqb r.(om_oidcId) s) | None => true end)
       (oidc d))).

Definition claimSurplusSessions (accountId : string) (limit : nat) (newSessionId : option string)
    : Prog (list AccountSession) :=
  now ← now_us;
  let keep := if truthy_str newSessionId then (limit - 1)%nat else limit in
  claimed ← delete_where NoTx (fun d r =>
    is_model SESSION_MODEL r &&
    mem_str r.(om_oidcId) (map om_oidcId (surplus accountId keep newSessionId now d)));
  mret (map session_of claimed).

(** SessionLimitService.enforce: the sessions before and the number evicted. *)
Definition enforce (limit : nat) (accountId : string) (newSessionId : option string) : Prog (nat * nat) :=
  if (limit =? 0)%nat then mret (0%nat, 0%nat)
  else
    priorSessionCount ← countActiveSessions accountId;
    evicted ← claimSurplusSessions accountId limit newSessionId;
    match evicted with
    | [] => mret (priorSessionCount, 0%nat)
    | _ => _ ← deleteSessions evicted; mret (priorSessionCount, length evicted)
    end.
End Collation.
