(* ===== verification/ConnectorRepository.v ===== *)
(** * Connectors: the table

    connector/connector.repository.ts over the connector_credential table, with
    the partial unique index on [agent_log_id_hash] and the foreign keys that
    point at a connector: those of credentials, exchanges, connections and
    credential definitions restrict its deletion, publication intents go with
    it. *)

From Stdlib Require Import ZArith Lia.
From stdpp Require Import base decidable strings sets gmap list list_relations sorting.
From S2P Require Import Prelude Js Entities StateMapping OperationTtl Db.

Local Open Scope Z_scope.

Definition AGENT_LOG_ID_UNIQUE_INDEX : string := "uq_connector_credential_agent_log_id_hash".

(** ** Constraints *)

(** Both rows are in the index and have the same key. *)
Definition same_binding (c c' : Connector) : bool :=
  c.(con_active) && c'.(con_active) && bool_decide (is_Some c.(con_agentLogIdHash)) &&
  bool_decide (c.(con_agentLogIdHash) = c'.(con_agentLogIdHash)).

Definition connector_conflict (id : string) (c : Connector) (t : gmap string Connector) : bool :=
  existsb (fun c' => negb (String.eqb c'.(con_id) id) && same_binding c c') (rows t).

Definition write_connector (m : Mgr) (id : string) (c : Connector) : Prog unit :=
  conflict ← read m (fun d => connector_conflict id c d.(db_connectors));
  if conflict : bool then throw (QueryFailed "23505" AGENT_LOG_ID_UNIQUE_INDEX)
  else modify m (fun d => set_connectors (<[id := c]> d.(db_connectors)) d).

Definition connector_referenced (id : string) (d : DB) : bool :=
  existsb (fun c => String.eqb c.(cr_connectorId) id) (rows d.(db_credentials)) ||
  existsb (fun x => String.eqb x.(ex_connectorId) id) (rows d.(db_exchanges)) ||
  existsb (fun c => bool_decide (c.(cn_connectorId) = Some id)) (rows d.(db_connections)) ||
  existsb (fun f => bool_decide (f.(df_connectorId) = Some id)) (rows d.(db_definitions)).

(** [DELETE ... WHERE id = id AND guard]: whether a row was affected. *)
Definition delete_connector (m : Mgr) (id : string) (guard : Connector -> bool) : Prog bool :=
  row ← read m (fun d => d.(db_connectors) !! id);
  match row with
  | Some c =>
      if guard c then
        referenced ← read m (connector_referenced id);
        if referenced : bool then throw (QueryFailed "23503" "")
        else
          _ ← modify m (fun d =>
                set_intents (filter (fun kv => kv.1.1.2 <> id) d.(db_intents))
                  (set_connectors (delete id d.(db_connectors)) d));
          mret true
      else mret false
  | None => mret false
  end.

(** ** Reads *)

Definition connectors_findById (id : string) : Prog (option Connector) :=
  read NoTx (fun d => d.(db_connectors) !! id).

(** A row of the tenant, locked in the source. *)
Definition connectors_findByTenantAndIdForUpdate (tenantId id : string) : Prog (option Connector) :=
  read Tx (fun d => match d.(db_connectors) !! id with
                    | Some c => if String.eqb c.(con_tenantId) tenantId then Some c else None
                    | None => None
                    end).

(** [ORDER BY createdAt DESC] *)
Definition newer (c c' : Connector) : Prop := c'.(con_createdAt) <= c.(con_createdAt).
#[export] Instance newer_dec c c' : Decision (newer c c').
Proof. unfold newer. apply _. Defined.

Definition list_connectors (P : Connector -> bool) : Prog (list Connector) :=
  read NoTx (fun d => merge_sort newer (select P d.(db_connectors))).

Definition connectors_findByTenant (tenantId : string) : Prog (list Connector) :=
  list_connectors (fun c => String.eqb c.(con_tenantId) tenantId).

Definition connectors_findByTenantAndConnectorType (tenantId : string) (type : ConnectorType)
    : Prog (list Connector) :=
  list_connectors (fun c => String.eqb c.(con_tenantId) tenantId && bool_decide (c.(con_type) = type)).

Definition connectors_findByTenantAndConnectorTypeAndActive (tenantId : string) (type : ConnectorType)
    (active : bool) : Prog (list Connector) :=
  list_connectors (fun c => String.eqb c.(con_tenantId) tenantId && bool_decide (c.(con_type) = type) &&
                            Bool.eqb c.(con_active) active).

Definition connectors_findActiveByTenantAndId (tenantId id : string) : Prog (option Connector) :=
  read NoTx (fun t => match t.(db_connectors) !! id with
                      | Some c => if String.eqb c.(con_tenantId) tenantId && c.(con_active)
                                  then Some c else None
                      | None => None
                      end).

Definition connectors_existsOtherActiveWithAgentLogIdHash (hash excludeId : string) : Prog bool :=
  read NoTx (fun d => existsb (fun c => bool_decide (c.(con_agentLogIdHash) = Some hash) &&
                                        c.(con_active) && negb (String.eqb c.(con_id) excludeId))
                        (rows d.(db_connectors))).

(** ** Writes *)

Definition connectors_create (mk : string -> Z -> Connector) : Prog Connector :=
  id ← gen_uuid;
  now ← now_us;
  taken ← read NoTx (fun t => bool_decide (is_Some (t.(db_connectors) !! id)));
  if taken : bool then throw (QueryFailed "23505" "connector_credential_pkey")
  else _ ← write_connector NoTx id (mk id now); mret (mk id now).

(** The columns an update may carry. *)
Record ConnectorUpdates := mkConnectorUpdates {
  cu_endpointUrl : option string;
  cu_credentials : option (string * jsnum);        (* credentialsEncrypted, keyVersion *)
  cu_agentLogIdHash : option (option string)
}.

Definition no_updates : ConnectorUpdates := mkConnectorUpdates None None None.

Definition has_updates (u : ConnectorUpdates) : bool :=
  bool_decide (is_Some u.(cu_endpointUrl)) || bool_decide (is_Some u.(cu_credentials)) ||
  bool_decide (is_Some u.(cu_agentLogIdHash)).

Definition apply_updates (u : ConnectorUpdates) (now : Z) (c : Connector) : Connector :=
  let '(ciphertext, version) := default (c.(con_credentialsEncrypted), c.(con_keyVersion)) u.(cu_credentials) in
  mkConnector c.(con_id) c.(con_tenantId) c.(con_type) (default c.(con_endpointUrl) u.(cu_endpointUrl))
    c.(con_active) ciphertext version (default c.(con_agentLogIdHash) u.(cu_agentLogIdHash))
    c.(con_createdAt) now.

(** The statements of [updateWithLock], in the caller's transaction.  The callback
    returns the columns to write, and what it tells its caller. *)
Definition locked_update {A} (tenantId id : string) (buildUpdates : Connector -> Prog (ConnectorUpdates * A))
    : Prog (option (Connector * A)) :=
  existing ← connectors_findByTenantAndIdForUpdate tenantId id;
  match existing with
  | None => mret None
  | Some c =>
      r ← buildUpdates c;
      _ ← (if has_updates r.1 then now ← now_us; write_connector Tx id (apply_updates r.1 now c) else mret tt);
      row ← connectors_findByTenantAndIdForUpdate tenantId id;
      mret ((fun c' => (c', r.2)) <$> row)
  end.

(** With a manager the caller's transaction is used, without one its own. *)
Definition connectors_updateWithLock {A} (tenantId id : string)
    (buildUpdates : Connector -> Prog (ConnectorUpdates * A)) (m : Mgr) : Prog (option (Connector * A)) :=
  match m with
  | Tx => locked_update tenantId id buildUpdates
  | NoTx => transaction (locked_update tenantId id buildUpdates)
  end.

Definition connectors_delete (id : string) : Prog unit :=
  _ ← delete_connector NoTx id (fun _ => true); mret tt.

Inductive ConnectorDeletionResult := Deleted | IsDefault | DeletionNotFound.

Definition connectors_deleteUnlessDefault (tenantId id : string) : Prog ConnectorDeletionResult :=
  transaction
    (tenant ← read Tx (fun d => find_tenant tenantId d.(db_tenants));
     match tenant with
     | None => mret DeletionNotFound
     | Some t =>
         if bool_decide (get_prop "default_connector" t.(tn_config) = Some (JStr id)) then mret IsDefault
         else
           affected ← delete_connector Tx id (fun c => String.eqb c.(con_tenantId) tenantId);
           mret (if affected : bool then Deleted else DeletionNotFound)
     end).

Definition con_deactivate (now : Z) (c : Connector) : Connector :=
  mkConnector c.(con_id) c.(con_tenantId) c.(con_type) c.(con_endpointUrl) false
    c.(con_credentialsEncrypted) c.(con_keyVersion) c.(con_agentLogIdHash) c.(con_createdAt) now.

Definition is_active_of (tenantId : string) (c : Connector) : bool :=
  String.eqb c.(con_tenantId) tenantId && c.(con_active).

(** One UPDATE; deactivating rows cannot violate the index. *)
Definition connectors_deactivateAllForTenant (tenantId : string) : Prog nat :=
  now ← now_us;
  count ← read NoTx (fun d => count_rows (is_active_of tenantId) d.(db_connectors));
  _ ← modify NoTx (fun d =>
        set_connectors ((fun c => if is_active_of tenantId c then con_deactivate now c else c)
                          <$> d.(db_connectors)) d);
  mret count.
