(* ===== verification/Auth.v ===== *)
(** * Request authorisation

    Models common/assert-tenant-access.ts and, of libs/auth, the scope
    constants, ScopeAuthorizationService, TenantGuard and ScopeGuard.  The
    guards run on the context JwtGuard attached; [None] is a request without
    one. *)

From Stdlib Require Import Ascii ZArith Lia.
From stdpp Require Import base decidable strings sets gmap list list_relations.
From S2P Require Import Prelude Js Entities StateMapping OperationTtl Db.

Inductive AuthTokenType := user_token | client_token.

Record AuthContext := mkAuth {
  au_sub : string;
  au_tokenType : AuthTokenType;
  au_tenantId : option string;
  au_roles : list string;
  au_scopes : list string
}.

(** ** Scopes *)

Definition TENANT_SUPERUSER_SCOPE : string := "tenants:admin".
Definition PLATFORM_ADMIN_ROLE : string := "platform-admin".

Definition LEVEL2_SCOPES : list string :=
  ["credentials:offer"; "credentials:verify"; "credentials:hold"; "credentials:revoke";
   "connections:manage"; "profiles:manage"; "users:manage"; "clients:manage"].
Definition LEVEL3_SCOPES : list string := ["logs:read"; "audit:read"].
Definition ALL_TENANT_SCOPES : list string := LEVEL2_SCOPES ++ LEVEL3_SCOPES.

Definition role_isPlatformAdmin (roles : list string) : bool := mem_str PLATFORM_ADMIN_ROLE roles.

Definition hasRequiredRoles (tokenRoles requiredRoles : list string) : bool :=
  forallb (fun r => mem_str r tokenRoles) requiredRoles.

Definition expandEffectiveScopes (tokenScopes : list string) : list string :=
  if mem_str TENANT_SUPERUSER_SCOPE tokenScopes then tokenScopes ++ ALL_TENANT_SCOPES
  else tokenScopes.

Definition hasRequiredScopes (tokenScopes requiredScopes : list string) : bool :=
  forallb (fun s => mem_str s (expandEffectiveScopes tokenScopes)) requiredScopes.

(** ** Assertions in services *)

Definition isPlatformAdmin (auth : option AuthContext) : bool :=
  match auth with Some a => mem_str PLATFORM_ADMIN_ROLE a.(au_roles) | None => false end.

Definition assertTenantAccess (auth : option AuthContext) (tenantId : string) : Exn + unit :=
  match auth with
  | None => inl (ForbiddenException "Authenticated request context is missing")
  | Some a =>
      if mem_str PLATFORM_ADMIN_ROLE a.(au_roles) then inr tt
      else if negb (truthy_str a.(au_tenantId)) then
        inl (ForbiddenException "Token is missing a tenant_id claim")
      else if bool_decide (a.(au_tenantId) = Some tenantId) then inr tt
      else inl (ForbiddenException "Token tenant_id does not match the requested tenant")
  end.

Definition assertResourceTenantOrNotFound (auth : option AuthContext)
    (resourceTenantId notFoundMessage : string) : Exn + unit :=
  match auth with
  | None => inl (NotFoundException notFoundMessage)
  | Some a =>
      if mem_str PLATFORM_ADMIN_ROLE a.(au_roles) then inr tt
      else if negb (truthy_str a.(au_tenantId)) ||
              negb (bool_decide (a.(au_tenantId) = Some resourceTenantId))
      then inl (NotFoundException notFoundMessage)
      else inr tt
  end.

(** ** Guards *)

(** [resolveRouteTenantId]: the trimmed [:tenantId] parameter, if there is one. *)
Definition resolveRouteTenantId (param : option string) : option string :=
  match param with
  | Some raw => let t := js_trim raw in if truthy_str (Some t) then Some t else None
  | None => None
  end.

(** TenantGuard.canActivate: the tenant stamped on the request, if any. *)
Definition tenantGuard_canActivate (auth : option AuthContext) (param : option string)
    : Exn + option string :=
  match auth with
  | None => inl (UnauthorizedException "Authenticated request context is missing")
  | Some a =>
      match resolveRouteTenantId param with
      | None => inr None
      | Some t =>
          if role_isPlatformAdmin a.(au_roles) then inr (Some t)
          else if negb (truthy_str a.(au_tenantId)) then
            inl (ForbiddenException "Token is missing a tenant_id claim")
          else if bool_decide (a.(au_tenantId) = Some t) then inr (Some t)
          else inl (ForbiddenException "Token tenant_id does not match the requested tenant")
      end
  end.

(** ScopeGuard.canActivate *)
Definition scopeGuard_canActivate (auth : option AuthContext) (requiredRoles requiredScopes : list string)
    : Exn + unit :=
  match auth with
  | None => inl (UnauthorizedException "Authenticated request context is missing")
  | Some a =>
      if role_isPlatformAdmin a.(au_roles) then inr tt
      else if (length requiredRoles =? 0) && (length requiredScopes =? 0) then inr tt
      else if (0 <? length requiredRoles) && negb (hasRequiredRoles a.(au_roles) requiredRoles) then
        inl (ForbiddenException "Token missing required role")
      else if (0 <? length requiredScopes) && negb (hasRequiredScopes a.(au_scopes) requiredScopes)
      then inl (ForbiddenException "Token missing required scope")
      else inr tt
  end.

(** ** What the guards admit *)

Lemma mem_str_In x l : mem_str x l = true <-> In x l.
Proof. rewrite mem_str_spec. apply list_elem_of_In. Qed.

Lemma hasRequiredScopes_spec token required :
  hasRequiredScopes token required = true <->
  forall s, s ∈ required ->
    s ∈ token \/ (TENANT_SUPERUSER_SCOPE ∈ token /\ s ∈ ALL_TENANT_SCOPES).
Proof.
  unfold hasRequiredScopes. rewrite forallb_forall.
  assert (forall s, mem_str s (expandEffectiveScopes token) = true <->
    s ∈ token \/ (TENANT_SUPERUSER_SCOPE ∈ token /\ s ∈ ALL_TENANT_SCOPES)) as Hs.
  { intros s. rewrite mem_str_spec. unfold expandEffectiveScopes.
    destruct (mem_str TENANT_SUPERUSER_SCOPE token) eqn:E.
    - apply mem_str_spec in E. rewrite elem_of_app. tauto.
    - apply mem_str_false in E. tauto. }
  setoid_rewrite Hs. split; intros H s Hin; apply H; by apply list_elem_of_In.
Qed.

Lemma hasRequiredRoles_spec token required :
  hasRequiredRoles token required = true <-> forall r, r ∈ required -> r ∈ token.
Proof.
  unfold hasRequiredRoles. rewrite forallb_forall.
  split; intros H s Hs; [apply mem_str_spec, H|apply mem_str_spec, H]; by apply list_elem_of_In.
Qed.

(** The conditionals of ScopeGuard for a caller who is not a platform admin. *)
Lemma scope_checks {E} (n m : nat) (br bs : bool) (e1 e2 : E) :
  (n = 0 -> br = true) -> (m = 0 -> bs = true) ->
  (if (n =? 0) && (m =? 0) then inr tt
   else if (0 <? n) && negb br then inl e1
   else if (0 <? m) && negb bs then inl e2
   else inr tt) = inr (A:=E) tt <-> br = true /\ bs = true.
Proof. destruct n, m, br, bs; simpl; naive_solver. Qed.

(** Who gets past the route guards.  A request to a tenant route that needs
    [scopes] and [roles] passes TenantGuard and ScopeGuard exactly when it is
    authenticated and either holds the platform-admin role, or its token's tenant
    is the (trimmed, non-empty) route tenant and it has every required role and
    every required scope, the tenant superuser scope standing for every
    tenant-level scope. *)
Theorem route_guards_admit auth param t roles scopes :
  resolveRouteTenantId param = Some t ->
  (tenantGuard_canActivate auth param = inr (Some t) /\
   scopeGuard_canActivate auth roles scopes = inr tt) <->
  exists a, auth = Some a /\
    (PLATFORM_ADMIN_ROLE ∈ a.(au_roles) \/
     (a.(au_tenantId) = Some t /\ (forall r, r ∈ roles -> r ∈ a.(au_roles)) /\
      (forall s, s ∈ scopes ->
         s ∈ a.(au_scopes) \/
         (TENANT_SUPERUSER_SCOPE ∈ a.(au_scopes) /\ s ∈ ALL_TENANT_SCOPES)))).
Proof.
  intros Ht. unfold tenantGuard_canActivate, scopeGuard_canActivate. rewrite Ht.
  destruct auth as [a|]; [|naive_solver].
  assert (t <> "") as Hne.
  { unfold resolveRouteTenantId in Ht. destruct param as [p|]; [|done].
    destruct (js_trim p) eqn:E; simpl in Ht; congruence. }
  setoid_rewrite <-hasRequiredScopes_spec. setoid_rewrite <-hasRequiredRoles_spec.
  unfold role_isPlatformAdmin. destruct (mem_str PLATFORM_ADMIN_ROLE (au_roles a)) eqn:Epa.
  { apply mem_str_spec in Epa. naive_solver. }
  apply mem_str_false in Epa.
  transitivity (au_tenantId a = Some t /\ hasRequiredRoles (au_roles a) roles = true /\
                hasRequiredScopes (au_scopes a) scopes = true); [|naive_solver].
  case_bool_decide as Hat.
  - rewrite Hat. assert (truthy_str (Some t) = true) as -> by (destruct t; done). simpl.
    rewrite scope_checks; [tauto|by destruct roles|by destruct scopes].
  - split; [|naive_solver]. intros [H _]. destruct (truthy_str (au_tenantId a)); done.
Qed.

Definition sample_auth : AuthContext :=
  mkAuth "u" user_token (Some "t") ["admin"] ["tenants:admin"].

Lemma route_guards_admit_witness :
  tenantGuard_canActivate (Some sample_auth) (Some " t ") = inr (Some "t") /\
  scopeGuard_canActivate (Some sample_auth) ["admin"] ["connections:manage"] = inr tt.
Proof.
  apply (route_guards_admit (Some sample_auth) (Some " t ") "t" ["admin"] ["connections:manage"]).
  - reflexivity.
  - exists sample_auth. split; [reflexivity|]. right. split; [reflexivity|]. split.
    + simpl. intros r Hr. exact Hr.
    + intros s Hs. right. apply list_elem_of_singleton in Hs as ->.
      split; [left|]. apply mem_str_spec. reflexivity.
Defined.

Lemma assertTenantAccess_ok auth tenantId :
  assertTenantAccess auth tenantId = inr tt ->
  exists a, auth = Some a /\
    (PLATFORM_ADMIN_ROLE ∈ a.(au_roles) \/ a.(au_tenantId) = Some tenantId).
Proof.
  unfold assertTenantAccess. destruct auth as [a|]; [|done]. intros H. exists a. split; [done|].
  destruct (mem_str PLATFORM_ADMIN_ROLE (au_roles a)) eqn:E; [left; by apply mem_str_spec|right].
  case_bool_decide; [done|]. by destruct (negb _).
Qed.

Lemma assertResourceTenant_ok auth tenantId msg :
  assertResourceTenantOrNotFound auth tenantId msg = inr tt ->
  exists a, auth = Some a /\
    (PLATFORM_ADMIN_ROLE ∈ a.(au_roles) \/ a.(au_tenantId) = Some tenantId).
Proof.
  unfold assertResourceTenantOrNotFound. destruct auth as [a|]; [|done]. intros H.
  exists a. split; [done|].
  destruct (mem_str PLATFORM_ADMIN_ROLE (au_roles a)) eqn:E; [left; by apply mem_str_spec|right].
  case_bool_decide as Hb; [done|]. by rewrite orb_true_r in H.
Qed.
