(* ===== verification/TenantUserService.v ===== *)
(** * Tenant users

    tenant-user/tenant-user.service.ts, the membership guard in front of it
    (tenant-membership.guard.ts) and the port through which sign-in reaches it
    (oidc-tenant-user.adapter.ts).  [others] is what other requests commit where
    the source awaits between a read and the write that depends on it outside a
    transaction.  Updates and removals lock the tenant's row first, so they run
    one after the other. *)

From Stdlib Require Import ZArith Lia.
From stdpp Require Import base decidable strings sets gmap list list_relations.
From S2P Require Import Prelude Js Entities StateMapping OperationTtl Db Pagination.
From S2P Require Import TenantRepository Auth.

Local Open Scope Z_scope.

(** ** Requests *)

Record InviteTenantUserDto := mkInviteUser { iu_email : string; iu_role : TenantUserRole }.

Record CreateTenantUserDto := mkCreateUser {
  cu_tenantId : string;
  cu_externalUserId : string;
  cu_email : string;
  cu_displayName : option string;
  cu_role : option TenantUserRole;
  cu_status : option TenantUserStatus
}.

(** [undefined], [null] (which the validators let through) or a value. *)
Record UpdateTenantUserDto := mkUpdateUser {
  uu_email : option (option string);
  uu_displayName : option (option string);
  uu_role : option (option TenantUserRole);
  uu_status : option (option TenantUserStatus)
}.

(** The entity that is saved; [null] in a column that does not take it is refused
    by the database. *)
Definition edited_user (dto : UpdateTenantUserDto) (u : TenantUser) : Exn + TenantUser :=
  match default (Some u.(tu_email)) dto.(uu_email), default (Some u.(tu_role)) dto.(uu_role),
        default (Some u.(tu_status)) dto.(uu_status) with
  | Some email, Some role, Some status =>
      inr (tu_edit email (default u.(tu_displayName) dto.(uu_displayName)) role status u)
  | _, _, _ => inl (QueryFailed "23502" "")
  end.

(** ** Checks *)

Definition isAdministrator (role : TenantUserRole) : bool :=
  bool_decide (role = OWNER) || bool_decide (role = ADMIN).

Definition assertMayManageOwner (callerTenantUser : option TenantUser) (touchesOwner : bool)
    : Exn + unit :=
  match callerTenantUser with
  | Some c =>
      if touchesOwner && negb (has_role OWNER c)
      then inl (ForbiddenException "Only an owner can grant the owner role or act on an owner.")
      else inr tt
  | None => inr tt
  end.

Definition user_not_found (id : string) : Exn :=
  NotFoundException ("Tenant user '" +:+ id +:+ "' was not found.").

Definition findCurrentCaller (tenantId targetId : string) (target : TenantUser)
    (callerTenantUser : option TenantUser) : Prog (option TenantUser) :=
  match callerTenantUser with
  | None => mret None
  | Some c =>
      caller ← (if String.eqb c.(tu_id) targetId then mret (Some target)
                else users_findByTenantAndId tenantId c.(tu_id) Tx);
      match caller with
      | Some u =>
          if is_active_user u && isAdministrator u.(tu_role) then mret (Some u)
          else throw (ForbiddenException "An active tenant owner or admin is required to manage users.")
      | None => throw (ForbiddenException "An active tenant owner or admin is required to manage users.")
      end
  end.

Definition assertAnotherAdministratorRemains (tenantId : string) : Prog unit :=
  administratorCount ← users_countActiveAdministratorsByTenant tenantId Tx;
  if (administratorCount <=? 1)%nat
  then throw (ConflictException "Cannot remove the tenant's last active administrator.")
  else mret tt.

(** ** Operations *)

Section Service.
Context (others : Prog unit).

(** With a manager the caller emits the audit event. *)
Definition user_invite (tenantId : string) (dto : InviteTenantUserDto)
    (callerTenantUser : option TenantUser) (m : Mgr) : Prog TenantUser :=
  _ ← of_sum (assertMayManageOwner callerTenantUser (bool_decide (dto.(iu_role) = OWNER)));
  existing ← users_findByTenantAndEmail tenantId dto.(iu_email) m;
  match existing with
  | Some _ => throw (ConflictException "A tenant user with this email already exists for this tenant.")
  | None =>
      _ ← (match m with NoTx => others | Tx => mret tt end);
      created ← users_create (fun id now =>
        mkTenantUser id tenantId None dto.(iu_email) None dto.(iu_role) TU_INVITED false now now) m;
      _ ← (match m with
           | NoTx => audit_emit NoTx created.(tu_tenantId) "create" "tenant_user" created.(tu_id)
           | Tx => mret tt
           end);
      mret created
  end.

Definition user_create (dto : CreateTenantUserDto) : Prog TenantUser :=
  existing ← users_findByTenantAndExternalUserId dto.(cu_tenantId) dto.(cu_externalUserId);
  match existing with
  | Some _ => throw (ConflictException "User already belongs to this tenant.")
  | None =>
      _ ← others;
      created ← users_create (fun id now =>
        mkTenantUser id dto.(cu_tenantId) (Some dto.(cu_externalUserId)) dto.(cu_email)
          dto.(cu_displayName) (default MEMBER dto.(cu_role)) (default TU_INVITED dto.(cu_status))
          false now now) NoTx;
      _ ← audit_emit NoTx created.(tu_tenantId) "create" "tenant_user" created.(tu_id);
      mret created
  end.

Definition user_findById (id : string) : Prog TenantUser :=
  row ← users_findById id;
  match row with Some u => mret u | None => throw (user_not_found id) end.

(** Whether the caller could still step down. *)
Definition selfActionsAllowed (tenantId callerId : string) : Prog bool :=
  row ← users_findByTenantAndId tenantId callerId NoTx;
  match row with
  | Some caller =>
      if is_active_user caller && isAdministrator caller.(tu_role) then
        administratorCount ← users_countActiveAdministratorsByTenant tenantId NoTx;
        if has_role OWNER caller then
          activeOwnerCount ← users_countActiveOwnersByTenant tenantId NoTx;
          mret ((1 <? administratorCount)%nat && (1 <? activeOwnerCount)%nat)
        else mret (1 <? administratorCount)%nat
      else mret false
  | None => mret false
  end.

Definition user_list (tenantId : string) (limit : option nat) (cursor : option Cursor)
    (search : option string) (callerTenantUser : option TenantUser) (callerUserId : option string)
    : Prog (Page * bool) :=
  page ← users_findPageForTenant tenantId (default 20%nat limit) cursor
           (if truthy_str (js_trim <$> search) then js_trim <$> search else None);
  allowed ← (match (match callerTenantUser with Some u => Some u.(tu_id) | None => callerUserId end) with
             | Some callerId => if truthy_str (Some callerId) then selfActionsAllowed tenantId callerId
                                else mret false
             | None => mret false
             end);
  mret (page, allowed).

(** The loop of [claimAllInvitedByEmail]. *)
Fixpoint claim_invites (externalUserId : string) (takenTenantIds : list string) (invites : list TenantUser)
    : Prog (list TenantUser) :=
  match invites with
  | [] => mret []
  | invite :: rest =>
      if mem_str invite.(tu_tenantId) takenTenantIds then claim_invites externalUserId takenTenantIds rest
      else
        let taken := invite.(tu_tenantId) :: takenTenantIds in
        _ ← others;
        claimed ← users_claimInvitedById invite.(tu_id) externalUserId;
        match claimed with
        | None => claim_invites externalUserId taken rest
        | Some u =>
            _ ← audit_emit NoTx u.(tu_tenantId) "update" "tenant_user" u.(tu_id);
            us ← claim_invites externalUserId taken rest;
            mret (u :: us)
        end
  end.

Definition user_claimAllInvitedByEmail (email externalUserId : string) : Prog (list TenantUser) :=
  invites ← users_findUnclaimedInvitesByEmail email;
  match invites with
  | [] => mret []
  | _ =>
      existing ← users_findByExternalUserId externalUserId;
      claim_invites externalUserId (map tu_tenantId existing) invites
  end.

(** The guards of an update, in the order of the source. *)
Definition update_checks (tenantId : string) (dto : UpdateTenantUserDto) (u : TenantUser)
    (caller : option TenantUser) : Prog unit :=
  let changes_role r := match dto.(uu_role) with Some r' => negb (bool_decide (r' = Some r)) | None => false end in
  let leaves_active := match dto.(uu_status) with
                       | Some s => negb (bool_decide (s = Some TU_ACTIVE)) | None => false end in
  let not_administrator := match dto.(uu_role) with
                           | Some (Some r) => negb (isAdministrator r) | Some None => true
                           | None => false end in
  _ ← of_sum (assertMayManageOwner caller (bool_decide (dto.(uu_role) = Some (Some OWNER)) || has_role OWNER u));
  _ ← (if changes_role u.(tu_role) && has_role OWNER u then
         ownerCount ← users_countByTenantAndRole tenantId OWNER Tx;
         if (ownerCount <=? 1)%nat
         then throw (ConflictException "Cannot change the role of the tenant's last owner.") else mret tt
       else mret tt);
  _ ← (if is_active_user u && has_role OWNER u && (changes_role OWNER || leaves_active) then
         activeOwnerCount ← users_countActiveOwnersByTenant tenantId Tx;
         if (activeOwnerCount <=? 1)%nat
         then throw (ConflictException "Cannot change access for the tenant's last active owner.") else mret tt
       else mret tt);
  if is_active_user u && isAdministrator u.(tu_role) && (not_administrator || leaves_active)
  then assertAnotherAdministratorRemains tenantId else mret tt.

Definition user_update (tenantId id : string) (dto : UpdateTenantUserDto)
    (callerTenantUser : option TenantUser) : Prog TenantUser :=
  updated ← transaction
    (_ ← tenants_findByIdForUpdate tenantId;
     row ← users_findByTenantAndId tenantId id Tx;
     match row with
     | None => throw (user_not_found id)
     | Some u =>
         caller ← findCurrentCaller tenantId id u callerTenantUser;
         _ ← update_checks tenantId dto u caller;
         edited ← of_sum (edited_user dto u);
         users_update edited Tx
     end);
  _ ← audit_emit NoTx updated.(tu_tenantId) "update" "tenant_user" updated.(tu_id);
  mret updated.

Definition user_setPlatformOperator (id : string) (isPlatformOperator : bool) : Prog TenantUser :=
  u ← user_findById id;
  _ ← others;
  updated ← users_update (tu_set_operator isPlatformOperator u) NoTx;
  _ ← audit_emit NoTx updated.(tu_tenantId) "update" "tenant_user" updated.(tu_id);
  mret updated.

Definition delete_checks (tenantId : string) (u : TenantUser) (caller : option TenantUser) : Prog unit :=
  _ ← of_sum (assertMayManageOwner caller (has_role OWNER u));
  _ ← (if has_role OWNER u then
         ownerCount ← users_countByTenantAndRole tenantId OWNER Tx;
         if (ownerCount <=? 1)%nat then throw (ConflictException "Cannot remove the tenant's last owner.")
         else if is_active_user u then
           activeOwnerCount ← users_countActiveOwnersByTenant tenantId Tx;
           if (activeOwnerCount <=? 1)%nat
           then throw (ConflictException "Cannot remove the tenant's last active owner.") else mret tt
         else mret tt
       else mret tt);
  if is_active_user u && isAdministrator u.(tu_role)
  then assertAnotherAdministratorRemains tenantId else mret tt.

Definition user_delete (tenantId id : string) (callerTenantUser : option TenantUser) : Prog unit :=
  removed ← transaction
    (_ ← tenants_findByIdForUpdate tenantId;
     row ← users_findByTenantAndId tenantId id Tx;
     match row with
     | None => throw (user_not_found id)
     | Some u =>
         caller ← findCurrentCaller tenantId id u callerTenantUser;
         _ ← delete_checks tenantId u caller;
         _ ← users_delete id Tx;
         mret u
     end);
  audit_emit NoTx removed.(tu_tenantId) "delete" "tenant_user" id.
End Service.

(** ** In front of the service *)

(** TenantMembershipGuard.canActivate: the caller's own row, when one is required;
    [None] for a platform administrator. *)
Definition membershipGuard_canActivate (auth : option AuthContext) (requiredRoles : list TenantUserRole)
    (param : option string) : Prog (option TenantUser) :=
  match auth with
  | None => throw (UnauthorizedException "Authenticated request context is missing")
  | Some a =>
      if role_isPlatformAdmin a.(au_roles) then mret None
      else match requiredRoles, resolveRouteTenantId param with
      | [], _ | _, None => mret None
      | _, Some tenantId =>
          match a.(au_tokenType) with
          | client_token => throw (InsufficientTenantRoleException "Only tenant users can hold a tenant role")
          | user_token =>
              row ← users_findByTenantAndId tenantId a.(au_sub) NoTx;
              match row with
              | Some u =>
                  if is_active_user u && bool_decide (u.(tu_role) ∈ requiredRoles) then mret (Some u)
                  else throw (InsufficientTenantRoleException
                         "Caller does not have a sufficient tenant role for this action")
              | None => throw (InsufficientTenantRoleException
                         "Caller does not have a sufficient tenant role for this action")
              end
          end
      end
  end.

(** OidcTenantUserAdapter.findById: a missing row is [undefined], other errors pass. *)
Definition adapter_findById (id : string) : Prog (option TenantUser) :=
  catch (u ← user_findById id; mret (Some u))
    (fun e => match e with NotFoundException _ => mret None | _ => throw e end).

(** The routes of TenantUserController behind the guard; [others] runs while the
    guard's answer is on its way to the service. *)
Inductive UserRequest :=
| Invite (dto : InviteTenantUserDto)
| Update (id : string) (dto : UpdateTenantUserDto)
| Remove (id : string).

Definition run_user_request (others : Prog unit) (tenantId : string) (caller : option TenantUser)
    (q : UserRequest) : Prog unit :=
  match q with
  | Invite dto => _ ← user_invite others tenantId dto caller NoTx; mret tt
  | Update id dto => _ ← user_update tenantId id dto caller; mret tt
  | Remove id => user_delete tenantId id caller
  end.

Definition user_route (others : Prog unit) (tenantId : string) (auth : option AuthContext)
    (q : UserRequest) : Prog unit :=
  caller ← membershipGuard_canActivate auth [OWNER; ADMIN] (Some tenantId);
  _ ← others;
  run_user_request others tenantId caller q.
