(* ===== verification/ConnectorService.v ===== *)
(** * Connectors: credentials and lookups

    Of connector/connector.service.ts the encryption of a connector's credentials,
    the binding of its agent log identifier, the lazy rotation of the key a row is
    encrypted under, and the lookups; connector-health-check.service.ts and the
    interface AbstractConnector (connectors/abstract-connector.service.ts) as the
    record [ConnectorManager] with its laws.  [ConnectorAdmin] has the operations
    that change connectors.

    Credentials are objects of strings: what the service stores it has validated or
    built itself ([Connector_wf] is kept by every operation), so a decrypted value of
    another shape is outside the model and is refused here. *)

From Stdlib Require Import Ascii ZArith Lia.
From stdpp Require Import base decidable strings sets gmap list list_relations sorting.
From S2P Require Import Prelude Js OperationTtl JsText Entities StateMapping Db LogPartition Encryption.
From S2P Require Import ConnectorRepository Auth.

Local Open Scope Z_scope.

Definition Credentials : Type := list (string * string).

(** ** Managers *)

Record ConnectorHealthCheckResult := mkHealth {
  hc_healthy : bool;                       (* status === 'healthy' *)
  hc_latencyMs : Z;
  hc_message : option string;
  hc_agentLogId : option string
}.

(** What an agent is called with: the connector and its decrypted credentials. *)
Record ConnectorContext := mkContext {
  cx_connectorId : string;
  cx_tenantId : string;
  cx_endpointUrl : string;
  cx_credentials : Credentials
}.

(** AbstractConnector.  [prepareCredentials] mutates its argument: the result is the
    object afterwards. *)
Record ConnectorManager := mkManager {
  cm_check : string -> Credentials -> Prog ConnectorHealthCheckResult;
  cm_prepareCredentials : Credentials -> Prog Credentials;
  cm_mergeCredentials : Credentials -> Credentials -> Credentials;
  cm_ensureWebhookRegistered : ConnectorContext -> Prog unit;
  cm_isWebhookRegistered : ConnectorContext -> Prog bool;
  cm_evict : string -> Prog unit
}.

(** While a manager talks to its agent the tables move only along [R]; the objects it
    builds have each key once. *)
Class ManagerLaws (R : relation DB) (m : ConnectorManager) : Prop := {
  ml_check u c : Pres R (m.(cm_check) u c);
  ml_prepare c : Pres R (m.(cm_prepareCredentials) c);
  ml_prepare_keys c w w' c' :
    NoDup c.*1 -> m.(cm_prepareCredentials) c w = (w', inr c') -> NoDup c'.*1;
  ml_merge_keys c u : NoDup c.*1 -> NoDup (m.(cm_mergeCredentials) c u).*1;
  ml_ensure c : Pres R (m.(cm_ensureWebhookRegistered) c);
  ml_isRegistered c : Pres R (m.(cm_isWebhookRegistered) c);
  ml_evict i : Pres R (m.(cm_evict) i)
}.
#[export] Existing Instances ml_check ml_prepare ml_ensure ml_isRegistered ml_evict.

(** What the module is configured with: the keys, AES-GCM and HMAC, the random bytes
    of the process, drawn from the same supply as identifiers, and the managers. *)
Record ConnectorEnv := mkConnectorEnv {
  ce_gcm : Gcm;
  ce_hmac : string -> string -> string;
  ce_keys : KeyProvider;
  ce_bytes : nat -> string -> string;
  ce_managers : ConnectorType -> option ConnectorManager
}.

Class EnvLaws (e : ConnectorEnv) : Prop := {
  el_gcm : GcmLaws e.(ce_gcm);
  el_bytes n u : String.length (e.(ce_bytes) n u) = n
}.
#[export] Existing Instance el_gcm.

Section Service.
Context (env : ConnectorEnv).

Definition randomBytes (n : nat) : Prog string := u ← gen_uuid; mret (env.(ce_bytes) n u).

(** ** Credentials *)

Definition as_strings (o : list (string * json)) : option Credentials :=
  mapM (fun kv => match kv.2 with JStr s => Some (kv.1, s) | _ => None end) o.

Definition decrypt_credentials (c : Connector) : Exn + Credentials :=
  match decrypt env.(ce_gcm) env.(ce_keys) c.(con_credentialsEncrypted) c.(con_keyVersion) with
  | inl e => inl e
  | inr (JObj o) =>
      match as_strings o with Some cs => inr cs | None => inl (JsError "not an object of strings") end
  | inr _ => inl (JsError "not an object of strings")
  end.

(** [encryptionService.encrypt] with its random IV. *)
Definition encrypt_credentials (cs : Credentials) : Prog EncryptionResult :=
  iv ← randomBytes IV_LENGTH;
  of_sum (encrypt env.(ce_gcm) env.(ce_keys) iv cs).

Definition withAgentLogId (credentials : Credentials) (agentLogId : option string) : Credentials :=
  let rest := dissoc "agentLogId" credentials in
  match agentLogId with
  | None => rest
  | Some i => assoc_set "agentLogId" i rest
  end.

Definition AGENT_LOG_ID_BINDING_DOMAIN : string := "connector-agent-log-id:v1".

Definition hashAgentLogId (connectorType : ConnectorType) (agentLogId : option string)
    : Exn + option string :=
  match agentLogId with
  | None => inr None
  | Some i =>
      match formatAgentLogBindingKey connectorType i with
      | inl e => inl e
      | inr key =>
          match deriveBlindIndex env.(ce_hmac) env.(ce_keys) AGENT_LOG_ID_BINDING_DOMAIN key with
          | inl e => inl e
          | inr h => inr (Some h)
          end
      end
  end.

Definition AGENT_LOG_ID_CONFLICT_MESSAGE : string :=
  "This agent sub-wallet is already bound to another connector.".

(** The rethrow of [throwIfAgentLogIdConflict]. *)
Definition rethrowConflict {A} (e : Exn) : Prog A :=
  if violates AGENT_LOG_ID_UNIQUE_INDEX e then throw (ConflictException AGENT_LOG_ID_CONFLICT_MESSAGE)
  else throw e.

(** ** Health *)

(** ConnectorHealthCheckService.check *)
Definition health_check (connectorType : ConnectorType) (endpointUrl : string) (credentials : Credentials)
    : Prog ConnectorHealthCheckResult :=
  match env.(ce_managers) connectorType with
  | Some manager =>
      r ← manager.(cm_check) endpointUrl credentials;
      mret (match r.(hc_agentLogId) with
            | Some i => if isValidAgentLogId i then r
                        else mkHealth r.(hc_healthy) r.(hc_latencyMs) r.(hc_message) None
            | None => r
            end)
  | None =>
      mret (mkHealth false 0
              (Some ("No connectivity probe is registered for connector type " +:+
                     (connector_type_str connectorType +:+ "."))) None)
  end.

Definition assertHealthy (connectorType : ConnectorType) (endpointUrl : string) (credentials : Credentials)
    : Prog (option string) :=
  healthCheck ← health_check connectorType endpointUrl credentials;
  if healthCheck.(hc_healthy) then mret healthCheck.(hc_agentLogId)
  else throw (UnprocessableEntityException
         ("Could not verify connectivity to the connector endpoint: " +:+
          default "unknown error" healthCheck.(hc_message))).

(** ** Lookups *)

(** The row afterwards; [Object.assign] copies it over the entity. *)
Definition lazyRotateKeyIfNeeded (c : Connector) (m : Mgr) : Prog Connector :=
  if requiresRotation env.(ce_keys) c.(con_keyVersion) then
    rotated ← connectors_updateWithLock c.(con_tenantId) c.(con_id)
      (fun current =>
         if negb (requiresRotation env.(ce_keys) current.(con_keyVersion)) then mret (no_updates, tt)
         else
           decrypted ← of_sum (decrypt_credentials current);
           r ← encrypt_credentials decrypted;
           mret (mkConnectorUpdates None (Some (r.(er_ciphertext), r.(er_keyVersion))) None, tt)) m;
    mret (match rotated with Some (c', _) => c' | None => c end)
  else mret c.

Definition connector_not_found (id : string) : string :=
  "Connector credential with ID '" +:+ (id +:+ "' was not found.").

(** With a manager the row is locked in the caller's transaction. *)
Definition connector_findById (tenantId id : string) (auth : option AuthContext) (m : Mgr)
    : Prog Connector :=
  row ← (match m with
         | Tx => connectors_findByTenantAndIdForUpdate tenantId id
         | NoTx => connectors_findById id
         end);
  match row with
  | None => throw (NotFoundException (connector_not_found id))
  | Some c =>
      if negb (String.eqb c.(con_tenantId) tenantId) then throw (NotFoundException (connector_not_found id))
      else
        _ ← of_sum (assertResourceTenantOrNotFound auth c.(con_tenantId) (connector_not_found id));
        lazyRotateKeyIfNeeded c m
  end.

(** [Promise.all]: every promise runs to its end; the first rejection is thrown. *)
Fixpoint promise_all {A B} (f : A -> Prog B) (l : list A) : Prog (list B) :=
  match l with
  | [] => mret []
  | x :: l' =>
      y ← catch (v ← f x; mret (inr v)) (fun e => mret (inl e));
      ys ← catch (vs ← promise_all f l'; mret (inr vs)) (fun e => mret (inl e));
      match y, ys with
      | inr v, inr vs => mret (v :: vs)
      | inl e, _ | _, inl e => throw e
      end
  end.

Definition rotate_all (credentials : list Connector) : Prog (list Connector) :=
  promise_all (fun c => lazyRotateKeyIfNeeded c NoTx) credentials.

Definition connector_findByTenant (tenantId : string) : Prog (list Connector) :=
  credentials ← connectors_findByTenant tenantId;
  rotate_all credentials.

Definition connector_findByTenantAndConnectorType (tenantId : string) (connectorType : ConnectorType)
    : Prog (list Connector) :=
  credentials ← connectors_findByTenantAndConnectorType tenantId connectorType;
  rotate_all credentials.

Definition connector_findByTenantAndConnectorTypeAndActive (tenantId : string)
    (connectorType : ConnectorType) (active : bool) : Prog (list Connector) :=
  credentials ← connectors_findByTenantAndConnectorTypeAndActive tenantId connectorType active;
  rotate_all credentials.

Definition connector_findActiveForWebhook (id : string) : Prog (option Connector) :=
  row ← connectors_findById id;
  match row with
  | Some c => if c.(con_active) then c' ← lazyRotateKeyIfNeeded c NoTx; mret (Some c') else mret None
  | None => mret None
  end.

Definition connector_testConnectivity (tenantId id : string) (auth : AuthContext)
    : Prog (bool * Z * option string) :=
  c ← connector_findById tenantId id (Some auth) NoTx;
  decrypted ← of_sum (decrypt_credentials c);
  r ← health_check c.(con_type) c.(con_endpointUrl) decrypted;
  mret (r.(hc_healthy), r.(hc_latencyMs), r.(hc_message)).
End Service.

(** ** What a lookup may change

    Reading a connector may re-encrypt it: rows of the tenant, nothing but their
    ciphertext, key version and time of change. *)

Definition recoded (c c' : Connector) : Prop :=
  exists ciphertext version now,
    c' = mkConnector c.(con_id) c.(con_tenantId) c.(con_type) c.(con_endpointUrl) c.(con_active)
           ciphertext version c.(con_agentLogIdHash) c.(con_createdAt) now.

Definition rotation (tenantId : string) (t t' : gmap string Connector) : Prop :=
  forall i, match t !! i, t' !! i with
            | Some c, Some c' => c' = c \/ c.(con_tenantId) = tenantId /\ recoded c c'
            | None, None => True
            | _, _ => False
            end.

#[export] Instance rotation_preorder tenantId : PreOrder (rotation tenantId).
Proof.
  split; [intros t i; destruct (t !! i); auto|]. intros t1 t2 t3 H1 H2 i. specialize (H1 i). specialize (H2 i).
  destruct (t1 !! i) as [c1|], (t2 !! i) as [c2|], (t3 !! i) as [c3|]; try done.
  destruct H1 as [->|[Ht (e & v & n & ->)]]; [done|]. right. split; [done|].
  destruct H2 as [->|[_ (e' & v' & n' & ->)]]; eexists _, _, _; reflexivity.
Qed.

(** The tables of a tenant's lookup. *)
Definition rotated (tenantId : string) (d d' : DB) : Prop :=
  exists t, rotation tenantId d.(db_connectors) t /\ d' = set_connectors t d.

Definition rotates (tenantId : string) (w w' : World) : Prop :=
  exists t n, rotation tenantId w.(committed).(db_connectors) t /\
    w' = set_counters n w.(sends) (set_dbs (set_connectors t w.(committed)) w.(working) w).

#[export] Instance rotates_preorder tenantId : PreOrder (rotates tenantId).
Proof.
  split.
  - intros w. exists w.(committed).(db_connectors), w.(uuid_next). split; [reflexivity|].
    destruct w as [[] d]. reflexivity.
  - intros w1 w2 w3 (t & n & Ht & ->) (t' & n' & Ht' & ->). exists t', n'.
    split; [by etrans|reflexivity].
Qed.

Lemma rotates_rotated tenantId w w' : rotates tenantId w w' -> rotated tenantId w.(committed) w'.(committed).
Proof. intros (t & n & Ht & ->). by exists t. Qed.

Lemma rotated_refl tenantId d : rotated tenantId d d.
Proof. exists d.(db_connectors). split; [reflexivity|]. by destruct d. Qed.

Class Rotates (tenantId : string) {A} (p : Prog A) : Prop := rotates_run w : rotates tenantId w (p w).1.

Section Rotates.
Context (tenantId : string).

#[export] Instance rotates_ret {A} (a : A) : Rotates tenantId (mret (M:=Prog) a).
Proof. intros w. reflexivity. Qed.
#[export] Instance rotates_throw {A} e : Rotates tenantId (throw (A:=A) e).
Proof. intros w. reflexivity. Qed.
#[export] Instance rotates_of_sum {A} (r : Exn + A) : Rotates tenantId (of_sum r).
Proof. intros w. reflexivity. Qed.
#[export] Instance rotates_read {A} m (f : DB -> A) : Rotates tenantId (read m f).
Proof. intros w. reflexivity. Qed.

Lemma rotates_then {A B} (p : Prog A) (k : A -> Prog B) w :
  rotates tenantId w (p w).1 -> (forall w' a, p w = (w', inr a) -> rotates tenantId w' (k a w').1) ->
  rotates tenantId w ((p ≫= k) w).1.
Proof.
  unfold mbind, prog_bind. destruct (p w) as [w' [e|a]]; simpl; intros H1 H2; [done|].
  etrans; [exact H1|by apply H2].
Qed.

#[export] Instance rotates_bind {A B} (p : Prog A) (k : A -> Prog B) :
  Rotates tenantId p -> (forall a, Rotates tenantId (k a)) -> Rotates tenantId (p ≫= k).
Proof. intros Hp Hk w. apply rotates_then; [apply Hp|intros; apply Hk]. Qed.
#[export] Instance rotates_catch {A} (p : Prog A) h :
  Rotates tenantId p -> (forall e, Rotates tenantId (h e)) -> Rotates tenantId (catch p h).
Proof.
  intros Hp Hh w. unfold catch. specialize (Hp w). destruct (p w) as [w' [e|a]]; simpl in *; [|done].
  etrans; [exact Hp|apply Hh].
Qed.

Lemma rotates_promise_all {A B} (f : A -> Prog B) l :
  Forall (fun a => Rotates tenantId (f a)) l -> Rotates tenantId (promise_all f l).
Proof.
  induction 1 as [|a l Ha _ IH]; simpl; [apply _|].
  apply rotates_bind; [apply _|]. intros y. apply rotates_bind; [apply _|]. intros ys. destruct y, ys; apply _.
Qed.

Lemma rotation_write t i c c' :
  t !! i = Some c -> c.(con_tenantId) = tenantId -> recoded c c' -> rotation tenantId t (<[i := c']> t).
Proof.
  intros Hc Ht Hr j. destruct (decide (j = i)) as [->|Hn]; [rewrite Hc, lookup_insert_eq; auto|].
  rewrite lookup_insert_ne by done. destruct (t !! j); auto.
Qed.
End Rotates.

#[export] Instance rotates_lazyRotate env c : Rotates c.(con_tenantId) (lazyRotateKeyIfNeeded env c NoTx).
Proof.
  intros w. unfold lazyRotateKeyIfNeeded. destruct (requiresRotation _ _); [|reflexivity].
  apply rotates_then; [|intros; reflexivity]. unfold connectors_updateWithLock, transaction, locked_update.
  assert (forall n, rotates (con_tenantId c) w (set_counters n (sends w) (set_dbs (committed w) (working w) w))) as H0.
  { intros n. exists w.(committed).(db_connectors), n. split; [reflexivity|]. by destruct w as [[] ?]. }
  unfold connectors_findByTenantAndIdForUpdate, read, mbind, prog_bind. cbn -[rotates encrypt connector_conflict].
  destruct (db_connectors (committed w) !! con_id c) as [x|] eqn:Ex; [|apply (H0 w.(uuid_next))].
  destruct (String.eqb_spec (con_tenantId x) (con_tenantId c)) as [Ht|]; [|apply (H0 w.(uuid_next))].
  destruct (requiresRotation _ (con_keyVersion x)); cbn -[rotates encrypt connector_conflict]; [|apply (H0 w.(uuid_next))].
  destruct (decrypt_credentials env x) as [e|cs]; cbn -[rotates encrypt connector_conflict]; [apply (H0 w.(uuid_next))|].
  unfold encrypt_credentials, randomBytes, gen_uuid, of_sum, mbind, prog_bind. cbn -[rotates encrypt connector_conflict].
  destruct (encrypt env.(ce_gcm) env.(ce_keys) _ cs) as [e|r]; cbn -[rotates encrypt connector_conflict]; [apply (H0 (S w.(uuid_next)))|].
  unfold write_connector, read, mbind, prog_bind. cbn -[rotates encrypt connector_conflict].
  destruct (connector_conflict _ _ _); cbn -[rotates encrypt connector_conflict]; [apply (H0 (S w.(uuid_next)))|].
  eexists _, (S w.(uuid_next)). split; [|reflexivity]. eapply rotation_write; [done|done|]. by eexists _, _, _.
Qed.

(** A rotation of a stored row: nothing, or the credentials encrypted again. *)
Lemma lazyRotate_inv env c w w' c' :
  w.(committed).(db_connectors) !! c.(con_id) = Some c ->
  lazyRotateKeyIfNeeded env c NoTx w = (w', inr c') ->
  w'.(committed).(db_connectors) = <[c.(con_id) := c']> w.(committed).(db_connectors) /\
  (c' = c \/ exists cs w0 w1 r now, decrypt_credentials env c = inr cs /\
     encrypt_credentials env cs w0 = (w1, inr r) /\
     c' = apply_updates (mkConnectorUpdates None (Some (r.(er_ciphertext), r.(er_keyVersion))) None) now c).
Proof.
  intros Hc E. unfold lazyRotateKeyIfNeeded in E.
  destruct (requiresRotation _ _) eqn:Hr; [|injection E as <- <-; split; [by rewrite insert_id|by left]].
  run_inv E. injection E as <- <-. unfold connectors_updateWithLock, transaction in E0.
  destruct (locked_update _ _ _ _) as [w1 [|r]] eqn:El in E0; [done|]. injection E0 as <- <-.
  unfold locked_update in El. run_inv El. injection E as <- <-. simpl in El. rewrite Hc, String.eqb_refl in El.
  run_inv El. rewrite Hr in E. simpl in E. run_inv E. injection E0 as <- Hd.
  run_inv E. injection E as <- <-. simpl in El. run_inv El. run_inv E. injection E1 as <- <-.
  unfold write_connector in E. run_inv E. injection E1 as <- <-.
  destruct (connector_conflict _ _ _); [done|]. injection E as <- _.
  run_inv El. injection E as <- <-. injection El as <- <-. simpl.
  rewrite lookup_insert_eq. simpl. rewrite String.eqb_refl. simpl.
  assert (working w2 = committed w) as ->; [|split; [done|right; eauto 10]].
  unfold encrypt_credentials, randomBytes in E0. run_inv E0. run_inv E. by injection E as <- _; injection E1 as <- _; injection E0 as <- _.
Qed.

Lemma apply_updates_recoded c ciphertext version now :
  recoded c (apply_updates (mkConnectorUpdates None (Some (ciphertext, version)) None) now c).
Proof. by eexists _, _, _. Qed.

Lemma recoded_id c c' : recoded c c' -> c'.(con_id) = c.(con_id).
Proof. by intros (? & ? & ? & ->). Qed.

Lemma lazyRotate_row env c w w' c' :
  w.(committed).(db_connectors) !! c.(con_id) = Some c -> lazyRotateKeyIfNeeded env c NoTx w = (w', inr c') ->
  w'.(committed).(db_connectors) = <[c.(con_id) := c']> w.(committed).(db_connectors) /\ (c' = c \/ recoded c c').
Proof.
  intros Hc E. destruct (lazyRotate_inv env c w w' c' Hc E) as [H [->|(cs & w0 & w1 & r & now & _ & _ & ->)]];
    (split; [done|]); [by left|]. right. apply apply_updates_recoded.
Qed.

(** The rows [rotate_all] answers with are the rows of the table afterwards. *)
Lemma rotate_all_rows env l w w' l' :
  NoDup (con_id <$> l) -> (forall c, c ∈ l -> w.(committed).(db_connectors) !! c.(con_id) = Some c) ->
  rotate_all env l w = (w', inr l') ->
  con_id <$> l' = con_id <$> l /\
  (forall c, c ∈ l' -> w'.(committed).(db_connectors) !! c.(con_id) = Some c) /\
  (forall i, i ∉ con_id <$> l -> w'.(committed).(db_connectors) !! i = w.(committed).(db_connectors) !! i).
Proof.
  revert w w' l'. induction l as [|c l IH]; intros w w' l' Hnd Hl E.
  { injection E as <- <-. split_and!; [done| |done]. by intros c ?%elem_of_nil. }
  apply NoDup_cons in Hnd as [Hc Hnd]. unfold rotate_all in *. simpl in E.
  apply bind_inr in E as (w1 & y & E1 & E). apply bind_inr in E as (w2 & ys & E2 & E).
  unfold catch, mbind at 1, prog_bind at 1 in E1.
  destruct (lazyRotateKeyIfNeeded env c NoTx w) as [w1' [e|c']] eqn:Er; simpl in E1; injection E1 as <- <-;
    [destruct ys; discriminate E|].
  unfold catch, mbind at 1, prog_bind at 1 in E2.
  destruct (promise_all _ l w1') as [w2' [e|vs]] eqn:Ep; simpl in E2; injection E2 as <- <-; [discriminate E|].
  injection E as <- <-.
  apply lazyRotate_row in Er as [Hw Hr]; [|apply Hl; by left].
  assert (con_id c' = con_id c) as Hid by (destruct Hr as [->|Hr]; [done|by apply recoded_id]).
  apply IH in Ep as (H1 & H2 & H3); [|done|].
  - split_and!; [by rewrite !fmap_cons, Hid, H1| |].
    + intros x [->|Hx]%elem_of_cons; [|by apply H2]. rewrite H3 by (by rewrite Hid). rewrite Hw, Hid. apply lookup_insert_eq.
    + intros i [Hi Hi']%not_elem_of_cons. rewrite H3, Hw by done. by apply lookup_insert_ne.
  - intros x Hx. rewrite Hw, lookup_insert_ne; [apply Hl; by right|]. intros Heq. apply Hc. rewrite Heq.
    by apply list_elem_of_fmap_2.
Qed.

(** The listing of a tenant's connectors. *)
#[export] Instance rotates_findByTenant env t : Rotates t (connector_findByTenant env t).
Proof.
  intros w. apply rotates_then; [reflexivity|]. intros w' l [= <- <-]. apply rotates_promise_all, Forall_forall.
  intros c Hc. rewrite (merge_sort_Permutation newer), elem_of_select, String.eqb_eq in Hc.
  destruct Hc as [Hc _]; destruct Hc. apply _.
Qed.

Lemma findByTenant_spec env t w w' l :
  (forall i c, w.(committed).(db_connectors) !! i = Some c -> c.(con_id) = i) ->
  connector_findByTenant env t w = (w', inr l) ->
  forall c, c ∈ l <-> (exists i, w'.(committed).(db_connectors) !! i = Some c) /\ c.(con_tenantId) = t.
Proof.
  intros K E. pose proof (rotates_findByTenant env t w) as (T & n & HT & Hw). rewrite E in Hw. simpl in Hw.
  unfold connector_findByTenant in E. run_inv E. injection E0 as <- <-.
  set (l0 := merge_sort _ _) in E.
  assert (forall c, c ∈ l0 <-> w.(committed).(db_connectors) !! c.(con_id) = Some c /\ c.(con_tenantId) = t) as Hl0.
  { intros c. unfold l0. rewrite (merge_sort_Permutation newer), elem_of_select, String.eqb_eq.
    split; [intros [-> [i Hi]]; pose proof (K _ _ Hi) as <-; done|intros [H1 H2]; eauto]. }
  apply rotate_all_rows in E as (H1 & H2 & _); [| |intros c Hc; by apply Hl0].
  - intros c. assert (forall i, i ∈ con_id <$> l <-> exists c0, w.(committed).(db_connectors) !! i = Some c0 /\
      c0.(con_tenantId) = t) as Hi.
    { intros i. rewrite H1, list_elem_of_fmap. split.
      - intros (c0 & -> & Hc0). apply Hl0 in Hc0 as []. eauto.
      - intros (c0 & Hc0 & Ht). pose proof (K _ _ Hc0) as <-. exists c0. split; [done|]. by apply Hl0. }
    subst w'. simpl in *. split.
    + intros Hc. pose proof (H2 c Hc) as HTc. split; [eauto|].
      destruct (proj1 (Hi (con_id c))) as (c0 & Hc0 & Ht); [by apply list_elem_of_fmap_2|].
      specialize (HT (con_id c)). rewrite Hc0, HTc in HT. destruct HT as [->|[_ (? & ? & ? & ->)]]; done.
    + intros [[i HTc] Ht]. specialize (HT i). rewrite HTc in HT.
      destruct (db_connectors (committed w) !! i) as [c0|] eqn:Hc0; [|done].
      assert (con_id c = i /\ con_tenantId c0 = t) as [Hid Ht0].
      { pose proof (K _ _ Hc0) as <-. destruct HT as [->|[_ (? & ? & ? & ->)]]; done. }
      assert (con_id c ∈ con_id <$> l) as Hin by (apply Hi; rewrite Hid; eauto).
      apply list_elem_of_fmap in Hin as (c1 & Hc1 & Hin). pose proof (H2 _ Hin) as HT1.
      rewrite <-Hc1, Hid, HTc in HT1. by injection HT1 as <-.
  - unfold l0. rewrite (merge_sort_Permutation newer). by apply select_ids_NoDup.
Qed.
