(* ===== verification/AdapterRegistry.v ===== *)
(** * AdapterRegistry

    Models adapter-registry/adapter-registry.service.ts: which connector, and
    through it which agent adapter, serves a tenant's request.

    An [AgentAdapter] is the interface libs/credential-ports defines between
    the service and the agents.  Its operations are programs: they run in the
    agent, and other requests of the service may commit meanwhile.  [Resolves]
    and the theorems of the services hold for every adapter; what an adapter is
    relied on for is stated as [AdapterLaws]. *)

From Stdlib Require Import Ascii ZArith Lia.
From stdpp Require Import base decidable strings sets gmap list list_relations sorting.
From S2P Require Import Prelude Js Entities StateMapping OperationTtl Db Pagination.
From S2P Require Import OperationService CredentialRepository.
From S2P Require Import ConnectionRepository Encryption ConnectorRepository ConnectorService.

Local Open Scope Z_scope.

(** ** Ports *)

Record PortInvitation := mkInvitation {
  in_invitationId : string;
  in_invitationUrl : string;
  in_connectionId : option string
}.

Record InvitationOptions := mkInvOptions {
  io_alias : option string;
  io_label : option string;
  io_goalCode : option string;
  io_multiUse : option bool
}.

(** A credential exchange as the agent reports it. *)
Record AgentExchange := mkAgentExchange {
  ae_id : string;
  ae_externalId : option string;
  ae_connectionId : option string;
  ae_state : CredentialExchangeState;
  ae_format : CredentialFormat;
  ae_attributes : list (string * string);
  ae_createdAt : string;
  ae_updatedAt : string;
  ae_error : option string
}.

(** [exchange.externalId ?? exchange.id] *)
Definition ae_correlation (x : AgentExchange) : string := default x.(ae_id) x.(ae_externalId).

Definition opt_field (k : string) (v : option string) : list (string * json) :=
  match v with Some s => [(k, JStr s)] | None => [] end.

(** [{ ...exchange }] as a stored result *)
Definition agent_exchange_json (x : AgentExchange) : json :=
  JObj ([("id", JStr x.(ae_id))] ++ opt_field "externalId" x.(ae_externalId) ++
        opt_field "connectionId" x.(ae_connectionId) ++
        [("state", JStr (cred_ex_str x.(ae_state)));
         ("format", JStr (credential_format_str x.(ae_format)));
         ("attributes", JArr ((fun '(n, v) => JObj [("name", JStr n); ("value", JStr v)])
                                <$> x.(ae_attributes)));
         ("createdAt", JStr x.(ae_createdAt)); ("updatedAt", JStr x.(ae_updatedAt))] ++
        opt_field "error" x.(ae_error)).

(** The value of an attribute: text as the caller gave it, the text
    [JSON.stringify] makes of a value that is not text, or a value that was left
    as it is, which the declared type rules out but the validators check for. *)
Inductive AttributeValue := AText (s : string) | ASerialized (v : json) | ARaw (v : json).

Record OfferCredentialRequest := mkOfferRequest {
  or_connectionId : option string;
  or_credentialDefinitionId : option string;
  or_format : CredentialFormat;
  or_attributes : list (string * AttributeValue);
  or_autoIssue : option bool
}.

Record RevocationResult := mkRevocation {
  rv_credentialId : string;
  rv_revoked : bool;
  rv_revokedAt : option (string * Z);          (* ISO-8601 text and the instant it denotes, ms *)
  rv_error : option string
}.

(** [{ ...result }] *)
Definition revocation_json (r : RevocationResult) : json :=
  JObj ([("credentialId", JStr r.(rv_credentialId)); ("revoked", JBool r.(rv_revoked))] ++
        opt_field "revokedAt" (fst <$> r.(rv_revokedAt)) ++ opt_field "error" r.(rv_error)).

(** Verification: what is asked of a holder, and the exchange it is asked in. *)
Record RequestedPredicate := mkPredicate {
  rp_name : string;
  rp_pType : string;
  rp_pValue : jsnum
}.

Record PresentationRequest := mkPresentationRequest {
  pq_connectionId : option string;
  pq_name : string;
  pq_requestedAttributes : list string;
  pq_requestedPredicates : option (list RequestedPredicate)
}.

Record AgentPresentation := mkAgentPresentation {
  ag_id : string;
  ag_externalId : option string;
  ag_connectionId : option string;
  ag_state : PresentationExchangeState;
  ag_verified : option bool;
  ag_createdAt : string;
  ag_updatedAt : string;
  ag_error : option string
}.

(** [{ ...exchange }] *)
Definition agent_presentation_json (x : AgentPresentation) : json :=
  JObj ([("id", JStr x.(ag_id))] ++ opt_field "externalId" x.(ag_externalId) ++
        opt_field "connectionId" x.(ag_connectionId) ++
        [("state", JStr (pres_ex_str x.(ag_state)))] ++
        match x.(ag_verified) with Some b => [("verified", JBool b)] | None => [] end ++
        [("createdAt", JStr x.(ag_createdAt)); ("updatedAt", JStr x.(ag_updatedAt))] ++
        opt_field "error" x.(ag_error)).

(** AnonCreds artifact registration. *)
Record IssuerSelection := mkIssuerSelection {
  is_id : option string;
  is_method : option string
}.

Record RegisteredSchema := mkRegisteredSchema {
  sc_id : string;
  sc_definition : list (string * json)
}.

Record DefinitionOptions := mkDefinitionOptions {
  do_tag : string;
  do_revocation : bool                         (* status.revocation.enabled *)
}.

Record RegistrationSubmission := mkSubmission {
  su_state : ArtifactState;
  su_id : option string;
  su_jobId : option string;
  su_transactionId : option string;
  su_detail : option string;
  su_status : option Z;
  su_backendCode : option string
}.

Record RegistrationPort := mkRegistrationPort {
  pt_resolveIssuer : ConnectorContext -> option IssuerSelection -> Prog string;
  pt_resolveSchema : ConnectorContext -> string -> Prog RegisteredSchema;
  pt_findSchema : ConnectorContext -> string -> list (string * json) ->
    Prog (option RegisteredSchema);
  pt_publishSchema : ConnectorContext -> string -> list (string * json) ->
    Prog RegistrationSubmission;
  pt_findDefinition : ConnectorContext -> string -> string -> DefinitionOptions ->
    Prog (option string);
  pt_publishDefinition : ConnectorContext -> string -> string -> DefinitionOptions ->
    Prog RegistrationSubmission;
  pt_verifyRevocation : ConnectorContext -> string -> Prog bool
}.

Class RegistrationLaws (R : relation DB) (p : RegistrationPort) : Prop := {
  pl_resolveIssuer c s : Pres R (p.(pt_resolveIssuer) c s);
  pl_resolveSchema c i : Pres R (p.(pt_resolveSchema) c i);
  pl_findSchema c i s : Pres R (p.(pt_findSchema) c i s);
  pl_publishSchema c i s : Pres R (p.(pt_publishSchema) c i s);
  pl_findDefinition c i s o : Pres R (p.(pt_findDefinition) c i s o);
  pl_publishDefinition c i s o : Pres R (p.(pt_publishDefinition) c i s o);
  pl_verifyRevocation c i : Pres R (p.(pt_verifyRevocation) c i)
}.

#[export] Existing Instances pl_resolveIssuer pl_resolveSchema pl_findSchema pl_publishSchema
  pl_findDefinition pl_publishDefinition pl_verifyRevocation.

Record AgentAdapter := mkAdapter {
  ad_supportedFormats : list CredentialFormat;
  ad_createInvitation : ConnectorContext -> InvitationOptions -> Prog PortInvitation;
  ad_acceptInvitation : ConnectorContext -> string -> Prog RemoteConnection;
  ad_getById : ConnectorContext -> string -> Prog RemoteConnection;
  ad_listByInvitation : ConnectorContext -> string -> nat -> Prog (list RemoteConnection);
  ad_deleteById : ConnectorContext -> string -> Prog unit;
  ad_offerCredential : ConnectorContext -> OfferCredentialRequest -> Prog AgentExchange;
  ad_issueCredential : ConnectorContext -> string -> Prog AgentExchange;
  ad_getExchange : ConnectorContext -> string -> Prog AgentExchange;
  ad_acceptOffer : ConnectorContext -> string -> Prog AgentExchange;
  ad_rejectOffer : ConnectorContext -> string -> Prog unit;
  ad_revoke : ConnectorContext -> string -> Prog RevocationResult;
  ad_requestPresentation : ConnectorContext -> PresentationRequest -> Prog AgentPresentation;
  ad_anonCredsRegistration : option RegistrationPort
}.

(** What the services rely on: while an adapter call runs, the tables move only
    along [R] (other requests' commits), whether it answers or fails. *)
Class AdapterLaws (R : relation DB) (a : AgentAdapter) : Prop := {
  al_createInvitation c o : Pres R (a.(ad_createInvitation) c o);
  al_acceptInvitation c u : Pres R (a.(ad_acceptInvitation) c u);
  al_getById c i : Pres R (a.(ad_getById) c i);
  al_listByInvitation c i n : Pres R (a.(ad_listByInvitation) c i n);
  al_deleteById c i : Pres R (a.(ad_deleteById) c i);
  al_offerCredential c r : Pres R (a.(ad_offerCredential) c r);
  al_issueCredential c i : Pres R (a.(ad_issueCredential) c i);
  al_getExchange c i : Pres R (a.(ad_getExchange) c i);
  al_acceptOffer c i : Pres R (a.(ad_acceptOffer) c i);
  al_rejectOffer c i : Pres R (a.(ad_rejectOffer) c i);
  al_revoke c i : Pres R (a.(ad_revoke) c i);
  al_requestPresentation c r : Pres R (a.(ad_requestPresentation) c r);
  al_registration p : a.(ad_anonCredsRegistration) = Some p -> RegistrationLaws R p
}.

#[export] Existing Instances al_createInvitation al_acceptInvitation al_getById
  al_listByInvitation al_deleteById al_offerCredential al_issueCredential al_getExchange
  al_acceptOffer al_rejectOffer al_revoke al_requestPresentation.

(** ** The registry *)

(** What was registered at startup, the configuration value resolution reads, and
    what connectors are encrypted with. *)
Record Registry := mkRegistry {
  rg_adapters : ConnectorType -> option AgentAdapter;
  rg_overrideEnabled : bool;
  rg_env : ConnectorEnv
}.

(** [register]: a duplicate or an adapter with no format is refused. *)
Definition register (type : ConnectorType) (a : AgentAdapter) (r : Registry) : Exn + Registry :=
  match r.(rg_adapters) type with
  | Some _ => inl (JsError ("An adapter is already registered for connector type '" +:+
                connector_type_str type +:+ "'"))
  | None =>
      if (length a.(ad_supportedFormats) =? 0)%nat
      then inl (JsError ("Adapter for connector type '" +:+ connector_type_str type +:+
             "' declares no supported formats"))
      else inr (mkRegistry
                  (fun t => if decide (t = type) then Some a else r.(rg_adapters) t)
                  r.(rg_overrideEnabled) r.(rg_env))
  end.

Record ResolveOptions := mkResolveOptions {
  ro_connectorId : option string;
  ro_connectorType : option ConnectorType;
  ro_adapterOverride : option ConnectorType;
  ro_isPlatformAdmin : bool
}.

Definition no_options : ResolveOptions := mkResolveOptions None None None false.
Definition with_connector (id : option string) : ResolveOptions :=
  mkResolveOptions id None None false.

Record ResolvedAdapter := mkResolved {
  rs_adapter : AgentAdapter;
  rs_connector : Connector;
  rs_context : ConnectorContext;
  rs_format : option CredentialFormat          (* [None]: undefined *)
}.

Section Resolve.
Context (registry : Registry).

Definition getByConnectorType (type : ConnectorType) : Prog AgentAdapter :=
  match registry.(rg_adapters) type with
  | Some a => mret a
  | None => throw (AdapterError ConnectorUnavailable "CONNECTOR_UNAVAILABLE"
                     ("No adapter is registered for connector type '" +:+
                      connector_type_str type +:+ "'"))
  end.

Definition buildContext (c : Connector) : Exn + ConnectorContext :=
  match decrypt_credentials registry.(rg_env) c with
  | inl e => inl e
  | inr credentials => inr (mkContext c.(con_id) c.(con_tenantId) c.(con_endpointUrl) credentials)
  end.

Definition resolveOverride (o : ResolveOptions) : Prog (option ConnectorType) :=
  match o.(ro_adapterOverride) with
  | None => mret None
  | Some t =>
      if negb registry.(rg_overrideEnabled)
      then throw (ForbiddenException "Adapter override is disabled")
      else if negb o.(ro_isPlatformAdmin)
      then throw (ForbiddenException "Adapter override requires the platform-admin role")
      else mret (Some t)
  end.

Definition readDefaultConnector (tenantId : string) : Prog (option string) :=
  tenant ← tenants_findById tenantId;
  mret (match get_prop "default_connector" tenant.(tn_config) with
        | Some (JStr s) => if truthy_str (Some s) then Some s else None
        | _ => None
        end).

Definition findSoleActiveConnector (tenantId : string) (connectorType : option ConnectorType)
    : Prog Connector :=
  all ← connector_findByTenant registry.(rg_env) tenantId;
  match filter (fun c => con_active c &&
                 match connectorType with
                 | Some t => bool_decide (con_type c = t)
                 | None => true
                 end = true) all with
  | [] => throw (AdapterError ConnectorUnavailable "CONNECTOR_UNAVAILABLE"
              ("Tenant '" +:+ tenantId +:+ "' has no active connector" +:+
               match connectorType with
               | Some t => " of type '" +:+ connector_type_str t +:+ "'"
               | None => ""
               end))
  | [c] => mret c
  | _ => throw (AdapterError ConnectorSelectionAmbiguous "CONNECTOR_SELECTION_AMBIGUOUS"
                  match connectorType with
                  | Some t => "Multiple active connectors of type '" +:+ connector_type_str t +:+
                              "' are configured; select a connector explicitly."
                  | None => "Multiple active connectors are configured; set default_connector " +:+
                            "or select a connector explicitly."
                  end)
  end.

Definition findConnector (tenantId : string) (connectorId : option string)
    (connectorType : option ConnectorType) : Prog Connector :=
  explicitId ← match connectorId with
               | Some id => mret (Some id)
               | None => readDefaultConnector tenantId
               end;
  if truthy_str explicitId then
    all ← connector_findByTenant registry.(rg_env) tenantId;
    match find (fun c => String.eqb c.(con_id) (default "" explicitId)) all with
    | None => throw (AdapterError ConnectorUnavailable "CONNECTOR_UNAVAILABLE"
                       ("Connector '" +:+ default "" explicitId +:+
                        "' was not found for tenant '" +:+ tenantId +:+ "'"))
    | Some c =>
        if con_active c then mret c
        else throw (AdapterError ConnectorUnavailable "CONNECTOR_UNAVAILABLE"
                      ("Connector '" +:+ default "" explicitId +:+ "' is not active"))
    end
  else findSoleActiveConnector tenantId connectorType.

Definition selectFormat (a : AgentAdapter) (format : option CredentialFormat)
    : Prog (option CredentialFormat) :=
  match format with
  | None => mret (head a.(ad_supportedFormats))
  | Some f =>
      if decide (f ∈ a.(ad_supportedFormats)) then mret (Some f)
      else throw (AdapterError FormatNotSupported "FORMAT_NOT_SUPPORTED"
                    ("Credential format not supported: " +:+ credential_format_str f))
  end.

Definition resolve (tenantId : string) (format : option CredentialFormat) (o : ResolveOptions)
    : Prog ResolvedAdapter :=
  override ← resolveOverride o;
  match override with
  | Some type =>
      a ← getByConnectorType type;
      c ← findSoleActiveConnector tenantId (Some type);
      context ← of_sum (buildContext c);
      f ← selectFormat a format;
      mret (mkResolved a c context f)
  | None =>
      c ← findConnector tenantId o.(ro_connectorId) o.(ro_connectorType);
      a ← getByConnectorType c.(con_type);
      context ← of_sum (buildContext c);
      f ← selectFormat a format;
      mret (mkResolved a c context f)
  end.
End Resolve.

(** ** What resolution guarantees *)

(** An active connector of the tenant, of the wanted type if one is wanted. *)
Definition candidate (tenantId : string) (type : option ConnectorType) (d : DB) (c : Connector) : Prop :=
  (exists id, d.(db_connectors) !! id = Some c) /\ c.(con_tenantId) = tenantId /\
  c.(con_active) = true /\ (forall t, type = Some t -> c.(con_type) = t).

(** Which connector [resolve] may pick for a tenant: the sole candidate of an
    override's type; else the one named by the caller, or by the tenant's
    configuration; else the tenant's sole candidate. *)
Definition connector_choice (tenantId : string) (o : ResolveOptions) (d : DB) (c : Connector)
    : Prop :=
  let sole type := forall c', candidate tenantId type d c' -> c' = c in
  match o.(ro_adapterOverride) with
  | Some t => c.(con_type) = t /\ sole (Some t)
  | None =>
      let explicit :=
        match o.(ro_connectorId) with
        | Some i => Some i
        | None => t ← find_tenant tenantId d.(db_tenants);
                  as_string (get_prop "default_connector" t.(tn_config))
        end in
      if truthy_str explicit then Some c.(con_id) = explicit
      else sole o.(ro_connectorType)
  end.

(** Rows stored under their ids. *)
Definition connectors_keyed (d : DB) : Prop := forall i c, d.(db_connectors) !! i = Some c -> c.(con_id) = i.

Ltac solve_rotates := repeat first [ progress intros | apply _ | apply rotates_bind | case_match | case_decide ].

#[export] Instance rotates_sole registry t ty : Rotates t (findSoleActiveConnector registry t ty).
Proof. unfold findSoleActiveConnector. solve_rotates. Qed.
#[export] Instance rotates_findConnector registry t c ty : Rotates t (findConnector registry t c ty).
Proof. unfold findConnector, readDefaultConnector, tenants_findById. solve_rotates. Qed.
#[export] Instance rotates_resolve registry t f o : Rotates t (resolve registry t f o).
Proof. unfold resolve, resolveOverride, getByConnectorType, selectFormat. solve_rotates. Qed.

Lemma findSoleActiveConnector_spec registry tenantId type w w' c :
  connectors_keyed w.(committed) -> findSoleActiveConnector registry tenantId type w = (w', inr c) ->
  candidate tenantId type w'.(committed) c /\
  forall c', candidate tenantId type w'.(committed) c' -> c' = c.
Proof.
  unfold findSoleActiveConnector. intros K H. run_inv H. pose proof (findByTenant_spec _ _ _ _ _ K E) as Hall.
  destruct (filter _ a) as [|x [|y l]] eqn:Ef; [done| |done]. injection H as <- <-.
  assert (forall c', c' ∈ filter (fun c => con_active c &&
            match type with Some t => bool_decide (con_type c = t) | None => true end = true) a
          <-> candidate tenantId type (committed w0) c') as Hin.
  { intros c'. rewrite list_elem_of_filter, Hall, andb_true_iff. unfold candidate.
    destruct type as [t|]; [rewrite bool_decide_eq_true|]; naive_solver. }
  rewrite Ef in Hin. split; [apply Hin; left|].
  intros c' Hc'. by apply Hin, list_elem_of_singleton in Hc'.
Qed.

Lemma selectFormat_spec a format w w' f :
  selectFormat a format w = (w', inr f) ->
  w' = w /\ forall g, format = Some g -> f = Some g /\ g ∈ a.(ad_supportedFormats).
Proof.
  unfold selectFormat. destruct format as [g|]; [case_decide|]; intros Hr; try done;
    injection Hr as <- <-; naive_solver.
Qed.

Lemma buildContext_spec registry c x :
  buildContext registry c = inr x ->
  exists credentials, decrypt_credentials registry.(rg_env) c = inr credentials /\
    x = mkContext c.(con_id) c.(con_tenantId) c.(con_endpointUrl) credentials.
Proof. unfold buildContext. destruct (decrypt_credentials _ c) as [|cs]; intros [= <-]. eauto. Qed.

Lemma readDefaultConnector_spec tenantId w w' x :
  readDefaultConnector tenantId w = (w', inr x) ->
  w' = w /\ truthy_str x = truthy_str (t ← find_tenant tenantId w.(committed).(db_tenants);
                                      as_string (get_prop "default_connector" t.(tn_config))) /\
  (truthy_str x = true ->
   x = t ← find_tenant tenantId w.(committed).(db_tenants);
       as_string (get_prop "default_connector" t.(tn_config))).
Proof.
  unfold readDefaultConnector, tenants_findById. intros Hr. run_inv Hr. run_inv E.
  injection E0 as <- <-. simpl in E. destruct (find_tenant tenantId (db_tenants (committed w))) as [t|]; [|done].
  injection E as <- <-. injection Hr as <- <-. simpl.
  destruct (get_prop _ _) as [[]|]; simpl; try done. by destruct s.
Qed.

Lemma findConnector_spec registry tenantId cid type w w' c :
  connectors_keyed w.(committed) -> findConnector registry tenantId cid type w = (w', inr c) ->
  candidate tenantId None w'.(committed) c /\
  connector_choice tenantId (mkResolveOptions cid type None false) w'.(committed) c.
Proof.
  intros K Hr. pose proof (rotates_findConnector registry tenantId cid type w) as (T & n & _ & Hw).
  rewrite Hr in Hw. simpl in Hw.
  assert (Htn : w'.(committed).(db_tenants) = w.(committed).(db_tenants)) by (by subst w'). clear Hw.
  unfold findConnector in Hr. run_inv Hr.
  set (explicit := match cid with
    | Some i => Some i
    | None => t ← find_tenant tenantId w.(committed).(db_tenants);
              as_string (get_prop "default_connector" t.(tn_config)) end).
  assert (w0 = w /\ truthy_str a = truthy_str explicit /\ (truthy_str a = true -> a = explicit))
    as (-> & Ht & Ha).
  { destruct cid; [by injection E as <- <-|]. by apply readDefaultConnector_spec in E. }
  unfold connector_choice. simpl. rewrite Htn. fold explicit. rewrite <-Ht. destruct (truthy_str a) eqn:Eta.
  - rewrite <-(Ha eq_refl). run_inv Hr. pose proof (findByTenant_spec _ _ _ _ _ K E0) as Hall.
    destruct (find _ a0) as [x|] eqn:Ef; [|done].
    destruct (con_active x) eqn:Eact; [|done]. injection Hr as <- <-.
    apply find_some in Ef as [Hin%list_elem_of_In Heq%String.eqb_eq].
    apply Hall in Hin as [Hid Htx]. split; [by split_and!|].
    rewrite Heq. destruct a; [done|done].
  - apply findSoleActiveConnector_spec in Hr as [Hc Huniq]; [|done].
    split; [|done]. destruct Hc as (? & ? & ? & _). by split_and!.
Qed.

(** C37: connector resolution never leaves the tenant and never guesses.  A
    successful [resolve] changes nothing but the encryption of the tenant's own
    connectors, and returns an active connector of the calling tenant, its
    decrypted credentials and the adapter registered for its type; the connector is
    the one explicitly asked for, or the tenant's configured default, or the only
    active candidate there is; an override is honoured only for a platform admin with
    overrides enabled; and a requested credential format is one the adapter
    supports. *)
Theorem resolve_tenant_scoped registry tenantId format o w w' r :
  connectors_keyed w.(committed) -> resolve registry tenantId format o w = (w', inr r) ->
  let c := r.(rs_connector) in
  rotates tenantId w w' /\
  candidate tenantId None w'.(committed) c /\
  connector_choice tenantId o w'.(committed) c /\
  registry.(rg_adapters) c.(con_type) = Some r.(rs_adapter) /\
  (exists credentials, decrypt_credentials registry.(rg_env) c = inr credentials /\
     r.(rs_context) = mkContext c.(con_id) tenantId c.(con_endpointUrl) credentials) /\
  (forall t, o.(ro_adapterOverride) = Some t ->
     registry.(rg_overrideEnabled) = true /\ o.(ro_isPlatformAdmin) = true) /\
  (forall f, format = Some f ->
     r.(rs_format) = Some f /\ f ∈ r.(rs_adapter).(ad_supportedFormats)).
Proof.
  intros K Hr c. split; [pose proof (rotates_resolve registry tenantId format o w) as H; by rewrite Hr in H|].
  unfold c, resolve, resolveOverride, getByConnectorType in *. clear c. run_inv Hr.
  destruct (ro_adapterOverride o) as [t|] eqn:Eo.
  - destruct (rg_overrideEnabled registry) eqn:Een, (ro_isPlatformAdmin o) eqn:Epa; try done.
    injection E as <- <-. run_inv Hr. destruct (rg_adapters registry t) as [ad|] eqn:Ead; [|done].
    injection E as <- <-. run_inv Hr.
    apply findSoleActiveConnector_spec in E as ((Hid & Htn & Hact & Hty) & Huniq); [|done].
    run_inv Hr. injection E as <- Ex. apply buildContext_spec in Ex.
    run_inv Hr. apply selectFormat_spec in E as [-> Hf]. injection Hr as <- <-. simpl.
    specialize (Hty t eq_refl). unfold connector_choice. rewrite Eo. rewrite Htn in Ex.
    split_and!; try done; [by rewrite Hty|..]; naive_solver.
  - injection E as <- <-. run_inv Hr. apply findConnector_spec in E as (Hc & Hch); [|done].
    run_inv Hr. destruct (rg_adapters registry (con_type a)) as [ad|] eqn:Ead; [|done].
    injection E as <- <-. run_inv Hr. injection E as <- Ex. apply buildContext_spec in Ex.
    run_inv Hr. apply selectFormat_spec in E as [-> Hf].
    injection Hr as <- <-. simpl. unfold connector_choice in *. rewrite Eo. simpl in Hch.
    destruct Hc as (? & Ht & ? & ?). rewrite Ht in Ex. split_and!; done || naive_solver.
Qed.

(** An agent's address under the first key, which is the current one. *)
Definition plain_env : ConnectorEnv :=
  mkConnectorEnv plain_gcm (fun k s => k +:+ s) provider1 (fun n _ => zeros n) (fun _ => None).

Definition sample_ciphertext : string :=
  match encrypt plain_gcm provider1 (zeros IV_LENGTH) [("apiKey", "key"); ("tractionTenantId", "wallet-1")] with
  | inr r => r.(er_ciphertext)
  | inl _ => ""
  end.

Definition sample_connector : Connector := mkConnector "k1" "t" TRACTION "https://agent" true sample_ciphertext (num_of_Z 1) None 0 0.

Definition sample_exchange (id : string) (connection : option string)
    (s : CredentialExchangeState) : AgentExchange :=
  mkAgentExchange id None connection s AnonCreds [] "2026-01-01T00:00:00Z"
    "2026-01-01T00:00:00Z" None.

(** A ledger that has the schema, takes any definition at once and keeps its
    revocation registry ready. *)
Definition silent_port : RegistrationPort :=
  mkRegistrationPort
    (fun _ s => mret (default "did:issuer" (s ≫= is_id)))
    (fun _ i => mret (mkRegisteredSchema i []))
    (fun _ _ s => mret (Some (mkRegisteredSchema "schema-1" s)))
    (fun _ _ _ => mret (mkSubmission Finished (Some "schema-1") None None None None None))
    (fun _ _ _ _ => mret None)
    (fun _ _ _ _ => mret (mkSubmission Finished (Some "cred-def-1") None None None None None))
    (fun _ _ => mret true).

#[export] Instance silent_port_laws R `{!PreOrder R} : RegistrationLaws R silent_port.
Proof. split; intros; simpl; apply _. Qed.

Definition silent_adapter : AgentAdapter :=
  mkAdapter [AnonCreds]
    (fun _ _ => mret (mkInvitation "i" "https://invite" None))
    (fun _ _ => mret (mkRemote "r" Request None None None None))
    (fun _ i => mret (mkRemote i Active None None (Some "didcomm-v1") None))
    (fun _ _ _ => mret []) (fun _ _ => mret tt)
    (fun _ r => mret (sample_exchange "x" r.(or_connectionId) OfferSent))
    (fun _ i => mret (sample_exchange i (Some "r") CredentialIssued))
    (fun _ i => mret (sample_exchange i (Some "r") RequestReceived))
    (fun _ i => mret (sample_exchange i (Some "r") RequestSent))
    (fun _ _ => mret tt) (fun _ i => mret (mkRevocation i true None None))
    (fun _ r => mret (mkAgentPresentation "p" None r.(pq_connectionId) PRequestSent None
       "2026-01-01T00:00:00Z" "2026-01-01T00:00:00Z" None))
    (Some silent_port).

(** A quiet agent satisfies the laws for every preorder. *)
#[export] Instance silent_adapter_laws R `{!PreOrder R} : AdapterLaws R silent_adapter.
Proof. split; intros; simpl in *; simplify_eq; apply _. Qed.

Definition sample_registry : Registry :=
  mkRegistry (fun t => if decide (t = TRACTION) then Some silent_adapter else None) false plain_env.

Definition connector_db : DB :=
  set_tenants {[ "t" := sample_tenant "t" None ]} (set_connectors {[ "k1" := sample_connector ]} empty_db).

Definition sample_context : ConnectorContext :=
  mkContext "k1" "t" "https://agent" [("apiKey", "key"); ("tractionTenantId", "wallet-1")].

Lemma resolve_tenant_scoped_witness :
  candidate "t" None connector_db sample_connector /\
  connector_choice "t" no_options connector_db sample_connector.
Proof.
  destruct (resolve_tenant_scoped sample_registry "t" (Some AnonCreds) no_options
    (world_of connector_db 0) (world_of connector_db 0)
    (mkResolved silent_adapter sample_connector sample_context (Some AnonCreds)))
    as (_ & Hc & Hch & _); [|vm_compute; reflexivity|].
  - intros i c Hc. unfold connector_db in Hc. simpl in Hc. by apply lookup_singleton_Some in Hc as [<- <-].
  - split; [exact Hc|exact Hch].
Defined.
