(* ===== verification/TractionHttp.v ===== *)
(** * Calls to a Traction agent

    common/assert-safe-connector-url.ts, common/traction-request.ts and, of
    connector/connectors/traction, the HTTP client and the token manager.

    What is not this program's is a parameter: URL parsing and name resolution, the
    address classes of the ip-address package, axios and fetch with the network and the
    agent behind them, cockatiel's retry and circuit breaker, and the decoding of a
    token by jose.  A response is taken at the type the source declares for it: where a
    field of another type would flow on unchecked the model stops with [untyped]. *)

From Stdlib Require Import Ascii ZArith Lia.
From stdpp Require Import base decidable strings sets gmap list list_relations.
From S2P Require Import Prelude Js OperationTtl JsText Entities StateMapping Db Encryption RateLimit.
From S2P Require Import ConnectorRepository ConnectorService.

Local Open Scope Z_scope.

(** ** Parameters *)

(** The classes of an address, by the ip-address package. *)
Record Address := mkAddress {
  ip_isPrivate : bool; ip_isLoopback : bool; ip_isLinkLocal : bool; ip_isUnspecified : bool;
  ip_isBroadcast : bool; ip_isMulticast : bool; ip_isCGNAT : bool; ip_isDocumentation : bool;
  ip_isHostInSubnet : string -> bool
}.

Record NetEnv := mkNet {
  ne_url : string -> option (string * string);        (* [new URL(u)]: protocol and hostname *)
  ne_oob : string -> option (option string);          (* [new URL(u).searchParams.get('oob')] *)
  ne_lookup : string -> Prog (list string);           (* addresses of a name *)
  ne_isIPv4 : string -> bool;
  ne_isIPv6 : string -> bool;
  ne_address : string -> Address;                     (* [new Address4(a)], [new Address6(a)] *)
  ne_axios : HttpRequest -> Prog json;                (* the data of a 2xx response, or an error *)
  ne_fetch : HttpRequest -> Prog (Z * option json);   (* status and, if it is JSON, the body *)
  ne_retry : Prog json -> Prog json;                  (* retries around the circuit breaker *)
  ne_breaker : Prog json -> Prog json;                (* the circuit breaker alone *)
  ne_decodeJwt : string -> option (list (string * json));
  ne_base64url : string -> string;
  ne_stringify : json -> string                       (* [JSON.stringify] *)
}.

(** While the process waits, the tables move only along [R]. *)
Class NetLaws (R : relation DB) (ne : NetEnv) : Prop := {
  nl_lookup h : Pres R (ne.(ne_lookup) h);
  nl_axios q : Pres R (ne.(ne_axios) q);
  nl_fetch q : Pres R (ne.(ne_fetch) q);
  nl_retry m : Pres R m -> Pres R (ne.(ne_retry) m);
  nl_breaker m : Pres R m -> Pres R (ne.(ne_breaker) m)
}.
#[export] Existing Instances nl_lookup nl_axios nl_fetch nl_retry nl_breaker.

(** ** Typed responses *)

Definition untyped {A} : Exn + A := inl (JsError "The response is not of its declared type").

Definition str_field (k : string) (v : json) : Exn + string :=
  match v with JObj o => match assoc k o with Some (JStr s) => inr s | _ => untyped end | _ => untyped end.

Definition opt_str_field (k : string) (v : json) : Exn + option string :=
  match v with
  | JObj o => match assoc k o with
              | None | Some JNull => inr None
              | Some (JStr s) => inr (Some s)
              | _ => untyped
              end
  | _ => untyped
  end.

Definition obj_field (k : string) (v : json) : Exn + json :=
  match v with JObj o => match assoc k o with Some x => inr x | None => untyped end | _ => untyped end.

Definition as_str (v : json) : option string := match v with JStr s => Some s | _ => None end.

Definition str_list (v : json) : Exn + list string :=
  match v with
  | JArr l => match mapM as_str l with Some ss => inr ss | None => untyped end
  | _ => untyped
  end.

Section Http.
Context (ne : NetEnv).

(** ** assertSafeConnectorUrl *)

Definition IPV4_DISALLOWED_SUBNETS : list string :=
  ["0.0.0.0/8"; "192.0.0.0/24"; "192.0.2.0/24"; "198.18.0.0/15"; "198.51.100.0/24"; "203.0.113.0/24";
   "240.0.0.0/4"].

Definition isDisallowedIPv4 (a : Address) : bool :=
  a.(ip_isPrivate) || a.(ip_isLoopback) || a.(ip_isLinkLocal) || a.(ip_isUnspecified) ||
  a.(ip_isBroadcast) || a.(ip_isMulticast) || a.(ip_isCGNAT) ||
  existsb a.(ip_isHostInSubnet) IPV4_DISALLOWED_SUBNETS.

Definition isDisallowedIPv6 (a : Address) : bool :=
  a.(ip_isLoopback) || a.(ip_isUnspecified) || a.(ip_isLinkLocal) || a.(ip_isMulticast) ||
  a.(ip_isPrivate) || a.(ip_isCGNAT) || a.(ip_isBroadcast) || a.(ip_isDocumentation).

Definition isDisallowedAddress (address : string) : bool :=
  if ne.(ne_isIPv4) address then isDisallowedIPv4 (ne.(ne_address) address)
  else if ne.(ne_isIPv6) address then isDisallowedIPv6 (ne.(ne_address) address)
  else true.

(** [hostname.replace(/^\[|\]$/g, '')] *)
Definition strip_brackets (h : string) : string :=
  let h := match h with String c r => if eq_ascii c "[" then r else h | EmptyString => h end in
  if ends_with "]" h then String.substring 0 (String.length h - 1) h else h.

Definition unresolved {A} : Prog A :=
  throw (UnprocessableEntityException "Connector endpoint hostname could not be resolved.").

Definition resolveHostnameAddresses (hostname : string) : Prog (list string) :=
  catch (ne.(ne_lookup) hostname) (fun _ => unresolved).

Definition assertSafeConnectorUrl (rawUrl : string) : Prog unit :=
  match ne.(ne_url) rawUrl with
  | None => throw (UnprocessableEntityException "Connector endpoint URL is not a valid URL.")
  | Some (protocol, host) =>
      if negb (String.eqb protocol "https:")
      then throw (UnprocessableEntityException "Connector endpoint URL must use https.")
      else
        let hostname := strip_brackets host in
        addresses ← (if ne.(ne_isIPv4) hostname || ne.(ne_isIPv6) hostname then mret [hostname]
                     else resolveHostnameAddresses hostname);
        if (length addresses =? 0)%nat then unresolved
        else if existsb isDisallowedAddress addresses
        then throw (UnprocessableEntityException
               "Connector endpoint resolves to a private, loopback, or reserved network address.")
        else mret tt
  end.

(** ** TractionHttpClient *)

Definition isRetryableError (e : Exn) : bool :=
  match e with
  | AxiosError None _ _ _ => true
  | AxiosError (Some status) _ _ _ => (status =? 429) || ((500 <=? status) && (status <? 600))
  | _ => false
  end.

(** A request on the wire, recorded with its answer. *)
Definition http_send (q : HttpRequest) : Prog json := fun w =>
  let '(w', r) := ne.(ne_axios) q w in
  (set_pod (mkPod w'.(pod).(pd_tokens) (w'.(pod).(pd_http) ++ [(q, r)])) w', r).

(** [fetch] of an address, which does not follow redirects here; one that is no URL is
    refused before anything is sent. *)
Definition fetch_send (q : HttpRequest) : Prog (Z * option json) := fun w =>
  let '(w', r) := ne.(ne_fetch) q w in
  match ne.(ne_url) q.(hq_url) with
  | Some _ =>
      let answer := match r with inl e => inl e | inr (_, body) => inr (default JNull body) end in
      (set_pod (mkPod w'.(pod).(pd_tokens) (w'.(pod).(pd_http) ++ [(q, answer)])) w', r)
  | None => (w', r)
  end.

Definition http_request (q : HttpRequest) (retrySafe : bool) : Prog json :=
  _ ← (if String.eqb q.(hq_url) "" then mret tt else assertSafeConnectorUrl q.(hq_url));
  if retrySafe then ne.(ne_retry) (http_send q) else ne.(ne_breaker) (http_send q).

(** ** Requests to Traction *)

Definition buildTractionTokenUrl (endpointUrl tractionTenantId : string) : string :=
  endpointUrl +:+ "/multitenancy/tenant/" +:+ UriText.encode tractionTenantId +:+ "/token".

Definition buildTractionTokenRequestBody (apiKey : string) : json := JObj [("api_key", JStr apiKey)].

Definition buildTractionWalletUrl (endpointUrl : string) : string := endpointUrl +:+ "/tenant/wallet".

(** ** TractionTokenManager *)

Definition EXPIRY_SAFETY_MARGIN_MS : Z := 30000.

Definition set_token (id : string) (t : CachedToken) : Prog unit := fun w =>
  (set_pod (mkPod (<[id := t]> w.(pod).(pd_tokens)) w.(pod).(pd_http)) w, inr tt).

Definition get_cached (id : string) : Prog (option CachedToken) := fun w => (w, inr (w.(pod).(pd_tokens) !! id)).

Definition token_evict (connectorId : string) : Prog unit := fun w =>
  (set_pod (mkPod (delete connectorId w.(pod).(pd_tokens)) w.(pod).(pd_http)) w, inr tt).

Definition token_reset : Prog unit := fun w => (set_pod (mkPod ∅ w.(pod).(pd_http)) w, inr tt).

Definition missing_credential (context : ConnectorContext) (field : string) : Exn :=
  AdapterError ConnectorUnavailable "CONNECTOR_UNAVAILABLE"
    ("Connector '" +:+ (context.(cx_connectorId) +:+ ("' is missing its " +:+ (field +:+ " credential")))).

Definition readCredentials (context : ConnectorContext) : Exn + (string * string) :=
  match assoc "apiKey" context.(cx_credentials) with
  | Some ((String _ _) as apiKey) =>
      match assoc "tractionTenantId" context.(cx_credentials) with
      | Some ((String _ _) as tractionTenantId) => inr (apiKey, tractionTenantId)
      | _ => inl (missing_credential context "tractionTenantId")
      end
  | _ => inl (missing_credential context "apiKey")
  end.

(** A token without a readable expiry is cached as expired. *)
Definition readExpiry (token : string) : Prog jsnum :=
  match ne.(ne_decodeJwt) token with
  | Some claims => match assoc "exp" claims with
                   | Some (JNum exp) => mret (js_mul exp (num_of_Z 1000))
                   | _ => now ← now_ms; mret (num_of_Z now)
                   end
  | None => now ← now_ms; mret (num_of_Z now)
  end.

Definition acquireToken (context : ConnectorContext) : Prog string :=
  credentials ← of_sum (readCredentials context);
  let '(apiKey, tractionTenantId) := credentials in
  _ ← assertSafeConnectorUrl context.(cx_endpointUrl);
  data ← http_request (mkHttp "POST" (buildTractionTokenUrl context.(cx_endpointUrl) tractionTenantId) [] None
                         (Some (buildTractionTokenRequestBody apiKey))) true;
  token ← of_sum (str_field "token" data);
  expiresAtMs ← readExpiry token;
  _ ← set_token context.(cx_connectorId)
        (mkCachedToken token expiresAtMs context.(cx_endpointUrl) (Some tractionTenantId));
  mret token.

Definition getToken (context : ConnectorContext) : Prog string :=
  entry ← get_cached context.(cx_connectorId);
  now ← now_ms;
  match entry with
  | Some e =>
      if bool_decide (e.(ct_endpointUrl) = context.(cx_endpointUrl)) &&
         bool_decide (e.(ct_tractionTenantId) = assoc "tractionTenantId" context.(cx_credentials)) &&
         num_gt e.(ct_expiresAtMs) (now + EXPIRY_SAFETY_MARGIN_MS)
      then mret e.(ct_token)
      else acquireToken context
  | None => acquireToken context
  end.
End Http.

(** ** An agent, for evaluation

    One public address, tokens for everyone, a wallet whose webhook list is what was
    last written to it, and [answer] for everything else. *)

Definition public_address : Address :=
  mkAddress false false false false false false false false (fun _ => false).

(** The list a request writes to an agent. *)
Definition written_list (endpointUrl : string) (q : HttpRequest) : option (list string) :=
  if String.eqb q.(hq_method) "PUT" && String.eqb q.(hq_url) (buildTractionWalletUrl endpointUrl)
  then match q.(hq_data) with
       | Some (JObj [(_, JArr urls)]) => mapM as_str urls
       | _ => None
       end
  else None.

(** The last list acknowledged, at first [initial]. *)
Definition wallet_list (endpointUrl : string) (initial : list string) (log : list (HttpRequest * (Exn + json)))
    : list string :=
  fold_left (fun l '(q, r) => match r with inr _ => default l (written_list endpointUrl q) | inl _ => l end)
    log initial.

Definition sample_axios (initial : list string) (answer : HttpRequest -> Exn + json) (q : HttpRequest) : Prog json :=
  fun w => (w,
    if ends_with "/token" q.(hq_url) then inr (JObj [("token", JStr "tok")])
    else if String.eqb q.(hq_url) (buildTractionWalletUrl "https://agent")
    then if String.eqb q.(hq_method) "GET"
         then inr (JObj [("wallet_webhook_urls",
                           JArr (JStr <$> wallet_list "https://agent" initial w.(pod).(pd_http)))])
         else inr (JObj [])
    else answer q).

Definition sample_net (initial : list string) (answer : HttpRequest -> Exn + json) : NetEnv :=
  mkNet (fun u => if String.prefix "https://" u then Some ("https:", "agent.example") else None)
    (fun _ => None) (fun _ => mret ["93.184.216.34"]) (String.eqb "93.184.216.34") (fun _ => false)
    (fun _ => public_address) (sample_axios initial answer) (fun _ => mret (200, None)) (fun m => m) (fun m => m)
    (fun _ => Some [("exp", JNum (num_of_Z 4000000000))]) (fun s => s) (fun _ => "").

#[export] Instance sample_net_laws R `{!PreOrder R} initial answer : NetLaws R (sample_net initial answer).
Proof. split; simpl; intros; try apply _; done. Qed.
