(* ===== verification/TractionAdapter.v ===== *)
(** * The Traction adapter

    adapter-registry/adapters/traction.adapter.ts: the agent port over Traction's HTTP
    interface, and what of an error the port's callers see. *)

From Stdlib Require Import Ascii ZArith Lia.
From stdpp Require Import base decidable strings sets gmap list list_relations.
From S2P Require Import Prelude Js OperationTtl JsText Entities StateMapping Db Encryption RateLimit.
From S2P Require Import ConnectionRepository ConnectorRepository ConnectorService AdapterRegistry TractionHttp.

Local Open Scope Z_scope.

(** ** Errors *)

Definition SubmissionRejectedError (reason : string) : Exn :=
  AdapterError (SubmissionRejected reason) "SUBMISSION_REJECTED" "Credential issue was not submitted".

Definition mapHttpError (error : Exn) : Exn :=
  let unavailable := AdapterError ConnectorUnavailable "CONNECTOR_UNAVAILABLE" (exn_message error) in
  match error with
  | AdapterError _ _ _ => error
  | AxiosError status _ code message =>
      let timed_out :=
        if bool_decide (code = Some "ECONNABORTED") then AdapterError AdapterTimeout "TIMEOUT" message
        else unavailable in
      match status with
      | Some s =>
          if s =? 404 then AdapterError BackendNotFound "BACKEND_NOT_FOUND" "Traction record was not found"
          else if negb (s =? 429) && (s <? 500)
          then AdapterError (AdapterValidation [message]) "VALIDATION_ERROR" "Traction rejected the request"
          else timed_out
      | None => timed_out
      end
  | _ => unavailable
  end.

Definition notImplemented {A} (method : string) : Prog A :=
  throw (NotImplementedException ("TractionAdapter." +:+ (method +:+ " is not yet implemented"))).

(** ** Records *)

Definition invalid_exchange : Exn := ValidationError ["Invalid credential exchange response"].

Definition attribute_of (v : json) : option (string * string) :=
  match v with
  | JObj o => match assoc "name" o, assoc "value" o with
              | Some (JStr n), Some (JStr x) => Some (n, x)
              | _, _ => None
              end
  | _ => None
  end.

(** [record.cred_preview?.attributes ?? []] *)
Definition preview_attributes (record : json) : Exn + list (string * string) :=
  match get_prop "attributes" (get_prop "cred_preview" (Some record)) with
  | None | Some JNull => inr []
  | Some (JArr l) => match mapM attribute_of l with Some a => inr a | None => untyped end
  | Some _ => untyped
  end.

Definition mapCredentialExchange (record : option json) : Exn + AgentExchange :=
  match get_prop "state" record with
  | Some (JStr raw) =>
      if negb (truthy (get_prop "cred_ex_id" record)) then inl invalid_exchange
      else
        let normalized := replace_char "_" "-" raw in
        match find (fun s => String.eqb (cred_ex_str s) normalized) cred_ex_states with
        | None => inl invalid_exchange
        | Some state =>
            let r := default JNull record in
            match str_field "cred_ex_id" r, opt_str_field "connection_id" r, preview_attributes r,
                  str_field "created_at" r, str_field "updated_at" r, opt_str_field "error_msg" r with
            | inr id, inr connectionId, inr attributes, inr createdAt, inr updatedAt, inr error =>
                inr (mkAgentExchange id (Some id) connectionId state AnonCreds attributes createdAt updatedAt error)
            | _, _, _, _, _, _ => untyped
            end
        end
  | _ => inl invalid_exchange
  end.

Definition toConnection (record : json) : Exn + RemoteConnection :=
  match str_field "connection_id" record, str_field "state" record, opt_str_field "their_label" record,
        opt_str_field "their_did" record, opt_str_field "invitation_msg_id" record with
  | inr id, inr raw, inr label, inr did, inr invitation =>
      match find (fun s => String.eqb (agent_connection_str s) raw) agent_connection_states with
      | Some state => inr (mkRemote id state label did (Some "didcomm-v1") invitation)
      | None => untyped
      end
  | _, _, _, _, _ => untyped
  end.

Section Adapter.
Context (ne : NetEnv).

(** [try { ... } catch (error) { throw this.mapHttpError(error, context) }] *)
Definition mapped {A} (m : Prog A) : Prog A := catch m (fun e => throw (mapHttpError e)).

Definition attribute_json (a : string * AttributeValue) : json :=
  JObj [("name", JStr a.1);
        ("value", match a.2 with
                  | AText s => JStr s
                  | ASerialized v => JStr (ne.(ne_stringify) v)
                  | ARaw v => v
                  end)].

(** ** Credentials

    No caller of the port sets a comment, so a request has none. *)

Definition offer_request (context : ConnectorContext) (token : string) (req : OfferCredentialRequest)
    (connectionId credentialDefinitionId : string) : HttpRequest :=
  mkHttp "POST" (context.(cx_endpointUrl) +:+ "/issue-credential-2.0/send-offer") [] (Some token)
    (Some (JObj [("connection_id", JStr connectionId);
                 ("filter", JObj [("anoncreds", JObj [("cred_def_id", JStr credentialDefinitionId)])]);
                 ("credential_preview",
                   JObj [("@type", JStr "https://didcomm.org/issue-credential/2.0/credential-preview");
                         ("attributes", JArr (attribute_json <$> req.(or_attributes)))]);
                 ("auto_issue", JBool (default true req.(or_autoIssue)));
                 ("auto_remove", JBool false); ("auto_remove_on_failure", JBool false)])).

Definition traction_offerCredential (context : ConnectorContext) (req : OfferCredentialRequest)
    : Prog AgentExchange :=
  match req.(or_format), req.(or_connectionId), req.(or_credentialDefinitionId) with
  | AnonCreds, Some ((String _ _) as connectionId), Some ((String _ _) as definitionId) =>
      token ← getToken ne context;
      mapped (data ← http_request ne (offer_request context token req connectionId definitionId) false;
              of_sum (mapCredentialExchange (Some data)))
  | _, _, _ => throw (ValidationError ["AnonCreds offer requires a connection and credential definition"])
  end.

Definition issue_request (context : ConnectorContext) (token id : string) : HttpRequest :=
  mkHttp "POST" (context.(cx_endpointUrl) +:+
                 ("/issue-credential-2.0/records/" +:+ (UriText.encode id +:+ "/issue")))
    [] (Some token) (Some (JObj [])).

(** What a failed submission means: rejected, or unknown. *)
Definition issue_error (error : Exn) : Exn :=
  match error with
  | AxiosError (Some s) _ _ _ =>
      if s =? 408 then AdapterError AdapterTimeout "TIMEOUT" "Traction issue request timed out"
      else match mapHttpError error with
           | AdapterError BackendNotFound _ _ => SubmissionRejectedError "not-found"
           | AdapterError (AdapterValidation _) _ _ => SubmissionRejectedError "validation"
           | e => e
           end
  | _ => match mapHttpError error with
         | AdapterError BackendNotFound _ _ => SubmissionRejectedError "not-found"
         | AdapterError (AdapterValidation _) _ _ => SubmissionRejectedError "validation"
         | e => e
         end
  end.

Definition traction_issueCredential (context : ConnectorContext) (id : string) : Prog AgentExchange :=
  token ← catch (getToken ne context) (fun _ => throw (SubmissionRejectedError "authentication"));
  record ← catch (data ← http_request ne (issue_request context token id) false;
                  match data with
                  | JNull => throw (JsError "Cannot read properties of null (reading 'cred_ex_record')")
                  | _ => mret (get_prop "cred_ex_record" (Some data))
                  end)
             (fun error => throw (issue_error error));
  of_sum (mapCredentialExchange record).

Definition traction_getExchange (context : ConnectorContext) (id : string) : Prog AgentExchange :=
  token ← getToken ne context;
  mapped (data ← http_request ne
            (mkHttp "GET" (context.(cx_endpointUrl) +:+ ("/issue-credential-2.0/records/" +:+ UriText.encode id))
               [] (Some token) None) true;
          match data with
          | JNull => throw (JsError "Cannot read properties of null (reading 'cred_ex_record')")
          | _ => of_sum (mapCredentialExchange (get_prop "cred_ex_record" (Some data)))
          end).

(** ** Connections *)

Definition OOB_HANDSHAKE_PROTOCOLS : json := JArr [JStr "https://didcomm.org/didexchange/1.1"].
Definition OOB_ACCEPT : json := JArr [JStr "didcomm/aip1"; JStr "didcomm/aip2;env=rfc19"].
Definition OOB_PROTOCOL_VERSION : string := "1.1".

Definition traction_createInvitation (context : ConnectorContext) (opts : InvitationOptions)
    : Prog PortInvitation :=
  token ← getToken ne context;
  mapped (data ← http_request ne
            (mkHttp "POST" (context.(cx_endpointUrl) +:+ "/out-of-band/create-invitation")
               [("multi_use", JBool (default false opts.(io_multiUse)))] (Some token)
               (Some (JObj [("accept", OOB_ACCEPT); ("alias", JStr (default "" opts.(io_alias)));
                            ("goal", JStr ""); ("goal_code", JStr (default "" opts.(io_goalCode)));
                            ("handshake_protocols", OOB_HANDSHAKE_PROTOCOLS);
                            ("my_label", JStr (default "" opts.(io_label)));
                            ("protocol_version", JStr OOB_PROTOCOL_VERSION);
                            ("use_public_did", JBool false)]))) true;
          id ← of_sum (str_field "invi_msg_id" data);
          url ← of_sum (str_field "invitation_url" data);
          mret (mkInvitation id url None)).

Definition invalid_invitation (issue : string) : Exn :=
  AdapterError (AdapterValidation [issue]) "VALIDATION_ERROR" "Invalid invitation URL".

Definition decodeInvitationUrl (url : string) : Exn + json :=
  match ne.(ne_oob) url with
  | None => inl (invalid_invitation ("'" +:+ (url +:+ "' is not a valid invitation URL")))
  | Some oobParam =>
      match oobParam with
      | Some ((String _ _) as p) =>
          match JsonText.parse (ne.(ne_base64url) p) with
          | Some v => inr v
          | None => inl (invalid_invitation "the invitation URL's 'oob' parameter is not valid base64url JSON")
          end
      | _ => inl (invalid_invitation ("'" +:+ (url +:+ "' is missing an 'oob' query parameter")))
      end
  end.

Definition fetchConnection (context : ConnectorContext) (token connectionId : string) : Prog RemoteConnection :=
  data ← http_request ne
    (mkHttp "GET" (context.(cx_endpointUrl) +:+ ("/connections/" +:+ connectionId)) [] (Some token) None) true;
  of_sum (toConnection data).

Definition traction_acceptInvitation (context : ConnectorContext) (url : string) : Prog RemoteConnection :=
  invitation ← of_sum (decodeInvitationUrl url);
  token ← getToken ne context;
  mapped (data ← http_request ne
            (mkHttp "POST" (context.(cx_endpointUrl) +:+ "/out-of-band/receive-invitation") [] (Some token)
               (Some invitation)) true;
          id ← of_sum (str_field "connection_id" data);
          fetchConnection context token id).

(** [list] with the filters the services use. *)
Definition traction_listByInvitation (context : ConnectorContext) (invitationId : string) (limit : nat)
    : Prog (list RemoteConnection) :=
  token ← getToken ne context;
  mapped (data ← http_request ne
            (mkHttp "GET" (context.(cx_endpointUrl) +:+ "/connections")
               [("invitation_msg_id", JStr invitationId); ("limit", JNum (num_of_Z (Z.of_nat limit)))]
               (Some token) None) true;
          results ← of_sum (obj_field "results" data);
          match results with
          | JArr l => map_prog (fun r => of_sum (toConnection r)) l
          | _ => of_sum untyped
          end).

Definition traction_getById (context : ConnectorContext) (id : string) : Prog RemoteConnection :=
  token ← getToken ne context;
  mapped (fetchConnection context token id).

(** A connection the agent does not know is deleted already. *)
Definition traction_deleteById (context : ConnectorContext) (id : string) : Prog unit :=
  token ← getToken ne context;
  catch (_ ← http_request ne
           (mkHttp "DELETE" (context.(cx_endpointUrl) +:+ ("/connections/" +:+ id)) [] (Some token) None) true;
         mret tt)
    (fun error => match error with
                  | AxiosError (Some s) _ _ _ => if s =? 404 then mret tt else throw (mapHttpError error)
                  | _ => throw (mapHttpError error)
                  end).

(** ** The port *)

Definition traction_adapter (registration : RegistrationPort) : AgentAdapter :=
  mkAdapter [AnonCreds] traction_createInvitation traction_acceptInvitation traction_getById
    traction_listByInvitation traction_deleteById traction_offerCredential traction_issueCredential
    traction_getExchange (fun _ _ => notImplemented "acceptOffer") (fun _ _ => notImplemented "rejectOffer")
    (fun _ _ => notImplemented "revoke") (fun _ _ => notImplemented "requestPresentation") (Some registration).
End Adapter.
