(* ===== verification/TractionConnector.v ===== *)
(** * Traction: registration and connectors

    The registration of AnonCreds artifacts and the connector manager (connector/connectors/traction). *)

From Stdlib Require Import Ascii ZArith Lia.
From stdpp Require Import base decidable strings sets gmap list list_relations pretty.
From S2P Require Import Prelude Js OperationTtl JsText Redaction Entities StateMapping Db Encryption.
From S2P Require Import RateLimit ConnectionRepository ConnectorRepository ConnectorService AdapterRegistry TractionHttp.

(** * Registration of AnonCreds artifacts with Traction

    connector/connectors/traction/traction-definition-registration.service.ts as a
    [RegistrationPort]: the issuer, schemas and credential definitions of a tenant's
    wallet, and what of an agent's answer or error is passed on.  The answers are read
    as the JSON values they are; where the source would go on with a value of another
    type than it declares the model stops with [untyped]. *)

Local Open Scope Z_scope.

(** ** Values *)

(** [v.k] *)
Definition read_prop (k : string) (v : option json) : Exn + option json :=
  match v with
  | None => inl (JsError ("Cannot read properties of undefined (reading '" +:+ (k +:+ "')")))
  | Some JNull => inl (JsError ("Cannot read properties of null (reading '" +:+ (k +:+ "')")))
  | Some _ => inr (get_prop k v)
  end.

(** [a === b]; two arrays or objects of different responses are different. *)
Definition strict_eq (a b : option json) : bool :=
  match a, b with
  | None, None => true
  | Some (JArr _), _ | Some (JObj _), _ => false
  | Some x, Some y => json_eqb x y
  | _, _ => false
  end.

Definition nullish (a b : option json) : option json :=
  match a with None | Some JNull => b | _ => a end.

(** A property of a parameter object or a JSON body: left out when undefined. *)
Definition present (k : string) (v : option json) : list (string * json) :=
  match v with Some x => [(k, x)] | None => [] end.

Definition record_of (v : option json) : option json :=
  match v with Some (JObj _) => v | _ => None end.

(** [Number.isSafeInteger(v)] *)
Definition safe_integer (v : option json) : option Z :=
  match v with
  | Some (JNum (NFin m e)) =>
      let n := num_trunc m e in
      if ((0 <=? e) || (n * 2 ^ (- e) =? m)) && (Z.abs n <=? 9007199254740991) then Some n else None
  | _ => None
  end.

(** [const { k } = response] *)
Definition destructure (k : string) (response : json) : Exn + option json :=
  match response with
  | JNull => inl (JsError ("Cannot destructure property '" +:+ (k +:+ "' of '(intermediate value)' as it is null.")))
  | _ => inr (get_prop k (Some response))
  end.

(** A list of identifiers, or the error of using a missing one. *)
Definition string_ids (missing : Exn) (v : option json) : Exn + list string :=
  match v with None | Some JNull => inl missing | Some x => str_list x end.

Definition no_length (v : option json) : Exn :=
  match read_prop "length" v with inl e => e | inr _ => JsError "" end.

(** ** Errors *)

Definition credential_values (context : ConnectorContext) : list string := context.(cx_credentials).*2.

(** [/^[A-Z][A-Z0-9_]{0,99}$/] *)
Definition backend_code (s : string) : bool :=
  match s with
  | String c r => upper_char c &&
      forallb (fun x => upper_char x || digit_char x || eq_ascii x "_") (String.list_ascii_of_string r) &&
      (String.length r <=? 99)%nat
  | EmptyString => false
  end.

Definition AUTH_FAILED : string := "Backend authentication or authorization failed".
Definition REJECTED_REQUEST : string := "Backend rejected the registration request".
Definition NO_RESPONSE : string :=
  "Backend request did not return a response; reconcile any submitted artifacts".

(** What a failed call is reported as; [token] is the bearer token, if there was one. *)
Definition call_error (context : ConnectorContext) (token : option string) (error : Exn) : Exn :=
  match error with
  | AxiosError status data _ _ =>
      let body := record_of data in
      let nested := record_of (get_prop "error" body) in
      let secrets := default "" token :: credential_values context in
      let backendCode :=
        registrationErrorText (nullish (get_prop "code" nested) (get_prop "code" body)) secrets in
      let reason :=
        nullish (get_prop "reason" body)
          (nullish (get_prop "message" nested)
             (nullish (get_prop "detail" body)
                (nullish (get_prop "message" body)
                   (match get_prop "error" body with
                    | Some (JStr s) => Some (JStr s)
                    | _ => data
                    end)))) in
      RegistrationBackendError status
        (code ← backendCode; if backend_code code then Some code else None)
        (if bool_decide (status = Some 401) || bool_decide (status = Some 403) then AUTH_FAILED
         else match registrationErrorText reason secrets with
              | Some text => text
              | None => match status with Some _ => REJECTED_REQUEST | None => NO_RESPONSE end
              end)
  | _ => error
  end.

(** ** Submissions *)

(** The identifier the legacy Indy registrar takes: [/^did:indy:([1-9A-HJ-NP-Za-km-z]{21,22})$/] *)
Definition is_base58 (c : ascii) : bool :=
  (digit_char c || upper_char c || lower_char c) && negb (char_in "0OIl" c).

Definition toRegistrationIssuerId (issuerId : string) : Exn + string :=
  match JsonText.strip "did:indy:" issuerId with
  | Some identifier =>
      if ((String.length identifier =? 21)%nat || (String.length identifier =? 22)%nat) &&
         forallb is_base58 (String.list_ascii_of_string identifier)
      then inr identifier
      else inl (ValidationError ["The legacy Indy registrar requires an unnamespaced issuer identifier"])
  | None => inr issuerId
  end.

Definition registrationState (state : option json) : option ArtifactState :=
  match state with
  | Some (JStr s) =>
      if String.eqb s "finished" then Some Finished
      else if String.eqb s "action" then Some Action
      else if String.eqb s "wait" then Some Wait
      else if mem_str s ["failed"; "transaction_refused"; "transaction_cancelled"] then Some ArtifactFailed
      else if mem_str s ["transaction_created"; "request_received"] then Some Action
      else if mem_str s ["request_sent"; "transaction_acked"; "transaction_endorsed"; "transaction_resent";
                         "transaction_resent_received"] then Some Wait
      else None
  | _ => None
  end.

Definition usable_char (c : ascii) : bool := negb ((N_of_ascii c <=? 32) || (N_of_ascii c =? 127))%N.

Definition identifier (value : option json) : option string :=
  match value with
  | Some (JStr s) =>
      if negb (String.eqb s "") && (String.length s <=? 2048)%nat &&
         forallb usable_char (String.list_ascii_of_string s)
      then Some s else None
  | _ => None
  end.

Definition invalid_response (detail : string) : Exn :=
  RegistrationBackendError None (Some "INVALID_REGISTRATION_RESPONSE") detail.

(** [artifact] is [schema] or [credential_definition]. *)
Definition submission (response : json) (artifact : string) (context : ConnectorContext)
    : Exn + RegistrationSubmission :=
  let result := record_of (Some response) in
  let artifactState := record_of (get_prop (artifact +:+ "_state") result) in
  let id := identifier (get_prop (artifact +:+ "_id") artifactState) in
  let jobId := identifier (get_prop "job_id" result) in
  let txn := record_of (get_prop "txn" (record_of (get_prop "registration_metadata" result))) in
  let transactionId := identifier (get_prop "transaction_id" txn) in
  match registrationState (get_prop "state" artifactState) with
  | None => inl (invalid_response "Backend returned an unrecognized artifact registration state")
  | Some ArtifactFailed =>
      let reason := registrationErrorText (get_prop "reason" artifactState) (credential_values context) in
      inr (mkSubmission ArtifactFailed id jobId transactionId
             (Some (default "Backend reported artifact registration failure" reason)) None
             (Some "REGISTRATION_REJECTED"))
  | Some state =>
      if (bool_decide (state = Finished) && bool_decide (id = None)) ||
         (bool_decide (id = None) && bool_decide (jobId = None) && bool_decide (transactionId = None))
      then inl (invalid_response "Backend registration response has no usable correlation identifier")
      else inr (mkSubmission state id jobId transactionId None None None)
  end.

Section Registration.
Context (ne : NetEnv).

Definition call (context : ConnectorContext) (method path : string) (params : list (string * json))
    (data : option json) : Prog json :=
  token ← catch (getToken ne context) (fun error => throw (call_error context None error));
  catch (http_request ne (mkHttp method (context.(cx_endpointUrl) +:+ path) params (Some token) data)
           (negb (String.eqb method "POST")))
    (fun error => throw (call_error context (Some token) error)).

Definition call_get (context : ConnectorContext) (path : string) (params : list (string * json)) : Prog json :=
  call context "GET" path params None.

(** ** The port *)

Definition PUBLIC_DID_REQUIRED : Exn :=
  ValidationError ["PUBLIC_ISSUER_DID_REQUIRED: configure a matching public issuer DID in Traction"].

(** [selected && selected !== actual] *)
Definition differs (selected : option string) (actual : option json) : bool :=
  truthy_str selected && negb (strict_eq (JStr <$> selected) actual).

Definition traction_resolveIssuer (context : ConnectorContext) (selection : option IssuerSelection) : Prog string :=
  wallet ← call_get context "/tenant/wallet" [];
  settings ← of_sum (read_prop "settings" (Some wallet));
  type ← of_sum (read_prop "wallet.type" settings);
  if negb (strict_eq type (Some (JStr "askar-anoncreds")))
  then throw (ValidationError ["The issuer wallet must use askar-anoncreds"])
  else
    response ← call_get context "/wallet/did/public" [];
    issuer ← of_sum (destructure "result" response);
    if negb (truthy issuer) || differs (selection ≫= is_id) (get_prop "did" issuer) ||
       differs (selection ≫= is_method) (get_prop "method" issuer)
    then throw PUBLIC_DID_REQUIRED
    else
      ledger ← call_get context "/ledger/did-verkey" (present "did" (get_prop "did" issuer));
      verkey ← of_sum (read_prop "verkey" (Some ledger));
      if negb (strict_eq (get_prop "verkey" issuer) verkey)
      then throw (ValidationError ["Public issuer DID verification key mismatch"])
      else of_sum (str_field "did" (default JNull issuer)).

Definition traction_resolveSchema (context : ConnectorContext) (id : string) : Prog RegisteredSchema :=
  resolved ← call_get context ("/anoncreds/schema/" +:+ UriText.encode id) [];
  schema ← of_sum (read_prop "schema" (Some resolved));
  if negb (truthy schema) || negb (strict_eq (get_prop "schema_id" (Some resolved)) (Some (JStr id)))
  then throw (ValidationError ["Schema could not be resolved"])
  else mret (mkRegisteredSchema id
               (present "schema_name" (get_prop "name" schema) ++
                present "schema_version" (get_prop "version" schema) ++
                present "attr_names" (get_prop "attrNames" schema))).

(** The attributes of the schema found are those asked for. *)
Definition same_attributes (actual expected : option json) : bool :=
  match actual, expected with
  | Some (JArr xs), Some (JArr ys) =>
      (length xs =? length ys)%nat &&
      forallb (fun name => existsb (fun other => strict_eq (Some name) (Some other)) ys) xs
  | _, _ => false
  end.

Definition traction_findSchema (context : ConnectorContext) (issuerId : string) (definition : list (string * json))
    : Prog (option RegisteredSchema) :=
  issuer ← of_sum (toRegistrationIssuerId issuerId);
  result ← call_get context "/anoncreds/schemas"
    ([("schema_issuer_id", JStr issuer)] ++ present "schema_name" (assoc "schema_name" definition) ++
     present "schema_version" (assoc "schema_version" definition));
  ids ← of_sum (read_prop "schema_ids" (Some result));
  schema_ids ← of_sum (string_ids (no_length ids) ids);
  match schema_ids with
  | [] => mret None
  | [id] =>
      schema ← traction_resolveSchema context id;
      if same_attributes (assoc "attr_names" schema.(sc_definition)) (assoc "attr_names" definition)
      then mret (Some schema)
      else throw (ValidationError ["Existing schema name/version has different attributes"])
  | _ => throw (ValidationError ["Ambiguous schema registration"])
  end.

Definition traction_publishSchema (context : ConnectorContext) (issuerId : string)
    (definition : list (string * json)) : Prog RegistrationSubmission :=
  issuer ← of_sum (toRegistrationIssuerId issuerId);
  result ← call context "POST" "/anoncreds/schema" []
    (Some (JObj [("schema", JObj ([("issuerId", JStr issuer)] ++ present "name" (assoc "schema_name" definition) ++
                                  present "version" (assoc "schema_version" definition) ++
                                  present "attrNames" (assoc "attr_names" definition)))]));
  of_sum (submission result "schema" context).

(** One credential definition of the wallet: [false] under another tag. *)
Definition definition_matches (registrationIssuerId schemaId : string) (options : DefinitionOptions)
    (definition : option json) : Exn + bool :=
  match read_prop "tag" definition with
  | inl e => inl e
  | inr tag =>
      if negb (strict_eq tag (Some (JStr options.(do_tag)))) then inr false
      else
        let mismatch := ValidationError ["Existing credential definition does not match registration options"] in
        if negb (strict_eq (get_prop "issuerId" definition) (Some (JStr registrationIssuerId))) ||
           negb (strict_eq (get_prop "schemaId" definition) (Some (JStr schemaId)))
        then inl mismatch
        else match read_prop "revocation" (get_prop "value" definition) with
             | inl e => inl e
             | inr revocation =>
                 if negb (Bool.eqb (truthy revocation) options.(do_revocation)) then inl mismatch else inr true
             end
  end.

Fixpoint matching_definitions (context : ConnectorContext) (registrationIssuerId schemaId : string)
    (options : DefinitionOptions) (ids : list string) : Prog (list string) :=
  match ids with
  | [] => mret []
  | id :: rest =>
      response ← call_get context ("/anoncreds/credential-definition/" +:+ UriText.encode id) [];
      definition ← of_sum (destructure "credential_definition" response);
      matched ← of_sum (definition_matches registrationIssuerId schemaId options definition);
      others ← matching_definitions context registrationIssuerId schemaId options rest;
      mret (if matched : bool then id :: others else others)
  end.

Definition traction_findDefinition (context : ConnectorContext) (issuerId schemaId : string)
    (options : DefinitionOptions) : Prog (option string) :=
  issuer ← of_sum (toRegistrationIssuerId issuerId);
  result ← call_get context "/anoncreds/credential-definitions"
    [("issuer_id", JStr issuer); ("schema_id", JStr schemaId)];
  value ← of_sum (read_prop "credential_definition_ids" (Some result));
  ids ← of_sum (string_ids (JsError "result.credential_definition_ids is not iterable") value);
  matches ← matching_definitions context issuer schemaId options ids;
  match matches with
  | [] => mret None
  | [id] => mret (Some id)
  | _ => throw (ValidationError ["Ambiguous credential definition registration"])
  end.

Definition traction_publishDefinition (context : ConnectorContext) (issuerId schemaId : string)
    (options : DefinitionOptions) : Prog RegistrationSubmission :=
  issuer ← of_sum (toRegistrationIssuerId issuerId);
  result ← call context "POST" "/anoncreds/credential-definition" []
    (Some (JObj [("credential_definition",
                   JObj [("issuerId", JStr issuer); ("schemaId", JStr schemaId); ("tag", JStr options.(do_tag))]);
                 ("options", JObj [("support_revocation", JBool options.(do_revocation))]);
                 ("wait_for_revocation_setup", JBool false)]));
  of_sum (submission result "credential_definition" context).

(** The active registry of a definition; none yet is [None]. *)
Definition active_registry (context : ConnectorContext) (definitionId : string) : Prog (option (option json)) :=
  catch (response ← call_get context ("/anoncreds/revocation/active-registry/" +:+ UriText.encode definitionId) [];
         record ← of_sum (read_prop "result" (Some response));
         mret (Some record))
    (fun error => match error with
                  | RegistrationBackendError (Some s) _ _ => if s =? 404 then mret None else throw error
                  | _ => throw error
                  end).

(** A finished registry of the definition and how many credentials it holds. *)
Definition usable_registry (record : option json) (definitionId : string) : Exn + option (string * Z) :=
  match read_prop "cred_def_id" record with
  | inl e => inl e
  | inr d =>
      if negb (strict_eq d (Some (JStr definitionId))) ||
         negb (strict_eq (get_prop "state" record) (Some (JStr "finished"))) ||
         negb (truthy (get_prop "revoc_reg_id" record))
      then inr None
      else match safe_integer (get_prop "max_cred_num" record) with
           | Some max => if max <=? 0 then inr None
                         else match get_prop "revoc_reg_id" record with
                              | Some (JStr id) => inr (Some (id, max))
                              | _ => untyped
                              end
           | None => inr None
           end
  end.

Definition traction_verifyRevocation (context : ConnectorContext) (definitionId : string) : Prog bool :=
  found ← active_registry context definitionId;
  match found with
  | None => mret false
  | Some record =>
      usable ← of_sum (usable_registry record definitionId);
      match usable with
      | None => mret false
      | Some (id, max) =>
          let path := "/anoncreds/revocation/registry/" +:+ UriText.encode id in
          delta ← call_get context (path +:+ "/issued/indy_recs") [];
          issued ← call_get context (path +:+ "/issued") [];
          d ← of_sum (read_prop "rev_reg_delta" (Some delta));
          if negb (truthy (get_prop "accum" (get_prop "value" d))) then mret false
          else
            n ← of_sum (read_prop "result" (Some issued));
            mret (match safe_integer n with Some k => (0 <=? k) && (k <? max) | None => false end)
      end
  end.

Definition traction_registration : RegistrationPort :=
  mkRegistrationPort traction_resolveIssuer traction_resolveSchema traction_findSchema traction_publishSchema
    traction_findDefinition traction_publishDefinition traction_verifyRevocation.
End Registration.

(** * The Traction connector

    connector/connectors/traction/traction-connector.service.ts and
    traction-webhook-registrar.service.ts as a [ConnectorManager]: the connectivity
    check, the credentials and the agent's webhook list.  The registrar's transaction
    holds an advisory lock and writes no row; the lock orders the registrations of one
    wallet, so that a registration reads the list its predecessor wrote. *)

Local Open Scope Z_scope.

(** The public address of the service and the random bytes of the process. *)
Record TractionConfig := mkTractionConfig {
  tf_publicUrl : string;
  tf_hex : nat -> string -> string                  (* [randomBytes(n).toString('hex')] *)
}.

(** [/^[0-9a-f]{8}-[0-9a-f]{4}-[0-9a-f]{4}-[0-9a-f]{4}-[0-9a-f]{12}$/] *)
Definition lower_hex (c : ascii) : bool := digit_char c || in_range 97 102 c.

Definition CANONICAL_UUID_PATTERN : list (ascii -> bool) :=
  let dash := [eq_ascii "-"%char] in
  replicate 8 lower_hex ++ dash ++ replicate 4 lower_hex ++ dash ++ replicate 4 lower_hex ++ dash ++
  replicate 4 lower_hex ++ dash ++ replicate 12 lower_hex.

(** ** Credentials *)

Definition set_if_given (k : string) (updates existing : Credentials) : Credentials :=
  match assoc k updates with Some v => assoc_set k v existing | None => existing end.

Definition traction_mergeCredentials (existing updates : Credentials) : Credentials :=
  set_if_given "webhookSecret" updates
    (set_if_given "tractionTenantId" updates (set_if_given "apiKey" updates existing)).

(** ** The webhook list *)

Definition isOurEntry (webhookUrl entry : string) : bool :=
  String.eqb entry webhookUrl || String.prefix (webhookUrl +:+ "#") entry.

Definition own_entry (webhookUrl webhookSecret : string) : string := webhookUrl +:+ ("#" +:+ webhookSecret).

(** The list [PUT] replaces the old one with. *)
Definition registered_entries (entries : list string) (webhookUrl webhookSecret : string) : list string :=
  filter (fun entry => isOurEntry webhookUrl entry = false) entries ++ [own_entry webhookUrl webhookSecret].

Section Connector.
Context (ne : NetEnv) (config : TractionConfig).

(** ** Connectivity *)

(** The sub-wallet id of the token Traction issued. *)
Definition readWalletId (body : option json) : option string :=
  match body with
  | Some (JObj o) =>
      match assoc "token" o with
      | Some (JStr token) =>
          match ne.(ne_decodeJwt) token with
          | Some claims => match assoc "wallet_id" claims with
                           | Some (JStr walletId) =>
                               if match_chars CANONICAL_UUID_PATTERN walletId then Some walletId else None
                           | _ => None
                           end
          | None => None
          end
      | _ => None
      end
  | _ => None
  end.

Definition unhealthy (latencyMs : Z) (message : string) : ConnectorHealthCheckResult :=
  mkHealth false latencyMs (Some message) None.

Definition token_fetch (endpointUrl apiKey tractionTenantId : string) : HttpRequest :=
  mkHttp "POST" (buildTractionTokenUrl endpointUrl tractionTenantId) [] None
    (Some (buildTractionTokenRequestBody apiKey)).

Definition traction_check (endpointUrl : string) (credentials : Credentials) : Prog ConnectorHealthCheckResult :=
  _ ← assertSafeConnectorUrl ne endpointUrl;
  start ← now_ms;
  match assoc "tractionTenantId" credentials, assoc "apiKey" credentials with
  | Some ((String _ _) as tractionTenantId), Some apiKey =>
      catch (response ← fetch_send ne (token_fetch endpointUrl apiKey tractionTenantId);
             now ← now_ms;
             let '(status, body) := response in
             mret (if negb ((200 <=? status) && (status <=? 299))
                   then unhealthy (now - start) ("Unexpected response status " +:+ pretty status)
                   else mkHealth true (now - start) None (readWalletId body)))
        (fun error => now ← now_ms; mret (unhealthy (now - start) (exn_message error)))
  | _, _ => now ← now_ms; mret (unhealthy (now - start) "Traction connectors require traction_tenant_id.")
  end.

Definition traction_prepareCredentials (credentials : Credentials) : Prog Credentials :=
  if truthy_str (assoc "webhookSecret" credentials) then mret credentials
  else
    u ← gen_uuid;
    mret (assoc_set "webhookSecret" (config.(tf_hex) 32 u) credentials).

(** ** TractionWebhookRegistrar *)

Definition buildWebhookUrl (connectorId : string) : string :=
  config.(tf_publicUrl) +:+ (API_BASE_PATH +:+ ("/connectors/" +:+ (connectorId +:+ "/webhooks/traction"))).

Definition webhook_urls (data : json) : Exn + list string :=
  match data with
  | JNull => inl (JsError "Cannot read properties of null (reading 'wallet_webhook_urls')")
  | _ => match get_prop "wallet_webhook_urls" (Some data) with
         | None | Some JNull => inr []
         | Some v => str_list v
         end
  end.

Definition wallet_request (context : ConnectorContext) (method token : string) (data : option json) : HttpRequest :=
  mkHttp method (buildTractionWalletUrl context.(cx_endpointUrl)) [] (Some token) data.

Definition fetchCurrentEntries (context : ConnectorContext) : Prog (string * list string) :=
  _ ← assertSafeConnectorUrl ne context.(cx_endpointUrl);
  token ← getToken ne context;
  current ← http_request ne (wallet_request context "GET" token None) true;
  entries ← of_sum (webhook_urls current);
  mret (token, entries).

(** [context.credentials.webhookSecret as string] in a template *)
Definition webhook_secret (context : ConnectorContext) : string :=
  default "undefined" (assoc "webhookSecret" context.(cx_credentials)).

Definition traction_ensureWebhookRegistered (context : ConnectorContext) : Prog unit :=
  current ← fetchCurrentEntries context;
  let '(token, entries) := current in
  _ ← http_request ne
    (wallet_request context "PUT" token
       (Some (JObj [("wallet_webhook_urls",
                      JArr (JStr <$> registered_entries entries (buildWebhookUrl context.(cx_connectorId))
                                       (webhook_secret context)))]))) true;
  mret tt.

Definition traction_isWebhookRegistered (context : ConnectorContext) : Prog bool :=
  current ← fetchCurrentEntries context;
  mret (mem_str (own_entry (buildWebhookUrl context.(cx_connectorId)) (webhook_secret context)) current.2).

Definition traction_manager : ConnectorManager :=
  mkManager traction_check traction_prepareCredentials traction_mergeCredentials traction_ensureWebhookRegistered
    traction_isWebhookRegistered token_evict.
End Connector.
