(* ===== verification/TractionCorrectness.v ===== *)
(** * The Traction client: its ports, its traffic and its errors *)

From Stdlib Require Import Ascii ZArith Lia.
From stdpp Require Import base decidable strings sets gmap list list_relations.
From S2P Require Import Prelude Js OperationTtl JsText Redaction Entities StateMapping Db Encryption RateLimit.
From S2P Require Import ConnectionRepository ConnectorRepository ConnectorService AdapterRegistry.
From S2P Require Import TractionHttp TractionAdapter TractionConnector.

Local Open Scope Z_scope.

(** ** The ports

    The adapter, the registration service and the connector manager discharge the
    interfaces the services are verified against. *)
Section Ports.
Context (R : relation DB) `{!PreOrder R} (ne : NetEnv) `{!NetLaws R ne} (config : TractionConfig).

Lemma pres_http_send q : Pres R (http_send ne q).
Proof.
  intros w. unfold http_send. pose proof (nl_axios (R := R) (ne := ne) q w) as H.
  by destruct (ne_axios ne q w) as [w' r].
Qed.

#[local] Instance pres_fetch_send q : Pres R (fetch_send ne q).
Proof.
  intros w. unfold fetch_send. pose proof (nl_fetch (R := R) (ne := ne) q w) as H.
  destruct (ne_fetch ne q w) as [w' r]. by destruct (ne_url ne (hq_url q)).
Qed.

#[local] Instance pres_set_token i t : Pres R (set_token i t).
Proof. intros w. by split. Qed.
#[local] Instance pres_get_cached i : Pres R (get_cached i).
Proof. intros w. reflexivity. Qed.
#[local] Instance pres_token_evict i : Pres R (token_evict i).
Proof. intros w. by split. Qed.

#[local] Instance pres_assertSafe u : Pres R (assertSafeConnectorUrl ne u).
Proof. unfold assertSafeConnectorUrl, resolveHostnameAddresses, unresolved. solve_pres. Qed.

#[local] Instance pres_http_request q b : Pres R (http_request ne q b).
Proof.
  unfold http_request. apply pres_bind; [done|solve_pres|]. intros _.
  destruct b; [apply nl_retry|apply nl_breaker]; apply pres_http_send.
Qed.

#[local] Instance pres_readExpiry t : Pres R (readExpiry ne t).
Proof. unfold readExpiry. solve_pres. Qed.

#[local] Instance pres_acquireToken c : Pres R (acquireToken ne c).
Proof. unfold acquireToken. solve_pres. Qed.

#[local] Instance pres_getToken c : Pres R (getToken ne c).
Proof. unfold getToken. solve_pres. Qed.

#[local] Instance pres_mapped {A} (m : Prog A) : Pres R m -> Pres R (mapped m).
Proof. intros. unfold mapped. solve_pres. Qed.

#[local] Instance pres_call c m p q d : Pres R (call ne c m p q d).
Proof. unfold call. solve_pres. Qed.

#[local] Instance pres_matching c i s o l : Pres R (matching_definitions ne c i s o l).
Proof. unfold matching_definitions, call_get. induction l; solve_pres. Qed.

#[local] Instance pres_fetchCurrentEntries c : Pres R (fetchCurrentEntries ne c).
Proof. unfold fetchCurrentEntries. solve_pres. Qed.

Lemma registration_laws : RegistrationLaws R (traction_registration ne).
Proof.
  split; intros; simpl.
  all: unfold traction_resolveIssuer, traction_findSchema, traction_resolveSchema, traction_publishSchema,
         traction_findDefinition, traction_publishDefinition, traction_verifyRevocation, active_registry, call_get;
       solve_pres.
Qed.

Lemma adapter_laws p : RegistrationLaws R p -> AdapterLaws R (traction_adapter ne p).
Proof.
  intros Hp. split; simpl; intros; try (by simplify_eq).
  all: unfold traction_createInvitation, traction_acceptInvitation, traction_getById, traction_listByInvitation,
         traction_deleteById, traction_offerCredential, traction_issueCredential, traction_getExchange,
         fetchConnection, notImplemented; solve_pres.
Qed.

Lemma manager_laws : ManagerLaws R (traction_manager ne config).
Proof.
  split; simpl; intros.
  - unfold traction_check. solve_pres.
  - unfold traction_prepareCredentials. solve_pres.
  - unfold traction_prepareCredentials in H0. destruct (truthy_str _); [by injection H0 as <- <-|].
    run_inv H0. injection H0 as <- <-. by apply assoc_set_keys.
  - unfold traction_mergeCredentials, set_if_given. by repeat (case_match; try apply assoc_set_keys).
  - unfold traction_ensureWebhookRegistered. solve_pres.
  - unfold traction_isWebhookRegistered. solve_pres.
  - apply _.
Qed.

(** Traction's client implements the ports of the service.  Whatever the network and
    the agent do while a call waits, as long as the tables move along [R] meanwhile,
    every operation of the Traction adapter, of its AnonCreds registration and of its
    connector manager moves them along [R] only, whether it answers or fails: the
    adapter, with the registration, satisfies the interface the exchange, offer,
    revocation and registration theorems assume of an agent, and the manager the one
    the connector theorems assume. *)
Theorem traction_implements_ports :
  AdapterLaws R (traction_adapter ne (traction_registration ne)) /\ ManagerLaws R (traction_manager ne config).
Proof. split; [apply adapter_laws, registration_laws|apply manager_laws]. Qed.
End Ports.

Lemma traction_implements_ports_witness :
  AdapterLaws eq (traction_adapter (sample_net [] (fun _ => inr JNull)) (traction_registration (sample_net [] (fun _ => inr JNull)))).
Proof.
  exact (proj1 (traction_implements_ports eq (sample_net [] (fun _ => inr JNull)) (mkTractionConfig "https://service" (fun _ u => u)))).
Defined.

(** ** Errors *)

(** axios rejects with its own error; an open circuit rejects before anything is sent,
    a closed one runs the call; retrying fails with an error of the call, or of the
    circuit. *)
Class WireLaws (ne : NetEnv) : Prop := {
  wr_axios q w w' e : ne.(ne_axios) q w = (w', inl e) -> exists s d c m, e = AxiosError s d c m;
  wr_breaker m w : ne.(ne_breaker) m w = m w \/ exists msg, ne.(ne_breaker) m w = (w, inl (JsError msg));
  wr_retry m (P : Exn -> Prop) : (forall msg, P (JsError msg)) ->
    (forall w w' e, m w = (w', inl e) -> P e) -> forall w w' e, ne.(ne_retry) m w = (w', inl e) -> P e
}.

#[export] Instance sample_wire_laws initial answer :
  (forall q e, answer q = inl e -> exists s d c m, e = AxiosError s d c m) -> WireLaws (sample_net initial answer).
Proof.
  intros Ha. split.
  - intros q w w' e. simpl. unfold sample_axios. intros [= <- H]. repeat case_match; simplify_eq. by eapply Ha.
  - intros m w. by left.
  - intros m P _ Hm. exact Hm.
Qed.

(** A status that says the request was refused, not that its fate is unknown. *)
Definition definitive (status : Z) : Prop := status < 500 /\ status <> 408 /\ status <> 429.

(** A single submission, its answer, and the pod with the request logged. *)
Definition submitted (ne : NetEnv) (q : HttpRequest) (w w' : World) (r : Exn + json) : Prop :=
  exists w1, ne.(ne_axios) q w = (w1, r) /\
    w' = set_pod (mkPod w1.(pod).(pd_tokens) (w1.(pod).(pd_http) ++ [(q, r)])) w1.

Section Submission.
Context (ne : NetEnv) `{!WireLaws ne}.

Lemma catch_inl {A} (p : Prog A) h w w' e :
  catch p h w = (w', inl e) -> exists w1 e1, p w = (w1, inl e1) /\ h e1 w1 = (w', inl e).
Proof. unfold catch. destruct (p w) as [w1 [e1|a]]; intros H; [by exists w1, e1|done]. Qed.

(** An address that is refused is reported as such. *)
Lemma assertSafe_error u w w' e :
  assertSafeConnectorUrl ne u w = (w', inl e) ->
  (forall s d c m, e <> AxiosError s d c m) /\ (forall k c m, e <> AdapterError k c m).
Proof.
  assert (forall m, e = UnprocessableEntityException m ->
    (forall s d c m, e <> AxiosError s d c m) /\ (forall k c m, e <> AdapterError k c m)) as He by (by intros m ->).
  unfold assertSafeConnectorUrl, resolveHostnameAddresses, unresolved.
  intros H. destruct (ne_url ne u) as [[pr h]|]; [|injection H as <- <-; by eapply He].
  destruct (negb _); [injection H as <- <-; by eapply He|].
  apply bind_inl in H as [H|(w1 & l & _ & H)].
  - destruct (_ || _); [done|]. unfold catch in H. destruct (ne_lookup ne _ w) as [w1 [e1|]]; [|done].
    injection H as <- <-. by eapply He.
  - repeat (case_match; try done); injection H as <- <-; by eapply He.
Qed.

(** Without retries a request is refused before it is sent, or sent once, where the check
    of its address ended. *)
Lemma request_once q w w' r :
  http_request ne q false w = (w', r) -> q.(hq_url) <> "" ->
  (exists e, r = inl e /\ (forall s d c m, e <> AxiosError s d c m) /\ (forall k c m, e <> AdapterError k c m)) \/
  (exists w1, assertSafeConnectorUrl ne q.(hq_url) w = (w1, inr tt) /\ submitted ne q w1 w' r).
Proof.
  unfold http_request, mbind, prog_bind. intros H Hu. rewrite (proj2 (String.eqb_neq _ _) Hu) in H.
  assert (forall w1, ne.(ne_breaker) (http_send ne q) w1 = (w', r) ->
    (exists e, r = inl e /\ (forall s d c m, e <> AxiosError s d c m) /\ (forall k c m, e <> AdapterError k c m)) \/
    submitted ne q w1 w' r) as Hb.
  { intros w1 E. destruct (wr_breaker (http_send ne q) w1) as [E'|[msg E']]; rewrite E' in E.
    - right. unfold http_send in E. destruct (ne_axios ne q w1) as [w2 r2] eqn:Ea.
      injection E as <- <-. by exists w2.
    - left. injection E as <- <-. by eexists. }
  destruct (assertSafeConnectorUrl ne (hq_url q) w) as [w1 [e|[]]] eqn:Es;
    [|destruct (Hb w1 H) as [He|Hs]; [by left|right; by exists w1]].
  injection H as <- <-. left. exists e. split; [done|]. by eapply assertSafe_error.
Qed.

Lemma mapCredentialExchange_error record e reason c m :
  mapCredentialExchange record = inl e -> e <> AdapterError (SubmissionRejected reason) c m.
Proof. unfold mapCredentialExchange, untyped, invalid_exchange, ValidationError. intros H. by repeat case_match; simplify_eq. Qed.

(** Only a definitive refusal of the agent is taken for a rejection. *)
Lemma issue_error_rejected e reason c m :
  (forall k c m, e <> AdapterError k c m) -> issue_error e = AdapterError (SubmissionRejected reason) c m ->
  exists s d code msg, e = AxiosError (Some s) d code msg /\ definitive s.
Proof.
  intros Hna H. unfold issue_error, mapHttpError, SubmissionRejectedError in H.
  destruct e as [| | | | | | | | | | | |k c' m'| | |[s|] d code msg|]; simpl in H; try done; [by destruct (Hna k c' m')| |].
  - exists s, d, code, msg. split; [done|].
    destruct (Z.eqb_spec s 408); [done|]. destruct (Z.eqb_spec s 404) as [->|]; [done|].
    destruct (Z.eqb_spec s 429); simpl in H; [by destruct (bool_decide _)|].
    destruct (Z.ltb_spec s 500); [done|]. by destruct (bool_decide _).
  - by destruct (bool_decide _).
Qed.
End Submission.

(** C18: a rejected issuance was never accepted.  When the adapter reports that an
    issuance was not submitted, either no token could be obtained, and the issue request
    was not sent, or the call consisted of obtaining the token, checking the address and
    sending the issue request once, in that order and nothing after it, and the agent
    answered that one request with a status that refuses it: a time-out, a rate limit, a server error, a lost answer, an open
    circuit or an unreadable answer is never reported as a rejection. *)
Theorem rejected_issue_definitive ne context id w w' reason c m :
  WireLaws ne ->
  traction_issueCredential ne context id w = (w', inl (AdapterError (SubmissionRejected reason) c m)) ->
  (exists e, getToken ne context w = (w', inl e)) \/
  (exists token w1 w2 status data code msg,
     getToken ne context w = (w1, inr token) /\
     assertSafeConnectorUrl ne (issue_request context token id).(hq_url) w1 = (w2, inr tt) /\
     submitted ne (issue_request context token id) w2 w' (inl (AxiosError (Some status) data code msg)) /\
     definitive status).
Proof.
  intros HW H. unfold traction_issueCredential in H. apply bind_inl in H as [H|(w1 & token & Et & H)].
  { left. apply catch_inl in H as (w1 & e & He & H). injection H as <- _. by exists e. }
  right. apply catch_inr in Et as [Et|(? & ? & _ & Et)]; [|done].
  apply bind_inl in H as [H|(w2 & record & _ & H)].
  - apply catch_inl in H as (w2 & e & Eb & H). injection H as <- He.
    apply bind_inl in Eb as [Eb|(w3 & data & _ & Eb)].
    + apply request_once in Eb as [(e' & [= <-] & Hx & Hna)|(w0 & Hsafe & Hsub)]; [| |done|unfold issue_request; simpl; by destruct (cx_endpointUrl context)].
      { apply issue_error_rejected in He as (? & ? & ? & ? & -> & _); [|done]. by destruct (Hx _ _ _ _ eq_refl). }
      destruct Hsub as (w3 & Ha & Hw). destruct (wr_axios _ _ _ _ Ha) as (? & ? & ? & ? & ->).
      apply issue_error_rejected in He as (s & d & code & msg & [= -> -> -> ->] & Hd); [|done].
      exists token, w1, w0, s, d, code, msg. split_and!; [done..| |done]. by exists w3.
    + exfalso. destruct data; try done. injection Eb as _ <-. done.
  - exfalso. injection H as _ H. by eapply mapCredentialExchange_error.
Qed.

Lemma rejected_issue_definitive_witness :
  let ne := sample_net [] (fun _ => inl (AxiosError (Some 422) None None "unprocessable")) in
  let w := world_of empty_db 0 in
  let w' := (traction_issueCredential ne sample_context "x" w).1 in
  (exists e, getToken ne sample_context w = (w', inl e)) \/
  (exists token w1 w2 status data code msg,
     getToken ne sample_context w = (w1, inr token) /\
     assertSafeConnectorUrl ne (issue_request sample_context token "x").(hq_url) w1 = (w2, inr tt) /\
     submitted ne (issue_request sample_context token "x") w2 w' (inl (AxiosError (Some status) data code msg)) /\
     definitive status).
Proof.
  intros ne w w'. apply (rejected_issue_definitive ne sample_context "x" w w' "validation" "SUBMISSION_REJECTED"
    "Credential issue was not submitted").
  - apply sample_wire_laws. intros q e [= <-]. by eexists _, _, _, _.
  - vm_compute. reflexivity.
Defined.

(** ** Diagnostics *)

Definition plain_error (e : Exn) : Prop := forall s c d, e <> RegistrationBackendError s c d.

Section Diagnostics.
Context (ne : NetEnv) `{!WireLaws ne} (context : ConnectorContext).

Lemma http_send_plain q w w' e : http_send ne q w = (w', inl e) -> plain_error e.
Proof.
  unfold http_send. destruct (ne_axios ne q w) as [w1 [e1|]] eqn:E; intros H; [|done].
  injection H as _ <-. by apply wr_axios in E as (? & ? & ? & ? & ->).
Qed.

Lemma assertSafe_plain u w w' e : assertSafeConnectorUrl ne u w = (w', inl e) -> plain_error e.
Proof.
  unfold assertSafeConnectorUrl, resolveHostnameAddresses, unresolved, plain_error. intros H.
  destruct (ne_url ne u) as [[pr h]|]; [|by injection H as <- <-]. destruct (negb _); [by injection H as <- <-|].
  apply bind_inl in H as [H|(w1 & l & _ & H)]; [|by repeat (case_match; try done); injection H as <- <-].
  destruct (_ || _); [done|]. apply catch_inl in H as (? & ? & _ & H). by injection H as <- <-.
Qed.

Lemma http_request_plain q b w w' e : http_request ne q b w = (w', inl e) -> plain_error e.
Proof.
  unfold http_request. intros [H|(w1 & [] & _ & H)]%bind_inl.
  - destruct (String.eqb _ _); [done|]. by eapply assertSafe_plain.
  - destruct b; [by eapply (wr_retry _ plain_error); [..|exact H]; [|apply http_send_plain]|].
    destruct (wr_breaker (http_send ne q) w1) as [E|[msg E]]; rewrite E in H; [by eapply http_send_plain|].
    by injection H as <- <-.
Qed.

Lemma getToken_plain w w' e : getToken ne context w = (w', inl e) -> plain_error e.
Proof.
  assert (forall w, acquireToken ne context w = (w', inl e) -> plain_error e) as Ha.
  { clear w. intros w H. unfold acquireToken in H. apply bind_inl in H as [H|(? & [k t] & _ & H)].
    { injection H as _ H. unfold readCredentials, missing_credential in H. by repeat case_match; simplify_eq. }
    apply bind_inl in H as [H|(? & ? & _ & H)]; [by eapply assertSafe_plain|].
    apply bind_inl in H as [H|(? & data & _ & H)]; [by eapply http_request_plain|].
    apply bind_inl in H as [H|(? & token & _ & H)].
    { injection H as _ H. unfold str_field, untyped in H. by repeat case_match; simplify_eq. }
    apply bind_inl in H as [H|(? & ? & _ & H)]; [|done]. unfold readExpiry in H. by repeat case_match. }
  unfold getToken. intros [H|(? & o & _ & H)]%bind_inl; [done|]. apply bind_inl in H as [H|(? & now & _ & H)]; [done|].
  destruct o; [|by eapply Ha]. destruct (_ && _); [done|by eapply Ha].
Qed.

(** What a call fails with. *)
Lemma call_fails method path params data w w' e :
  call ne context method path params data w = (w', inl e) ->
  exists token error, e = call_error context token error /\ plain_error error /\
    (forall w1 t, getToken ne context w = (w1, inr t) -> token = Some t).
Proof.
  unfold call. intros [H|(w1 & t & Et & H)]%bind_inl.
  - apply catch_inl in H as (w1 & error & Eg & H). injection H as _ <-. exists None, error.
    split_and!; [done|by eapply getToken_plain|]. intros. congruence.
  - apply catch_inr in Et as [Et|(? & ? & _ & Et)]; [|done].
    apply catch_inl in H as (w2 & error & Eq & H). injection H as _ <-. exists (Some t), error.
    split_and!; [done|by eapply http_request_plain|]. intros. congruence.
Qed.
End Diagnostics.

(** The texts of the service itself. *)
Definition own_texts : list string := [AUTH_FAILED; REJECTED_REQUEST; NO_RESPONSE].

Lemma call_error_redacted context token error status code detail secret :
  plain_error error -> call_error context token error = RegistrationBackendError status code detail ->
  secret ∈ default "" token :: credential_values context -> redactable secret ->
  (forall x, code = Some x -> ~ occurs secret x) /\ (detail ∈ own_texts \/ ~ occurs secret detail).
Proof.
  unfold call_error. intros Hp He Hin Hs. destruct error as [| | | | | | | | | | | | | |? ? ?|st d ? ?|]; try done;
    [by edestruct Hp|].
  injection He as <- <- <-. split.
  - intros x Hx. destruct (registrationErrorText (nullish _ _) _) as [t|] eqn:Et; [|done]. simpl in Hx.
    destruct (backend_code t); [|done]. injection Hx as <-. by eapply registrationErrorText_clean.
  - unfold own_texts. destruct (_ || _); [left; set_solver|].
    destruct (registrationErrorText _ _) as [t|] eqn:Et; [|left; destruct st; set_solver].
    right. by eapply registrationErrorText_clean.
Qed.

(** C19: agent diagnostics carry no credential.  Whatever a call to the agent's
    registration interface fails with, it is not an HTTP error, whose configuration
    holds the credentials; and if it is the error passed on to the tenant, neither its
    code nor its text contains the bearer token of the call or any credential of the
    connector, for every secret without a space or a bracket in it that is not itself a
    piece of the redaction marks ([redactable]); only the service's own three texts are
    exempt. *)
Theorem registration_errors_redacted ne context method path params data w w' e :
  WireLaws ne -> call ne context method path params data w = (w', inl e) ->
  (forall s d c m, e <> AxiosError s d c m) /\
  (forall status code detail secret, e = RegistrationBackendError status code detail ->
     secret ∈ credential_values context \/ (exists w1, getToken ne context w = (w1, inr secret)) ->
     redactable secret ->
     (forall x, code = Some x -> ~ occurs secret x) /\ (detail ∈ own_texts \/ ~ occurs secret detail)).
Proof.
  intros HW (token & error & -> & Hp & Ht)%call_fails; [|done]. split.
  - intros s d c m. unfold call_error. by destruct error.
  - intros status code detail secret He Hin Hs. eapply call_error_redacted; [done..| |done].
    destruct Hin as [Hin|[w1 Hw]]; [by right|]. rewrite (Ht _ _ Hw). left.
Qed.

Lemma registration_errors_redacted_witness :
  let ne := sample_net [] (fun _ => inl (AxiosError (Some 400)
    (Some (JObj [("reason", JStr "rejected: api-key tok of s3cr3t"); ("code", JStr "BAD")])) None "m")) in
  let context := mkContext "k" "t" "https://agent" [("apiKey", "s3cr3t"); ("tractionTenantId", "w")] in
  let e := RegistrationBackendError (Some 400) (Some "BAD") "rejected: api-key [REDACTED] of [REDACTED]" in
  (call ne context "GET" "/x" [] None (world_of empty_db 0)).2 = inl e /\
  (exn_message e ∈ own_texts \/ ~ occurs "s3cr3t" (exn_message e)).
Proof.
  intros ne context e. split; [vm_compute; reflexivity|].
  refine (proj2 (proj2 (registration_errors_redacted ne context "GET" "/x" [] None (world_of empty_db 0)
    (call ne context "GET" "/x" [] None (world_of empty_db 0)).1 e _ _) (Some 400) (Some "BAD") _ "s3cr3t" eq_refl _ _)).
  - apply sample_wire_laws. intros q e' [= <-]. by eexists _, _, _, _.
  - vm_compute. reflexivity.
  - left. simpl. left.
  - by apply redactableb_spec.
Defined.
