(* ===== verification/TractionTraffic.v ===== *)
(** * What the service sends to agents

    An invariant of the pod: every request on the wire went to a safe address, a
    bearer token only ever to the endpoint that issued it, and the cache holds only
    tokens of the endpoint they are filed with.  Other requests of the same pod run
    while one waits for an answer; they are taken to keep the invariant, as every
    operation here is shown to. *)

From Stdlib Require Import Ascii ZArith Lia.
From stdpp Require Import base decidable strings sets gmap list list_relations.
From S2P Require Import Prelude Js OperationTtl JsText Redaction Entities StateMapping Db Encryption RateLimit.
From S2P Require Import ConnectionRepository ConnectorRepository ConnectorService AdapterRegistry.
From S2P Require Import TractionHttp TractionAdapter TractionConnector.

Local Open Scope Z_scope.

(** ** The invariant *)

Definition extends (p p' : Pod) : Prop := exists l, p'.(pd_http) = p.(pd_http) ++ l.

#[export] Instance extends_preorder : PreOrder extends.
Proof.
  split; [intros p; exists []; by rewrite app_nil_r|].
  intros p1 p2 p3 [l1 E1] [l2 E2]. exists (l1 ++ l2). by rewrite E2, E1, app_assoc.
Qed.





Class Stable (F : Pod -> Prop) : Prop := stable p p' : extends p p' -> F p -> F p'.

#[export] Instance stable_and F G : Stable F -> Stable G -> Stable (fun p => F p /\ G p).
Proof. intros HF HG p p' He [Hf Hg]. split; by eapply stable. Qed.

(** ** Triples: from a pod in order, where [F] holds *)




Section Rules.
Context (ne : NetEnv) `{!TrafficLaws ne}.







End Rules.

(** ** Requests *)
Section Requests.
Context (ne : NetEnv) `{!TrafficLaws ne}.




End Requests.

(** ** Tokens *)
Section Tokens.
Context (ne : NetEnv) `{!TrafficLaws ne}.




End Tokens.

(** ** The operations *)





Section Operations.
Context (ne : NetEnv) `{!TrafficLaws ne} (config : TractionConfig).




















End Operations.




