(* ===== verification/TractionWebhooks.v ===== *)
(** * Webhook registrations

    The registrar writes the whole webhook list of a wallet that others use too.  The
    list an agent holds is a function of the world; [WalletLaws] says what the agent's
    wallet endpoint documents of it. *)

From Stdlib Require Import Ascii ZArith Lia.
From stdpp Require Import base decidable strings sets gmap list list_relations.
From S2P Require Import Prelude Js OperationTtl JsText Redaction Entities StateMapping Db Encryption RateLimit.
From S2P Require Import ConnectorRepository ConnectorService TractionHttp TractionConnector.

Local Open Scope Z_scope.

(** ** The list *)

Section Entries.
Context (webhookUrl webhookSecret : string).

Lemma own_entry_ours : isOurEntry webhookUrl (own_entry webhookUrl webhookSecret) = true.
Proof.
  unfold isOurEntry, own_entry. apply orb_true_iff. right. apply prefix_spec. exists webhookSecret.
  by rewrite assoc_string_app.
Qed.

(** There is one entry of our own: older secrets are gone. *)
Lemma registered_own entries :
  filter (fun e => isOurEntry webhookUrl e = true) (registered_entries entries webhookUrl webhookSecret) =
  [own_entry webhookUrl webhookSecret].
Proof.
  unfold registered_entries. rewrite filter_app, list_filter_filter. simpl.
  rewrite filter_cons_True by apply own_entry_ours. rewrite filter_nil.
  induction entries as [|e l IH]; [done|]. rewrite filter_cons_False; [done|]. intros [? ?]. congruence.
Qed.
End Entries.

(** Entries that are not ours are not touched. *)
Lemma registered_filter webhookUrl webhookSecret (P : string -> bool) v entries :
  (forall e, P e = v -> isOurEntry webhookUrl e = false) ->
  filter (fun e => P e = v) (registered_entries entries webhookUrl webhookSecret) = filter (fun e => P e = v) entries.
Proof.
  intros HP. unfold registered_entries. rewrite filter_app, list_filter_filter, filter_cons_False, filter_nil, app_nil_r.
  - apply list_filter_iff. naive_solver.
  - intros E%HP. by rewrite own_entry_ours in E.
Qed.

Definition no_hash (s : string) : Prop := "#"%char ∉ String.list_ascii_of_string s.

#[export] Instance no_hash_dec s : Decision (no_hash s).
Proof. unfold no_hash. apply _. Defined.

Lemma no_hash_app a b : no_hash (a +:+ b) <-> no_hash a /\ no_hash b.
Proof.
  unfold no_hash. induction a as [|c a IH]; simpl; [set_solver|].
  change (String.list_ascii_of_string (String c a +:+ b)) with (c :: String.list_ascii_of_string (a +:+ b)).
  set_solver.
Qed.

(** Two texts without [#] before a [#] are the same. *)
Lemma hash_split a b x y : no_hash a -> no_hash b -> a +:+ ("#" +:+ x) = b +:+ ("#" +:+ y) -> a = b.
Proof.
  unfold no_hash. revert b. induction a as [|c a IH]; intros [|c' b] Ha Hb E; simpl in *; simplify_eq; try done;
    [exfalso; set_solver..|]. f_equal. apply IH; [set_solver..|done].
Qed.

Lemma app_string_inj_r a b s : a +:+ s = b +:+ s -> a = b.
Proof.
  revert b. induction a as [|c a IH]; intros b E.
  - destruct b as [|c b]; [done|]. apply (f_equal String.length) in E.
    rewrite !JsonText.string_length_app in E. simpl in E. lia.
  - destruct b as [|c' b]; [|injection E as -> E; f_equal; by apply IH].
    apply (f_equal String.length) in E. rewrite !JsonText.string_length_app in E. simpl in E. lia.
Qed.

Lemma app_string_inj_l p a b : p +:+ a = p +:+ b -> a = b.
Proof. induction p as [|c p IH]; [done|]. intros [= E]. by apply IH. Qed.

Section Coexistence.
Context (config : TractionConfig) (Hpub : no_hash config.(tf_publicUrl)).

Lemma webhook_url_no_hash i : no_hash i -> no_hash (buildWebhookUrl config i).
Proof. intros Hi. unfold buildWebhookUrl. rewrite !no_hash_app. split_and!; try done; by apply (bool_decide_unpack _). Qed.

Lemma webhook_url_inj i j : buildWebhookUrl config i = buildWebhookUrl config j -> i = j.
Proof. unfold buildWebhookUrl. by intros E%app_string_inj_l%app_string_inj_l%app_string_inj_l%app_string_inj_r. Qed.

(** No entry belongs to two connectors. *)
Lemma other_entry i j e :
  no_hash i -> no_hash j -> i <> j ->
  isOurEntry (buildWebhookUrl config i) e = true -> isOurEntry (buildWebhookUrl config j) e = false.
Proof.
  intros Hi Hj Hne He. destruct (isOurEntry (buildWebhookUrl config j) e) eqn:He'; [exfalso|done].
  apply Hne, webhook_url_inj. apply webhook_url_no_hash in Hi, Hj.
  assert (forall u v x, no_hash u -> v +:+ ("#" +:+ x) <> u) as Hx.
  { intros u v x Hu <-. apply no_hash_app in Hu as [_ Hu]. apply Hu. left. }
  unfold isOurEntry in He, He'. apply orb_true_iff in He, He'.
  rewrite String.eqb_eq, prefix_spec in He, He'. setoid_rewrite assoc_string_app in He.
  setoid_rewrite assoc_string_app in He'.
  destruct He as [->|[x ->]], He' as [E|[y E]]; [done| | |].
  - by apply eq_sym, Hx in E.
  - by apply Hx in E.
  - by apply hash_split in E.
Qed.
End Coexistence.

(** ** The agent's list *)

(** The list the agent behind an endpoint holds.  Reading it answers with it; a write
    that is acknowledged has replaced it; nothing else the service sends touches it;
    and retrying only runs a request again. *)
Class WalletLaws (ne : NetEnv) (endpointUrl : string) (wallet : World -> list string) : Prop := {
  wl_get q w : q.(hq_url) = buildTractionWalletUrl endpointUrl -> q.(hq_method) = "GET" ->
    wallet (http_send ne q w).1 = wallet w /\
    (forall data, (http_send ne q w).2 = inr data -> webhook_urls data = inr (wallet w));
  wl_put q w l data : q.(hq_url) = buildTractionWalletUrl endpointUrl -> q.(hq_method) = "PUT" ->
    q.(hq_data) = Some (JObj [("wallet_webhook_urls", JArr (JStr <$> l))]) ->
    (http_send ne q w).2 = inr data -> wallet (http_send ne q w).1 = l;
  wl_other q w : q.(hq_url) <> buildTractionWalletUrl endpointUrl -> wallet (http_send ne q w).1 = wallet w;
  wl_tokens t w : wallet (set_pod (mkPod t w.(pod).(pd_http)) w) = wallet w;
  wl_lookup h w : wallet (ne.(ne_lookup) h w).1 = wallet w;
  wl_retry (I : World -> Prop) (P : json -> World -> Prop) m :
    (forall w, I w -> I (m w).1 /\ (forall a, (m w).2 = inr a -> P a (m w).1)) ->
    forall w, I w -> I (ne.(ne_retry) m w).1 /\
      (forall a, (ne.(ne_retry) m w).2 = inr a -> P a (ne.(ne_retry) m w).1)
}.

Section Wallet.
Context (ne : NetEnv) (context : ConnectorContext) (wallet : World -> list string).
Context `{!WalletLaws ne context.(cx_endpointUrl) wallet}.

(** Programs that leave the list alone. *)
Definition spares {A} (m : Prog A) : Prop := forall w, wallet (m w).1 = wallet w.

Lemma spares_ret {A} (a : A) : spares (mret a).
Proof. by intros w. Qed.
Lemma spares_throw {A} e : spares (throw (A:=A) e).
Proof. by intros w. Qed.
Lemma spares_of_sum {A} (x : Exn + A) : spares (of_sum x).
Proof. by intros w. Qed.
Lemma spares_now : spares now_ms.
Proof. by intros w. Qed.
Lemma spares_lookup h : spares (ne.(ne_lookup) h).
Proof. intros w. apply wl_lookup. Qed.
Lemma spares_set_token i t : spares (set_token i t).
Proof. intros w. apply wl_tokens. Qed.
Lemma spares_get_cached i : spares (get_cached i).
Proof. by intros w. Qed.

Lemma spares_bind {A B} (m : Prog A) (k : A -> Prog B) : spares m -> (forall a, spares (k a)) -> spares (m ≫= k).
Proof.
  intros Hm Hk w. specialize (Hm w). unfold mbind, prog_bind. destruct (m w) as [w1 [e|a]]; [done|].
  rewrite Hk. done.
Qed.

Lemma spares_catch {A} (m : Prog A) h : spares m -> (forall e, spares (h e)) -> spares (catch m h).
Proof.
  intros Hm Hh w. specialize (Hm w). unfold catch. destruct (m w) as [w1 [e|a]]; [|done]. rewrite Hh. done.
Qed.

Ltac solve_spares :=
  repeat first [ progress intros | apply spares_ret | apply spares_throw | apply spares_of_sum | apply spares_now
               | apply spares_lookup | apply spares_set_token | apply spares_get_cached
               | apply spares_bind | apply spares_catch | case_match ].

Lemma spares_assertSafe u : spares (assertSafeConnectorUrl ne u).
Proof. unfold assertSafeConnectorUrl, resolveHostnameAddresses, unresolved. solve_spares. Qed.

Lemma http_request_retried q (I : World -> Prop) (P : json -> World -> Prop) :
  (forall w, I w -> I (assertSafeConnectorUrl ne q.(hq_url) w).1) ->
  (forall w, I w -> I (http_send ne q w).1 /\ (forall a, (http_send ne q w).2 = inr a -> P a (http_send ne q w).1)) ->
  forall w, I w -> I (http_request ne q true w).1 /\
    (forall a, (http_request ne q true w).2 = inr a -> P a (http_request ne q true w).1).
Proof.
  intros Hs Hm w HI. unfold http_request, mbind, prog_bind. destruct (String.eqb (hq_url q) "").
  - simpl. by apply wl_retry.
  - specialize (Hs w HI). destruct (assertSafeConnectorUrl ne (hq_url q) w) as [w1 [e|[]]]; [done|].
    by apply wl_retry.
Qed.

Lemma spares_request q :
  (forall w, wallet (http_send ne q w).1 = wallet w) -> spares (http_request ne q true).
Proof.
  intros Hq w. apply (http_request_retried q (fun w' => wallet w' = wallet w) (fun _ _ => True)); [| |done].
  - intros w1 <-. apply spares_assertSafe.
  - intros w1 <-. by rewrite Hq.
Qed.

#[local] Opaque http_request assertSafeConnectorUrl.

Lemma spares_getToken : spares (getToken ne context).
Proof.
  unfold getToken, acquireToken, readExpiry.
  repeat first [ progress solve_spares | apply spares_assertSafe | apply spares_request ].
  all: intros; apply wl_other; simpl; unfold buildTractionTokenUrl, buildTractionWalletUrl;
    intros E%app_string_inj_l; discriminate E.
Qed.

#[local] Transparent http_request assertSafeConnectorUrl.

Lemma fetchCurrentEntries_spec w w' token entries :
  fetchCurrentEntries ne context w = (w', inr (token, entries)) -> wallet w' = wallet w /\ entries = wallet w.
Proof.
  unfold fetchCurrentEntries. intros H. run_inv H. pose proof (spares_assertSafe (cx_endpointUrl context) w) as H1.
  rewrite E in H1. simpl in H1. run_inv H. pose proof (spares_getToken w0) as H2. rewrite E0 in H2. simpl in H2.
  run_inv H. set (q := wallet_request context "GET" a0 None) in E1.
  destruct (http_request_retried q (fun x => wallet x = wallet w)
    (fun data x => wallet x = wallet w /\ webhook_urls data = inr (wallet w))) with (w := w1) as [H3 H4].
  - intros x <-. apply spares_assertSafe.
  - intros x Hx. destruct (wl_get (ne:=ne) (wallet:=wallet) q x) as [Hg Hd]; [done..|].
    split; [congruence|]. intros data Hdata. split; [congruence|]. rewrite <-Hx. by apply Hd.
  - congruence.
  - rewrite E1 in H3, H4. simpl in *. destruct (H4 a1 eq_refl) as [H5 H6]. run_inv H. rewrite H6 in E2.
    injection E2 as <- <-. by injection H as <- <- <-.
Qed.

Lemma ensure_spec config w w' :
  traction_ensureWebhookRegistered ne config context w = (w', inr tt) ->
  wallet w' = registered_entries (wallet w) (buildWebhookUrl config context.(cx_connectorId)) (webhook_secret context).
Proof.
  unfold traction_ensureWebhookRegistered. intros H. run_inv H. destruct a as [token entries].
  apply fetchCurrentEntries_spec in E as [Hw ->]. run_inv H. injection H as <-.
  set (l := registered_entries _ _ _) in *. set (q := wallet_request _ _ _ _) in E.
  destruct (http_request_retried q (fun _ => True) (fun _ x => wallet x = l)) with (w := w0) as [_ H1]; [done| |done|].
  - intros x _. split; [done|]. intros data Hd. by apply (wl_put q x l data).
  - rewrite E in H1. by eapply H1.
Qed.

Lemma isRegistered_spec config w w' b :
  traction_isWebhookRegistered ne config context w = (w', inr b) ->
  wallet w' = wallet w /\
  (b = true <-> own_entry (buildWebhookUrl config context.(cx_connectorId)) (webhook_secret context) ∈ wallet w).
Proof.
  unfold traction_isWebhookRegistered. intros H. run_inv H. destruct a as [token entries].
  apply fetchCurrentEntries_spec in E as [Hw ->]. injection H as <- <-. split; [done|]. by rewrite mem_str_spec.
Qed.
End Wallet.

(** C20: connectors that share a wallet do not lose each other's webhooks.  When two
    connectors on the same agent register one after the other, as the advisory lock makes
    them, both entries are in the agent's list afterwards, each with its current secret
    and only once, every entry that belongs to neither is still there in its place, and
    the agent reports the first as registered. *)
Theorem webhook_registrations_coexist ne config endpointUrl wallet a b w w1 w2 :
  WalletLaws ne endpointUrl wallet -> a.(cx_endpointUrl) = endpointUrl -> b.(cx_endpointUrl) = endpointUrl ->
  a.(cx_connectorId) <> b.(cx_connectorId) ->
  no_hash config.(tf_publicUrl) -> no_hash a.(cx_connectorId) -> no_hash b.(cx_connectorId) ->
  traction_ensureWebhookRegistered ne config a w = (w1, inr tt) ->
  traction_ensureWebhookRegistered ne config b w1 = (w2, inr tt) ->
  let own c := isOurEntry (buildWebhookUrl config c.(cx_connectorId)) in
  let entry c := own_entry (buildWebhookUrl config c.(cx_connectorId)) (webhook_secret c) in
  filter (fun e => own a e = true) (wallet w2) = [entry a] /\
  filter (fun e => own b e = true) (wallet w2) = [entry b] /\
  filter (fun e => own a e || own b e = false) (wallet w2) =
    filter (fun e => own a e || own b e = false) (wallet w) /\
  (forall w3 r, traction_isWebhookRegistered ne config a w2 = (w3, inr r) -> r = true).
Proof.
  intros HW Ha Hb Hne Hp Hia Hib Ea Eb own entry. rewrite <-Ha in HW.
  apply (ensure_spec _ _ wallet) in Ea. rewrite Ha, <-Hb in HW. apply (ensure_spec _ _ wallet) in Eb.
  assert (forall e, own a e = true -> own b e = false) as Hab by (intros e; by apply other_entry).
  assert (filter (fun e => own a e = true) (wallet w2) = [entry a]) as Hown.
  { rewrite Eb, registered_filter by done. rewrite Ea. apply registered_own. }
  split_and!.
  - exact Hown.
  - rewrite Eb. apply registered_own.
  - rewrite Eb, registered_filter by (by intros e [_ ?]%orb_false_iff). rewrite Ea, registered_filter; [done|].
    by intros e [? _]%orb_false_iff.
  - intros w3 r Hr. rewrite Hb, <-Ha in HW. apply (isRegistered_spec _ _ wallet) in Hr as [_ Hr]. apply Hr.
    assert (entry a ∈ filter (fun e => own a e = true) (wallet w2)) as Hin by (rewrite Hown; left).
    by apply list_elem_of_filter in Hin as [_ ?].
Qed.

(** ** The agent of the evaluations keeps its list *)

Lemma mapM_as_str l : mapM as_str (JStr <$> l) = Some l.
Proof. apply mapM_Some. induction l; simpl; by constructor. Qed.

Lemma wallet_list_snoc e l log q r :
  wallet_list e l (log ++ [(q, r)]) =
  match r with inr _ => default (wallet_list e l log) (written_list e q) | inl _ => wallet_list e l log end.
Proof. unfold wallet_list. by rewrite fold_left_app. Qed.

Definition sample_wallet (initial : list string) (w : World) : list string :=
  wallet_list "https://agent" initial w.(pod).(pd_http).

#[export] Instance sample_wallet_laws initial answer :
  WalletLaws (sample_net initial answer) "https://agent" (sample_wallet initial).
Proof.
  split.
  - intros q w Hu Hm. unfold http_send, sample_wallet, sample_axios. simpl. rewrite wallet_list_snoc.
    unfold written_list. rewrite Hm, Hu. simpl. split; [done|].
    intros data [= <-]. unfold webhook_urls, str_list. cbn [get_prop assoc String.eqb Ascii.eqb Bool.eqb].
    by rewrite mapM_as_str.
  - intros q w l data Hu Hm Hd Hr. unfold http_send, sample_wallet. cbn [pod set_pod pd_http fst ne_axios sample_net].
    unfold sample_axios. cbn [pod set_pod pd_http fst]. rewrite wallet_list_snoc. unfold written_list.
    rewrite Hu, Hm, Hd. simpl. by rewrite mapM_as_str.
  - intros q w Hu. unfold http_send, sample_wallet, sample_axios. simpl. rewrite wallet_list_snoc.
    apply String.eqb_neq in Hu. unfold written_list. rewrite Hu, andb_false_r. simpl. by destruct (if ends_with _ _ then _ else _).
  - done.
  - done.
  - done.
Qed.

Definition sample_traction : TractionConfig := mkTractionConfig "https://service" (fun _ u => u).

(** Two connectors on one agent, each with a secret of its own. *)
Definition agent_context (id secret : string) : ConnectorContext :=
  mkContext id "t" "https://agent" [("apiKey", "key"); ("tractionTenantId", "w"); ("webhookSecret", secret)].

Lemma webhook_registrations_coexist_witness :
  let ne := sample_net ["https://other"; "https://service/api/v1/connectors/k1/webhooks/traction#old"] (fun _ => inr JNull) in
  let ensure c w := traction_ensureWebhookRegistered ne sample_traction c w in
  let w := world_of empty_db 0 in
  let w2 := (ensure (agent_context "k2" "s2") (ensure (agent_context "k1" "s1") w).1).1 in
  filter (fun e => isOurEntry "https://service/api/v1/connectors/k1/webhooks/traction" e = true)
    (sample_wallet ["https://other"; "https://service/api/v1/connectors/k1/webhooks/traction#old"] w2) =
    ["https://service/api/v1/connectors/k1/webhooks/traction#s1"].
Proof.
  intros ne ensure w w2.
  refine (proj1 (webhook_registrations_coexist ne sample_traction "https://agent" _ (agent_context "k1" "s1")
    (agent_context "k2" "s2") w (ensure (agent_context "k1" "s1") w).1 w2 (sample_wallet_laws _ _) eq_refl eq_refl
    _ _ _ _ _ _)).
  - done.
  - by apply (bool_decide_unpack _).
  - by apply (bool_decide_unpack _).
  - by apply (bool_decide_unpack _).
  - vm_compute. reflexivity.
  - vm_compute. reflexivity.
Defined.
