(* ===== verification/TenantService.v ===== *)
(** * Tenants

    tenant/tenant.service.ts and the rule which tenants may act
    (assert-tenant-active.ts, tenant-status.guard.ts).  [others] is what other requests
    commit between a read and the write that depends on it outside a transaction. *)

From Stdlib Require Import Ascii ZArith Lia.
From stdpp Require Import base decidable strings sets gmap list list_relations.
From S2P Require Import Prelude Js OperationTtl JsText Entities StateMapping Db Pagination OperationService.
From S2P Require Import TenantRepository ConnectorRepository Auth TenantUserService.
From S2P Require Import Encryption ConnectorService.

Local Open Scope Z_scope.

(** ** Requests *)

(** [null] is a value the validators let through for optional fields. *)
Record CreateTenantDto := mkCreateTenant {
  ct_name : string;
  ct_slug : string;
  ct_description : option string;
  ct_config : option (option json);
  ct_ownerEmail : string
}.

(** [undefined], [null] (which the validators let through) or a value. *)
Record UpdateTenantDto := mkUpdateTenant {
  ut_name : option (option string);
  ut_description : option (option string);
  ut_config : option (option (list (string * json)))
}.

Record UpdateTenantConfigDto := mkUpdateConfig {
  uc_allowedFormats : option json;
  uc_defaultConnector : option (option string);
  uc_features : option json
}.

(** ** Status *)

Definition ALLOWED_STATUS_TRANSITIONS (s : TenantStatus) : list TenantStatus :=
  match s with
  | TN_ACTIVE => [TN_SUSPENDED; TN_DEACTIVATED]
  | TN_SUSPENDED => [TN_ACTIVE; TN_DEACTIVATED]
  | TN_DEACTIVATED => [TN_ACTIVE]
  | TN_PENDING_APPROVAL | TN_REJECTED => []
  end.

Definition assertTenantActive (tenant : option Tenant) : Exn + Tenant :=
  match tenant with
  | None => inl (TenantNotActiveException "Tenant could not be found and cannot perform this action"
                   TN_DEACTIVATED)
  | Some t =>
      match t.(tn_status) with
      | TN_ACTIVE => inr t
      | s => inl (TenantNotActiveException
               ("Tenant is " +:+ (tenant_status_str s +:+ " and cannot perform this action")) s)
      end
  end.

(** TenantStatusGuard.canActivate *)
Definition statusGuard_canActivate (auth : option AuthContext) : Prog unit :=
  match auth with
  | None => throw (UnauthorizedException "Authenticated request context is missing")
  | Some a =>
      if role_isPlatformAdmin a.(au_roles) then mret tt
      else if negb (truthy_str a.(au_tenantId)) then mret tt
      else
        tenant ← tenantRepo_findById (default "" a.(au_tenantId)) NoTx;
        _ ← of_sum (assertTenantActive tenant);
        mret tt
  end.

(** ** Operations *)

Definition tenant_missing {A} : Prog A := throw (NotFoundException "Tenant not found").

Definition resolveCreateStatus (actor : option (list string)) : TenantStatus :=
  if mem_str PLATFORM_ADMIN_ROLE (default [] actor) then TN_ACTIVE else TN_PENDING_APPROVAL.

(** The worker that consumes [tenant.config-change] does not exist; a failed publish
    is logged. *)
Definition publishConfigChange (t : Tenant) : Prog unit :=
  catch (send NoTx (TenantConfigChange t.(tn_id) t.(tn_config))) (fun _ => mret tt).

Definition recordConfigUpdate (t : Tenant) : Prog unit :=
  _ ← audit_emit NoTx t.(tn_id) "update" "tenant" t.(tn_id);
  publishConfigChange t.

Definition tenant_list (limit : option nat) (cursor : option Cursor) : Prog Page :=
  tenants_findPage (default 20%nat limit) cursor.

Definition tenant_findBySlug (slug : string) : Prog Tenant :=
  row ← tenants_findBySlug slug false;
  match row with Some t => mret t | None => tenant_missing end.

Definition tenant_restore (id : string) : Prog unit :=
  _ ← tenants_restore id;
  row ← tenantRepo_findById id NoTx;
  match row with
  | None => throw (NotFoundException "Restore failed: Tenant not found after restore")
  | Some t => audit_emit NoTx t.(tn_id) "update" "tenant" t.(tn_id)
  end.

Section Service.
Context (env : ConnectorEnv) (others : Prog unit).

Definition tenant_create (dto : CreateTenantDto) (actor : option (list string)) : Prog Tenant :=
  existing ← tenants_findBySlug dto.(ct_slug) true;
  match existing with
  | Some _ => throw (ConflictException "Tenant slug already exists")
  | None =>
      _ ← others;
      r ← transaction
        (config ← of_sum (match dto.(ct_config) with
                          | None => inr (JObj [])
                          | Some (Some config) => inr config
                          | Some None => inl (QueryFailed "23502" "")
                          end);
         saved ← tenants_insert (fun id now =>
           mkTenant id dto.(ct_name) dto.(ct_slug) dto.(ct_description) (resolveCreateStatus actor)
             (Some config) now now None None) Tx;
         owner ← user_invite others saved.(tn_id) (mkInviteUser dto.(ct_ownerEmail) OWNER) None Tx;
         mret (saved, owner));
      let '(tenant, owner) := r in
      _ ← audit_emit NoTx tenant.(tn_id) "create" "tenant" tenant.(tn_id);
      _ ← audit_emit NoTx owner.(tu_tenantId) "create" "tenant_user" owner.(tu_id);
      mret tenant
  end.

(** The connector a configuration names: locked, of this tenant, and active. *)
Definition assertDefaultConnector (tenantId connectorId : string) (auth : option AuthContext) : Prog unit :=
  c ← connector_findById env tenantId connectorId auth Tx;
  if negb (String.eqb c.(con_tenantId) tenantId)
  then throw (ConflictException "default_connector does not belong to this tenant")
  else if negb c.(con_active) then throw (ConflictException "default_connector is not active")
  else mret tt.

(** The [config] of an update, checked. *)
Definition checked_config (id : string) (config : option (list (string * json))) (auth : option AuthContext)
    : Prog (list (string * json)) :=
  match config with
  | None => throw (JsError "Cannot read properties of null (reading 'default_connector')")
  | Some o =>
      _ ← (match assoc "default_connector" o with
           | None | Some JNull => mret tt
           | Some (JStr connectorId) =>
               c ← connector_findById env id connectorId auth Tx;
               if c.(con_active) then mret tt
               else throw (ConflictException "default_connector is not active")
           | Some _ => throw (ConflictException "default_connector must be a connector ID")
           end);
      mret o
  end.

(** Inside the transaction; a [null] name is refused by the database when saved. *)
Definition tenant_update_tx (id : string) (dto : UpdateTenantDto) (auth : option AuthContext) : Prog Tenant :=
  row ← tenants_findByIdForUpdate id;
  match row with
  | None => tenant_missing
  | Some t =>
      config ← (match dto.(ut_config) with
                | None => mret t.(tn_config)
                | Some config => o ← checked_config id config auth; mret (Some (JObj o))
                end);
      match default (Some t.(tn_name)) dto.(ut_name) with
      | None => throw (QueryFailed "23502" "")
      | Some name =>
          tenants_update (tn_edit name (default t.(tn_description) dto.(ut_description)) config t) Tx
      end
  end.

Definition tenant_update (id : string) (dto : UpdateTenantDto) (auth : option AuthContext) : Prog Tenant :=
  saved ← transaction (tenant_update_tx id dto auth);
  _ ← audit_emit NoTx saved.(tn_id) "update" "tenant" saved.(tn_id);
  mret saved.

(** [{ ...tenant.config }] with the keys the request carries. *)
Definition merged_config (dto : UpdateTenantConfigDto) (config : option json) : list (string * json) :=
  let base := match config with Some (JObj o) => o | _ => [] end in
  let set k (v : option json) o := match v with Some x => assoc_set k x o | None => o end in
  set "features" dto.(uc_features)
    (set "default_connector" ((fun v => match v with Some s => JStr s | None => JNull end) <$> dto.(uc_defaultConnector))
       (set "allowed_formats" dto.(uc_allowedFormats) base)).

Definition tenant_updateConfig_tx (id : string) (dto : UpdateTenantConfigDto) (auth : option AuthContext)
    : Prog Tenant :=
  row ← tenants_findByIdForUpdate id;
  match row with
  | None => tenant_missing
  | Some t =>
      _ ← (match dto.(uc_defaultConnector) with
           | Some (Some connectorId) => assertDefaultConnector t.(tn_id) connectorId auth
           | _ => mret tt
           end);
      tenants_update (tn_set_config (Some (JObj (merged_config dto t.(tn_config)))) t) Tx
  end.

Definition tenant_updateConfig (id : string) (dto : UpdateTenantConfigDto) (auth : option AuthContext)
    : Prog Tenant :=
  saved ← transaction (tenant_updateConfig_tx id dto auth);
  _ ← recordConfigUpdate saved;
  mret saved.

Definition setDefault_tx (tenantId connectorId : string) (auth : AuthContext) : Prog (option Tenant) :=
  row ← tenants_findByIdForUpdate tenantId;
  match row with
  | None => tenant_missing
  | Some _ =>
      c ← connector_findById env tenantId connectorId (Some auth) Tx;
      if negb c.(con_active) then throw (ConflictException "default_connector is not active")
      else tenants_setDefaultConnectorIfUnset tenantId connectorId Tx
  end.

Definition tenant_setDefaultConnectorIfUnset (tenantId connectorId : string) (auth : AuthContext) : Prog bool :=
  updated ← transaction (setDefault_tx tenantId connectorId auth);
  match updated with
  | None => mret false
  | Some t => _ ← recordConfigUpdate t; mret true
  end.

Definition tenant_delete (id : string) : Prog unit :=
  row ← tenantRepo_findById id NoTx;
  match row with
  | None => tenant_missing
  | Some _ =>
      _ ← others;
      _ ← tenants_delete id;
      audit_emit NoTx id "delete" "tenant" id
  end.

(** The tenant is read before the transaction that saves it. *)
Definition tenant_updateStatus (id : string) (status : TenantStatus) : Prog Tenant :=
  row ← tenantRepo_findById id NoTx;
  match row with
  | None => tenant_missing
  | Some t =>
      let previousStatus := t.(tn_status) in
      if negb (bool_decide (status ∈ ALLOWED_STATUS_TRANSITIONS previousStatus)) then
        throw (ConflictException ("Cannot transition tenant from '" +:+ (tenant_status_str previousStatus +:+
                 ("' to '" +:+ (tenant_status_str status +:+ "'")))))
      else
        now ← now_ms;
        let deactivatedAt := if bool_decide (status = TN_DEACTIVATED) then Some (column_of now) else None in
        _ ← others;
        saved ← transaction
          (updated ← tenants_update (tn_set_status status deactivatedAt t) Tx;
           _ ← send Tx (TenantStatusChange updated.(tn_id) previousStatus status);
           mret updated);
        _ ← audit_emit NoTx saved.(tn_id) "update" "tenant" saved.(tn_id);
        mret saved
  end.
End Service.
