(* ===== verification/OAuthClient.v ===== *)
(** * OAuth clients

    oauth-client/oauth-client.repository.ts, oauth-client.service.ts and the lookup
    adapter through which the OIDC provider finds clients, with
    libs/auth partition-requested-scopes.ts.  The table has its unique client
    identifier and its two check constraints.  Argon2 and the random bytes are
    parameters. *)

From Stdlib Require Import Ascii ZArith Lia.
From stdpp Require Import base decidable strings sets gmap list list_relations sorting.
From S2P Require Import Prelude Js OperationTtl JsText Entities StateMapping Db Auth TenantService.

Local Open Scope Z_scope.

(** ** Constants *)

Definition OAUTH_CLIENT_ID_PREFIX : string := "dtcs_".
Definition RESERVED_OAUTH_CLIENT_IDS : list string := ["dtsc-ui"; "dtsc-platform-admin"].
Definition MACHINE_GRANT_TYPE : string := "client_credentials".

Definition OAUTH_CLIENT_PLATFORM_ROLES : list string := [PLATFORM_ADMIN_ROLE].
Definition ASSIGNABLE_OAUTH_CLIENT_SCOPES : list string := TENANT_SUPERUSER_SCOPE :: ALL_TENANT_SCOPES.
Definition ROLE_HIERARCHY : list string := ["owner"; "admin"; "member"; "readonly"].
Definition OAUTH_CLIENT_TENANT_ROLES : list string := ROLE_HIERARCHY.
Definition OAUTH_CLIENT_ALLOWED_ROLES : list string := OAUTH_CLIENT_TENANT_ROLES ++ OAUTH_CLIENT_PLATFORM_ROLES.

(** ** Scopes granted and denied *)

Fixpoint partitionRequestedScopes (allowed actor : list string) (isPlatformAdmin : bool)
    (requestedScopes : list string) : list string * list string :=
  match requestedScopes with
  | [] => ([], [])
  | scope :: rest =>
      let '(grantedScopes, deniedScopes) := partitionRequestedScopes allowed actor isPlatformAdmin rest in
      if mem_str scope allowed && (isPlatformAdmin || mem_str scope actor)
      then (scope :: grantedScopes, deniedScopes)
      else (grantedScopes, scope :: deniedScopes)
  end.

(** ** The table *)

Definition clients (d : DB) : gmap string OAuthClient := d.(db_admin).(ad_clients).

(** The check constraints, in the order Postgres tests them: the first one violated. *)
Definition client_check (c : OAuthClient) : option string :=
  if match c.(oc_refreshTokenTtlSeconds) with Some n => negb (0 <? n) | None => false end
  then Some "chk_oauth_client_refresh_token_ttl_positive"
  else if Bool.eqb c.(oc_isPublic) (bool_decide (c.(oc_clientSecretHash) = None)) then None
  else Some "chk_oauth_client_secret_matches_kind".

Definition clientId_taken (id : string) (c : OAuthClient) (t : gmap string OAuthClient) : bool :=
  existsb (fun c' => negb (String.eqb c'.(oc_id) id) && String.eqb c'.(oc_clientId) c.(oc_clientId)) (rows t).

Definition write_client (id : string) (c : OAuthClient) : Prog unit :=
  taken ← read NoTx (fun d => clientId_taken id c (clients d));
  match client_check c with
  | Some name => throw (QueryFailed "23514" name)
  | None =>
      if taken : bool then throw (QueryFailed "23505" "uq_oauth_client_client_id")
      else modify NoTx (fun d => set_clients (<[id := c]> (clients d)) d)
  end.

Definition client_where (P : OAuthClient -> bool) : Prog (option OAuthClient) :=
  read NoTx (fun d => find_one P (clients d)).

Definition clients_findById (id : string) : Prog (option OAuthClient) :=
  read NoTx (fun d => clients d !! id).

Definition clients_findByClientId (clientId : string) : Prog (option OAuthClient) :=
  client_where (fun c => String.eqb c.(oc_clientId) clientId).

(** [ORDER BY createdAt ASC] *)
Definition older (c c' : OAuthClient) : Prop := c.(oc_createdAt) <= c'.(oc_createdAt).
#[export] Instance older_dec c c' : Decision (older c c').
Proof. unfold older. apply _. Defined.

Definition clients_findByTenant (tenantId : string) : Prog (list OAuthClient) :=
  read NoTx (fun d => merge_sort older (select (fun c => String.eqb c.(oc_tenantId) tenantId) (clients d))).

Definition clients_findByTenantAndClientId (tenantId clientId : string) : Prog (option OAuthClient) :=
  client_where (fun c => String.eqb c.(oc_tenantId) tenantId && String.eqb c.(oc_clientId) clientId).

(** The database generates the identifier and the creation time. *)
Definition clients_create (mk : string -> Z -> OAuthClient) : Prog OAuthClient :=
  id ← gen_uuid;
  now ← now_us;
  taken ← read NoTx (fun d => bool_decide (is_Some (clients d !! id)));
  if taken : bool then throw (QueryFailed "23505" "oauth_client_pkey")
  else _ ← write_client id (mk id now); mret (mk id now).

(** [save]: the row is read again, and every column that differs from the entity is
    written. *)
Definition clients_update (c : OAuthClient) : Prog OAuthClient :=
  _ ← write_client c.(oc_id) c;
  mret c.

Definition oc_set_revoked (at' : option Z) (reason : option OAuthClientRevokedReason) (c : OAuthClient)
    : OAuthClient :=
  mkOAuthClient c.(oc_id) c.(oc_tenantId) c.(oc_clientId) c.(oc_clientSecretHash) c.(oc_isPublic)
    c.(oc_name) c.(oc_scopes) c.(oc_roles) c.(oc_redirectUris) c.(oc_postLogoutRedirectUris)
    c.(oc_grantTypes) c.(oc_createdBy) c.(oc_createdAt) c.(oc_refreshTokenTtlSeconds) at' reason.

(** [UPDATE ... WHERE P]: the number of rows affected. *)
Definition update_clients (P : OAuthClient -> bool) (f : OAuthClient -> OAuthClient) : Prog nat :=
  n ← read NoTx (fun d => count_rows P (clients d));
  _ ← modify NoTx (fun d => set_clients ((fun c => if P c then f c else c) <$> clients d) d);
  mret n.

Definition clients_revoke (id : string) : Prog unit :=
  now ← now_ms;
  _ ← update_clients (fun c => String.eqb c.(oc_id) id) (oc_set_revoked (Some (column_of now)) None);
  mret tt.

Definition unrevoked_of (tenantId : string) (c : OAuthClient) : bool :=
  String.eqb c.(oc_tenantId) tenantId && bool_decide (c.(oc_revokedAt) = None).

Definition clients_revokeAllForTenant (tenantId : string) : Prog nat :=
  now ← now_ms;
  update_clients (unrevoked_of tenantId) (oc_set_revoked (Some (column_of now)) (Some TENANT_DEACTIVATION)).

Definition deactivated_of (tenantId : string) (c : OAuthClient) : bool :=
  String.eqb c.(oc_tenantId) tenantId && bool_decide (c.(oc_revokedReason) = Some TENANT_DEACTIVATION).

Definition clients_restoreAllForTenant (tenantId : string) : Prog nat :=
  update_clients (deactivated_of tenantId) (oc_set_revoked None None).

(** ** The service *)

Record CreateOAuthClientDto := mkCreateClient {
  cd_clientId : option string;
  cd_name : string;
  cd_scopes : list string;
  cd_roles : option (list string);
  cd_redirectUris : option (list string);
  cd_grantTypes : option (list string);
  cd_refreshTokenTtlSeconds : option Z
}.

(** A refresh token lifetime of [Some None] clears the column. *)
Record UpdateOAuthClientDto := mkUpdateClient {
  ud_name : option string;
  ud_scopes : option (list string);
  ud_roles : option (list string);
  ud_redirectUris : option (list string);
  ud_grantTypes : option (list string);
  ud_refreshTokenTtlSeconds : option (option Z)
}.

(** The deployment's configuration, the hexadecimal random bytes and Argon2 with its
    salt. *)
Record ClientEnv := mkClientEnv {
  cl_grantTypes : list string;
  cl_scopes : list string;
  cl_hex : nat -> string -> string;
  cl_hash : string -> string -> string;
  cl_verify : string -> string -> bool
}.

(** A hash is an encoded string and verifies what was hashed. *)
Class ClientEnvLaws (e : ClientEnv) : Prop := {
  cl_hash_encoded salt s : e.(cl_hash) salt s <> "";
  cl_verify_hash salt s : e.(cl_verify) (e.(cl_hash) salt s) s = true
}.

Section Service.
Context (env : ClientEnv).
(** What other requests commit between a read and the write that follows it. *)
Context (others : Prog unit).

Definition comma_list (l : list string) : string := String.concat ", " l.

Definition requireCaller (auth : option AuthContext) : Exn + AuthContext :=
  match auth with
  | Some a => inr a
  | None => inl (UnauthorizedException "Authenticated request context is missing")
  end.

Definition assertNotReserved (c : OAuthClient) : Exn + unit :=
  if mem_str c.(oc_clientId) RESERVED_OAUTH_CLIENT_IDS
  then inl (ForbiddenException "System OAuth clients cannot be managed through tenant client APIs.")
  else inr tt.

Definition is_revoked (c : OAuthClient) : bool := bool_decide (is_Some c.(oc_revokedAt)).

Definition requireTenantClient (tenantId clientId : string) (active : bool) : Prog OAuthClient :=
  row ← clients_findByTenantAndClientId tenantId clientId;
  let missing := NotFoundException ("OAuth client '" +:+ (clientId +:+ "' was not found.")) in
  match row with
  | None => throw missing
  | Some c => if active && is_revoked c then throw missing else mret c
  end.

Definition assertSupportedGrantTypes (grantTypes : option (list string)) : Exn + unit :=
  let supported := env.(cl_grantTypes) in
  match filter (fun g => mem_str g supported = false) (default [] grantTypes) with
  | [] => inr tt
  | unsupported =>
      inl (BadRequestException ("Unsupported grant type(s): " +:+ (comma_list unsupported +:+
             (". Supported grant type(s): " +:+ (comma_list supported +:+ ".")))))
  end.

Definition hasPlatformRole (roles : list string) : bool :=
  existsb (fun r => mem_str r OAUTH_CLIENT_PLATFORM_ROLES) roles.

(** [new Set(grantTypes)] has the one element [client_credentials]. *)
Definition isMachineOnly (grantTypes : list string) : bool :=
  bool_decide (remove_dups grantTypes = [MACHINE_GRANT_TYPE]).

Definition assertRoleConstraints (roles grantTypes : list string) (caller : AuthContext)
    (checkAssignment : bool) (previousRoles : list string) : Exn + unit :=
  match filter (fun r => mem_str r OAUTH_CLIENT_ALLOWED_ROLES = false) roles with
  | (_ :: _) as unknown =>
      inl (BadRequestException ("Unsupported role(s): " +:+ (comma_list unknown +:+
             (". Allowed role(s): " +:+ (comma_list OAUTH_CLIENT_ALLOWED_ROLES +:+ ".")))))
  | [] =>
      if checkAssignment && negb (Bool.eqb (hasPlatformRole previousRoles) (hasPlatformRole roles)) &&
         negb (role_isPlatformAdmin caller.(au_roles))
      then inl (ForbiddenException
             "Only platform-admin callers may assign or clear platform-level roles on OAuth clients.")
      else if (length roles =? 0)%nat then inr tt
      else if isMachineOnly grantTypes then inr tt
      else inl (BadRequestException
             "Roles may only be assigned to clients restricted to the client_credentials grant.")
  end.

Definition assertAssignableScopes (scopes : list string) (caller : AuthContext) : Exn + unit :=
  if (length scopes =? 0)%nat then inl (BadRequestException "At least one scope is required.")
  else
    let configured := env.(cl_scopes) in
    let allowedScopes := filter (fun s => mem_str s configured = true) ASSIGNABLE_OAUTH_CLIENT_SCOPES in
    let deniedScopes := (partitionRequestedScopes allowedScopes (expandEffectiveScopes caller.(au_scopes))
                           (role_isPlatformAdmin caller.(au_roles)) scopes).2 in
    match deniedScopes with
    | [] => inr tt
    | _ :: _ =>
        match filter (fun s => mem_str s ASSIGNABLE_OAUTH_CLIENT_SCOPES = false) deniedScopes with
        | (_ :: _) as unknown =>
            inl (BadRequestException ("Unsupported scope(s): " +:+ (comma_list unknown +:+
                   (". Allowed scope(s): " +:+ (comma_list ASSIGNABLE_OAUTH_CLIENT_SCOPES +:+ ".")))))
        | [] =>
            match filter (fun s => mem_str s configured = false) deniedScopes with
            | (_ :: _) as notConfigured =>
                inl (BadRequestException ("Scope(s) not enabled on this deployment: " +:+
                       (comma_list notConfigured +:+ ".")))
            | [] =>
                inl (ForbiddenException ("Cannot assign scope(s) not held by the caller: " +:+
                       (comma_list deniedScopes +:+ ".")))
            end
        end
    end.

Definition random_hex (n : nat) : Prog string := u ← gen_uuid; mret (env.(cl_hex) n u).

Definition hashClientSecret (secret : string) : Prog string :=
  salt ← gen_uuid;
  mret (env.(cl_hash) salt secret).

Definition generateClientId : Prog string :=
  h ← random_hex 16;
  mret (OAUTH_CLIENT_ID_PREFIX +:+ h).

Definition in_use {A} : Prog A := throw (ConflictException "OAuth client ID is already in use.").

Definition client_create (tenantId : string) (dto : CreateOAuthClientDto) (auth : option AuthContext)
    : Prog (OAuthClient * string) :=
  caller ← of_sum (requireCaller auth);
  let grantTypes := default [MACHINE_GRANT_TYPE] dto.(cd_grantTypes) in
  let roles := default [] dto.(cd_roles) in
  _ ← of_sum (assertSupportedGrantTypes (Some grantTypes));
  _ ← of_sum (assertRoleConstraints roles grantTypes caller (bool_decide (is_Some dto.(cd_roles))) []);
  _ ← of_sum (assertAssignableScopes dto.(cd_scopes) caller);
  clientSecret ← random_hex 32;
  clientId ← (match dto.(cd_clientId) with Some i => mret i | None => generateClientId end);
  existing ← clients_findByClientId clientId;
  match existing with
  | Some _ => in_use
  | None =>
      clientSecretHash ← hashClientSecret clientSecret;
      _ ← others;
      client ← catch
        (clients_create (fun id now =>
           mkOAuthClient id tenantId clientId (Some clientSecretHash) false dto.(cd_name) dto.(cd_scopes) roles
             (default [] dto.(cd_redirectUris)) [] grantTypes
             (match caller.(au_tokenType) with user_token => Some caller.(au_sub) | client_token => None end)
             now dto.(cd_refreshTokenTtlSeconds) None None))
        (fun e => if violates "uq_oauth_client_client_id" e then in_use else throw e);
      mret (client, clientSecret)
  end.

Definition client_findByClientId (clientId : string) : Prog OAuthClient :=
  row ← clients_findByClientId clientId;
  match row with
  | Some c => mret c
  | None => throw (NotFoundException ("OAuth client with ID '" +:+ (clientId +:+ "' was not found.")))
  end.

Definition client_findByTenant (tenantId : string) : Prog (list OAuthClient) := clients_findByTenant tenantId.

(** The columns the request names. *)
Definition client_edit (dto : UpdateOAuthClientDto) (c : OAuthClient) : OAuthClient :=
  mkOAuthClient c.(oc_id) c.(oc_tenantId) c.(oc_clientId) c.(oc_clientSecretHash) c.(oc_isPublic)
    (default c.(oc_name) dto.(ud_name)) (default c.(oc_scopes) dto.(ud_scopes))
    (default c.(oc_roles) dto.(ud_roles)) (default c.(oc_redirectUris) dto.(ud_redirectUris))
    c.(oc_postLogoutRedirectUris) (default c.(oc_grantTypes) dto.(ud_grantTypes)) c.(oc_createdBy)
    c.(oc_createdAt) (default c.(oc_refreshTokenTtlSeconds) dto.(ud_refreshTokenTtlSeconds))
    c.(oc_revokedAt) c.(oc_revokedReason).

Definition client_update (tenantId clientId : string) (dto : UpdateOAuthClientDto) (auth : option AuthContext)
    : Prog OAuthClient :=
  caller ← of_sum (requireCaller auth);
  _ ← of_sum (assertSupportedGrantTypes dto.(ud_grantTypes));
  client ← requireTenantClient tenantId clientId true;
  _ ← of_sum (assertNotReserved client);
  _ ← of_sum (assertRoleConstraints (default client.(oc_roles) dto.(ud_roles))
                (default client.(oc_grantTypes) dto.(ud_grantTypes)) caller
                (bool_decide (is_Some dto.(ud_roles))) client.(oc_roles));
  _ ← of_sum (match dto.(ud_scopes) with
              | Some scopes => assertAssignableScopes scopes caller
              | None => inr tt
              end);
  _ ← others;
  clients_update (client_edit dto client).

Definition client_revoke (tenantId clientId : string) : Prog unit :=
  client ← requireTenantClient tenantId clientId false;
  _ ← of_sum (assertNotReserved client);
  if is_revoked client then mret tt
  else
    _ ← others;
    clients_revoke client.(oc_id).

Definition oc_set_secret (h : string) (c : OAuthClient) : OAuthClient :=
  mkOAuthClient c.(oc_id) c.(oc_tenantId) c.(oc_clientId) (Some h) c.(oc_isPublic)
    c.(oc_name) c.(oc_scopes) c.(oc_roles) c.(oc_redirectUris) c.(oc_postLogoutRedirectUris)
    c.(oc_grantTypes) c.(oc_createdBy) c.(oc_createdAt) c.(oc_refreshTokenTtlSeconds) c.(oc_revokedAt)
    c.(oc_revokedReason).

Definition client_rotateSecret (tenantId clientId : string) : Prog (OAuthClient * string) :=
  client ← requireTenantClient tenantId clientId true;
  _ ← of_sum (assertNotReserved client);
  if client.(oc_isPublic) then throw (BadRequestException "Public clients do not have a client secret.")
  else
    clientSecret ← random_hex 32;
    hash ← hashClientSecret clientSecret;
    _ ← others;
    updated ← clients_update (oc_set_secret hash client);
    mret (updated, clientSecret).

Definition client_reactivate (tenantId clientId : string) : Prog OAuthClient :=
  client ← requireTenantClient tenantId clientId false;
  _ ← of_sum (assertNotReserved client);
  _ ← others;
  clients_update (oc_set_revoked None None client).

Definition client_verifySecret (clientId clientSecret : string) : Prog bool :=
  client ← client_findByClientId clientId;
  if is_revoked client then mret false
  else
    match client.(oc_clientSecretHash) with
    | None => mret false
    | Some h => mret (if String.eqb h "" then false else env.(cl_verify) h clientSecret)
    end.

(** OAuthClientLookupAdapter.findActiveClient: what the provider learns of a client is a
    selection of its columns. *)
Definition findActiveClient (clientId : string) : Prog (option OAuthClient) :=
  client ← catch (c ← client_findByClientId clientId; mret (Some c))
    (fun e => match e with NotFoundException _ => mret None | _ => throw e end);
  mret (match client with
        | Some c => if is_revoked c then None else Some c
        | None => None
        end).

(** ** The routes of OAuthClientController, behind their guards *)

Inductive ClientRequest :=
  | CreateClient (dto : CreateOAuthClientDto)
  | ListClients
  | UpdateClient (clientId : string) (dto : UpdateOAuthClientDto)
  | RevokeClient (clientId : string)
  | RotateSecret (clientId : string)
  | ReactivateClient (clientId : string).

Definition run_client_request (tenantId : string) (auth : option AuthContext) (q : ClientRequest) : Prog unit :=
  match q with
  | CreateClient dto => _ ← client_create tenantId dto auth; mret tt
  | ListClients => _ ← client_findByTenant tenantId; mret tt
  | UpdateClient clientId dto => _ ← client_update tenantId clientId dto auth; mret tt
  | RevokeClient clientId => client_revoke tenantId clientId
  | RotateSecret clientId => _ ← client_rotateSecret tenantId clientId; mret tt
  | ReactivateClient clientId => _ ← client_reactivate tenantId clientId; mret tt
  end.

Definition client_route (tenantId : string) (auth : option AuthContext) (q : ClientRequest) : Prog unit :=
  _ ← of_sum (scopeGuard_canActivate auth [] ["clients:manage"]);
  _ ← of_sum (tenantGuard_canActivate auth (Some tenantId));
  _ ← statusGuard_canActivate auth;
  run_client_request tenantId auth q.
End Service.
