(* ===== verification/RoleScope.v ===== *)
(** * Role scopes

    role-scope/role-scope.repository.ts and role-scope.service.ts: the scopes each role
    has in a tenant, from the platform defaults or from the tenant's overrides, and the
    writes that replace or drop an override.  A write locks the tenant, validates the
    mapping it leads to and ends the sessions of the role when it narrows it.
    admin/admin-sessions.service.ts, which ends the sessions of one user, is here too. *)

From Stdlib Require Import Ascii ZArith Lia.
From stdpp Require Import base decidable strings sets gmap list list_relations sorting.
From S2P Require Import Prelude Js OperationTtl JsText Entities StateMapping Db TenantRepository OidcSessions.
From S2P Require Import Auth TenantUserService OAuthClient.

Local Open Scope Z_scope.

Definition IMMUTABLE_ROLE : TenantUserRole := OWNER.
Definition HIERARCHY : list TenantUserRole := [OWNER; ADMIN; MEMBER; READONLY].

(** The names of SCOPE_CATALOG, and [isKnownScope]. *)
Definition KNOWN_SCOPES : list string := TENANT_SUPERUSER_SCOPE :: LEVEL2_SCOPES ++ LEVEL3_SCOPES.
Definition isKnownScope (scope : string) : bool := mem_str scope KNOWN_SCOPES.

(** [sort()] on the strings of the catalog. *)
Definition str_le (a b : string) : Prop := String.leb a b = true.
#[export] Instance str_le_dec : RelDecision str_le.
Proof. intros a b. unfold str_le. apply _. Defined.
Definition sort_str (l : list string) : list string := merge_sort str_le l.

(** ** Tables *)

Definition default_scopes (role : TenantUserRole) (d : DB) : list string :=
  sort_str (default [] (d.(db_admin).(ad_roleScopes) !! role_str role)).
Definition override (tenantId : string) (role : TenantUserRole) (d : DB) : option (list string) :=
  d.(db_admin).(ad_overrides) !! (tenantId, role_str role).

(** Both branches of the query: without a tenant the defaults, with one the override if
    its row exists. *)
Definition roleScopes_findScopesForRole (role : TenantUserRole) (tenantId : option string) (m : Mgr)
    : Prog (list string) :=
  read m (fun d => if truthy_str tenantId
                   then default (default_scopes role d) (override (default "" tenantId) role d)
                   else default_scopes role d).

Definition roleScopes_findTenantOverride (tenantId : string) (role : TenantUserRole) (m : Mgr)
    : Prog (option (list string)) :=
  read m (override tenantId role).

(** [INSERT ... ON CONFLICT (tenant_id, role) DO UPDATE]; the tenant must exist. *)
Definition roleScopes_upsert (tenantId : string) (role : TenantUserRole) (scopes : list string) (m : Mgr)
    : Prog unit :=
  exists_ ← read m (fun d => bool_decide (is_Some (d.(db_tenants) !! tenantId)));
  if exists_ : bool then
    modify m (fun d => set_overrides (<[(tenantId, role_str role) := scopes]> d.(db_admin).(ad_overrides)) d)
  else throw (QueryFailed "23503" "fk_tenant_role_scope_tenant").

Definition roleScopes_delete (tenantId : string) (role : TenantUserRole) (m : Mgr) : Prog bool :=
  removed ← read m (fun d => bool_decide (is_Some (override tenantId role d)));
  _ ← modify m (fun d => set_overrides (delete (tenantId, role_str role) d.(db_admin).(ad_overrides)) d);
  mret removed.

(** ** The mapping *)

Inductive RoleScopeSource := FromDefault | FromOverride.
#[export] Instance RoleScopeSource_eq : EqDecision RoleScopeSource.
Proof. solve_decision. Defined.

Record RoleScopeMappingEntry := mkEntry {
  me_name : TenantUserRole;
  me_scopes : list string;
  me_source : RoleScopeSource
}.

Definition mapping_entry (tenantId : string) (d : DB) (role : TenantUserRole) : RoleScopeMappingEntry :=
  match override tenantId role d with
  | Some scopes => mkEntry role scopes FromOverride
  | None => mkEntry role (default_scopes role d) FromDefault
  end.

Definition getDefaultRoleMapping : Prog (list RoleScopeMappingEntry) :=
  read NoTx (fun d => map (fun role => mkEntry role (default_scopes role d) FromDefault) HIERARCHY).

Definition getTenantRoleMapping (tenantId : string) (m : Mgr) : Prog (list RoleScopeMappingEntry) :=
  read m (fun d => map (mapping_entry tenantId d) HIERARCHY).

Definition entry_of (role : TenantUserRole) (mapping : list RoleScopeMappingEntry) : option RoleScopeMappingEntry :=
  head (filter (fun e => e.(me_name) = role) mapping).

Definition scopes_in (mapping : list RoleScopeMappingEntry) (role : TenantUserRole) : list string :=
  match entry_of role mapping with Some e => e.(me_scopes) | None => [] end.

(** ** Checks *)

Record RoleScopeWriteRequest := mkRoleWrite {
  rw_tenantId : string;
  rw_role : TenantUserRole;
  rw_actorScopes : list string;
  rw_actorRoles : list string
}.

Definition assertRoleMutable (role : TenantUserRole) : Exn + unit :=
  if bool_decide (role = IMMUTABLE_ROLE) then inl (BadRequestException "The owner role cannot be modified")
  else inr tt.

Definition assertScopesAssignable (role : TenantUserRole) (scopes : list string) : Exn + unit :=
  match assertRoleMutable role with
  | inl e => inl e
  | inr _ =>
      match filter (fun s => isKnownScope s = false) scopes with
      | (_ :: _) as unknown => inl (BadRequestException ("Unknown scope(s): " +:+ comma_list unknown))
      | [] =>
          if mem_str TENANT_SUPERUSER_SCOPE scopes
          then inl (BadRequestException "tenants:admin cannot be assigned to a role other than owner")
          else inr tt
      end
  end.

Definition assertNoEscalation (scopes : list string) (actorScopes actorRoles : list string) : Exn + unit :=
  if role_isPlatformAdmin actorRoles then inr tt
  else
    match filter (fun s => mem_str s (expandEffectiveScopes actorScopes) = false) scopes with
    | (_ :: _) as escalated =>
        inl (BadRequestException ("Cannot grant scope(s) you do not hold: " +:+ comma_list escalated))
    | [] => inr tt
    end.

(** The scopes of [l] beyond those of [l'], both expanded. *)
Definition beyond (l l' : list string) : list string :=
  sort_str (filter (fun s => mem_str s (expandEffectiveScopes l') = false) (remove_dups (expandEffectiveScopes l))).

Fixpoint check_hierarchy (mapping : list RoleScopeMappingEntry) (parent : TenantUserRole)
    (children : list TenantUserRole) : Exn + unit :=
  match children with
  | [] => inr tt
  | child :: rest =>
      match beyond (scopes_in mapping child) (scopes_in mapping parent) with
      | (_ :: _) as excess =>
          inl (BadRequestException ("Role " +:+ (role_str child +:+ (" would hold scope(s) that " +:+
                 (role_str parent +:+ (" lacks: " +:+ comma_list excess))))))
      | [] => check_hierarchy mapping child rest
      end
  end.

Definition assertHierarchy (mapping : list RoleScopeMappingEntry) : Exn + unit :=
  check_hierarchy mapping OWNER [ADMIN; MEMBER; READONLY].

Definition removedScopes (previous next : list string) : list string := beyond previous next.

(** ** Writes *)

Section Service.
(** What other requests commit between the commit of a write and its last sweep, and
    between that sweep and the answer. *)
Context (others later : Prog unit).

Definition revokeAffectedSessions (tenantId : string) (role : TenantUserRole) (m : Mgr) : Prog nat :=
  deleted ← sessions_deleteAllForTenantRole tenantId role m;
  mret (length deleted).

(** The role's scopes, the source and the number of records revoked, with whether the
    write narrowed the role. *)
Definition write_tx (request : RoleScopeWriteRequest) (source : RoleScopeSource) (action : string)
    (apply_ : Prog (list string)) : Prog (list string * nat * bool) :=
  let tenantId := request.(rw_tenantId) in
  let role := request.(rw_role) in
  before ← getTenantRoleMapping tenantId Tx;
  let previousEntry := entry_of role before in
  let previous := match previousEntry with Some e => e.(me_scopes) | None => [] end in
  scopes ← apply_;
  after ← getTenantRoleMapping tenantId Tx;
  _ ← of_sum (assertNoEscalation scopes request.(rw_actorScopes) request.(rw_actorRoles));
  _ ← of_sum (assertHierarchy after);
  let narrowed := (0 <? length (removedScopes previous scopes))%nat in
  revokedRecordCount ← (if narrowed then revokeAffectedSessions tenantId role Tx else mret 0%nat);
  let changed :=
    negb (bool_decide (match previousEntry with Some e => e.(me_source) | None => FromDefault end = source)) ||
    negb (String.eqb (String.concat " " previous) (String.concat " " scopes)) in
  _ ← (if changed then audit_write Tx (tenantId, action, "tenant_role_scope", tenantId) else mret tt);
  mret (scopes, revokedRecordCount, narrowed).

Definition writeMapping (request : RoleScopeWriteRequest) (source : RoleScopeSource) (action : string)
    (apply_ : Prog (list string)) : Prog (list string * nat) :=
  r ← transaction (write_tx request source action apply_);
  let '(scopes, revokedRecordCount, narrowed) := r in
  if negb narrowed then mret (scopes, revokedRecordCount)
  else
    _ ← others;
    late ← revokeAffectedSessions request.(rw_tenantId) request.(rw_role) NoTx;
    _ ← later;
    if (late =? 0)%nat then mret (scopes, revokedRecordCount)
    else
      _ ← audit_write NoTx (request.(rw_tenantId), "revoke", "tenant_role_scope", request.(rw_tenantId));
      mret (scopes, (revokedRecordCount + late)%nat).

Definition replaceRoleScopes (request : RoleScopeWriteRequest) (requested : list string)
    : Prog (list string * nat) :=
  let scopes := sort_str (remove_dups requested) in
  _ ← of_sum (assertScopesAssignable request.(rw_role) scopes);
  writeMapping request FromOverride "update"
    (_ ← roleScopes_upsert request.(rw_tenantId) request.(rw_role) scopes Tx; mret scopes).

Definition resetRoleScopes (request : RoleScopeWriteRequest) : Prog (list string * nat) :=
  _ ← of_sum (assertRoleMutable request.(rw_role));
  writeMapping request FromDefault "delete"
    (_ ← roleScopes_delete request.(rw_tenantId) request.(rw_role) Tx;
     read Tx (default_scopes request.(rw_role))).

(** The two routes that write, behind their guards. *)
Definition role_write (request : RoleScopeWriteRequest) (scopes : option (list string)) : Prog (list string * nat) :=
  match scopes with
  | Some scopes => replaceRoleScopes request scopes
  | None => resetRoleScopes request
  end.
End Service.

(** AdminSessionsService.revokeSessions *)
Definition admin_revokeSessions (tenantUserId : string) : Prog nat :=
  tenantUser ← user_findById tenantUserId;
  transaction
    (deleted ← sessions_deleteAllForAccount tenantUser.(tu_id) Tx;
     _ ← audit_write Tx (tenantUser.(tu_tenantId), "revoke", "oidc_session", tenantUserId);
     mret (length deleted)).
