(* ===== verification/ConnectorAdmin.v ===== *)
(** * Connectors: administration

    The operations of connector/connector.service.ts that change connectors:
    creation with the registration of the webhook at the agent, update with its
    check against a concurrent change, deletion and the deactivation of all of a
    tenant's connectors.  Every one of them invalidates the tenant's entry of the
    agent partition cache, which is recorded among the calls of the world. *)

From Stdlib Require Import Ascii ZArith Lia.
From stdpp Require Import base decidable strings sets gmap list list_relations.
From S2P Require Import Prelude Js OperationTtl JsText Entities StateMapping Db LogPartition Encryption.
From S2P Require Import OperationService CredentialRepository ConnectorRepository Auth ConnectorService TenantService.

Local Open Scope Z_scope.

Record CreateConnectorCredentialDto := mkCreateConnector {
  cc_connectorType : ConnectorType;
  cc_endpointUrl : string;
  cc_credentials : Credentials
}.

Record UpdateConnectorCredentialDto := mkUpdateConnector {
  up_endpointUrl : option string;
  up_credentials : option Credentials
}.

(** [agentPartitionCache.invalidate(tenantId)] *)
Definition invalidate (tenantId : string) : Prog unit :=
  log_call "agentPartitionCache.invalidate" tenantId.

Section Service.
Context (env : ConnectorEnv).

(** ** Creation *)

Definition reconcileFailedRegistration (manager : ConnectorManager) (context : ConnectorContext)
    (onConfirmedNotRegistered : Prog unit) : Prog bool :=
  isRegistered ← catch (b ← manager.(cm_isWebhookRegistered) context; mret (Some b)) (fun _ => mret None);
  match isRegistered with
  | None => mret false
  | Some true => mret true
  | Some false => _ ← onConfirmedNotRegistered; mret false
  end.

Definition deleteOrLogFailure (id : string) : Prog unit :=
  catch (connectors_delete id) (fun _ => mret tt).

(** The registration of a new connector's webhook. *)
Definition register_created (manager : ConnectorManager) (tenantId : string) (context : ConnectorContext)
    : Prog unit :=
  catch (manager.(cm_ensureWebhookRegistered) context) (fun registrationError =>
    confirmedRegistered ← reconcileFailedRegistration manager context
                            (deleteOrLogFailure context.(cx_connectorId));
    _ ← invalidate tenantId;
    if confirmedRegistered : bool then mret tt else throw registrationError).

Definition connector_create (tenantId : string) (dto : CreateConnectorCredentialDto) (auth : AuthContext)
    : Prog Connector :=
  _ ← of_sum (assertTenantAccess (Some auth) tenantId);
  _ ← tenants_findById tenantId;
  credentials ← (match env.(ce_managers) dto.(cc_connectorType) with
                 | Some manager => manager.(cm_prepareCredentials) dto.(cc_credentials)
                 | None => mret dto.(cc_credentials)
                 end);
  agentLogId ← assertHealthy env dto.(cc_connectorType) dto.(cc_endpointUrl) credentials;
  encrypted ← encrypt_credentials env (withAgentLogId credentials agentLogId);
  credential ← catch
    (hash ← of_sum (hashAgentLogId env dto.(cc_connectorType) agentLogId);
     connectors_create (fun id now =>
       mkConnector id tenantId dto.(cc_connectorType) dto.(cc_endpointUrl) true
         encrypted.(er_ciphertext) encrypted.(er_keyVersion) hash now now))
    rethrowConflict;
  _ ← invalidate tenantId;
  _ ← (match env.(ce_managers) dto.(cc_connectorType) with
       | Some manager =>
           register_created manager tenantId
             (mkContext credential.(con_id) tenantId credential.(con_endpointUrl) credentials)
       | None => mret tt
       end);
  _ ← tenant_setDefaultConnectorIfUnset env tenantId credential.(con_id) auth;
  mret credential.

(** ** Update *)

Definition assertAgentLogIdAvailable (existing : Connector) (agentLogId : option string)
    (existingCredentials : Credentials) : Prog (option string) :=
  hash ← of_sum (hashAgentLogId env existing.(con_type) agentLogId);
  match hash with
  | None =>
      if bool_decide (is_Some existing.(con_agentLogIdHash)) ||
         bool_decide (is_Some (assoc "agentLogId" existingCredentials))
      then throw (UnprocessableEntityException
             "The connector no longer reports its agent identifier; the existing binding was kept.")
      else mret None
  | Some h =>
      taken ← connectors_existsOtherActiveWithAgentLogIdHash h existing.(con_id);
      if taken : bool then throw (ConflictException AGENT_LOG_ID_CONFLICT_MESSAGE) else mret (Some h)
  end.

(** The fields of the request an existing connector takes without a manager. *)
Definition merge_default (existing updates : Credentials) : Credentials :=
  let take k o := match assoc k updates with Some v => assoc_set k v o | None => o end in
  take "webhookSecret" (take "apiKey" existing).

Definition merged_credentials (existing : Connector) (stored updates : Credentials) : Credentials :=
  match env.(ce_managers) existing.(con_type) with
  | Some manager => manager.(cm_mergeCredentials) stored updates
  | None => merge_default stored updates
  end.

(** The binding and the encryption of what will be stored. *)
Definition rebind (existing : Connector) (stored next : Credentials) (agentLogId : option string)
    : Prog (Credentials * option string * EncryptionResult) :=
  let persisted := withAgentLogId next agentLogId in
  hash ← assertAgentLogIdAvailable existing agentLogId stored;
  encrypted ← encrypt_credentials env persisted;
  mret (persisted, hash, encrypted).

(** The webhook of changed credentials is registered before the row is written. *)
Definition register_updated (manager : ConnectorManager) (context : ConnectorContext) : Prog unit :=
  catch (manager.(cm_ensureWebhookRegistered) context) (fun registrationError =>
    confirmedRegistered ← reconcileFailedRegistration manager context (mret tt);
    if confirmedRegistered : bool then mret tt else throw registrationError).

Definition buildCredentialUpdates (existing : Connector) (dto : UpdateConnectorCredentialDto)
    : Prog ConnectorUpdates :=
  let endpointUrl := default existing.(con_endpointUrl) dto.(up_endpointUrl) in
  match dto.(up_credentials) with
  | Some updates =>
      stored ← of_sum (decrypt_credentials env existing);
      let next := merged_credentials existing stored updates in
      agentLogId ← assertHealthy env existing.(con_type) endpointUrl next;
      r ← rebind existing stored next agentLogId;
      let '(persisted, hash, encrypted) := r in
      _ ← (match env.(ce_managers) existing.(con_type) with
           | Some manager =>
               register_updated manager
                 (mkContext existing.(con_id) existing.(con_tenantId) endpointUrl persisted)
           | None => mret tt
           end);
      mret (mkConnectorUpdates dto.(up_endpointUrl)
              (Some (encrypted.(er_ciphertext), encrypted.(er_keyVersion))) (Some hash))
  | None =>
      match dto.(up_endpointUrl) with
      | None => throw (BadRequestException "At least one of endpoint_url or credentials must be provided.")
      | Some _ =>
          stored ← of_sum (decrypt_credentials env existing);
          agentLogId ← assertHealthy env existing.(con_type) endpointUrl stored;
          if bool_decide (agentLogId = assoc "agentLogId" stored)
          then mret (mkConnectorUpdates dto.(up_endpointUrl) None None)
          else
            r ← rebind existing stored stored agentLogId;
            let '(_, hash, encrypted) := r in
            mret (mkConnectorUpdates dto.(up_endpointUrl)
                    (Some (encrypted.(er_ciphertext), encrypted.(er_keyVersion))) (Some hash))
      end
  end.

(** The row changed since the snapshot was read. *)
Definition is_stale (snapshot current : Connector) : bool :=
  negb (String.eqb current.(con_endpointUrl) snapshot.(con_endpointUrl)) ||
  negb (bool_decide (current.(con_type) = snapshot.(con_type))) ||
  negb (Bool.eqb current.(con_active) snapshot.(con_active)) ||
  negb (bool_decide (current.(con_keyVersion) = snapshot.(con_keyVersion))) ||
  negb (String.eqb current.(con_credentialsEncrypted) snapshot.(con_credentialsEncrypted)).

(** One attempt: the row afterwards, and whether the callback found it stale. *)
Definition update_locked (tenantId id : string) (snapshot : Connector) (updates : ConnectorUpdates)
    : Prog (option (Connector * bool)) :=
  connectors_updateWithLock tenantId id
    (fun current =>
       let stale := is_stale snapshot current in
       mret (if stale then no_updates else updates, stale)) NoTx.

Fixpoint update_attempts (attempts : nat) (tenantId id : string) (dto : UpdateConnectorCredentialDto)
    (snapshot : Connector) : Prog Connector :=
  match attempts with
  | O => throw (ConflictException "Connector changed during validation. Retry the update.")
  | S attempts' =>
      updates ← buildCredentialUpdates snapshot dto;
      updated ← catch (update_locked tenantId id snapshot updates) rethrowConflict;
      _ ← invalidate tenantId;
      match updated with
      | None => throw (NotFoundException (connector_not_found id))
      | Some (c, true) => update_attempts attempts' tenantId id dto c
      | Some (c, false) =>
          _ ← (match env.(ce_managers) c.(con_type) with
               | Some manager => manager.(cm_evict) id
               | None => mret tt
               end);
          lazyRotateKeyIfNeeded env c NoTx
      end
  end.

Definition connector_update (tenantId id : string) (dto : UpdateConnectorCredentialDto) (auth : AuthContext)
    : Prog Connector :=
  snapshot ← connector_findById env tenantId id (Some auth) NoTx;
  update_attempts 3 tenantId id dto snapshot.

(** ** Deletion and deactivation *)

Definition still_referenced : Exn :=
  ConflictException "Cannot delete connector: credential records still reference it.".

Definition connector_delete (tenantId id : string) (auth : AuthContext) : Prog unit :=
  _ ← connector_findById env tenantId id (Some auth) NoTx;
  hasDependents ← credentials_existsByConnectorId id;
  if hasDependents : bool then throw still_referenced
  else
    catch
      (result ← connectors_deleteUnlessDefault tenantId id;
       _ ← invalidate tenantId;
       match result with
       | IsDefault => throw (ConflictException
           "Cannot delete the default connector. Select a different default connector in tenant settings first.")
       | DeletionNotFound => throw (NotFoundException (connector_not_found id))
       | Deleted => mret tt
       end)
      (fun e => if has_pg_code "23503" e then throw still_referenced else throw e).

(** [try ... finally] *)
Definition connector_deactivateAllForTenant (tenantId : string) : Prog nat :=
  count ← catch (connectors_deactivateAllForTenant tenantId)
            (fun e => _ ← invalidate tenantId; throw e);
  _ ← invalidate tenantId;
  mret count.
End Service.
