(* ===== verification/ConnectionService.v ===== *)
(** * ConnectionService

    Models connection/connection.service.ts: creating or accepting an
    invitation, reconciling a row with what the agent reports, listing,
    deleting, and the two writes the webhook worker goes through. *)

From Stdlib Require Import Ascii ZArith Lia.
From stdpp Require Import base decidable strings sets gmap list list_relations.
From S2P Require Import Prelude Js Entities StateMapping OperationTtl Db Pagination.
From S2P Require Import OperationService CredentialRepository.
From S2P Require Import ConnectionRepository ConnectorService AdapterRegistry Auth.

Local Open Scope Z_scope.

Definition mapAdapterConnectionState (s : AgentConnectionState) : ConnectionState :=
  match s with
  | Invitation => INVITED
  | Request => REQUESTED
  | Response => RESPONDED
  | Active => ACTIVE
  | Completed => CN_COMPLETED
  | Error => ABANDONED
  end.

Definition sanitizeCallerMetadata (md : list (string * json)) : list (string * json) :=
  dissoc "multiUse" (dissoc "invitationUrl" (dissoc "invitationId" md)).

Definition extractInvitationOptions (md : list (string * json)) : InvitationOptions :=
  mkInvOptions (as_string (assoc "alias" md)) (as_string (assoc "label" md))
    (as_string (assoc "goalCode" md)) (as_bool (assoc "multiUse" md)).

Record CreateConnectionDto := mkCreateConnection {
  cd_protocol : ConnectionProtocol;
  cd_invitationUrl : option string;
  cd_metadata : option (list (string * json))
}.

Definition connection_protocol_str (p : ConnectionProtocol) : string :=
  match p with
  | DIDCOMM_V1 => "didcomm-v1" | DIDCOMM_V2 => "didcomm-v2" | OPENID4VC => "openid4vc"
  end.

(** The request body kept on the operation. *)
Definition connection_dto_json (dto : CreateConnectionDto) : json :=
  JObj ([("protocol", JStr (connection_protocol_str dto.(cd_protocol)))] ++
        (match dto.(cd_invitationUrl) with Some u => [("invitationUrl", JStr u)] | None => [] end) ++
        (match dto.(cd_metadata) with Some m => [("metadata", JObj m)] | None => [] end)).

Definition connection_not_found (id : string) : Exn :=
  NotFoundException ("Connection '" +:+ id +:+ "' was not found.").

(** ** Writes on the invitation's row *)

Definition applyInvitationResult (connectionId : string) (invitation : PortInvitation)
    (multiUse : option bool) : Prog Connection :=
  row ← connections_findById connectionId;
  match row with
  | None => throw (connection_not_found connectionId)
  | Some c =>
      let c := if truthy_str invitation.(in_connectionId)
               then cn_bind c.(cn_connectorId) invitation.(in_connectionId) c.(cn_theirLabel)
                      c.(cn_theirDid) c.(cn_protocol) c
               else c in
      connections_update
        (cn_set_metadata
           (spread c.(cn_metadata)
              [("invitationUrl", JStr invitation.(in_invitationUrl));
               ("invitationId", JStr invitation.(in_invitationId));
               ("multiUse", JBool (default false multiUse))]) c) NoTx
  end.

Definition markAbandoned (connectionId : string) : Prog unit :=
  row ← connections_findById connectionId;
  match row with
  | None => mret tt
  | Some c => _ ← connections_update (cn_set_state ABANDONED c) NoTx; mret tt
  end.

(** An [undefined] label or DID is not written. *)
Definition applyRemoteConnectionState (connection : Connection) (remote : RemoteConnection)
    : Prog Connection :=
  let state := mapAdapterConnectionState remote.(rm_state) in
  if bool_decide (connection.(cn_state) = state) &&
     bool_decide (connection.(cn_theirLabel) = remote.(rm_theirLabel)) &&
     bool_decide (connection.(cn_theirDid) = remote.(rm_theirDid)) &&
     bool_decide (connection.(cn_externalConnectionId) = Some remote.(rm_id))
  then mret connection
  else
    connections_update
      (cn_set_state state
         (cn_bind connection.(cn_connectorId) (Some remote.(rm_id))
            (or_else remote.(rm_theirLabel) connection.(cn_theirLabel))
            (or_else remote.(rm_theirDid) connection.(cn_theirDid))
            connection.(cn_protocol) connection)) NoTx.

(** ** What the webhook worker calls *)

Definition createFromInvitationTemplate (template : Connection) (externalId : string)
    (state : ConnVal) (theirDid : option string) (m : Mgr) : Prog Connection :=
  let metadata := dissoc "invitationId" (dissoc "invitationUrl" template.(cn_metadata)) in
  match state with
  | Inherited _ => throw (QueryFailed "22P02" "")
  | Known s =>
      created ← connections_create (fun id now =>
        mkConnection id template.(cn_tenantId) (Some externalId) None theirDid s
          template.(cn_connectorType) template.(cn_connectorId) template.(cn_protocol)
          metadata now now) m;
      _ ← audit_emit m created.(cn_tenantId) "create" "connection" created.(cn_id);
      mret created
  end.

Definition applyProtocolStateIfForward (connection : Connection) (state : ConnVal)
    (fromStates : list ConnectionState) (m : Mgr) : Prog (option Connection) :=
  won ← connections_updateStateIfForward connection.(cn_id) connection.(cn_tenantId) state
          fromStates m;
  if won : bool then
    _ ← audit_emit m connection.(cn_tenantId) "update" "connection" connection.(cn_id);
    mret (match state with
          | Known s => Some (cn_set_state s connection)
          | Inherited _ => None
          end)
  else mret None.

Section ConnectionService.
Context (registry : Registry).

(** ** Creation *)

Definition createInvitation (created : Connection) (a : AgentAdapter) (cx : ConnectorContext)
    (dto : CreateConnectionDto) : Prog json :=
  let options := extractInvitationOptions (default [] dto.(cd_metadata)) in
  invitation ← a.(ad_createInvitation) cx options;
  _ ← applyInvitationResult created.(cn_id) invitation options.(io_multiUse);
  mret (JObj [("connection_id", JStr created.(cn_id));
              ("invitation_url", JStr invitation.(in_invitationUrl))]).

Definition acceptInvitation (created : Connection) (a : AgentAdapter) (cx : ConnectorContext)
    (invitationUrl : string) : Prog json :=
  remote ← a.(ad_acceptInvitation) cx invitationUrl;
  updated ← applyRemoteConnectionState created remote;
  mret (JObj [("connection_id", JStr updated.(cn_id));
              ("state", JStr (connection_state_str updated.(cn_state)))]).

Definition new_connection (tenantId : string) (connector : Connector) (dto : CreateConnectionDto)
    (id : string) (now : Z) : Connection :=
  mkConnection id tenantId None None None
    (if truthy_str dto.(cd_invitationUrl) then REQUESTED else INVITED)
    connector.(con_type) (Some connector.(con_id)) dto.(cd_protocol)
    (sanitizeCallerMetadata (default [] dto.(cd_metadata))) now now.

Definition connection_create (tenantId : string) (dto : CreateConnectionDto)
    (auth : option AuthContext) : Prog Operation :=
  _ ← of_sum (assertTenantAccess auth tenantId);
  resolved ← resolve registry tenantId None no_options;
  created ← connections_create (new_connection tenantId resolved.(rs_connector) dto) NoTx;
  _ ← audit_emit NoTx created.(cn_tenantId) "create" "connection" created.(cn_id);
  operation ← createOperation
    (mkCreateOp tenantId CONNECTION_CREATE
       (JObj [("method", JStr "POST");
              ("path", JStr ("/api/v1/tenants/" +:+ tenantId +:+ "/connections"));
              ("body", connection_dto_json dto)]) None None None) NoTx;
  _ ← transitionState operation.(op_id) PROCESSING None NoTx None;
  catch
    (result ← (if truthy_str dto.(cd_invitationUrl)
               then acceptInvitation created resolved.(rs_adapter) resolved.(rs_context)
                      (default "" dto.(cd_invitationUrl))
               else createInvitation created resolved.(rs_adapter) resolved.(rs_context) dto);
     transitionState operation.(op_id) COMPLETED (Some (Some result)) NoTx None)
    (fun error =>
     _ ← markAbandoned created.(cn_id);
     transitionState operation.(op_id) FAILED
       (Some (Some (JObj [("code", JStr "CONNECTION_CREATE_FAILED");
                          ("message", JStr (exn_message error))]))) NoTx None).

(** ** Reads *)

Definition connection_findById (tenantId id : string) (auth : option AuthContext)
    : Prog Connection :=
  row ← connections_findById id;
  match row with
  | None => throw (connection_not_found id)
  | Some c =>
      if String.eqb c.(cn_tenantId) tenantId then
        _ ← of_sum (assertResourceTenantOrNotFound auth c.(cn_tenantId)
                      ("Connection '" +:+ id +:+ "' was not found."));
        mret c
      else throw (connection_not_found id)
  end.

Definition connection_findPage (tenantId : string) (limit : option nat) (cursor : option Cursor)
    (f : ConnectionFilters) : Prog Page :=
  connections_findPageForTenant tenantId f (default 20%nat limit) cursor.

(** ** Reconciliation *)

(** The remote connection a row stands for, established from its external id or
    from its invitation. *)
Definition resolveRemoteIdentity (tenantId id : string) (selectedConnectorId : option string)
    : Prog (Connection * RemoteConnection * string) :=
  row ← connections_findByIdForTenant tenantId id;
  match row with
  | None => throw (NotFoundException "Connection not found")
  | Some c =>
      if truthy (assoc "multiUse" c.(cn_metadata)) && negb (truthy_str c.(cn_externalConnectionId))
      then throw (BadRequestException "Select a holder connection, not a reusable invitation")
      else if truthy_str c.(cn_connectorId) && truthy_str selectedConnectorId &&
              negb (bool_decide (c.(cn_connectorId) = selectedConnectorId))
      then throw (BadRequestException "Connection and definition belong to different connectors")
      else
        let connectorId := or_else c.(cn_connectorId) selectedConnectorId in
        if negb (truthy_str connectorId) then
          throw (ConflictException "Legacy connection requires an explicit connector")
        else
          resolved ← resolve registry tenantId None (with_connector connectorId);
          let a := resolved.(rs_adapter) in
          let cx := resolved.(rs_context) in
          remote ← (if truthy_str c.(cn_externalConnectionId) && truthy_str c.(cn_connectorId) then
                      let ext := default "" c.(cn_externalConnectionId) in
                      remote ← catch (a.(ad_getById) cx ext) (fun e =>
                                 match e with
                                 | AdapterError BackendNotFound _ _ =>
                                     throw (ConflictException "Backend connection was not found")
                                 | _ => throw e
                                 end);
                      if String.eqb remote.(rm_id) ext then mret remote
                      else throw (ConflictException "Backend returned a different connection")
                    else
                      match as_string (assoc "invitationId" c.(cn_metadata)) with
                      | Some (String _ _ as invitationId) =>
                          matches ← a.(ad_listByInvitation) cx invitationId 2;
                          if existsb (fun r => negb (bool_decide
                               (r.(rm_invitationId) = Some invitationId))) matches
                          then throw (ConflictException "Backend returned a different invitation")
                          else
                            match matches with
                            | [remote] =>
                                if truthy_str c.(cn_externalConnectionId) &&
                                   negb (bool_decide
                                     (Some remote.(rm_id) = c.(cn_externalConnectionId)))
                                then throw (ConflictException
                                       "Invitation connection does not match the saved connection")
                                else mret remote
                            | [] => throw (ConflictException "Holder connection is not yet visible")
                            | _ => throw (ConflictException
                                     "Invitation matches multiple connections")
                            end
                      | _ => throw (ConflictException
                               "Connection has no verifiable invitation correlation")
                      end);
          if bool_decide (remote.(rm_protocol) = Some "didcomm-v1")
          then mret (c, remote, default "" connectorId)
          else throw (ConflictException "A completed DIDComm v1 handshake is required")
  end.

Definition reconcile (tenantId id : string) (selectedConnectorId : option string)
    : Prog Connection :=
  '(connection, remote, connectorId) ← resolveRemoteIdentity tenantId id selectedConnectorId;
  if decide (remote.(rm_state) = Active \/ remote.(rm_state) = Completed) then
    let state := mapAdapterConnectionState remote.(rm_state) in
    updated ← connections_reconcile tenantId id connectorId remote state
                (connectionStatesBelow (Known state))
                (dispatch Tx tenantId "connection.established" remote.(rm_id));
    match updated with
    | None => throw (ConflictException "Connection binding changed during reconciliation")
    | Some (c, established) =>
        _ ← prog_when established (emit_event "connection.established" tenantId remote.(rm_id));
        _ ← audit_emit NoTx tenantId "update" "connection" connection.(cn_id);
        mret c
    end
  else throw (ConflictException "A completed DIDComm v1 handshake is required").

Definition resolveForIssuance (tenantId id connectorId : string) : Prog Connection :=
  connection ← reconcile tenantId id (Some connectorId);
  if truthy_str connection.(cn_externalConnectionId) &&
     bool_decide (connection.(cn_state) = ACTIVE \/ connection.(cn_state) = CN_COMPLETED)
  then mret connection
  else throw (ConflictException "Connection handshake is not complete").

Definition resolveIdentity (tenantId id connectorId : string) : Prog Connection :=
  '(connection, remote, _) ← resolveRemoteIdentity tenantId id (Some connectorId);
  if truthy_str connection.(cn_connectorId) && truthy_str connection.(cn_externalConnectionId)
  then mret connection
  else
    adopted ← connections_reconcile tenantId id connectorId remote connection.(cn_state) []
                (mret tt);
    match adopted with
    | None => throw (ConflictException "Connection binding changed during reconciliation")
    | Some (c, _) => mret c
    end.

(** ** Deletion *)

Definition connection_delete (tenantId id : string) (auth : option AuthContext) : Prog unit :=
  connection ← connection_findById tenantId id auth;
  _ ← (if truthy_str connection.(cn_externalConnectionId) then
         resolved ← resolve registry tenantId None
                      (if truthy_str connection.(cn_connectorId)
                       then with_connector connection.(cn_connectorId) else no_options);
         resolved.(rs_adapter).(ad_deleteById) resolved.(rs_context)
           (default "" connection.(cn_externalConnectionId))
       else mret tt);
  _ ← connections_delete id;
  audit_emit NoTx connection.(cn_tenantId) "delete" "connection" id.

Definition connection_abandonAllForTenant (tenantId : string) : Prog nat :=
  connections_abandonAllForTenant tenantId.
End ConnectionService.
