(* ===== verification/ProtocolStateChange.v ===== *)
(** * The protocol.state-change worker

    Models protocol-state-change/protocol-state-change.service.ts: one agent
    webhook, already queued, is applied to the Operation, Credential, Exchange
    and Connection it correlates with, together with the notifications it
    causes, in one transaction. *)

From Stdlib Require Import Ascii ZArith Lia.
From stdpp Require Import base decidable strings sets gmap list list_relations.
From S2P Require Import Prelude Js Entities StateMapping OperationTtl Db Pagination.
From S2P Require Import OperationService CredentialRepository.
From S2P Require Import ConnectionRepository AdapterRegistry Auth ConnectionService.

Local Open Scope Z_scope.

Record OperationOutcomeResult := mkOpOutcome {
  oo_matched : bool;
  oo_transitioned : bool;
  oo_operationType : option string
}.

Record ApplyOutcomeResult := mkApplied {
  ao_matched : bool;
  ao_transitioned : bool;
  ao_established : bool
}.

(** How a delivery settled, as logged. *)
Inductive Settled := applied | ignored | no_op | unmatched.

(** The result stored with a transition: the outer [option] is whether the patch
    has one, the inner is null. *)
Definition resolveOperationResult (data : ProtocolStateChangeJobData) (outcome : ProtocolOutcome)
    : option json :=
  match outcome.(po_operationState) with
  | Some FAILED =>
      Some (JObj [("code", JStr (js_upper (topic_str data.(psc_topic)) +:+ "_FAILED"));
                  ("message", JStr data.(psc_protocolState))])
  | Some PROCESSING => None
  | _ => Some (JObj data.(psc_payload))
  end.

(** ** Batch parents *)

Definition counts_result (c : BatchStateCounts) : json := JObj (counts_entries (result_counts c)).

Definition settleBatchParent (batchId tenantId : string) : Prog unit :=
  _ ← operations_lockBatchParent batchId tenantId Tx;
  counts ← operations_countByBatchGroupedByState batchId tenantId Tx;
  if (0 <? counts.(bc_pending) + counts.(bc_processing))%nat then mret tt
  else
    let finalState := if (0 <? counts.(bc_failed))%nat then FAILED else COMPLETED in
    claimed ← operations_claimBatchSettlement batchId tenantId finalState Tx;
    if claimed : bool then
      _ ← transitionState batchId finalState (Some (Some (counts_result counts))) Tx None;
      dispatch Tx tenantId ("operation.batch." +:+ operation_state_str finalState) batchId
    else mret tt.

(** ** Operations *)

Definition settleRelatedOfferOperation (data : ProtocolStateChangeJobData)
    (outcome : ProtocolOutcome) : Prog unit :=
  credential ← credentials_findByExternalId data.(psc_tenantId) data.(psc_externalId);
  match credential with
  | None => mret tt
  | Some c =>
      offer ← operations_findByIdForTenant c.(cr_operationId) data.(psc_tenantId) NoTx;
      match offer with
      | None => mret tt
      | Some o =>
          updated ← transitionStateIfForward o.(op_id) outcome.(po_operationState)
                      (operationStatesBelow outcome.(po_operationState))
                      (Some (resolveOperationResult data outcome)) Tx None;
          match updated with
          | None => mret tt
          | Some _ =>
              dispatch Tx data.(psc_tenantId)
                ("operation.offer." +:+
                 match outcome.(po_operationState) with
                 | Some s => operation_state_str s
                 | None => "undefined"
                 end) o.(op_id)
          end
      end
  end.

Definition is_exchange_action (type : string) : bool :=
  mem_str type [CREDENTIAL_ACCEPT; CREDENTIAL_ISSUE; CREDENTIAL_REJECT].

Definition applyOperationOutcome (data : ProtocolStateChangeJobData) (outcome : ProtocolOutcome)
    : Prog OperationOutcomeResult :=
  operation ← operations_findByExternalIdForTenant data.(psc_tenantId) data.(psc_externalId)
                (TOPIC_OPERATION_TYPES data.(psc_topic));
  match operation with
  | None =>
      existed ← operations_existsByExternalIdForTenant data.(psc_tenantId) data.(psc_externalId)
                  (TOPIC_OPERATION_TYPES data.(psc_topic));
      mret (mkOpOutcome existed false None)
  | Some o =>
      updated ← transitionStateIfForward o.(op_id) outcome.(po_operationState)
                  (operationStatesBelow outcome.(po_operationState))
                  (Some (resolveOperationResult data outcome)) Tx None;
      match updated with
      | None => mret (mkOpOutcome true false (Some o.(op_type)))
      | Some _ =>
          _ ← prog_when (truthy_str o.(op_batchId))
                (settleBatchParent (default "" o.(op_batchId)) data.(psc_tenantId));
          _ ← prog_when (is_exchange_action o.(op_type) &&
                         bool_decide (outcome.(po_operationState) = Some COMPLETED \/
                                      outcome.(po_operationState) = Some FAILED))
                (settleRelatedOfferOperation data outcome);
          mret (mkOpOutcome true true (Some o.(op_type)))
      end
  end.

(** ** Credentials *)

Definition applyCredentialOutcome (data : ProtocolStateChangeJobData) (outcome : ProtocolOutcome)
    : Prog ApplyOutcomeResult :=
  match outcome.(po_credentialState) with
  | None => mret (mkApplied false false false)
  | Some s =>
      credential ← credentials_findByExternalId data.(psc_tenantId) data.(psc_externalId);
      match credential with
      | None => mret (mkApplied false false false)
      | Some c =>
          now ← now_ms;
          won ← credentials_updateStateIfForward c.(cr_id) data.(psc_tenantId) s
                  (credentialStatesBelow s)
                  (mkTimestamps (if decide (s = ISSUED) then Some now else None)
                     (if decide (s = REVOKED) then Some now else None) None) Tx;
          if won : bool then
            _ ← audit_emit Tx data.(psc_tenantId) "update" "credential" c.(cr_id);
            mret (mkApplied true true false)
          else mret (mkApplied true false false)
      end
  end.

(** ** Connections *)

Definition applyConnectionOutcome (data : ProtocolStateChangeJobData) (outcome : ProtocolOutcome)
    : Prog ApplyOutcomeResult :=
  match outcome.(po_connectionState) with
  | None => mret (mkApplied false false false)
  | Some target =>
      let transition connection :=
        moved ← transitionConnectionState target
                  (fun s fromStates => applyProtocolStateIfForward connection s fromStates Tx);
        mret (mkApplied true (bool_decide (is_Some moved.1)) moved.2) in
      connection ← connections_findByExternalConnectionIdForTenant data.(psc_tenantId)
                     data.(psc_externalId);
      match connection with
      | Some c => transition c
      | None =>
          template ← connections_findByInvitationMsgIdForTenant data.(psc_tenantId)
                       (as_string (assoc "invitation_msg_id" data.(psc_payload)));
          match template with
          | None => mret (mkApplied false false false)
          | Some t =>
              if truthy (assoc "multiUse" t.(cn_metadata)) then
                if decide (target = Known INVITED) then mret (mkApplied true false false)
                else
                  _ ← createFromInvitationTemplate t data.(psc_externalId) target
                        (as_string (assoc "their_did" data.(psc_payload))) Tx;
                  mret (mkApplied true true
                          (bool_decide (target = Known ACTIVE \/ target = Known CN_COMPLETED)))
              else transition t
          end
      end
  end.

(** ** process *)

Record ProcessResult := mkProcessResult {
  pr_matched : bool;
  pr_transitioned : bool;
  pr_event : option string
}.

(** The exchange this webhook names, when it can be told which connector it is
    on: an explicit correlation, else the credential's connector. *)
Definition observeExchange (data : ProtocolStateChangeJobData)
    (correlation : option (string * string)) : Prog (option ExchangeTransition) :=
  if decide (data.(psc_topic) = issue_credential) then
    credential ← match correlation with
                 | Some _ => mret None
                 | None => credentials_findByExternalId data.(psc_tenantId) data.(psc_externalId)
                 end;
    let connectorId := match correlation with
                       | Some (_, connectorId) => Some connectorId
                       | None => cr_connectorId <$> credential
                       end in
    if truthy_str connectorId then
      exchanges_observe data.(psc_tenantId) (default "" connectorId) data.(psc_externalId)
        data.(psc_protocolState) Tx (fst <$> correlation)
    else mret None
  else mret None.

(** The records other than the exchange: whether a record matched, whether one
    moved, whether a connection was established; [None] when the delivery ends
    without an event of its own (a connection that did not move). *)
Definition applyOutcome (data : ProtocolStateChangeJobData) (outcome : ProtocolOutcome)
    : Prog (OperationOutcomeResult * ApplyOutcomeResult) :=
  operationOutcome ← applyOperationOutcome data outcome;
  applied ← (if decide (data.(psc_topic) = connections) then applyConnectionOutcome data outcome
             else if bool_decide (operationOutcome.(oo_operationType) = None) ||
                     operationOutcome.(oo_transitioned)
             then applyCredentialOutcome data outcome
             else mret (mkApplied false false false));
  mret (operationOutcome, applied).

Definition outcome_event (outcome : ProtocolOutcome) (established : bool)
    (operationType : option string) : option string :=
  if established then Some "connection.established"
  else if bool_decide (outcome.(po_event) = Some "credential.issued") &&
          bool_decide (operationType = Some CREDENTIAL_ACCEPT)
  then Some "credential.accepted"
  else outcome.(po_event).

(** The body of the transaction. *)
Definition process_tx (data : ProtocolStateChangeJobData) (outcome : ProtocolOutcome)
    (correlation : option (string * string)) : Prog ProcessResult :=
  exchangeTransition ← observeExchange data correlation;
  _ ← match exchangeTransition with
      | Some t =>
          prog_when (bool_decide (t.(et_to) = Ex RequestReceived))
            (dispatch Tx data.(psc_tenantId) "credential-exchange.request-received"
               t.(et_exchangeId))
      | None => mret tt
      end;
  '(operationOutcome, recordOutcome) ← applyOutcome data outcome;
  let matched := recordOutcome.(ao_matched) || operationOutcome.(oo_matched) in
  let transitioned := recordOutcome.(ao_transitioned) || operationOutcome.(oo_transitioned) in
  if bool_decide (data.(psc_topic) = connections) && negb recordOutcome.(ao_transitioned) then
    mret (mkProcessResult matched transitioned None)
  else if negb transitioned then
    mret (mkProcessResult (matched || bool_decide (is_Some exchangeTransition))
            (bool_decide (is_Some exchangeTransition)) None)
  else
    let event := outcome_event outcome recordOutcome.(ao_established)
                   operationOutcome.(oo_operationType) in
    _ ← dispatch Tx data.(psc_tenantId)
          (default (topic_str data.(psc_topic) +:+ "." +:+ data.(psc_protocolState)) event)
          data.(psc_externalId);
    mret (mkProcessResult matched transitioned event).

Definition process (data : ProtocolStateChangeJobData) (correlation : option (string * string))
    : Prog Settled :=
  match resolveProtocolOutcome data.(psc_topic) data.(psc_protocolState) with
  | None => mret ignored
  | Some outcome =>
      result ← transaction (process_tx data outcome correlation);
      _ ← match result.(pr_event) with
          | Some e => emit_event e data.(psc_tenantId) data.(psc_externalId)
          | None => mret tt
          end;
      mret (if result.(pr_transitioned) then applied
            else if result.(pr_matched) then no_op else unmatched)
  end.
