(* ===== verification/Lifecycle.v ===== *)
(** * Lifecycle and tenancy

    The contract the repositories' writes keep: [evolves own] relates the tables
    before and after.  Every record keeps its identity (id, tenant, type, links,
    creation time) and its state moves along its lifecycle; records are added or
    changed only for tenants in [own], and so are jobs; nothing is deleted.

    [VPres m R] is the statement about one repository program: it changes the
    view it was given (its transaction's, or the committed one) along [R], and
    no other.  [TxPres own] is the same for a program that runs inside a
    transaction and may also read the committed tables. *)

From Stdlib Require Import Ascii ZArith Lia.
From stdpp Require Import base decidable strings sets gmap list list_relations.
From S2P Require Import Prelude Js Entities StateMapping OperationTtl Db Pagination.
From S2P Require Import OperationService CredentialRepository.
From S2P Require Import ConnectionRepository AdapterRegistry Auth ConnectionService.
From S2P Require Import ProtocolStateChange.

Local Open Scope Z_scope.

(** ** Records *)

Definition op_row (o o' : Operation) : Prop :=
  o'.(op_id) = o.(op_id) /\ o'.(op_tenantId) = o.(op_tenantId) /\
  o'.(op_batchId) = o.(op_batchId) /\ o'.(op_type) = o.(op_type) /\
  o'.(op_request) = o.(op_request) /\ o'.(op_exchangeId) = o.(op_exchangeId) /\
  o'.(op_createdAt) = o.(op_createdAt) /\ op_history o.(op_state) o'.(op_state).

Definition cr_row (c c' : Credential) : Prop :=
  c'.(cr_id) = c.(cr_id) /\ c'.(cr_tenantId) = c.(cr_tenantId) /\
  c'.(cr_connectorId) = c.(cr_connectorId) /\ c'.(cr_format) = c.(cr_format) /\
  c'.(cr_operationId) = c.(cr_operationId) /\ c'.(cr_exchangeId) = c.(cr_exchangeId) /\
  c'.(cr_createdAt) = c.(cr_createdAt) /\ cred_history c.(cr_state) c'.(cr_state).

Definition cn_row (c c' : Connection) : Prop :=
  c'.(cn_id) = c.(cn_id) /\ c'.(cn_tenantId) = c.(cn_tenantId) /\
  c'.(cn_connectorType) = c.(cn_connectorType) /\
  c'.(cn_createdAt) = c.(cn_createdAt) /\ conn_history c.(cn_state) c'.(cn_state).

Definition ex_row (x x' : CredentialExchange) : Prop :=
  x'.(ex_id) = x.(ex_id) /\ x'.(ex_tenantId) = x.(ex_tenantId) /\
  x'.(ex_connectorId) = x.(ex_connectorId) /\ x'.(ex_role) = x.(ex_role) /\
  x'.(ex_format) = x.(ex_format) /\ x'.(ex_createdAt) = x.(ex_createdAt) /\
  ex_history x.(ex_state) x'.(ex_state).

(** A connector may be switched off, pointed elsewhere and encrypted again. *)
Definition con_row (c c' : Connector) : Prop :=
  c'.(con_id) = c.(con_id) /\ c'.(con_tenantId) = c.(con_tenantId) /\
  c'.(con_type) = c.(con_type) /\ c'.(con_createdAt) = c.(con_createdAt).

(** A preorder on rows that fixes the id and the tenant. *)
Class RowOrder {A} (row : relation A) (id tenant : A -> string) : Prop := {
  row_preorder :: PreOrder row;
  row_id r r' : row r r' -> id r' = id r;
  row_tenant r r' : row r r' -> tenant r' = tenant r
}.

Ltac solve_row :=
  split; [split; [intros ?; repeat split; reflexivity|
                  intros ??? H1 H2; repeat (destruct H1 as [?E H1], H2 as [?E H2]);
                  repeat split; first [congruence | by etrans]]|
          by intros ?? (?&?&?)..].

#[export] Instance op_row_order : RowOrder op_row op_id op_tenantId.
Proof. solve_row. Qed.
#[export] Instance cr_row_order : RowOrder cr_row cr_id cr_tenantId.
Proof. solve_row. Qed.
#[export] Instance cn_row_order : RowOrder cn_row cn_id cn_tenantId.
Proof. solve_row. Qed.
#[export] Instance ex_row_order : RowOrder ex_row ex_id ex_tenantId.
Proof. solve_row. Qed.
#[export] Instance con_row_order : RowOrder con_row con_id con_tenantId.
Proof.
  split; [split; [by intros c|intros ??? (?&?&?&?) (?&?&?&?); repeat split; congruence]|by intros ?? (?&?&?)..].
Qed.

(** ** Tables *)

Section Table.
Context {A : Type} (row : relation A) (id tenant : A -> string) `{!RowOrder row id tenant}.
Context (own : string -> Prop).

Definition table_keyed (t : gmap string A) : Prop := forall i r, t !! i = Some r -> id r = i.

Definition cell_evolves (i : string) (c c' : option A) : Prop :=
  match c, c' with
  | Some r, Some r' => row r r' /\ (r' = r \/ own (tenant r))
  | None, Some r' => id r' = i /\ own (tenant r')
  | None, None => True
  | Some _, None => False
  end.

Definition table_evolves (t t' : gmap string A) : Prop :=
  forall i, cell_evolves i (t !! i) (t' !! i).

#[export] Instance table_evolves_preorder : PreOrder table_evolves.
Proof.
  split.
  - intros t i. unfold cell_evolves. destruct (t !! i); [|done]. split; [reflexivity|by left].
  - intros t1 t2 t3 H1 H2 i. specialize (H1 i). specialize (H2 i). unfold cell_evolves in *.
    destruct (t1 !! i) as [r1|], (t2 !! i) as [r2|], (t3 !! i) as [r3|]; try done.
    + destruct H1 as [R1 O1], H2 as [R2 O2]. split; [by etrans|].
      destruct O1 as [->|]; [|by right]. done.
    + destruct H1 as [K O], H2 as [R2 _].
      rewrite (row_id (row:=row) (id:=id) (tenant:=tenant) _ _ R2).
      rewrite (row_tenant (row:=row) (id:=id) (tenant:=tenant) _ _ R2). done.
Qed.

Lemma table_evolves_keyed t t' : table_evolves t t' -> table_keyed t -> table_keyed t'.
Proof.
  intros H K i r' Hr'. specialize (H i). unfold cell_evolves in H. rewrite Hr' in H.
  destruct (t !! i) as [r|] eqn:E; [|by destruct H].
  destruct H as [H _]. apply row_id in H. rewrite H. by apply K.
Qed.

Lemma table_evolves_insert t i r :
  cell_evolves i (t !! i) (Some r) -> table_evolves t (<[i := r]> t).
Proof.
  intros H j. destruct (decide (j = i)) as [->|Hne].
  - by rewrite lookup_insert_eq.
  - rewrite lookup_insert_ne by done. apply table_evolves_preorder.
Qed.

(** A row of a tenant that is not owned is there afterwards exactly if it was. *)
Lemma table_evolves_other t t' i r :
  table_evolves t t' -> ~ own (tenant r) -> t' !! i = Some r <-> t !! i = Some r.
Proof.
  intros H Hr. specialize (H i). unfold cell_evolves in H.
  destruct (t !! i) as [x|], (t' !! i) as [x'|]; try done.
  - destruct H as [Hrow [->|Ho]]; [done|].
    apply (row_tenant (row:=row) (id:=id) (tenant:=tenant)) in Hrow.
    split; intros [= ->]; exfalso; apply Hr; by rewrite ?Hrow.
  - destruct H as [_ Ho]. by split; intros [= ->].
Qed.
End Table.

(** ** Databases *)

Definition job_tenant (j : Job) : string :=
  match j with
  | WebhookDispatch t _ _ _ => t
  | AuditWrite t _ _ _ => t
  | ProtocolStateChange d => d.(psc_tenantId)
  | DefinitionRegister t _ _ => t
  | TenantStatusChange t _ _ => t
  | TenantConfigChange t _ => t
  end.

Definition keyed (d : DB) : Prop :=
  table_keyed op_id d.(db_operations) /\ table_keyed cr_id d.(db_credentials) /\
  table_keyed cn_id d.(db_connections) /\ table_keyed ex_id d.(db_exchanges).

Definition jobs_evolve (own : string -> Prop) (l l' : list Job) : Prop :=
  exists js, l' = l ++ js /\ Forall (fun j => own (job_tenant j)) js.

#[export] Instance jobs_evolve_preorder own : PreOrder (jobs_evolve own).
Proof.
  split.
  - intros l. exists []. by rewrite app_nil_r.
  - intros l1 l2 l3 (j1 & -> & H1) (j2 & -> & H2). exists (j1 ++ j2).
    by rewrite app_assoc, Forall_app.
Qed.

Definition evolves (own : string -> Prop) (d d' : DB) : Prop :=
  table_evolves op_row op_id op_tenantId own d.(db_operations) d'.(db_operations) /\
  table_evolves cr_row cr_id cr_tenantId own d.(db_credentials) d'.(db_credentials) /\
  table_evolves cn_row cn_id cn_tenantId own d.(db_connections) d'.(db_connections) /\
  table_evolves ex_row ex_id ex_tenantId own d.(db_exchanges) d'.(db_exchanges) /\
  d'.(db_tenants) = d.(db_tenants) /\
  table_evolves con_row con_id con_tenantId own d.(db_connectors) d'.(db_connectors) /\
  jobs_evolve own d.(db_jobs) d'.(db_jobs).

#[export] Instance evolves_preorder own : PreOrder (evolves own).
Proof.
  split.
  - intros d. repeat split; reflexivity.
  - intros d1 d2 d3 (?&?&?&?&?&?&?) (?&?&?&?&?&?&?).
    repeat split; first [congruence | by etrans].
Qed.

Lemma evolves_keyed own d d' : evolves own d d' -> keyed d -> keyed d'.
Proof.
  intros (?&?&?&?&_) (?&?&?&?). repeat split; eauto using table_evolves_keyed with typeclass_instances.
Qed.

(** The relation the program logic uses. *)
Definition Evo (own : string -> Prop) (d d' : DB) : Prop := keyed d -> evolves own d d'.

#[export] Instance Evo_preorder own : PreOrder (Evo own).
Proof.
  split.
  - intros d _. reflexivity.
  - intros d1 d2 d3 H1 H2 K. etrans; [by apply H1|]. apply H2. by eapply evolves_keyed; eauto.
Qed.

(** ** Programs on one view *)

Definition other_view (m : Mgr) (w : World) : DB :=
  match m with NoTx => w.(working) | Tx => w.(committed) end.

Definition vrel (m : Mgr) (R : relation DB) (w w' : World) : Prop :=
  other_view m w' = other_view m w /\ R (view m w) (view m w').

#[export] Instance vrel_preorder m R `{!PreOrder R} : PreOrder (vrel m R).
Proof.
  split.
  - intros w. by split.
  - intros w1 w2 w3 [? ?] [? ?]. split; [congruence|by etrans].
Qed.

Class VPres (m : Mgr) (R : relation DB) {A} (p : Prog A) : Prop := vpres w : vrel m R w (p w).1.

Section VPres.
Context (m : Mgr) (R : relation DB) `{!PreOrder R}.

Lemma vrel_bind {A B} (p : Prog A) (k : A -> Prog B) w :
  vrel m R w (p w).1 ->
  (forall a, (p w).2 = inr a -> vrel m R (p w).1 (k a (p w).1).1) ->
  vrel m R w ((p ≫= k) w).1.
Proof.
  unfold mbind, prog_bind. destruct (p w) as [w' [e|a]]; simpl; intros H1 H2; [done|].
  etrans; [exact H1|]. by apply H2.
Qed.

#[export] Instance vpres_ret {A} (a : A) : VPres m R (mret a).
Proof. intros w. reflexivity. Qed.
#[export] Instance vpres_throw {A} (e : Exn) : VPres m R (throw (A:=A) e).
Proof. intros w. reflexivity. Qed.
#[export] Instance vpres_of_sum {A} (r : Exn + A) : VPres m R (of_sum r).
Proof. intros w. reflexivity. Qed.
#[export] Instance vpres_read {A} m' (f : DB -> A) : VPres m R (read m' f).
Proof. intros w. reflexivity. Qed.
#[export] Instance vpres_now_ms : VPres m R now_ms.
Proof. intros w. reflexivity. Qed.
#[export] Instance vpres_now_us : VPres m R now_us.
Proof. intros w. reflexivity. Qed.
#[export] Instance vpres_gen_uuid : VPres m R gen_uuid.
Proof. intros w. by destruct m; split. Qed.
#[export] Instance vpres_emit_event n t e : VPres m R (emit_event n t e).
Proof. intros w. by destruct m; split. Qed.
#[export] Instance vpres_bind {A B} (p : Prog A) (k : A -> Prog B) :
  VPres m R p -> (forall a, VPres m R (k a)) -> VPres m R (p ≫= k).
Proof. intros Hp Hk w. apply vrel_bind; intros; apply vpres. Qed.
#[export] Instance vpres_catch {A} (p : Prog A) h :
  VPres m R p -> (forall e, VPres m R (h e)) -> VPres m R (catch p h).
Proof.
  intros Hp Hh w. unfold catch. specialize (Hp w). destruct (p w) as [w' [e|a]]; simpl in *; [|done].
  etrans; [exact Hp|apply Hh].
Qed.
#[export] Instance vpres_prog_when b p : VPres m R p -> VPres m R (prog_when b p).
Proof. by destruct b; intros; simpl; apply _. Qed.

Lemma vrel_modify f w : R (view m w) (f (view m w)) -> vrel m R w (modify m f w).1.
Proof. by destruct m; split. Qed.

Lemma vpres_modify f : (forall d, R d (f d)) -> VPres m R (modify m f).
Proof. intros Hf w. by apply vrel_modify. Qed.

(** A program on one view moves both views along a preorder. *)
Lemma vpres_pres {A} (p : Prog A) : VPres m R p -> Pres R p.
Proof.
  intros Hp w. specialize (Hp w). destruct Hp as [Ho Hv].
  destruct m; simpl in *; split; simpl; try done; rewrite Ho; reflexivity.
Qed.
End VPres.

(** ** Inside a transaction *)

Section TxPres.
Context (own : string -> Prop).

Definition InTx (w : World) : Prop :=
  keyed w.(committed) /\ evolves own w.(committed) w.(working).

Class TxPres {A} (p : Prog A) : Prop := txpres w : InTx w -> vrel Tx (Evo own) w (p w).1.

Lemma InTx_working w : InTx w -> keyed w.(working).
Proof. intros [K E]. by eapply evolves_keyed; eauto. Qed.

Lemma InTx_step w w' : InTx w -> vrel Tx (Evo own) w w' -> InTx w'.
Proof.
  intros HI [Ho Hv]. pose proof (InTx_working _ HI) as Kw. destruct HI as [K E]. simpl in *.
  unfold InTx. rewrite Ho. split; [done|]. etrans; [exact E|]. by apply Hv.
Qed.

#[export] Instance txpres_vpres {A} (p : Prog A) : VPres Tx (Evo own) p -> TxPres p | 10.
Proof. intros Hp w _. apply Hp. Qed.

#[export] Instance txpres_bind {A B} (p : Prog A) (k : A -> Prog B) :
  TxPres p -> (forall a, TxPres (k a)) -> TxPres (p ≫= k).
Proof.
  intros Hp Hk w HI. apply vrel_bind; [apply _|by apply Hp|].
  intros a _. apply Hk. eapply InTx_step; eauto.
Qed.

#[export] Instance txpres_prog_when b p : TxPres p -> TxPres (prog_when b p).
Proof. by destruct b; intros; simpl; apply _. Qed.

(** A transaction whose body keeps the contract keeps it, whatever the outcome. *)
Lemma pres_transaction_tx {A} (p : Prog A) : TxPres p -> Pres (Evo own) (transaction p).
Proof.
  intros Hp w. unfold transaction. specialize (Hp (set_dbs w.(committed) w.(committed) w)).
  destruct (p (set_dbs (committed w) (committed w) w)) as [w' [e|a]] eqn:Ep; simpl in *; split;
    simpl; try reflexivity.
  - intros K. destruct Hp as [Ho _]; [by split|]. simpl in Ho. rewrite Ho. reflexivity.
  - intros K. destruct Hp as [_ Hv]; [by split|]. by apply Hv.
Qed.
End TxPres.

(** ** The repositories keep the contract *)

(** An insert under a generated id: the row was not there before. *)
Ltac solve_insert write :=
  let w := fresh "w" in intros w;
  apply vrel_bind; [apply _|apply vpres_gen_uuid; apply _|];
  let i := fresh "i" in intros i _;
  apply vrel_bind; [apply _|reflexivity|]; intros ? _;
  apply vrel_bind; [apply _|reflexivity|]; simpl;
  let b := fresh "b" in intros b [= <-];
  case_bool_decide; [reflexivity|];
  apply vrel_bind; [apply _| |intros; reflexivity];
  apply write; intros _;
  match goal with
  | H : ~ is_Some ?x |- cell_evolves _ _ _ _ _ ?y _ =>
      let E := fresh in assert (y = None) as E by (by apply eq_None_not_Some);
      rewrite E; clear E; simpl; by auto
  end.


Section Repositories.
Context (own : string -> Prop) (m : Mgr).

Abbreviation R := (Evo own).

(** A single row written to one table. *)
Lemma evolves_operation d i o :
  cell_evolves op_row op_id op_tenantId own i (d.(db_operations) !! i) (Some o) ->
  evolves own d (set_operations (<[i := o]> d.(db_operations)) d).
Proof. intros H. repeat split; try reflexivity. by apply table_evolves_insert; [apply _|]. Qed.
Lemma evolves_credential d i c :
  cell_evolves cr_row cr_id cr_tenantId own i (d.(db_credentials) !! i) (Some c) ->
  evolves own d (set_credentials (<[i := c]> d.(db_credentials)) d).
Proof. intros H. repeat split; try reflexivity. by apply table_evolves_insert; [apply _|]. Qed.
Lemma evolves_connection d i c :
  cell_evolves cn_row cn_id cn_tenantId own i (d.(db_connections) !! i) (Some c) ->
  evolves own d (set_connections (<[i := c]> d.(db_connections)) d).
Proof. intros H. repeat split; try reflexivity. by apply table_evolves_insert; [apply _|]. Qed.
Lemma evolves_exchange d i x :
  cell_evolves ex_row ex_id ex_tenantId own i (d.(db_exchanges) !! i) (Some x) ->
  evolves own d (set_exchanges (<[i := x]> d.(db_exchanges)) d).
Proof. intros H. repeat split; try reflexivity. by apply table_evolves_insert; [apply _|]. Qed.

Lemma write_operation_vrel i o w :
  (keyed (view m w) ->
   cell_evolves op_row op_id op_tenantId own i ((view m w).(db_operations) !! i) (Some o)) ->
  vrel m R w (write_operation m i o w).1.
Proof.
  intros H. unfold write_operation, mbind, prog_bind, read. simpl.
  destruct (operation_conflict _ _ _); [reflexivity|].
  apply vrel_modify. intros K. by apply evolves_operation, H.
Qed.
Lemma write_credential_vrel i c w :
  (keyed (view m w) ->
   cell_evolves cr_row cr_id cr_tenantId own i ((view m w).(db_credentials) !! i) (Some c)) ->
  vrel m R w (write_credential m i c w).1.
Proof.
  intros H. unfold write_credential, mbind, prog_bind, read. simpl.
  destruct (existsb _ _); [reflexivity|].
  apply vrel_modify. intros K. by apply evolves_credential, H.
Qed.
Lemma write_connection_vrel i c w :
  (keyed (view m w) ->
   cell_evolves cn_row cn_id cn_tenantId own i ((view m w).(db_connections) !! i) (Some c)) ->
  vrel m R w (write_connection m i c w).1.
Proof.
  intros H. unfold write_connection, mbind, prog_bind, read. simpl.
  destruct (existsb _ _); [reflexivity|].
  apply vrel_modify. intros K. by apply evolves_connection, H.
Qed.
Lemma write_exchange_vrel i x w :
  (keyed (view m w) ->
   cell_evolves ex_row ex_id ex_tenantId own i ((view m w).(db_exchanges) !! i) (Some x)) ->
  vrel m R w (write_exchange m i x w).1.
Proof.
  intros H. unfold write_exchange, mbind, prog_bind, read. simpl.
  destruct (existsb _ _); [reflexivity|].
  apply vrel_modify. intros K. by apply evolves_exchange, H.
Qed.

(** Jobs. *)
Lemma vpres_send j : own (job_tenant j) -> VPres m R (send m j).
Proof.
  intros Hj w. unfold send. destruct (send_fate w (sends w)); [|by destruct m..].
  assert (forall d, evolves own d (add_job j d)) as Hadd.
  { intros d. repeat split; try reflexivity. exists [j]. by rewrite Forall_singleton. }
  destruct m; split; simpl; try done; intros _; apply Hadd.
Qed.
Lemma vpres_dispatch t e r : own t -> VPres m R (dispatch m t e r).
Proof. intros Ht. unfold dispatch. apply vpres_bind; [apply _..|]. intros. by apply vpres_send. Qed.
Lemma vpres_audit_emit t a rt ri : own t -> VPres m R (audit_emit m t a rt ri).
Proof.
  intros Ht. unfold audit_emit. apply vpres_catch; [apply _|by apply vpres_send|].
  intros []; destruct m; apply _.
Qed.
Lemma vpres_logs jobs audit metrics :
  (forall d, jobs_evolve own d.(db_jobs) (jobs d)) ->
  VPres m R (modify m (fun d => set_logs (jobs d) (audit d) (metrics d) d)).
Proof.
  intros Hj. apply vpres_modify. intros d K. repeat split; try reflexivity. apply Hj.
Qed.
#[export] Instance vpres_record_metric t o : VPres m R (record_metric m t o).
Proof. apply (vpres_logs db_jobs). intros. reflexivity. Qed.
#[export] Instance vpres_audit_write x : VPres m R (audit_write m x).
Proof. apply (vpres_logs db_jobs). intros. reflexivity. Qed.

(** Operations. *)
#[export] Instance vpres_date_param x : VPres m R (date_param x).
Proof. unfold date_param. destruct x; apply _. Qed.

Lemma op_row_updatedAt o o' t : op_row o o' -> op_row o (op_set_updatedAt t o').
Proof. done. Qed.

Lemma update_operation_vrel i guard f w :
  (forall o, (view m w).(db_operations) !! i = Some o -> guard o = true ->
     own o.(op_tenantId) /\ op_row o (f o)) ->
  vrel m R w (update_operation m i guard f w).1.
Proof.
  intros H. unfold update_operation. apply vrel_bind; [apply _|reflexivity|]. simpl.
  intros row [= <-]. destruct (db_operations (view m w) !! i) as [o|] eqn:Eo; [|reflexivity].
  destruct (guard o) eqn:Eg; [|reflexivity]. destruct (H o eq_refl Eg) as [Ho Hr].
  apply vrel_bind; [apply _|reflexivity|]. intros now _.
  apply vrel_bind; [apply _| |intros; reflexivity]. apply write_operation_vrel. intros K.
  simpl in *. rewrite Eo. split; [by apply op_row_updatedAt|by right].
Qed.

Lemma vpres_operations_insert mk :
  (forall i now, op_id (mk i now) = i /\ own (op_tenantId (mk i now))) ->
  VPres m R (operations_insert m mk).
Proof.
  intros H. unfold operations_insert. solve_insert write_operation_vrel.
Qed.

Lemma transitionIfForward_vrel i t from patch w :
  own t -> (forall s, s ∈ from -> exists s', patch.(tp_state) = Some s' /\ op_step s s') ->
  vrel m R w (operations_transitionIfForward i t from patch m w).1.
Proof.
  intros Ht Hfrom. unfold operations_transitionIfForward.
  apply vrel_bind; [apply _|apply vpres_date_param|]. intros x _.
  apply update_operation_vrel. intros o Ho [Het Hin]%andb_prop.
  apply String.eqb_eq in Het. apply bool_decide_eq_true in Hin.
  split; [by rewrite Het|]. destruct (Hfrom _ Hin) as (s' & Hs' & Hstep).
  unfold apply_patch. rewrite Hs'. repeat split; repeat case_match; try done;
    simpl; by apply rtc_once.
Qed.

Lemma below_step (st : option OperationState) s :
  s ∈ operationStatesBelow st -> exists s', st = Some s' /\ op_step s s'.
Proof.
  destruct st as [t|]; [|by intros ?%elem_of_nil]. intros H%operationStatesBelow_spec. eauto.
Qed.

Lemma claimBatchSettlement_vrel i t st w :
  own t -> op_terminal st -> vrel m R w (operations_claimBatchSettlement i t st m w).1.
Proof.
  intros Ht Hst. apply update_operation_vrel. intros o Ho [Het Hs]%andb_prop.
  apply String.eqb_eq in Het. apply bool_decide_eq_true in Hs. split; [by rewrite Het|].
  repeat split; try done. simpl. rewrite Hs. apply rtc_once. by destruct Hst as [-> | ->].
Qed.

#[export] Instance vpres_tenants_findById t : VPres m R (tenants_findById t).
Proof. unfold tenants_findById. apply vpres_bind; [apply _..|]. intros []; apply _. Qed.

#[export] Instance vpres_recordTerminalOutcome ty st : VPres m R (recordTerminalOutcome ty st m).
Proof. unfold recordTerminalOutcome. destruct st as [[]|]; apply _. Qed.

(** The guarded transition every component goes through. *)
Lemma transitionStateIfForward_from_vrel i st from result ext w :
  (forall o, (view m w).(db_operations) !! i = Some o -> own o.(op_tenantId)) ->
  (forall s, s ∈ from -> exists s', st = Some s' /\ op_step s s') ->
  vrel m R w (transitionStateIfForward i st from result m ext w).1.
Proof.
  intros Hown Hfrom. unfold transitionStateIfForward, operations_findById.
  apply vrel_bind; [apply _|reflexivity|]. simpl. intros row [= <-].
  destruct (db_operations (view m w) !! i) as [o|] eqn:Eo; [|reflexivity].
  specialize (Hown o eq_refl).
  apply vrel_bind; [apply _|apply vpres_tenants_findById|]. intros tn _.
  apply vrel_bind; [apply _|by apply transitionIfForward_vrel|].
  intros won _. destruct won; [|reflexivity].
  apply vrel_bind; [apply _|reflexivity|]. intros [u|] _; [|reflexivity].
  apply vrel_bind; [apply _|apply vpres_recordTerminalOutcome|]. intros; reflexivity.
Qed.

Lemma transitionStateIfForward_vrel i st result ext w :
  (forall o, (view m w).(db_operations) !! i = Some o -> own o.(op_tenantId)) ->
  vrel m R w (transitionStateIfForward i st (operationStatesBelow st) result m ext w).1.
Proof. intros Hown. apply transitionStateIfForward_from_vrel; [done|apply below_step]. Qed.

Lemma operations_save_vrel o w :
  (keyed (view m w) ->
   exists r, (view m w).(db_operations) !! o.(op_id) = Some r /\ op_row r o /\ own r.(op_tenantId)) ->
  vrel m R w (operations_save m o w).1.
Proof.
  intros H. unfold operations_save. apply vrel_bind; [apply _|reflexivity|]. simpl.
  intros row [= <-]. destruct (db_operations (view m w) !! op_id o) as [r|] eqn:Er.
  - case_decide; [reflexivity|]. apply vrel_bind; [apply _|reflexivity|]. intros now _.
    apply vrel_bind; [apply _| |intros; reflexivity]. apply write_operation_vrel. intros K.
    destruct (H K) as (r' & [= <-] & Hrow & Hown). simpl in *. rewrite Er. split; [done|by right].
  - apply vrel_bind; [apply _| |intros; reflexivity]. apply write_operation_vrel. intros K.
    by destruct (H K) as (r' & ? & _).
Qed.

Lemma tenants_findById_world t w : (tenants_findById t w).1 = w.
Proof. unfold tenants_findById, mbind, prog_bind. simpl. by case_match. Qed.
Lemma date_param_world x w : (date_param x w).1 = w.
Proof. by destruct x. Qed.

(** The row an unguarded transition starts from. *)
Definition transition_source (i : string) (tenantId : option string) (w : World)
    : option Operation :=
  match m with
  | Tx => if truthy_str tenantId
          then match w.(working).(db_operations) !! i with
               | Some o => if String.eqb o.(op_tenantId) (default "" tenantId) then Some o else None
               | None => None
               end
          else w.(committed).(db_operations) !! i
  | NoTx => w.(committed).(db_operations) !! i
  end.

Lemma transitionState_vrel i st result t w :
  (forall o, transition_source i t w = Some o -> keyed (view m w) ->
     exists r, (view m w).(db_operations) !! o.(op_id) = Some r /\
       op_row r (op_set_state st o) /\ own r.(op_tenantId)) ->
  vrel m R w (transitionState i st result m t w).1.
Proof.
  intros H. unfold transitionState.
  apply vrel_bind; [apply _|destruct m; [|destruct (truthy_str t)]; reflexivity|].
  intros row Hrow.
  match goal with |- vrel _ _ ?w1 _ =>
    assert (w1 = w /\ row = transition_source i t w) as [-> ->] end.
  { unfold transition_source. destruct m; [|destruct (truthy_str t)]; simpl in *;
      injection Hrow as <-; by split. }
  destruct (transition_source i t w) as [o|]; [|reflexivity]. specialize (H o eq_refl).
  apply vrel_bind; [apply _|apply vpres_tenants_findById|]. intros tn _.
  rewrite tenants_findById_world. cbv zeta.
  apply vrel_bind; [apply _|apply vpres_date_param|]. intros x _. rewrite date_param_world.
  apply vrel_bind; [apply _| |].
  - apply operations_save_vrel. intros K. specialize (H K). by destruct result.
  - intros saved _. apply vrel_bind; [apply _|apply vpres_recordTerminalOutcome|].
    intros; reflexivity.
Qed.

(** Credentials. *)
Lemma update_credential_vrel i guard f w :
  (forall c now, (view m w).(db_credentials) !! i = Some c -> guard c = true ->
     own c.(cr_tenantId) /\ cr_row c (f now c)) ->
  vrel m R w (update_credential m i guard f w).1.
Proof.
  intros H. unfold update_credential. apply vrel_bind; [apply _|reflexivity|]. simpl.
  intros row [= <-]. destruct (db_credentials (view m w) !! i) as [c|] eqn:Ec; [|reflexivity].
  destruct (guard c) eqn:Eg; [|reflexivity].
  apply vrel_bind; [apply _|reflexivity|]. intros now _.
  destruct (H c now eq_refl Eg) as [Ho Hr].
  apply vrel_bind; [apply _| |intros; reflexivity]. apply write_credential_vrel. intros K.
  simpl in *. rewrite Ec. split; [done|by right].
Qed.

Lemma vpres_credentials_updateStateIfForward i t st ts :
  own t -> VPres m R (credentials_updateStateIfForward i t st (credentialStatesBelow st) ts m).
Proof.
  intros Ht w. apply update_credential_vrel. intros c now Hc [Het Hin]%andb_prop.
  apply String.eqb_eq in Het. apply bool_decide_eq_true, credentialStatesBelow_spec in Hin.
  split; [by rewrite Het|]. repeat split; try done. simpl. by apply rtc_once.
Qed.

Lemma vpres_credentials_setExternalId i t e :
  own t -> VPres m R (credentials_setExternalId i t e m).
Proof.
  intros Ht. unfold credentials_setExternalId. apply vpres_bind; [apply _| |intros; apply _].
  intros w. apply update_credential_vrel. intros c now Hc Het%String.eqb_eq.
  split; [by rewrite Het|]. repeat split; reflexivity.
Qed.

Lemma vpres_credentials_create mk :
  (forall i now, cr_id (mk i now) = i /\ own (cr_tenantId (mk i now))) ->
  VPres m R (credentials_create mk m).
Proof.
  intros H. unfold credentials_create. solve_insert write_credential_vrel.
Qed.

(** Connections. *)
Lemma vpres_connections_create mk :
  (forall i now, cn_id (mk i now) = i /\ own (cn_tenantId (mk i now))) ->
  VPres m R (connections_create mk m).
Proof. intros H. unfold connections_create. solve_insert write_connection_vrel. Qed.

Lemma vpres_connections_updateStateIfForward i t st :
  own t -> VPres m R (connections_updateStateIfForward i t st (connectionStatesBelow st) m).
Proof.
  intros Ht w. unfold connections_updateStateIfForward. destruct st as [s|]; [|reflexivity].
  apply vrel_bind; [apply _|reflexivity|]. simpl.
  intros row [= <-]. destruct (db_connections (view m w) !! i) as [c|] eqn:Ec; [|reflexivity].
  destruct (_ && _) eqn:Eg; [|reflexivity]. apply andb_prop in Eg as [Het Hin].
  apply String.eqb_eq in Het. apply bool_decide_eq_true, connectionStatesBelow_spec in Hin.
  apply vrel_bind; [apply _|reflexivity|]. intros now _.
  apply vrel_bind; [apply _| |intros; reflexivity]. apply write_connection_vrel. intros K.
  simpl in *. rewrite Ec. split; [|by right; rewrite Het].
  repeat split. simpl. by apply rtc_once.
Qed.

(** Exchanges. *)
Lemma vpres_exchanges_create mk :
  (forall i now, ex_id (mk i now) = i /\ own (ex_tenantId (mk i now))) ->
  VPres m R (exchanges_create mk m).
Proof. intros H. unfold exchanges_create. solve_insert write_exchange_vrel. Qed.

Lemma exchanges_save_vrel x w :
  (keyed (view m w) ->
   exists r, (view m w).(db_exchanges) !! x.(ex_id) = Some r /\ ex_row r x /\ own r.(ex_tenantId)) ->
  vrel m R w (exchanges_save x m w).1.
Proof.
  intros H. unfold exchanges_save. apply vrel_bind; [apply _|reflexivity|]. simpl.
  intros row [= <-]. destruct (db_exchanges (view m w) !! ex_id x) as [r|] eqn:Er.
  - case_decide; [reflexivity|]. apply vrel_bind; [apply _|reflexivity|]. intros now _.
    apply vrel_bind; [apply _| |intros; reflexivity]. apply write_exchange_vrel. intros K.
    destruct (H K) as (r' & [= <-] & Hrow & Hown). simpl in *. rewrite Er. split; [done|by right].
  - apply vrel_bind; [apply _| |intros; reflexivity]. apply write_exchange_vrel. intros K.
    by destruct (H K) as (r' & ? & _).
Qed.

Lemma ex_row_advance x x' next t : advance x next = Some (x', t) -> ex_row x x'.
Proof.
  intros (-> & Hstep & _)%advance_step. repeat split; try done. simpl. by apply rtc_once.
Qed.

Lemma ex_row_confirm x x' : ex_row x x' -> ex_row x (confirm_submission x').
Proof. unfold confirm_submission. by case_match. Qed.

Lemma ex_row_observed state x x' : ex_row x x' -> ex_row x (observed state x').1.
Proof.
  intros Hx. unfold observed. destruct (isExchangeState state); [|done].
  destruct (advance x' e) as [[y t]|] eqn:Ea; simpl; apply ex_row_confirm; [|done].
  etrans; [exact Hx|by eapply ex_row_advance].
Qed.

Lemma exchange_lookup_Some t k e i d x :
  exchange_lookup t k e i d = Some x ->
  x.(ex_tenantId) = t /\ exists j, d.(db_exchanges) !! j = Some x.
Proof.
  unfold exchange_lookup, find_exchange. destruct (truthy_str i).
  - intros H. repeat (case_match; simplify_eq). split; [by apply String.eqb_eq|eauto].
  - intros [H Hj]%find_one_Some. apply andb_prop in H as [[H _]%andb_prop _].
    apply String.eqb_eq in H. eauto.
Qed.

Lemma vpres_exchanges_observe t k e st i :
  own t -> VPres m R (exchanges_observe t k e st m i).
Proof.
  intros Ht w. unfold exchanges_observe. cbv zeta. apply vrel_bind; [apply _|reflexivity|]. simpl.
  intros row [= <-]. destruct (exchange_lookup t k e i (view m w)) as [x|] eqn:Ex; [|reflexivity].
  apply exchange_lookup_Some in Ex as [Hxt [j Hj]].
  case_match; [reflexivity|].
  pose proof (ex_row_observed (normalize_state st) x (ex_set_externalId (Some e) x)) as Hrow.
  destruct (observed _ _) as [x' tr]. simpl in Hrow.
  apply vrel_bind; [apply _| |intros; reflexivity]. apply exchanges_save_vrel. intros K.
  destruct Hrow as (Hid & Hrest); [by repeat split; reflexivity|].
  exists x. simpl. rewrite Hid. destruct K as (_ & _ & _ & Kx).
  rewrite (Kx _ _ Hj). by rewrite Hxt.
Qed.

Lemma vpres_exchanges_markFailed t i : own t -> VPres m R (exchanges_markFailed t i m).
Proof.
  intros Ht w. unfold exchanges_markFailed, exchanges_lock.
  apply vrel_bind; [apply _|reflexivity|]. simpl. intros row [= <-]. unfold find_exchange.
  destruct (db_exchanges (view m w) !! i) as [x|] eqn:Ei; [|reflexivity].
  destruct (String.eqb_spec (ex_tenantId x) t) as [Hxt|]; [|reflexivity].
  destruct (advance x ExFailed) as [[x' tr]|] eqn:Ea; [|reflexivity].
  apply ex_row_advance in Ea as Hrow. destruct Hrow as (Hid & Hrest).
  apply vrel_bind; [apply _| |intros; reflexivity]. apply exchanges_save_vrel. intros K.
  destruct K as (_ & _ & _ & Kx). exists x. rewrite Hid, (Kx _ _ Ei), Hxt. done.
Qed.
End Repositories.
