(* ===== verification/TenantUserCorrectness.v ===== *)
(** * Tenant users: nobody is locked out, nobody promotes themselves

    [keeps_staff]: rows stay under their ids, and a tenant that has an owner, an
    active owner or an active administrator still has one.  Every operation of the
    service keeps it except [setPlatformOperator], which saves an entity it read
    earlier ([operator_flag_reverts]).  [admin_safe]: a caller who is not an owner
    leaves the set of owner rows as it is. *)

From Stdlib Require Import ZArith Lia.
From stdpp Require Import base decidable strings sets gmap list list_relations.
From S2P Require Import Prelude Js Entities StateMapping OperationTtl Db Pagination Lifecycle.
From S2P Require Import TenantRepository Auth TenantUserService.

Local Open Scope Z_scope.

(** ** Rows that satisfy a predicate *)

Definition users_keyed (d : DB) : Prop := table_keyed tu_id (users d).

Definition staff : list (TenantUser -> bool) := [has_role OWNER; is_active_owner; is_active_administrator].

Definition staffed (t : string) (P : TenantUser -> bool) (d : DB) : Prop :=
  exists id u, users d !! id = Some u /\ u.(tu_tenantId) = t /\ P u = true.

Definition keeps_staff (d d' : DB) : Prop :=
  users_keyed d -> users_keyed d' /\ forall t P, P ∈ staff -> staffed t P d -> staffed t P d'.

#[export] Instance keeps_staff_preorder : PreOrder keeps_staff.
Proof.
  split; [by intros d|]. intros d1 d2 d3 H1 H2 K. destruct (H1 K) as [K2 S1]. destruct (H2 K2) as [K3 S2].
  split; [done|]. intros t P HP Hs. by apply S2, S1.
Qed.
#[export] Instance keeps_staff_rows : RowsOnly keeps_staff.
Proof. intros d jobs audit metrics K. split; [done|]. by intros t P _ Hs. Qed.

(** Two rows are counted, so one of them is not the given one. *)
Lemma select_other {A} (P : A -> bool) (t : gmap string A) id :
  (1 < count_rows P t)%nat -> exists j r, j <> id /\ t !! j = Some r /\ P r = true.
Proof.
  unfold count_rows, select, rows. intros H.
  assert (exists i j r r', i <> j /\ t !! i = Some r /\ t !! j = Some r' /\ P r = true /\ P r' = true)
    as (i & j & r & r' & Hij & Hi & Hj & HP & HP').
  { assert (NoDup (map_to_list t)) as Hnd by apply NoDup_map_to_list.
    pose proof (fun k x => proj1 (elem_of_map_to_list t k x)) as Hel. revert H Hnd Hel.
    generalize (map_to_list t). intros l. induction l as [|[k x] l IH]; intros H Hnd Hel; [cbn in H; lia|].
    apply NoDup_cons in Hnd as [Hn Hnd]. rewrite fmap_cons, filter_cons in H. case_decide as Hx; simpl in H, Hx.
    - destruct (filter _ l.*2) as [|y ys] eqn:Ef; simpl in H; [lia|].
      assert (y ∈ filter (fun r => P r = true) l.*2) as Hy by (rewrite Ef; left).
      apply list_elem_of_filter in Hy as [HPy Hy].
      apply list_elem_of_fmap in Hy as ([k' y'] & -> & Hy). simpl in HPy.
      exists k, k', x, y'. assert (t !! k = Some x) by (apply Hel; left).
      assert (t !! k' = Some y') by (apply Hel; by right). split_and!; try done.
      intros <-. destruct Hn. assert (x = y') as -> by congruence. done.
    - destruct IH as (i & j & r & r' & ?); [done|done| |by exists i, j, r, r'].
      intros k' x' Hin. apply Hel. by right. }
  destruct (decide (i = id)) as [->|]; [exists j, r'|exists i, r]; done.
Qed.

Lemma count_other t P d id :
  (1 < count_users t P d)%nat ->
  exists j v, j <> id /\ users d !! j = Some v /\ v.(tu_tenantId) = t /\ P v = true.
Proof.
  intros (j & v & ? & ? & [Ht%String.eqb_eq HP]%andb_prop)%(select_other _ _ id). by exists j, v.
Qed.

(** What a write of one row must respect. *)
Definition replaceable (d : DB) (id : string) (u' : option TenantUser) : Prop :=
  forall P u, P ∈ staff -> users d !! id = Some u -> P u = true ->
  (exists v, u' = Some v /\ v.(tu_tenantId) = u.(tu_tenantId) /\ P v = true) \/
  (1 < count_users u.(tu_tenantId) P d)%nat.

Lemma keeps_staff_write d id u :
  u.(tu_id) = id -> replaceable d id (Some u) -> keeps_staff d (set_users (<[id := u]> (users d)) d).
Proof.
  intros Hid Hr K. split.
  - intros i v. rewrite users_set. intros [[<- <-]|[_ Hv]]%lookup_insert_Some; [done|by apply K].
  - intros t P HP (i & v & Hv & Ht & Hp). destruct (decide (i = id)) as [->|Hi].
    + destruct (Hr P v HP Hv Hp) as [(v' & [= <-] & Hvt & Hvp)|Hc].
      * exists id, u. rewrite users_set, lookup_insert_eq. split_and!; congruence.
      * destruct (count_other _ _ _ id Hc) as (j & w & Hj & Hw & Hwt & Hwp). exists j, w.
        rewrite users_set, lookup_insert_ne by done. split_and!; congruence.
    + exists i, v. by rewrite users_set, lookup_insert_ne.
Qed.

Lemma keeps_staff_delete d id :
  replaceable d id None -> keeps_staff d (set_users (delete id (users d)) d).
Proof.
  intros Hr K. split.
  - intros i v. rewrite users_set. intros [_ Hv]%lookup_delete_Some. by apply K.
  - intros t P HP (i & v & Hv & Ht & Hp). destruct (decide (i = id)) as [->|Hi].
    + destruct (Hr P v HP Hv Hp) as [(? & ? & _)|Hc]; [done|].
      destruct (count_other _ _ _ id Hc) as (j & w & Hj & Hw & Hwt & Hwp). exists j, w.
      rewrite users_set, lookup_delete_ne by done. split_and!; congruence.
    + exists i, v. by rewrite users_set, lookup_delete_ne.
Qed.

Lemma write_user_wrel R `{!PreOrder R} m id u w :
  R (view m w) (set_users (<[id := u]> (users (view m w))) (view m w)) -> wrel R w (write_user m id u w).1.
Proof.
  intros H. unfold write_user. apply wrel_bind; [apply _|reflexivity|]. simpl. intros identity [= <-].
  apply wrel_bind; [apply _|reflexivity|]. simpl. intros email [= <-].
  destruct (other_user _ _ _); [reflexivity|]. destruct (other_user _ _ _); [reflexivity|].
  destruct m; split; simpl; done || reflexivity.
Qed.

Lemma users_create_wrel R `{!PreOrder R} m mk w :
  (forall id now d, users d !! id = None -> R d (set_users (<[id := mk id now]> (users d)) d)) ->
  wrel R w (users_create mk m w).1.
Proof.
  intros H. unfold users_create. apply wrel_bind; [apply _|by split|]. intros id _.
  apply wrel_bind; [apply _|by split|]. intros now _.
  apply wrel_bind; [apply _|by split|]. intros taken [= <-]. case_bool_decide as Ht; [reflexivity|].
  apply wrel_bind; [apply _| |intros; reflexivity]. apply write_user_wrel; [done|]. apply H.
  by apply eq_None_not_Some.
Qed.

Lemma users_update_wrel R `{!PreOrder R} m u w :
  (forall now, R (view m w) (set_users (<[u.(tu_id) := tu_set_updatedAt now u]> (users (view m w))) (view m w))) ->
  R (view m w) (set_users (<[u.(tu_id) := u]> (users (view m w))) (view m w)) ->
  wrel R w (users_update u m w).1.
Proof.
  intros H H'. unfold users_update. apply wrel_bind; [apply _|reflexivity|]. simpl. intros row [= <-].
  destruct (users (view m w) !! tu_id u).
  - case_decide; [reflexivity|]. apply wrel_bind; [apply _|reflexivity|]. simpl. intros now _.
    apply wrel_bind; [apply _| |intros; reflexivity]. by apply write_user_wrel.
  - apply wrel_bind; [apply _| |intros; reflexivity]. by apply write_user_wrel.
Qed.

(** A new row, and the claim of an invitation, take nothing from anyone. *)
Lemma keeps_staff_new id d u :
  u.(tu_id) = id -> users d !! id = None -> keeps_staff d (set_users (<[id := u]> (users d)) d).
Proof. intros Hid Hn. apply keeps_staff_write; [done|]. intros P v _ Hv. congruence. Qed.

#[export] Instance keeps_staff_claim id e : Pres keeps_staff (users_claimInvitedById id e).
Proof.
  intros w. unfold users_claimInvitedById. apply wrel_bind; [apply _|reflexivity|]. simpl. intros row [= <-].
  destruct (users (committed w) !! id) as [u|] eqn:Eu; [|reflexivity].
  case_bool_decide as He; [|reflexivity]. case_bool_decide as Hs; [|reflexivity]. simpl.
  apply wrel_bind; [apply _|reflexivity|]. intros now _.
  apply wrel_bind; [apply _| |intros; apply pres_read, _]. apply write_user_wrel; [apply _|].
  intros K. pose proof (K _ _ Eu) as Hid. revert K.
  change (keeps_staff (view NoTx w) (set_users (<[id := tu_claim e now u]> (users (view NoTx w))) (view NoTx w))).
  apply keeps_staff_write; [done|]. intros P v HP Hv Hp. left. eexists. split; [done|]. simpl in Hv.
  assert (v = u) as -> by congruence. split; [done|]. unfold staff in HP.
  rewrite !elem_of_cons, elem_of_nil in HP. unfold is_active_owner, is_active_administrator, is_active_user in *.
  destruct HP as [->|[->|[->|[]]]]; [done|..]; apply andb_prop in Hp as [Hp _]; by rewrite andb_true_r.
Qed.

(** ** The guards of an update and of a removal *)

Lemma count_guard (c : bool) t P e w w' :
  (if c then n ← read Tx (count_users t P); if (n <=? 1)%nat then throw e else mret tt
   else mret (M:=Prog) tt) w = (w', inr tt) ->
  w' = w /\ (c = true -> (1 < count_users t P w.(working))%nat).
Proof.
  destruct c; intros E; [|by injection E]. run_inv E. injection E0 as <- <-. simpl in E.
  destruct (Nat.leb_spec (count_users t P (working w)) 1); [done|]. injection E as <-. by split.
Qed.

Lemma staff_cases (Q : (TenantUser -> bool) -> Prop) :
  Q (has_role OWNER) -> Q is_active_owner -> Q is_active_administrator -> forall P, P ∈ staff -> Q P.
Proof.
  intros ??? P. unfold staff. rewrite !elem_of_cons, elem_of_nil. by intros [->|[->|[->|[]]]].
Qed.

Ltac by_staff :=
  let P := fresh "P" in let HP := fresh "HP" in
  intros P HP; pattern P; revert P HP; apply staff_cases.

Lemma isAdministrator_spec u :
  is_active_administrator u = true <-> is_active_user u = true /\ isAdministrator u.(tu_role) = true.
Proof.
  unfold is_active_administrator, has_role, isAdministrator. rewrite andb_true_iff. tauto.
Qed.

Lemma update_checks_run t dto u caller w w' u' :
  update_checks t dto u caller w = (w', inr tt) -> edited_user dto u = inr u' ->
  w' = w /\
  assertMayManageOwner caller (has_role OWNER u' || has_role OWNER u) = inr tt /\
  forall P, P ∈ staff -> P u = true -> P u' = true \/ (1 < count_users t P w.(working))%nat.
Proof.
  intros E Eu. unfold update_checks in E. cbv zeta in E.
  apply bind_inr in E as (w1 & [] & Hown & E). injection Hown as <- Hown.
  apply bind_inr in E as (w2 & [] & H1%count_guard & E). destruct H1 as [-> H1].
  apply bind_inr in E as (w3 & [] & H2%count_guard & E). destruct H2 as [-> H2].
  unfold assertAnotherAdministratorRemains in E. apply count_guard in E as [-> H3]. split; [done|].
  unfold edited_user in Eu. destruct (default (Some u.(tu_email)) _) as [em|]; [|done].
  destruct (default (Some u.(tu_role)) dto.(uu_role)) as [r|] eqn:Er; [|done].
  destruct (default (Some u.(tu_status)) dto.(uu_status)) as [s|] eqn:Es; [|done].
  injection Eu as <-.
  assert (u.(tu_role) = r \/ dto.(uu_role) = Some (Some r)) as Hr.
  { destruct dto.(uu_role) as [x|]; simpl in Er; [right|left]; congruence. }
  assert (u.(tu_status) = s \/ dto.(uu_status) = Some (Some s)) as Hs.
  { destruct dto.(uu_status) as [x|]; simpl in Es; [right|left]; congruence. }
  split.
  - revert Hown. unfold assertMayManageOwner. destruct caller as [c|]; [|done]. unfold has_role. simpl.
    destruct (bool_decide_reflect (r = OWNER)) as [->|]; simpl;
      [|by destruct (bool_decide (uu_role dto = _)), (bool_decide (tu_role u = _)), (bool_decide (tu_role c = _))].
    destruct Hr as [Hr|Hr]; by rewrite (bool_decide_eq_true_2 _ Hr), ?orb_true_r.
  - clear Hown. by_staff; intros Hp.
    + destruct (decide (r = OWNER)) as [->|Hne]; [by left|right]. apply H1. rewrite Hp.
      unfold has_role in Hp. apply bool_decide_eq_true in Hp.
      destruct Hr as [Hr|Hr]; [congruence|]. rewrite Hr, Hp. rewrite bool_decide_eq_false_2; [done|]. congruence.
    + apply andb_prop in Hp as [Ho Ha]. destruct (decide (r = OWNER /\ s = TU_ACTIVE)) as [[-> ->]|Hne]; [by left|right].
      apply H2. rewrite Ho, Ha. simpl. unfold has_role in Ho. apply bool_decide_eq_true in Ho.
      unfold is_active_user in Ha. apply bool_decide_eq_true in Ha. apply orb_true_iff.
      destruct (decide (r = OWNER)) as [->|Hro].
      * right. destruct Hs as [Hs|Hs]; [naive_solver|]. rewrite Hs, bool_decide_eq_false_2; [done|]. naive_solver.
      * left. destruct Hr as [Hr|Hr]; [congruence|]. rewrite Hr, bool_decide_eq_false_2; [done|]. congruence.
    + apply isAdministrator_spec in Hp as [Ha Hi].
      destruct (decide (isAdministrator r = true /\ s = TU_ACTIVE)) as [[Hir ->]|Hne].
      { left. apply isAdministrator_spec. done. }
      right. apply H3. rewrite Ha, Hi. simpl. unfold is_active_user in Ha. apply bool_decide_eq_true in Ha.
      apply orb_true_iff. destruct (isAdministrator r) eqn:Hir.
      * right. destruct Hs as [Hs|Hs]; [naive_solver|]. rewrite Hs, bool_decide_eq_false_2; [done|]. naive_solver.
      * left. destruct Hr as [Hr|Hr]; [congruence|]. by rewrite Hr, Hir.
Qed.

Lemma delete_checks_run t u caller w w' :
  delete_checks t u caller w = (w', inr tt) ->
  w' = w /\ assertMayManageOwner caller (has_role OWNER u) = inr tt /\
  forall P, P ∈ staff -> P u = true -> (1 < count_users t P w.(working))%nat.
Proof.
  intros E. unfold delete_checks in E. apply bind_inr in E as (w1 & [] & Hown & E). injection Hown as <- Hown.
  apply bind_inr in E as (w2 & [] & H & E).
  assert (w2 = w /\ (has_role OWNER u = true -> (1 < count_users t (has_role OWNER) w.(working))%nat /\
            (is_active_user u = true -> (1 < count_users t is_active_owner w.(working))%nat))) as [-> Hc].
  { destruct (has_role OWNER u); [|by injection H]. run_inv H. injection E0 as <- <-. simpl in H.
    destruct (Nat.leb_spec (count_users t (has_role OWNER) (working w)) 1); [done|].
    apply count_guard in H as [-> H]. done. }
  unfold assertAnotherAdministratorRemains in E. apply count_guard in E as [-> H3].
  split_and!; [done..|]. by_staff; intros Hp.
  - by apply Hc.
  - apply andb_prop in Hp as [Ho Ha]. by apply Hc.
  - apply isAdministrator_spec in Hp as [Ha Hi]. apply H3. by rewrite Ha, Hi.
Qed.

Lemma edited_identity dto u u' :
  edited_user dto u = inr u' -> u'.(tu_id) = u.(tu_id) /\ u'.(tu_tenantId) = u.(tu_tenantId).
Proof. unfold edited_user. intros E. repeat case_match; by simplify_eq. Qed.

Lemma user_of_Some t id d u :
  user_of t id d = Some u -> users d !! id = Some u /\ u.(tu_tenantId) = t.
Proof.
  unfold user_of. destruct (users d !! id) as [v|]; [|done].
  destruct (String.eqb_spec (tu_tenantId v) t); [|done]. by intros [= ->].
Qed.

(** [findCurrentCaller] reads; a caller it returns is an active administrator's row. *)
Lemma findCurrentCaller_run t id target c w w' caller :
  findCurrentCaller t id target c w = (w', inr caller) ->
  w' = w /\ (caller = None <-> c = None) /\
  (forall u x, caller = Some u -> c = Some x ->
     (x.(tu_id) = id /\ u = target) \/ user_of t x.(tu_id) w.(working) = Some u).
Proof.
  unfold findCurrentCaller. destruct c as [x|]; [|intros [= <- <-]; split_and!; [done|done|]; done].
  intros E. run_inv E. destruct (String.eqb_spec (tu_id x) id) as [Hx|Hx].
  - injection E0 as <- <-. destruct (_ && _); [|done]. injection E as <- <-. split_and!; [done..|].
    intros u y [= <-] [= <-]. by left.
  - injection E0 as <- <-. simpl in E. destruct (user_of t (tu_id x) (working w)) as [v|] eqn:Ev; [|done].
    destruct (_ && _); [|done]. injection E as <- <-. split_and!; [done..|].
    intros u y [= <-] [= <-]. by right.
Qed.

(** ** Every operation keeps the staff *)

#[export] Instance pres_findCurrentCaller R `{!PreOrder R} t id u c : Pres R (findCurrentCaller t id u c).
Proof. unfold findCurrentCaller, users_findByTenantAndId. solve_pres. Qed.
#[export] Instance pres_update_checks R `{!PreOrder R} t dto u c : Pres R (update_checks t dto u c).
Proof.
  unfold update_checks, assertAnotherAdministratorRemains, users_countByTenantAndRole,
    users_countActiveOwnersByTenant, users_countActiveAdministratorsByTenant. cbv zeta. solve_pres.
Qed.
#[export] Instance pres_delete_checks R `{!PreOrder R} t u c : Pres R (delete_checks t u c).
Proof.
  unfold delete_checks, assertAnotherAdministratorRemains, users_countByTenantAndRole,
    users_countActiveOwnersByTenant, users_countActiveAdministratorsByTenant. solve_pres.
Qed.

(** The transaction of an update and of a removal: what remains to be shown of the
    write, once the guards have passed. *)
Lemma update_wrel R `{!PreOrder R, !RowsOnly R} t id dto c w :
  (forall w1 u caller u', user_of t id w1.(working) = Some u ->
     findCurrentCaller t id u c w1 = (w1, inr caller) -> update_checks t dto u caller w1 = (w1, inr tt) ->
     edited_user dto u = inr u' -> wrel R w1 (users_update u' Tx w1).1) ->
  wrel R w (user_update t id dto c w).1.
Proof.
  intros H. unfold user_update. apply wrel_bind; [apply _| |intros; apply pres; solve_pres].
  apply wrel_transaction; [done|]. apply wrel_run; [apply _..|]. intros w1 ? [= <- <-].
  apply wrel_run; [apply _..|]. intros w1 row [= <- <-].
  destruct (user_of _ _ _) as [u|] eqn:Eu; [|by apply pres; apply _].
  apply wrel_run; [apply _..|]. intros w2 caller E2. pose proof (findCurrentCaller_run _ _ _ _ _ _ _ E2) as [-> _].
  destruct (edited_user dto u) as [e|u'] eqn:Ee; [apply pres; solve_pres|].
  apply wrel_run; [apply _..|]. intros w3 [] E3. pose proof (update_checks_run _ _ _ _ _ _ _ E3 Ee) as [-> _].
  apply wrel_run; [apply _..|]. intros w4 x [= <- <-]. by eapply H.
Qed.

Lemma delete_wrel R `{!PreOrder R, !RowsOnly R} t id c w :
  (forall w1 u caller, user_of t id w1.(working) = Some u ->
     findCurrentCaller t id u c w1 = (w1, inr caller) -> delete_checks t u caller w1 = (w1, inr tt) ->
     wrel R w1 (users_delete id Tx w1).1) ->
  wrel R w (user_delete t id c w).1.
Proof.
  intros H. unfold user_delete. apply wrel_bind; [apply _| |intros; apply pres; solve_pres].
  apply wrel_transaction; [done|]. apply wrel_run; [apply _..|]. intros w1 ? [= <- <-].
  apply wrel_run; [apply _..|]. intros w1 row [= <- <-].
  destruct (user_of _ _ _) as [u|] eqn:Eu; [|by apply pres; apply _].
  apply wrel_run; [apply _..|]. intros w2 caller E2. pose proof (findCurrentCaller_run _ _ _ _ _ _ _ E2) as [-> _].
  apply wrel_run; [apply _..|]. intros w3 [] E3. pose proof (delete_checks_run _ _ _ _ _ E3) as [-> _].
  apply wrel_bind; [apply _| |intros; apply pres; apply _]. by eapply H.
Qed.

#[export] Instance keeps_staff_update t id dto c : Pres keeps_staff (user_update t id dto c).
Proof.
  intros w. apply update_wrel; [apply _..|]. clear w. intros w u caller u' Eu _ Ec Ee.
  apply user_of_Some in Eu as [Eu Et]. apply edited_identity in Ee as Hi. destruct Hi as [Hi Ht].
  apply update_checks_run with (u':=u') in Ec as (_ & _ & Hc); [|done].
  assert (forall v, v.(tu_id) = u'.(tu_id) -> v.(tu_tenantId) = u'.(tu_tenantId) ->
    v.(tu_role) = u'.(tu_role) -> v.(tu_status) = u'.(tu_status) ->
    keeps_staff (view Tx w) (set_users (<[u'.(tu_id) := v]> (users (view Tx w))) (view Tx w))) as Hw.
  { intros v H1 H2 H3 H4 K. pose proof (K _ _ Eu) as Hid. revert K. apply keeps_staff_write; [done|].
    intros P u0 HP H0 Hp. rewrite Hi, Hid in H0. assert (u0 = u) as -> by (simpl in *; congruence).
    destruct (Hc P HP Hp) as [Hp'|?]; [left|right; by rewrite Et]. exists v. split_and!; [done|congruence|].
    assert (forall P, P ∈ staff -> P u' = true -> P v = true) as Hsame; [|by apply Hsame].
    by_staff; unfold is_active_owner, is_active_administrator, has_role, is_active_user; by rewrite H3, ?H4. }
  apply users_update_wrel; [apply _|..]; intros; by apply Hw.
Qed.

#[export] Instance keeps_staff_remove t id c : Pres keeps_staff (user_delete t id c).
Proof.
  intros w. apply delete_wrel; [apply _..|]. clear w. intros w u caller Eu _ Ec.
  apply user_of_Some in Eu as [Eu Et]. apply delete_checks_run in Ec as (_ & _ & Hc).
  split; simpl; [reflexivity|]. apply keeps_staff_delete. intros P v HP Hv Hp. right.
  assert (v = u) as -> by congruence. rewrite Et. by apply Hc.
Qed.

Lemma keeps_staff_users_create mk m :
  (forall i n, (mk i n).(tu_id) = i) -> Pres keeps_staff (users_create mk m).
Proof. intros H w. apply users_create_wrel; [apply _|]. intros. by apply keeps_staff_new. Qed.
#[local] Hint Extern 1 (Pres keeps_staff (users_create _ _)) =>
  (apply keeps_staff_users_create; reflexivity) : typeclass_instances.

#[export] Instance keeps_staff_invite others t dto c m :
  Pres keeps_staff others -> Pres keeps_staff (user_invite others t dto c m).
Proof.
  intros Ho. unfold user_invite, users_findByTenantAndEmail. solve_pres.
Qed.

#[export] Instance keeps_staff_create others dto :
  Pres keeps_staff others -> Pres keeps_staff (user_create others dto).
Proof.
  intros Ho. unfold user_create, users_findByTenantAndExternalUserId. solve_pres.
Qed.

#[export] Instance keeps_staff_claim_invites others e taken invites :
  Pres keeps_staff others -> Pres keeps_staff (claim_invites others e taken invites).
Proof.
  intros Ho. revert taken. induction invites as [|i rest IH]; intros taken; simpl; solve_pres; apply IH.
Qed.

#[export] Instance keeps_staff_claim_all others email e :
  Pres keeps_staff others -> Pres keeps_staff (user_claimAllInvitedByEmail others email e).
Proof.
  intros Ho. unfold user_claimAllInvitedByEmail, users_findUnclaimedInvitesByEmail,
    users_findByExternalUserId, list_users. solve_pres.
Qed.

#[export] Instance pres_membershipGuard R `{!PreOrder R} auth roles param :
  Pres R (membershipGuard_canActivate auth roles param).
Proof. unfold membershipGuard_canActivate, users_findByTenantAndId. solve_pres. Qed.

(** What a tenant's users and the sign-in can ask for. *)
Inductive MembershipRequest :=
| Route (tenantId : string) (auth : option AuthContext) (q : UserRequest)
| SignUp (dto : CreateTenantUserDto)
| SignIn (email externalUserId : string).

Definition run_membership (others : Prog unit) (q : MembershipRequest) : Prog unit :=
  match q with
  | Route t auth q => user_route others t auth q
  | SignUp dto => _ ← user_create others dto; mret tt
  | SignIn email e => _ ← user_claimAllInvitedByEmail others email e; mret tt
  end.

Lemma keeps_staff_run others q : Pres keeps_staff others -> Pres keeps_staff (run_membership others q).
Proof.
  intros Ho. destruct q as [t auth [dto|id dto|id]| |]; simpl; unfold user_route, run_user_request; solve_pres.
Qed.

(** C22: a tenant is never left without someone to manage it.  Whatever a request on
    its users does and however it ends (invitations, updates and removals behind the
    membership guard, sign-up and sign-in, with requests that keep the same contract
    in between), a tenant that had an owner, an active owner or an active
    administrator still has one; rows stay under their ids. *)
Theorem membership_keeps_staff others q w t P :
  Pres keeps_staff others -> users_keyed w.(committed) ->
  let d' := (run_membership others q w).1.(committed) in
  users_keyed d' /\ (P ∈ staff -> staffed t P w.(committed) -> staffed t P d').
Proof.
  intros Ho K. destruct (keeps_staff_run others q Ho w) as [H _]. destruct (H K) as [K' Hs].
  split; [done|]. intros HP. by apply Hs.
Qed.

(** ** Only owners manage owners *)

Definition owner_row (id : string) (u : TenantUser) (d : DB) : Prop :=
  users d !! id = Some u /\ has_role OWNER u = true.

(** While [me] is not an owner's row, the owners are the same rows. *)
Definition admin_safe (me : string) (d d' : DB) : Prop :=
  users_keyed d -> (forall u, ~ owner_row me u d) ->
  users_keyed d' /\ (forall id u, owner_row id u d' <-> owner_row id u d).

#[export] Instance admin_safe_preorder me : PreOrder (admin_safe me).
Proof.
  split; [by intros d|]. intros d1 d2 d3 H1 H2 K N. destruct (H1 K N) as [K2 E1].
  destruct (H2 K2) as [K3 E2]; [intros u; rewrite E1; apply N|]. split; [done|].
  intros id u. by rewrite E2, E1.
Qed.
#[export] Instance admin_safe_rows me : RowsOnly (admin_safe me).
Proof. by intros d jobs audit metrics. Qed.

(** Writing a row that neither was nor becomes an owner's. *)
Lemma admin_safe_write me d id u :
  u.(tu_id) = id -> has_role OWNER u = false -> (forall v, ~ owner_row id v d) ->
  admin_safe me d (set_users (<[id := u]> (users d)) d).
Proof.
  intros Hid Hr Hn K N. split.
  - intros i v. rewrite users_set. intros [[<- <-]|[_ Hv]]%lookup_insert_Some; [done|by apply K].
  - intros i v. unfold owner_row. rewrite users_set, lookup_insert_Some. split.
    + intros [[[<- <-]|[Hi Hv]] Ho]; [congruence|done].
    + intros [Hv Ho]. split; [|done]. right. split; [|done]. intros <-. by apply (Hn v).
Qed.

Lemma admin_safe_delete me d id :
  (forall v, ~ owner_row id v d) -> admin_safe me d (set_users (delete id (users d)) d).
Proof.
  intros Hn K N. split.
  - intros i v. rewrite users_set. intros [_ Hv]%lookup_delete_Some. by apply K.
  - intros i v. unfold owner_row. rewrite users_set, lookup_delete_Some. split; [tauto|].
    intros [Hv Ho]. split_and!; [|done..]. intros <-. by apply (Hn v).
Qed.

Lemma assertMayManageOwner_inr c b :
  assertMayManageOwner (Some c) b = inr tt -> has_role OWNER c = false -> b = false.
Proof. unfold assertMayManageOwner. intros H Hc. rewrite Hc in H. by destruct b. Qed.

(** The caller the transaction reads again is no owner either. *)
Lemma current_caller_role t id target c w caller :
  findCurrentCaller t id target (Some c) w = (w, inr caller) ->
  users w.(working) !! id = Some target -> (forall u, ~ owner_row c.(tu_id) u w.(working)) ->
  exists u, caller = Some u /\ has_role OWNER u = false.
Proof.
  intros E Ht N. apply findCurrentCaller_run in E as (_ & Hn & Hc).
  destruct caller as [u|]; [|by destruct Hn as [Hn _]; specialize (Hn eq_refl)]. exists u. split; [done|].
  apply not_true_is_false. intros Ho. apply (N u). split; [|done].
  destruct (Hc u c eq_refl eq_refl) as [[-> ->]|[Hu _]%user_of_Some]; done.
Qed.

Lemma admin_safe_request others t c q :
  has_role OWNER c = false -> Pres (admin_safe c.(tu_id)) others ->
  Pres (admin_safe c.(tu_id)) (run_user_request others t (Some c) q).
Proof.
  intros Hr Ho. destruct q as [dto|id dto|id]; simpl.
  - unfold user_invite, users_findByTenantAndEmail. intros w.
    apply wrel_bind; [apply _| |intros; apply pres; apply _].
    apply wrel_run; [apply _..|]. intros w1 [] [= <- E]. revert w. apply @pres.
    assert (bool_decide (iu_role dto = OWNER) = false) as Hd by (by eapply assertMayManageOwner_inr).
    apply pres_bind; [apply _..|]. intros [existing|]; [apply _|].
    apply pres_bind; [apply _..|]. intros _. apply pres_bind; [apply _| |intros; solve_pres].
    intros w. apply users_create_wrel; [apply _|]. intros i now d Hn.
    apply admin_safe_write; [done|done|]. intros v [Hv _]. congruence.
  - apply pres_bind; [apply _| |intros; apply _]. intros w.
    apply update_wrel; [apply _..|]. clear w. intros w u caller u' Eu Ec Eg Ee.
    apply user_of_Some in Eu as [Eu Et]. apply edited_identity in Ee as Hi. destruct Hi as [Hi Ht].
    apply update_checks_run with (u':=u') in Eg as (_ & Hm & _); [|done].
    assert (forall v, v.(tu_id) = u'.(tu_id) -> v.(tu_role) = u'.(tu_role) ->
      admin_safe c.(tu_id) (view Tx w) (set_users (<[u'.(tu_id) := v]> (users (view Tx w))) (view Tx w))) as Hw.
    { intros v Hv1 Hv2 K N. pose proof (K _ _ Eu) as Hid.
      destruct (current_caller_role _ _ _ _ _ _ Ec Eu N) as (x & -> & Hx).
      apply assertMayManageOwner_inr in Hm as [Hm1 Hm2]%orb_false_iff; [|done].
      apply (admin_safe_write c.(tu_id)); [done| | |done|done].
      - unfold has_role in *. by rewrite Hv2.
      - intros y [Hy Hyo]. rewrite Hi, Hid in Hy. simpl in Hy. congruence. }
    apply users_update_wrel; [apply _|..]; intros; by apply Hw.
  - intros w. apply delete_wrel; [apply _..|]. clear w. intros w u caller Eu Ec Eg.
    apply user_of_Some in Eu as [Eu Et]. apply delete_checks_run in Eg as (_ & Hm & _).
    split; simpl; [reflexivity|]. intros K N.
    destruct (current_caller_role _ _ _ _ _ _ Ec Eu N) as (x & -> & Hx).
    apply assertMayManageOwner_inr in Hm; [|done]. apply (admin_safe_delete c.(tu_id)); [|done|done].
    intros y [Hy Hyo]. congruence.
Qed.

(** The guard answers with the caller's own row of the route's tenant. *)
Lemma membershipGuard_run a t w w' c :
  role_isPlatformAdmin a.(au_roles) = false -> resolveRouteTenantId (Some t) = Some t ->
  membershipGuard_canActivate (Some a) [OWNER; ADMIN] (Some t) w = (w', inr c) ->
  w' = w /\ exists u, c = Some u /\ users w.(committed) !! a.(au_sub) = Some u /\ u.(tu_tenantId) = t /\
    is_active_administrator u = true.
Proof.
  unfold membershipGuard_canActivate. intros -> -> E. destruct (au_tokenType a); [|done].
  run_inv E. injection E0 as <- <-. simpl in E. destruct (user_of t (au_sub a) (committed w)) as [u|] eqn:Eu; [|done].
  destruct (is_active_user u) eqn:Ea; [|done]. simpl in E. case_bool_decide as Hr; [|done]. injection E as <- <-.
  apply user_of_Some in Eu as [Eu Et]. split; [done|]. exists u. split_and!; [done..|].
  apply isAdministrator_spec. split; [done|]. unfold isAdministrator.
  rewrite !elem_of_cons, elem_of_nil in Hr. destruct Hr as [->|[->|[]]]; done.
Qed.

(** Only owners manage owners.  A tenant user who is not an owner, whatever
    administrator role they hold, can invite, change and remove users through the API
    without any owner appearing, changing or disappearing: the owner rows after the
    request are the owner rows before it, on every path, as long as requests in
    between do not make the caller an owner or touch the owners themselves. *)
Theorem only_owners_manage_owners others t a q w id u :
  role_isPlatformAdmin a.(au_roles) = false -> resolveRouteTenantId (Some t) = Some t ->
  Pres (admin_safe a.(au_sub)) others ->
  users_keyed w.(committed) -> (forall u, ~ owner_row a.(au_sub) u w.(committed)) ->
  owner_row id u (user_route others t (Some a) q w).1.(committed) <-> owner_row id u w.(committed).
Proof.
  intros Hp Ht Ho K N.
  enough (admin_safe a.(au_sub) w.(committed) (user_route others t (Some a) q w).1.(committed)) as H
    by (by apply H).
  unfold user_route. unfold mbind at 1, prog_bind at 1.
  destruct (membershipGuard_canActivate _ _ _ w) as [w1 [e|c]] eqn:Eg.
  { pose proof (pres (R:=admin_safe a.(au_sub)) (m:=membershipGuard_canActivate (Some a) [OWNER; ADMIN] (Some t)) w)
      as [H _]. by rewrite Eg in H. }
  apply membershipGuard_run in Eg as (-> & x & -> & Hx & _); [|done..].
  assert (has_role OWNER x = false) as Hr.
  { apply not_true_is_false. intros Hr. by apply (N x). }
  rewrite <-(K _ _ Hx) in *.
  assert (Pres (admin_safe x.(tu_id)) (_ ← others; run_user_request others t (Some x) q)) as HP.
  { apply pres_bind; [apply _|done|]. intros _. by apply admin_safe_request. }
  apply HP.
Qed.

(** ** Concrete requests *)

Definition sample_user (id : string) (role : TenantUserRole) : TenantUser :=
  mkTenantUser id "t" (Some id) (id +:+ "@x") None role TU_ACTIVE false 0 0.

Definition team_db : DB :=
  set_users {[ "o" := sample_user "o" OWNER; "a" := sample_user "a" ADMIN; "m" := sample_user "m" MEMBER ]}
    (set_tenants {[ "t" := sample_tenant "t" None ]} empty_db).

Definition as_user (id : string) : option AuthContext := Some (mkAuth id user_token (Some "t") [] ["users:manage"]).

Lemma team_keyed : users_keyed team_db.
Proof. apply map_Forall_to_list. vm_compute. repeat constructor. Qed.

(** The administrator removes a member; the owner stays. *)
Lemma membership_keeps_staff_witness :
  let d' := (run_membership (mret tt) (Route "t" (as_user "a") (Remove "m")) (world_of team_db 0)).1.(committed) in
  users d' !! "m" = None /\ users_keyed d' /\
  (has_role OWNER ∈ staff -> staffed "t" (has_role OWNER) team_db -> staffed "t" (has_role OWNER) d').
Proof.
  intros d'. split; [vm_compute; reflexivity|].
  apply (membership_keeps_staff (mret tt) (Route "t" (as_user "a") (Remove "m")) (world_of team_db 0)).
  - apply _.
  - exact team_keyed.
Defined.

(** The administrator's attempt to become an owner changes nothing. *)
Lemma only_owners_manage_owners_witness :
  let q := Update "a" (mkUpdateUser None None (Some (Some OWNER)) None) in
  let w' := (user_route (mret tt) "t" (as_user "a") q (world_of team_db 0)).1 in
  owner_row "o" (sample_user "o" OWNER) w'.(committed) <-> owner_row "o" (sample_user "o" OWNER) team_db.
Proof.
  intros q w'.
  apply (only_owners_manage_owners (mret tt) "t" (mkAuth "a" user_token (Some "t") [] ["users:manage"]) q
           (world_of team_db 0) "o" (sample_user "o" OWNER)).
  - reflexivity.
  - reflexivity.
  - apply _.
  - exact team_keyed.
  - intros u [Hu Ho]. vm_compute in Hu. injection Hu as <-. vm_compute in Ho. discriminate.
Defined.

(** [setPlatformOperator] saves the entity it read: promoting the administrator and
    letting the owner step down while the flag is being set leaves the tenant with
    no owner at all, although each request keeps the staff. *)
Definition hand_over : Prog unit :=
  _ ← run_membership (mret tt) (Route "t" (as_user "o") (Update "a" (mkUpdateUser None None (Some (Some OWNER)) None)));
  run_membership (mret tt) (Route "t" (as_user "o") (Update "o" (mkUpdateUser None None (Some (Some MEMBER)) None))).

Lemma operator_flag_reverts :
  Pres keeps_staff hand_over /\ staffed "t" (has_role OWNER) team_db /\
  ~ staffed "t" (has_role OWNER) (user_setPlatformOperator hand_over "a" true (world_of team_db 0)).1.(committed).
Proof.
  split_and!.
  - unfold hand_over. apply pres_bind; [apply _|..]; intros; apply keeps_staff_run, _.
  - exists "o", (sample_user "o" OWNER). split_and!; vm_compute; reflexivity.
  - intros (id & u & Hu & _ & Ho).
    set (t := users _) in Hu. assert (map_Forall (fun _ u => has_role OWNER u = false) t) as H.
    { apply (bool_decide_unpack _). vm_compute. exact I. }
    apply H in Hu. congruence.
Qed.
