(* ===== verification/OAuthClientCorrectness.v ===== *)
(** * OAuth clients: what a caller can reach

    Through the client routes a caller who is not a platform administrator changes
    only clients of the route's tenant that are not reserved, hands out only scopes
    they hold, and neither gives nor takes platform roles; a client with roles stays
    restricted to the [client_credentials] grant.  A secret that was handed out
    verifies. *)

From Stdlib Require Import Ascii ZArith Lia.
From stdpp Require Import base decidable strings sets gmap list list_relations sorting.
From S2P Require Import Prelude Js OperationTtl JsText Entities StateMapping Db Auth TenantRepository.
From S2P Require Import TenantService OAuthClient Lifecycle.

Local Open Scope Z_scope.

(** A relation that already holds from an earlier world is carried along. *)
Lemma wrel_seq (R : relation DB) `{!PreOrder R} {A B} (m : Prog A) (k : A -> Prog B) w0 w :
  wrel R w0 w -> Pres R m ->
  (forall w1 a, m w = (w1, inr a) -> wrel R w0 w1 -> wrel R w0 (k a w1).1) ->
  wrel R w0 ((m ≫= k) w).1.
Proof.
  intros H0 Hm Hk. pose proof (Hm w) as H1. unfold mbind, prog_bind.
  destruct (m w) as [w1 [e|a]] eqn:Em; simpl in *; [by etrans|]. apply Hk; [done|by etrans].
Qed.

(** ** Scopes *)

Section Routes.
Context (env : ClientEnv) (caller : AuthContext) (tenantId : string).
Context (Hadmin : role_isPlatformAdmin caller.(au_roles) = false).

(** The caller may hand out the scope. *)
Definition grantable (s : string) : Prop :=
  s ∈ ASSIGNABLE_OAUTH_CLIENT_SCOPES /\ s ∈ env.(cl_scopes) /\ s ∈ expandEffectiveScopes caller.(au_scopes).

Lemma partition_denied allowed actor admin scopes :
  (partitionRequestedScopes allowed actor admin scopes).2 = [] ->
  forall s, s ∈ scopes -> s ∈ allowed /\ (admin = true \/ s ∈ actor).
Proof.
  induction scopes as [|x scopes IH]; intros E s Hs; [by apply elem_of_nil in Hs|].
  simpl in E. destruct (partitionRequestedScopes _ _ _ scopes) as [g d] eqn:Ep.
  destruct (mem_str x allowed && (admin || mem_str x actor)) eqn:Eb; [|done].
  apply elem_of_cons in Hs as [->|Hs]; [|by apply IH].
  apply andb_true_iff in Eb as [H1 H2%orb_true_iff]. rewrite !mem_str_spec in *. done.
Qed.

Lemma assignable_grantable scopes : assertAssignableScopes env scopes caller = inr tt ->
  forall s, s ∈ scopes -> grantable s.
Proof.
  unfold assertAssignableScopes. intros E s Hs. destruct (_ =? _)%nat; [done|].
  destruct ((partitionRequestedScopes _ _ _ _).2) eqn:Ep; [|repeat case_match; done].
  rewrite Hadmin in Ep. destruct (partition_denied _ _ _ _ Ep s Hs) as [[Hc Ha]%list_elem_of_filter [|Hx]]; [done|].
  split_and!; [done|by apply mem_str_spec|done].
Qed.

(** ** The relation *)

(** Roles go with machine clients alone. *)
Definition machine_ok (c : OAuthClient) : Prop := c.(oc_roles) = [] \/ isMachineOnly c.(oc_grantTypes) = true.

(** What the caller may make of a client. *)
Definition managed (c c' : OAuthClient) : Prop :=
  c.(oc_tenantId) = tenantId /\ c'.(oc_tenantId) = tenantId /\ c'.(oc_clientId) = c.(oc_clientId) /\
  ~ (c.(oc_clientId) ∈ RESERVED_OAUTH_CLIENT_IDS) /\
  hasPlatformRole c'.(oc_roles) = hasPlatformRole c.(oc_roles) /\
  (forall s, s ∈ c'.(oc_scopes) -> s ∈ c.(oc_scopes) \/ grantable s) /\
  (machine_ok c -> machine_ok c').

Definition registered (c : OAuthClient) : Prop :=
  c.(oc_tenantId) = tenantId /\ hasPlatformRole c.(oc_roles) = false /\
  (forall s, s ∈ c.(oc_scopes) -> grantable s) /\ machine_ok c.

Record bounded (d d' : DB) : Prop := {
  bd_keyed : table_keyed oc_id (clients d) -> table_keyed oc_id (clients d');
  bd_kept : forall i, is_Some (clients d !! i) -> is_Some (clients d' !! i);
  bd_row : forall i c', clients d' !! i = Some c' ->
    match clients d !! i with
    | Some c => c' = c \/ managed c c'
    | None => registered c'
    end
}.

Lemma managed_trans c1 c2 c3 : managed c1 c2 -> managed c2 c3 -> managed c1 c3.
Proof.
  intros (T1 & T2 & I & N & P & S & M) (_ & T3 & I' & _ & P' & S' & M').
  unfold managed. rewrite I', P'. split_and!; auto. intros s Hs. destruct (S' s Hs); auto.
Qed.

Lemma registered_managed c c' : registered c -> managed c c' -> registered c'.
Proof.
  intros (T & P & S & M) (_ & T' & _ & _ & P' & S' & M'). split_and!; auto; [by rewrite P'|].
  intros s Hs. destruct (S' s Hs); auto.
Qed.

#[local] Instance bounded_preorder : PreOrder bounded.
Proof.
  split.
  - intros d. split; [done..|]. intros i c ->. by left.
  - intros d1 d2 d3 [I1 K1 R1] [I2 K2 R2]. split; [auto..|]. intros i c3 H3. specialize (R2 i c3 H3).
    destruct (clients d2 !! i) as [c2|] eqn:E2.
    + specialize (R1 i c2 E2). destruct (clients d1 !! i) as [c1|], R2 as [->|M2]; auto.
      * destruct R1 as [->|M1]; right; [done|by eapply managed_trans].
      * by eapply registered_managed.
    + destruct (clients d1 !! i) eqn:E1; [|done].
      destruct (K1 i) as [? ?]; [by rewrite E1|congruence].
Qed.
#[local] Instance bounded_rows : RowsOnly bounded.
Proof.
  intros d jobs audit metrics. split; [done..|]. intros i c H.
  change (clients d !! i = Some c) in H. rewrite H. by left.
Qed.

(** ** Writes *)

Lemma bounded_insert d d1 i c' :
  bounded d d1 -> c'.(oc_id) = i ->
  match clients d !! i with
  | Some c => c' = c \/ managed c c'
  | None => clients d1 !! i = None /\ registered c'
  end ->
  bounded d (set_clients (<[i := c']> (clients d1)) d1).
Proof.
  intros [I K R] Hi Hc. split; unfold clients in *; simpl.
  - intros Hd j r [[<- <-]|[_ Hr]]%lookup_insert_Some; [done|by apply I].
  - intros j Hj. rewrite lookup_insert_is_Some'. auto.
  - intros j r [[<- <-]|[_ Hr]]%lookup_insert_Some; [|by apply R].
    destruct (ad_clients (db_admin d) !! i); [done|by apply Hc].
Qed.

Lemma write_client_wrel w0 w i c' :
  wrel bounded w0 w -> c'.(oc_id) = i ->
  match clients w0.(committed) !! i with
  | Some c => c' = c \/ managed c c'
  | None => clients w.(committed) !! i = None /\ registered c'
  end ->
  wrel bounded w0 (write_client i c' w).1.
Proof.
  intros H0 Hi Hc. unfold write_client. apply wrel_seq; [apply _|done|apply _|].
  intros w1 taken [= <- <-] _. destruct (client_check c'); [done|]. destruct (clientId_taken _ _ _); [done|].
  destruct H0 as [Hd Hw]. split; simpl; [|done]. by apply bounded_insert.
Qed.

Lemma update_clients_wrel w0 w P f :
  wrel bounded w0 w -> (forall c, (f c).(oc_id) = c.(oc_id)) ->
  (forall i c, clients w.(committed) !! i = Some c -> P c = true ->
     match clients w0.(committed) !! i with Some c0 => f c = c0 \/ managed c0 (f c) | None => registered (f c) end) ->
  wrel bounded w0 (update_clients P f w).1.
Proof.
  intros [[I K R] Hw] Hf Hc. split; [|done]. unfold update_clients. simpl. split; unfold clients in *; simpl.
  - intros Hd i r Hr. apply lookup_fmap_Some in Hr as (c & <- & Hr). destruct (P c); [rewrite Hf|]; by apply I.
  - intros i Hi. rewrite lookup_fmap, fmap_is_Some. auto.
  - intros i r Hr. apply lookup_fmap_Some in Hr as (c & <- & Hr).
    destruct (P c) eqn:EP; [by apply Hc|by apply R].
Qed.

(** ** The requests *)

Lemma requireTenantClient_run clientId active w w' c :
  requireTenantClient tenantId clientId active w = (w', inr c) ->
  w' = w /\ c.(oc_tenantId) = tenantId /\ exists i, clients w.(committed) !! i = Some c.
Proof.
  unfold requireTenantClient, clients_findByTenantAndClientId, client_where. intros E. run_inv E.
  injection E0 as <- <-. simpl in E. destruct (find_one _ _) as [x|] eqn:Ef; [|done].
  destruct (_ && _); [done|]. injection E as <- <-.
  apply find_one_Some in Ef as [[Ht _]%andb_true_iff [i Hi]]. apply String.eqb_eq in Ht. eauto.
Qed.

Lemma assertNotReserved_run c : assertNotReserved c = inr tt -> c.(oc_clientId) ∉ RESERVED_OAUTH_CLIENT_IDS.
Proof.
  unfold assertNotReserved. destruct (mem_str _ _) eqn:E; [done|]. intros _ H%mem_str_spec. congruence.
Qed.

Lemma managed_same c c' :
  c.(oc_tenantId) = tenantId -> c.(oc_clientId) ∉ RESERVED_OAUTH_CLIENT_IDS ->
  c'.(oc_tenantId) = c.(oc_tenantId) -> c'.(oc_clientId) = c.(oc_clientId) -> c'.(oc_roles) = c.(oc_roles) ->
  c'.(oc_scopes) = c.(oc_scopes) -> c'.(oc_grantTypes) = c.(oc_grantTypes) -> managed c c'.
Proof.
  intros T N T' I P S G. unfold managed, machine_ok. rewrite T', P, S, G. split_and!; auto.
Qed.

Lemma role_constraints_run roles grantTypes check previous :
  assertRoleConstraints roles grantTypes caller check previous = inr tt ->
  (roles = [] \/ isMachineOnly grantTypes = true) /\
  (check = true -> hasPlatformRole roles = hasPlatformRole previous).
Proof.
  unfold assertRoleConstraints. destruct (filter _ roles); [|done]. rewrite Hadmin. simpl.
  rewrite andb_true_r. destruct (check && _) eqn:Ec; [done|]. intros E. split.
  - destruct roles; [by left|]. simpl in E. destruct (isMachineOnly _); [by right|done].
  - intros ->. apply negb_false_iff, eqb_prop in Ec. done.
Qed.

Lemma managed_edit dto c :
  c.(oc_tenantId) = tenantId -> c.(oc_clientId) ∉ RESERVED_OAUTH_CLIENT_IDS ->
  assertRoleConstraints (default c.(oc_roles) dto.(ud_roles)) (default c.(oc_grantTypes) dto.(ud_grantTypes))
    caller (bool_decide (is_Some dto.(ud_roles))) c.(oc_roles) = inr tt ->
  (forall l, dto.(ud_scopes) = Some l -> assertAssignableScopes env l caller = inr tt) ->
  managed c (client_edit dto c).
Proof.
  intros T N [HM HP]%role_constraints_run HS. unfold managed, client_edit, machine_ok. simpl. split_and!; auto.
  - destruct (ud_roles dto); [|done]. by apply HP.
  - intros s Hs. destruct (ud_scopes dto) as [l|]; [right|by left]. by eapply assignable_grantable; eauto.
Qed.

Lemma wrel_then {A B} (m : Prog A) (f : A -> B) w0 w :
  wrel bounded w0 (m w).1 -> wrel bounded w0 ((a ← m; mret (f a)) w).1.
Proof. unfold mbind, prog_bind. by destruct (m w) as [w1 [e|a]]. Qed.

(** Saving an entity that was read from a row of the table at the start. *)
Lemma save_wrel w0 w i c c' :
  wrel bounded w0 w -> table_keyed oc_id (clients w0.(committed)) -> clients w0.(committed) !! i = Some c ->
  c'.(oc_id) = c.(oc_id) -> managed c c' -> wrel bounded w0 (clients_update c' w).1.
Proof.
  intros H0 K Hc Hi Hm. apply wrel_then, write_client_wrel; [done..|].
  rewrite Hi, (K _ _ Hc), Hc. by right.
Qed.

Section Requests.
Context (others : Prog unit) `{!Pres bounded others}.

(** What every request on one client does first. *)
Lemma with_client {B} clientId active (k : OAuthClient -> Prog B) w :
  (forall i c, clients w.(committed) !! i = Some c -> c.(oc_tenantId) = tenantId ->
     c.(oc_clientId) ∉ RESERVED_OAUTH_CLIENT_IDS -> wrel bounded w (k c w).1) ->
  wrel bounded w ((client ← requireTenantClient tenantId clientId active;
                   _ ← of_sum (assertNotReserved client); k client) w).1.
Proof.
  intros Hk. apply wrel_run; [apply _|unfold requireTenantClient, clients_findByTenantAndClientId, client_where;
    solve_pres|]. intros w1 c (-> & Ht & i & Hi)%requireTenantClient_run.
  apply wrel_run; [apply _..|]. intros w2 [] [= <- Hn%assertNotReserved_run]. by eapply Hk.
Qed.

Lemma create_bounded dto w :
  table_keyed oc_id (clients w.(committed)) ->
  wrel bounded w (client_create env others tenantId dto (Some caller) w).1.
Proof.
  intros K. unfold client_create. apply wrel_run; [apply _..|]. intros w1 a [= <- <-].
  apply wrel_run; [apply _..|]. intros w1 [] [= <- _].
  apply wrel_run; [apply _..|]. intros w1 [] [= <- [HM HP]%role_constraints_run].
  apply wrel_run; [apply _..|]. intros w1 [] [= <- HS].
  apply wrel_run; [apply _|unfold random_hex; apply _|]. intros w2 secret _.
  apply wrel_run; [apply _|unfold generateClientId, random_hex; solve_pres|]. intros w3 clientId _.
  apply wrel_run; [apply _|unfold clients_findByClientId, client_where; apply _|]. intros w4 [x|] _; [reflexivity|].
  apply wrel_run; [apply _|unfold hashClientSecret; apply _|]. intros w5 h _.
  apply wrel_run; [apply _..|]. intros w6 [] _. apply wrel_then.
  apply wrel_catch; [apply _| |intros; destruct (violates _ _); reflexivity]. unfold clients_create.
  apply wrel_run; [apply _..|]. intros w7 i _. apply wrel_run; [apply _..|]. intros w8 now _.
  apply wrel_run; [apply _..|]. intros w9 taken [= <- <-]. destruct (bool_decide (is_Some (clients _ !! i))) eqn:Ht; [reflexivity|].
  apply wrel_then, write_client_wrel; [reflexivity|done|]. simpl.
  apply bool_decide_eq_false, eq_None_not_Some in Ht. rewrite Ht. split; [done|]. unfold registered. simpl. split_and!; [done| | |done].
  - destruct (cd_roles dto); [by rewrite HP|done].
  - by apply assignable_grantable.
Qed.

Lemma request_bounded q w :
  table_keyed oc_id (clients w.(committed)) ->
  wrel bounded w (run_client_request env others tenantId (Some caller) q w).1.
Proof.
  intros K. destruct q as [dto| |clientId dto|clientId|clientId|clientId]; simpl; try apply wrel_then.
  - by apply create_bounded.
  - reflexivity.
  - unfold client_update. apply wrel_run; [apply _..|]. intros w1 a [= <- <-].
    apply wrel_run; [apply _..|]. intros w1 [] [= <- _]. apply with_client. intros i c Hc Ht Hn.
    apply wrel_run; [apply _..|]. intros w1 [] [= <- Hr]. apply wrel_run; [apply _..|]. intros w1 [] [= <- Hs].
    apply wrel_seq; [apply _|reflexivity|done|]. intros w1 [] _ H1. eapply save_wrel; [done..|].
    apply managed_edit; [done..|]. intros l Hl. by rewrite Hl in Hs.
  - unfold client_revoke. apply with_client. intros i c Hc Ht Hn. destruct (is_revoked c); [reflexivity|].
    apply wrel_seq; [apply _|reflexivity|done|]. intros w1 [] _ H1. unfold clients_revoke.
    apply wrel_seq; [apply _|done|apply _|]. intros w2 now [= <- <-] _. apply wrel_then, update_clients_wrel; [done..|].
    intros j x Hx Hj%String.eqb_eq. destruct H1 as [[I _ R] _].
    rewrite (I K _ _ Hx), (K _ _ Hc) in Hj. subst j. specialize (R _ _ Hx). rewrite Hc in R |- *. right.
    destruct R as [->|Hm]; [by apply managed_same|]. eapply managed_trans; [exact Hm|].
    destruct Hm as (_ & Ht' & Hi' & _). apply managed_same; try done. by rewrite Hi'.
  - unfold client_rotateSecret. apply with_client. intros i c Hc Ht Hn. destruct (oc_isPublic c); [reflexivity|].
    apply wrel_run; [apply _|unfold random_hex; apply _|]. intros w1 secret [= <- _]. 
    apply wrel_run; [apply _|unfold hashClientSecret; apply _|]. intros w2 h [= <- _].
    apply wrel_seq; [apply _|reflexivity|done|]. intros w3 [] _ H1. apply wrel_then.
    eapply save_wrel; [done..|]. by apply managed_same.
  - unfold client_reactivate. apply with_client. intros i c Hc Ht Hn.
    apply wrel_seq; [apply _|reflexivity|done|]. intros w1 [] _ H1. eapply save_wrel; [done..|].
    by apply managed_same.
Qed.

(** The guards let a request through to its handler, in the same world, or reject it. *)
Lemma client_route_cases q w :
  resolveRouteTenantId (Some tenantId) = Some tenantId ->
  let w' := (client_route env others tenantId (Some caller) q w).1 in
  w' = w \/
  (caller.(au_tenantId) = Some tenantId /\ "clients:manage" ∈ expandEffectiveScopes caller.(au_scopes) /\
   w' = (run_client_request env others tenantId (Some caller) q w).1).
Proof.
  intros Ht. assert ((statusGuard_canActivate (Some caller) w).1 = w) as Hw.
  { unfold statusGuard_canActivate. rewrite Hadmin. destruct (negb _); [done|].
    unfold mbind, prog_bind, tenantRepo_findById. simpl. unfold of_sum. by destruct (assertTenantActive _). }
  unfold client_route. revert Hw. generalize (statusGuard_canActivate (Some caller)). intros guard Hw.
  unfold scopeGuard_canActivate, tenantGuard_canActivate. rewrite Hadmin, Ht. simpl.
  destruct (mem_str _ (expandEffectiveScopes _)) eqn:Es; simpl; [|by left].
  destruct (negb (truthy_str _)); simpl; [by left|]. case_bool_decide as Hb; simpl; [|by left].
  unfold mbind, prog_bind, of_sum. destruct (guard w) as [w1 [e|[]]]; simpl in *; subst; [by left|right].
  split_and!; [done|by apply mem_str_spec|done].
Qed.
End Requests.
End Routes.

(** C23: a caller who is not a platform administrator cannot escalate through the client
    API.  A request that changes anything came with the scope [clients:manage] and a
    token of the route's tenant; every client that existed before is still there, and
    is unchanged unless it belongs to that tenant and is not reserved for the system, in
    which case it keeps its tenant, its client identifier and its platform role, and has
    gained only scopes that the caller holds and the deployment enables; a new client
    belongs to the tenant, has no platform role and only such scopes; and a client with
    roles is restricted to [client_credentials] if it was so before. *)
Theorem clients_no_escalation env others t caller q w :
  role_isPlatformAdmin caller.(au_roles) = false -> resolveRouteTenantId (Some t) = Some t ->
  Pres (bounded env caller t) others -> table_keyed oc_id (clients w.(committed)) ->
  let w' := (client_route env others t (Some caller) q w).1 in
  (w' <> w -> caller.(au_tenantId) = Some t /\ "clients:manage" ∈ expandEffectiveScopes caller.(au_scopes)) /\
  (forall i, is_Some (clients w.(committed) !! i) -> is_Some (clients w'.(committed) !! i)) /\
  (forall i c', clients w'.(committed) !! i = Some c' ->
     match clients w.(committed) !! i with
     | Some c => c' = c \/ managed env caller t c c'
     | None => registered env caller t c'
     end).
Proof.
  intros Ha Ht Ho K w'. destruct (client_route_cases env caller t Ha others q w Ht) as [E|(H1 & H2 & E)]; fold w' in E.
  - rewrite E. split_and!; [done|done|]. intros i c' ->. by left.
  - destruct (request_bounded env caller t Ha others q w K) as [[_ H4 H5] _]. rewrite <-E in H4, H5.
    split_and!; [done|exact H4|exact H5].
Qed.

(** ** Secrets *)

Lemma find_one_unique {A} (P : A -> bool) (t : gmap string A) i r :
  t !! i = Some r -> P r = true -> (forall j r', t !! j = Some r' -> P r' = true -> r' = r) -> find_one P t = Some r.
Proof.
  intros Hr HP Hu. destruct (find_one P t) as [r'|] eqn:E.
  - apply find_one_Some in E as [HP' [j Hj]]. f_equal. by eapply Hu.
  - rewrite find_one_None in E. rewrite (E _ _ Hr) in HP. done.
Qed.

(** The row a write leaves is the only one with its client identifier. *)
Lemma write_client_row i c w w' :
  table_keyed oc_id (clients w.(committed)) -> c.(oc_id) = i -> write_client i c w = (w', inr tt) ->
  clients w'.(committed) !! i = Some c /\
  (forall j r, clients w'.(committed) !! j = Some r -> r.(oc_clientId) = c.(oc_clientId) -> r = c).
Proof.
  intros K Hi E. unfold write_client in E. run_inv E. injection E0 as <- <-.
  destruct (client_check c); [done|]. destruct (clientId_taken _ _ _) eqn:Et; [done|]. injection E as <-.
  split; [apply lookup_insert_eq|]. intros j r Hr Hc.
  change (<[i := c]> (clients (committed w)) !! j = Some r) in Hr.
  apply lookup_insert_Some in Hr as [[<- <-]|[Hj Hr]]; [done|].
  apply not_true_iff_false in Et. destruct Et. apply existsb_exists. exists r. split.
  - apply list_elem_of_In, elem_of_rows. eauto.
  - rewrite (K _ _ Hr). apply andb_true_iff. split; [|by apply String.eqb_eq].
    apply negb_true_iff, String.eqb_neq. congruence.
Qed.

(** The other requests keep the rows under their identifiers. *)
Definition clients_keyed (d d' : DB) : Prop :=
  table_keyed oc_id (clients d) -> table_keyed oc_id (clients d').
#[export] Instance clients_keyed_preorder : PreOrder clients_keyed.
Proof. unfold clients_keyed. split; [by intros d H|]. intros d1 d2 d3 H1 H2 H. by apply H2, H1. Qed.

(** The requests that hand out a secret. *)
Inductive SecretRequest := Register (dto : CreateOAuthClientDto) (auth : AuthContext) | Rotate (clientId : string).
Definition run_secret (env : ClientEnv) (others : Prog unit) (t : string) (q : SecretRequest)
    : Prog (OAuthClient * string) :=
  match q with
  | Register dto auth => client_create env others t dto (Some auth)
  | Rotate clientId => client_rotateSecret env others t clientId
  end.

Lemma keyed_run {A} (m : Prog A) w w1 r :
  Pres clients_keyed m -> table_keyed oc_id (clients w.(committed)) -> m w = (w1, r) ->
  table_keyed oc_id (clients w1.(committed)).
Proof. intros Hm K E. pose proof (Hm w) as [H _]. rewrite E in H. by apply H. Qed.

(** Takes the first program of a sequence off [E], carrying [K] along. *)
Ltac keyed_step E K E1 x :=
  let K' := fresh in let HP := fresh in
  apply bind_inr in E as (? & x & E1 & E);
  match type of E1 with ?m ?w = _ =>
    assert (Pres clients_keyed m) as HP by
      (unfold random_hex, generateClientId, clients_findByClientId, client_where, requireTenantClient,
         clients_findByTenantAndClientId, hashClientSecret; solve_pres);
    pose proof (keyed_run m w _ _ HP K E1) as K'
  end;
  clear K HP; rename K' into K.

(** Their last step writes a row, in force, whose hash is that of the secret. *)
Lemma run_secret_inr env others t q w w' c s :
  Pres clients_keyed others -> table_keyed oc_id (clients w.(committed)) ->
  run_secret env others t q w = (w', inr (c, s)) ->
  exists salt w1, c.(oc_clientSecretHash) = Some (env.(cl_hash) salt s) /\ c.(oc_revokedAt) = None /\
    c.(oc_tenantId) = t /\
    table_keyed oc_id (clients w1.(committed)) /\ write_client c.(oc_id) c w1 = (w', inr tt).
Proof.
  intros Ho K. destruct q as [dto auth|clientId]; simpl; intros E.
  - unfold client_create in E. keyed_step E K E1 a. injection E1 as <- <-.
    keyed_step E K E1 u1. keyed_step E K E2 u2. keyed_step E K E3 u3. keyed_step E K E4 secret.
    keyed_step E K E5 clientId. keyed_step E K E6 existing. destruct existing; [done|].
    keyed_step E K E7 h. keyed_step E K E8 u4. run_inv E. injection E as <- <- <-.
    unfold catch in E0. destruct (clients_create _ _) as [w2 [e|c1]] eqn:Ec.
    { destruct (violates _ _); discriminate E0. }
    injection E0 as <- <-. unfold clients_create in Ec. keyed_step Ec K E0 i. keyed_step Ec K E9 now.
    keyed_step Ec K E10 taken. destruct taken; [done|]. run_inv Ec. destruct a. injection Ec as <- <-.
    run_inv E7. injection E7 as _ <-. by exists a, x9.
  - unfold client_rotateSecret in E. keyed_step E K E1 client.
    destruct (requireTenantClient_run t _ _ _ _ _ E1) as (_ & Ht & _).
    keyed_step E K E2 u1. destruct (oc_isPublic client); [done|]. keyed_step E K E3 secret.
    keyed_step E K E4 h. keyed_step E K E5 u2. run_inv E. injection E as <- <- <-. unfold clients_update in E0.
    apply bind_inr in E0 as (? & [] & Ew & E0). injection E0 as <- <-.
    apply bind_inr in E4 as (? & salt & _ & E4). injection E4 as _ <-.
    exists salt. eexists. split_and!; [done| |done|done|exact Ew]. simpl.
    unfold requireTenantClient in E1. apply bind_inr in E1 as (? & [row|] & _ & E1); [|done].
    destruct (true && is_revoked row) eqn:Er; [done|]. injection E1 as <- <-.
    unfold is_revoked in Er. apply bool_decide_eq_false in Er. by apply eq_None_not_Some.
Qed.

(** The one row with a client identifier is what the queries find. *)
Lemma find_clientId (t : gmap string OAuthClient) i c P :
  t !! i = Some c -> (forall j r, t !! j = Some r -> r.(oc_clientId) = c.(oc_clientId) -> r = c) ->
  P c = true -> (forall r, P r = true -> r.(oc_clientId) = c.(oc_clientId)) -> find_one P t = Some c.
Proof. intros Hc Hu HP Hid. apply (find_one_unique _ _ i); auto. intros j r Hr H. eapply Hu; eauto. Qed.

Section Found.
Context (w : World) (i : string) (c : OAuthClient).
Context (Hc : clients w.(committed) !! i = Some c)
  (Hu : forall j r, clients w.(committed) !! j = Some r -> r.(oc_clientId) = c.(oc_clientId) -> r = c).

Lemma found_client : client_findByClientId c.(oc_clientId) w = (w, inr c).
Proof.
  unfold client_findByClientId, clients_findByClientId, client_where, mbind, prog_bind. simpl.
  rewrite (find_clientId _ i c); [done|done|done|by apply String.eqb_eq|]. by intros r ?%String.eqb_eq.
Qed.

Lemma found_verify env s :
  client_verifySecret env c.(oc_clientId) s w =
  (w, inr (negb (is_revoked c) && match c.(oc_clientSecretHash) with
                                  | Some h => negb (String.eqb h "") && env.(cl_verify) h s
                                  | None => false
                                  end)).
Proof.
  unfold client_verifySecret, mbind, prog_bind. rewrite found_client. simpl.
  destruct (is_revoked c); [done|]. destruct (oc_clientSecretHash c) as [h|]; [|done]. by destruct (String.eqb h "").
Qed.

Lemma found_active :
  findActiveClient c.(oc_clientId) w = (w, inr (if is_revoked c then None else Some c)).
Proof. unfold findActiveClient, catch, mbind, prog_bind. rewrite found_client. simpl. done. Qed.

(** Revocation marks the row. *)
Lemma found_revoke :
  c.(oc_clientId) ∉ RESERVED_OAUTH_CLIENT_IDS -> is_revoked c = false ->
  exists w2 c2, client_revoke (mret tt) c.(oc_tenantId) c.(oc_clientId) w = (w2, inr tt) /\
    clients w2.(committed) !! i = Some c2 /\
    (forall j r, clients w2.(committed) !! j = Some r -> r.(oc_clientId) = c2.(oc_clientId) -> r = c2) /\
    c2.(oc_clientId) = c.(oc_clientId) /\ is_revoked c2 = true.
Proof.
  intros Hn Ha. unfold client_revoke, requireTenantClient, clients_findByTenantAndClientId, client_where.
  unfold mbind, prog_bind. simpl.
  rewrite (find_clientId _ i c); [|done|done|by rewrite !String.eqb_refl|by intros r [_ ?%String.eqb_eq]%andb_true_iff].
  simpl. unfold assertNotReserved, of_sum. destruct (mem_str _ RESERVED_OAUTH_CLIENT_IDS) eqn:Em.
  { by apply mem_str_spec in Em. }
  rewrite Ha. eexists _, _. split; [reflexivity|]. unfold clients in *. simpl. split.
  { rewrite lookup_fmap, Hc. simpl. by rewrite String.eqb_refl. }
  split; [|done]. intros j r Hr Hid. apply lookup_fmap_Some in Hr as (r0 & <- & Hr).
  assert (r0 = c) as ->; [|by rewrite String.eqb_refl]. eapply Hu; [done|]. by destruct (String.eqb _ _).
Qed.
End Found.

(** A secret is good from the moment it is handed out until the client is revoked.
    When registration or rotation returns a client with a secret, whatever other
    requests did in between, that secret verifies for the client and the provider finds
    the client; once the client is revoked no secret verifies for it and the provider
    does not find it. *)
Theorem issued_secret_verifies env others t q w w' c s :
  ClientEnvLaws env -> Pres clients_keyed others -> table_keyed oc_id (clients w.(committed)) ->
  run_secret env others t q w = (w', inr (c, s)) ->
  client_verifySecret env c.(oc_clientId) s w' = (w', inr true) /\
  findActiveClient c.(oc_clientId) w' = (w', inr (Some c)) /\
  (c.(oc_clientId) ∉ RESERVED_OAUTH_CLIENT_IDS ->
   let w2 := (client_revoke (mret tt) t c.(oc_clientId) w').1 in
   (client_revoke (mret tt) t c.(oc_clientId) w').2 = inr tt /\
   (forall s', client_verifySecret env c.(oc_clientId) s' w2 = (w2, inr false)) /\
   findActiveClient c.(oc_clientId) w2 = (w2, inr None)).
Proof.
  intros HL Ho K (salt & w1 & Hh & Hr & Ht & K1 & Ew)%run_secret_inr; [|done..].
  apply write_client_row in Ew as [Hc Hu]; [|done..].
  assert (is_revoked c = false) as Hact by (unfold is_revoked; by rewrite Hr).
  rewrite (found_verify _ _ _ Hc Hu), (found_active _ _ _ Hc Hu), Hact, Hh. simpl. split_and!; [|done|].
  - destruct (String.eqb_spec (cl_hash env salt s) "") as [e|_]; [by apply cl_hash_encoded in e|].
    by rewrite cl_verify_hash.
  - intros Hn. subst t. destruct (found_revoke _ _ _ Hc Hu Hn Hact) as (w2 & c2 & -> & Hc2 & Hu2 & <- & Hr2).
    simpl. rewrite (found_active _ _ _ Hc2 Hu2), Hr2. split_and!; [done| |done]. intros s'.
    by rewrite (found_verify _ _ _ Hc2 Hu2), Hr2.
Qed.

(** ** Concrete clients *)

Definition sample_client (id : string) (scopes roles : list string) : OAuthClient :=
  mkOAuthClient id "t" ("dtcs_" +:+ id) (Some "hash") false "Client" scopes roles [] [] ["client_credentials"]
    None 0 None None None.

Definition clients_db : DB :=
  set_clients {[ "a" := sample_client "a" ["credentials:offer"] []; "b" := sample_client "b" ["logs:read"] ["admin"] ]}
    (set_tenants {[ "t" := sample_tenant "t" None ]} empty_db).

Definition sample_client_env : ClientEnv :=
  mkClientEnv ["client_credentials"; "authorization_code"] ("openid" :: ASSIGNABLE_OAUTH_CLIENT_SCOPES)
    (fun _ u => "secret" +:+ u) (fun salt s => "$argon2i$" +:+ s) (fun h s => String.eqb h ("$argon2i$" +:+ s)).

#[local] Instance sample_client_laws : ClientEnvLaws sample_client_env.
Proof. split; [done|]. intros salt s. apply String.eqb_refl. Qed.

Lemma clients_db_keyed : table_keyed oc_id (clients clients_db).
Proof.
  intros i c H. unfold clients in H. simpl in H.
  apply lookup_insert_Some in H as [[<- <-]|[_ [<- <-]%lookup_singleton_Some]]; done.
Qed.

Definition manager_auth : AuthContext :=
  mkAuth "u" user_token (Some "t") [] ["clients:manage"; "credentials:offer"].

(** A scope the caller holds is handed out, one they lack is refused, and so is a
    platform role. *)
Lemma clients_no_escalation_witness :
  let edit scopes roles := UpdateClient "dtcs_a" (mkUpdateClient None (Some scopes) roles None None None) in
  let run q := client_route sample_client_env (mret tt) "t" (Some manager_auth) q (world_of clients_db 0) in
  (run (edit ["clients:manage"] None)).2 = inr tt /\
  (run (edit ["tenants:admin"] None)).2 =
    inl (ForbiddenException "Cannot assign scope(s) not held by the caller: tenants:admin.") /\
  (run (edit ["clients:manage"] (Some ["platform-admin"]))).2 =
    inl (ForbiddenException
      "Only platform-admin callers may assign or clear platform-level roles on OAuth clients.") /\
  (forall i, is_Some (clients clients_db !! i) ->
     is_Some (clients (run (edit ["clients:manage"] None)).1.(committed) !! i)).
Proof.
  intros edit run. split_and!; [vm_compute; reflexivity..|].
  apply (clients_no_escalation sample_client_env (mret tt) "t" manager_auth (edit ["clients:manage"] None)
           (world_of clients_db 0)).
  - reflexivity.
  - reflexivity.
  - apply pres_ret, bounded_preorder.
  - apply clients_db_keyed.
Defined.

Lemma issued_secret_verifies_witness :
  let r := run_secret sample_client_env (mret tt) "t" (Rotate "dtcs_a") (world_of clients_db 0) in
  exists c s, r.2 = inr (c, s) /\ client_verifySecret sample_client_env "dtcs_a" s r.1 = (r.1, inr true).
Proof.
  intros r. eexists _, _. split; [vm_compute; reflexivity|].
  destruct (issued_secret_verifies sample_client_env (mret tt) "t" (Rotate "dtcs_a") (world_of clients_db 0)
    r.1 (oc_set_secret "$argon2i$secretu0" (sample_client "a" ["credentials:offer"] [])) "secretu0") as [H _].
  - apply sample_client_laws.
  - apply _.
  - apply clients_db_keyed.
  - vm_compute. reflexivity.
  - exact H.
Defined.

(** Rotation saves the entity it read: a revocation that completes while the new secret
    is hashed is undone, and the client stays in force. *)
Lemma rotation_undoes_revocation :
  let revoke := client_revoke (mret tt) "t" "dtcs_a" in
  let rotated := (client_rotateSecret sample_client_env revoke "t" "dtcs_a" (world_of clients_db 0)).1 in
  (is_revoked <$> clients (revoke (world_of clients_db 0)).1.(committed) !! "a") = Some true /\
  (is_revoked <$> clients rotated.(committed) !! "a") = Some false.
Proof. vm_compute. split; reflexivity. Qed.
