(* ===== verification/TenantStatusChange.v ===== *)
(** * Tenant status changes: the cascade

    tenant/tenant-status-change.worker.ts: what the worker does with the jobs that
    [tenant_updateStatus] publishes with a status.  Deactivation revokes the clients,
    deactivates the connectors and abandons the open connections of the tenant;
    reactivation restores the clients that deactivation revoked, and nothing else.
    pg-boss may deliver a job more than once. *)

From Stdlib Require Import Ascii ZArith Lia.
From stdpp Require Import base decidable strings sets gmap list list_relations sorting.
From S2P Require Import Prelude Js OperationTtl JsText Entities StateMapping Db Auth TenantRepository.
From S2P Require Import ConnectionRepository ConnectorRepository TenantService OAuthClient ConnectorAdmin.
From S2P Require Import ConnectionService Lifecycle OAuthClientCorrectness.

Local Open Scope Z_scope.

(** One member of a [Promise.all]. *)
Definition settled {A} (m : Prog A) : Prog (Exn + A) :=
  catch (v ← m; mret (inr v)) (fun e => mret (inl e)).

(** TenantStatusChangeWorker.handle *)
Definition statusChange_handle (tenantId : string) (previousStatus status : TenantStatus) : Prog unit :=
  if bool_decide (status = TN_DEACTIVATED) then
    revoked ← settled (clients_revokeAllForTenant tenantId);
    deactivated ← settled (connector_deactivateAllForTenant tenantId);
    abandoned ← settled (connection_abandonAllForTenant tenantId);
    match revoked, deactivated, abandoned with
    | inr _, inr _, inr _ => mret tt
    | inl e, _, _ | _, inl e, _ | _, _, inl e => throw e
    end
  else if bool_decide (previousStatus = TN_DEACTIVATED) && bool_decide (status = TN_ACTIVE) then
    _ ← clients_restoreAllForTenant tenantId;
    mret tt
  else mret tt.

(** ** What one delivery does *)




(** ** Redelivery and reactivation *)

(** A job delivered at each of the given times. *)
Fixpoint deliver (t : string) (prev st : TenantStatus) (times : list Z) (w : World) : World :=
  match times with
  | [] => w
  | now :: rest => deliver t prev st rest (statusChange_handle t prev st (set_clock now w)).1
  end.






Lemma fmap_when {A} (P : A -> bool) (f : A -> A) (m : gmap string A) i a :
  ((fun a => if P a then f a else a) <$> m) !! i = Some a ->
  exists a0, m !! i = Some a0 /\ (P a0 = true /\ a = f a0 \/ P a0 = false /\ a = a0).
Proof. intros (a0 & <- & H)%lookup_fmap_Some. exists a0. split; [done|]. destruct (P a0); auto. Qed.




(** ** A tenant with a client in force and one revoked for cause, an open connection and a
    completed one *)

Definition cascade_cn (id : string) (s : ConnectionState) : Connection :=
  mkConnection id "t" (Some ("x-" +:+ id)) None None s TRACTION (Some "k") DIDCOMM_V1 [] 0 0.

Definition cascade_db : DB :=
  set_connectors {[ "k" := mkConnector "k" "t" TRACTION "https://agent" true "" (num_of_Z 1) None 0 0 ]}
    (set_clients {[ "a" := sample_client "a" [] []; "b" := oc_set_revoked (Some 5) None (sample_client "b" [] []) ]}
      (set_connections {[ "n" := cascade_cn "n" ACTIVE; "m" := cascade_cn "m" CN_COMPLETED ]} clients_db)).


(** The repository's [revoke] clears the reason so that a client revoked for cause while
    its tenant is deactivated stays revoked.  The service returns before it gets there,
    because the client is already revoked, and reactivation puts the client back in
    force. *)
Lemma cause_revocation_resurrected :
  let w1 := deliver "t" TN_ACTIVE TN_DEACTIVATED [7000] (world_of cascade_db 0) in
  let revoked := client_revoke (mret tt) "t" "dtcs_a" w1 in
  let w2 := deliver "t" TN_DEACTIVATED TN_ACTIVE [9000] revoked.1 in
  revoked.2 = inr tt /\ (is_revoked <$> clients w2.(committed) !! "a") = Some false /\
  (is_revoked <$> clients (deliver "t" TN_DEACTIVATED TN_ACTIVE [9000] (clients_revoke "a" w1).1).(committed) !! "a")
    = Some true.
Proof. vm_compute. repeat split; reflexivity. Qed.
