(* ===== verification/ConnectorCorrectness.v ===== *)
(** * Connectors: readable credentials, one connector per sub-wallet

    [Connectors_ok]: every row decrypts to an object, its blind index is that of the
    agent identifier in it, and no two active rows share one.  Every operation of the
    connector and tenant services that touches a connector keeps it, whatever the
    agents answer and other such requests commit meanwhile, and so do key rotations
    that keep the old keys. *)

From Stdlib Require Import Ascii ZArith Lia.
From stdpp Require Import base decidable strings sets gmap list list_relations.
From S2P Require Import Prelude Js OperationTtl JsText Entities StateMapping Db LogPartition Encryption.
From S2P Require Import Pagination OperationService CredentialRepository TenantRepository.
From S2P Require Import ConnectorRepository Auth TenantUserService ConnectorService TenantService ConnectorAdmin.
From S2P Require Import Lifecycle.

Local Open Scope Z_scope.

(** ** Reading back what was stored *)

Lemma as_strings_strings cs : as_strings (JsonText.strings cs) = Some cs.
Proof.
  induction cs as [|[k v] cs IH]; [done|]. unfold as_strings in *. cbn. unfold JsonText.strings in IH.
  by rewrite IH.
Qed.

Lemma as_strings_keys o cs : as_strings o = Some cs -> cs.*1 = o.*1.
Proof.
  revert cs. unfold as_strings. induction o as [|[k v] o IH]; intros cs E; cbn in E; [by injection E as <-|].
  destruct v; try done. cbn in E. destruct (mapM _ o) as [cs'|] eqn:Em; [|done].
  injection E as <-. simpl. f_equal. by apply IH.
Qed.

Section Invariant.
Context (env : ConnectorEnv) `{!EnvLaws env}.

Lemma decrypt_credentials_keys c cs : decrypt_credentials env c = inr cs -> NoDup cs.*1.
Proof.
  unfold decrypt_credentials, decrypt, decryptWithKey. intros E. repeat (case_match; simplify_eq/=).
  erewrite as_strings_keys by done. by eapply JsonText.parse_keys.
Qed.

Lemma encrypt_credentials_run cs w w' r c :
  NoDup cs.*1 -> encrypt_credentials env cs w = (w', inr r) ->
  c.(con_credentialsEncrypted) = r.(er_ciphertext) -> c.(con_keyVersion) = r.(er_keyVersion) ->
  decrypt_credentials env c = inr cs.
Proof.
  intros Hnd E Hc Hv. unfold encrypt_credentials, randomBytes in E. run_inv E. run_inv E0. injection E0 as <- <-.
  injection E1 as <- <-. injection E as _ E. unfold decrypt_credentials. rewrite Hc, Hv.
  rewrite (decrypt_encrypt _ _ _ _ _ _ _ (el_bytes _ _) Hnd E eq_refl). by rewrite as_strings_strings.
Qed.

Lemma withAgentLogId_keys cs a : NoDup cs.*1 -> NoDup (withAgentLogId cs a).*1.
Proof.
  intros H. unfold withAgentLogId. destruct a; [apply JsonText.NoDup_assoc_set|]; by apply NoDup_dissoc.
Qed.

Lemma withAgentLogId_assoc cs a : assoc "agentLogId" (withAgentLogId cs a) = a.
Proof. unfold withAgentLogId. destruct a; [apply assoc_set_eq|apply assoc_dissoc_eq]. Qed.

(** ** The invariant *)

Definition Connector_wf (c : Connector) : Prop :=
  exists cs, decrypt_credentials env c = inr cs /\
    hashAgentLogId env c.(con_type) (assoc "agentLogId" cs) = inr c.(con_agentLogIdHash).

Record Connectors_ok (d : DB) : Prop := {
  co_keyed : table_keyed con_id d.(db_connectors);
  co_wf : forall i c, d.(db_connectors) !! i = Some c -> Connector_wf c;
  co_bound : forall i j c c', d.(db_connectors) !! i = Some c -> d.(db_connectors) !! j = Some c' ->
             same_binding c c' = true -> i = j
}.

Definition conn_ok (d d' : DB) : Prop := Connectors_ok d -> Connectors_ok d'.

#[export] Instance conn_ok_preorder : PreOrder conn_ok.
Proof. split; [by intros d Hd|]. unfold conn_ok. intros d1 d2 d3 H1 H2 H. by apply H2, H1. Qed.
#[export] Instance conn_ok_rows : RowsOnly conn_ok.
Proof. intros d jobs audit metrics [K W B]. by split. Qed.

(** Nothing but the table of connectors matters. *)
Lemma conn_ok_frame d d' : d'.(db_connectors) = d.(db_connectors) -> conn_ok d d'.
Proof. intros E [K W B]. split; rewrite E; done. Qed.

Lemma same_binding_sym c c' : same_binding c c' = same_binding c' c.
Proof.
  unfold same_binding. rewrite (andb_comm (con_active c')).
  destruct (con_active c), (con_active c'); simpl; try done.
  destruct (decide (con_agentLogIdHash c = con_agentLogIdHash c')) as [->|Hn]; [done|].
  rewrite !(bool_decide_eq_false_2 (_ = _)) by congruence. by rewrite !andb_false_r.
Qed.

(** The columns the row invariant looks at. *)
Lemma connector_wf_same c c' :
  c'.(con_credentialsEncrypted) = c.(con_credentialsEncrypted) -> c'.(con_keyVersion) = c.(con_keyVersion) ->
  c'.(con_type) = c.(con_type) -> c'.(con_agentLogIdHash) = c.(con_agentLogIdHash) ->
  Connector_wf c -> Connector_wf c'.
Proof.
  intros H1 H2 H3 H4 (cs & Hd & Hh). exists cs. unfold decrypt_credentials in *. by rewrite H1, H2, H3, H4.
Qed.

Lemma conn_ok_write d id c :
  (Connectors_ok d -> c.(con_id) = id /\ Connector_wf c) ->
  connector_conflict id c d.(db_connectors) = false ->
  conn_ok d (set_connectors (<[id := c]> d.(db_connectors)) d).
Proof.
  intros Hc Hn Hok. destruct (Hc Hok) as [Hid Hwf]. destruct Hok as [K W B].
  assert (forall j c', j <> id -> d.(db_connectors) !! j = Some c' -> same_binding c c' = false) as Hfree.
  { intros j c' Hj Hc'. unfold connector_conflict in Hn. apply not_true_is_false. intros Hs.
    apply not_true_iff_false in Hn. apply Hn, existsb_exists. exists c'. split.
    - apply list_elem_of_In, elem_of_rows. eauto.
    - rewrite Hs, andb_true_r. apply negb_true_iff, String.eqb_neq. by rewrite (K _ _ Hc'). }
  split; simpl.
  - intros j c' [[<- <-]|[_ Hc']]%lookup_insert_Some; [done|by apply K].
  - intros j c' [[<- <-]|[_ Hc']]%lookup_insert_Some; [done|by eapply W].
  - intros i j x y [[<- <-]|[Hi Hx]]%lookup_insert_Some [[<- <-]|[Hj Hy]]%lookup_insert_Some Hs; [done|..].
    + rewrite (Hfree _ _ (not_eq_sym Hj) Hy) in Hs. done.
    + rewrite same_binding_sym, (Hfree _ _ (not_eq_sym Hi) Hx) in Hs. done.
    + by eapply B.
Qed.

Lemma write_connector_wrel m id c w :
  (Connectors_ok (view m w) -> c.(con_id) = id /\ Connector_wf c) ->
  wrel conn_ok w (write_connector m id c w).1.
Proof.
  intros H. unfold write_connector. apply wrel_bind; [apply _|reflexivity|]. simpl. intros conflict [= <-].
  destruct (connector_conflict _ _ _) eqn:Ec; [reflexivity|].
  destruct m; split; simpl; try reflexivity; by apply conn_ok_write.
Qed.

#[export] Instance pres_delete_connector m id g : Pres conn_ok (delete_connector m id g).
Proof.
  unfold delete_connector. solve_pres. intros w.
  apply pres_modify; [apply _|]. intros d [K W B]. split; simpl.
  - intros i k [_ Hk]%lookup_delete_Some. by apply K.
  - intros i k [_ Hk]%lookup_delete_Some. by eapply W.
  - intros i j k k' [_ Hk]%lookup_delete_Some [_ Hk']%lookup_delete_Some. by eapply B.
Qed.

Lemma conn_ok_deactivate t now d :
  conn_ok d (set_connectors ((fun c => if is_active_of t c then con_deactivate now c else c)
                               <$> d.(db_connectors)) d).
Proof.
  intros [K W B]. split; simpl.
  - intros i c Hc. apply lookup_fmap_Some in Hc as (c0 & <- & Hc). rewrite <-(K _ _ Hc). by destruct (is_active_of t c0).
  - intros i c Hc. apply lookup_fmap_Some in Hc as (c0 & <- & Hc). apply W in Hc.
    destruct (is_active_of t c0); [|done]. by apply (connector_wf_same c0).
  - intros i j c c' Hc Hc' Hs. apply lookup_fmap_Some in Hc as (c0 & <- & Hc).
    apply lookup_fmap_Some in Hc' as (c1 & <- & Hc'). eapply B; [done..|].
    destruct (is_active_of t c0); [done|]. destruct (is_active_of t c1); [|done].
    unfold same_binding in Hs. simpl in Hs. by rewrite andb_false_r in Hs.
Qed.

(** ** Rotation *)

#[export] Instance pres_encrypt_eq cs : Pres eq (encrypt_credentials env cs).
Proof. unfold encrypt_credentials, randomBytes. solve_pres. Qed.
#[export] Instance pres_encrypt cs : Pres conn_ok (encrypt_credentials env cs).
Proof. unfold encrypt_credentials, randomBytes. solve_pres. Qed.

(** Columns that may be written to a row like [c]. *)
Definition good_updates (c : Connector) (u : ConnectorUpdates) : Prop :=
  Connector_wf c -> forall now, Connector_wf (apply_updates u now c).

Lemma apply_updates_id u now c : (apply_updates u now c).(con_id) = c.(con_id).
Proof. unfold apply_updates. by destruct (default _ _). Qed.

Lemma locked_update_pres {A} t id (f : Connector -> Prog (ConnectorUpdates * A)) :
  (forall c, Pres eq (f c)) -> (forall c w w' r, f c w = (w', inr r) -> good_updates c r.1) ->
  Pres conn_ok (locked_update t id f).
Proof.
  intros Hf Hg w. unfold locked_update. apply wrel_bind; [apply _|reflexivity|]. simpl. intros existing [= Ex].
  destruct existing as [c|]; [|reflexivity].
  assert (d_lookup : w.(working).(db_connectors) !! id = Some c).
  { destruct (db_connectors (working w) !! id) as [c0|]; [|done].
    destruct (String.eqb _ _); [congruence|done]. }
  pose proof (Hf c w) as [E1 E2]. destruct (f c w) as [w1 r] eqn:Er. simpl in E1, E2.
  unfold mbind at 1, prog_bind at 1. rewrite Er. destruct r as [e|r].
  { split; simpl; [rewrite <-E1|rewrite <-E2]; reflexivity. }
  etrans; [split; [rewrite <-E1|rewrite <-E2]; reflexivity|].
  apply wrel_bind; [apply _| |intros; apply pres; solve_pres].
  destruct (has_updates r.1); [|reflexivity].
  apply wrel_bind; [apply _|reflexivity|]. simpl. intros now _. apply write_connector_wrel. simpl.
  rewrite <-E2. intros Hok. rewrite apply_updates_id. split; [by apply co_keyed in d_lookup|].
  eapply Hg; [done|]. by eapply co_wf.
Qed.

Lemma rotation_good c cs w w' r :
  decrypt_credentials env c = inr cs -> encrypt_credentials env cs w = (w', inr r) ->
  good_updates c (mkConnectorUpdates None (Some (r.(er_ciphertext), r.(er_keyVersion))) None).
Proof.
  intros Hd He (cs' & Hd' & Hh) now. rewrite Hd in Hd'. injection Hd' as <-. exists cs. split; [|done].
  eapply encrypt_credentials_run; [by eapply decrypt_credentials_keys|done|done|done].
Qed.

Lemma no_updates_good c : good_updates c no_updates.
Proof. intros H now. by apply (connector_wf_same c). Qed.

#[export] Instance pres_lazyRotate c m : Pres conn_ok (lazyRotateKeyIfNeeded env c m).
Proof.
  unfold lazyRotateKeyIfNeeded. destruct (requiresRotation _ _); [|apply _].
  apply pres_bind; [apply _| |intros; apply _]. unfold connectors_updateWithLock.
  assert (Pres conn_ok (locked_update (con_tenantId c) (con_id c) (fun current =>
    if negb (requiresRotation env.(ce_keys) current.(con_keyVersion)) then mret (no_updates, tt)
    else decrypted ← of_sum (decrypt_credentials env current);
         r ← encrypt_credentials env decrypted;
         mret (mkConnectorUpdates None (Some (r.(er_ciphertext), r.(er_keyVersion))) None, tt)))) as H.
  { apply locked_update_pres.
    - intros current. solve_pres.
    - intros current w w' r E. destruct (negb _); [injection E as <- <-; apply no_updates_good|].
      run_inv E. injection E0 as <- Hd. run_inv E. injection E as <- <-. by eapply rotation_good. }
  destruct m; [apply pres_transaction; [apply _|done]|done].
Qed.
(** Rotation changes the encryption of the stored credentials and nothing else. *)
Lemma lazyRotate_same c w w' c' cs :
  w.(committed).(db_connectors) !! c.(con_id) = Some c -> decrypt_credentials env c = inr cs ->
  lazyRotateKeyIfNeeded env c NoTx w = (w', inr c') ->
  decrypt_credentials env c' = inr cs /\ c'.(con_id) = c.(con_id) /\ c'.(con_tenantId) = c.(con_tenantId) /\
  c'.(con_type) = c.(con_type) /\ c'.(con_active) = c.(con_active).
Proof.
  intros Hc Hd E. unfold lazyRotateKeyIfNeeded in E. destruct (requiresRotation _ _) eqn:Hr; [|by injection E as <- <-].
  run_inv E. injection E as <- <-. unfold connectors_updateWithLock, transaction in E0.
  destruct (locked_update _ _ _ _) as [w1 [|r]] eqn:El in E0; [done|]. injection E0 as <- <-.
  unfold locked_update in El. run_inv El. injection E as <- <-. simpl in El. rewrite Hc, String.eqb_refl in El.
  run_inv El. rewrite Hr in E. simpl in E. run_inv E. injection E0 as <- Hd'. rewrite Hd in Hd'. injection Hd' as <-.
  run_inv E. injection E as <- <-. simpl in El. run_inv El. run_inv E. injection E1 as <- <-.
  unfold write_connector in E. run_inv E. injection E1 as <- <-.
  destruct (connector_conflict _ _ _); [done|]. injection E as <- _.
  run_inv El. injection E as <- <-. injection El as <- <-. simpl.
  rewrite lookup_insert_eq. simpl. rewrite String.eqb_refl. simpl.
  split; [|done]. eapply encrypt_credentials_run; [by eapply decrypt_credentials_keys|done|done|done].
Qed.
End Invariant.
Arguments Connectors_ok env d : assert.
Arguments conn_ok env d d' : assert.

#[export] Hint Extern 2 (Pres (conn_ok _) (modify _ _)) =>
  (apply pres_modify; [apply _|intros; apply conn_ok_frame; reflexivity]) : typeclass_instances.

(** ** The services *)

Section Services.
Context (env : ConnectorEnv) `{!EnvLaws env}.
Context (HM : forall t m, env.(ce_managers) t = Some m -> ManagerLaws (conn_ok env) m).
Abbreviation R := (conn_ok env).

#[local] Instance pres_health t u cs : Pres R (health_check env t u cs).
Proof.
  unfold health_check. destruct (ce_managers env t) as [m|] eqn:Em; [|apply _]. pose proof (HM _ _ Em). solve_pres.
Qed.
#[local] Instance pres_assertHealthy t u cs : Pres R (assertHealthy env t u cs).
Proof. unfold assertHealthy. solve_pres. Qed.
#[local] Instance pres_findById t id auth m : Pres R (connector_findById env t id auth m).
Proof. unfold connector_findById, connectors_findByTenantAndIdForUpdate, connectors_findById. solve_pres. Qed.
#[local] Instance pres_promise_all {A B} (f : A -> Prog B) l : (forall a, Pres R (f a)) -> Pres R (promise_all f l).
Proof. intros Hf. induction l; simpl; solve_pres. Qed.
#[local] Instance pres_rotate_all l : Pres R (rotate_all env l).
Proof. unfold rotate_all. apply pres_promise_all. intros. apply _. Qed.
#[local] Instance pres_reconcile m x p :
  ManagerLaws R m -> Pres R p -> Pres R (reconcileFailedRegistration m x p).
Proof. intros ? ?. unfold reconcileFailedRegistration. solve_pres. Qed.
#[local] Instance pres_deleteOrLog id : Pres R (deleteOrLogFailure id).
Proof. unfold deleteOrLogFailure, connectors_delete. solve_pres. Qed.
#[local] Instance pres_rethrow {A} e : Pres R (rethrowConflict (A:=A) e).
Proof. unfold rethrowConflict. solve_pres. Qed.

(** *** Tenants and their users leave the connectors alone *)

#[local] Instance pres_tenant_update_row t m : Pres R (tenants_update t m).
Proof. unfold tenants_update, write_tenant. solve_pres. Qed.
#[local] Instance pres_tenants_setDefault t c m : Pres R (tenants_setDefaultConnectorIfUnset t c m).
Proof. unfold tenants_setDefaultConnectorIfUnset, tenantRepo_findById, write_tenant. solve_pres. Qed.
#[local] Instance pres_tenants_findById t : Pres R (tenants_findById t).
Proof. unfold tenants_findById. solve_pres. Qed.
#[local] Instance pres_recordConfig t : Pres R (recordConfigUpdate t).
Proof. unfold recordConfigUpdate, publishConfigChange. solve_pres. Qed.
#[local] Instance pres_setDefault t c auth : Pres R (tenant_setDefaultConnectorIfUnset env t c auth).
Proof.
  unfold tenant_setDefaultConnectorIfUnset, setDefault_tx, tenants_findByIdForUpdate, tenant_missing. solve_pres.
Qed.
#[local] Instance pres_tenant_update id dto auth : Pres R (tenant_update env id dto auth).
Proof.
  unfold tenant_update, tenant_update_tx, tenants_findByIdForUpdate, tenant_missing, checked_config. solve_pres.
Qed.
#[local] Instance pres_tenant_updateConfig id dto auth : Pres R (tenant_updateConfig env id dto auth).
Proof.
  unfold tenant_updateConfig, tenant_updateConfig_tx, assertDefaultConnector, tenants_findByIdForUpdate,
    tenant_missing. solve_pres.
Qed.

(** *** Creation *)

Lemma hash_wf type cs a h c :
  decrypt_credentials env c = inr (withAgentLogId cs a) -> c.(con_type) = type ->
  hashAgentLogId env type a = inr h -> c.(con_agentLogIdHash) = h -> Connector_wf env c.
Proof.
  intros Hd Ht Hh He. exists (withAgentLogId cs a). split; [done|]. by rewrite withAgentLogId_assoc, Ht, He.
Qed.

Lemma connectors_create_wrel mk w :
  (forall i now, (mk i now).(con_id) = i /\ Connector_wf env (mk i now)) ->
  wrel R w (connectors_create mk w).1.
Proof.
  intros H. unfold connectors_create. apply wrel_bind; [apply _|by split|]. intros i _.
  apply wrel_bind; [apply _|by split|]. intros now _.
  apply wrel_bind; [apply _|by split|]. intros taken _. destruct taken; [reflexivity|].
  apply wrel_bind; [apply _| |intros; reflexivity]. apply write_connector_wrel. intros _. apply H.
Qed.

Lemma pres_create t dto auth : NoDup dto.(cc_credentials).*1 -> Pres R (connector_create env t dto auth).
Proof.
  intros Hnd w. unfold connector_create.
  apply wrel_run; [apply _..|]. intros w1 [] _. apply wrel_run; [apply _..|]. intros w2 tn _.
  set (prep := match ce_managers env (cc_connectorType dto) with Some m => _ | None => _ end).
  assert (Pres R prep) as Hprep.
  { unfold prep. destruct (ce_managers env _) as [m|] eqn:Em; [|apply _]. pose proof (HM _ _ Em). apply _. }
  apply wrel_run; [apply _..|]. intros w3 cs E3.
  assert (NoDup cs.*1) as Hcs.
  { revert E3. unfold prep. destruct (ce_managers env _) as [m|] eqn:Em; [|by intros [= <- <-]].
    pose proof (HM _ _ Em). by apply ml_prepare_keys. }
  apply wrel_run; [apply _..|]. intros w4 a _. apply wrel_run; [apply _..|]. intros w5 r E5.
  apply wrel_bind; [apply _| |].
  - apply wrel_catch; [apply _| |intros; apply pres; apply _].
    apply wrel_run; [apply _..|]. intros w6 h [= <- Eh]. apply connectors_create_wrel. intros i now.
    split; [done|]. eapply hash_wf; [|done|exact Eh|done].
    eapply encrypt_credentials_run; [apply _|by apply withAgentLogId_keys|exact E5|done|done].
  - intros c _. apply @pres. unfold invalidate, register_created. destruct (ce_managers env _) as [m|] eqn:Em; [pose proof (HM _ _ Em)|];
      solve_pres.
Qed.

(** *** Update *)

Lemma merged_keys existing stored updates :
  NoDup stored.*1 -> NoDup (merged_credentials env existing stored updates).*1.
Proof.
  intros H. unfold merged_credentials. destruct (ce_managers env _) as [m|] eqn:Em.
  - pose proof (HM _ _ Em). by apply ml_merge_keys.
  - unfold merge_default. repeat case_match; by repeat apply JsonText.NoDup_assoc_set.
Qed.

Lemma assertAvailable_run existing a stored w w' h :
  assertAgentLogIdAvailable env existing a stored w = (w', inr h) ->
  hashAgentLogId env existing.(con_type) a = inr h.
Proof.
  unfold assertAgentLogIdAvailable. intros E. run_inv E. injection E0 as <- Eh. rewrite Eh.
  destruct a0 as [x|].
  - run_inv E. destruct a0; [discriminate E|]. by injection E as _ <-.
  - destruct (_ || _); [discriminate E|]. by injection E as _ <-.
Qed.

(** What [rebind] returns can be written to every row of the same type. *)
Lemma rebind_good existing stored next a w w' cs h r ep c :
  NoDup next.*1 -> rebind env existing stored next a w = (w', inr (cs, h, r)) ->
  c.(con_type) = existing.(con_type) ->
  good_updates env c (mkConnectorUpdates ep (Some (r.(er_ciphertext), r.(er_keyVersion))) (Some h)).
Proof.
  intros Hnd E Ht _ now. unfold rebind in E. run_inv E. apply assertAvailable_run in E0. run_inv E.
  injection E as <- <- <- <-. eapply hash_wf; [|exact Ht|done|done].
  eapply encrypt_credentials_run; [apply _|by apply withAgentLogId_keys|done|done|done].
Qed.

Lemma build_updates_good snapshot dto w w' u c :
  buildCredentialUpdates env snapshot dto w = (w', inr u) -> c.(con_type) = snapshot.(con_type) ->
  good_updates env c u.
Proof.
  unfold buildCredentialUpdates. cbv zeta. intros E Ht.
  destruct (up_credentials dto) as [updates|].
  - run_inv E. injection E0 as <- Hd. run_inv E. run_inv E. destruct a1 as [[cs h] r]. run_inv E.
    injection E as <- <-. eapply rebind_good; [|exact E1|done].
    by apply merged_keys, (decrypt_credentials_keys env snapshot).
  - destruct (up_endpointUrl dto) as [ep|]; [|done]. run_inv E. injection E0 as <- Hd. run_inv E.
    case_bool_decide as Ha; [injection E as <- <-; by intros H now; apply (connector_wf_same env c)|].
    run_inv E. destruct a1 as [[cs h] r]. injection E as <- <-. eapply rebind_good; [|exact E1|done].
    by apply (decrypt_credentials_keys env snapshot).
Qed.

#[local] Instance pres_build snapshot dto : Pres R (buildCredentialUpdates env snapshot dto).
Proof.
  unfold buildCredentialUpdates, rebind, assertAgentLogIdAvailable,
    connectors_existsOtherActiveWithAgentLogIdHash, register_updated. cbv zeta.
  destruct (ce_managers env (con_type snapshot)) as [m|] eqn:Em; [pose proof (HM _ _ Em)|]; solve_pres.
Qed.

Lemma stale_type snapshot current : is_stale snapshot current = false -> current.(con_type) = snapshot.(con_type).
Proof.
  unfold is_stale. rewrite !orb_false_iff, !negb_false_iff. intros [[[[_ H] _] _] _].
  by apply bool_decide_eq_true in H.
Qed.

Lemma pres_update_attempts n t id dto snapshot : Pres R (update_attempts env n t id dto snapshot).
Proof.
  revert snapshot. induction n as [|n IH]; intros snapshot; [apply _|]. intros w. simpl.
  apply wrel_run; [apply _..|]. intros w1 u E1.
  assert (Pres R (update_locked t id snapshot u)) as Hu.
  { unfold update_locked, connectors_updateWithLock. apply pres_transaction; [apply _|].
    apply locked_update_pres; [intros; apply _|]. intros c w2 w3 r [= <- <-]. simpl.
    destruct (is_stale snapshot c) eqn:Es; [apply no_updates_good|].
    eapply build_updates_good; [exact E1|by apply stale_type]. }
  apply @pres. unfold invalidate. apply pres_bind; [apply _..|]. intros o. apply pres_bind; [apply _..|]. intros _.
  destruct o as [[c []]|]; [apply IH| |apply _].
  apply pres_bind; [apply _| |intros; apply _].
  destruct (ce_managers env _) as [m|] eqn:Em; [pose proof (HM _ _ Em)|]; apply _.
Qed.

Lemma pres_update t id dto auth : Pres R (connector_update env t id dto auth).
Proof. unfold connector_update. apply pres_bind; [apply _..|]. intros c. apply pres_update_attempts. Qed.

Lemma pres_delete t id auth : Pres R (connector_delete env t id auth).
Proof.
  unfold connector_delete, credentials_existsByConnectorId, connectors_deleteUnlessDefault, invalidate. solve_pres.
Qed.

Lemma pres_deactivate_connectors t : Pres R (connector_deactivateAllForTenant t).
Proof.
  unfold connector_deactivateAllForTenant, connectors_deactivateAllForTenant, invalidate. solve_pres.
  apply pres_modify; [apply _|]. intros. apply conn_ok_deactivate.
Qed.
End Services.

(** ** Histories

    Requests, and deployments with another key file.  What other requests commit while
    an agent answers is part of the managers. *)

Inductive ConnectorRequest :=
  | ReqCreate (t : string) (dto : CreateConnectorCredentialDto) (auth : AuthContext)
  | ReqUpdate (t id : string) (dto : UpdateConnectorCredentialDto) (auth : AuthContext)
  | ReqDelete (t id : string) (auth : AuthContext)
  | ReqFind (t id : string) (auth : AuthContext)
  | ReqList (t : string)
  | ReqListActive (t : string) (type : ConnectorType) (active : bool)
  | ReqWebhook (id : string)
  | ReqTest (t id : string) (auth : AuthContext)
  | ReqDeactivateAll (t : string)
  | ReqSetDefault (t id : string) (auth : AuthContext)
  | ReqTenant (id : string) (dto : UpdateTenantDto) (auth : option AuthContext)
  | ReqTenantConfig (id : string) (dto : UpdateTenantConfigDto) (auth : option AuthContext).

Definition run_connector_request (env : ConnectorEnv) (r : ConnectorRequest) : Prog unit :=
  match r with
  | ReqCreate t dto auth => _ ← connector_create env t dto auth; mret tt
  | ReqUpdate t id dto auth => _ ← connector_update env t id dto auth; mret tt
  | ReqDelete t id auth => connector_delete env t id auth
  | ReqFind t id auth => _ ← connector_findById env t id (Some auth) NoTx; mret tt
  | ReqList t => _ ← connector_findByTenant env t; mret tt
  | ReqListActive t type active =>
      _ ← connector_findByTenantAndConnectorTypeAndActive env t type active; mret tt
  | ReqWebhook id => _ ← connector_findActiveForWebhook env id; mret tt
  | ReqTest t id auth => _ ← connector_testConnectivity env t id auth; mret tt
  | ReqDeactivateAll t => _ ← connector_deactivateAllForTenant t; mret tt
  | ReqSetDefault t id auth => _ ← tenant_setDefaultConnectorIfUnset env t id auth; mret tt
  | ReqTenant id dto auth => _ ← tenant_update env id dto auth; mret tt
  | ReqTenantConfig id dto auth => _ ← tenant_updateConfig env id dto auth; mret tt
  end.

Inductive ConnectorEvent := Serve (r : ConnectorRequest) | Deploy (keys : KeyProvider).

Definition with_keys (env : ConnectorEnv) (keys : KeyProvider) : ConnectorEnv :=
  mkConnectorEnv env.(ce_gcm) env.(ce_hmac) keys env.(ce_bytes) env.(ce_managers).

Fixpoint run_events (env : ConnectorEnv) (events : list ConnectorEvent) (w : World) : ConnectorEnv * World :=
  match events with
  | [] => (env, w)
  | Serve r :: rest => run_events env rest (run_connector_request env r w).1
  | Deploy keys :: rest => run_events (with_keys env keys) rest w
  end.

(** JSON bodies have each key once. *)
Definition well_keyed (r : ConnectorRequest) : Prop :=
  match r with ReqCreate _ dto _ => NoDup dto.(cc_credentials).*1 | _ => True end.

(** Every key of the old file is in the new one. *)
Definition keys_kept (keys keys' : KeyProvider) : Prop :=
  forall v k, getKey keys v = inr k -> getKey keys' v = inr k.

Fixpoint events_ok (keys : KeyProvider) (events : list ConnectorEvent) : Prop :=
  match events with
  | [] => True
  | Serve r :: rest => well_keyed r /\ events_ok keys rest
  | Deploy keys' :: rest => keys_kept keys keys' /\ events_ok keys' rest
  end.

Lemma pres_connector_request env r :
  EnvLaws env -> (forall t m, env.(ce_managers) t = Some m -> ManagerLaws (conn_ok env) m) ->
  well_keyed r -> Pres (conn_ok env) (run_connector_request env r).
Proof.
  intros HE HM Hr. destruct r; simpl in Hr |- *; (apply pres_bind; [apply _| |intros; apply _]) || idtac.
  - by apply pres_create.
  - by apply pres_update.
  - by apply pres_delete.
  - by apply pres_findById.
  - unfold connector_findByTenant, connectors_findByTenant. solve_pres. by apply pres_rotate_all.
  - unfold connector_findByTenantAndConnectorTypeAndActive, connectors_findByTenantAndConnectorTypeAndActive.
    solve_pres. by apply pres_rotate_all.
  - unfold connector_findActiveForWebhook, connectors_findById. solve_pres.
  - unfold connector_testConnectivity. apply pres_bind; [apply _|by apply pres_findById|]. intros c.
    apply pres_bind; [apply _..|]. intros cs. apply pres_bind; [apply _|by apply pres_health|intros; apply _].
  - apply pres_deactivate_connectors.
  - by apply pres_setDefault.
  - by apply pres_tenant_update.
  - by apply pres_tenant_updateConfig.
Qed.

Lemma kept_wf env keys c : keys_kept env.(ce_keys) keys -> Connector_wf env c -> Connector_wf (with_keys env keys) c.
Proof.
  intros Hk (cs & Hd & Hh). exists cs. split.
  - unfold decrypt_credentials, decrypt in *. simpl. destruct (getKey (ce_keys env) _) as [|k] eqn:Ek; [done|].
    by rewrite (Hk _ _ Ek).
  - unfold hashAgentLogId, deriveBlindIndex in *. simpl. destruct (assoc _ cs); [|done].
    destruct (formatAgentLogBindingKey _ _); [done|]. destruct (getKey (ce_keys env) _) as [|k] eqn:Ek; [done|].
    by rewrite (Hk _ _ Ek).
Qed.

Lemma kept_ok env keys d : keys_kept env.(ce_keys) keys -> Connectors_ok env d -> Connectors_ok (with_keys env keys) d.
Proof. intros Hk [K W B]. split; [done| |done]. intros i c Hc. by eapply kept_wf, W. Qed.

(** One active connector per sub-wallet: the blind index is a function of the type and
    the agent identifier. *)
Lemma ok_sub_wallet env d i j c c' cs cs' a :
  Connectors_ok env d -> d.(db_connectors) !! i = Some c -> d.(db_connectors) !! j = Some c' ->
  c.(con_active) = true -> c'.(con_active) = true -> c.(con_type) = c'.(con_type) ->
  decrypt_credentials env c = inr cs -> decrypt_credentials env c' = inr cs' ->
  assoc "agentLogId" cs = Some a -> assoc "agentLogId" cs' = Some a -> i = j.
Proof.
  intros [_ W B] Hc Hc' A A' Ht D D' I I'. eapply B; [exact Hc|exact Hc'|].
  destruct (W _ _ Hc) as (x & Dx & Hx), (W _ _ Hc') as (y & Dy & Hy). rewrite D in Dx. rewrite D' in Dy.
  injection Dx as <-. injection Dy as <-. rewrite I in Hx. rewrite I', <-Ht, Hx in Hy.
  injection Hy as Hy. unfold same_binding. rewrite A, A', Hy. simpl.
  rewrite (bool_decide_eq_true_2 (_ = _)) by done. rewrite andb_true_r. apply bool_decide_eq_true.
  rewrite <-Hy. unfold hashAgentLogId in Hx. repeat case_match; simplify_eq; eauto.
Qed.

(** The invariant holds throughout a history, under the keys of the moment. *)
Lemma run_events_ok env events w :
  EnvLaws env ->
  (forall keys t m, env.(ce_managers) t = Some m -> ManagerLaws (conn_ok (with_keys env keys)) m) ->
  events_ok env.(ce_keys) events -> Connectors_ok env w.(committed) ->
  Connectors_ok (run_events env events w).1 (run_events env events w).2.(committed).
Proof.
  revert env w. induction events as [|[r|keys] events IH]; intros env w HE HM Hev Hok; simpl in *; [done|..].
  - destruct Hev as [Hr Hev]. apply IH; try done. apply pres_connector_request; try done.
    intros t m Hm. specialize (HM env.(ce_keys) t m Hm). by destruct env.
  - destruct Hev as [Hk Hev]. apply IH; try done; [split; apply HE|by apply kept_ok].
Qed.

(** C21: whatever sequence of connector and tenant requests is served, with whatever the
    agents answer, and whatever key files are deployed in between as long as each keeps
    the keys of the one before, every stored connector decrypts under the current file
    to an object of credentials whose agent identifier is the one its blind index was
    derived from, and no two active connectors of one type, of whatever tenants, hold
    the same agent identifier. *)
Theorem connectors_stay_readable env events w :
  EnvLaws env ->
  (forall keys t m, env.(ce_managers) t = Some m -> ManagerLaws (conn_ok (with_keys env keys)) m) ->
  events_ok env.(ce_keys) events -> Connectors_ok env w.(committed) ->
  let env' := (run_events env events w).1 in
  let rows := (run_events env events w).2.(committed).(db_connectors) in
  (forall i c, rows !! i = Some c ->
     exists cs, decrypt_credentials env' c = inr cs /\
       hashAgentLogId env' c.(con_type) (assoc "agentLogId" cs) = inr c.(con_agentLogIdHash)) /\
  (forall i j c c' cs cs' a, rows !! i = Some c -> rows !! j = Some c' ->
     c.(con_active) = true -> c'.(con_active) = true -> c.(con_type) = c'.(con_type) ->
     decrypt_credentials env' c = inr cs -> decrypt_credentials env' c' = inr cs' ->
     assoc "agentLogId" cs = Some a -> assoc "agentLogId" cs' = Some a -> i = j).
Proof.
  intros HE HM Hev Hok env' rows. pose proof (run_events_ok env events w HE HM Hev Hok) as H.
  split; [apply H|]. intros. by eapply ok_sub_wallet.
Qed.

(** *** An agent, two tenants and a rotation *)

Definition sample_manager : ConnectorManager :=
  mkManager (fun _ _ => mret (mkHealth true 5 None (Some "3fa85f64-5717-4562-b3fc-2c963f66afa6")))
    (fun c => mret c) (fun c u => merge_default c u) (fun _ => mret tt) (fun _ => mret true) (fun _ => mret tt).

Definition sample_env : ConnectorEnv :=
  mkConnectorEnv plain_gcm (fun k s => k +:+ s) provider1 (fun n _ => zeros n) (fun _ => Some sample_manager).

#[export] Instance sample_env_laws : EnvLaws sample_env.
Proof. split; [apply _|]. intros n u. simpl. induction n; simpl; congruence. Qed.

Lemma sample_manager_laws R : PreOrder R -> ManagerLaws R sample_manager.
Proof.
  intros HR. split; simpl; intros; try apply _.
  - match goal with E : _ = _ |- _ => by injection E as <- <- end.
  - unfold merge_default. repeat case_match; by repeat apply JsonText.NoDup_assoc_set.
Qed.

Definition connector_events : list ConnectorEvent :=
  let create t := Serve (ReqCreate t (mkCreateConnector TRACTION "https://agent" quoted_secret)
                           (mkAuth "u" user_token (Some t) [] ["tenants:admin"])) in
  [create "t"; Deploy provider2; create "s"; Serve (ReqList "t")].

Definition two_tenants : DB :=
  set_tenants {[ "t" := sample_tenant "t" None; "s" := sample_tenant "s" None ]} empty_db.

(** The second tenant's connector is refused; the first one's is re-encrypted. *)
Lemma connectors_stay_readable_witness :
  let env' := (run_events sample_env connector_events (world_of two_tenants 0)).1 in
  let rows := (run_events sample_env connector_events (world_of two_tenants 0)).2.(committed).(db_connectors) in
  size rows = 1%nat /\ map_Forall (fun _ c => c.(con_tenantId) = "t" /\ c.(con_keyVersion) = num_of_Z 2) rows /\
  (forall i c, rows !! i = Some c -> exists cs, decrypt_credentials env' c = inr cs /\
     hashAgentLogId env' c.(con_type) (assoc "agentLogId" cs) = inr c.(con_agentLogIdHash)).
Proof.
  intros env' rows. split; [vm_compute; reflexivity|]. split; [apply (bool_decide_unpack _); vm_compute; exact I|].
  apply (connectors_stay_readable sample_env connector_events (world_of two_tenants 0)).
  - apply sample_env_laws.
  - intros keys t m [= <-]. apply sample_manager_laws, _.
  - assert (NoDup quoted_secret.*1) by (apply (bool_decide_unpack _); vm_compute; exact I).
    split; [done|]. split; [|by split]. intros v k. unfold getKey, provider1, provider2. simpl.
    case_decide; [done|]. discriminate.
  - split; by intros ?.
Defined.
