(* ===== verification/LogAccess.v ===== *)
(** * Log access

    log-access/log-access-token.service.ts, connector-agent-log-partition.resolver.ts,
    log-access.service.ts and log-access.controller.ts: the decision which partitions
    of the log store a presented token may read.  The state of the process is the
    partition cache and the hits of the rate limiter; a decision is a function of it,
    of the database and of the clock.  The verification of tokens and of URLs are
    parameters. *)

From Stdlib Require Import Ascii ZArith Lia.
From stdpp Require Import base decidable strings sets gmap list list_relations sorting.
From S2P Require Import Prelude Js OperationTtl JsText Entities StateMapping Db LogPartition Encryption RateLimit.
From S2P Require Import ConnectorRepository Auth ConnectorService TenantService ConnectorAdmin Lifecycle ConnectorCorrectness.

Local Open Scope Z_scope.

Definition LOG_READ_SCOPE : string := "logs:read".
Definition MAX_PARTITIONS_PER_SCOPE : nat := 10.

Definition denied {A} (status : Z) (reason : string) : Exn + A := inl (LogAccessDeniedError status reason).

(** LOG_GATEWAY_AUDIENCE, JWT_ADDITIONAL_AUDIENCES, [URL.parse(s)?.href], and
    [verifyBearerForAudience]: the claims of a valid token. *)
Record LogConfig := mkLogConfig {
  lg_audience : option string;
  lg_additionalAudiences : list string;
  lg_href : string -> option string;
  lg_verify : option string -> string -> Exn + list (string * json)
}.

(** What the process keeps between requests. *)
Record LogAccess := mkLogAccess {
  la_cache : AgentLogPartitionCache;
  la_hits : list RateLimitHit
}.

(** [split(/\s+/).filter(Boolean)] *)
Fixpoint words (acc : string) (s : string) : list string :=
  match s with
  | EmptyString => if String.eqb acc "" then [] else [acc]
  | String c s' =>
      if is_js_space c then (if String.eqb acc "" then words "" s' else acc :: words "" s')
      else words (acc +:+ String c EmptyString) s'
  end.

Section Decision.
Context (config : LogConfig) (env : ConnectorEnv).

(** ** Tokens *)

Definition parseResourceIndicator (value : string) : Exn + string :=
  let trimmed := js_trim value in
  match config.(lg_href) trimmed with
  | Some href =>
      if String.eqb href "" || existsb (fun c => eq_ascii c "#"%char) (String.list_ascii_of_string href)
      then inl (JsError "must be an absolute URI without a fragment")
      else inr trimmed
  | None => inl (JsError "must be an absolute URI without a fragment")
  end.

Definition getGatewayAudience : Exn + string :=
  match js_trim <$> config.(lg_audience) with
  | None | Some EmptyString => denied 401 "audience_not_configured"
  | Some configured =>
      match parseResourceIndicator configured with
      | inr audience =>
          if mem_str audience config.(lg_additionalAudiences) then inr audience
          else denied 401 "audience_not_configured"
      | inl _ => denied 401 "audience_not_configured"
      end
  end.

Definition has_claims (payload : list (string * json)) : bool :=
  match assoc "sub" payload with Some (JStr s) => negb (String.eqb s "") | _ => false end &&
  match assoc "exp" payload with Some (JNum _) => true | _ => false end &&
  match assoc "iat" payload with Some (JNum _) => true | _ => false end.

Definition granted_scopes (payload : list (string * json)) : list string :=
  match assoc "scope" payload with Some (JStr s) => words "" s | _ => [] end.

(** LogAccessTokenService.authorize: the tenant. *)
Definition authorize (authorizationHeader : option string) : Exn + string :=
  match getGatewayAudience with
  | inl e => inl e
  | inr audience =>
      match config.(lg_verify) authorizationHeader audience with
      | inl (UnauthorizedException _) => denied 401 "invalid_token"
      | inl e => inl e
      | inr payload =>
          if negb (has_claims payload) then denied 401 "missing_required_claims"
          else if negb (isCanonicalTenantId (assoc "tenant_id" payload)) then denied 401 "invalid_tenant_id"
          else if negb (mem_str LOG_READ_SCOPE (expandEffectiveScopes (granted_scopes payload)))
          then denied 403 "missing_logs_read_scope"
          else match assoc "tenant_id" payload with
               | Some (JStr t) => inr t
               | _ => denied 401 "invalid_tenant_id"
               end
      end
  end.

(** ** Partitions *)

(** The loop of [resolveAgentPartitions] over the tenant's connectors. *)
Fixpoint agent_partitions (credentials : list Connector) : Exn + list string :=
  match credentials with
  | [] => inr []
  | credential :: rest =>
      if negb credential.(con_active) then agent_partitions rest
      else
        match decrypt env.(ce_gcm) env.(ce_keys) credential.(con_credentialsEncrypted)
                credential.(con_keyVersion) with
        | inl e => inl e
        | inr (JObj decrypted) =>
            match assoc "agentLogId" decrypted with
            | None => agent_partitions rest
            | Some (JStr agentLogId) =>
                match buildAgentPartitionKey credential.(con_type) agentLogId with
                | inl e => inl e
                | inr key =>
                    match agent_partitions rest with
                    | inl e => inl e
                    | inr keys => inr (key :: keys)
                    end
                end
            | Some _ => inl (JsError ("Connector " +:+ (credential.(con_id) +:+
                          " has a malformed agent log identifier.")))
            end
        | inr _ => inl (JsError ("Connector " +:+ (credential.(con_id) +:+
                     " has an unexpected decrypted credentials shape.")))
        end
  end.

(** What the datastore says: the read and the loop. *)
Definition partitions_of (tenantId : string) (d : DB) : Exn + list string :=
  agent_partitions (merge_sort newer (select (fun c => String.eqb c.(con_tenantId) tenantId) d.(db_connectors))).

(** ConnectorAgentLogPartitionResolver.resolveAgentPartitions, at [now] in milliseconds. *)
Definition resolveAgentPartitions (now : Z) (d : DB) (tenantId : string) (cache : AgentLogPartitionCache)
    : AgentLogPartitionCache * (Exn + list string) :=
  match cache_get now tenantId cache with
  | (cache1, Some cached) => (cache1, inr cached)
  | (cache1, None) =>
      let lookup := cache_beginLookup now cache1 in
      match partitions_of tenantId d with
      | inl e => (cache1, inl e)
      | inr partitions =>
          match cache_set now tenantId partitions lookup cache1 with
          | inl e => (cache1, inl e)
          | inr cache2 => (cache2, inr partitions)
          end
      end
  end.

(** [partitions.join('|')] *)
Definition join_scope (partitions : list string) : string := String.concat "|" partitions.

(** LogAccessService.resolveScope, at [us] in microseconds. *)
Definition resolveScope (us : Z) (d : DB) (authorizationHeader : option string) (s : LogAccess)
    : LogAccess * (Exn + string) :=
  match authorize authorizationHeader with
  | inl e => (s, inl e)
  | inr tenantId =>
      match tryConsume us us (fun hits => hits) tenantId s.(la_hits) with
      | (hits, inl e) => (mkLogAccess s.(la_cache) hits, inl e)
      | (hits, inr false) => (mkLogAccess s.(la_cache) hits, denied 429 "rate_limited")
      | (hits, inr true) =>
          let '(cache, resolved) := resolveAgentPartitions (date_of us) d tenantId s.(la_cache) in
          let s' := mkLogAccess cache hits in
          match resolved with
          | inl _ => (s', denied 403 "resolution_failed")
          | inr agentPartitions =>
              if negb (forallb isSafePartitionKey agentPartitions) then (s', denied 403 "resolution_failed")
              else
                match deriveTenantPartitionKey tenantId with
                | inl e => (s', inl e)
                | inr own =>
                    let partitions := own :: reverse (remove_dups (reverse agentPartitions)) in
                    if (MAX_PARTITIONS_PER_SCOPE <? length partitions)%nat
                    then (s', denied 403 "partition_bound_exceeded")
                    else (s', inr (join_scope partitions))
                end
          end
      end
  end.

(** LogAccessController.check: the status, and the scope header on success. *)
Definition check (us : Z) (d : DB) (authorizationHeader : option string) (s : LogAccess)
    : LogAccess * (Exn + (Z * option string)) :=
  let '(s', r) := resolveScope us d authorizationHeader s in
  (s', match r with
       | inr scope => inr (200, Some scope)
       | inl (LogAccessDeniedError status _) => inr (status, None)
       | inl e => inl e
       end).
End Decision.

(** ** Scopes of different tenants *)

Section Isolation.
Context (env : ConnectorEnv).

Lemma append_inj a b b' : a +:+ b = a +:+ b' -> b = b'.
Proof. induction a as [|c a IH]; [done|]. intros [= H]. auto. Qed.

Lemma partition_key_inj t i t' i' k :
  buildAgentPartitionKey t i = inr k -> buildAgentPartitionKey t' i' = inr k -> t = t' /\ i = i'.
Proof.
  unfold buildAgentPartitionKey, formatAgentLogBindingKey.
  destruct (isValidAgentLogId i), (isValidAgentLogId i'); try done. intros [= <-] [= E].
  destruct t, t'; try done; split; try done; by injection E.
Qed.

(** Every partition is that of an active connector in the list, which decrypts to its
    agent identifier. *)
Lemma agent_partitions_inv l ps k :
  agent_partitions env l = inr ps -> k ∈ ps ->
  exists c o i, c ∈ l /\ c.(con_active) = true /\
    decrypt env.(ce_gcm) env.(ce_keys) c.(con_credentialsEncrypted) c.(con_keyVersion) = inr (JObj o) /\
    assoc "agentLogId" o = Some (JStr i) /\ buildAgentPartitionKey c.(con_type) i = inr k.
Proof.
  revert ps. induction l as [|c l IH]; intros ps E Hk; cbn [agent_partitions] in E.
  { injection E as <-. by apply elem_of_nil in Hk. }
  destruct (con_active c) eqn:Ea; simpl in E.
  2:{ destruct (IH ps E Hk) as (c' & o & i & Hc & H). exists c', o, i. split; [by right|done]. }
  destruct (decrypt _ _ _ _) as [e|j] eqn:Ed; [done|]. destruct j as [| | | | |o]; try done.
  destruct (assoc "agentLogId" o) as [v|] eqn:Ei.
  2:{ destruct (IH ps E Hk) as (c' & o' & i & Hc & H). exists c', o', i. split; [by right|done]. }
  destruct v as [| | |i| |]; try done. destruct (buildAgentPartitionKey _ _) as [e|key] eqn:Eb; [done|].
  destruct (agent_partitions env l) as [e|keys]; [done|]. injection E as <-.
  apply elem_of_cons in Hk as [->|Hk].
  - exists c, o, i. split; [left|done].
  - destruct (IH keys eq_refl Hk) as (c' & o' & i' & Hc & H). exists c', o', i'. split; [by right|done].
Qed.

Lemma as_strings_assoc o cs k s : as_strings o = Some cs -> assoc k o = Some (JStr s) -> assoc k cs = Some s.
Proof.
  revert cs. unfold as_strings. induction o as [|[k' v] o IH]; intros cs E Ha; [done|]. cbn in E.
  destruct v; try done. cbn in E. destruct (mapM _ o) as [cs'|] eqn:Em; [|done]. injection E as <-.
  simpl in *. destruct (String.eqb k k'); [congruence|by apply IH].
Qed.

(** A partition belongs to one active connector, and so to one tenant. *)
Lemma partition_owner d t t' ps ps' k :
  Connectors_ok env d -> partitions_of env t d = inr ps -> partitions_of env t' d = inr ps' ->
  k ∈ ps -> k ∈ ps' -> t = t'.
Proof.
  intros Hok E E' Hk Hk'.
  destruct (agent_partitions_inv _ _ _ E Hk) as (c & o & i & Hc & Ha & Hd & Hi & Hb).
  destruct (agent_partitions_inv _ _ _ E' Hk') as (c' & o' & i' & Hc' & Ha' & Hd' & Hi' & Hb').
  rewrite (merge_sort_Permutation newer), elem_of_select in Hc, Hc'.
  destruct Hc as [Ht%String.eqb_eq [x Hx]], Hc' as [Ht'%String.eqb_eq [x' Hx']].
  destruct (partition_key_inj _ _ _ _ _ Hb Hb') as [HT <-].
  destruct (co_wf _ _ Hok x c Hx) as (cs & Hcs & _), (co_wf _ _ Hok x' c' Hx') as (cs' & Hcs' & _).
  assert (x = x') as <-; [|congruence].
  eapply (ok_sub_wallet env d x x' c c' cs cs' i); try done.
  - unfold decrypt_credentials in Hcs. rewrite Hd in Hcs. destruct (as_strings o) eqn:Eo; [|done].
    injection Hcs as <-. by eapply as_strings_assoc.
  - unfold decrypt_credentials in Hcs'. rewrite Hd' in Hcs'. destruct (as_strings o') eqn:Eo; [|done].
    injection Hcs' as <-. by eapply as_strings_assoc.
Qed.
End Isolation.

(** How a reader takes a scope apart: at the bars. *)
Fixpoint split_bar (acc s : string) : list string :=
  match s with
  | EmptyString => [acc]
  | String c s' => if eq_ascii c "|"%char then acc :: split_bar "" s' else split_bar (acc +:+ String c EmptyString) s'
  end.

Definition no_bar (s : string) : Prop := all_chars_in (fun c => negb (eq_ascii c "|"%char)) s = true.

Lemma split_bar_word s rest acc : no_bar s ->
  split_bar acc (s +:+ rest) = split_bar (acc +:+ s) rest.
Proof.
  unfold no_bar. revert acc. induction s as [|c s IH]; intros acc H.
  - simpl. by rewrite string_app_nil.
  - simpl in H. apply andb_true_iff in H as [Hc H]. change ((String c s) +:+ rest) with (String c (s +:+ rest)).
    cbn [split_bar]. apply negb_true_iff in Hc. rewrite Hc, IH by done. by rewrite assoc_string_app.
Qed.

(** Joined and taken apart, the partitions are the same. *)
Lemma split_join l : l <> [] -> Forall no_bar l -> split_bar "" (join_scope l) = l.
Proof.
  unfold join_scope. induction l as [|s l IH]; [done|]. intros _ [Hs Hl]%Forall_cons. destruct l as [|s' l].
  - simpl. rewrite <-(string_app_nil s) at 1. by rewrite (split_bar_word s "" "").
  - change (String.concat "|" (s :: s' :: l)) with (s +:+ ("|" +:+ String.concat "|" (s' :: l))).
    rewrite split_bar_word by done. simpl. f_equal. by apply IH.
Qed.

Lemma all_chars_mono (P Q : ascii -> bool) s :
  (forall c, P c = true -> Q c = true) -> all_chars_in P s = true -> all_chars_in Q s = true.
Proof.
  intros H. induction s as [|c s IH]; [done|]. simpl. rewrite !andb_true_iff. intros [H1 H2]. auto.
Qed.

Lemma safe_no_bar s : isSafePartitionKey s = true -> no_bar s.
Proof.
  unfold isSafePartitionKey, no_bar. destruct s as [|c s]; [done|]. rewrite !andb_true_iff. intros [[Hc Hs] _].
  assert (forall c, is_lower c || is_digit c || is_dash c = true -> negb (eq_ascii c "|"%char) = true) as Hb.
  { intros x. unfold eq_ascii. destruct (Ascii.eqb_spec x "|"%char) as [->|]; [by vm_compute|done]. }
  cbn [all_chars_in]. rewrite Hb by (by rewrite Hc). simpl. by apply (all_chars_mono _ _ _ Hb).
Qed.

Lemma match_chars_all (ps : list (ascii -> bool)) (Q : ascii -> bool) s :
  Forall (fun P => forall c, P c = true -> Q c = true) ps -> match_chars ps s = true -> all_chars_in Q s = true.
Proof.
  revert s. induction ps as [|P ps IH]; intros s HF H; destruct s as [|c s]; try done. cbn in H |- *.
  apply andb_true_iff in H as [Hc H]. apply Forall_cons in HF as [HP HF]. rewrite (HP c Hc). by apply IH.
Qed.

Lemma canonical_no_bar t : isCanonicalTenantId (Some (JStr t)) = true -> no_bar ("t-" +:+ t).
Proof.
  unfold isCanonicalTenantId, no_bar. intros H. simpl.
  refine (match_chars_all _ _ t _ H).
  assert (forall c, is_lower_hex c = true -> negb (eq_ascii c "|"%char) = true) as Hh.
  { intros x. unfold eq_ascii. destruct (Ascii.eqb_spec x "|"%char) as [->|]; [by vm_compute|done]. }
  assert (forall c, is_dash c = true -> negb (eq_ascii c "|"%char) = true) as Hd.
  { intros x. unfold is_dash, eq_ascii. by destruct (Ascii.eqb_spec x "-"%char) as [->|]. }
  unfold CANONICAL_TENANT_ID. repeat (apply Forall_app; split); try (by apply Forall_replicate);
    by repeat constructor.
Qed.

(** Every agent partition starts with its own prefix. *)
Lemma agent_partitions_prefix env l ps k :
  agent_partitions env l = inr ps -> k ∈ ps -> exists s, k = "a-" +:+ s.
Proof.
  intros E Hk. destruct (agent_partitions_inv env l ps k E Hk) as (c & o & i & _ & _ & _ & _ & Hb).
  unfold buildAgentPartitionKey in Hb. destruct (formatAgentLogBindingKey _ _); [done|]. injection Hb as <-. eauto.
Qed.

(** The partitions a tenant may read. *)
Definition scope_of (tenantId : string) (agentPartitions : list string) : list string :=
  ("t-" +:+ tenantId) :: reverse (remove_dups (reverse agentPartitions)).

Lemma elem_of_scope_of t ps k : k ∈ scope_of t ps <-> k = "t-" +:+ t \/ k ∈ ps.
Proof.
  unfold scope_of. rewrite elem_of_cons. by rewrite elem_of_reverse, elem_of_remove_dups, elem_of_reverse.
Qed.

Lemma resolveScope_inv config env us d header s s' scope :
  resolveScope config env us d header s = (s', inr scope) ->
  exists t ps cache, authorize config header = inr t /\ isCanonicalTenantId (Some (JStr t)) = true /\
    resolveAgentPartitions env (date_of us) d t s.(la_cache) = (cache, inr ps) /\
    forallb isSafePartitionKey ps = true /\ scope = join_scope (scope_of t ps) /\
    (length (scope_of t ps) <= MAX_PARTITIONS_PER_SCOPE)%nat.
Proof.
  unfold resolveScope. intros E. destruct (authorize config header) as [e|t]; [done|].
  destruct (tryConsume _ _ _ _ _) as [hits [e|[]]]; try done.
  destruct (resolveAgentPartitions _ _ _ _ _) as [cache [e|ps]] eqn:Er; [done|].
  destruct (forallb _ ps) eqn:Ef; [|done]. cbn [negb] in E. unfold deriveTenantPartitionKey in E.
  destruct (isCanonicalTenantId _) eqn:Ec; [|done]. fold (scope_of t ps) in E.
  destruct (Nat.ltb_spec MAX_PARTITIONS_PER_SCOPE (length (scope_of t ps))); [done|]. injection E as _ <-.
  exists t, ps, cache. split_and!; try done.
Qed.

(** A scope taken apart at its bars, and what keeps it from another tenant's: both of one
    database. *)
Lemma scope_apart env d t ps scope :
  Connectors_ok env d -> isCanonicalTenantId (Some (JStr t)) = true -> forallb isSafePartitionKey ps = true ->
  partitions_of env t d = inr ps -> scope = join_scope (scope_of t ps) ->
  split_bar "" scope = scope_of t ps /\ NoDup (scope_of t ps) /\
  (forall t' ps' k, t' <> t -> partitions_of env t' d = inr ps' -> k ∈ scope_of t ps -> k ∉ scope_of t' ps').
Proof.
  intros Hok Hcan Hsafe Hr ->. split_and!.
  - apply split_join; [done|]. apply Forall_forall. intros k [->|Hk]%elem_of_scope_of; [by apply canonical_no_bar|].
    rewrite forallb_forall in Hsafe. by apply safe_no_bar, Hsafe, list_elem_of_In.
  - apply NoDup_cons. split.
    + rewrite elem_of_reverse, elem_of_remove_dups, elem_of_reverse. intros Hk.
      by destruct (agent_partitions_prefix env _ _ _ Hr Hk) as [x Hx].
    + rewrite reverse_Permutation. apply NoDup_remove_dups.
  - intros t' ps' k Hne E [->|Hk]%elem_of_scope_of [Hk'|Hk']%elem_of_scope_of.
    + by injection Hk'.
    + by destruct (agent_partitions_prefix env _ _ _ E Hk') as [x Hx].
    + subst k. by destruct (agent_partitions_prefix env _ _ _ Hr Hk) as [x Hx].
    + apply Hne. by eapply partition_owner.
Qed.

(** ** Lookups in flight

    One process: requests begin lookups, read the datastore, store what they read, ask
    the cache, change connectors and invalidate, in any order.  A tenant is dirty from
    the commit that changes its partitions until the invalidation that follows it. *)

Record InFlight := mkInFlight {
  if_tenant : string;
  if_lookup : AgentLogPartitionLookup;
  if_read : option (list string)
}.

Record LogState := mkLogState {
  ls_db : DB;
  ls_cache : AgentLogPartitionCache;
  ls_flight : list InFlight;
  ls_dirty : list string
}.

Inductive log_step (env : ConnectorEnv) : LogState -> LogState -> Prop :=
| log_begin s now t :
    log_step env s (mkLogState s.(ls_db) s.(ls_cache)
      (mkInFlight t (cache_beginLookup now s.(ls_cache)) None :: s.(ls_flight)) s.(ls_dirty))
| log_read s t lookup ps l l' :
    s.(ls_flight) = l ++ mkInFlight t lookup None :: l' -> partitions_of env t s.(ls_db) = inr ps ->
    log_step env s (mkLogState s.(ls_db) s.(ls_cache) (l ++ mkInFlight t lookup (Some ps) :: l') s.(ls_dirty))
| log_store s now t lookup ps l l' cache' :
    s.(ls_flight) = l ++ mkInFlight t lookup (Some ps) :: l' ->
    cache_set now t ps lookup s.(ls_cache) = inr cache' ->
    log_step env s (mkLogState s.(ls_db) cache' (l ++ l') s.(ls_dirty))
| log_get s now t :
    log_step env s (mkLogState s.(ls_db) (cache_get now t s.(ls_cache)).1 s.(ls_flight) s.(ls_dirty))
| log_write s t d' :
    (forall t', t' <> t -> partitions_of env t' d' = partitions_of env t' s.(ls_db)) ->
    log_step env s (mkLogState d' s.(ls_cache) s.(ls_flight) (t :: s.(ls_dirty)))
| log_invalidate s t :
    log_step env s (mkLogState s.(ls_db) (cache_invalidate t s.(ls_cache)) s.(ls_flight)
      (filter (fun t' => t' <> t) s.(ls_dirty))).

Section Coherence.
Context (env : ConnectorEnv).

(** Entries, and reads that may still be stored, are current unless dirty. *)
Record Coherent (s : LogState) : Prop := {
  ch_entry : forall t e, assoc t s.(ls_cache).(pc_entries) = Some e -> t ∉ s.(ls_dirty) ->
             partitions_of env t s.(ls_db) = inr e.(ce_partitions);
  ch_flight : forall t lookup ps, mkInFlight t lookup (Some ps) ∈ s.(ls_flight) ->
              lookup.(lk_generation) = s.(ls_cache).(pc_generation) -> t ∉ s.(ls_dirty) ->
              partitions_of env t s.(ls_db) = inr ps;
  ch_generation : forall f, f ∈ s.(ls_flight) -> f.(if_lookup).(lk_generation) <= s.(ls_cache).(pc_generation);
  ch_keys : NoDup s.(ls_cache).(pc_entries).*1;
  ch_size : (length s.(ls_cache).(pc_entries) <= AGENT_PARTITION_CACHE_MAX_ENTRIES)%nat
}.

(** What is dropped from the cache takes nothing away. *)
Lemma coherent_drop s entries :
  Coherent s -> NoDup entries.*1 -> (length entries <= length s.(ls_cache).(pc_entries))%nat ->
  (forall t e, assoc t entries = Some e -> assoc t s.(ls_cache).(pc_entries) = Some e) ->
  Coherent (mkLogState s.(ls_db) (mkCache entries s.(ls_cache).(pc_generation)) s.(ls_flight) s.(ls_dirty)).
Proof. intros [He Hf Hg Hk Hs] Hnd Hl Hsub. split; simpl; [|done|done|done|lia]. intros t e H. by apply He, Hsub. Qed.

Lemma cache_get_drop now t c :
  NoDup c.(pc_entries).*1 ->
  exists entries, (cache_get now t c).1 = mkCache entries c.(pc_generation) /\ NoDup entries.*1 /\
    (length entries <= length c.(pc_entries))%nat /\
    (forall k e, assoc k entries = Some e -> assoc k c.(pc_entries) = Some e).
Proof.
  intros Hk. unfold cache_get. destruct (assoc t (pc_entries c)) as [e|].
  2:{ exists c.(pc_entries). by destruct c. }
  destruct (ce_expiresAt e <=? now); [|exists c.(pc_entries); by destruct c].
  exists (dissoc t c.(pc_entries)). split_and!; [done|by apply NoDup_dissoc|apply dissoc_length|].
  intros k e' H. by apply assoc_dissoc_some in H as [_ H].
Qed.

Lemma log_step_coherent s s' : log_step env s s' -> Coherent s -> Coherent s'.
Proof.
  intros Hstep Hc. pose proof Hc as [He Hf Hg Hk Hs].
  destruct Hstep as [s now t|s t lookup ps l l' El Ep|s now t lookup ps l l' cache' El Ec|s now t|s t d' Ed|s t].
  - split; simpl; [done| | |done|done].
    + intros t' lk ps [[=]|H]%elem_of_cons. by apply Hf.
    + intros f [->|H]%elem_of_cons; [simpl; lia|by apply Hg].
  - split; simpl; [done| | |done|done].
    + intros t' lk ps' [H|[[= -> -> ->]|H]%elem_of_cons]%elem_of_app Hgen Hd; [|done|];
        eapply Hf; try done; rewrite El; set_solver.
    + intros f [H|[->|H]%elem_of_cons]%elem_of_app; [apply Hg; rewrite El; set_solver| |apply Hg; rewrite El; set_solver].
      apply (Hg (mkInFlight t lookup None)). rewrite El. set_solver.
  - destruct (cache_set_inr _ _ _ _ _ _ Ec Hk Hs) as (Hg' & Hk' & Hs' & He').
    split; simpl; [| | |done|done].
    + intros t' e [H|(-> & -> & Hgen)]%He' Hd; [by apply He|]. simpl. eapply Hf; [|done|done]. rewrite El. set_solver.
    + intros t' lk ps' Hin Hgen. rewrite Hg' in Hgen. eapply Hf; [|done]. rewrite El. set_solver.
    + intros f Hin. rewrite Hg'. apply Hg. rewrite El. set_solver.
  - destruct (cache_get_drop now t s.(ls_cache) Hk) as (entries & -> & Hnd & Hl & Hsub). by apply coherent_drop.
  - split; simpl; [| |done|done|done].
    + intros t' e H [Hn Hd]%not_elem_of_cons. rewrite Ed by done. by apply He.
    + intros t' lk ps H Hgen [Hn Hd]%not_elem_of_cons. rewrite Ed by done. by eapply Hf.
  - split; simpl.
    + intros t' e [Hn H]%assoc_dissoc_some Hd. apply He; [done|]. intros Hin. apply Hd, list_elem_of_filter. done.
    + intros t' lk ps H Hgen. apply Hg in H. simpl in H. lia.
    + intros f H. apply Hg in H. lia.
    + by apply NoDup_dissoc.
    + pose proof (dissoc_length t s.(ls_cache).(pc_entries)). lia.
Qed.
End Coherence.

(** C26: the cache agrees with the database.  However lookups, stores, invalidations and
    changes of connectors interleave in a process, what the cache serves for a tenant
    is what the tenant's connectors say now, except between the commit of a change and
    the invalidation that follows it; and the cache never has more than its bound of
    entries. *)
Theorem log_cache_coherent env d s now t ps :
  rtc (log_step env) (mkLogState d empty_cache [] []) s ->
  (length s.(ls_cache).(pc_entries) <= AGENT_PARTITION_CACHE_MAX_ENTRIES)%nat /\
  ((cache_get now t s.(ls_cache)).2 = Some ps -> t ∉ s.(ls_dirty) -> partitions_of env t s.(ls_db) = inr ps).
Proof.
  intros Hrun. assert (Coherent env s) as [He _ _ _ Hs].
  { revert Hrun. apply (rtc_ind_r (Coherent env)).
    - split; simpl; [done|..]; [by intros ? ? ? ?%elem_of_nil|by intros ? ?%elem_of_nil|apply NoDup_nil_2|lia].
    - intros s1 s2 _ Hstep. by apply log_step_coherent. }
  split; [done|]. unfold cache_get. destruct (assoc t _) as [e|] eqn:Ea; [|done].
  destruct (ce_expiresAt e <=? now); [done|]. intros [= <-] Hd. by apply He.
Qed.

(** ** The scopes a process hands out

    [history us] is the committed database at the instant [us], in microseconds: every
    replica writes to it, and this process is told of none of their changes.  It decides
    requests and is told to invalidate tenants, in any order. *)

Section Process.
Context (config : LogConfig) (env : ConnectorEnv) (history : Z -> DB).

Inductive log_process : Z -> LogAccess -> Prop :=
| lp_start us : log_process us (mkLogAccess empty_cache [])
| lp_check us us' s header :
    log_process us s -> us <= us' -> log_process us' (resolveScope config env us' (history us') header s).1
| lp_invalidate us us' s t :
    log_process us s -> us <= us' -> log_process us' (mkLogAccess (cache_invalidate t s.(la_cache)) s.(la_hits)).

(** An entry is what the database said at an earlier instant, and it lasts five minutes
    from there. *)
Definition remembered (us : Z) (c : AgentLogPartitionCache) : Prop :=
  NoDup c.(pc_entries).*1 /\ (length c.(pc_entries) <= AGENT_PARTITION_CACHE_MAX_ENTRIES)%nat /\
  forall t e, assoc t c.(pc_entries) = Some e -> exists moment, moment <= us /\
    e.(ce_expiresAt) = date_of moment + AGENT_PARTITION_CACHE_TTL_MS /\
    partitions_of env t (history moment) = inr e.(ce_partitions).

Lemma remembered_later us us' c : us <= us' -> remembered us c -> remembered us' c.
Proof.
  intros Hle (H1 & H2 & H3). split_and!; [done..|]. intros t e He. destruct (H3 t e He) as (m & ? & ?).
  exists m. split; [lia|done].
Qed.

Lemma remembered_drop us c entries g :
  remembered us c -> NoDup entries.*1 -> (length entries <= length c.(pc_entries))%nat ->
  (forall t e, assoc t entries = Some e -> assoc t c.(pc_entries) = Some e) -> remembered us (mkCache entries g).
Proof. intros (H1 & H2 & H3) Hnd Hl Hsub. split_and!; simpl; [done|lia|]. intros t e He. by apply H3, Hsub. Qed.

(** What a lookup answers, and what it leaves in the cache. *)
Lemma resolve_remembered us t c c' r :
  remembered us c -> resolveAgentPartitions env (date_of us) (history us) t c = (c', r) ->
  remembered us c' /\ forall ps, r = inr ps -> exists moment, moment <= us /\
    date_of us < date_of moment + AGENT_PARTITION_CACHE_TTL_MS /\ partitions_of env t (history moment) = inr ps.
Proof.
  intros Hc E. pose proof Hc as (Hk & Hs & He). unfold resolveAgentPartitions in E.
  destruct (cache_get_drop (date_of us) t c Hk) as (entries & Hfst & Hnd & Hl & Hsub).
  assert (remembered us (cache_get (date_of us) t c).1) as Hc1 by (rewrite Hfst; by apply (remembered_drop us c)).
  destruct (cache_get (date_of us) t c) as [c1 [cached|]] eqn:Eg.
  { injection E as <- <-. split; [done|]. intros ps [= <-]. unfold cache_get in Eg.
    destruct (assoc t (pc_entries c)) as [e|] eqn:Ea; [|done].
    destruct (Z.leb_spec (ce_expiresAt e) (date_of us)); [done|]. injection Eg as _ <-.
    destruct (He t e Ea) as (m & Hm & Hx & Hp). exists m. split_and!; [done|lia|done]. }
  simpl in Hc1. destruct (partitions_of env t (history us)) as [e|ps] eqn:Ep; [injection E as <- <-; by split|].
  assert (forall ps', inr ps = inr (A:=Exn) ps' -> exists moment, moment <= us /\
    date_of us < date_of moment + AGENT_PARTITION_CACHE_TTL_MS /\ partitions_of env t (history moment) = inr ps') as Hnow.
  { intros ps' [= <-]. exists us. split_and!; [lia| |done]. unfold AGENT_PARTITION_CACHE_TTL_MS. lia. }
  destruct (cache_set _ _ _ _ _) as [e|c2] eqn:Es; [injection E as <- <-; by split|].
  injection E as <- <-. split; [|done]. destruct Hc1 as (Hk1 & Hs1 & He1).
  destruct (cache_set_inr _ _ _ _ _ _ Es Hk1 Hs1) as (_ & Hk2 & Hs2 & He2). split_and!; [done..|].
  intros k e [H|(-> & -> & _)]%He2; [by apply He1|]. exists us. by split_and!.
Qed.

Lemma log_process_remembered us s : log_process us s -> remembered us s.(la_cache).
Proof.
  induction 1 as [us|us us' s header _ IH Hle|us us' s t _ IH Hle].
  - split_and!; simpl; [apply NoDup_nil_2|lia|done].
  - apply (remembered_later _ us') in IH; [|done]. unfold resolveScope. destruct (authorize config header) as [e|t]; [done|].
    destruct (tryConsume _ _ _ _ _) as [hits [e|[]]]; try done.
    destruct (resolveAgentPartitions _ _ _ _ _) as [cache r] eqn:Er.
    destruct (resolve_remembered _ _ _ _ _ IH Er) as [H _]. destruct r; [done|]. cbv zeta.
    destruct (negb _); [done|]. destruct (deriveTenantPartitionKey t); [done|]. by destruct (_ <? _)%nat.
  - apply (remembered_later _ us') in IH; [|done]. simpl. apply (remembered_drop us' s.(la_cache)); [done| |apply dissoc_length|].
    + apply NoDup_dissoc, IH.
    + intros k e H. by apply assoc_dissoc_some in H as [_ H].
Qed.
End Process.

(** C29: a scope gives access to the logs of one tenant.  Take a process that has decided
    any requests and been told of any changes, on a database whose connectors other
    replicas change as well.  When it allows a request, the header it answers, taken
    apart at its bars, is the partition of the token's tenant followed by those of the
    connectors that were active for that tenant at some instant of the last five minutes,
    each once and at most ten in all; and at that instant none of them was in the scope
    of any other tenant, whatever connectors that tenant had.  A change that the process
    was not told of may stay unseen for those five minutes, and no longer. *)
Theorem log_scope_isolated config env history before us header s s' scope :
  (forall moment, Connectors_ok env (history moment)) ->
  log_process config env history before s -> before <= us ->
  resolveScope config env us (history us) header s = (s', inr scope) ->
  exists t ps moment, authorize config header = inr t /\
    moment <= us /\ date_of us < date_of moment + 300000 /\
    partitions_of env t (history moment) = inr ps /\
    split_bar "" scope = scope_of t ps /\ NoDup (scope_of t ps) /\ (length (scope_of t ps) <= 10)%nat /\
    (forall t' ps' k, t' <> t -> partitions_of env t' (history moment) = inr ps' ->
       k ∈ scope_of t ps -> k ∉ scope_of t' ps').
Proof.
  intros Hok Hrun Hle (t & ps & cache & Ha & Hcan & Hr & Hsafe & Hscope & Hlen)%resolveScope_inv.
  apply log_process_remembered, (remembered_later _ _ _ us) in Hrun; [|done].
  apply resolve_remembered in Hr as [_ Hps]; [|done]. destruct (Hps ps eq_refl) as (m & Hm & Hlive & Hp).
  exists t, ps, m. destruct (scope_apart env (history m) t ps scope (Hok m) Hcan Hsafe Hp Hscope) as (H1 & H2 & H3).
  by split_and!.
Qed.

(** ** A tenant with one agent *)

Definition log_tenant : string := "11111111-1111-4111-8111-111111111111".

Definition log_events : list ConnectorEvent :=
  [Serve (ReqCreate log_tenant (mkCreateConnector TRACTION "https://agent" quoted_secret)
            (mkAuth "u" user_token (Some log_tenant) [] ["tenants:admin"]))].

Definition log_db : DB :=
  (run_events sample_env log_events
     (world_of (set_tenants {[ log_tenant := sample_tenant log_tenant None ]} empty_db) 0)).2.(committed).

Lemma log_db_ok : Connectors_ok sample_env log_db.
Proof.
  apply (run_events_ok sample_env log_events).
  - apply sample_env_laws.
  - intros keys t m [= <-]. apply sample_manager_laws, _.
  - split; [|done]. apply (bool_decide_unpack _). vm_compute. exact I.
  - split; by intros ?.
Qed.

Definition log_config : LogConfig :=
  mkLogConfig (Some "https://logs") ["https://logs"] Some
    (fun _ _ => inr [("sub", JStr "u"); ("exp", JNum (num_of_Z 1)); ("iat", JNum (num_of_Z 0));
                     ("tenant_id", JStr log_tenant); ("scope", JStr "openid logs:read")]).

(** The second request is served from the cache, four minutes after the first: its scope
    still has the agent of a connector that another replica has removed meanwhile. *)
Lemma log_scope_isolated_witness :
  let history us := if us <? 200000000 then log_db else set_connectors ∅ log_db in
  let s := (resolveScope log_config sample_env 0 (history 0) (Some "Bearer x") (mkLogAccess empty_cache [])).1 in
  let scope := "t-11111111-1111-4111-8111-111111111111|a-traction-3fa85f64-5717-4562-b3fc-2c963f66afa6" in
  (resolveScope log_config sample_env 240000000 (history 240000000) (Some "Bearer x") s).2 = inr scope /\
  exists ps moment, date_of 240000000 < date_of moment + 300000 /\
    partitions_of sample_env log_tenant (history moment) = inr ps /\ split_bar "" scope = scope_of log_tenant ps.
Proof.
  intros history s scope.
  assert ((resolveScope log_config sample_env 240000000 (history 240000000) (Some "Bearer x") s).2 = inr scope) as E
    by (vm_compute; reflexivity).
  split; [exact E|].
  destruct (resolveScope log_config sample_env 240000000 (history 240000000) (Some "Bearer x") s) as [s' r] eqn:Er.
  simpl in E. subst r.
  destruct (log_scope_isolated log_config sample_env history 0 240000000 (Some "Bearer x") s s' scope)
    as (t & ps & m & Ha & _ & Hm & Hp & Hs & _).
  - intros m. unfold history. destruct (m <? 200000000); [exact log_db_ok|]. split; simpl; by intros ?.
  - apply (lp_check _ _ _ 0 0 (mkLogAccess empty_cache []) (Some "Bearer x")); [apply lp_start|lia].
  - lia.
  - exact Er.
  - assert (authorize log_config (Some "Bearer x") = inr log_tenant) as Ha' by (vm_compute; reflexivity).
    rewrite Ha' in Ha. assert (log_tenant = t) as <- by congruence. exists ps, m. split; [exact Hm|]. by split.
Defined.

(** A tenant without connectors has no agent partitions. *)
Lemma foreign_partitions env t t' d :
  t' <> t -> Forall (fun c => c.(con_tenantId) = t) (rows d.(db_connectors)) -> partitions_of env t' d = inr [].
Proof.
  intros Hn HF. unfold partitions_of. destruct (select _ _) as [|c l] eqn:E; [done|].
  assert (c ∈ select (fun c => String.eqb c.(con_tenantId) t') d.(db_connectors)) as Hc by (rewrite E; left).
  apply list_elem_of_filter in Hc as [Ht%String.eqb_eq Hc]. rewrite Forall_forall in HF. apply HF in Hc. congruence.
Qed.

(** A lookup that read before the connector was created stores nothing after the
    invalidation; the next one serves the new partition. *)
Lemma log_cache_coherent_witness :
  let d0 := set_tenants {[ log_tenant := sample_tenant log_tenant None ]} empty_db in
  let s := mkLogState log_db
             (mkCache [(log_tenant, mkCacheEntry ["a-traction-3fa85f64-5717-4562-b3fc-2c963f66afa6"] 300020)] 1) [] [] in
  rtc (log_step sample_env) (mkLogState d0 empty_cache [] []) s /\
  partitions_of sample_env log_tenant log_db = inr ["a-traction-3fa85f64-5717-4562-b3fc-2c963f66afa6"].
Proof.
  intros d0 s. set (ps := ["a-traction-3fa85f64-5717-4562-b3fc-2c963f66afa6"]) in *.
  assert (rtc (log_step sample_env) (mkLogState d0 empty_cache [] []) s) as Hrun.
  { eapply rtc_l; [apply (log_begin _ _ 10 log_tenant)|]. cbn [ls_db ls_cache ls_flight ls_dirty].
    eapply rtc_l; [apply (log_read _ _ log_tenant (mkLookup 0 10) [] [] []); [reflexivity|vm_compute; reflexivity]|].
    eapply rtc_l; [apply (log_write _ _ log_tenant log_db)|].
    { intros t' Hn. simpl. rewrite !(foreign_partitions sample_env log_tenant t') by (done || (vm_compute; repeat constructor)). done. }
    eapply rtc_l; [apply (log_invalidate _ _ log_tenant)|].
    eapply rtc_l; [eapply (log_store _ _ 15 log_tenant (mkLookup 0 10) [] [] []); [reflexivity|reflexivity]|].
    eapply rtc_l; [apply (log_begin _ _ 20 log_tenant)|].
    eapply rtc_l; [apply (log_read _ _ log_tenant (mkLookup 1 20) ps [] []); [reflexivity|vm_compute; reflexivity]|].
    eapply rtc_l; [eapply (log_store _ _ 25 log_tenant (mkLookup 1 20) ps [] []); [reflexivity|reflexivity]|].
    apply rtc_refl. }
  split; [exact Hrun|].
  apply (log_cache_coherent sample_env d0 s 30 log_tenant ps Hrun); [vm_compute; reflexivity|apply not_elem_of_nil].
Defined.
