(* ===== verification/TokenValidation.v ===== *)
(** * Bearer tokens

    Of libs/auth: the JWT validation service, the cache of signing keys, JwtGuard and
    the authentication challenge.  Parameters are the fetch of the key set, with what
    other requests of the process do to the cache meanwhile, and jose: the reading of a
    token's header, and the verification of a token against a key, an issuer, an
    audience and the clock.  [JoseLaws] says what jose documents of it. *)

From Stdlib Require Import Ascii ZArith Lia.
From stdpp Require Import base decidable strings sets gmap list list_relations pretty.
From S2P Require Import Prelude Js OperationTtl JsText Redaction Entities StateMapping Db Auth.
From S2P Require Import LogAccess.

Local Open Scope Z_scope.

(** ** Failures *)

(** AuthenticationRequiredException with its error and description,
    JwksKeyNotFoundError, and any other error with its [code] and message. *)
Inductive AuthFailure :=
| AuthenticationRequired (error description : string)
| JwksKeyNotFound (kid : string)
| OtherFailure (code : option string) (message : string).

Definition failure_message (e : AuthFailure) : string :=
  match e with
  | AuthenticationRequired _ _ => "Bearer token is missing, expired, or invalid"
  | JwksKeyNotFound kid => "Signing key " +:+ (String JsonText.QUOTE kid +:+ (String JsonText.QUOTE "" +:+ " not found in JWKS"))
  | OtherFailure _ m => m
  end.

Definition invalid_token {A} (description : string) : AuthFailure + A :=
  inl (AuthenticationRequired "invalid_token" description).

(** *** The challenge *)

(** [replace(/[\r\n]/g, '')], then the escapes of a quoted string *)
Fixpoint escapeWwwAuthenticateQuotedString (value : string) : string :=
  match value with
  | EmptyString => EmptyString
  | String c r =>
      let rest := escapeWwwAuthenticateQuotedString r in
      if eq_ascii c (ascii_of_N 13) || eq_ascii c (ascii_of_N 10) then rest
      else if eq_ascii c JsonText.BACKSLASH || eq_ascii c JsonText.QUOTE then String JsonText.BACKSLASH (String c rest)
      else String c rest
  end.

Definition in_quotes (s : string) : string := String JsonText.QUOTE (s +:+ String JsonText.QUOTE "").

Definition getWwwAuthenticateHeader (error description : string) : string :=
  "Bearer error=" +:+ (in_quotes (escapeWwwAuthenticateQuotedString error) +:+
    (", error_description=" +:+ in_quotes (escapeWwwAuthenticateQuotedString description))).

(** ** State *)

Definition KeySet : Type := gmap string json.

Record JwksCacheEntry := mkJwks {
  jk_keysByKid : KeySet;
  jk_fetchedAtMs : Z
}.

(** The cache, the clock in milliseconds, and, to reason about them, the key sets that
    were served to this process with the time they arrived. *)
Record JwtState := mkJwtState {
  jt_cache : option JwksCacheEntry;
  jt_now : Z;
  jt_served : list (Z * json)
}.

Definition Auth (A : Type) : Type := JwtState -> JwtState * (AuthFailure + A).

#[export] Instance auth_ret : MRet Auth := fun _ a s => (s, inr a).
#[export] Instance auth_bind : MBind Auth := fun _ _ k m s =>
  match m s with (s', inr a) => k a s' | (s', inl e) => (s', inl e) end.

Definition auth_fail {A} (e : AuthFailure) : Auth A := fun s => (s, inl e).
Definition auth_of {A} (r : AuthFailure + A) : Auth A := fun s => (s, r).
Definition auth_catch {A} (m : Auth A) (h : AuthFailure -> Auth A) : Auth A := fun s =>
  match m s with (s', inl e) => h e s' | r => r end.

(** ** Parameters *)

Record JwtEnv := mkJwtEnv {
  je_issuer : string;
  je_audience : string;
  je_jwksUri : option string;                             (* JWT_JWKS_URI *)
  je_ttlSeconds : Z;                                      (* JWT_JWKS_CACHE_TTL_SECONDS *)
  je_fetch : string -> Auth (Z * option json);            (* status and, if it is JSON, the body *)
  je_header : string -> AuthFailure + list (string * json);
  je_verify : string -> json -> string -> string -> Z -> AuthFailure + list (string * json)
}.

Section Validation.
Context (env : JwtEnv).

(** ** JwksCacheService *)

(** [s.replace(/\/+$/, '')] *)
Fixpoint strip_slashes (s : string) : string :=
  match s with
  | EmptyString => EmptyString
  | String c r =>
      match strip_slashes r with
      | EmptyString => if eq_ascii c "/" then EmptyString else String c EmptyString
      | t => String c t
      end
  end.

Definition getJwksUri : string :=
  match env.(je_jwksUri) with
  | Some ((String _ _) as configured) => strip_slashes configured
  | _ => strip_slashes env.(je_issuer) +:+ "/jwks"
  end.

Definition isExpired (now fetchedAtMs : Z) : bool := env.(je_ttlSeconds) * 1000 <=? now - fetchedAtMs.

Definition getCachedKey (kid : string) : Auth (option json) := fun s =>
  (s, inr (match s.(jt_cache) with
           | Some c => if isExpired s.(jt_now) c.(jk_fetchedAtMs) then None else c.(jk_keysByKid) !! kid
           | None => None
           end)).

(** The loop over [body.keys]; the last key of an identifier stays. *)
Fixpoint keys_by_kid (keys : list json) (m : KeySet) : AuthFailure + KeySet :=
  match keys with
  | [] => inr m
  | JNull :: _ => inl (OtherFailure None "Cannot read properties of null (reading 'kid')")
  | key :: rest =>
      match get_prop "kid" (Some key) with
      | Some (JStr ((String _ _) as kid)) => keys_by_kid rest (<[kid := key]> m)
      | _ => keys_by_kid rest m
      end
  end.

Definition document_keys (body : json) : AuthFailure + KeySet :=
  match body with
  | JNull => inl (OtherFailure None "Cannot read properties of null (reading 'keys')")
  | _ => match get_prop "keys" (Some body) with
         | Some (JArr keys) => keys_by_kid keys ∅
         | _ => inl (OtherFailure None "JWKS response is missing a keys array")
         end
  end.

Definition store_keys (body : json) (m : KeySet) : Auth unit := fun s =>
  (mkJwtState (Some (mkJwks m s.(jt_now))) s.(jt_now) (s.(jt_served) ++ [(s.(jt_now), body)]), inr tt).

Definition refresh : Auth unit :=
  response ← env.(je_fetch) getJwksUri;
  let '(status, body) := response in
  if negb ((200 <=? status) && (status <=? 299))
  then auth_fail (OtherFailure None ("JWKS fetch failed with status " +:+ (pretty status +:+ (" from " +:+ getJwksUri))))
  else match body with
       | None => auth_fail (OtherFailure None "Unexpected end of JSON input")
       | Some b => m ← auth_of (document_keys b); store_keys b m
       end.

Definition clearCache : Auth unit := fun s => (mkJwtState None s.(jt_now) s.(jt_served), inr tt).

Definition resolveKey (kid : string) : Auth json :=
  cached ← getCachedKey kid;
  match cached with
  | Some key => mret key
  | None =>
      _ ← refresh;
      refreshed ← getCachedKey kid;
      match refreshed with
      | Some key => mret key
      | None => auth_fail (JwksKeyNotFound kid)
      end
  end.

Definition resolveKeyWithRefresh (kid : string) : Auth json :=
  auth_catch (resolveKey kid)
    (fun e => match e with
              | JwksKeyNotFound _ => auth_fail e
              | _ => _ ← refresh; resolveKey kid
              end).

(** ** Verification *)

Definition now_of : Auth Z := fun s => (s, inr s.(jt_now)).

(** jwtVerify with the key resolver of the source, then the cardinality of [aud]. *)
Definition verifyAccessToken (token issuer audience : string) : Auth (list (string * json)) :=
  header ← auth_of (env.(je_header) token);
  match assoc "alg" header with
  | Some (JStr alg) =>
      if negb (String.eqb alg "RS256") then auth_of (invalid_token "Unsupported signing algorithm")
      else match assoc "kid" header with
           | Some (JStr ((String _ _) as kid)) =>
               jwk ← resolveKeyWithRefresh kid;
               now ← now_of;
               payload ← auth_of (env.(je_verify) token jwk issuer audience now);
               match assoc "aud" payload with
               | Some (JArr l) =>
                   if negb (length l =? 1)%nat then auth_of (invalid_token "Token must carry exactly one audience")
                   else mret payload
               | _ => mret payload
               end
           | _ => auth_of (invalid_token "Token header missing kid")
           end
  | _ => auth_of (invalid_token "Unsupported signing algorithm")
  end.

(** *** The Authorization header *)

Definition extractBearerToken (authorizationHeader : option string) : AuthFailure + string :=
  match authorizationHeader with
  | Some ((String _ _) as h) =>
      match words "" (js_trim h) with
      | [scheme; token] =>
          if String.eqb (js_lower scheme) "bearer" then inr token
          else inl (AuthenticationRequired "invalid_request" "Authorization header must use Bearer scheme")
      | _ => inl (AuthenticationRequired "invalid_request" "Authorization header must use Bearer scheme")
      end
  | _ => inl (AuthenticationRequired "invalid_request" "Authorization header is required")
  end.

Definition mapJoseError (error : AuthFailure) : AuthFailure :=
  match error with
  | AuthenticationRequired _ _ => error
  | _ =>
      let expired := match error with
                     | OtherFailure (Some code) _ => String.eqb code "ERR_JWT_EXPIRED"
                     | _ => false
                     end in
      let message := failure_message error in
      let lower := js_lower message in
      if expired then AuthenticationRequired "invalid_token" "Token has expired"
      else if occursb "signature" lower || occursb "invalid" lower || occursb "jws" lower
      then AuthenticationRequired "invalid_token" message
      else AuthenticationRequired "invalid_token" "Token validation failed"
  end.

Definition verifyBearer (authorizationHeader : option string) (issuer audience : string)
    : Auth (list (string * json)) :=
  token ← auth_of (extractBearerToken authorizationHeader);
  auth_catch (verifyAccessToken token issuer audience) (fun e => auth_fail (mapJoseError e)).

Definition verifyBearerForAudience (authorizationHeader : option string) (audience : string)
    : Auth (list (string * json)) :=
  verifyBearer authorizationHeader env.(je_issuer) audience.

(** ** Normalisation *)

(** The claims of a verified token, as attached to the request. *)
Record AccessContext := mkAccess {
  ac_auth : AuthContext;                   (* sub, token type, tenant, roles and scopes *)
  ac_externalUserId : option string;
  ac_clientId : option string;
  ac_scope : string;
  ac_iss : string;
  ac_aud : json;
  ac_exp : jsnum;
  ac_iat : jsnum;
  ac_jti : option string
}.

Definition one_char (set : string) (c : ascii) : bool := char_in set (lower_ascii c).
Definition hex_char (c : ascii) : bool := digit_char c || in_range 97 102 (lower_ascii c).

(** [/^[0-9a-f]{8}-[0-9a-f]{4}-[1-8][0-9a-f]{3}-[89ab][0-9a-f]{3}-[0-9a-f]{12}$/i] *)
Definition UUID_PATTERN : list (ascii -> bool) :=
  let dash := [eq_ascii "-"%char] in
  replicate 8 hex_char ++ dash ++ replicate 4 hex_char ++ dash ++ [one_char "12345678"] ++ replicate 3 hex_char ++
  dash ++ [one_char "89ab"] ++ replicate 3 hex_char ++ dash ++ replicate 12 hex_char.

Definition CLIENT_SUB_PREFIX : string := "client:".

Definition resolveTokenType (sub : string) : AuthTokenType :=
  if String.prefix CLIENT_SUB_PREFIX sub then client_token
  else if match_chars UUID_PATTERN sub then user_token
  else client_token.

Definition deriveClientIdFromSub (sub : string) : string := default sub (JsonText.strip CLIENT_SUB_PREFIX sub).

Definition readOptionalString (value : option json) : option string :=
  match value with Some (JStr ((String _ _) as s)) => Some s | _ => None end.

Definition text_entries (l : list json) : list string := omap (fun v => match v with JStr s => Some s | _ => None end) l.

Definition readScope (value : option json) : string :=
  match value with
  | Some (JStr s) => s
  | Some (JArr l) => String.concat " " (text_entries l)
  | _ => ""
  end.

Definition readRoles (value : option json) : list string :=
  match value with Some (JArr l) => text_entries l | _ => [] end.

(** [String(value ?? '')] and [Number(value ?? 0)] *)
Definition text_claim (value : option json) : string :=
  match value with None | Some JNull => "" | Some v => JsValue.to_string v end.

Definition number_claim (value : option json) : jsnum :=
  match value with None | Some JNull => num_of_Z 0 | Some v => JsValue.to_number v end.

Definition normalizeAuthPayload (payload : list (string * json)) : AuthFailure + AccessContext :=
  let sub := text_claim (assoc "sub" payload) in
  if String.eqb sub "" then invalid_token "Token is missing sub claim"
  else
    let explicitClientId := readOptionalString (assoc "client_id" payload) in
    let tokenType := resolveTokenType sub in
    let clientId := match explicitClientId, tokenType with
                    | Some c, _ => Some c
                    | None, client_token => Some (deriveClientIdFromSub sub)
                    | None, user_token => None
                    end in
    let scope := readScope (assoc "scope" payload) in
    inr (mkAccess (mkAuth sub tokenType (readOptionalString (assoc "tenant_id" payload))
                     (readRoles (assoc "roles" payload)) (words "" scope))
           (readOptionalString (assoc "external_user_id" payload)) clientId scope
           (text_claim (assoc "iss" payload))
           (match assoc "aud" payload with None | Some JNull => JStr "" | Some v => v end)
           (number_claim (assoc "exp" payload)) (number_claim (assoc "iat" payload))
           (readOptionalString (assoc "jti" payload))).

Definition validateAuthorizationHeader (authorizationHeader : option string) : Auth AccessContext :=
  payload ← verifyBearer authorizationHeader env.(je_issuer) env.(je_audience);
  auth_of (normalizeAuthPayload payload).

(** ** JwtGuard *)

(** What is attached: [auth], and [user] or [client]. *)
Record AuthenticatedRequest := mkRequest {
  rq_auth : AccessContext;
  rq_user : option AccessContext;
  rq_client : option AccessContext
}.

(** A header that was sent several times is an array: its first value is used. *)
Definition jwtGuard_canActivate (authorizationHeader : list string) : Auth AuthenticatedRequest :=
  auth_catch
    (auth ← validateAuthorizationHeader (head authorizationHeader);
     mret (match auth.(ac_auth).(au_tokenType) with
           | user_token => mkRequest auth (Some auth) None
           | client_token => mkRequest auth None (Some auth)
           end))
    (fun e => match e with
              | AuthenticationRequired _ _ => auth_fail e
              | _ => auth_of (invalid_token "Token validation failed")
              end).
End Validation.

(** ** What is relied on *)

Definition audience_member (audience : string) (aud : option json) : Prop :=
  aud = Some (JStr audience) \/ exists l, aud = Some (JArr l) /\ JStr audience ∈ l.

(** Which keys signed a token, and the claims it carries.  A token that verifies was
    signed with the key, is of the issuer and for the audience, and has not expired. *)
Class JoseLaws (env : JwtEnv) (signed : string -> json -> Prop) (claims : string -> list (string * json)) : Prop := {
  jl_verify token jwk issuer audience now payload :
    env.(je_verify) token jwk issuer audience now = inr payload ->
    payload = claims token /\ signed token jwk /\ assoc "iss" payload = Some (JStr issuer) /\
    audience_member audience (assoc "aud" payload) /\
    (forall v, assoc "exp" payload = Some v -> exists n, v = JNum n /\ num_gt n (now / 1000) = true)
}.

(** The cache holds the keys of a document that was served when it says. *)
Definition cache_ok (s : JwtState) : Prop :=
  forall c, s.(jt_cache) = Some c ->
  exists body, (c.(jk_fetchedAtMs), body) ∈ s.(jt_served) /\ document_keys body = inr c.(jk_keysByKid).

(** Time goes on and documents stay served. *)
Record later (s s' : JwtState) : Prop := {
  lt_now : s.(jt_now) <= s'.(jt_now);
  lt_served : s.(jt_served) ⊆ s'.(jt_served);
  lt_ok : cache_ok s -> cache_ok s'
}.

#[export] Instance later_preorder : PreOrder later.
Proof.
  split; [by intros s; split|]. intros a b c [H1 H2 H3] [H4 H5 H6].
  split; [lia|set_solver|auto].
Qed.

(** Other requests, while the key set is fetched, only do the same to the cache. *)
Class FetchLaws (env : JwtEnv) : Prop := { fl_fetch uri s : later s (env.(je_fetch) uri s).1 }.

(** A key set served within the lifetime of the cache has the key. *)
Definition served_key (env : JwtEnv) (kid : string) (jwk : json) (s : JwtState) : Prop :=
  exists t body m, (t, body) ∈ s.(jt_served) /\ document_keys body = inr m /\ m !! kid = Some jwk /\
    s.(jt_now) - t < env.(je_ttlSeconds) * 1000.

(** ** The cache *)
Section Cache.
Context (env : JwtEnv) `{!FetchLaws env}.

Lemma later_bind {A B} (m : Auth A) (k : A -> Auth B) s :
  later s (m s).1 -> (forall a, later (m s).1 (k a (m s).1).1) -> later s ((m ≫= k) s).1.
Proof.
  unfold mbind, auth_bind. destruct (m s) as [s1 [e|a]]; intros H1 H2; [done|]. etrans; [exact H1|apply H2].
Qed.

Lemma later_store body m s : document_keys body = inr m -> later s (store_keys body m s).1.
Proof.
  intros Hb. split; simpl; [lia|set_solver|]. intros _ c [= <-]. exists body. split; [|done].
  simpl. set_solver.
Qed.

Lemma later_refresh s : later s (refresh env s).1.
Proof.
  unfold refresh. apply later_bind; [apply fl_fetch|]. intros [status [b|]]; [|by destruct (negb _)].
  destruct (negb _); [done|]. unfold mbind, auth_bind, auth_of.
  destruct (document_keys b) as [e|m] eqn:E; [done|]. by apply later_store.
Qed.

Lemma later_resolveKey kid s : later s (resolveKey env kid s).1.
Proof.
  unfold resolveKey. apply later_bind; [done|]. intros [k|]; [done|].
  apply later_bind; [apply later_refresh|]. intros []. apply later_bind; [done|]. by intros [k|].
Qed.

Lemma later_resolveWithRefresh kid s : later s (resolveKeyWithRefresh env kid s).1.
Proof.
  unfold resolveKeyWithRefresh, auth_catch. pose proof (later_resolveKey kid s) as H.
  destruct (resolveKey env kid s) as [s1 [e|k]]; simpl in H; [|done].
  etrans; [exact H|]. destruct e; try done; (apply later_bind; [apply later_refresh|intros; apply later_resolveKey]).
Qed.

Lemma getCachedKey_served kid s k :
  cache_ok s -> getCachedKey env kid s = (s, inr (Some k)) -> served_key env kid k s.
Proof.
  intros Hok H. injection H as H. destruct (jt_cache s) as [c|] eqn:E; [|done].
  destruct (isExpired env _ _) eqn:Ee; [done|]. destruct (Hok c E) as (body & Hin & Hb).
  exists (jk_fetchedAtMs c), body, (jk_keysByKid c). split_and!; [done..|]. unfold isExpired in Ee. lia.
Qed.

Lemma resolveKey_served kid s s' k :
  cache_ok s -> resolveKey env kid s = (s', inr k) -> served_key env kid k s'.
Proof.
  intros Hok H. unfold resolveKey, mbind, auth_bind in H.
  destruct (getCachedKey env kid s) as [s0 [e|o]] eqn:Ec; [done|]. injection Ec as <- Ho.
  destruct o as [k0|].
  - injection H as <- <-. by apply getCachedKey_served; [|unfold getCachedKey; rewrite Ho].
  - pose proof (later_refresh s) as Hl. destruct (refresh env s) as [s1 [e|[]]]; [done|]. simpl in Hl.
    destruct (getCachedKey env kid s1) as [s2 [e|o]] eqn:Ec; [done|]. injection Ec as <- Ho'.
    destruct o as [k1|]; [|done]. injection H as <- <-.
    apply getCachedKey_served; [by apply (lt_ok _ _ Hl)|]. unfold getCachedKey. by rewrite Ho'.
Qed.

Lemma resolveWithRefresh_served kid s s' k :
  cache_ok s -> resolveKeyWithRefresh env kid s = (s', inr k) -> served_key env kid k s'.
Proof.
  intros Hok H. unfold resolveKeyWithRefresh, auth_catch in H.
  pose proof (later_resolveKey kid s) as Hl. destruct (resolveKey env kid s) as [s1 [e|k0]] eqn:E.
  - assert (cache_ok s1) as Hok1 by (by apply (lt_ok _ _ Hl)).
    assert ((refresh env ≫= fun _ => resolveKey env kid) s1 = (s', inr k) -> served_key env kid k s') as Hr.
    { clear H. unfold mbind, auth_bind. pose proof (later_refresh s1) as Hl1.
      destruct (refresh env s1) as [s2 [e2|[]]]; [done|]. intros H. simpl in Hl1.
      eapply resolveKey_served; [by apply (lt_ok _ _ Hl1)|exact H]. }
    destruct e; [by apply Hr|done|by apply Hr].
  - injection H as <- <-. by eapply resolveKey_served.
Qed.
End Cache.

(** ** Verified tokens *)

(** What an accepted token is: signed with a key the issuer served recently, under the
    one algorithm, of the issuer, for the audience alone, and not expired. *)
Record accepted (env : JwtEnv) (signed : string -> json -> Prop) (claims : string -> list (string * json))
    (audience token : string) (s : JwtState) : Prop := {
  at_key : exists header kid jwk, env.(je_header) token = inr header /\
    assoc "alg" header = Some (JStr "RS256") /\ assoc "kid" header = Some (JStr kid) /\
    signed token jwk /\ served_key env kid jwk s;
  at_issuer : assoc "iss" (claims token) = Some (JStr env.(je_issuer));
  at_audience : assoc "aud" (claims token) = Some (JStr audience) \/
    assoc "aud" (claims token) = Some (JArr [JStr audience]);
  at_expiry v : assoc "exp" (claims token) = Some v ->
    exists n, v = JNum n /\ num_gt n (s.(jt_now) / 1000) = true
}.

Section Tokens.
Context (env : JwtEnv) (signed : string -> json -> Prop) (claims : string -> list (string * json)).
Context `{!JoseLaws env signed claims, !FetchLaws env}.

Lemma one_audience audience aud :
  audience_member audience aud -> (forall l, aud = Some (JArr l) -> length l = 1%nat) ->
  aud = Some (JStr audience) \/ aud = Some (JArr [JStr audience]).
Proof.
  intros [->|(l & -> & Hin)] Hl; [by left|right]. specialize (Hl l eq_refl).
  destruct l as [|x [|y l]]; try done. by apply list_elem_of_singleton in Hin as ->.
Qed.

Lemma verifyAccessToken_sound token audience s s' payload :
  cache_ok s -> verifyAccessToken env token env.(je_issuer) audience s = (s', inr payload) ->
  payload = claims token /\ accepted env signed claims audience token s'.
Proof.
  intros Hok H. unfold verifyAccessToken, mbind, auth_bind, auth_of in H.
  destruct (je_header env token) as [e|header] eqn:Eh; [done|].
  destruct (assoc "alg" header) as [[| | |alg| |]|] eqn:Ea; try done.
  destruct (String.eqb_spec alg "RS256") as [->|]; [|done]. simpl in H.
  destruct (assoc "kid" header) as [[| | |[|c kid]| |]|] eqn:Ek; try done.
  destruct (resolveKeyWithRefresh env (String c kid) s) as [s1 [e|jwk]] eqn:Er; [done|].
  apply resolveWithRefresh_served in Er; [|done..]. simpl in H.
  destruct (je_verify env token jwk _ audience _) as [e|p] eqn:Ev; [done|].
  apply (jl_verify (signed:=signed) (claims:=claims)) in Ev as (Hp & Hs & Hi & Haud & Hexp).
  assert (s' = s1 /\ payload = p /\ forall l, assoc "aud" p = Some (JArr l) -> length l = 1%nat) as (-> & -> & Hl).
  { destruct (assoc "aud" p) as [[| | | |l|]|]; try (injection H as <- <-; by split_and!).
    destruct (Nat.eqb_spec (length l) 1); [|done]. injection H as <- <-. split_and!; try done. by intros ? [= <-]. }
  split; [done|]. subst p. split; [|done|by apply one_audience|done].
  by exists header, (String c kid), jwk.
Qed.

Lemma verifyBearer_sound header audience s s' payload :
  cache_ok s -> verifyBearerForAudience env header audience s = (s', inr payload) ->
  exists token, extractBearerToken header = inr token /\ payload = claims token /\
    accepted env signed claims audience token s'.
Proof.
  intros Hok H. unfold verifyBearerForAudience, verifyBearer, mbind, auth_bind, auth_of in H.
  destruct (extractBearerToken header) as [e|token] eqn:Et; [done|]. exists token. split; [done|].
  unfold auth_catch in H. destruct (verifyAccessToken env token _ audience s) as [s1 [e|p]] eqn:Ev; [done|].
  injection H as <- <-. by apply verifyAccessToken_sound in Ev.
Qed.

(** One audience at a time. *)
Lemma accepted_audience a1 a2 token s1 s2 :
  accepted env signed claims a1 token s1 -> accepted env signed claims a2 token s2 -> a1 = a2.
Proof. intros [_ _ H1 _] [_ _ H2 _]. destruct H1 as [H1|H1], H2 as [H2|H2]; congruence. Qed.
End Tokens.

(** C13: the guard admits only the service's own tokens.  A request it admits carries a
    bearer token signed, under RS256, with a key of the key set the issuer served within
    the cache's lifetime, of the configured issuer, for the service's audience and no
    other, and not expired; what is attached to the request are the claims of that
    token, as a user's or as a client's; the same header is refused for every other
    audience at any time, as the log gateway requires; and a request that is not admitted
    is answered with an authentication challenge, whatever went wrong. *)
Theorem jwt_guard_sound env signed claims headers s s' r :
  JoseLaws env signed claims -> FetchLaws env -> cache_ok s ->
  jwtGuard_canActivate env headers s = (s', r) ->
  match r with
  | inl e => exists error description, e = AuthenticationRequired error description
  | inr request => exists token,
      extractBearerToken (head headers) = inr token /\ accepted env signed claims env.(je_audience) token s' /\
      normalizeAuthPayload (claims token) = inr request.(rq_auth) /\
      (request.(rq_user) = Some request.(rq_auth) <-> request.(rq_client) = None) /\
      (forall audience t t' payload, audience <> env.(je_audience) -> cache_ok t ->
         verifyBearerForAudience env (head headers) audience t <> (t', inr payload))
  end.
Proof.
  intros HJ HF Hok H. unfold jwtGuard_canActivate, auth_catch, mbind, auth_bind in H.
  destruct (validateAuthorizationHeader env (head headers) s) as [s2 [e|ctx]] eqn:Ev.
  { destruct e; injection H as <- <-; by eexists _, _. }
  injection H as <- <-.
  unfold validateAuthorizationHeader, mbind, auth_bind in Ev.
  destruct (verifyBearer env (head headers) _ _ s) as [s3 [e|p]] eqn:Ep; [done|].
  apply (verifyBearer_sound env signed claims) in Ep as (token & Et & -> & Ha); [|done].
  injection Ev as -> Hn. exists token. destruct (au_tokenType _); simpl; split_and!; try done;
    (intros audience t t' payload Hne Hok' Hv;
     apply (verifyBearer_sound env signed claims) in Hv as (token' & Et' & _ & Ha'); [|done];
     assert (token' = token) as -> by congruence; by eapply Hne, accepted_audience).
Qed.

(** ** The challenge *)

(** A quoted string as RFC 7230 reads it: its content and what follows it. *)
Fixpoint unquote_string (s : string) : option (string * string) :=
  match s with
  | EmptyString => None
  | String c r =>
      if eq_ascii c JsonText.QUOTE then Some ("", r)
      else if eq_ascii c JsonText.BACKSLASH
      then match r with
           | String d r' => match unquote_string r' with Some (t, rest) => Some (String d t, rest) | None => None end
           | EmptyString => None
           end
      else match unquote_string r with Some (t, rest) => Some (String c t, rest) | None => None end
  end.

(** The text without line breaks. *)
Fixpoint one_line (s : string) : string :=
  match s with
  | EmptyString => EmptyString
  | String c r => if eq_ascii c (ascii_of_N 13) || eq_ascii c (ascii_of_N 10) then one_line r else String c (one_line r)
  end.

Lemma unquote_escaped c r :
  unquote_string (String JsonText.BACKSLASH (String c r)) =
  match unquote_string r with Some (t, rest) => Some (String c t, rest) | None => None end.
Proof. reflexivity. Qed.

Lemma unquote_plain c r :
  eq_ascii c JsonText.QUOTE = false -> eq_ascii c JsonText.BACKSLASH = false ->
  unquote_string (String c r) = match unquote_string r with Some (t, rest) => Some (String c t, rest) | None => None end.
Proof. intros Eq Eb. cbn [unquote_string]. by rewrite Eq, Eb. Qed.

Lemma unquote_escape s rest :
  unquote_string (escapeWwwAuthenticateQuotedString s +:+ String JsonText.QUOTE rest) = Some (one_line s, rest).
Proof.
  induction s as [|c s IH]; [done|]. cbn [escapeWwwAuthenticateQuotedString one_line].
  destruct (eq_ascii c (ascii_of_N 13) || eq_ascii c (ascii_of_N 10)); [exact IH|].
  destruct (eq_ascii c JsonText.BACKSLASH) eqn:Eb, (eq_ascii c JsonText.QUOTE) eqn:Eq; cbn [orb];
    try (etrans; [exact (unquote_escaped c (escapeWwwAuthenticateQuotedString s +:+ String JsonText.QUOTE rest))|]; by rewrite IH).
  etrans; [exact (unquote_plain c (escapeWwwAuthenticateQuotedString s +:+ String JsonText.QUOTE rest) Eq Eb)|]. by rewrite IH.
Qed.

(** The two parameters of a challenge, as a client reads them. *)
Definition read_challenge (header : string) : option (string * string) :=
  r ← JsonText.strip ("Bearer error=" +:+ String JsonText.QUOTE "") header;
  '(error, r) ← unquote_string r;
  r ← JsonText.strip (", error_description=" +:+ String JsonText.QUOTE "") r;
  '(description, r) ← unquote_string r;
  if String.eqb r "" then Some (error, description) else None.

Lemma strip_app p s : JsonText.strip p (p +:+ s) = Some s.
Proof. induction p as [|c p IH]; [done|]. simpl. unfold eq_ascii. by rewrite Ascii.eqb_refl. Qed.

Definition line_break (c : ascii) : bool := eq_ascii c (ascii_of_N 13) || eq_ascii c (ascii_of_N 10).

Lemma escape_one_line s c :
  c ∈ String.list_ascii_of_string (escapeWwwAuthenticateQuotedString s) -> line_break c = false.
Proof.
  induction s as [|x s IH]; [by intros ?%not_elem_of_nil|]. cbn [escapeWwwAuthenticateQuotedString].
  destruct (eq_ascii x (ascii_of_N 13) || eq_ascii x (ascii_of_N 10)) eqn:Ex; [exact IH|].
  destruct (eq_ascii x JsonText.BACKSLASH || eq_ascii x JsonText.QUOTE); cbn [String.list_ascii_of_string]; intros H.
  - by apply elem_of_cons in H as [->|[->|H]%elem_of_cons]; [|exact Ex|apply IH].
  - by apply elem_of_cons in H as [->|H]; [exact Ex|apply IH].
Qed.

Lemma list_ascii_app a b :
  String.list_ascii_of_string (a +:+ b) = String.list_ascii_of_string a ++ String.list_ascii_of_string b.
Proof. induction a as [|c a IH]; [done|]. exact (f_equal (cons c) IH). Qed.

(** The challenge says what it is given and nothing else.  Whatever the error and its
    description, which may quote the message of a library about a hostile token, the
    WWW-Authenticate header has no line break and reads back as exactly these two
    parameters, with their line breaks left out: a description cannot add a parameter or
    another header. *)
Theorem challenge_round_trip error description :
  read_challenge (getWwwAuthenticateHeader error description) = Some (one_line error, one_line description) /\
  (forall c, c ∈ String.list_ascii_of_string (getWwwAuthenticateHeader error description) -> line_break c = false).
Proof.
  split.
  - unfold read_challenge, getWwwAuthenticateHeader, in_quotes.
    set (e := escapeWwwAuthenticateQuotedString error). set (d := escapeWwwAuthenticateQuotedString description).
    trans (r ← Some ((e +:+ String JsonText.QUOTE "") +:+ (", error_description=" +:+
                 String JsonText.QUOTE (d +:+ String JsonText.QUOTE "")));
           '(x, r) ← unquote_string r;
           r ← JsonText.strip (", error_description=" +:+ String JsonText.QUOTE "") r;
           '(y, r) ← unquote_string r;
           if String.eqb r "" then Some (x, y) else None).
    { by rewrite <-(strip_app ("Bearer error=" +:+ String JsonText.QUOTE "")). }
    simpl mbind. rewrite assoc_string_app. change (String JsonText.QUOTE "" +:+ ?x) with (String JsonText.QUOTE x).
    unfold e. rewrite unquote_escape. simpl mbind.
    trans (r ← Some (d +:+ String JsonText.QUOTE "");
           '(y, r) ← unquote_string r;
           if String.eqb r "" then Some (one_line error, y) else None).
    { by rewrite <-(strip_app (", error_description=" +:+ String JsonText.QUOTE "")). }
    simpl mbind. unfold d. by rewrite unquote_escape.
  - assert (forall l c, forallb (fun c => negb (line_break c)) l = true -> c ∈ l -> line_break c = false) as Hl.
    { intros l c H Hc%list_elem_of_In. rewrite forallb_forall in H. by apply negb_true_iff, H. }
    assert (forall s c, c ∈ String.list_ascii_of_string (in_quotes (escapeWwwAuthenticateQuotedString s)) ->
      line_break c = false) as Hq.
    { intros s c. unfold in_quotes. cbn [String.list_ascii_of_string]. rewrite list_ascii_app, elem_of_cons, elem_of_app.
      intros [->|[H|H]]; [done|by eapply escape_one_line|by eapply Hl, H]. }
    intros c. unfold getWwwAuthenticateHeader. rewrite !list_ascii_app, !elem_of_app.
    intros [H|[H|[H|H]]]; [by eapply Hl, H|by eapply Hq|by eapply Hl, H|by eapply Hq].
Qed.

(** An issuer with one key and one token. *)
Definition sample_jwk : json := JObj [("kid", JStr "k1"); ("kty", JStr "RSA")].

Definition sample_claims : list (string * json) :=
  [("sub", JStr "3fa85f64-5717-4562-b3fc-2c963f66afa6"); ("iss", JStr "https://issuer"); ("aud", JArr [JStr "https://api"]);
   ("exp", JNum (num_of_Z 2000)); ("tenant_id", JStr "t"); ("scope", JStr "openid logs:read")].

Definition sample_verify (token : string) (jwk : json) (issuer audience : string) (now : Z)
    : AuthFailure + list (string * json) :=
  if bool_decide (jwk = sample_jwk) && String.eqb token "jwt" && String.eqb issuer "https://issuer" &&
     String.eqb audience "https://api" && num_gt (num_of_Z 2000) (now / 1000)
  then inr sample_claims
  else inl (OtherFailure (Some "ERR_JWS_SIGNATURE_VERIFICATION_FAILED") "signature verification failed").

Definition sample_jwt_env : JwtEnv :=
  mkJwtEnv "https://issuer" "https://api" None 300
    (fun _ s => (s, inr (200, Some (JObj [("keys", JArr [sample_jwk])]))))
    (fun _ => inr [("alg", JStr "RS256"); ("kid", JStr "k1")]) sample_verify.

Lemma sample_jose_laws : JoseLaws sample_jwt_env (fun token jwk => token = "jwt" /\ jwk = sample_jwk) (fun _ => sample_claims).
Proof.
  split. intros token jwk issuer audience now payload. simpl. unfold sample_verify.
  intros H. destruct (_ && _) eqn:E; [|done]. injection H as <-.
  rewrite !andb_true_iff, bool_decide_eq_true, !String.eqb_eq in E. destruct E as ((((-> & ->) & ->) & ->) & En).
  split_and!; try done.
  - right. eexists. split; [done|]. left.
  - intros v [= <-]. by eexists.
Qed.

Lemma jwt_guard_sound_witness :
  exists request, (jwtGuard_canActivate sample_jwt_env ["bearer  jwt "] (mkJwtState None 1000000 [])).2 = inr request /\
    exists token, extractBearerToken (Some "bearer  jwt ") = inr token /\
      normalizeAuthPayload sample_claims = inr request.(rq_auth).
Proof.
  destruct (jwtGuard_canActivate sample_jwt_env ["bearer  jwt "] (mkJwtState None 1000000 [])) as [s' [e|request]] eqn:E;
    [vm_compute in E; discriminate E|].
  exists request. split; [reflexivity|].
  destruct (jwt_guard_sound sample_jwt_env _ _ ["bearer  jwt "] (mkJwtState None 1000000 []) s' (inr request)
    sample_jose_laws) as (token & Ht & _ & Hn & _).
  - split. intros uri s. reflexivity.
  - intros c Hc. discriminate Hc.
  - exact E.
  - exists token. split; [exact Ht|exact Hn].
Defined.
