(* ===== verification/ProtocolLifecycle.v ===== *)
(** * What a webhook may do to the tables

    The contract of Lifecycle, established for ProtocolStateChangeService: every
    step of [process] moves the tables of the job's own tenant forward, whatever
    the agent sends and whether the delivery succeeds or fails. *)

From Stdlib Require Import Ascii ZArith Lia.
From stdpp Require Import base decidable strings sets gmap list list_relations.
From S2P Require Import Prelude Js Entities StateMapping OperationTtl Db Pagination.
From S2P Require Import OperationService CredentialRepository.
From S2P Require Import ConnectionRepository AdapterRegistry Auth ConnectionService.
From S2P Require Import ProtocolStateChange Lifecycle.

Local Open Scope Z_scope.

Section Tenant.
Context (tenant : string).

Abbreviation own := (fun t : string => t = tenant).

(** A row another connection reads while the transaction runs is still there,
    as the same record, in the transaction. *)
Lemma committed_op_working w i o :
  InTx own w -> w.(committed).(db_operations) !! i = Some o ->
  exists o', w.(working).(db_operations) !! i = Some o' /\ op_row o o'.
Proof.
  intros [_ (H & _)] Ho. specialize (H i). unfold cell_evolves in H. rewrite Ho in H.
  destruct (db_operations (working w) !! i) as [o'|]; [|done]. exists o'. by destruct H.
Qed.

Lemma transitionStateIfForward_tx i st result ext :
  forall w o, w.(committed).(db_operations) !! i = Some o -> o.(op_tenantId) = tenant ->
  InTx own w ->
  vrel Tx (Evo own) w
    (transitionStateIfForward i st (operationStatesBelow st) result Tx ext w).1.
Proof.
  intros w o Ho Ht HI. apply transitionStateIfForward_vrel. simpl. intros o' Ho'.
  destruct (committed_op_working w i o HI Ho) as (o'' & Ho'' & Hrow).
  simplify_eq. destruct Hrow as (_ & -> & _). done.
Qed.

(** The claim wrote the final state on the row the transaction sees. *)
Lemma claim_won i t st w w1 :
  operations_claimBatchSettlement i t st Tx w = (w1, inr true) ->
  w1.(committed) = w.(committed) /\
  exists r now, w.(working).(db_operations) !! i = Some r /\ r.(op_tenantId) = t /\
    w1.(working).(db_operations) !! i = Some (op_set_updatedAt now (op_set_state st r)).
Proof.
  unfold operations_claimBatchSettlement, update_operation. intros E. run_inv E.
  injection E0 as <- <-. simpl in *.
  destruct (db_operations (working w) !! i) as [r|] eqn:Er; [|done].
  destruct (_ && _) eqn:Eg; [|done]. apply andb_prop in Eg as [Ht%String.eqb_eq _].
  run_inv E. injection E0 as <- <-. run_inv E. injection E as <-.
  unfold write_operation in E0. run_inv E0. injection E as <- <-.
  destruct (operation_conflict _ _ _); [done|]. injection E0 as <- <-. simpl. split; [done|].
  exists r, (clock w). rewrite lookup_insert_eq. done.
Qed.

#[export] Instance tx_settleBatchParent batchId : TxPres own (settleBatchParent batchId tenant).
Proof.
  intros w HI. unfold settleBatchParent, operations_lockBatchParent.
  apply vrel_bind; [apply _|reflexivity|]. intros _ _. simpl.
  apply vrel_bind; [apply _|reflexivity|]. intros counts _. simpl.
  case_match; [reflexivity|]. set (final := if (0 <? bc_failed counts)%nat then FAILED else COMPLETED).
  assert (op_terminal final) as Hfin by (unfold final, op_terminal; case_match; auto).
  pose proof (claimBatchSettlement_vrel own Tx batchId tenant final w eq_refl Hfin) as Hclaim.
  apply vrel_bind; [apply _|done|]. intros claimed Hc.
  destruct (operations_claimBatchSettlement batchId tenant final Tx w) as [w1 r1] eqn:Ec.
  simpl in Hc, Hclaim |- *. subst r1. destruct claimed; [|reflexivity].
  apply claim_won in Ec as (Hcom & r & now & Hr & Hrt & Hr1).
  apply vrel_bind; [apply _| |].
  2:{ intros _ _. by apply vpres_dispatch. }
  apply transitionState_vrel. simpl. rewrite Hcom. intros o Ho _.
  destruct (committed_op_working w batchId o HI Ho) as (r' & Hr' & Hrow). simplify_eq.
  assert (op_id o = batchId) as -> by (destruct HI as [[K _] _]; by apply K).
  eexists. split; [exact Hr1|]. destruct Hrow as (?&?&?&?&?&?&?&_).
  split; [|done]. repeat split; simpl; try congruence. reflexivity.
Qed.

#[export] Instance tx_settleRelatedOfferOperation data outcome :
  data.(psc_tenantId) = tenant -> TxPres own (settleRelatedOfferOperation data outcome).
Proof.
  intros Ht. unfold settleRelatedOfferOperation, credentials_findByExternalId.
  apply txpres_bind; [apply _|]. intros [c|]; [|apply _].
  intros w HI. unfold operations_findByIdForTenant at 1.
  apply vrel_bind; [apply _|reflexivity|]. simpl. intros row [= <-].
  destruct (db_operations (committed w) !! cr_operationId c) as [o|] eqn:Eo; [|reflexivity].
  destruct (String.eqb_spec (op_tenantId o) (psc_tenantId data)) as [Hot|]; [|reflexivity].
  assert (op_id o = cr_operationId c) as -> by (destruct HI as [[K _] _]; by apply K).
  apply vrel_bind; [apply _| |].
  - eapply transitionStateIfForward_tx; [exact Eo|congruence|done].
  - intros [u|] _; [|reflexivity]. rewrite Ht. by apply vpres_dispatch.
Qed.

#[export] Instance tx_applyOperationOutcome data outcome :
  data.(psc_tenantId) = tenant -> TxPres own (applyOperationOutcome data outcome).
Proof.
  intros Ht w HI. unfold applyOperationOutcome.
  apply vrel_bind; [apply _|reflexivity|]. simpl. intros row [= <-].
  destruct (find_latest _ _ _) as [o|] eqn:Eo; [|].
  2:{ apply vrel_bind; [apply _|reflexivity|]. intros; reflexivity. }
  apply find_latest_Some in Eo as (Hm & [i Hi] & _).
  apply andb_prop in Hm as [Hm _]. apply andb_prop in Hm as [[Hot _]%andb_prop _].
  apply String.eqb_eq in Hot.
  assert (op_id o = i) as -> by (destruct HI as [[K _] _]; by apply K).
  assert (vrel Tx (Evo own) w (transitionStateIfForward i (po_operationState outcome)
    (operationStatesBelow (po_operationState outcome))
    (Some (resolveOperationResult data outcome)) Tx None w).1) as Hv.
  { eapply transitionStateIfForward_tx; [exact Hi|congruence|done]. }
  apply vrel_bind; [apply _|exact Hv|]. intros [u|] _; [|reflexivity].
  eapply InTx_step in Hv; [|exact HI]. revert Hv. generalize (transitionStateIfForward i
    (po_operationState outcome) (operationStatesBelow (po_operationState outcome))
    (Some (resolveOperationResult data outcome)) Tx None w).1 as w1. intros w1 HI1.
  revert w1 HI1. rewrite Ht. apply txpres_bind; [apply _|]. intros _.
  apply txpres_bind; [apply txpres_prog_when; by apply tx_settleRelatedOfferOperation|].
  intros _. apply _.
Qed.

#[export] Instance tx_applyCredentialOutcome data outcome :
  data.(psc_tenantId) = tenant -> TxPres own (applyCredentialOutcome data outcome).
Proof.
  intros Ht. apply txpres_vpres. unfold applyCredentialOutcome, credentials_findByExternalId.
  destruct (po_credentialState outcome); [|apply _].
  apply vpres_bind; [apply _..|]. intros [cr|]; [|apply _].
  apply vpres_bind; [apply _..|]. intros now.
  apply vpres_bind; [apply _|by apply vpres_credentials_updateStateIfForward|].
  intros []; [|apply _]. apply vpres_bind; [apply _|by apply vpres_audit_emit|]. intros; apply _.
Qed.

Lemma vpres_applyProtocolStateIfForward c st :
  c.(cn_tenantId) = tenant ->
  VPres Tx (Evo own) (applyProtocolStateIfForward c st (connectionStatesBelow st) Tx).
Proof.
  intros Hc. unfold applyProtocolStateIfForward.
  apply vpres_bind; [apply _|by apply vpres_connections_updateStateIfForward|].
  intros []; [|apply _]. apply vpres_bind; [apply _|by apply vpres_audit_emit|]. intros; apply _.
Qed.

Lemma vpres_transitionConnectionState target write :
  (forall s, VPres Tx (Evo own) (write s (connectionStatesBelow s))) ->
  VPres Tx (Evo own) (transitionConnectionState target write).
Proof.
  intros Hw. unfold transitionConnectionState.
  apply vpres_bind; [apply _|case_decide; [apply Hw|apply _]|]. intros a.
  apply vpres_bind; [apply _|apply Hw|]. intros; apply _.
Qed.

#[export] Instance tx_applyConnectionOutcome data outcome :
  data.(psc_tenantId) = tenant -> TxPres own (applyConnectionOutcome data outcome).
Proof.
  intros Ht. apply txpres_vpres. unfold applyConnectionOutcome. cbv zeta.
  destruct (po_connectionState outcome) as [target|]; [|apply _].
  assert (forall c, cn_tenantId c = tenant ->
    VPres Tx (Evo own) (moved ← transitionConnectionState target
      (fun s fromStates => applyProtocolStateIfForward c s fromStates Tx);
      mret (mkApplied true (bool_decide (is_Some moved.1)) moved.2))) as Htr.
  { intros c Hc. apply vpres_bind; [apply _| |intros; apply _].
    apply vpres_transitionConnectionState. intros s. by apply vpres_applyProtocolStateIfForward. }
  intros w. apply vrel_bind; [apply _|reflexivity|]. simpl. intros row [= <-].
  destruct (find_one _ _) as [c|] eqn:Ec.
  { apply find_one_Some in Ec as [[Hc%String.eqb_eq _]%andb_prop _]. apply Htr. congruence. }
  clear Ec. apply vrel_bind; [apply _|reflexivity|]. simpl. intros row [= <-].
  destruct (find_one _ _) as [c|] eqn:Ec; [|reflexivity].
  apply find_one_Some in Ec as [[Hc%String.eqb_eq _]%andb_prop _].
  case_match; [|apply Htr; congruence]. case_decide; [reflexivity|].
  apply vrel_bind; [apply _| |intros; reflexivity].
  unfold createFromInvitationTemplate. destruct target as [s|]; [|reflexivity].
  apply vrel_bind; [apply _|apply vpres_connections_create; intros; simpl; by split; [|congruence]|].
  intros created Hcr.
  destruct (connections_create _ _ _) as [w1 r1] eqn:E1. simpl in Hcr. subst r1.
  apply connections_create_result in E1 as (i & now & ->). simpl.
  apply vrel_bind; [apply _|apply vpres_audit_emit; congruence|intros; reflexivity].
Qed.

#[export] Instance tx_observeExchange data correlation :
  data.(psc_tenantId) = tenant -> TxPres own (observeExchange data correlation).
Proof.
  intros Ht. apply txpres_vpres. unfold observeExchange. cbv zeta.
  case_decide; [|apply _]. apply vpres_bind; [apply _|destruct correlation; apply _|]. intros cr.
  case_match; [|apply _]. by apply vpres_exchanges_observe.
Qed.

#[export] Instance tx_process data outcome correlation :
  data.(psc_tenantId) = tenant -> TxPres own (process_tx data outcome correlation).
Proof.
  intros Ht. unfold process_tx, applyOutcome.
  apply txpres_bind; [by apply tx_observeExchange|]. intros t.
  apply txpres_bind.
  { destruct t as [t|]; [|apply _]. apply txpres_prog_when, txpres_vpres.
    by apply vpres_dispatch. }
  intros _. apply txpres_bind.
  { apply txpres_bind; [by apply tx_applyOperationOutcome|]. intros oo.
    apply txpres_bind; [|intros; apply _].
    case_decide; [by apply tx_applyConnectionOutcome|].
    case_match; [by apply tx_applyCredentialOutcome|apply _]. }
  intros [oo ro]. repeat (case_match; [apply _|]).
  apply txpres_bind; [apply txpres_vpres; by apply vpres_dispatch|]. intros; apply _.
Qed.
End Tenant.

(** Whatever the delivery, the tables move along the contract of its tenant. *)
Lemma process_evolves data correlation w :
  keyed w.(committed) ->
  evolves (fun t => t = data.(psc_tenantId)) w.(committed)
    (process data correlation w).1.(committed).
Proof.
  intros K.
  assert (Pres (Evo (fun t => t = psc_tenantId data)) (process data correlation)) as HP.
  { unfold process. destruct (resolveProtocolOutcome _ _); [|apply _].
    apply pres_bind; [apply _|apply pres_transaction_tx; by apply tx_process|].
    intros r. apply pres_bind; [apply _|destruct (pr_event r); apply _|]. intros; apply _. }
  destruct (HP w) as [H _]. by apply H.
Qed.

(** ** Properties *)

(** What forward means for the records of two states of the tables: everything is
    still there; terminal operations keep their state, an issued credential can
    only have become revoked, a connection keeps its state or has gained rank, so
    that a completed or abandoned one keeps it, and an exchange that reached
    issuance can only have become done. *)
Definition moved_forward (d d' : DB) : Prop :=
  (forall id o, d.(db_operations) !! id = Some o ->
     exists o', d'.(db_operations) !! id = Some o' /\ op_history o.(op_state) o'.(op_state) /\
       (op_terminal o.(op_state) -> o'.(op_state) = o.(op_state))) /\
  (forall id c, d.(db_credentials) !! id = Some c ->
     exists c', d'.(db_credentials) !! id = Some c' /\ cred_history c.(cr_state) c'.(cr_state) /\
       (c.(cr_state) = ISSUED -> c'.(cr_state) = ISSUED \/ c'.(cr_state) = REVOKED)) /\
  (forall id c, d.(db_connections) !! id = Some c ->
     exists c', d'.(db_connections) !! id = Some c' /\ conn_history c.(cn_state) c'.(cn_state) /\
       (c'.(cn_state) = c.(cn_state) \/
        (CONNECTION_STATE_RANK c.(cn_state) < CONNECTION_STATE_RANK c'.(cn_state))%nat) /\
       (c.(cn_state) = CN_COMPLETED \/ c.(cn_state) = ABANDONED ->
        c'.(cn_state) = c.(cn_state))) /\
  (forall id x, d.(db_exchanges) !! id = Some x ->
     exists x', d'.(db_exchanges) !! id = Some x' /\ ex_history x.(ex_state) x'.(ex_state) /\
       ((4 <= STATE_RANK x.(ex_state))%nat ->
        x'.(ex_state) = x.(ex_state) \/ x'.(ex_state) = Ex Done)).

Lemma evolves_moved_forward own d d' : evolves own d d' -> moved_forward d d'.
Proof.
  intros (Ho & Hc & Hn & Hx & _). unfold table_evolves, cell_evolves in *.
  split_and!; intros i r Hr; [specialize (Ho i)|specialize (Hc i)|specialize (Hn i)|specialize (Hx i)];
    rewrite Hr in *; case_match; try done.
  - eexists. split; [done|]. destruct Ho as [(?&?&?&?&?&?&?&Hh) _]. split; [done|].
    intros Ht. by apply op_history_terminal.
  - eexists. split; [done|]. destruct Hc as [(?&?&?&?&?&?&?&Hh) _]. split; [done|].
    intros Hi. rewrite Hi in Hh. by apply cred_history_issued.
  - eexists. split; [done|]. destruct Hn as [(?&?&?&?&Hh) _]. split; [done|].
    apply conn_history_rank in Hh as [->|Hlt]; [by split; [left|]|]. split; [by right|].
    intros [E|E]; rewrite E in Hlt; destruct (cn_state _) in Hlt; simpl in Hlt; lia.
  - eexists. split; [done|]. destruct Hx as [(?&?&?&?&?&?&Hh) _]. split; [done|].
    intros Hi. apply ex_history_issued in Hh as [->|[-> _]]; auto.
Qed.

(** C1: records only move forward.  After any delivery, successful or not, every
    operation, credential, connection and exchange is still there and its state
    is reached from its old one along its lifecycle; so a terminal operation
    keeps its state, an issued credential can only have become revoked, a
    connection keeps its state or gains rank (a completed or abandoned one keeps
    it), and an exchange that reached issuance can only have become done. *)
Theorem process_forward_only data correlation w :
  keyed w.(committed) -> moved_forward w.(committed) (process data correlation w).1.(committed).
Proof. intros K. by eapply evolves_moved_forward, process_evolves. Qed.

(** One tenant with an offer in flight, another with its own operation. *)
Definition sample_op (id tenant : string) (s : OperationState) (ext : option string) : Operation :=
  mkOperation id tenant None CREDENTIAL_OFFER s JNull None ext None None 0 0 0.
Definition sample_credential : Credential :=
  mkCredential "c1" "t1" None None "k1" (Some "ex1") ANONCREDS OFFERED "o1" None JNull None None 0 0.
Definition sample_db : DB :=
  set_operations {[ "o1" := sample_op "o1" "t1" PENDING (Some "ex1");
                    "o2" := sample_op "o2" "t2" PENDING (Some "ex1") ]}
    (set_credentials {[ "c1" := sample_credential ]}
       (set_tenants {[ "t1" := sample_tenant "t1" None; "t2" := sample_tenant "t2" None ]} empty_db)).
Definition sample_delivery : ProtocolStateChangeJobData :=
  mkPscData "t1" issue_credential "ex1" "done" [].

Lemma sample_db_keyed : keyed sample_db.
Proof.
  repeat split; apply map_Forall_to_list; vm_compute; repeat constructor.
Qed.

Lemma process_forward_only_witness :
  exists o', (process sample_delivery None (world_of sample_db 7000)).1.(committed).(db_operations)
    !! "o1" = Some o' /\ op_history PENDING o'.(op_state).
Proof.
  destruct (process_forward_only sample_delivery None (world_of sample_db 7000) sample_db_keyed)
    as (Ho & _).
  destruct (Ho "o1" (sample_op "o1" "t1" PENDING (Some "ex1"))) as (o' & H1 & H2 & _).
  - reflexivity.
  - exists o'. split; [exact H1|exact H2].
Defined.

(** C33: a delivery touches its own tenant only.  Rows of other tenants are
    bit-for-bit unchanged, no row of another tenant appears, the tenant table is
    unchanged, and every job added (webhook notification,
    audit entry) is for the delivery's tenant. *)
Theorem process_tenant_isolation data correlation w :
  keyed w.(committed) ->
  let d := w.(committed) in
  let d' := (process data correlation w).1.(committed) in
  let other t := t <> data.(psc_tenantId) in
  (forall id o, other o.(op_tenantId) ->
     d'.(db_operations) !! id = Some o <-> d.(db_operations) !! id = Some o) /\
  (forall id c, other c.(cr_tenantId) ->
     d'.(db_credentials) !! id = Some c <-> d.(db_credentials) !! id = Some c) /\
  (forall id c, other c.(cn_tenantId) ->
     d'.(db_connections) !! id = Some c <-> d.(db_connections) !! id = Some c) /\
  (forall id x, other x.(ex_tenantId) ->
     d'.(db_exchanges) !! id = Some x <-> d.(db_exchanges) !! id = Some x) /\
  (forall id k, other k.(con_tenantId) ->
     d'.(db_connectors) !! id = Some k <-> d.(db_connectors) !! id = Some k) /\
  d'.(db_tenants) = d.(db_tenants) /\
  exists js, d'.(db_jobs) = d.(db_jobs) ++ js /\
    forall j, j ∈ js -> job_tenant j = data.(psc_tenantId).
Proof.
  intros K. cbv zeta.
  destruct (process_evolves data correlation w K) as (Ho & Hc & Hn & Hx & Ht & Hk & js & Hj & Hf).
  split_and!; [intros i r Hr; eapply table_evolves_other; [apply _|eassumption|done]..|done|].
  exists js. split; [done|]. by apply Forall_forall.
Qed.

Lemma process_tenant_isolation_witness :
  (process sample_delivery None (world_of sample_db 7000)).1.(committed).(db_operations) !! "o2" =
    Some (sample_op "o2" "t2" PENDING (Some "ex1")).
Proof.
  apply (process_tenant_isolation sample_delivery None (world_of sample_db 7000) sample_db_keyed).
  - simpl. discriminate.
  - reflexivity.
Defined.
