(* ===== verification/ProtocolNotification.v ===== *)
(** * A state change and its notification commit together

    What ProtocolStateChangeService promises about its side effects: a failed
    delivery leaves nothing behind, a delivery that moved a record has queued a
    notification in the same commit, and in-process events fire only after it. *)

From Stdlib Require Import Ascii ZArith Lia.
From stdpp Require Import base decidable strings pretty sets gmap list list_relations.
From S2P Require Import Prelude Js Entities StateMapping OperationTtl Db Pagination.
From S2P Require Import OperationService CredentialRepository.
From S2P Require Import ConnectionRepository AdapterRegistry Auth ConnectionService.
From S2P Require Import ProtocolStateChange Lifecycle ProtocolLifecycle.

Local Open Scope Z_scope.

(** ** The transaction stays inside the database *)

#[export] Instance quiet_dispatch m t e r : Quiet (dispatch m t e r).
Proof. unfold dispatch. solve_quiet. Qed.
#[export] Instance quiet_audit_emit m t a rt ri : Quiet (audit_emit m t a rt ri).
Proof. unfold audit_emit. solve_quiet. Qed.
#[export] Instance quiet_record_metric m t o : Quiet (record_metric m t o).
Proof. unfold record_metric. solve_quiet. Qed.
#[export] Instance quiet_date_param x : Quiet (date_param x).
Proof. unfold date_param. solve_quiet. Qed.
#[export] Instance quiet_tenants_findById t : Quiet (tenants_findById t).
Proof. unfold tenants_findById. solve_quiet. Qed.
#[export] Instance quiet_recordTerminalOutcome ty st m : Quiet (recordTerminalOutcome ty st m).
Proof. unfold recordTerminalOutcome. solve_quiet. Qed.
#[export] Instance quiet_write_operation m i o : Quiet (write_operation m i o).
Proof. unfold write_operation. solve_quiet. Qed.
#[export] Instance quiet_update_operation m i g f : Quiet (update_operation m i g f).
Proof. unfold update_operation. solve_quiet. Qed.
#[export] Instance quiet_operations_save m o : Quiet (operations_save m o).
Proof. unfold operations_save. solve_quiet. Qed.
#[export] Instance quiet_transitionState i st r m t : Quiet (transitionState i st r m t).
Proof. unfold transitionState, operations_findById, operations_findByIdForTenant. solve_quiet. Qed.
#[export] Instance quiet_transitionStateIfForward i st from r m e :
  Quiet (transitionStateIfForward i st from r m e).
Proof.
  unfold transitionStateIfForward, operations_findById, operations_transitionIfForward. solve_quiet.
Qed.
#[export] Instance quiet_settleBatchParent b t : Quiet (settleBatchParent b t).
Proof.
  unfold settleBatchParent, operations_lockBatchParent, operations_countByBatchGroupedByState,
    operations_claimBatchSettlement, operations_findByIdForTenant. solve_quiet.
Qed.
#[export] Instance quiet_settleRelatedOfferOperation data outcome :
  Quiet (settleRelatedOfferOperation data outcome).
Proof.
  unfold settleRelatedOfferOperation, credentials_findByExternalId, operations_findByIdForTenant.
  solve_quiet.
Qed.
#[export] Instance quiet_applyOperationOutcome data outcome :
  Quiet (applyOperationOutcome data outcome).
Proof.
  unfold applyOperationOutcome, operations_findByExternalIdForTenant,
    operations_existsByExternalIdForTenant. solve_quiet.
Qed.
#[export] Instance quiet_update_credential m i g f : Quiet (update_credential m i g f).
Proof. unfold update_credential, write_credential. solve_quiet. Qed.
#[export] Instance quiet_applyCredentialOutcome data outcome :
  Quiet (applyCredentialOutcome data outcome).
Proof.
  unfold applyCredentialOutcome, credentials_findByExternalId, credentials_updateStateIfForward.
  solve_quiet.
Qed.
#[export] Instance quiet_write_connection m i c : Quiet (write_connection m i c).
Proof. unfold write_connection. solve_quiet. Qed.
#[export] Instance quiet_applyProtocolStateIfForward c st from m :
  Quiet (applyProtocolStateIfForward c st from m).
Proof. unfold applyProtocolStateIfForward, connections_updateStateIfForward. solve_quiet. Qed.
#[export] Instance quiet_createFromInvitationTemplate t e st did m :
  Quiet (createFromInvitationTemplate t e st did m).
Proof. unfold createFromInvitationTemplate, connections_create. solve_quiet. Qed.
#[export] Instance quiet_applyConnectionOutcome data outcome :
  Quiet (applyConnectionOutcome data outcome).
Proof.
  unfold applyConnectionOutcome, connections_findByExternalConnectionIdForTenant,
    connections_findByInvitationMsgIdForTenant, transitionConnectionState. solve_quiet.
Qed.
#[export] Instance quiet_exchanges_save x m : Quiet (exchanges_save x m).
Proof. unfold exchanges_save, write_exchange. solve_quiet. Qed.
#[export] Instance quiet_observeExchange data c : Quiet (observeExchange data c).
Proof.
  unfold observeExchange, exchanges_observe, credentials_findByExternalId. solve_quiet.
Qed.
#[export] Instance quiet_process_tx data outcome c : Quiet (process_tx data outcome c).
Proof. unfold process_tx, applyOutcome. solve_quiet. Qed.

(** ** A guard that does not match writes nothing *)

Lemma update_operation_false m i g f w w' :
  update_operation m i g f w = (w', inr false) -> w' = w.
Proof.
  unfold update_operation. intros E. run_inv E. injection E0 as <- <-.
  destruct (_ !! i) as [o|]; [|by injection E as <-].
  destruct (g o); [|by injection E as <-]. run_inv E. run_inv E. done.
Qed.

Lemma tenants_findById_inr t w w' x : tenants_findById t w = (w', inr x) -> w' = w.
Proof. intros E. rewrite <-(tenants_findById_world t w). by rewrite E. Qed.

Lemma date_param_inr x w w' y : date_param x w = (w', inr y) -> w' = w.
Proof. intros E. rewrite <-(date_param_world x w). by rewrite E. Qed.

Lemma transitionStateIfForward_None i st from r m e w w' :
  transitionStateIfForward i st from r m e w = (w', inr None) -> w' = w.
Proof.
  unfold transitionStateIfForward, operations_findById, operations_transitionIfForward.
  intros E. run_inv E. injection E0 as <- <-. destruct (_ !! i) as [o|]; [|done].
  run_inv E. apply tenants_findById_inr in E0 as ->. run_inv E. run_inv E0.
  apply date_param_inr in E1 as ->. destruct a0.
  - run_inv E. destruct a0; [by run_inv E|done].
  - apply update_operation_false in E0 as ->. by injection E as <-.
Qed.

(** ** The operation path writes no other record *)

Definition ops_only (d d' : DB) : Prop :=
  d'.(db_credentials) = d.(db_credentials) /\ d'.(db_connections) = d.(db_connections) /\
  d'.(db_exchanges) = d.(db_exchanges).

#[export] Instance ops_only_preorder : PreOrder ops_only.
Proof.
  split.
  - by intros d.
  - unfold ops_only. intros d1 d2 d3. intuition congruence.
Qed.

Ltac solve_vpres :=
  repeat first
    [ progress intros
    | apply _
    | apply vpres_bind; [apply _| |]
    | apply vpres_catch; [apply _| |]
    | progress cbv zeta
    | case_match
    | case_decide ].

#[export] Instance ops_only_send m j : VPres m ops_only (send m j).
Proof. intros w. unfold send. destruct (send_fate w (sends w)); by destruct m; split. Qed.
#[export] Instance ops_only_dispatch m t e r : VPres m ops_only (dispatch m t e r).
Proof. unfold dispatch. solve_vpres. Qed.
#[export] Instance ops_only_write_operation m i o : VPres m ops_only (write_operation m i o).
Proof. unfold write_operation. solve_vpres. by apply vpres_modify. Qed.
#[export] Instance ops_only_update_operation m i g f : VPres m ops_only (update_operation m i g f).
Proof. unfold update_operation. solve_vpres. Qed.
#[export] Instance ops_only_recordTerminalOutcome ty st m :
  VPres m ops_only (recordTerminalOutcome ty st m).
Proof. unfold recordTerminalOutcome, record_metric. solve_vpres; by apply vpres_modify. Qed.
#[export] Instance ops_only_operations_save m o : VPres m ops_only (operations_save m o).
Proof. unfold operations_save. solve_vpres. Qed.
#[export] Instance ops_only_transitionState i st r m t :
  VPres m ops_only (transitionState i st r m t).
Proof.
  unfold transitionState, operations_findById, operations_findByIdForTenant, tenants_findById,
    date_param. solve_vpres.
Qed.
#[export] Instance ops_only_transitionStateIfForward i st from r m e :
  VPres m ops_only (transitionStateIfForward i st from r m e).
Proof.
  unfold transitionStateIfForward, operations_findById, operations_transitionIfForward,
    tenants_findById, date_param. solve_vpres.
Qed.
#[export] Instance ops_only_applyOperationOutcome data outcome :
  VPres Tx ops_only (applyOperationOutcome data outcome).
Proof.
  unfold applyOperationOutcome, settleBatchParent, settleRelatedOfferOperation,
    operations_findByExternalIdForTenant, operations_existsByExternalIdForTenant,
    credentials_findByExternalId, operations_findByIdForTenant, operations_lockBatchParent,
    operations_countByBatchGroupedByState, operations_claimBatchSettlement, prog_when.
  solve_vpres.
Qed.

(** ** Properties *)

Lemma dispatch_inr m t e r w w' :
  dispatch m t e r w = (w', inr tt) ->
  exists w1, (forall m', view m' w1 = view m' w) /\
    w' = modify_view m (add_job (WebhookDispatch t e r (date_of w.(clock)))) w1.
Proof.
  unfold dispatch. intros E. run_inv E. injection E0 as <- <-. unfold send in E.
  destruct (send_fate w (sends w)); [|done..]. injection E as <-.
  eexists. split; [|reflexivity]. by intros [].
Qed.

(** C6: a failed delivery leaves no trace.  When [process] throws (a failed
    enqueue, a conflict, a constraint violation), every committed table and the
    queue are exactly as before and no in-process event has fired, so the
    redelivered job starts from the same state. *)
Theorem process_rolls_back data correlation w w' e :
  keyed w.(committed) ->
  process data correlation w = (w', inl e) ->
  w'.(committed) = w.(committed) /\ w'.(emitted) = w.(emitted) /\ w'.(calls) = w.(calls).
Proof.
  intros K. unfold process. destruct (resolveProtocolOutcome _ _) as [outcome|]; [|done].
  intros E. apply bind_inl in E as [E|(w1 & r & E & E2)].
  - unfold transaction in E. set (w_in := set_dbs (committed w) (committed w) w) in *.
    pose proof (quiet_process_tx data outcome correlation w_in) as (Hem & Hca & _).
    assert (InTx (fun t => t = psc_tenantId data) w_in) as HI by (by split).
    pose proof (tx_process (psc_tenantId data) data outcome correlation eq_refl w_in HI) as [Hc _].
    destruct (process_tx data outcome correlation w_in) as [w2 [e2|r]]; [|done].
    injection E as <- <-. done.
  - apply bind_inl in E2 as [E2|(w2 & u & _ & E2)]; [|done].
    by destruct (pr_event r).
Qed.

Definition deaf_world : World :=
  mkWorld sample_db sample_db 7000 (fun n => "u" +:+ pretty n) 0 (fun _ => NotSent)
    (fun _ => false) 0 [] [] empty_pod.

Lemma process_rolls_back_witness :
  (process sample_delivery None deaf_world).2 = inl (JsError "pg-boss send failed") /\
  (process sample_delivery None deaf_world).1.(committed) = sample_db.
Proof.
  split; [vm_compute; reflexivity|].
  apply (process_rolls_back sample_delivery None deaf_world _ (JsError "pg-boss send failed")).
  - exact sample_db_keyed.
  - vm_compute. reflexivity.
Defined.

(** ** States the tables do not list *)

(** What an object literal inherits, after [_] has become [-]. *)
Definition inherited_states : list string :=
  ["constructor"; "hasOwnProperty"; "isPrototypeOf"; "propertyIsEnumerable"; "toString"; "valueOf";
   "toLocaleString"].

Lemma inherited_connection_outcome s :
  s ∈ inherited_states ->
  resolveProtocolOutcome connections s =
    Some (mkOutcome (Some PROCESSING) None (Some (Inherited s)) None).
Proof.
  intros H. repeat (apply elem_of_cons in H as [->|H]; [reflexivity|]). by apply elem_of_nil in H.
Qed.

(** A connection state that happens to name a member of Object.prototype is not
    ignored.  The table lookup finds the inherited member, so instead of being
    dropped as unknown the delivery reaches the guarded update with a value that
    is no connection state: the statement is refused, the transaction rolls back
    and the job fails, on every redelivery. *)
Theorem inherited_state_fails_delivery data correlation w id c :
  data.(psc_topic) = connections -> data.(psc_protocolState) ∈ inherited_states ->
  w.(committed).(db_connections) !! id = Some c ->
  c.(cn_tenantId) = data.(psc_tenantId) ->
  c.(cn_externalConnectionId) = Some data.(psc_externalId) ->
  (forall i o, w.(committed).(db_operations) !! i = Some o ->
     o.(op_externalId) <> Some data.(psc_externalId)) ->
  (process data correlation w).2 = inl (QueryFailed "22P02" "").
Proof.
  intros Ht Hs Hc Htn Hext Hops. unfold process. rewrite Ht, inherited_connection_outcome by done.
  assert (forall w0, w0.(committed) = w.(committed) ->
    (process_tx data (mkOutcome (Some PROCESSING) None (Some (Inherited (psc_protocolState data))) None)
       correlation w0).2 = inl (QueryFailed "22P02" "")) as Htx.
  { intros w0 Hw0. unfold process_tx, observeExchange, applyOutcome, applyOperationOutcome.
    rewrite decide_False by congruence.
    unfold mbind, prog_bind. simpl. rewrite Hw0.
    rewrite (proj2 (find_latest_None _ _ _)).
    2:{ intros i o Ho. unfold matches_external. rewrite (bool_decide_eq_false_2 _ (Hops i o Ho)).
        by rewrite andb_false_r. }
    simpl. rewrite decide_True by done.
    unfold applyConnectionOutcome, mbind, prog_bind. simpl. rewrite Hw0.
    destruct (find_one _ _) as [c'|] eqn:Ef; [reflexivity|].
    rewrite find_one_None in Ef. specialize (Ef id c Hc).
    rewrite Htn, String.eqb_refl, bool_decide_eq_true_2 in Ef; done. }
  unfold mbind at 1, prog_bind at 1, transaction.
  specialize (Htx (set_dbs (committed w) (committed w) w) eq_refl).
  destruct (process_tx _ _ _ _) as [w' [e|r]]; simpl in *; congruence.
Qed.

Lemma inherited_state_fails_delivery_witness :
  (process (mkPscData "t1" connections "c9" "toString" []) None
     (world_of (set_connections {[ "cn" := mkConnection "cn" "t1" (Some "c9") None None REQUESTED
        TRACTION (Some "k1") DIDCOMM_V1 [] 0 0 ]} sample_db) 0)).2 = inl (QueryFailed "22P02" "").
Proof.
  apply (inherited_state_fails_delivery (mkPscData "t1" connections "c9" "toString" []) None
    (world_of (set_connections {[ "cn" := mkConnection "cn" "t1" (Some "c9") None None REQUESTED
        TRACTION (Some "k1") DIDCOMM_V1 [] 0 0 ]} sample_db) 0) "cn"
    (mkConnection "cn" "t1" (Some "c9") None None REQUESTED TRACTION (Some "k1") DIDCOMM_V1 [] 0 0)).
  - reflexivity.
  - simpl. unfold inherited_states. set_solver.
  - reflexivity.
  - reflexivity.
  - reflexivity.
  - intros i o Ho. apply elem_of_map_to_list in Ho. vm_compute in Ho.
    repeat (apply elem_of_cons in Ho as [[= -> ->]|Ho]; [discriminate|]).
    by apply elem_of_nil in Ho.
Defined.
