(* ===== verification/WebhookIngestion.v ===== *)
(** * Webhook ingestion

    Models webhook-ingestion/connector-webhook.guard.ts,
    webhook-ingestion/traction-webhook.controller.ts and
    protocol-state-change/protocol-state-change.worker.ts: authenticating an
    agent's call, turning it into a queued job, and checking the job before it
    is processed. *)

From Stdlib Require Import Ascii ZArith Lia.
From stdpp Require Import base decidable strings sets gmap list list_relations.
From S2P Require Import Prelude Js Entities StateMapping OperationTtl Db Pagination.
From S2P Require Import OperationService CredentialRepository.
From S2P Require Import ConnectionRepository AdapterRegistry Auth ConnectionService.
From S2P Require Import ProtocolStateChange Encryption ConnectorRepository ConnectorService TenantService.
From S2P Require Import ConnectorAdmin ConnectorCorrectness Lifecycle.

Local Open Scope Z_scope.

(** ** ConnectorWebhookGuard *)

Record WebhookIdentity := mkWebhookIdentity {
  wi_connectorId : string;
  wi_tenantId : string;
  wi_connectorType : ConnectorType
}.

Definition secretMatches (configured : option string) (provided : string) : bool :=
  match configured with
  | Some ((String _ _) as expected) => String.eqb expected provided
  | _ => false
  end.

Definition webhook_refused {A} : Prog A :=
  throw (UnauthorizedException "Webhook authentication failed").

(** The decryption of the row found, re-encrypted under the current key when its own
    is older, may throw. *)
Definition webhookGuard_canActivate (env : ConnectorEnv) (connectorId providedSecret : option string)
    : Prog WebhookIdentity :=
  if truthy_str connectorId && truthy_str providedSecret then
    credential ← connector_findActiveForWebhook env (default "" connectorId);
    match credential with
    | None => webhook_refused
    | Some c =>
        decrypted ← of_sum (decrypt_credentials env c);
        if secretMatches (assoc "webhookSecret" decrypted) (default "" providedSecret)
        then mret (mkWebhookIdentity (default "" connectorId) c.(con_tenantId) c.(con_type))
        else webhook_refused
    end
  else webhook_refused.

(** ** TractionWebhookController *)

Definition CONNECTOR_WIRE_TOPIC_MAP (t : ConnectorType) : list (string * ProtocolTopic) :=
  match t with
  | TRACTION =>
      [("issue_credential_v2_0", issue_credential); ("present_proof_v2_0", present_proof);
       ("connections", connections); ("issuer_cred_rev", revocation_registry)]
  | CREDO => []
  end.

Definition CONNECTOR_TOPIC_EXTERNAL_ID_FIELD (t : ConnectorType) (topic : ProtocolTopic)
    : option string :=
  match t, topic with
  | TRACTION, issue_credential => Some "cred_ex_id"
  | TRACTION, present_proof => Some "pres_ex_id"
  | TRACTION, connections => Some "connection_id"
  | TRACTION, revocation_registry => Some "cred_ex_id"
  | CREDO, _ => None
  end.

Inductive ReceiveOutcome :=
| Accepted
| DROP_UNKNOWN_TOPIC | DROP_NO_EXTERNAL_ID_FIELD | DROP_MISSING_EXTERNAL_ID | DROP_MISSING_STATE.

(** A non-empty string property. *)
Definition string_field (k : string) (body : option json) : option string :=
  match get_prop k body with
  | Some (JStr s) => if truthy_str (Some s) then Some s else None
  | _ => None
  end.

(** An own or inherited topic; an inherited one has no external id field. *)
Definition receive (identity : WebhookIdentity) (wireTopic : string) (body : option json)
    : Prog ReceiveOutcome :=
  match js_index (CONNECTOR_WIRE_TOPIC_MAP identity.(wi_connectorType)) wireTopic with
  | None => mret DROP_UNKNOWN_TOPIC
  | Some (inr _) => mret DROP_NO_EXTERNAL_ID_FIELD
  | Some (inl topic) =>
      match CONNECTOR_TOPIC_EXTERNAL_ID_FIELD identity.(wi_connectorType) topic with
      | None => mret DROP_NO_EXTERNAL_ID_FIELD
      | Some field =>
          match string_field field body with
          | None => mret DROP_MISSING_EXTERNAL_ID
          | Some externalId =>
              match string_field "state" body with
              | None => mret DROP_MISSING_STATE
              | Some protocolState =>
                  _ ← send NoTx (ProtocolStateChange
                        (mkPscData identity.(wi_tenantId) topic externalId protocolState
                           (match body with Some (JObj o) => o | _ => [] end)));
                  mret Accepted
              end
          end
      end
  end.

(** ** ProtocolStateChangeWorker *)

(** A job's data as stored: any field may be missing. *)
Record RawJob := mkRawJob {
  rj_tenantId : option string;
  rj_topic : option string;
  rj_externalId : option string;
  rj_protocolState : option string;
  rj_payload : option json
}.

Definition is_hex (c : ascii) : bool :=
  let n := N_of_ascii c in
  ((48 <=? n)%N && (n <=? 57)%N) || ((97 <=? n)%N && (n <=? 102)%N) ||
  ((65 <=? n)%N && (n <=? 70)%N).

(** [n] hexadecimal digits, then the rest. *)
Fixpoint take_hex (n : nat) (s : string) : option string :=
  match n, s with
  | O, _ => Some s
  | S n', String c s' => if is_hex c then take_hex n' s' else None
  | S _, EmptyString => None
  end.

Definition take_dash (s : string) : option string :=
  match s with
  | String c s' => if eq_ascii c "-"%char then Some s' else None
  | EmptyString => None
  end.

(** [/^[0-9a-f]{8}-[0-9a-f]{4}-[0-9a-f]{4}-[0-9a-f]{4}-[0-9a-f]{12}$/i] *)
Definition is_uuid (s : string) : bool :=
  match (r ← take_hex 8 s; r ← take_dash r; r ← take_hex 4 r; r ← take_dash r;
         r ← take_hex 4 r; r ← take_dash r; r ← take_hex 4 r; r ← take_dash r;
         take_hex 12 r) with
  | Some EmptyString => true
  | _ => false
  end.

Definition topic_of (s : string) : option ProtocolTopic :=
  find (fun t => String.eqb (topic_str t) s)
    [issue_credential; present_proof; connections; revocation_registry].

Definition assertValidPayload (data : option RawJob) : Exn + ProtocolStateChangeJobData :=
  let refused := inl (JsError "Invalid protocol.state-change payload") in
  match data with
  | None => refused
  | Some j =>
      if truthy_str j.(rj_tenantId) && truthy_str j.(rj_topic) && truthy_str j.(rj_externalId) &&
         truthy_str j.(rj_protocolState) && truthy j.(rj_payload) &&
         is_uuid (default "" j.(rj_tenantId))
      then
        match topic_of (default "" j.(rj_topic)), j.(rj_payload) with
        | Some topic, Some (JObj payload) =>
            inr (mkPscData (default "" j.(rj_tenantId)) topic (default "" j.(rj_externalId))
                   (default "" j.(rj_protocolState)) payload)
        | _, _ => refused
        end
      else refused
  end.

Definition handle (data : option RawJob) : Prog Settled :=
  data ← of_sum (assertValidPayload data);
  process data None.

(** ** Properties *)

(** The job a controller enqueues, as the worker reads it back. *)
Definition raw_of (d : ProtocolStateChangeJobData) : RawJob :=
  mkRawJob (Some d.(psc_tenantId)) (Some (topic_str d.(psc_topic))) (Some d.(psc_externalId))
    (Some d.(psc_protocolState)) (Some (JObj d.(psc_payload))).

Lemma topic_of_str t : topic_of (topic_str t) = Some t.
Proof. by destruct t. Qed.

Lemma string_field_Some k body s :
  string_field k body = Some s -> get_prop k body = Some (JStr s) /\ truthy_str (Some s) = true.
Proof.
  unfold string_field. destruct (get_prop k body) as [[]|]; try done.
  destruct (truthy_str (Some s0)) eqn:E; intros; by simplify_eq.
Qed.

Lemma get_prop_obj k body v : get_prop k body = Some v -> exists o, body = Some (JObj o).
Proof. destruct body as [[]|]; simpl; try done. eauto. Qed.

Lemma assoc_In {A} k (o : list (string * A)) v : assoc k o = Some v -> (k, v) ∈ o.
Proof.
  induction o as [|[k' v'] o IH]; simpl; [done|].
  destruct (String.eqb_spec k k') as [->|]; intros; simplify_eq; [left|right]; auto.
Qed.

Lemma js_index_own {A} (t : list (string * A)) k v : js_index t k = Some (inl v) -> (k, v) ∈ t.
Proof. unfold js_index. intros H. repeat case_match; simplify_eq. by apply assoc_In. Qed.

(** What ingestion queues is what the worker accepts.  Every call is
    acknowledged or fails to enqueue; a dropped one changes nothing; an accepted
    one adds exactly one job, for the tenant of the authenticated connector, whose
    topic, external id and state are the mapped topic and the non-empty string
    fields of the body; and when that tenant id is a UUID the worker's payload
    check lets the job through unchanged. *)
Theorem receive_enqueues identity wireTopic body w w' r :
  receive identity wireTopic body w = (w', inr r) ->
  (r <> Accepted /\ w' = w) \/
  (r = Accepted /\ exists data field,
     w'.(committed).(db_jobs) = w.(committed).(db_jobs) ++ [ProtocolStateChange data] /\
     data.(psc_tenantId) = identity.(wi_tenantId) /\
     (wireTopic, data.(psc_topic)) ∈ CONNECTOR_WIRE_TOPIC_MAP identity.(wi_connectorType) /\
     CONNECTOR_TOPIC_EXTERNAL_ID_FIELD identity.(wi_connectorType) data.(psc_topic) = Some field /\
     get_prop field body = Some (JStr data.(psc_externalId)) /\
     get_prop "state" body = Some (JStr data.(psc_protocolState)) /\
     (is_uuid identity.(wi_tenantId) = true ->
      assertValidPayload (Some (raw_of data)) = inr data)).
Proof.
  unfold receive. intros E.
  destruct (js_index _ _) as [[topic|]|] eqn:Ej; [|injection E as <- <-; by left..].
  apply js_index_own in Ej.
  destruct (CONNECTOR_TOPIC_EXTERNAL_ID_FIELD _ _) as [field|] eqn:Ef; [|injection E as <- <-; by left].
  destruct (string_field field body) as [ext|] eqn:Ee; [|injection E as <- <-; by left].
  destruct (string_field "state" body) as [st|] eqn:Es; [|injection E as <- <-; by left].
  apply string_field_Some in Ee as [Ee Het], Es as [Es Hst].
  destruct (get_prop_obj _ _ _ Es) as [o ->].
  run_inv E. injection E as <- <-. right. split; [done|]. unfold send in E0.
  destruct (send_fate w (sends w)); [|done..]. injection E0 as <- _. eexists _, field.
  split_and!; try done. intros Hu. unfold assertValidPayload, raw_of.
  cbn [rj_tenantId rj_topic rj_externalId rj_protocolState rj_payload psc_tenantId psc_topic
       psc_externalId psc_protocolState psc_payload default from_option id].
  assert (truthy_str (Some (wi_tenantId identity)) = true) as -> by (by destruct (wi_tenantId identity)).
  rewrite Het, Hst, Hu, topic_of_str. by destruct topic.
Qed.

Definition sample_identity : WebhookIdentity :=
  mkWebhookIdentity "k1" "0a1b2c3d-0000-4000-8000-00000000000F" TRACTION.

Lemma receive_enqueues_witness :
  exists data, (receive sample_identity "connections"
      (Some (JObj [("connection_id", JStr "c9"); ("state", JStr "active")]))
      (world_of empty_db 0)).1.(committed).(db_jobs) = [ProtocolStateChange data] /\
    assertValidPayload (Some (raw_of data)) = inr data.
Proof.
  destruct (receive_enqueues sample_identity "connections"
    (Some (JObj [("connection_id", JStr "c9"); ("state", JStr "active")])) (world_of empty_db 0)
    (receive sample_identity "connections"
       (Some (JObj [("connection_id", JStr "c9"); ("state", JStr "active")]))
       (world_of empty_db 0)).1 Accepted) as [[H _]|(_ & data & f & H & _ & _ & _ & _ & _ & Hv)].
  - vm_compute. reflexivity.
  - destruct H. reflexivity.
  - exists data. split; [exact H|]. apply Hv. vm_compute. reflexivity.
Defined.

#[local] Instance pres_webhookGuard env `{!EnvLaws env} i s :
  Pres (conn_ok env) (webhookGuard_canActivate env i s).
Proof.
  unfold webhookGuard_canActivate, connector_findActiveForWebhook, connectors_findById, webhook_refused. solve_pres.
Qed.

(** A webhook is attributed to the tenant that owns the connector whose secret
    it presented.  The guard passes only a call that names an existing, active
    connector and presents exactly the non-empty secret in its stored credentials,
    whatever key those are encrypted under; the tenant and type it attaches are that
    connector's, and the credentials stay readable when the guard re-encrypts them. *)
Theorem webhook_guard_sound env connectorId providedSecret w w' i :
  EnvLaws env -> Connectors_ok env w.(committed) ->
  webhookGuard_canActivate env connectorId providedSecret w = (w', inr i) ->
  Connectors_ok env w'.(committed) /\ exists c decrypted secret,
    connectorId = Some i.(wi_connectorId) /\
    w.(committed).(db_connectors) !! i.(wi_connectorId) = Some c /\ c.(con_active) = true /\
    decrypt_credentials env c = inr decrypted /\ assoc "webhookSecret" decrypted = Some secret /\
    providedSecret = Some secret /\ secret <> "" /\
    i.(wi_tenantId) = c.(con_tenantId) /\ i.(wi_connectorType) = c.(con_type).
Proof.
  intros HE Hok E. split.
  { pose proof (pres_webhookGuard env connectorId providedSecret w) as [H _]. rewrite E in H. by apply H. }
  unfold webhookGuard_canActivate in E.
  destruct connectorId as [k|], providedSecret as [p|]; rewrite ?andb_false_r in E; try done.
  destruct (_ && _); [|done]. run_inv E. unfold connector_findActiveForWebhook in E0. run_inv E0.
  injection E1 as <- <-. simpl in E0. destruct (db_connectors (committed w) !! k) as [c|] eqn:Ek;
    [|by injection E0 as <- <-].
  destruct (con_active c) eqn:Ea; [|by injection E0 as <- <-]. run_inv E0. injection E0 as <- <-.
  run_inv E. injection E0 as <- Ed'. destruct Hok as [K W _]. pose proof (K _ _ Ek) as Hid.
  destruct (W _ _ Ek) as (cs & Ed & _). rewrite <-Hid in Ek.
  eapply lazyRotate_same in E1 as (Ed2 & _ & Ht & Hy & _); [|done..]. rewrite Ed2 in Ed'. injection Ed' as <-.
  unfold secretMatches in E. destruct (assoc "webhookSecret" cs) as [[|b s]|] eqn:Es; try done.
  destruct (String.eqb_spec (String b s) (default "" (Some p))) as [Hp|]; [|discriminate E]. injection E as <- <-.
  exists c, cs, (String b s). rewrite Hid in Ek. simpl in Hp. subst p. split_and!; done.
Qed.

Definition webhook_events : list ConnectorEvent :=
  [Serve (ReqCreate "t" (mkCreateConnector TRACTION "https://agent" [("webhookSecret", "hunter2")])
            (mkAuth "u" user_token (Some "t") [] ["tenants:admin"])); Deploy provider2].

(** A connector stored under the first key and called under the second. *)
Lemma webhook_guard_sound_witness :
  let '(env, w) := run_events sample_env webhook_events (world_of two_tenants 0) in
  exists i c, (webhookGuard_canActivate env (Some i.(wi_connectorId)) (Some "hunter2") w).2 = inr i /\
    w.(committed).(db_connectors) !! i.(wi_connectorId) = Some c /\ c.(con_keyVersion) = num_of_Z 1 /\
    i.(wi_tenantId) = c.(con_tenantId).
Proof.
  destruct (run_events sample_env webhook_events (world_of two_tenants 0)) as [env w] eqn:Eh.
  set (k := "u1"). set (i := mkWebhookIdentity k "t" TRACTION).
  assert (E : exists w', webhookGuard_canActivate env (Some k) (Some "hunter2") w = (w', inr i)).
  { injection Eh as <- <-. eexists. vm_compute. reflexivity. }
  destruct E as [w' E].
  assert (Hok : EnvLaws env /\ Connectors_ok env w.(committed)).
  { injection Eh as <- <-. split; [split; apply sample_env_laws|]. apply (run_events_ok sample_env webhook_events (world_of two_tenants 0)).
    - apply sample_env_laws.
    - intros keys t m [= <-]. apply sample_manager_laws, _.
    - split; [by apply NoDup_singleton|]. split; [|done]. intros v key. unfold getKey, provider1, provider2. simpl.
      case_decide; [done|]. discriminate.
    - split; by intros ?. }
  destruct (webhook_guard_sound env (Some k) (Some "hunter2") w w' i) as (_ & c & cs & s & _ & Hc & _ & _ & _ & _ & _ & Ht & _);
    [apply Hok|apply Hok|exact E|].
  exists i, c. split; [exact (f_equal snd E)|]. split; [exact Hc|]. split; [|exact Ht].
  injection Eh as <- <-. vm_compute in Hc. injection Hc as <-. reflexivity.
Defined.
