(* ===== verification/Listing.v ===== *)
(** * Cursors and listings

    The text of a cursor, and what a client sees that follows cursors through a listing. *)

From Stdlib Require Import Ascii ZArith Lia Sorted.
From stdpp Require Import base decidable strings sets gmap list list_relations.
From S2P Require Import Prelude Js OperationTtl JsText Entities StateMapping Db Pagination OperationService.
From S2P Require Import OperationPurge ConnectionRepository.

(** * Cursors on the wire

    common/cursor-pagination.ts: a cursor is sent to the client as the base64url of its
    JSON text and read back with its values checked.  Parameters are the checks of
    class-validator and what [toString('utf8')] makes of bytes that are no text. *)

Local Open Scope N_scope.

(** ** base64url *)

Module Base64url.

Definition digit (n : N) : ascii :=
  if n <? 26 then ascii_of_N (65 + n)
  else if n <? 52 then ascii_of_N (71 + n)
  else if n <? 62 then ascii_of_N (n - 4)
  else if n =? 62 then "-"%char else "_"%char.

Definition group3 (a b c : N) : string :=
  String (digit (a / 4)) (String (digit (a mod 4 * 16 + b / 16))
    (String (digit (b mod 16 * 4 + c / 64)) (String (digit (c mod 64)) EmptyString))).

Fixpoint encode (s : string) : string :=
  match s with
  | EmptyString => EmptyString
  | String a EmptyString =>
      let a := N_of_ascii a in String (digit (a / 4)) (String (digit (a mod 4 * 16)) EmptyString)
  | String a (String b EmptyString) =>
      let a := N_of_ascii a in let b := N_of_ascii b in
      String (digit (a / 4)) (String (digit (a mod 4 * 16 + b / 16)) (String (digit (b mod 16 * 4)) EmptyString))
  | String a (String b (String c r)) => group3 (N_of_ascii a) (N_of_ascii b) (N_of_ascii c) +:+ encode r
  end.

(** A character of either alphabet. *)
Definition value (c : ascii) : option N :=
  let n := N_of_ascii c in
  if (65 <=? n) && (n <=? 90) then Some (n - 65)
  else if (97 <=? n) && (n <=? 122) then Some (n - 71)
  else if (48 <=? n) && (n <=? 57) then Some (n + 4)
  else if (n =? 45) || (n =? 43) then Some 62
  else if (n =? 95) || (n =? 47) then Some 63
  else None.

(** [Buffer.from(s, 'base64url')]: other characters are skipped, and bits that make no
    byte are dropped. *)
Fixpoint values (s : string) : list N :=
  match s with
  | EmptyString => []
  | String c r => match value c with Some n => n :: values r | None => values r end
  end.

Fixpoint bytes (l : list N) : string :=
  match l with
  | a :: b :: c :: d :: r =>
      String (ascii_of_N (a * 4 + b / 16)) (String (ascii_of_N (b mod 16 * 16 + c / 4))
        (String (ascii_of_N (c mod 4 * 64 + d)) (bytes r)))
  | [a; b; c] => String (ascii_of_N (a * 4 + b / 16)) (String (ascii_of_N (b mod 16 * 16 + c / 4)) EmptyString)
  | [a; b] => String (ascii_of_N (a * 4 + b / 16)) EmptyString
  | _ => EmptyString
  end.

Definition decode (s : string) : string := bytes (values s).

(** *** The round trip *)

Lemma value_digit n : n < 64 -> value (digit n) = Some n.
Proof.
  intros H. assert (forallb (fun k => bool_decide (value (digit k) = Some k)) (map N.of_nat (seq 0 64)) = true) as Hall
    by (vm_compute; reflexivity).
  rewrite forallb_forall in Hall. specialize (Hall n). apply bool_decide_eq_true in Hall; [done|].
  apply in_map_iff. exists (N.to_nat n). split; [lia|]. apply in_seq. lia.
Qed.

Lemma values_digit n r : n < 64 -> values (String (digit n) r) = n :: values r.
Proof. intros H. cbn [values]. by rewrite value_digit. Qed.

Lemma byte_bound c : N_of_ascii c < 256.
Proof. destruct c as [[] [] [] [] [] [] [] []]; vm_compute; reflexivity. Qed.

Ltac arith := zify; Z.to_euclidean_division_equations; lia.

Lemma byte_back c n : n = N_of_ascii c -> ascii_of_N n = c.
Proof. intros ->. apply ascii_N_embedding. Qed.

(** Induction by groups of three. *)
Lemma string_ind3 (P : string -> Prop) :
  P "" -> (forall a, P (String a "")) -> (forall a b, P (String a (String b ""))) ->
  (forall a b c r, P r -> P (String a (String b (String c r)))) -> forall s, P s.
Proof.
  intros H0 H1 H2 H3. enough (forall s, P s /\ (forall a, P (String a s)) /\ (forall a b, P (String a (String b s)))) as H
    by (intros s; apply H).
  induction s as [|c s (IH1 & IH2 & IH3)]; split_and!; auto.
Qed.

Lemma base64url_round_trip s : decode (encode s) = s.
Proof.
  unfold decode. induction s as [|a|a b|a b c r IH] using string_ind3.
  - done.
  - cbn [encode]. cbv zeta. pose proof (byte_bound a). set (n := N_of_ascii a) in *.
    rewrite !values_digit by arith. cbn [values bytes]. f_equal. apply byte_back. fold n. arith.
  - cbn [encode]. cbv zeta. pose proof (byte_bound a). pose proof (byte_bound b).
    set (n := N_of_ascii a) in *. set (m := N_of_ascii b) in *.
    rewrite !values_digit by arith. cbn [values bytes]. f_equal; [apply byte_back; fold n; arith|].
    f_equal. apply byte_back. fold m. arith.
  - pose proof (byte_bound a). pose proof (byte_bound b). pose proof (byte_bound c).
    set (n := N_of_ascii a) in *. set (m := N_of_ascii b) in *. set (k := N_of_ascii c) in *.
    change (encode (String a (String b (String c r)))) with
      (String (digit (n / 4)) (String (digit (n mod 4 * 16 + m / 16)) (String (digit (m mod 16 * 4 + k / 64))
         (String (digit (k mod 64)) (encode r))))).
    rewrite !values_digit by arith. cbn [bytes]. rewrite IH. f_equal; [apply byte_back; fold n; arith|].
    f_equal; [apply byte_back; fold m; arith|]. f_equal. apply byte_back. fold k. arith.
Qed.

End Base64url.

(** ** Cursors *)

Record CursorText := mkCursorText { ct_createdAt : string; ct_id : string }.

Definition encodeCursor (cursor : CursorText) : string :=
  Base64url.encode (JsonText.print_object [("createdAt", cursor.(ct_createdAt)); ("id", cursor.(ct_id))]).

(** isRFC3339, isISO8601 in strict mode, a finite [Date.parse], isUUID, and the text of
    bytes. *)
Record CursorEnv := mkCursorEnv {
  ce_isRFC3339 : string -> bool;
  ce_isISO8601 : string -> bool;
  ce_finiteDate : string -> bool;
  ce_isUUID : string -> bool;
  ce_utf8 : string -> string
}.

Section Decoding.
Context (env : CursorEnv).

Definition valid_cursor (c : CursorText) : bool :=
  env.(ce_isRFC3339) c.(ct_createdAt) && env.(ce_isISO8601) c.(ct_createdAt) &&
  negb (String.prefix "0000-" c.(ct_createdAt)) && env.(ce_finiteDate) c.(ct_createdAt) && env.(ce_isUUID) c.(ct_id).

Definition decodeCursor (raw : string) : Exn + CursorText :=
  let invalid := inl (BadRequestException "Invalid pagination cursor.") in
  match JsonText.parse (env.(ce_utf8) (Base64url.decode raw)) with
  | Some parsed =>
      match get_prop "createdAt" (Some parsed), get_prop "id" (Some parsed) with
      | Some (JStr createdAt), Some (JStr id) =>
          let cursor := mkCursorText createdAt id in
          if valid_cursor cursor then inr cursor else invalid
      | _, _ => invalid
      end
  | None => invalid
  end.

(** Bytes that are text are left as they are. *)
Context (utf8_text : forall c, env.(ce_utf8) (JsonText.print_object [("createdAt", c.(ct_createdAt)); ("id", c.(ct_id))]) =
  JsonText.print_object [("createdAt", c.(ct_createdAt)); ("id", c.(ct_id))]).

Lemma decode_sent c :
  JsonText.parse (env.(ce_utf8) (Base64url.decode (encodeCursor c))) =
  Some (JObj [("createdAt", JStr c.(ct_createdAt)); ("id", JStr c.(ct_id))]).
Proof.
  unfold encodeCursor. rewrite Base64url.base64url_round_trip, utf8_text. apply (JsonText.parse_print_object [("createdAt", ct_createdAt c); ("id", ct_id c)]).
  simpl. repeat constructor; set_solver.
Qed.
End Decoding.

(** The client gives back what it was given: a cursor whose values are valid reads back
    as itself, one whose values are not is refused, and what is accepted at all has valid
    values. *)
Theorem cursor_round_trip env c :
  (forall c, env.(ce_utf8) (JsonText.print_object [("createdAt", c.(ct_createdAt)); ("id", c.(ct_id))]) =
     JsonText.print_object [("createdAt", c.(ct_createdAt)); ("id", c.(ct_id))]) ->
  decodeCursor env (encodeCursor c) =
    (if valid_cursor env c then inr c else inl (BadRequestException "Invalid pagination cursor.")) /\
  (forall raw c', decodeCursor env raw = inr c' -> valid_cursor env c' = true).
Proof.
  intros Hu. split.
  - unfold decodeCursor. rewrite decode_sent by done. simpl. by destruct c.
  - intros raw c'. unfold decodeCursor. destruct (JsonText.parse _) as [v|]; [|done].
    destruct (get_prop "createdAt" _) as [[]|]; try done. destruct (get_prop "id" _) as [[]|]; try done.
    destruct (valid_cursor _ _) eqn:E; [|done]. by intros [= <-].
Qed.

(** The first page of a list ends at a row of this date. *)
Definition sample_cursor_env : CursorEnv :=
  mkCursorEnv (fun _ => true) (fun _ => true) (fun _ => true)
    (fun s => (String.length s =? 36)%nat) (fun s => s).

Lemma cursor_round_trip_witness :
  let c := mkCursorText "2026-01-02T03:04:05.678Z" "3fa85f64-5717-4562-b3fc-2c963f66afa6" in
  encodeCursor (mkCursorText "" "a") = "eyJjcmVhdGVkQXQiOiIiLCJpZCI6ImEifQ" /\
  decodeCursor sample_cursor_env (encodeCursor c) = inr c.
Proof.
  intros c. split; [vm_compute; reflexivity|].
  rewrite (proj1 (cursor_round_trip sample_cursor_env c (fun _ => eq_refl))). vm_compute. reflexivity.
Defined.

(** * Following a listing page by page

    What a client sees that follows [next_cursor] through the operation listing
    (operation.repository.ts, microsecond cursors) and through the connection
    listing (connection.repository.ts, millisecond cursors). *)

Local Open Scope Z_scope.

(** ** Operations *)

Definition with_cursor (f : FindByTenantFilters) (c : option Cursor) : FindByTenantFilters :=
  mkFilters f.(fl_tenantId) f.(fl_state) f.(fl_type) f.(fl_batchId) f.(fl_limit) c.

(** At most [fuel] pages; [None] when there are more. *)
Fixpoint walk_operations (f : FindByTenantFilters) (t : gmap string Operation) (fuel : nat)
    (c : option Cursor) : option (list Operation) :=
  match fuel with
  | O => None
  | S fuel' =>
      let p := operation_page (with_cursor f c) t in
      match p.(pg_nextCursor) with
      | None => Some p.(pg_items)
      | Some c' => rest ← walk_operations f t fuel' (Some c'); Some (p.(pg_items) ++ rest)
      end
  end.

Lemma walk_operations_follow f t fuel c :
  walk_operations f t fuel c =
  follow op_key DESC op_cursor (matches_filters f) (default DEFAULT_LIMIT f.(fl_limit)) (rows t)
    fuel c.
Proof.
  revert c. induction fuel as [|fuel IH]; intros c; [done|]. cbn [walk_operations follow]. cbv zeta.
  change (operation_page (with_cursor f c) t) with
    (find_page op_key DESC op_cursor (matches_filters f) (default DEFAULT_LIMIT (fl_limit f)) c
       (rows t)).
  set (p := find_page _ _ _ _ _ _ _). destruct (pg_nextCursor p); [by rewrite IH|done].
Qed.

(** Rows with distinct keys have distinct sort positions. *)
Lemma rows_distinct {A} (key : A -> Z * string) (id : A -> string) (t : gmap string A) :
  (forall i r, t !! i = Some r -> id r = i) -> (forall r, (key r).2 = id r) ->
  distinct_keys key (rows t).
Proof.
  intros Hk Hkey. unfold distinct_keys, rows. apply (NoDup_fmap_1 snd).
  rewrite <-!list_fmap_compose. rewrite (list_fmap_ext _ fst).
  - apply NoDup_fst_map_to_list.
  - intros i [k r] Hr. simpl. rewrite Hkey. apply Hk, elem_of_map_to_list.
    by eapply list_elem_of_lookup_2.
Qed.

(** Paging through operations misses nothing and repeats nothing.  Following
    [next_cursor] from the first page, with any filters and any positive page
    size, ends and yields every matching operation exactly once, newest first,
    ties broken by id. *)
Theorem operation_pages_complete f t fuel :
  op_keyed t -> (0 < default DEFAULT_LIMIT f.(fl_limit))%nat -> (0 < fuel)%nat ->
  (count_rows (matches_filters f) t <= fuel * default DEFAULT_LIMIT f.(fl_limit))%nat ->
  exists l, walk_operations f t fuel None = Some l /\ l ≡ₚ select (matches_filters f) t /\
    forall i j a b, (i < j)%nat -> l !! i = Some a -> l !! j = Some b ->
      key_lt (op_key b) (op_key a).
Proof.
  intros Hk Hlim Hf Hlen.
  assert (distinct_keys op_key (rows t)) as Hd by (by apply (rows_distinct op_key op_id)).
  exists (listing op_key DESC (matches_filters f) (rows t)). rewrite walk_operations_follow.
  split_and!.
  - apply (follow_rest op_key DESC op_cursor (matches_filters f) _ (rows t)) with (seen := []);
      try done. unfold listing. by rewrite order_by_perm.
  - unfold listing. by rewrite order_by_perm.
  - intros i j a b Hij Ha Hb.
    pose proof (order_by_sorted op_key DESC (filter (fun r => matches_filters f r = true) (rows t))
                  (distinct_keys_filter op_key _ _ Hd)) as Hs.
    change (row_before op_key DESC a b).
    eapply (sorted_app_before op_key DESC (take (S i) _) (drop (S i) _)).
    + rewrite take_drop. exact Hs.
    + apply list_elem_of_lookup. exists i. rewrite lookup_take. by rewrite decide_True by lia.
    + apply list_elem_of_lookup. exists (j - S i)%nat. rewrite lookup_drop.
      by replace (S i + (j - S i))%nat with j by lia.
Qed.

Definition listed_op (id : string) (created : Z) : Operation :=
  mkOperation id "t" None CREDENTIAL_OFFER PENDING JNull None None None None 0 created created.

(** Three operations within one millisecond, two of them in the same
    microsecond. *)
Definition listed_ops : gmap string Operation :=
  {[ "a" := listed_op "a" 1700; "b" := listed_op "b" 1705; "c" := listed_op "c" 1705 ]}.

Lemma operation_pages_complete_witness :
  walk_operations (mkFilters "t" None None None (Some 1%nat) None) listed_ops 3 None =
    Some [listed_op "c" 1705; listed_op "b" 1705; listed_op "a" 1700] /\
  exists l, walk_operations (mkFilters "t" None None None (Some 1%nat) None) listed_ops 3 None = Some l
    /\ l ≡ₚ select (matches_filters (mkFilters "t" None None None (Some 1%nat) None)) listed_ops.
Proof.
  split; [vm_compute; reflexivity|].
  destruct (operation_pages_complete (mkFilters "t" None None None (Some 1%nat) None) listed_ops 3)
    as (l & H1 & H2 & _).
  - apply map_Forall_to_list. vm_compute. repeat constructor.
  - simpl. lia.
  - lia.
  - vm_compute. lia.
  - exists l. split; [exact H1|exact H2].
Defined.

(** ** Connections *)

Definition cn_keyed (t : gmap string Connection) : Prop :=
  forall i c, t !! i = Some c -> c.(cn_id) = i.

Fixpoint walk_connections (tenantId : string) (f : ConnectionFilters) (limit : nat)
    (t : gmap string Connection) (fuel : nat) (c : option Cursor) : option (list Connection) :=
  match fuel with
  | O => None
  | S fuel' =>
      let p := connection_page tenantId f limit c t in
      match p.(pg_nextCursor) with
      | None => Some p.(pg_items)
      | Some c' =>
          rest ← walk_connections tenantId f limit t fuel' (Some c'); Some (p.(pg_items) ++ rest)
      end
  end.

Lemma date_of_below us : us mod 1000 <> 0 -> column_of (date_of us) < us.
Proof.
  unfold column_of, date_of. intros H. pose proof (Z.div_mod us 1000 ltac:(lia)).
  pose proof (Z.mod_pos_bound us 1000 ltac:(lia)). lia.
Qed.

(** The cursor of a row with a fraction of a millisecond stands before the row. *)
Lemma cn_cursor_before c c' :
  c.(cn_createdAt) mod 1000 <> 0 -> c' = c \/ row_before cn_key ASC c c' ->
  after_cursor cn_key ASC (Some (cn_cursor c)) c' = true.
Proof.
  intros Hm Hc. simpl. apply key_ltb_spec. simpl. apply date_of_below in Hm.
  destruct Hc as [->|Hb]; [simpl; lia|].
  unfold row_before, before, key_lt in Hb. apply key_ltb_spec in Hb. simpl in Hb.
  destruct Hb as [|[? _]]; simpl; lia.
Qed.

(** Paging through connections can stand still.  With a page size of one, if
    the tenant's first matching connection was not created on a whole millisecond
    and there is a second one, every page is that same first connection: the
    cursor it hands out lies before the row itself, and no number of pages ends
    the listing. *)
Theorem connection_pages_stuck tenantId f t c1 c2 rest :
  cn_keyed t ->
  listing cn_key ASC (connection_matches tenantId f) (rows t) = c1 :: c2 :: rest ->
  c1.(cn_createdAt) mod 1000 <> 0 ->
  forall fuel, walk_connections tenantId f 1 t fuel None = None.
Proof.
  intros Hk Hl Hm.
  assert (distinct_keys cn_key (rows t)) as Hd by (by apply (rows_distinct cn_key cn_id)).
  assert (StronglySorted (row_before cn_key ASC) (c1 :: c2 :: rest)) as Hs.
  { rewrite <-Hl. by apply order_by_sorted, distinct_keys_filter. }
  assert (forall c, c = None \/ c = Some (cn_cursor c1) ->
    pg_nextCursor (connection_page tenantId f 1 c t) = Some (cn_cursor c1)) as Hpage.
  { intros c Hc. unfold connection_page, find_page.
    rewrite keyset_query_listing by done. rewrite Hl, filter_all; [done|].
    intros x Hx. destruct Hc as [-> | ->]; [done|]. apply cn_cursor_before; [done|].
    apply elem_of_cons in Hx as [->|Hx]; [by left|right].
    inversion Hs as [|? ? _ Hall]; subst. rewrite Forall_forall in Hall. by apply Hall. }
  assert (forall fuel c, c = None \/ c = Some (cn_cursor c1) ->
    walk_connections tenantId f 1 t fuel c = None) as Hw; [|by auto].
  intros fuel. induction fuel as [|fuel IH]; intros c Hc; [done|].
  cbn [walk_connections]. cbv zeta. rewrite Hpage by done. by rewrite IH by auto.
Qed.

Definition listed_cn (id : string) (created : Z) : Connection :=
  mkConnection id "t" None None None INVITED TRACTION (Some "k") DIDCOMM_V1 [] created created.

Lemma connection_pages_stuck_witness :
  walk_connections "t" (mkConnFilters None None) 1
    {[ "a" := listed_cn "a" 1500; "b" := listed_cn "b" 9500 ]} 1000 None = None.
Proof.
  apply (connection_pages_stuck "t" (mkConnFilters None None)
    {[ "a" := listed_cn "a" 1500; "b" := listed_cn "b" 9500 ]}
    (listed_cn "a" 1500) (listed_cn "b" 9500) []).
  - apply map_Forall_to_list. vm_compute. repeat constructor.
  - vm_compute. reflexivity.
  - vm_compute. discriminate.
Defined.
