(* ===== verification/OperationCorrectness.v ===== *)
(** * What OperationService promises

    The guarded transition has one winner, a terminal operation's first read
    stamps it once, and a read serves a result of the documented shape. *)

From Stdlib Require Import Ascii ZArith Lia.
From stdpp Require Import base decidable strings sets gmap list list_relations.
From S2P Require Import Prelude Js Entities StateMapping OperationTtl Db Pagination.
From S2P Require Import OperationService CredentialRepository.
From S2P Require Import ConnectionRepository AdapterRegistry Auth ConnectionService.
From S2P Require Import ProtocolStateChange Lifecycle ProtocolLifecycle ProtocolNotification.

Local Open Scope Z_scope.

(** ** The guarded transition *)

(** A won transition wrote the patch on the row it found. *)
Lemma transitionStateIfForward_won i st from r m e w w1 o :
  transitionStateIfForward i st from r m e w = (w1, inr (Some o)) ->
  exists o0 x, (view m w).(db_operations) !! i = Some o0 /\ o0.(op_state) ∈ from /\
    o = op_set_updatedAt w.(clock) (apply_patch (mkPatch st r (Some x) e) (column_of x) o0) /\
    (view m w1).(db_operations) !! i = Some o.
Proof.
  unfold transitionStateIfForward, operations_findById, operations_transitionIfForward. cbv zeta.
  intros E. run_inv E. injection E0 as <- <-.
  destruct (db_operations (view m w) !! i) as [o0|] eqn:Eo; [|done].
  run_inv E. apply tenants_findById_inr in E0 as ->. run_inv E. destruct a0; [|done].
  run_inv E0. destruct (computeExpiresAt _ _ _ _) as [x|]; [|done]. injection E1 as <- <-.
  run_inv E. injection E1 as <- <-.
  destruct (db_operations (view m w0) !! i) as [o1|] eqn:Eo1; [|done].
  apply bind_inr in E as (w2 & u & Er & E). injection E as <- <-.
  assert (db_operations (view m w2) = db_operations (view m w0)) as Hsame.
  { unfold recordTerminalOutcome, record_metric in Er.
    destruct st as [[]|]; injection Er as <- _; by destruct m. }
  unfold update_operation in E0. run_inv E0. injection E as <- <-.
  rewrite Eo in E0. destruct (_ && _) eqn:Eg; [|done].
  apply andb_prop in Eg as [_ Hin%bool_decide_eq_true].
  run_inv E0. injection E as <- <-. run_inv E0. injection E0 as <-.
  unfold write_operation in E. run_inv E. injection E0 as <- <-.
  destruct (operation_conflict _ _ _); [done|]. injection E as <- _.
  assert (o1 = op_set_updatedAt w.(clock)
            (apply_patch (mkPatch st r (Some x) e) (column_of x) o0)) as ->.
  { destruct m; simpl in Eo1; rewrite lookup_insert_eq in Eo1; by simplify_eq. }
  exists o0, x. rewrite Hsame. done.
Qed.

(** A guard that cannot match leaves the world alone and reports no win. *)
Lemma transitionStateIfForward_lost i st from r m e w :
  (forall o, (view m w).(db_operations) !! i = Some o -> o.(op_state) ∉ from) ->
  (transitionStateIfForward i st from r m e w).1 = w /\
  forall o, (transitionStateIfForward i st from r m e w).2 <> inr (Some o).
Proof.
  intros H. unfold transitionStateIfForward, operations_findById, operations_transitionIfForward.
  unfold mbind, prog_bind. simpl. destruct (db_operations (view m w) !! i) as [o|] eqn:Eo; [|done].
  pose proof (tenants_findById_world (op_tenantId o) w) as Hw.
  destruct (tenants_findById (op_tenantId o) w) as [w1 [e1|tn]]; simpl in Hw; subst w1; [done|].
  simpl. destruct (computeExpiresAt _ _ _ _) as [x|]; [|done]. simpl.
  unfold update_operation, mbind, prog_bind. simpl. rewrite Eo.
  rewrite (bool_decide_eq_false_2 (op_state o ∈ from)) by (by apply H).
  rewrite andb_false_r. simpl. done.
Qed.

(** A guarded transition has one winner.  Once a guarded transition into a state
    has won, a second attempt at the same transition, after whatever else the
    service did to the tables in between, writes nothing and reports no win; and
    the winner's row carries exactly the requested state, result and external id. *)
Theorem guarded_transition_single_winner own id st r e w w1 o :
  transitionStateIfForward id (Some st) (operationStatesBelow (Some st)) r NoTx e w =
    (w1, inr (Some o)) ->
  (w1.(committed).(db_operations) !! id = Some o /\ o.(op_state) = st /\
   (forall r', r = Some r' -> o.(op_result) = r') /\
   (forall e', e = Some e' -> o.(op_externalId) = e')) /\
  forall w2 r2 e2, evolves own w1.(committed) w2.(committed) ->
    (transitionStateIfForward id (Some st) (operationStatesBelow (Some st)) r2 NoTx e2 w2).1 = w2 /\
    forall o2, (transitionStateIfForward id (Some st) (operationStatesBelow (Some st)) r2 NoTx e2 w2).2
      <> inr (Some o2).
Proof.
  intros Hwon. apply transitionStateIfForward_won in Hwon as (o0 & x & Ho0 & _ & Ho & Hrow).
  simpl in Hrow. split.
  - split; [done|]. subst o. unfold apply_patch. cbv zeta. cbn [tp_state tp_result tp_externalId].
    destruct r, e; simpl; split_and!; naive_solver.
  - intros w2 r2 e2 (Hops & _). apply transitionStateIfForward_lost. simpl. intros o2 Ho2 Hin.
    specialize (Hops id). unfold cell_evolves in Hops. rewrite Hrow, Ho2 in Hops.
    destruct Hops as [(_&_&_&_&_&_&_&Hh) _].
    apply operationStatesBelow_spec, op_step_rank in Hin.
    assert (op_state o = st) as Hst.
    { subst o. unfold apply_patch. by destruct r, e. }
    rewrite Hst in Hh. apply op_history_rank in Hh as [Heq|Hlt]; [rewrite Heq in Hin|]; lia.
Qed.

Lemma guarded_transition_single_winner_witness :
  let w := world_of sample_db 7000 in
  let run := transitionStateIfForward "o1" (Some COMPLETED) (operationStatesBelow (Some COMPLETED))
               (Some (Some JNull)) NoTx None in
  (exists o, (run w).2 = inr (Some o) /\ o.(op_state) = COMPLETED) /\ (run (run w).1).1 = (run w).1.
Proof.
  split; [eexists; split; vm_compute; reflexivity|].
  apply (guarded_transition_single_winner (fun _ => True) "o1" COMPLETED (Some (Some JNull)) None
    (world_of sample_db 7000)
    (transitionStateIfForward "o1" (Some COMPLETED) (operationStatesBelow (Some COMPLETED))
       (Some (Some JNull)) NoTx None (world_of sample_db 7000)).1
    (op_set_updatedAt 7000 (apply_patch (mkPatch (Some COMPLETED) (Some (Some JNull)) None None)
       259200000000 (sample_op "o1" "t1" PENDING (Some "ex1"))))).
  - vm_compute. reflexivity.
  - reflexivity.
Defined.

(** ** First view *)

Lemma terminal_no_conflict i o t : op_terminal o.(op_state) -> operation_conflict i o t = false.
Proof.
  intros Ho. unfold operation_conflict. apply not_true_is_false. intros H.
  apply existsb_exists in H as (o' & _ & H). apply andb_prop in H as [_ H].
  unfold same_inflight_slot in H. destruct Ho as [Ho|Ho]; rewrite Ho in H; simpl in H;
    rewrite !andb_false_r in H; done.
Qed.

(** Whether reading this row stamps it. *)
Definition needs_stamp (o : Operation) : bool :=
  isTerminalOperationState o.(op_state) && bool_decide (o.(op_viewedAt) = None).

(** The tables after the first view, [now] in milliseconds. *)
Definition stamped (now x : Z) (r : Operation) (d : DB) : DB :=
  set_operations
    (<[r.(op_id) := op_set_view (Some (column_of now)) (column_of x) r]> d.(db_operations)) d.

Lemma applyViewed_stamps r w w' o :
  w.(committed).(db_operations) !! r.(op_id) = Some r -> needs_stamp r = true ->
  applyViewed r w = (w', inr o) ->
  exists x tn, find_tenant r.(op_tenantId) w.(committed).(db_tenants) = Some tn /\
    computeOperationExpiresAt (Some r.(op_state)) (date_of r.(op_createdAt))
      (Some (date_of w.(clock))) tn.(tn_config) = Some x /\
    w' = set_dbs (stamped (date_of w.(clock)) x r w.(committed)) w.(working) w /\
    o = op_set_view (Some (column_of (date_of w.(clock)))) (column_of x) r.
Proof.
  intros Hr [Ht%isTerminalOperationState_spec Hv%bool_decide_eq_true]%andb_prop.
  unfold applyViewed. intros E. run_inv E. pose proof E0 as Etn. apply tenants_findById_inr in E0 as ->.
  run_inv E. injection E0 as <- <-. cbv zeta in E. run_inv E.
  unfold operations_markFirstView in E0. run_inv E0.
  destruct (computeOperationExpiresAt _ _ _ _) as [x|] eqn:Ex; [|done]. injection E1 as <- <-.
  run_inv E0. injection E1 as <- <-. rewrite Hr, Hv in E0.
  run_inv E0. injection E0 as <- <-. unfold write_operation in E1. run_inv E1. injection E0 as <- <-.
  rewrite terminal_no_conflict in E1 by done. injection E1 as <- _. injection E as <- <-.
  unfold tenants_findById in Etn. run_inv Etn. injection E as <- <-.
  destruct (find_tenant (op_tenantId r) (db_tenants (committed w))) as [tn|] eqn:Et; [|done].
  injection Etn as <-. exists x, tn. done.
Qed.

Lemma serveResult_world o w : (serveResult o w).1 = w.
Proof.
  unfold serveResult, batchSummary, mbind, prog_bind. cbv zeta.
  destruct (serves_batch_summary o); [|by repeat case_match].
  destruct (settledCounts o); simpl; case_decide; done.
Qed.

(** Reading is the only other thing [prepareForRead] does. *)
Lemma prepareForRead_world o w :
  (prepareForRead o w).1 =
  if needs_stamp o then (applyViewed o w).1 else w.
Proof.
  unfold prepareForRead, needs_stamp, mbind, prog_bind.
  destruct (isTerminalOperationState (op_state o) && _) eqn:E.
  - destruct (applyViewed o w) as [w' [e|o']]; [done|]. apply serveResult_world.
  - apply serveResult_world.
Qed.

Lemma getForTenant_run tenantId id w w1 o :
  getForTenant tenantId id w = (w1, inr o) ->
  exists r, w.(committed).(db_operations) !! id = Some r /\ r.(op_tenantId) = tenantId /\
    prepareForRead r w = (w1, inr o).
Proof.
  unfold getForTenant. intros E. run_inv E. injection E0 as <- <-.
  destruct (db_operations (committed w) !! id) as [r|] eqn:Er; [|done].
  destruct (String.eqb_spec (op_tenantId r) tenantId); [|done]. eauto.
Qed.

(** A terminal operation is stamped viewed exactly once, by the first read.  A
    successful tenant-scoped read of an operation that is in flight or already
    viewed changes no table.  The first read of a terminal one changes only that
    row's view time and expiry, to the read's instant and the expiry computed from
    it ([updated_at] and the state are untouched); and after any successful read, a
    later one by the same tenant changes nothing. *)
Theorem first_view_stamps_once tenantId id w w1 o :
  table_keyed op_id w.(committed).(db_operations) ->
  getForTenant tenantId id w = (w1, inr o) ->
  exists r, w.(committed).(db_operations) !! id = Some r /\ r.(op_tenantId) = tenantId /\
  (needs_stamp r = false /\ w1.(committed) = w.(committed) \/
   needs_stamp r = true /\ exists tn x, find_tenant tenantId w.(committed).(db_tenants) = Some tn /\
     computeOperationExpiresAt (Some r.(op_state)) (date_of r.(op_createdAt))
       (Some (date_of w.(clock))) tn.(tn_config) = Some x /\
     w1.(committed) = stamped (date_of w.(clock)) x r w.(committed)) /\
  forall later, (getForTenant tenantId id (set_clock later w1)).1.(committed) = w1.(committed).
Proof.
  intros Hk Hr. apply getForTenant_run in Hr as (r & Hrow & Ht & Hp). exists r.
  assert (op_id r = id) as Hid by (by apply Hk).
  pose proof (prepareForRead_world r w) as Hw1. rewrite Hp in Hw1. simpl in Hw1.
  split_and!; [done|done| |].
  - destruct (needs_stamp r) eqn:Es; [right|left; by subst]. split; [done|].
    unfold prepareForRead in Hp. fold (needs_stamp r) in Hp. rewrite Es in Hp. run_inv Hp.
    apply applyViewed_stamps in E as (x & tn & Htn & Hx & Hw & _); [|by rewrite Hid|done].
    exists tn, x. rewrite <-Ht. split_and!; [done|done|].
    destruct (serveResult a w0) as [w2 r2] eqn:Es2. injection Hp as -> ->.
    pose proof (serveResult_world a w0) as Hs. rewrite Es2 in Hs. simpl in Hs.
    by rewrite Hs, Hw.
  - intros later.
    destruct (getForTenant tenantId id (set_clock later w1)) as [w2 res] eqn:E2. simpl.
    unfold getForTenant, mbind, prog_bind in E2. simpl in E2.
    assert (exists r1, w1.(committed).(db_operations) !! id = Some r1 /\ needs_stamp r1 = false)
      as (r1 & Hr1 & Hn1).
    { destruct (needs_stamp r) eqn:Es; [|exists r; by subst].
      unfold prepareForRead in Hp. fold (needs_stamp r) in Hp. rewrite Es in Hp. run_inv Hp.
      apply applyViewed_stamps in E as (x & tn & _ & _ & Hw & _); [|by rewrite Hid|done].
      pose proof (serveResult_world a w0) as Hs. rewrite Hp in Hs. simpl in Hs. rewrite Hs, Hw.
      eexists. simpl. rewrite Hid, lookup_insert_eq. split; [done|].
      unfold needs_stamp. simpl. by rewrite andb_false_r. }
    rewrite Hr1 in E2. destruct (String.eqb _ _); [|by injection E2 as <-].
    pose proof (prepareForRead_world r1 (set_clock later w1)) as Hp1. rewrite E2, Hn1 in Hp1.
    simpl in Hp1. by subst.
Qed.

Lemma first_view_stamps_once_witness :
  let w := world_of (set_operations {[ "o" := sample_op "o" "t1" COMPLETED None ]} sample_db) 5000 in
  (getForTenant "t1" "o" w).1.(committed).(db_operations) !! "o" =
    Some (op_set_view (Some 5000) 3600005000 (sample_op "o" "t1" COMPLETED None)) /\
  (getForTenant "t1" "o" (set_clock 9000000 (getForTenant "t1" "o" w).1)).1.(committed) =
    (getForTenant "t1" "o" w).1.(committed).
Proof.
  split; [vm_compute; reflexivity|].
  destruct (first_view_stamps_once "t1" "o"
    (world_of (set_operations {[ "o" := sample_op "o" "t1" COMPLETED None ]} sample_db) 5000)
    (getForTenant "t1" "o" (world_of (set_operations
       {[ "o" := sample_op "o" "t1" COMPLETED None ]} sample_db) 5000)).1
    (op_set_view (Some 5000) 3600005000 (sample_op "o" "t1" COMPLETED None)))
    as (r & _ & _ & _ & H).
  - apply map_Forall_to_list. vm_compute. repeat constructor.
  - vm_compute. reflexivity.
  - apply H.
Defined.

(** ** What a read serves *)

Definition count_sum (c : BatchStateCounts) : Z :=
  Z.of_nat (bc_pending c + bc_processing c + bc_completed c + bc_failed c).

Lemma counts_total_exact c :
  count_sum c < 2 ^ 53 -> counts_total (result_counts c) = num_of_Z (count_sum c).
Proof.
  unfold count_sum. intros H. unfold counts_total, result_counts.
  cbn [rc_pending rc_processing rc_completed rc_failed]. rewrite !js_add_int by lia. f_equal. lia.
Qed.

(** An error entry of a settled batch: a failed child of this batch and tenant. *)
Definition error_entry (o : Operation) (t : gmap string Operation) (e : json) : Prop :=
  exists i child, t !! i = Some child /\ is_child o.(op_id) o.(op_tenantId) child = true /\
    child.(op_state) = FAILED /\ e = JObj (("id", JStr child.(op_id)) :: failureResult child).

Lemma failed_items_children b tn w w' l :
  operations_findFailedBatchItemsForTenant b tn w = (w', inr l) ->
  w' = w /\ (length l <= 100)%nat /\
  forall c, c ∈ l -> is_child b tn c = true /\ c.(op_state) = FAILED /\
    exists i, w.(committed).(db_operations) !! i = Some c.
Proof.
  unfold operations_findFailedBatchItemsForTenant, operations_findByTenantWithFilters, read.
  intros E. injection E as <- <-. split; [done|].
  unfold buildFilteredQuery, keyset_query. simpl. split; [rewrite length_take; lia|].
  intros c Hc. assert (c ∈ order_by op_key DESC (filter (fun r =>
    matches_filters (mkFilters tn (Some FAILED) None (Some (Some b)) (Some 100%nat) None) r &&
    after_cursor op_key DESC None r = true) (rows (db_operations (committed w))))) as Hin.
  { rewrite <-(take_drop 100). apply elem_of_app. by left. }
  rewrite order_by_perm in Hin. apply list_elem_of_filter in Hin as [Hm Hin].
  apply elem_of_rows in Hin. unfold matches_filters in Hm. simpl in Hm.
  rewrite !andb_true_r, !andb_true_iff, !bool_decide_eq_true, String.eqb_eq in Hm.
  destruct Hm as [[Ht Hs] Hb]. unfold is_child.
  rewrite Ht, String.eqb_refl, bool_decide_eq_true_2 by done. done.
Qed.

(** The two summaries. *)
Lemma batchSummary_processing o c w :
  o.(op_state) = PROCESSING ->
  batchSummary o c w =
    (w, inr (op_set_result (Some (JObj (("total", JNum (counts_total c)) :: counts_entries c))) o)).
Proof. intros Hs. unfold batchSummary. cbv zeta. by rewrite decide_True. Qed.

Lemma batchSummary_settled o c w :
  o.(op_state) <> PROCESSING ->
  exists errors, batchSummary o c w =
    (w, inr (op_set_result (Some (JObj
      [("total", JNum (counts_total c)); ("completed", JNum c.(rc_completed));
       ("failed", JNum c.(rc_failed)); ("errors", JArr errors)])) o)) /\
    (length errors <= 100)%nat /\
    forall e, e ∈ errors -> error_entry o w.(committed).(db_operations) e.
Proof.
  intros Hs. unfold batchSummary. cbv zeta. rewrite decide_False by done.
  destruct (operations_findFailedBatchItemsForTenant (op_id o) (op_tenantId o) w) as [w1 [e|l]] eqn:Ef;
    [done|]. pose proof Ef as Hf. apply failed_items_children in Hf as (-> & Hlen & Hin).
  eexists. split; [by erewrite bind_run by exact Ef|]. rewrite length_fmap, length_take.
  split; [lia|]. intros e (child & -> & Hch)%list_elem_of_fmap.
  assert (child ∈ l) as Hcl by (rewrite <-(take_drop 100); apply elem_of_app; by left).
  apply Hin in Hcl as (? & ? & i & ?). by exists i, child.
Qed.

(** Where the counts come from. *)
Lemma serveResult_batch o w :
  serves_batch_summary o = true ->
  exists c, serveResult o w = batchSummary o c w /\
    (o.(op_state) = PROCESSING ->
     c = result_counts (counts_of o.(op_id) o.(op_tenantId) w.(committed).(db_operations))).
Proof.
  intros Hb. unfold serveResult. rewrite Hb. unfold mbind, prog_bind.
  destruct (settledCounts o) as [c|] eqn:Es; simpl; eexists; (split; [reflexivity|]); [|done].
  intros Hp. unfold settledCounts in Es. by rewrite Hp in Es.
Qed.

(** The result a read serves has its documented shape.  Serving never fails and
    changes no table and nothing of the operation but its result.  Outside batch
    parents and definition registrations, an operation in flight serves no result,
    a failed one serves a [code] and a [message], a completed one what was stored.
    A processing batch parent serves the live counts of its tenant's children and
    their exact total; a settled one at most 100 errors, each a failed child of
    that batch and tenant. *)
Theorem served_result_contract o w :
  exists o', serveResult o w = (w, inr o') /\ o' = op_set_result o'.(op_result) o /\
  (isBatchParent o = false -> o.(op_type) <> CREDENTIAL_DEFINITION_REGISTER ->
     match o.(op_state) with
     | PENDING | PROCESSING => o'.(op_result) = None
     | FAILED => exists code message,
         o'.(op_result) = Some (JObj [("code", JStr code); ("message", JStr message)])
     | COMPLETED => o'.(op_result) = o.(op_result)
     end) /\
  (isBatchParent o = true -> o.(op_state) = PROCESSING ->
     let counts := counts_of o.(op_id) o.(op_tenantId) w.(committed).(db_operations) in
     exists total, o'.(op_result) =
       Some (JObj (("total", JNum total) :: counts_entries (result_counts counts))) /\
       (count_sum counts < 2 ^ 53 -> total = num_of_Z (count_sum counts))) /\
  (serves_batch_summary o = true -> o.(op_state) <> PROCESSING ->
     exists total completed failed errors, o'.(op_result) =
       Some (JObj [("total", JNum total); ("completed", JNum completed); ("failed", JNum failed);
                   ("errors", JArr errors)]) /\ (length errors <= 100)%nat /\
       forall e, e ∈ errors -> error_entry o w.(committed).(db_operations) e).
Proof.
  destruct (serves_batch_summary o) eqn:Eb.
  - assert (isBatchParent o = true) as Hbp
      by (unfold serves_batch_summary in Eb; by destruct (isBatchParent o)).
    destruct (serveResult_batch o w Eb) as (c & -> & Hc). rewrite Hbp.
    destruct (decide (op_state o = PROCESSING)) as [Hs|Hs].
    + rewrite batchSummary_processing by done. eexists. split_and!; try done.
      intros _ _. eexists. rewrite (Hc Hs). split; [done|]. apply counts_total_exact.
    + destruct (batchSummary_settled o c w Hs) as (errors & -> & Hlen & Hin).
      eexists. split_and!; try done. intros _ _. by eexists _, _, _, errors.
  - unfold serveResult. rewrite Eb.
    assert (isBatchParent o = true -> op_state o = PENDING \/ op_state o = FAILED) as Hnb.
    { unfold serves_batch_summary in Eb. intros Hb. rewrite Hb in Eb. simpl in Eb.
      destruct (op_state o); auto; done. }
    destruct (String.eqb_spec (op_type o) CREDENTIAL_DEFINITION_REGISTER) as [Hty|Hty].
    { exists o. split_and!; [done|by destruct o|done| |done].
      intros Hb Hp. rewrite Hp in Hnb. naive_solver. }
    destruct (op_state o) eqn:Es; simpl.
    + eexists. split_and!; done.
    + eexists. split_and!; try done. intros Hb. naive_solver.
    + exists o. split_and!; try done. by destruct o.
    + eexists. split_and!; try done. intros _ _. simpl. eauto.
Qed.
