(* ===== verification/BatchSettlement.v ===== *)
(** * Settling a batch

    What [settleBatchParent] does to the parent inside one transaction, and why it
    locks the parent first: the sibling workers of a batch as an interleaving of
    the statements of their transactions under READ COMMITTED. *)

From Stdlib Require Import Ascii ZArith Lia.
From stdpp Require Import base decidable strings sets gmap list list_relations relations functions.
From S2P Require Import Prelude Js Entities StateMapping OperationTtl Db Pagination.
From S2P Require Import OperationService CredentialRepository.
From S2P Require Import ConnectionRepository AdapterRegistry Auth ConnectionService.
From S2P Require Import ProtocolStateChange Lifecycle ProtocolLifecycle ProtocolNotification.
From S2P Require Import OperationCorrectness.

Local Open Scope Z_scope.

(** ** One transaction *)

Definition final_state (c : BatchStateCounts) : OperationState :=
  if (0 <? c.(bc_failed))%nat then FAILED else COMPLETED.

Definition claimable (b t : string) (d : DB) : option Operation :=
  match d.(db_operations) !! b with
  | Some r => if String.eqb r.(op_tenantId) t && bool_decide (r.(op_state) = PROCESSING)
              then Some r else None
  | None => None
  end.

Lemma claim_lost b t st w :
  claimable b t w.(working) = None ->
  operations_claimBatchSettlement b t st Tx w = (w, inr false).
Proof.
  unfold claimable, operations_claimBatchSettlement, update_operation, mbind, prog_bind.
  simpl. destruct (db_operations (working w) !! b) as [r|]; [|done]. by destruct (_ && _).
Qed.

Lemma claim_quiet b t st w :
  (operations_claimBatchSettlement b t st Tx w).1.(clock) = w.(clock) /\
  (operations_claimBatchSettlement b t st Tx w).1.(working).(db_jobs) = w.(working).(db_jobs).
Proof.
  unfold operations_claimBatchSettlement, update_operation, write_operation, mbind, prog_bind.
  simpl. destruct (db_operations (working w) !! b) as [r|]; [|done].
  destruct (_ && _); [|done]. simpl. by destruct (operation_conflict _ _ _).
Qed.

(** A save of a row that is there leaves the entity's fields under its id. *)
Lemma operations_save_lookup m o w w' saved :
  operations_save m o w = (w', inr saved) -> is_Some ((view m w).(db_operations) !! o.(op_id)) ->
  exists u r, (view m w').(db_operations) !! o.(op_id) = Some r /\
    op_set_updatedAt 0 r = op_set_updatedAt 0 o /\ r.(op_updatedAt) = u /\
    (view m w').(db_jobs) = (view m w).(db_jobs).
Proof.
  unfold operations_save. intros E [r Hr]. run_inv E. injection E0 as <- <-. rewrite Hr in E.
  destruct (decide _) as [Heq|Hne].
  - injection E as <- <-. exists (op_updatedAt r), r. done.
  - run_inv E. injection E0 as <- <-. run_inv E. injection E as <- <-.
    unfold write_operation in E0. run_inv E0. injection E as <- <-.
    destruct (operation_conflict _ _ _); [done|]. injection E0 as <- _.
    eexists _, (op_set_updatedAt (clock w) o). destruct m; simpl; by rewrite lookup_insert_eq.
Qed.

Lemma transitionState_settles b st res w w' o :
  InTx (fun _ => True) w -> is_Some (w.(working).(db_operations) !! b) ->
  transitionState b st (Some res) Tx None w = (w', inr o) ->
  exists r, w'.(working).(db_operations) !! b = Some r /\ r.(op_state) = st /\
    r.(op_result) = res /\ w'.(working).(db_jobs) = w.(working).(db_jobs).
Proof.
  intros HI Hwk. unfold transitionState, operations_findById. simpl. intros E. run_inv E.
  injection E0 as <- <-. destruct (db_operations (committed w) !! b) as [o0|] eqn:Eo; [|done].
  assert (op_id o0 = b) as Hid by (destruct HI as [[K _] _]; by apply K).
  run_inv E. apply tenants_findById_inr in E0 as ->. cbv zeta in E. run_inv E.
  apply date_param_inr in E0 as ->. run_inv E. run_inv E. injection E as <- <-.
  apply operations_save_lookup in E0 as (u & r & Hr & Hsame & _ & Hj); [|simpl; by rewrite Hid].
  simpl in Hr, Hj. rewrite Hid in Hr.
  match type of E1 with _ ?wa = (?wb, _) =>
    assert (db_operations (working wb) = db_operations (working wa) /\
            db_jobs (working wb) = db_jobs (working wa)) as [-> ->] end.
  { unfold recordTerminalOutcome, record_metric in E1.
    destruct st; injection E1 as <- _; done. }
  exists r. destruct r, o0. injection Hsame. intros. by subst.
Qed.

(** A batch parent is settled by the outcome of all its children.  When
    [settleBatchParent] returns, inside a worker's transaction: if a child is still
    in flight, or the parent is missing, another tenant's, or not processing,
    nothing changed; otherwise the parent is completed, or failed if any child
    failed, its stored result is the child counts, and the batch notification is
    the last job queued. *)
Theorem settleBatchParent_correct b t w w' :
  InTx (fun _ => True) w ->
  settleBatchParent b t w = (w', inr tt) ->
  let c := counts_of b t w.(working).(db_operations) in
  if (0 <? c.(bc_pending) + c.(bc_processing))%nat then w' = w
  else match claimable b t w.(working) with
       | None => w' = w
       | Some _ => exists r, w'.(working).(db_operations) !! b = Some r /\
           r.(op_state) = final_state c /\ r.(op_result) = Some (counts_result c) /\
           w'.(working).(db_jobs) = w.(working).(db_jobs) ++
             [WebhookDispatch t ("operation.batch." +:+ operation_state_str (final_state c)) b
                (date_of w.(clock))]
       end.
Proof.
  intros HI E. cbv zeta. unfold settleBatchParent, operations_lockBatchParent in E.
  run_inv E. injection E0 as <- _. run_inv E. injection E0 as <- <-. fold (final_state) in E.
  set (c := counts_of b t (db_operations (working w))) in *.
  change (view Tx w) with (working w) in E. fold c in E.
  destruct (0 <? bc_pending c + bc_processing c)%nat; [by injection E as <-|].
  cbv zeta in E. fold (final_state c) in E.
  destruct (claimable b t (working w)) as [r0|] eqn:Ec.
  2:{ run_inv E. rewrite claim_lost in E0 by done. injection E0 as <- <-. by injection E as <-. }
  run_inv E. pose proof (claimBatchSettlement_vrel (fun _ => True) Tx b t (final_state c) w I) as Hv.
  rewrite E0 in Hv. destruct a0.
  - assert (op_terminal (final_state c)) as Hfin
      by (unfold final_state, op_terminal; case_match; auto).
    specialize (Hv Hfin). eapply InTx_step in Hv; [|exact HI]. simpl in Hv.
    pose proof E0 as Hc1. apply claim_won in Hc1 as (_ & r & now & _ & _ & Hr1).
    pose proof (claim_quiet b t (final_state c) w) as [Hclk Hjobs]. rewrite E0 in Hclk, Hjobs.
    simpl in Hclk, Hjobs. run_inv E.
    pose proof (quiet_transitionState b (final_state c) (Some (Some (counts_result c))) Tx None w0)
      as (_ & _ & Hclk1). rewrite E1 in Hclk1. simpl in Hclk1.
    apply transitionState_settles in E1 as (r2 & Hr2 & Hst & Hres & Hj); [|done|by rewrite Hr1].
    apply dispatch_inr in E as (w3 & Hw3 & ->). simpl. specialize (Hw3 Tx). simpl in Hw3.
    exists r2. rewrite Hw3, Hj, Hjobs, Hclk1, Hclk. done.
  - exfalso. clear Hv. unfold claimable in Ec. unfold operations_claimBatchSettlement in E0.
    unfold update_operation in E0. run_inv E0. injection E1 as <- <-. simpl in E0.
    destruct (db_operations (working w) !! b); [|done]. destruct (_ && _); [|done].
    run_inv E0. by run_inv E0.
Qed.

Definition batch_op (id : string) (batch : option string) (s : OperationState) : Operation :=
  mkOperation id "t1" batch (match batch with Some _ => CREDENTIAL_OFFER | None => CREDENTIAL_OFFER_BATCH end) s JNull
    None None None None 0 0 0.
Definition batch_db : DB :=
  set_operations {[ "p" := batch_op "p" None PROCESSING; "a" := batch_op "a" (Some "p") COMPLETED;
                    "b" := batch_op "b" (Some "p") FAILED ]}
    (set_tenants {[ "t1" := sample_tenant "t1" None ]} empty_db).

Lemma batch_db_keyed : keyed batch_db.
Proof. repeat split; apply map_Forall_to_list; vm_compute; repeat constructor. Qed.

Lemma settleBatchParent_correct_witness :
  exists r, (settleBatchParent "p" "t1" (world_of batch_db 0)).1.(working).(db_operations) !! "p" =
      Some r /\ r.(op_state) = FAILED.
Proof.
  assert (InTx (fun _ => True) (world_of batch_db 0)) as HI.
  { split; [exact batch_db_keyed|reflexivity]. }
  destruct (settleBatchParent_correct "p" "t1" (world_of batch_db 0)
    (settleBatchParent "p" "t1" (world_of batch_db 0)).1 HI) as (r & H1 & H2 & _).
  - vm_compute. reflexivity.
  - exists r. split; [exact H1|exact H2].
Defined.

(** ** Sibling workers

    Worker [i] handles the last webhook of child [i].  Its transaction updates the
    child, takes the parent's row lock, recounts the children it can see (its own
    update and what others have committed), and commits, settling the parent if
    the recount found no child in flight and the parent is still processing.
    A transaction may also be rolled back before it commits, and the job retried.
    [locking := false] is the same worker without [lockBatchParent]. *)

Inductive Phase :=
| Ready
| Updated
| Locked
| Recounted (none_in_flight any_failed : bool)
| Committed.

#[export] Instance Phase_eq : EqDecision Phase.
Proof. solve_decision. Defined.

Inductive Parent := Processing | Settled (any_failed : bool).

Record Batch := mkBatch {
  ba_phase : nat -> Phase;
  ba_lock : option nat;
  ba_parent : Parent;
  ba_settlements : nat
}.

Section Workers.
Context (n : nat) (fails : nat -> bool) (locking : bool).

Definition batch_start : Batch := mkBatch (fun _ => Ready) None Processing 0.

(** A child's terminal state is visible to worker [i] once committed, or if it is
    its own. *)
Definition visible (s : Batch) (i j : nat) : bool :=
  bool_decide (j = i) || bool_decide (s.(ba_phase) j = Committed).

Definition recount (s : Batch) (i : nat) : Phase :=
  Recounted (forallb (visible s i) (seq 0 n))
    (existsb (fun j => visible s i j && fails j) (seq 0 n)).

Inductive batch_step (s : Batch) : Batch -> Prop :=
| step_update i :
    (i < n)%nat -> s.(ba_phase) i = Ready ->
    batch_step s (mkBatch (<[i := Updated]> s.(ba_phase)) s.(ba_lock) s.(ba_parent)
                    s.(ba_settlements))
| step_lock i :
    (i < n)%nat -> locking = true -> s.(ba_phase) i = Updated -> s.(ba_lock) = None ->
    batch_step s (mkBatch (<[i := Locked]> s.(ba_phase)) (Some i) s.(ba_parent)
                    s.(ba_settlements))
| step_recount i :
    (i < n)%nat -> s.(ba_phase) i = (if locking then Locked else Updated) ->
    batch_step s (mkBatch (<[i := recount s i]> s.(ba_phase)) s.(ba_lock) s.(ba_parent)
                    s.(ba_settlements))
| step_commit i all any :
    (i < n)%nat -> s.(ba_phase) i = Recounted all any ->
    batch_step s (mkBatch (<[i := Committed]> s.(ba_phase)) None
      (match s.(ba_parent), all with Processing, true => Settled any | p, _ => p end)
      (match s.(ba_parent), all with Processing, true => S s.(ba_settlements)
                                   | _, _ => s.(ba_settlements) end))
| step_rollback i :
    (i < n)%nat -> s.(ba_phase) i <> Ready -> s.(ba_phase) i <> Committed ->
    batch_step s (mkBatch (<[i := Ready]> s.(ba_phase))
      (if bool_decide (s.(ba_lock) = Some i) then None else s.(ba_lock)) s.(ba_parent)
      s.(ba_settlements)).

Definition reachable (s : Batch) : Prop := rtc batch_step batch_start s.

Definition all_committed (s : Batch) : Prop := forall i, (i < n)%nat -> s.(ba_phase) i = Committed.

Definition batch_outcome : bool := existsb fails (seq 0 n).
End Workers.

(** ** With the lock *)

Section Locking.
Context (n : nat) (fails : nat -> bool).

Definition holds (p : Phase) : bool :=
  match p with Locked | Recounted _ _ => true | _ => false end.

Definition batch_inv (s : Batch) : Prop :=
  (* the lock is held by whoever is past it *)
  (forall i, holds (s.(ba_phase) i) = true -> s.(ba_lock) = Some i) /\
  (* a recount stays true until its worker commits *)
  (forall i a f, s.(ba_phase) i = Recounted a f ->
     a = forallb (visible s i) (seq 0 n) /\
     f = existsb (fun j => visible s i j && fails j) (seq 0 n)) /\
  match s.(ba_parent) with
  | Processing => s.(ba_settlements) = 0%nat /\ ((0 < n)%nat -> ~ all_committed n s)
  | Settled f => s.(ba_settlements) = 1%nat /\ all_committed n s /\ f = batch_outcome n fails
  end.

Lemma in_seq_lt j : In j (seq 0 n) <-> (j < n)%nat.
Proof. rewrite in_seq. lia. Qed.

Lemma forallb_ext' {A} (f g : A -> bool) l : (forall x, In x l -> f x = g x) -> forallb f l = forallb g l.
Proof.
  induction l as [|x l IH]; simpl; [done|]. intros H. rewrite (H x) by auto. f_equal. auto.
Qed.
Lemma existsb_ext' {A} (f g : A -> bool) l : (forall x, In x l -> f x = g x) -> existsb f l = existsb g l.
Proof.
  induction l as [|x l IH]; simpl; [done|]. intros H. rewrite (H x) by auto. f_equal. auto.
Qed.

(** Only a commit changes what others see. *)
Lemma visible_insert s i p lock pa k j j' :
  p <> Committed -> s.(ba_phase) i <> Committed ->
  visible (mkBatch (<[i := p]> s.(ba_phase)) lock pa k) j j' = visible s j j'.
Proof.
  intros Hp Hi. unfold visible. f_equal. simpl. apply bool_decide_ext.
  destruct (decide (j' = i)) as [->|Hne].
  - rewrite fn_lookup_insert. naive_solver.
  - by rewrite fn_lookup_insert_ne by done.
Qed.

Lemma batch_start_inv : batch_inv batch_start.
Proof.
  split; [done|]. split; [done|]. split; [done|]. intros Hn H. by specialize (H 0%nat Hn).
Qed.

(** A step that commits nothing keeps the invariant, given the lock is right. *)
Lemma inv_no_commit s i p lock :
  batch_inv s -> (i < n)%nat -> p <> Committed -> s.(ba_phase) i <> Committed ->
  (forall j, holds ((<[i := p]> s.(ba_phase)) j) = true -> lock = Some j) ->
  (forall a f, p = Recounted a f -> p = recount n fails s i) ->
  batch_inv (mkBatch (<[i := p]> s.(ba_phase)) lock s.(ba_parent) s.(ba_settlements)).
Proof.
  intros (HL & HR & HP) Hi Hp Hpi Hlock Hrec. split_and!; [done| |]; simpl.
  - intros j a f Hj.
    rewrite (forallb_ext' _ (visible s j)) by (intros; by apply visible_insert).
    rewrite (existsb_ext' _ (fun k => visible s j k && fails k))
      by (intros; by rewrite visible_insert).
    destruct (decide (j = i)) as [->|Hne].
    + rewrite fn_lookup_insert in Hj. subst p. specialize (Hrec a f eq_refl).
      unfold recount in Hrec. by injection Hrec.
    + rewrite fn_lookup_insert_ne in Hj by done. by apply HR.
  - destruct (ba_parent s) as [|f].
    + destruct HP as [? HP]. split; [done|]. intros Hn Hall. specialize (Hall i Hi).
      simpl in Hall. by rewrite fn_lookup_insert in Hall.
    + destruct HP as (_ & HP & _). by destruct (Hpi (HP i Hi)).
Qed.

(** The recount of a worker that commits decides whether it is the last one. *)
Lemma commit_last s i all any :
  s.(ba_phase) i = Recounted all any -> batch_inv s -> (i < n)%nat ->
  all = true <-> forall j, (j < n)%nat -> j <> i -> s.(ba_phase) j = Committed.
Proof.
  intros Hi (_ & HR & _) Hn. destruct (HR i all any Hi) as [-> _]. rewrite forallb_forall.
  setoid_rewrite in_seq_lt. unfold visible. split.
  - intros H j Hj Hne. specialize (H j Hj).
    rewrite (bool_decide_eq_false_2 (j = i)) in H by done. by apply bool_decide_eq_true in H.
  - intros H j Hj. destruct (decide (j = i)) as [->|Hne]; [by rewrite bool_decide_eq_true_2|].
    rewrite (bool_decide_eq_true_2 (ba_phase s j = Committed)) by (by apply H).
    by rewrite orb_true_r.
Qed.

Lemma inv_commit s i all any :
  batch_inv s -> (i < n)%nat -> s.(ba_phase) i = Recounted all any ->
  batch_inv (mkBatch (<[i := Committed]> s.(ba_phase)) None
    (match s.(ba_parent), all with Processing, true => Settled any | p, _ => p end)
    (match s.(ba_parent), all with Processing, true => S s.(ba_settlements)
                                 | _, _ => s.(ba_settlements) end)).
Proof.
  intros Hinv Hi Hph. pose proof (commit_last s i all any Hph Hinv Hi) as Hlast.
  destruct Hinv as (HL & HR & HP).
  assert (forall j, holds ((<[i := Committed]> s.(ba_phase)) j) = false) as Hno.
  { intros j. destruct (decide (j = i)) as [->|Hne]; [by rewrite fn_lookup_insert|].
    rewrite fn_lookup_insert_ne by done. destruct (holds (ba_phase s j)) eqn:E; [|done].
    apply HL in E. assert (ba_lock s = Some i) by (apply HL; by rewrite Hph). congruence. }
  split_and!; simpl.
  - intros j Hj. by rewrite Hno in Hj.
  - intros j a f Hj. specialize (Hno j). by rewrite Hj in Hno.
  - destruct (ba_parent s) as [|f].
    + destruct HP as [HS _]. destruct all.
      * split; [by rewrite HS|]. assert (all_committed n
          (mkBatch (<[i := Committed]> (ba_phase s)) None (Settled any) (S (ba_settlements s)))) as Hall.
        { intros j Hj. simpl. destruct (decide (j = i)) as [->|]; [by rewrite fn_lookup_insert|].
          rewrite fn_lookup_insert_ne by done. by apply Hlast. }
        split; [exact Hall|]. destruct (HR i true any Hph) as [_ ->]. unfold batch_outcome.
        apply existsb_ext'. intros j Hj%in_seq_lt. unfold visible.
        destruct (decide (j = i)) as [->|Hne]; [by rewrite bool_decide_eq_true_2|].
        rewrite (bool_decide_eq_true_2 (ba_phase s j = Committed)); [by rewrite orb_true_r|].
        by apply Hlast.
      * split; [done|]. intros Hn Hall. assert (false = true) as Hf; [|done].
        apply Hlast. intros j Hj Hne. specialize (Hall j Hj). simpl in Hall.
        by rewrite fn_lookup_insert_ne in Hall.
    + destruct HP as (_ & HP & _). specialize (HP i Hi). congruence.
Qed.

Lemma batch_step_inv s s' : batch_inv s -> batch_step n fails true s s' -> batch_inv s'.
Proof.
  intros Hinv Hstep. pose proof Hinv as (HL & _ & _).
  destruct Hstep as [i Hi Hph|i Hi _ Hph Hl|i Hi Hph|i all any Hi Hph|i Hi Hr Hc].
  - apply inv_no_commit; try done; [by rewrite Hph|]. intros j Hj.
    destruct (decide (j = i)) as [->|Hne]; [by rewrite fn_lookup_insert in Hj|].
    rewrite fn_lookup_insert_ne in Hj by done. by apply HL.
  - apply inv_no_commit; try done; [by rewrite Hph|]. intros j Hj.
    destruct (decide (j = i)) as [->|Hne]; [done|].
    rewrite fn_lookup_insert_ne in Hj by done. apply HL in Hj. congruence.
  - apply inv_no_commit; try done; [by rewrite Hph|]. intros j Hj.
    destruct (decide (j = i)) as [->|Hne]; [apply HL; by rewrite Hph|].
    rewrite fn_lookup_insert_ne in Hj by done. by apply HL.
  - by apply inv_commit.
  - apply inv_no_commit; try done. intros j Hj.
    destruct (decide (j = i)) as [->|Hne]; [by rewrite fn_lookup_insert in Hj|].
    rewrite fn_lookup_insert_ne in Hj by done. apply HL in Hj.
    by rewrite bool_decide_eq_false_2 by congruence.
Qed.

Lemma reachable_inv s : reachable n fails true s -> batch_inv s.
Proof.
  apply (rtc_ind_r (R := batch_step n fails true) batch_inv batch_start); [apply batch_start_inv|].
  intros x y _ Hxy Hx. by eapply batch_step_inv.
Qed.

(** A held lock has a holder that can go on. *)
Definition lock_inv (s : Batch) : Prop :=
  forall i, s.(ba_lock) = Some i -> (i < n)%nat /\ holds (s.(ba_phase) i) = true.

Lemma reachable_lock_inv s : reachable n fails true s -> lock_inv s.
Proof.
  apply (rtc_ind_r (R := batch_step n fails true) lock_inv batch_start); [done|].
  intros x y _ Hxy Hx j. destruct Hxy as [i Hi Hph|i Hi _ Hph Hl|i Hi Hph|i all any Hi Hph|i Hi Hr Hc];
    simpl; intros Hj; try done.
  - destruct (decide (j = i)) as [->|]; [apply Hx in Hj as [_ Hj]; by rewrite Hph in Hj|].
    rewrite fn_lookup_insert_ne by done. by apply Hx.
  - injection Hj as <-. by rewrite fn_lookup_insert.
  - destruct (decide (j = i)) as [->|]; [by rewrite fn_lookup_insert|].
    rewrite fn_lookup_insert_ne by done. by apply Hx.
  - case_bool_decide as Hl; [done|]. rewrite fn_lookup_insert_ne by congruence. by apply Hx.
Qed.

(** A worker that can take the lock, or has it, runs to its commit. *)
Definition committed_at (i : nat) (s s' : Batch) : Prop :=
  s'.(ba_phase) i = Committed /\ (forall j, j <> i -> s'.(ba_phase) j = s.(ba_phase) j) /\
  s'.(ba_lock) = None.

Lemma run_worker s i :
  (i < n)%nat -> s.(ba_phase) i <> Committed ->
  (if holds (s.(ba_phase) i) then True else s.(ba_lock) = None) ->
  exists s', rtc (batch_step n fails true) s s' /\ committed_at i s s'.
Proof.
  intros Hi.
  assert (forall s a f, ba_phase s i = Recounted a f ->
    exists s', rtc (batch_step n fails true) s s' /\ committed_at i s s') as R4.
  { intros x a f Hx. eexists. split; [by apply rtc_once, (step_commit n fails true x i a f)|].
    split; [apply fn_lookup_insert|]. split; [|done]. intros j Hj. by apply fn_lookup_insert_ne. }
  assert (forall s p lock, batch_step n fails true s
      (mkBatch (<[i:=p]> (ba_phase s)) lock (ba_parent s) (ba_settlements s)) ->
    (exists s', rtc (batch_step n fails true)
       (mkBatch (<[i:=p]> (ba_phase s)) lock (ba_parent s) (ba_settlements s)) s' /\
       committed_at i (mkBatch (<[i:=p]> (ba_phase s)) lock (ba_parent s) (ba_settlements s)) s') ->
    exists s', rtc (batch_step n fails true) s s' /\ committed_at i s s') as Step.
  { intros x p lock Hstep (s' & Hr & H1 & H2 & H3). exists s'. split; [by eapply rtc_l|].
    split; [done|]. split; [|done]. intros j Hj. rewrite H2 by done. simpl.
    by apply fn_lookup_insert_ne. }
  assert (forall s, ba_phase s i = Locked ->
    exists s', rtc (batch_step n fails true) s s' /\ committed_at i s s') as R3.
  { intros x Hx. eapply Step; [by apply (step_recount n fails true)|].
    eapply R4. simpl. by rewrite fn_lookup_insert. }
  assert (forall s, ba_phase s i = Updated -> ba_lock s = None ->
    exists s', rtc (batch_step n fails true) s s' /\ committed_at i s s') as R2.
  { intros x Hx Hl. eapply Step; [by apply (step_lock n fails true)|].
    eapply R3. simpl. by rewrite fn_lookup_insert. }
  intros Hc Hl. destruct (ba_phase s i) as [| | |a f|] eqn:E; simpl in Hl; [|by apply R2|by apply R3|by eapply R4|done].
  eapply Step; [by apply (step_update n fails true)|]. apply R2; [|done]. simpl.
  by rewrite fn_lookup_insert.
Qed.

Lemma run_workers s k :
  s.(ba_lock) = None -> (forall i, (i < n)%nat -> holds (s.(ba_phase) i) = false) -> (k <= n)%nat ->
  exists s', rtc (batch_step n fails true) s s' /\ s'.(ba_lock) = None /\
    (forall i, (i < n)%nat -> holds (s'.(ba_phase) i) = false) /\
    (forall i, (i < k)%nat -> s'.(ba_phase) i = Committed).
Proof.
  intros Hl Hh. induction k as [|k IH]; intros Hk.
  { exists s. split_and!; [done..|lia]. }
  destruct IH as (s1 & Hr & Hl1 & Hh1 & Hc1); [lia|].
  destruct (decide (ba_phase s1 k = Committed)) as [Ek|Ek].
  { exists s1. split_and!; try done. intros i Hi. destruct (decide (i = k)) as [->|]; [done|].
    apply Hc1. lia. }
  destruct (run_worker s1 k) as (s2 & Hr2 & Ck & Co & Cl); [lia|done| |].
  { by rewrite Hh1 by lia. }
  exists s2. split_and!; [by etrans|done| |].
  - intros i Hi. destruct (decide (i = k)) as [->|]; [by rewrite Ck|]. rewrite Co by done. by apply Hh1.
  - intros i Hi. destruct (decide (i = k)) as [->|]; [done|]. rewrite Co by done. apply Hc1. lia.
Qed.

Lemma release_lock s :
  reachable n fails true s ->
  exists s', rtc (batch_step n fails true) s s' /\ s'.(ba_lock) = None /\
    (forall i, (i < n)%nat -> holds (s'.(ba_phase) i) = false).
Proof.
  intros Hr. pose proof (reachable_inv s Hr) as (HL & _). pose proof (reachable_lock_inv s Hr) as HK.
  destruct (ba_lock s) as [j|] eqn:El.
  - destruct (HK j El) as [Hj Hh]. destruct (run_worker s j) as (s' & Hr' & Cj & Co & Cl);
      [done|intros E; by rewrite E in Hh|by rewrite Hh|].
    exists s'. split_and!; [done..|]. intros i _. destruct (decide (i = j)) as [->|Hne]; [by rewrite Cj|].
    rewrite Co by done. destruct (holds (ba_phase s i)) eqn:E; [|done]. apply HL in E. congruence.
  - exists s. split_and!; [done..|]. intros i _. destruct (holds (ba_phase s i)) eqn:E; [|done].
    apply HL in E. congruence.
Qed.
End Locking.

(** C3: with the parent locked before the recount, the parent of a batch is
    settled exactly once however its workers interleave and however often they are
    rolled back: when the last child has committed the parent carries the outcome
    of all the children, and it is never settled while a child has yet to commit. *)
Theorem batch_settles_exactly_once n fails s :
  (0 < n)%nat -> reachable n fails true s ->
  (all_committed n s <-> exists f, s.(ba_parent) = Settled f) /\
  (forall f, s.(ba_parent) = Settled f -> f = batch_outcome n fails /\ s.(ba_settlements) = 1%nat) /\
  (s.(ba_parent) = Processing -> s.(ba_settlements) = 0%nat).
Proof.
  intros Hn Hr. apply reachable_inv in Hr as (_ & _ & HP).
  destruct (ba_parent s) as [|f] eqn:Ep.
  - destruct HP as [HS HA]. split_and!; [|by intros|done]. split; [by intros ?%HA|by intros [? ?]].
  - destruct HP as (HS & HA & ->). split_and!; [|by intros ? [= <-]|done].
    split; [by eauto|done].
Qed.

(** Two children, the second failing, run one after the other. *)
Definition two_fails (i : nat) : bool := bool_decide (i = 1%nat).

Lemma batch_settles_exactly_once_witness :
  exists s, reachable 2 two_fails true s /\ s.(ba_parent) = Settled true.
Proof.
  destruct (run_workers 2 two_fails batch_start 2) as (s & Hr & _ & _ & Hc); [done|done|lia|].
  destruct (batch_settles_exactly_once 2 two_fails s) as ([Hs _] & HO & _); [lia|exact Hr|].
  destruct (Hs Hc) as [f Hf]. exists s. split; [exact Hr|]. rewrite Hf. f_equal.
  exact (proj1 (HO f Hf)).
Defined.

(** Locking cannot wedge a batch.  From every reachable point of the
    interleaving the workers can all still be run to their commits. *)
Theorem batch_never_wedged n fails s :
  reachable n fails true s ->
  exists s', rtc (batch_step n fails true) s s' /\ all_committed n s'.
Proof.
  intros Hr. destruct (release_lock n fails s Hr) as (s1 & Hr1 & Hl & Hh).
  destruct (run_workers n fails s1 n Hl Hh) as (s2 & Hr2 & _ & _ & Hc); [done|].
  exists s2. split; [by etrans|done].
Qed.

Lemma batch_never_wedged_witness :
  exists s', rtc (batch_step 2 two_fails true) batch_start s' /\ all_committed 2 s'.
Proof. apply batch_never_wedged. constructor. Defined.

(** Why the parent is locked.  Without [lockBatchParent] two workers can each
    recount before the other commits, each seeing its sibling in flight, and the
    batch is left processing for ever with every child settled. *)
Theorem unlocked_batch_can_hang fails :
  exists s, reachable 2 fails false s /\ all_committed 2 s /\ s.(ba_parent) = Processing /\
    forall s', ~ batch_step 2 fails false s s'.
Proof.
  eexists. split.
  - unfold reachable.
    eapply rtc_l; [apply (step_update 2 fails false _ 0); [lia|done]|].
    eapply rtc_l; [apply (step_update 2 fails false _ 1); [lia|done]|].
    eapply rtc_l; [apply (step_recount 2 fails false _ 0); [lia|done]|].
    eapply rtc_l; [apply (step_recount 2 fails false _ 1); [lia|done]|].
    eapply rtc_l; [apply (step_commit 2 fails false _ 0 false (fails 0%nat)); [lia|]|].
    { vm_compute. destruct (fails _); reflexivity. }
    eapply rtc_l; [apply (step_commit 2 fails false _ 1 false (fails 1%nat)); [lia|]|].
    { vm_compute. destruct (fails _); reflexivity. }
    apply rtc_refl.
  - split; [intros [|[|i]] Hi; [reflexivity|reflexivity|lia]|]. split; [reflexivity|].
    intros s' Hs'. inversion Hs' as [i Hi H|i Hi H|i Hi H|i ? ? Hi H|i Hi H H'];
      destruct i as [|[|i]]; cbn in *; try done; lia.
Qed.
