(* ===== verification/CredentialExchangeService.v ===== *)
(** * CredentialExchangeService

    Models credential-exchange/credential-exchange.service.ts: reading an
    exchange, reconciling it with the agent, and issuing on it.  Issuance is
    submitted at most once: the claim is recorded before the agent is asked, and
    an exchange with a recorded submission never reaches the agent again. *)

From Stdlib Require Import Ascii ZArith Lia.
From stdpp Require Import base decidable strings sets gmap list list_relations.
From S2P Require Import Prelude Js Entities StateMapping OperationTtl Db Pagination.
From S2P Require Import OperationService CredentialRepository.
From S2P Require Import ConnectionRepository AdapterRegistry Auth ConnectionService.
From S2P Require Import ProtocolStateChange.

Local Open Scope Z_scope.

Definition toPortCredentialFormat (f : CredentialDefinitionFormat) : option CredentialFormat :=
  find (fun v => String.eqb (credential_format_str v) (definition_format_str f)) credential_formats.


Definition exchange_get (tenantId id : string) : Prog CredentialExchange :=
  row ← exchanges_findForTenant tenantId id;
  match row with
  | Some x => mret x
  | None => throw (NotFoundException "Credential exchange not found")
  end.

Definition synchronize (x : CredentialExchange) (remote : AgentExchange) : Prog unit :=
  let state := cred_ex_str remote.(ae_state) in
  let ext := default "" x.(ex_externalId) in
  _ ← process (mkPscData x.(ex_tenantId) issue_credential ext state
                 [("state", JStr state); ("exchange_id", JStr ext)])
        (Some (x.(ex_id), x.(ex_connectorId)));
  mret tt.

Definition retainedIssueOperation (x : CredentialExchange) (m : Mgr) : Prog Operation :=
  existing ← (if truthy_str x.(ex_issueOperationId)
              then operations_findByIdForTenant (default "" x.(ex_issueOperationId))
                     x.(ex_tenantId) m
              else mret None);
  match existing with
  | Some o =>
      if bool_decide (o.(op_exchangeId) = Some x.(ex_id)) && String.eqb o.(op_type) CREDENTIAL_ISSUE
      then mret o
      else throw (ConflictException
             "Issuance already attempted; reconcile the exchange, do not resubmit")
  | None => throw (ConflictException
              "Issuance already attempted; reconcile the exchange, do not resubmit")
  end.

(** The transaction that claims the submission: the operation it is tracked by,
    and whether this caller is the one to submit. *)
Definition claim_issue (tenantId id : string) (exchange : CredentialExchange)
    (remote : AgentExchange) : Prog ((Operation * bool) * bool) :=
  row ← exchanges_lock tenantId id Tx;
  match row with
  | None => throw (NotFoundException "Credential exchange not found")
  | Some locked =>
      if negb (bool_decide (locked.(ex_issueSubmission) = NotSubmitted)) then
        existing ← retainedIssueOperation locked Tx;
        mret ((existing, false), false)
      else if negb (bool_decide (locked.(ex_state) = Ex RequestReceived)) ||
              negb (bool_decide (remote.(ae_state) = RequestReceived))
      then throw (ConflictException
             "Exchange must have a holder request before explicit issuance")
      else
        operation ← createOperation
          (mkCreateOp tenantId CREDENTIAL_ISSUE
             (JObj [("method", JStr "POST");
                    ("path", JStr (API_BASE_PATH +:+ "/tenants/" +:+ tenantId +:+
                                   "/credential-exchanges/" +:+ id +:+ "/issue"));
                    ("body", JObj [])]) None exchange.(ex_externalId) (Some id)) Tx;
        _ ← exchanges_save (ex_set_submission Submitting (Some operation.(op_id)) locked) Tx;
        _ ← transitionStateIfForward operation.(op_id) (Some PROCESSING) [PENDING] None Tx None;
        aborted ← audit_emit_last tenantId "issue" "credential-exchange" id;
        mret ((operation, true), aborted)
  end.

(** The transaction that records an explicit refusal: the operation failed and
    the exchange may be submitted again. *)
Definition record_rejection (tenantId id operationId code message : string) : Prog unit :=
  row ← exchanges_lock tenantId id Tx;
  match row with
  | None => mret tt
  | Some locked =>
      if negb (bool_decide (locked.(ex_issueSubmission) = Submitting)) ||
         negb (bool_decide (locked.(ex_issueOperationId) = Some operationId))
      then mret tt
      else
        failed ← transitionStateIfForward operationId (Some FAILED) [PROCESSING]
                   (Some (Some (JObj [("code", JStr code); ("message", JStr message)]))) Tx None;
        match failed with
        | None => mret tt
        | Some _ =>
            _ ← exchanges_save (ex_set_submission NotSubmitted locked.(ex_issueOperationId) locked) Tx;
            dispatch Tx tenantId "operation.issue.failed" operationId
        end
  end.

(** The error path of a submission: a refusal by the agent is final, anything
    else leaves the outcome uncertain. *)
Definition issue_failed (tenantId id operationId : string) (submitted : bool) (error : Exn)
    : Prog unit :=
  match submitted, error with
  | false, AdapterError (SubmissionRejected reason) code message =>
      _ ← transaction (record_rejection tenantId id operationId code message);
      if String.eqb reason "not-found" then throw (ConflictException message)
      else if String.eqb reason "authentication" then throw (BadGatewayException message)
      else throw (BadRequestException message)
  | _, _ =>
      _ ← exchanges_setSubmission tenantId id Uncertain;
      throw (ServiceUnavailableException
        "Issuance outcome uncertain; reconcile this exchange, do not resubmit")
  end.

Section ExchangeService.
Context (registry : Registry).

Definition exchange_resolve (x : CredentialExchange) : Prog ResolvedAdapter :=
  if negb (truthy_str x.(ex_externalId))
  then throw (ConflictException "Exchange has no verified backend correlation; do not resend")
  else
    match toPortCredentialFormat x.(ex_format) with
    | None => throw (ConflictException "Exchange format is not supported")
    | Some f => resolve registry x.(ex_tenantId) (Some f) (with_connector (Some x.(ex_connectorId)))
    end.

Definition assertCorrelation (x : CredentialExchange) (remote : AgentExchange) : Prog unit :=
  if negb (bool_decide (Some (ae_correlation remote) = x.(ex_externalId)))
  then throw (ConflictException "Backend returned a different exchange")
  else if negb (String.eqb x.(ex_protocol) "didcomm-v1") || negb (truthy_str x.(ex_connectionId))
  then throw (ConflictException "Exchange delivery protocol is not supported")
  else
    let connectionId := default "" x.(ex_connectionId) in
    row ← connections_findByIdForTenant x.(ex_tenantId) connectionId;
    let alreadyBound := match row with Some c => truthy_str c.(cn_connectorId) | None => false end in
    connection ← match row with
                 | Some c =>
                     if truthy_str c.(cn_connectorId) then mret (Some c)
                     else c' ← resolveIdentity registry x.(ex_tenantId) connectionId
                                 x.(ex_connectorId);
                          mret (Some c')
                 | None => mret None
                 end;
    match connection with
    | Some c =>
        if bool_decide (c.(cn_connectorId) = Some x.(ex_connectorId)) &&
           truthy_str c.(cn_externalConnectionId) &&
           bool_decide (remote.(ae_connectionId) = c.(cn_externalConnectionId))
        then prog_when alreadyBound
               (_ ← resolveIdentity registry x.(ex_tenantId) connectionId x.(ex_connectorId);
                mret tt)
        else throw (ConflictException "Exchange holder or connector correlation is inconsistent")
    | None => throw (ConflictException "Exchange holder or connector correlation is inconsistent")
    end.

Definition readRemote (x : CredentialExchange) (r : ResolvedAdapter) : Prog AgentExchange :=
  catch (r.(rs_adapter).(ad_getExchange) r.(rs_context) (default "" x.(ex_externalId))) (fun e =>
    match e with
    | AdapterError BackendNotFound _ _ =>
        throw (ConflictException "Backend credential exchange was not found")
    | _ => throw e
    end).

Definition exchange_reconcile (tenantId id : string) : Prog CredentialExchange :=
  exchange ← exchange_get tenantId id;
  resolved ← exchange_resolve exchange;
  remote ← readRemote exchange resolved;
  _ ← assertCorrelation exchange remote;
  _ ← synchronize exchange remote;
  exchange_get tenantId id.

(** The agent's answer or its error. *)
Definition ask_to_issue (resolved : ResolvedAdapter) (externalId : string)
    : Prog (Exn + AgentExchange) :=
  catch (x ← resolved.(rs_adapter).(ad_issueCredential) resolved.(rs_context) externalId;
         mret (inr x))
        (fun e => mret (inl e)).

(** Asking the agent to issue, and recording what came of it. *)
Definition submit_issue (tenantId id operationId : string) (exchange : CredentialExchange)
    (resolved : ResolvedAdapter) : Prog unit :=
  issued ← ask_to_issue resolved (default "" exchange.(ex_externalId));
  match issued with
  | inl e => issue_failed tenantId id operationId false e
  | inr x =>
      catch (_ ← assertCorrelation exchange x;
             _ ← exchanges_setSubmission tenantId id Submitted;
             synchronize exchange x)
            (issue_failed tenantId id operationId true)
  end.

Definition issue (tenantId id : string) : Prog Operation :=
  exchange ← exchange_get tenantId id;
  if negb (bool_decide (exchange.(ex_role) = Issuer))
  then throw (ConflictException "Only issuer exchanges can issue")
  else if negb (bool_decide (exchange.(ex_issueSubmission) = NotSubmitted)) then
    existing ← retainedIssueOperation exchange NoTx;
    getForTenant tenantId existing.(op_id)
  else
    resolved ← exchange_resolve exchange;
    remote ← readRemote exchange resolved;
    _ ← assertCorrelation exchange remote;
    _ ← synchronize exchange remote;
    '(operation, submit) ← transaction_or_abort (claim_issue tenantId id exchange remote);
    _ ← prog_when submit (submit_issue tenantId id operation.(op_id) exchange resolved);
    getForTenant tenantId operation.(op_id).
End ExchangeService.
