(* ===== verification/ServiceLogic.v ===== *)
(** * Reasoning about services

    Rules for services that call an agent, and for what a program leaves alone. *)

From Stdlib Require Import Ascii ZArith Lia.
From stdpp Require Import base decidable strings sets gmap list list_relations.
From S2P Require Import Prelude Js Entities StateMapping OperationTtl Db Pagination ConnectorRepository OperationService.
From S2P Require Import CredentialRepository ConnectionRepository ConnectorService AdapterRegistry Auth ConnectionService ProtocolStateChange Lifecycle ProtocolLifecycle.
From S2P Require Import ProtocolNotification OperationCorrectness DefinitionRepository.

(** * Reasoning about services that call an agent

    A service call alternates transactions of its own with agent calls, during
    which other requests commit.  [keeps own P p]: run from tables that satisfy
    [P], the program [p] leaves committed tables that [evolves own] relates to
    the ones it started from, whatever it returns.  [own] is any set of tenants
    that contains the caller's and those the concurrent requests belong to, and
    the agent's adapter is assumed to keep the same contract ([AdapterLaws]). *)

Local Open Scope Z_scope.

(** ** More owners *)

Lemma table_evolves_mono {A} (row : relation A) id tenant (own own' : string -> Prop) t t' :
  (forall x, own x -> own' x) ->
  table_evolves row id tenant own t t' -> table_evolves row id tenant own' t t'.
Proof.
  intros Hsub H i. specialize (H i). unfold cell_evolves in *.
  destruct (t !! i), (t' !! i); naive_solver.
Qed.

Lemma evolves_mono (own own' : string -> Prop) d d' :
  (forall x, own x -> own' x) -> evolves own d d' -> evolves own' d d'.
Proof.
  intros Hsub (?&?&?&?&?&?&(js & ? & Hjs)).
  repeat split; try (by eapply table_evolves_mono); try done.
  exists js. split; [done|]. eapply Forall_impl; eauto.
Qed.

(** ** Facts that last *)

Section Keeps.
Context (own : string -> Prop).

Definition stable (P : DB -> Prop) : Prop :=
  forall d d', keyed d -> evolves own d d' -> P d -> P d'.

Definition keeps {A} (P : DB -> Prop) (p : Prog A) : Prop :=
  forall w, keyed w.(committed) -> P w.(committed) ->
  evolves own w.(committed) (p w).1.(committed).

Lemma stable_and P Q : stable P -> stable Q -> stable (fun d => P d /\ Q d).
Proof. intros HP HQ d d' K H [? ?]. split; eauto. Qed.
Lemma stable_pure (Q : Prop) : stable (fun _ => Q).
Proof. by intros d d' _ _. Qed.

Lemma keeps_pres {A} P (p : Prog A) : Pres (Evo own) p -> keeps P p.
Proof. intros Hp w K _. destruct (Hp w) as [H _]. by apply H. Qed.

Lemma keeps_weaken {A} (P Q : DB -> Prop) (p : Prog A) :
  (forall d, P d -> Q d) -> keeps Q p -> keeps P p.
Proof. intros Hpq Hp w K HP. apply Hp; auto. Qed.

(** Sequencing; [Q] is what the first program's result tells the second. *)
Lemma keeps_bind {A B} P (Q : A -> DB -> Prop) (p : Prog A) (k : A -> Prog B) :
  stable P -> keeps P p ->
  (forall w w' a, keyed w.(committed) -> P w.(committed) -> p w = (w', inr a) ->
     Q a w'.(committed)) ->
  (forall a, keeps (fun d => P d /\ Q a d) (k a)) ->
  keeps P (p ≫= k).
Proof.
  intros HS Hp HQ Hk w K HP. specialize (Hp w K HP). unfold mbind, prog_bind.
  destruct (p w) as [w' [e|a]] eqn:E; simpl in *; [done|].
  etrans; [exact Hp|]. apply Hk; [by eapply evolves_keyed|]. split; [by eapply HS|by eapply HQ].
Qed.

Lemma keeps_seq {A B} P (p : Prog A) (k : A -> Prog B) :
  stable P -> keeps P p -> (forall a, keeps P (k a)) -> keeps P (p ≫= k).
Proof.
  intros HS Hp Hk. apply (keeps_bind P (fun _ _ => True)); auto.
  intros a. eapply keeps_weaken; [|apply Hk]. by intros d [? _].
Qed.

Lemma keeps_catch {A} P (p : Prog A) h :
  stable P -> keeps P p -> (forall e, keeps P (h e)) -> keeps P (catch p h).
Proof.
  intros HS Hp Hh w K HP. specialize (Hp w K HP). unfold catch.
  destruct (p w) as [w' [e|a]] eqn:E; simpl in *; [|done].
  etrans; [exact Hp|]. apply Hh; [by eapply evolves_keyed|by eapply HS].
Qed.

Lemma keeps_when P b p : keeps P p -> keeps P (prog_when b p).
Proof. destruct b; [done|]. intros _ w _ _. reflexivity. Qed.

(** A program that leaves the committed tables alone. *)
Lemma keeps_read {A} P (p : Prog A) : (forall w, (p w).1.(committed) = w.(committed)) -> keeps P p.
Proof. intros H w _ _. rewrite H. reflexivity. Qed.
End Keeps.

(** ** Transactions

    [mine] are the tenants whose rows the transaction itself may write. *)

Section Tx.
Context (own mine : string -> Prop) (Hsub : forall x, mine x -> own x).

Definition txkeeps {A} (P : DB -> Prop) (p : Prog A) : Prop :=
  forall w, InTx mine w -> P w.(working) -> vrel Tx (Evo mine) w (p w).1.

Lemma txkeeps_pres {A} P (p : Prog A) : TxPres mine p -> txkeeps P p.
Proof. intros Hp w HI _. by apply Hp. Qed.

Lemma txkeeps_weaken {A} (P Q : DB -> Prop) (p : Prog A) :
  (forall d, P d -> Q d) -> txkeeps Q p -> txkeeps P p.
Proof. intros Hpq Hp w HI HP. apply Hp; auto. Qed.

Lemma txkeeps_bind {A B} P (Q : A -> DB -> Prop) (p : Prog A) (k : A -> Prog B) :
  stable mine P -> txkeeps P p ->
  (forall w w' a, InTx mine w -> P w.(working) -> p w = (w', inr a) -> Q a w'.(working)) ->
  (forall a, txkeeps (fun d => P d /\ Q a d) (k a)) ->
  txkeeps P (p ≫= k).
Proof.
  intros HS Hp HQ Hk w HI HP. pose proof (Hp w HI HP) as Hv.
  apply vrel_bind; [apply _|done|]. intros a Ha. destruct (p w) as [w' r] eqn:E. simpl in *. subst r.
  apply Hk; [by eapply InTx_step|]. split; [|by eapply HQ].
  destruct Hv as [_ Hv]. simpl in Hv. pose proof (InTx_working _ _ HI). eauto.
Qed.

Lemma txkeeps_seq {A B} P (p : Prog A) (k : A -> Prog B) :
  stable mine P -> txkeeps P p -> (forall a, txkeeps P (k a)) -> txkeeps P (p ≫= k).
Proof.
  intros HS Hp Hk. apply (txkeeps_bind P (fun _ _ => True)); auto.
  intros a. eapply txkeeps_weaken; [|apply Hk]. by intros d [? _].
Qed.

Lemma keeps_transaction {A} P (p : Prog A) : txkeeps P p -> keeps own P (transaction p).
Proof.
  intros Hp w K HP. unfold transaction.
  specialize (Hp (set_dbs w.(committed) w.(committed) w)).
  destruct (p (set_dbs (committed w) (committed w) w)) as [w' [e|a]] eqn:Ep; simpl in *;
    destruct Hp as [Ho Hv]; simpl in *; try done.
  - rewrite Ho. reflexivity.
  - eapply evolves_mono; [exact Hsub|]. by apply Hv.
Qed.

Lemma keeps_transaction_or_abort {A} P (p : Prog (A * bool)) :
  txkeeps P p -> keeps own P (transaction_or_abort p).
Proof.
  intros Hp w K HP. unfold transaction_or_abort.
  specialize (Hp (set_dbs w.(committed) w.(committed) w)).
  destruct (p (set_dbs (committed w) (committed w) w)) as [w' [e|[a []]]] eqn:Ep; simpl in *;
    destruct Hp as [Ho Hv]; simpl in *; try done.
  - rewrite Ho. reflexivity.
  - rewrite Ho. reflexivity.
  - eapply evolves_mono; [exact Hsub|]. by apply Hv.
Qed.

(** A statement on its own connection. *)
Lemma keeps_statement {A} P (p : Prog A) : VPres NoTx (Evo mine) p -> keeps own P p.
Proof.
  intros Hp w K _. destruct (Hp w) as [_ H]. eapply evolves_mono; [exact Hsub|]. by apply H.
Qed.

Lemma txkeeps_transition (P : DB -> Prop) id st from result ext :
  (forall s, s ∈ from -> exists s', st = Some s' /\ op_step s s') ->
  (forall d o, P d -> d.(db_operations) !! id = Some o -> mine o.(op_tenantId)) ->
  txkeeps P (transitionStateIfForward id st from result Tx ext).
Proof.
  intros Hfrom HP w HI Hw. apply transitionStateIfForward_from_vrel; [|done]. simpl.
  intros o Ho. by eapply HP.
Qed.
End Tx.

(** ** The row a handler holds on to *)

Definition has_op (t id : string) (d : DB) : Prop :=
  exists o, d.(db_operations) !! id = Some o /\ o.(op_tenantId) = t.

Lemma stable_has_op own t id : stable own (has_op t id).
Proof.
  intros d d' _ (H & _) (o & Ho & Hot). specialize (H id). unfold cell_evolves in H.
  rewrite Ho in H. destruct (d'.(db_operations) !! id) as [o'|] eqn:E; [|done].
  exists o'. split; [done|]. destruct H as [(_ & -> & _) _]. done.
Qed.

Lemma has_op_mine (mine : string -> Prop) t id d o :
  mine t -> has_op t id d -> d.(db_operations) !! id = Some o -> mine o.(op_tenantId).
Proof. intros Hm (o' & Ho' & <-) Ho. by simplify_eq. Qed.

(** ** Programs that only read *)

Class ReadOnly {A} (p : Prog A) : Prop := read_only w : (p w).1 = w.

#[export] Instance read_only_ret {A} (a : A) : ReadOnly (mret (M:=Prog) a).
Proof. by intros w. Qed.
#[export] Instance read_only_throw {A} e : ReadOnly (throw (A:=A) e).
Proof. by intros w. Qed.
#[export] Instance read_only_of_sum {A} (r : Exn + A) : ReadOnly (of_sum r).
Proof. by intros w. Qed.
#[export] Instance read_only_read {A} m (f : DB -> A) : ReadOnly (read m f).
Proof. by intros w. Qed.
#[export] Instance read_only_bind {A B} (p : Prog A) (k : A -> Prog B) :
  ReadOnly p -> (forall a, ReadOnly (k a)) -> ReadOnly (p ≫= k).
Proof.
  intros Hp Hk w. unfold mbind, prog_bind. specialize (Hp w).
  destruct (p w) as [w' [e|a]]; simpl in *; subst; [done|apply Hk].
Qed.

#[export] Instance read_only_catch {A} (p : Prog A) h :
  ReadOnly p -> (forall e, ReadOnly (h e)) -> ReadOnly (catch p h).
Proof.
  intros Hp Hh w. unfold catch. specialize (Hp w). destruct (p w) as [w' [e|a]]; simpl in *; subst;
    [apply Hh|done].
Qed.

Ltac solve_read_only :=
  repeat first [ progress intros | apply _ | apply read_only_bind | case_match | case_decide ].

#[export] Instance read_only_tenants_findById t : ReadOnly (tenants_findById t).
Proof. unfold tenants_findById. solve_read_only. Qed.
#[export] Instance read_only_selectFormat a f : ReadOnly (selectFormat a f).
Proof. unfold selectFormat. solve_read_only. Qed.
#[export] Instance read_only_getByConnectorType r ty : ReadOnly (getByConnectorType r ty).
Proof. unfold getByConnectorType. solve_read_only. Qed.
Lemma read_only_run {A} (p : Prog A) `{!ReadOnly p} w w' r : p w = (w', r) -> w' = w.
Proof. intros E. pose proof (read_only w) as H. rewrite E in H. done. Qed.

Lemma keeps_read_only {A} own P (p : Prog A) `{!ReadOnly p} : keeps own P p.
Proof. apply keeps_read. intros w. by rewrite read_only. Qed.

(** ** Programs that may re-encrypt the connectors of a tenant *)

Lemma rotation_evolves (mine : string -> Prop) t T d :
  mine t -> rotation t d.(db_connectors) T -> evolves mine d (set_connectors T d).
Proof.
  intros Ht H. repeat split; try reflexivity. intros i. specialize (H i). unfold cell_evolves. simpl.
  destruct (db_connectors d !! i) as [c|], (T !! i) as [c'|]; try done.
  destruct H as [->|[Hc (e & v & n & ->)]]; (split; [done|]); [by left|right]. by rewrite Hc.
Qed.

Lemma keeps_rotates {A} (mine : string -> Prop) P t (p : Prog A) `{!Rotates t p} : mine t -> keeps mine P p.
Proof.
  intros Ht w _ _. destruct (rotates_run (p:=p) w) as (T & n & HT & ->). by eapply rotation_evolves.
Qed.

Lemma rotates_read_only {A} t (p : Prog A) `{!ReadOnly p} : Rotates t p.
Proof. intros w. rewrite read_only. reflexivity. Qed.

(** A relation between tables that the connectors do not enter. *)
Class NoConnectors (R : relation DB) : Prop := no_connectors d T : R d (set_connectors T d).

Lemma pres_rotates {A} R `{!PreOrder R, !NoConnectors R} t (p : Prog A) `{!Rotates t p} : Pres R p.
Proof.
  intros w. destruct (rotates_run (p:=p) w) as (T & n & HT & ->). split; simpl; [apply no_connectors|reflexivity].
Qed.

(** What a rotation leaves alone. *)
Lemma rotates_same t w w' :
  rotates t w w' ->
  w'.(working) = w.(working) /\ w'.(emitted) = w.(emitted) /\ w'.(calls) = w.(calls) /\ w'.(clock) = w.(clock) /\
  exists T, w'.(committed) = set_connectors T w.(committed).
Proof. intros (T & n & _ & ->). repeat split. by exists T. Qed.

(** The adapter that resolution hands out is a registered one. *)
Lemma resolve_registered registry t f o w w' r :
  resolve registry t f o w = (w', inr r) ->
  exists ty, registry.(rg_adapters) ty = Some r.(rs_adapter).
Proof.
  unfold resolve, getByConnectorType. intros E. run_inv E. destruct a as [ty|].
  - run_inv E. destruct (rg_adapters registry ty) as [a'|] eqn:Ea; [|done]. injection E1 as <- <-.
    run_inv E. run_inv E. run_inv E. injection E as _ <-. eauto.
  - run_inv E. run_inv E. destruct (rg_adapters registry (con_type a)) as [a'|] eqn:Ea; [|done].
    injection E2 as <- <-. run_inv E. run_inv E. injection E as _ <-. eauto.
Qed.

(** ** Statements on the operation table *)

Definition only_operations (d d' : DB) : Prop :=
  d'.(db_credentials) = d.(db_credentials) /\ d'.(db_connections) = d.(db_connections) /\
  d'.(db_exchanges) = d.(db_exchanges) /\ d'.(db_jobs) = d.(db_jobs).

#[export] Instance only_operations_preorder : PreOrder only_operations.
Proof.
  split; [by intros d|]. intros d1 d2 d3 (?&?&?&?) (?&?&?&?). repeat split; congruence.
Qed.

#[export] Instance only_operations_write m i o : VPres m only_operations (write_operation m i o).
Proof.
  unfold write_operation. apply vpres_bind; [apply _..|]. intros []; [apply _|].
  by apply vpres_modify.
Qed.
#[export] Instance only_operations_date_param x m : VPres m only_operations (date_param x).
Proof. unfold date_param. destruct x; apply _. Qed.
#[export] Instance only_operations_tenant x m : VPres m only_operations (tenants_findById x).
Proof. unfold tenants_findById. apply vpres_bind; [apply _..|]. intros []; apply _. Qed.
#[export] Instance only_operations_update m i g f : VPres m only_operations (update_operation m i g f).
Proof.
  unfold update_operation. apply vpres_bind; [apply _..|]. intros [o|]; [|apply _].
  destruct (g o); apply _.
Qed.
#[export] Instance only_operations_outcome ty st m :
  VPres m only_operations (recordTerminalOutcome ty st m).
Proof.
  unfold recordTerminalOutcome, record_metric. repeat case_match; try apply _; by apply vpres_modify.
Qed.
#[export] Instance only_operations_transition i st from r m e :
  VPres m only_operations (transitionStateIfForward i st from r m e).
Proof.
  unfold transitionStateIfForward, operations_findById, operations_transitionIfForward.
  apply vpres_bind; [apply _..|]. intros [o|]; [|apply _]. apply vpres_bind; [apply _..|]. intros tn.
  cbv zeta. apply vpres_bind; [apply _..|]. intros []; [|apply _].
  apply vpres_bind; [apply _..|]. intros [u|]; apply _.
Qed.

Lemma transition_only_operations i st from r m e w w' x :
  transitionStateIfForward i st from r m e w = (w', x) -> only_operations (view m w) (view m w').
Proof.
  intros E. pose proof (vpres (m:=m) (R:=only_operations) (p:=transitionStateIfForward i st from r m e) w)
    as [_ H]. by rewrite E in H.
Qed.

(** The row of a won transition, and that a matching guard wins. *)
Lemma transition_matching i st from r m e w w' res o :
  transitionStateIfForward i st from r m e w = (w', inr res) ->
  (view m w).(db_operations) !! i = Some o -> o.(op_state) ∈ from -> is_Some res.
Proof.
  unfold transitionStateIfForward, operations_findById, operations_transitionIfForward. cbv zeta.
  intros E Ho Hs. run_inv E. injection E0 as <- <-. rewrite Ho in E.
  run_inv E. apply tenants_findById_inr in E0 as ->. run_inv E. run_inv E0.
  apply date_param_inr in E1 as ->. unfold update_operation in E0. run_inv E0.
  injection E1 as <- <-. rewrite Ho in E0.
  rewrite String.eqb_refl, (bool_decide_eq_true_2 _ Hs) in E0. simpl in E0.
  run_inv E0. run_inv E0. injection E0 as <- <-. apply bind_inr in E as (w4 & u & _ & E).
  destruct u; [|done]. run_inv E. injection E as <- <-. eauto.
Qed.

(** ** Programs that do not talk to an agent throw no agent error *)

Class NoAgentError {A} (p : Prog A) : Prop :=
  no_agent_error w w' e : p w = (w', inl e) -> is_adapter_error e = None.

#[export] Instance no_agent_ret {A} (a : A) : NoAgentError (mret (M:=Prog) a).
Proof. by intros w w' e. Qed.
#[export] Instance no_agent_read {A} m (f : DB -> A) : NoAgentError (read m f).
Proof. by intros w w' e. Qed.
#[export] Instance no_agent_modify m f : NoAgentError (modify m f).
Proof. by intros w w' e. Qed.
#[export] Instance no_agent_now_us : NoAgentError now_us.
Proof. by intros w w' e. Qed.
#[export] Instance no_agent_bind {A B} (p : Prog A) (k : A -> Prog B) :
  NoAgentError p -> (forall a, NoAgentError (k a)) -> NoAgentError (p ≫= k).
Proof. intros Hp Hk w w' e [E|(w1 & a & _ & E)]%bind_inl; [by eapply Hp|by eapply Hk]. Qed.
Lemma no_agent_throw {A} e : is_adapter_error e = None -> NoAgentError (throw (A:=A) e).
Proof. intros He w w' e' E. by injection E as _ <-. Qed.

Ltac solve_no_agent :=
  repeat first [ progress intros | apply _ | by apply no_agent_throw | apply no_agent_bind
               | case_match | case_decide ].

#[export] Instance no_agent_update m i g f : NoAgentError (update_operation m i g f).
Proof. unfold update_operation, write_operation. solve_no_agent. Qed.
#[export] Instance no_agent_transition i st from r m e :
  NoAgentError (transitionStateIfForward i st from r m e).
Proof.
  unfold transitionStateIfForward, operations_findById, operations_transitionIfForward, date_param.
  unfold tenants_findById, recordTerminalOutcome, record_metric. cbv zeta. solve_no_agent.
Qed.

(** What a transition in a transaction leaves alone. *)
Lemma transition_tx_frame i st from r e w w' x :
  transitionStateIfForward i st from r Tx e w = (w', x) ->
  w'.(committed) = w.(committed) /\ only_operations w.(working) w'.(working).
Proof.
  intros E. pose proof (vpres (m:=Tx) (R:=only_operations)
    (p:=transitionStateIfForward i st from r Tx e) w) as H. by rewrite E in H.
Qed.

(** ** Equal programs *)

Definition prog_eq {A} (p q : Prog A) : Prop := forall w, p w = q w.

#[export] Instance prog_eq_equivalence A : Equivalence (prog_eq (A:=A)).
Proof. split; [by intros p w|by intros p q H w|intros p q r H1 H2 w; rewrite (H1 w); apply H2]. Qed.

#[export] Instance bind_proper A B :
  Proper (pointwise_relation A prog_eq ==> prog_eq ==> prog_eq) (mbind (M:=Prog) (A:=A) (B:=B)).
Proof.
  intros k l Hkl p q Hpq w. unfold mbind, prog_bind. rewrite (Hpq w).
  destruct (q w) as [w' [e|a]]; [done|apply Hkl].
Qed.

#[export] Instance catch_proper A :
  Proper (prog_eq ==> pointwise_relation Exn prog_eq ==> prog_eq) (catch (A:=A)).
Proof.
  intros p q Hpq h g Hhg w. unfold catch. rewrite (Hpq w).
  destruct (q w) as [w' [e|a]]; [apply Hhg|done].
Qed.

#[export] Instance prog_when_proper b : Proper (prog_eq ==> prog_eq) (prog_when b).
Proof. by intros p q H; destruct b. Qed.

(** Sequences that agree on the run at hand. *)
Lemma bind_at {A B} (p q : Prog A) (k l : A -> Prog B) w :
  p w = q w -> (forall w' a, q w = (w', inr a) -> k a w' = l a w') -> (p ≫= k) w = (q ≫= l) w.
Proof.
  unfold mbind, prog_bind. intros -> H. destruct (q w) as [w' [e|a]]; [done|by apply H].
Qed.

(** * Frames

    What a repository program leaves alone.  [frame f] relates tables that agree
    on [f], a projection of the database; [VPres m (frame f) p] says that [p]
    changes nothing that [f] sees.  [Skips f set] says that [f] does not look at
    what [set] writes, so that one instance per repository program serves every
    projection.  [transaction_run] splits a transaction into its body and its
    end. *)

Definition frame {B} (f : DB -> B) : relation DB := fun d d' => f d' = f d.

#[export] Instance frame_preorder {B} (f : DB -> B) : PreOrder (frame f).
Proof. split; [by intros d|]. unfold frame. intros d1 d2 d3 ? ?. congruence. Qed.

Class Skips {B T} (f : DB -> B) (set : T -> DB -> DB) : Prop := skips t d : f (set t d) = f d.
#[export] Hint Extern 0 (Skips _ _) => (intros ??; reflexivity) : typeclass_instances.

(** The relation of a program that may do anything to its own view. *)
Definition anything : relation DB := frame (fun _ => ()).

Lemma vpres_anything {A} m R (p : Prog A) : VPres m R p -> VPres m anything p.
Proof. intros H w. destruct (H w) as [? _]. by split. Qed.

Ltac solve_frame :=
  repeat first [ progress intros | apply _ | apply vpres_bind | apply vpres_catch
               | (apply vpres_modify; intros; apply skips) | case_match | case_decide ].

Section Frames.
Context {B : Type} (f : DB -> B) (m : Mgr).
Abbreviation F := (frame f).

(** ** Operations *)
Section Operations.
Context `{!Skips f set_operations} `{!Skips f add_metric}.

#[export] Instance frame_date_param x : VPres m F (date_param x).
Proof. unfold date_param. solve_frame. Qed.
#[export] Instance frame_tenant t : VPres m F (tenants_findById t).
Proof. unfold tenants_findById. solve_frame. Qed.
#[export] Instance frame_write_operation i o : VPres m F (write_operation m i o).
Proof. unfold write_operation. solve_frame. Qed.
#[export] Instance frame_operations_insert mk : VPres m F (operations_insert m mk).
Proof. unfold operations_insert. solve_frame. Qed.
#[export] Instance frame_operations_save o : VPres m F (operations_save m o).
Proof. unfold operations_save. solve_frame. Qed.
#[export] Instance frame_update_operation i g h : VPres m F (update_operation m i g h).
Proof. unfold update_operation. solve_frame. Qed.
#[export] Instance frame_outcome ty st : VPres m F (recordTerminalOutcome ty st m).
Proof. unfold recordTerminalOutcome, record_metric. solve_frame. Qed.
#[export] Instance frame_createOperation i : VPres m F (createOperation i m).
Proof. unfold createOperation. solve_frame. Qed.
#[export] Instance frame_transitionState i st r t : VPres m F (transitionState i st r m t).
Proof.
  unfold transitionState, operations_findByIdForTenant, operations_findById. cbv zeta. solve_frame.
Qed.
#[export] Instance frame_transitionIfForward i st from r e :
  VPres m F (transitionStateIfForward i st from r m e).
Proof.
  unfold transitionStateIfForward, operations_transitionIfForward, operations_findById. cbv zeta.
  solve_frame.
Qed.
End Operations.

(** ** Credential definitions and intents *)
Section Definitions.
Context `{!Skips f set_definitions}.

#[export] Instance frame_write_definition i d : VPres m F (write_definition m i d).
Proof. unfold write_definition. solve_frame. Qed.
#[export] Instance frame_definitions_create mk : VPres m F (definitions_create mk m).
Proof. unfold definitions_create. solve_frame. Qed.
#[export] Instance frame_definitions_save d : VPres m F (definitions_save m d).
Proof. unfold definitions_save. solve_frame. Qed.
#[export] Instance frame_update_definition i g h : VPres m F (update_definition m i g h).
Proof. unfold update_definition. solve_frame. Qed.
End Definitions.

#[export] Instance frame_intents_claim `{!Skips f set_intents} k : VPres m F (intents_claim k m).
Proof. unfold intents_claim. solve_frame. Qed.
#[export] Instance frame_intents_record `{!Skips f set_intents} k s :
  VPres m F (intents_record k s m).
Proof. unfold intents_record. solve_frame. Qed.

(** ** Jobs *)
Section Jobs.
Context `{!Skips f add_job}.

#[export] Instance frame_send j : VPres m F (send m j).
Proof.
  intros w. unfold send. destruct (send_fate _ _); destruct m; split; try done;
    apply (skips (set:=add_job) j).
Qed.
#[export] Instance frame_send_keyed j : VPres m F (send_keyed m j).
Proof. intros w. unfold send_keyed. case_match; [by destruct m|apply frame_send]. Qed.
#[export] Instance frame_dispatch t e r : VPres m F (dispatch m t e r).
Proof. unfold dispatch. solve_frame. Qed.
#[export] Instance frame_audit_emit t a rt ri : VPres m F (audit_emit m t a rt ri).
Proof. unfold audit_emit. solve_frame. Qed.
End Jobs.
End Frames.

(** What a run of a framed program leaves. *)
Lemma frame_run {A B} (f : DB -> B) m (p : Prog A) `{!VPres m (frame f) p} w w' r :
  p w = (w', r) -> f (view m w') = f (view m w).
Proof. intros E. destruct (vpres (m:=m) (R:=frame f) (p:=p) w) as [_ H]. by rewrite E in H. Qed.

Lemma other_run {A} m (p : Prog A) `{!VPres m anything p} w w' r :
  p w = (w', r) -> other_view m w' = other_view m w.
Proof. intros E. destruct (vpres (m:=m) (R:=anything) (p:=p) w) as [H _]. by rewrite E in H. Qed.

(** ** Transactions *)

Definition begin_tx (w : World) : World := set_dbs w.(committed) w.(committed) w.

Lemma transaction_run {A} (p : Prog A) `{!VPres Tx anything p} w w' r :
  transaction p w = (w', r) ->
  match r with
  | inl _ => w'.(committed) = w.(committed)
  | inr a => exists w1, p (begin_tx w) = (w1, inr a) /\ w'.(committed) = w1.(working)
  end.
Proof.
  unfold transaction. fold (begin_tx w). pose proof (vpres (R:=anything) (p:=p) (begin_tx w)) as [Ho _].
  destruct (p (begin_tx w)) as [w1 [e|a]]; intros [= <- <-]; [done|by exists w1].
Qed.

Lemma transaction_throws {A} (p : Prog A) `{!VPres Tx anything p} w w' e :
  transaction p w = (w', inl e) -> w'.(committed) = w.(committed).
Proof. apply (transaction_run p w w' (inl e)). Qed.
