(* ===== verification/NotificationCorrectness.v ===== *)
(** * What a delivery moved, what it queued, what it announced

    ProtocolStateChangeService returns after one transaction.  A delivery is announced
    to the tenant's webhooks (and, for the named domain events, in the process) exactly
    when it moved a record that it speaks for; the event is the one the state tables
    name; and every other job it queued is about a record that moved. *)

From Stdlib Require Import Ascii ZArith Lia.
From stdpp Require Import base decidable strings pretty sets gmap list list_relations.
From S2P Require Import Prelude Js Entities StateMapping OperationTtl Db Pagination.
From S2P Require Import OperationService CredentialRepository.
From S2P Require Import ConnectionRepository AdapterRegistry Auth ConnectionService.
From S2P Require Import ProtocolStateChange Lifecycle ProtocolLifecycle ProtocolNotification.
From S2P Require Import OperationCorrectness BatchSettlement ServiceLogic.

Local Open Scope Z_scope.

(** ** What moved between two states of the tables *)

(** The row [id] is in both tables, in another state. *)
Definition moved {A S} (state : A -> S) (t t' : gmap string A) (id : string) : Prop :=
  exists r r', t !! id = Some r /\ t' !! id = Some r' /\ state r' <> state r.

Definition operation_moved (d d' : DB) := moved op_state d.(db_operations) d'.(db_operations).
Definition credential_moved (d d' : DB) := moved cr_state d.(db_credentials) d'.(db_credentials).
Definition exchange_moved (d d' : DB) := moved ex_state d.(db_exchanges) d'.(db_exchanges).

(** A connection was created, or is in another state. *)
Definition connection_changed (d d' : DB) (action id : string) : Prop :=
  (action = "create" /\ d.(db_connections) !! id = None /\ is_Some (d'.(db_connections) !! id)) \/
  (action = "update" /\ moved cn_state d.(db_connections) d'.(db_connections) id).

Definition something_moved (d d' : DB) : Prop :=
  exists id, operation_moved d d' id \/ credential_moved d d' id \/ exchange_moved d d' id \/
    exists action, connection_changed d d' action id.

(** The records a delivery on [topic] speaks for: the connection itself, else the
    operation and the credential. *)
Definition announced (topic : ProtocolTopic) (d d' : DB) : Prop :=
  exists id, if decide (topic = connections) then exists action, connection_changed d d' action id
             else operation_moved d d' id \/ credential_moved d d' id.

(** The connection's handshake is complete now and was not. *)
Definition handshake_complete (c : Connection) : Prop := c.(cn_state) = ACTIVE \/ c.(cn_state) = CN_COMPLETED.
Definition established (d d' : DB) : Prop :=
  exists id c', d'.(db_connections) !! id = Some c' /\ handshake_complete c' /\
    forall c, d.(db_connections) !! id = Some c -> ~ handshake_complete c.

(** ** The jobs that accompany a move *)

(** A batch parent or an offer that settled as [s]; an audited write. *)
Definition side_job (t : string) (d d' : DB) (j : Job) : Prop :=
  match j with
  | WebhookDispatch t' event id _ =>
      t' = t /\ exists s o', op_terminal s /\ operation_moved d d' id /\
        d'.(db_operations) !! id = Some o' /\ o'.(op_state) = s /\
        (event = "operation.batch." +:+ operation_state_str s \/
         event = "operation.offer." +:+ operation_state_str s)
  | AuditWrite t' action type id =>
      t' = t /\ ((action = "update" /\ type = "credential" /\ credential_moved d d' id) \/
                 (type = "connection" /\ connection_changed d d' action id))
  | _ => False
  end.

(** ** The event *)

(** The operation the delivery is for: the newest of the tenant's operations in flight
    for that external id, of the types the topic settles. *)
Definition candidate (data : ProtocolStateChangeJobData) (o : Operation) : Prop :=
  o.(op_tenantId) = data.(psc_tenantId) /\ o.(op_externalId) = Some data.(psc_externalId) /\
  o.(op_type) ∈ TOPIC_OPERATION_TYPES data.(psc_topic) /\
  (o.(op_state) = PENDING \/ o.(op_state) = PROCESSING).

Definition operation_for (data : ProtocolStateChangeJobData) (d : DB) (m : option Operation) : Prop :=
  match m with
  | Some o => candidate data o /\ d.(db_operations) !! o.(op_id) = Some o /\
      forall id o', d.(db_operations) !! id = Some o' -> candidate data o' -> o'.(op_createdAt) <= o.(op_createdAt)
  | None => forall id o, d.(db_operations) !! id = Some o -> ~ candidate data o
  end.

(** The event a delivery that moved its records is announced as, and whether it is one
    of the domain events that are also emitted in the process. *)
Definition event_named (data : ProtocolStateChangeJobData) (outcome : ProtocolOutcome) (d d' : DB)
    (event : string) (domain : bool) : Prop :=
  let raw := topic_str data.(psc_topic) +:+ "." +:+ data.(psc_protocolState) in
  if decide (data.(psc_topic) = connections) then
    (established d d' /\ event = "connection.established" /\ domain = true) \/
    (~ established d d' /\ event = raw /\ domain = false)
  else
    exists m, operation_for data d m /\
      match m with
      | Some o => exists s o', outcome.(po_operationState) = Some s /\
          d'.(db_operations) !! o.(op_id) = Some o' /\ op_step o.(op_state) s /\ op_history s o'.(op_state)
      | None => exists id c s c', outcome.(po_credentialState) = Some s /\
          d.(db_credentials) !! id = Some c /\ c.(cr_tenantId) = data.(psc_tenantId) /\
          c.(cr_externalId) = Some data.(psc_externalId) /\
          d'.(db_credentials) !! id = Some c' /\ c'.(cr_state) = s /\ c.(cr_state) <> s
      end /\
      match outcome.(po_event) with
      | Some e => domain = true /\
          event = (if decide (e = "credential.issued" /\ op_type <$> m = Some CREDENTIAL_ACCEPT)
                   then "credential.accepted" else e)
      | None => event = raw /\ domain = false
      end.

(** ** A guard that does not match writes nothing *)

Lemma applyOperationOutcome_unmoved data outcome w w' r :
  applyOperationOutcome data outcome w = (w', inr r) -> r.(oo_transitioned) = false -> w' = w.
Proof.
  unfold applyOperationOutcome. intros E Hr. run_inv E. injection E0 as <- <-.
  destruct (find_latest _ _ _) as [o|].
  - run_inv E. destruct a.
    + run_inv E. run_inv E. injection E as <- <-. done.
    + apply transitionStateIfForward_None in E0 as ->. by injection E as <- <-.
  - run_inv E. injection E0 as <- <-. by injection E as <- <-.
Qed.

Lemma update_credential_false m i g f w w' :
  update_credential m i g f w = (w', inr false) -> w' = w.
Proof.
  unfold update_credential. intros E. run_inv E. injection E0 as <- <-.
  destruct (_ !! i) as [o|]; [|by injection E as <-].
  destruct (g o); [|by injection E as <-]. run_inv E. run_inv E. done.
Qed.

Lemma applyCredentialOutcome_unmoved data outcome w w' r :
  applyCredentialOutcome data outcome w = (w', inr r) -> r.(ao_transitioned) = false -> w' = w.
Proof.
  unfold applyCredentialOutcome. intros E Hr.
  destruct (po_credentialState outcome); [|by injection E as <- <-].
  run_inv E. injection E0 as <- <-. destruct (find_one _ _); [|by injection E as <- <-].
  run_inv E. injection E0 as <- <-. run_inv E. destruct a.
  - run_inv E. by injection E as <- <-.
  - apply update_credential_false in E0 as ->. by injection E as <- <-.
Qed.

Lemma applyProtocolStateIfForward_None c st from m w w' :
  applyProtocolStateIfForward c st from m w = (w', inr None) -> w' = w.
Proof.
  unfold applyProtocolStateIfForward, connections_updateStateIfForward. intros E. run_inv E.
  destruct st as [s|]; [|done]. destruct a; [by run_inv E|]. injection E as <-.
  run_inv E0. injection E as <- <-. destruct (_ !! _); [|by injection E0 as <-].
  destruct (_ && _); [|by injection E0 as <-]. run_inv E0. by run_inv E0.
Qed.

Lemma transitionConnectionState_None target write w w' b :
  (forall s w w', write s (connectionStatesBelow s) w = (w', inr None) -> w' = w) ->
  transitionConnectionState target write w = (w', inr (None, b)) -> w' = w.
Proof.
  intros Hw. unfold transitionConnectionState. intros E. run_inv E. run_inv E.
  destruct a0; [done|]. injection E as <- -> _. apply Hw in E1 as ->.
  case_decide; [by apply Hw in E0|by injection E0 as <-].
Qed.

Lemma applyConnectionOutcome_unmoved data outcome w w' r :
  applyConnectionOutcome data outcome w = (w', inr r) -> r.(ao_transitioned) = false -> w' = w.
Proof.
  unfold applyConnectionOutcome. cbv zeta. intros E Hr.
  destruct (po_connectionState outcome) as [target|]; [|by injection E as <- <-].
  assert (forall c w w' r, (moved ← transitionConnectionState target
      (fun s fromStates => applyProtocolStateIfForward c s fromStates Tx);
      mret (mkApplied true (bool_decide (is_Some moved.1)) moved.2)) w = (w', inr r) ->
    r.(ao_transitioned) = false -> w' = w) as Htr.
  { clear. intros c w w' r E Hr. run_inv E. injection E as <- <-. simpl in Hr.
    apply bool_decide_eq_false in Hr. destruct a as [[x|] b]; [destruct Hr; eauto|].
    eapply transitionConnectionState_None; [|exact E0].
    intros s w1 w2 Hs. by apply applyProtocolStateIfForward_None in Hs. }
  run_inv E. injection E0 as <- <-. destruct (find_one _ _); [by eapply Htr|].
  run_inv E. injection E0 as <- <-. destruct (find_one _ _); [|by injection E as <- <-].
  destruct (truthy _); [|by eapply Htr]. case_decide; [by injection E as <- <-|].
  run_inv E. by injection E as <- <-.
Qed.

(** ** The exchange is the only record [observeExchange] writes *)

Definition others_same (d d' : DB) : Prop :=
  d'.(db_operations) = d.(db_operations) /\ d'.(db_credentials) = d.(db_credentials) /\
  d'.(db_connections) = d.(db_connections) /\ d'.(db_jobs) = d.(db_jobs).

#[export] Instance others_same_preorder : PreOrder others_same.
Proof.
  split.
  - by intros d.
  - unfold others_same. intros d1 d2 d3. intuition congruence.
Qed.

#[export] Instance vpres_write_exchange_others m i x : VPres m others_same (write_exchange m i x).
Proof.
  unfold write_exchange. apply vpres_bind; [apply _..|]. intros []; [apply _|].
  by apply vpres_modify.
Qed.

#[export] Instance vpres_exchanges_save_others x m : VPres m others_same (exchanges_save x m).
Proof.
  unfold exchanges_save. apply vpres_bind; [apply _..|]. intros []; [case_decide|]; apply _.
Qed.

#[export] Instance vpres_observeExchange_others data c :
  VPres Tx others_same (observeExchange data c).
Proof.
  unfold observeExchange, exchanges_observe, credentials_findByExternalId. cbv zeta.
  case_decide; [|apply _]. apply vpres_bind; [apply _|destruct c; apply _|]. intros cr.
  destruct (truthy_str _); [|apply _]. apply vpres_bind; [apply _..|]. intros [x|]; [|apply _].
  destruct (_ && _); [apply _|]. destruct (observed _ _). apply _.
Qed.


(** What the notification about the exchange leaves alone. *)
Definition records_same (d d' : DB) : Prop :=
  d'.(db_operations) = d.(db_operations) /\ d'.(db_credentials) = d.(db_credentials) /\
  d'.(db_connections) = d.(db_connections).

#[export] Instance records_same_preorder : PreOrder records_same.
Proof.
  split.
  - by intros d.
  - unfold records_same. intros d1 d2 d3. intuition congruence.
Qed.

Lemma dispatch_records m t e r : VPres m records_same (dispatch m t e r).
Proof.
  unfold dispatch. apply vpres_bind; [apply _..|]. intros at_ w. unfold send.
  destruct (send_fate w (sends w)); by destruct m; split.
Qed.


(** ** Moves last *)

Lemma cred_history_acyclic s s' : cred_history s s' -> cred_history s' s -> s' = s.
Proof.
  intros H1 H2. apply rtc_inv in H1 as [|(u & Hs & H1)]; [done|].
  apply cred_step_inv in Hs as [[-> Hu]|[-> ->]].
  - apply rtc_inv_r in H2 as [|(v & _ & Hv)]; [done|]. apply cred_step_inv in Hv. naive_solver.
  - apply rtc_inv in H1 as [<-|(v & Hv & _)]; [|apply cred_step_inv in Hv; naive_solver].
    apply rtc_inv in H2 as [|(v & Hv & _)]; [done|]. apply cred_step_inv in Hv. naive_solver.
Qed.

Lemma op_history_acyclic s s' : op_history s s' -> op_history s' s -> s' = s.
Proof. intros [E1|H1]%op_history_rank [E2|H2]%op_history_rank; congruence || lia. Qed.
Lemma conn_history_acyclic s s' : conn_history s s' -> conn_history s' s -> s' = s.
Proof. intros [E1|H1]%conn_history_rank [E2|H2]%conn_history_rank; congruence || lia. Qed.

(** A state that moves along a history without cycles stays moved. *)
Lemma moved_lasts {A S} (row : relation A) id tenant `{!RowOrder row id tenant} own (state : A -> S) (H : relation S)
    t0 t1 t2 t3 i :
  (forall s, H s s) -> (forall s s' s'', H s s' -> H s' s'' -> H s s'') ->
  (forall s s', H s s' -> H s' s -> s' = s) -> (forall r r', row r r' -> H (state r) (state r')) ->
  table_evolves row id tenant own t0 t1 -> table_evolves row id tenant own t1 t2 ->
  table_evolves row id tenant own t2 t3 -> is_Some (t0 !! i) ->
  moved state t1 t2 i -> moved state t0 t3 i.
Proof.
  intros Hr Htr Ha Hrow H01 H12 H23 [r0 Hr0] (r1 & r2 & Hr1 & Hr2 & Hne).
  specialize (H01 i). specialize (H12 i). specialize (H23 i). unfold cell_evolves in *.
  rewrite Hr0, Hr1 in H01. rewrite Hr1, Hr2 in H12. rewrite Hr2 in H23. destruct (t3 !! i) as [r3|] eqn:Hr3; [|done].
  destruct H01 as [H01%Hrow _], H12 as [H12%Hrow _], H23 as [H23%Hrow _].
  exists r0, r3. split_and!; [done..|]. intros Heq. apply Hne, Ha; [done|].
  eapply Htr; [exact H23|]. by rewrite Heq.
Qed.

(** Nothing is queued by a transition. *)
Definition same_jobs (d d' : DB) : Prop := d'.(db_jobs) = d.(db_jobs).
#[export] Instance same_jobs_preorder : PreOrder same_jobs.
Proof. split; unfold same_jobs; [done|congruence]. Qed.
#[export] Instance same_jobs_update_operation m i g f : VPres m same_jobs (update_operation m i g f).
Proof. unfold update_operation, write_operation. solve_vpres; by apply vpres_modify. Qed.
#[export] Instance same_jobs_transitionStateIfForward i st from r m e :
  VPres m same_jobs (transitionStateIfForward i st from r m e).
Proof.
  unfold transitionStateIfForward, operations_findById, operations_transitionIfForward,
    tenants_findById, date_param, recordTerminalOutcome, record_metric. solve_vpres; by apply vpres_modify.
Qed.

Section Tx.
Context (data : ProtocolStateChangeJobData).
Abbreviation t := (data.(psc_tenantId)).
Abbreviation own := (fun x : string => x = t).

Lemma in_tx_step {A} (p : Prog A) w w' a :
  TxPres own p -> InTx own w -> p w = (w', inr a) ->
  InTx own w' /\ w'.(committed) = w.(committed) /\ evolves own w.(working) w'.(working).
Proof.
  intros Hp HI E. specialize (Hp w HI). rewrite E in Hp. split; [by eapply InTx_step|].
  destruct Hp as [Hc Hv]. split; [done|]. apply Hv. by eapply InTx_working.
Qed.

(** The jobs queued between two points of the transaction, against the tables it began with. *)
Definition noted (w w' : World) : Prop :=
  exists js, w'.(working).(db_jobs) = w.(working).(db_jobs) ++ js /\
    Forall (side_job t w'.(committed) w'.(working)) js.

Lemma operation_moved_since w w1 w2 i :
  InTx own w -> w1.(committed) = w.(committed) -> evolves own w.(working) w1.(working) ->
  evolves own w1.(working) w2 -> is_Some (w.(committed).(db_operations) !! i) ->
  operation_moved w.(working) w1.(working) i -> operation_moved w.(committed) w2 i.
Proof.
  intros [_ (H0 & _)] _ (H1 & _) (H2 & _). eapply (moved_lasts op_row op_id op_tenantId own op_state op_history);
    eauto using op_history_acyclic; try apply _; intros; [reflexivity|by etrans|].
  by destruct H as (_&_&_&_&_&_&_&?).
Qed.

Lemma side_job_lasts d d1 d2 j :
  evolves own d d1 -> evolves own d1 d2 -> side_job t d d1 j -> side_job t d d2 j.
Proof.
  intros (Ho & Hc & Hn & _) (Ho' & Hc' & Hn' & _).
  assert (forall i, operation_moved d d1 i -> operation_moved d d2 i) as Lo.
  { intros i Hm. eapply (moved_lasts op_row op_id op_tenantId own op_state op_history _ (db_operations d));
      eauto using op_history_acyclic; try apply _; intros; try reflexivity; [by etrans|
      by destruct H as (_&_&_&_&_&_&_&?)|by destruct Hm as (? & ? & ? & _)]. }
  assert (forall i, credential_moved d d1 i -> credential_moved d d2 i) as Lc.
  { intros i Hm. eapply (moved_lasts cr_row cr_id cr_tenantId own cr_state cred_history _ (db_credentials d));
      eauto using cred_history_acyclic; try apply _; intros; try reflexivity; [by etrans|
      by destruct H as (_&_&_&_&_&_&_&?)|by destruct Hm as (? & ? & ? & _)]. }
  assert (forall a i, connection_changed d d1 a i -> connection_changed d d2 a i) as Ln.
  { intros a i [(-> & Hd & [c Hi])|[-> Hm]].
    - left. split_and!; [done..|]. specialize (Hn' i). unfold cell_evolves in Hn'. rewrite Hi in Hn'.
      case_match; [by eauto|done].
    - right. split; [done|].
      eapply (moved_lasts cn_row cn_id cn_tenantId own cn_state conn_history _ (db_connections d));
      eauto using conn_history_acyclic; try apply _; intros; try reflexivity; [by etrans|
      by destruct H as (_&_&_&_&?)|by destruct Hm as (? & ? & ? & _)]. }
  destruct j as [t' ev i at_|t' act ty i| | | |]; simpl; try done.
  - intros (-> & s & o' & Hs & Hm & Hi & Hst & Hev). split; [done|].
    specialize (Ho' i). unfold cell_evolves in Ho'. rewrite Hi in Ho'.
    destruct (db_operations d2 !! i) as [o2|] eqn:Hi2; [|done].
    destruct Ho' as [(_&_&_&_&_&_&_&Hh) _]. exists s, o2. rewrite <-Hst in Hs.
    apply (op_history_terminal _ _ Hs) in Hh. rewrite Hst in *. split_and!; auto.
  - intros (-> & [(-> & -> & Hm)|[-> Hm]]); split; auto.
Qed.

Lemma noted_refl w w' : w'.(working).(db_jobs) = w.(working).(db_jobs) -> noted w w'.
Proof. intros H. exists []. by rewrite H, app_nil_r. Qed.

Lemma noted_trans w w1 w2 :
  InTx own w1 -> w2.(committed) = w1.(committed) -> evolves own w1.(working) w2.(working) ->
  noted w w1 -> noted w1 w2 -> noted w w2.
Proof.
  intros [_ He] Hc He2 (js1 & Hj1 & H1) (js2 & Hj2 & H2). exists (js1 ++ js2). rewrite Hj2, Hj1, app_assoc.
  split; [done|]. apply Forall_app. split; [|done]. eapply Forall_impl; [exact H1|]. intros j Hj.
  rewrite Hc. by eapply side_job_lasts.
Qed.

(** ** Operations *)

Lemma settleBatchParent_known b w w' :
  InTx own w -> settleBatchParent b t w = (w', inr tt) ->
  w' = w \/ is_Some (w.(committed).(db_operations) !! b).
Proof.
  intros HI. unfold settleBatchParent, operations_lockBatchParent. intros E. run_inv E. injection E0 as <- _.
  run_inv E. injection E0 as <- <-. cbv zeta in E. case_match; [left; by injection E as <-|].
  run_inv E. destruct a0; [|injection E as <-; left; by eapply update_operation_false].
  right. apply claim_won in E0 as [Hc _]. run_inv E. unfold transitionState, operations_findById in E0. simpl in E0.
  run_inv E0. injection E1 as <- <-. rewrite <-Hc. destruct (_ !! b); [eauto|done].
Qed.

Lemma settleBatchParent_noted b w w' :
  InTx own w -> settleBatchParent b t w = (w', inr tt) -> noted w w'.
Proof.
  intros HI E. destruct (settleBatchParent_known b w w' HI E) as [->|Hk]; [by apply noted_refl|].
  destruct (in_tx_step _ w w' tt (tx_settleBatchParent t b) HI E) as (HI' & Hc & He).
  assert (InTx (fun _ => True) w) as HT by (destruct HI; split; [done|by eapply evolves_mono]).
  pose proof (settleBatchParent_correct b t w w' HT E) as H. cbv zeta in H.
  case_match; [subst; by apply noted_refl|].
  unfold claimable in H. destruct (db_operations (working w) !! b) as [r0|] eqn:Er0; [|subst; by apply noted_refl].
  destruct (_ && bool_decide _) eqn:Eg; [|subst; by apply noted_refl].
  apply andb_prop in Eg as [_ Hp%bool_decide_eq_true].
  destruct H as (r & Hr & Hs & _ & Hj). eexists. split; [exact Hj|]. apply Forall_singleton. simpl.
  assert (op_terminal (final_state (counts_of b t (db_operations (working w))))) as Hterm.
  { unfold final_state, op_terminal. case_match; auto. }
  split; [done|]. exists (op_state r), r. rewrite Hs in *. split_and!; [done| |done|done|by left].
  rewrite Hc. apply (operation_moved_since w w'); [done..|reflexivity|done|].
  exists r0, r. split_and!; [done..|]. intros Heq. rewrite Hs, Hp in Heq. rewrite Heq in Hterm.
  by destruct Hterm.
Qed.

(** A won transition of a row that was there when the transaction began. *)
Lemma transition_moves i st from r e w w' o :
  InTx own w -> evolves own w.(working) w'.(working) -> w'.(committed) = w.(committed) ->
  (forall s, s ∈ from -> exists s', st = Some s' /\ op_step s s') ->
  is_Some (w.(committed).(db_operations) !! i) ->
  transitionStateIfForward i st from r Tx e w = (w', inr (Some o)) ->
  exists s, st = Some s /\ operation_moved w.(committed) w'.(working) i /\
    (exists o0, w.(working).(db_operations) !! i = Some o0 /\ op_step o0.(op_state) s) /\
    w'.(working).(db_operations) !! i = Some o /\ o.(op_state) = s.
Proof.
  intros HI He Hc Hfrom Hi E. apply transitionStateIfForward_won in E as (o0 & x & Ho0 & Hin & Ho & Ho').
  simpl in Ho0, Ho'. destruct (Hfrom _ Hin) as (s & -> & Hstep). exists s. split; [done|].
  assert (op_state o = s) as Hs by (subst o; unfold apply_patch; by destruct r, e).
  split_and!; [|by eauto|done..].
  apply (operation_moved_since w w'); [done..|reflexivity|done|]. exists o0, o. split_and!; [done..|].
  rewrite Hs. intros Heq. apply op_step_rank in Hstep. rewrite Heq in Hstep. lia.
Qed.

Lemma below_steps st : forall s, s ∈ operationStatesBelow st -> exists s', st = Some s' /\ op_step s s'.
Proof.
  intros s H. destruct st as [s'|]; [|by apply elem_of_nil in H]. exists s'. split; [done|].
  by apply operationStatesBelow_spec in H.
Qed.

Lemma same_jobs_run {A} (p : Prog A) `{!VPres Tx same_jobs p} w w' r :
  p w = (w', r) -> w'.(working).(db_jobs) = w.(working).(db_jobs).
Proof. intros E. pose proof (vpres (VPres:=VPres0) w) as [_ H]. by rewrite E in H. Qed.

Lemma dispatch_step event id w w' :
  dispatch Tx t event id w = (w', inr tt) ->
  w'.(committed) = w.(committed) /\ records_same w.(working) w'.(working) /\
  w'.(working).(db_exchanges) = w.(working).(db_exchanges) /\
  w'.(working).(db_jobs) = w.(working).(db_jobs) ++ [WebhookDispatch t event id (date_of w.(clock))].
Proof.
  intros E. apply dispatch_inr in E as (w1 & Hv & ->). pose proof (Hv Tx) as HT. pose proof (Hv NoTx) as HN.
  simpl in *. by rewrite HT.
Qed.

Lemma settleRelatedOfferOperation_noted outcome s w w' :
  InTx own w -> outcome.(po_operationState) = Some s -> op_terminal s ->
  settleRelatedOfferOperation data outcome w = (w', inr tt) -> noted w w'.
Proof.
  intros HI Hs Ht. unfold settleRelatedOfferOperation. intros E. run_inv E. injection E0 as <- <-.
  destruct (find_one _ _) as [c|]; [|injection E as <-; by apply noted_refl].
  run_inv E. injection E0 as <- <-. simpl in E.
  destruct (db_operations (committed w) !! cr_operationId c) as [o|] eqn:Eo; [|injection E as <-; by apply noted_refl].
  destruct (String.eqb_spec (op_tenantId o) t) as [Hot|]; [|injection E as <-; by apply noted_refl].
  run_inv E. assert (op_id o = cr_operationId c) as Hid by (destruct HI as [[K _] _]; by apply K).
  destruct a as [u|]; [|injection E as <-; by apply transitionStateIfForward_None in E0 as ->; apply noted_refl].
  pose proof (same_jobs_run _ _ _ _ E0) as Hj.
  pose proof (transitionStateIfForward_tx t (op_id o) (po_operationState outcome)
    (Some (resolveOperationResult data outcome)) None w o ltac:(by rewrite Hid) Hot HI) as [Hc He].
  rewrite E0 in Hc, He. simpl in Hc, He. specialize (He (InTx_working _ _ HI)).
  apply (transition_moves) in E0 as (s' & Hs' & Hm & _ & Ho' & Hst); [|done..|by apply below_steps|by rewrite Hid; eauto].
  rewrite Hs in Hs'. injection Hs' as <-. rewrite Hs in E.
  apply dispatch_step in E as (Hc2 & (Hsame & _) & _ & Hj2).
  eexists. split; [by rewrite Hj2, Hj|]. apply Forall_singleton. split; [done|]. exists s, u.
  rewrite Hc2, Hc. unfold operation_moved in *. rewrite Hsame. split_and!; [done..|by right].
Qed.

Lemma op_terminal_of outcome o :
  is_exchange_action o.(op_type) && bool_decide (outcome.(po_operationState) = Some COMPLETED \/
    outcome.(po_operationState) = Some FAILED) = true ->
  exists s, outcome.(po_operationState) = Some s /\ op_terminal s.
Proof.
  intros [_ [H|H]%bool_decide_eq_true]%andb_prop; eexists; (split; [exact H|]); unfold op_terminal; auto.
Qed.

(** What the delivery did to the operations: the newest candidate moved, or none did. *)
Lemma applyOperationOutcome_spec outcome w w' oo :
  InTx own w -> applyOperationOutcome data outcome w = (w', inr oo) ->
  noted w w' /\
  (if oo.(oo_transitioned) then
     exists o s o', candidate data o /\ w.(committed).(db_operations) !! o.(op_id) = Some o /\
       (forall id x, w.(committed).(db_operations) !! id = Some x -> candidate data x -> x.(op_createdAt) <= o.(op_createdAt)) /\
       oo.(oo_operationType) = Some o.(op_type) /\ outcome.(po_operationState) = Some s /\
       op_step o.(op_state) s /\
       w'.(working).(db_operations) !! o.(op_id) = Some o' /\ op_history s o'.(op_state)
   else w' = w) /\
  (oo.(oo_operationType) = None -> forall id o, w.(committed).(db_operations) !! id = Some o -> ~ candidate data o).
Proof.
  intros HI. assert (forall o, matches_external t (psc_externalId data) (TOPIC_OPERATION_TYPES (psc_topic data)) o &&
      in_flight (op_state o) = true <-> candidate data o) as Hcand.
  { intros o. unfold matches_external, candidate. rewrite !andb_true_iff, String.eqb_eq, bool_decide_eq_true, mem_str_spec.
    assert (in_flight (op_state o) = true <-> op_state o = PENDING \/ op_state o = PROCESSING) as ->
      by (destruct (op_state o); naive_solver). tauto. }
  unfold applyOperationOutcome. intros E. run_inv E. injection E0 as <- <-. simpl in E.
  destruct (find_latest _ _ _) as [o|] eqn:Eo.
  2:{ run_inv E. injection E0 as <- <-. injection E as <- <-. split_and!; [by apply noted_refl|done|].
      intros _ id x Hx Hc%Hcand. rewrite find_latest_None in Eo. by rewrite (Eo _ _ Hx) in Hc. }
  apply find_latest_Some in Eo as (Ho & [i Hi] & Hnew). apply Hcand in Ho.
  assert (op_id o = i) as <- by (destruct HI as [[K _] _]; by apply K).
  run_inv E. destruct a as [u|].
  2:{ apply transitionStateIfForward_None in E0 as ->. injection E as <- <-. split_and!; [by apply noted_refl|done|done]. }
  pose proof (transitionStateIfForward_tx t (op_id o) (po_operationState outcome)
    (Some (resolveOperationResult data outcome)) None w o Hi (proj1 Ho) HI) as Hv.
  rewrite E0 in Hv. pose proof (InTx_step _ _ _ HI Hv) as HI1. destruct Hv as [Hc1 He1]. simpl in Hc1, He1.
  specialize (He1 (InTx_working _ _ HI)). pose proof (same_jobs_run _ _ _ _ E0) as Hj1.
  apply transition_moves in E0 as (s & Hs & _ & (o0 & Ho0 & Hstep) & Hu & Hus); [|done..|by apply below_steps|eauto].
  assert (op_step (op_state o) s) as Hstep'.
  { destruct (committed_op_working t w (op_id o) o HI Hi) as (o1 & Ho1 & Hrow). simplify_eq.
    destruct Hrow as (_&_&_&_&_&_&_&Hh). apply op_history_rank in Hh. apply op_step_rank in Hstep. apply op_step_rank.
    destruct Hh as [->|]; lia. }
  run_inv E. run_inv E. injection E as -> <-.
  assert (TxPres own (prog_when (truthy_str (op_batchId o)) (settleBatchParent (default "" (op_batchId o)) t))) as T1
    by apply _.
  assert (TxPres own (prog_when (is_exchange_action (op_type o) &&
     bool_decide (po_operationState outcome = Some COMPLETED \/ po_operationState outcome = Some FAILED))
     (settleRelatedOfferOperation data outcome))) as T2 by (apply txpres_prog_when; by apply tx_settleRelatedOfferOperation).
  destruct (in_tx_step _ _ _ _ T1 HI1 E0) as (HI2 & Hc2 & He2).
  destruct (in_tx_step _ _ _ _ T2 HI2 E1) as (HI3 & Hc3 & He3).
  split_and!; [| |done].
  - eapply noted_trans; [exact HI2|done|done| |].
    + eapply noted_trans; [exact HI1|done|done|by apply noted_refl|].
      destruct (truthy_str _); [destruct a; by eapply settleBatchParent_noted|injection E0 as <- _; by apply noted_refl].
    + destruct (is_exchange_action _ && _) eqn:Ek; [|injection E1 as <- _; by apply noted_refl].
      apply op_terminal_of in Ek as (s' & Hs' & Hterm). destruct a0. by eapply settleRelatedOfferOperation_noted.
  - simpl. assert (evolves own (working w0) (working w')) as (H & _) by (by etrans).
    specialize (H (op_id o)). unfold cell_evolves in H. rewrite Hu in H.
    destruct (db_operations (working w') !! op_id o) as [o'|] eqn:Eo'; [|done].
    destruct H as [(_&_&_&_&_&_&_&Hh) _]. rewrite Hus in Hh.
    exists o, s, o'. split_and!; try done. intros id x Hx Hcx. by eapply Hnew; [|apply Hcand].
Qed.

(** ** Credentials *)

Lemma audit_step t' act ty id w w' :
  audit_emit Tx t' act ty id w = (w', inr tt) ->
  w'.(committed) = w.(committed) /\ records_same w.(working) w'.(working) /\
  exists js, w'.(working).(db_jobs) = w.(working).(db_jobs) ++ js /\ (js = [] \/ js = [AuditWrite t' act ty id]).
Proof.
  unfold audit_emit, catch, send. destruct (send_fate w (sends w)); intros E; try done; injection E as <-.
  - split; [done|]. split; [done|]. exists [AuditWrite t' act ty id]. by split; [|right].
  - split; [done|]. split; [done|]. exists []. rewrite app_nil_r. by split; [|left].
Qed.

Lemma noted_audit w w1 w' act ty id :
  w1.(working).(db_jobs) = w.(working).(db_jobs) ->
  audit_emit Tx t act ty id w1 = (w', inr tt) ->
  side_job t w'.(committed) w'.(working) (AuditWrite t act ty id) -> noted w w'.
Proof.
  intros Hj E Hs. apply audit_step in E as (_ & _ & js & Hj' & Hjs). exists js. rewrite Hj', Hj. split; [done|].
  destruct Hjs as [-> | ->]; [done|by apply Forall_singleton].
Qed.

Lemma applyCredentialOutcome_spec outcome w w' ro :
  InTx own w -> w.(working).(db_credentials) = w.(committed).(db_credentials) ->
  applyCredentialOutcome data outcome w = (w', inr ro) ->
  noted w w' /\ ro.(ao_established) = false /\
  if ro.(ao_transitioned) then
    exists id c s c', outcome.(po_credentialState) = Some s /\
      w.(committed).(db_credentials) !! id = Some c /\ c.(cr_tenantId) = t /\
      c.(cr_externalId) = Some data.(psc_externalId) /\
      w'.(working).(db_credentials) !! id = Some c' /\ c'.(cr_state) = s /\ c.(cr_state) <> s
  else w' = w.
Proof.
  intros HI Hsame. unfold applyCredentialOutcome.
  destruct (po_credentialState outcome) as [s|]; intros E; [|injection E as <- <-; by split; [apply noted_refl|]].
  run_inv E. injection E0 as <- <-. simpl in E.
  destruct (find_one _ _) as [c|] eqn:Ec; [|injection E as <- <-; by split; [apply noted_refl|]].
  apply find_one_Some in Ec as [[Ht%String.eqb_eq Hx%bool_decide_eq_true]%andb_prop [i Hi]].
  assert (cr_id c = i) as <- by (destruct HI as [(_ & K & _) _]; by apply K).
  run_inv E. injection E0 as <- <-. run_inv E. destruct a.
  2:{ apply update_credential_false in E0 as ->. injection E as <- <-. by split; [apply noted_refl|]. }
  run_inv E. injection E as <- <-. destruct a. unfold credentials_updateStateIfForward, update_credential in E0.
  run_inv E0. injection E as <- <-. simpl in E0. rewrite Hsame, Hi in E0.
  destruct (_ && _) eqn:Eg; [|done]. apply andb_prop in Eg as [_ Hin%bool_decide_eq_true].
  run_inv E0. injection E as <- <-. run_inv E0. injection E0 as <-. unfold write_credential in E. run_inv E.
  injection E0 as <- <-. destruct (existsb _ _); [done|]. injection E as <- _.
  pose proof (audit_step _ _ _ _ _ _ E1) as (Hc & (_ & Hcr & _) & _). simpl in Hc, Hcr.
  assert (cr_state c <> s) as Hne.
  { intros Heq. apply credentialStatesBelow_spec in Hin. rewrite Heq in Hin. by destruct s. }
  split_and!; [|done|].
  - eapply noted_audit; [|exact E1|]; [done|]. split; [done|]. left. split_and!; [done..|].
    unfold credential_moved. rewrite Hc, Hcr. exists c. eexists. split; [done|]. rewrite lookup_insert_eq.
    split; [done|]. simpl. congruence.
  - simpl. exists (cr_id c), c, s. rewrite Hcr, lookup_insert_eq. eexists. by split_and!.
Qed.

(** ** Connections *)

Lemma protocol_move c s w w' r x :
  applyProtocolStateIfForward c (Known s) (connectionStatesBelow (Known s)) Tx w = (w', inr r) ->
  w.(working).(db_connections) !! c.(cn_id) = Some x -> x.(cn_tenantId) = c.(cn_tenantId) -> c.(cn_tenantId) = t ->
  (r = None /\ w' = w /\ ~ conn_step x.(cn_state) s) \/
  (is_Some r /\ conn_step x.(cn_state) s /\ w'.(committed) = w.(committed) /\
   (exists u, w'.(working).(db_connections) =
      <[c.(cn_id) := cn_set_updatedAt u (cn_set_state s x)]> w.(working).(db_connections)) /\
   exists js, w'.(working).(db_jobs) = w.(working).(db_jobs) ++ js /\
     (js = [] \/ js = [AuditWrite t "update" "connection" c.(cn_id)])).
Proof.
  unfold applyProtocolStateIfForward, connections_updateStateIfForward. intros E Hx Hxt Ht. run_inv E. run_inv E0.
  injection E1 as <- <-. simpl in E0. rewrite Hx in E0. destruct (_ && _) eqn:Eg.
  - apply andb_prop in Eg as [_ Hin%bool_decide_eq_true]. apply connectionStatesBelow_spec in Hin.
    run_inv E0. injection E1 as <- <-. run_inv E0. injection E0 as <- <-. run_inv E. injection E as <- <-. repeat match goal with u : unit |- _ => destruct u end.
    unfold write_connection in E1. run_inv E1. injection E as <- <-. destruct (existsb _ _); [done|]. injection E1 as <-.
    apply audit_step in E0 as (Hc & (_ & _ & Hn) & js & Hj & Hjs). rewrite Ht in Hjs. right.
    split_and!; [by eauto|done|done|eexists; by rewrite Hn|]. exists js. done.
  - injection E0 as <- <-. injection E as <- <-. left. split_and!; [done..|]. intros Hs.
    rewrite Hxt, String.eqb_refl in Eg. simpl in Eg. apply bool_decide_eq_false in Eg. apply Eg.
    by apply connectionStatesBelow_spec.
Qed.

Definition is_handshake (s : ConnectionState) : bool := bool_decide (s = ACTIVE \/ s = CN_COMPLETED).

(** The row of one connection after the move or moves: its state, whether the
    handshake completed with it, and the audited writes. *)
Lemma transition_connection c target w w' updated est :
  w.(working).(db_connections) !! c.(cn_id) = Some c -> c.(cn_tenantId) = t ->
  transitionConnectionState target (fun s from => applyProtocolStateIfForward c s from Tx) w = (w', inr (updated, est)) ->
  (updated = None /\ w' = w) \/
  (is_Some updated /\ w'.(committed) = w.(committed) /\ exists s u js,
     w'.(working).(db_connections) = <[c.(cn_id) := cn_set_updatedAt u (cn_set_state s c)]> w.(working).(db_connections) /\
     s <> c.(cn_state) /\ est = is_handshake s && negb (is_handshake c.(cn_state)) /\
     w'.(working).(db_jobs) = w.(working).(db_jobs) ++ js /\
     Forall (fun j => j = AuditWrite t "update" "connection" c.(cn_id)) js /\
     (target = Known ACTIVE -> est = true)).
Proof.
  intros Hc Ht. destruct target as [s|m].
  2:{ unfold transitionConnectionState. intros E. run_inv E. rewrite decide_False in E0 by done.
      injection E0 as <- <-. run_inv E. by unfold applyProtocolStateIfForward, connections_updateStateIfForward in E0. }
  assert (forall w0 w1 s r x, conn_step x.(cn_state) s ->
    (exists u, w1.(working).(db_connections) =
      <[c.(cn_id) := cn_set_updatedAt u (cn_set_state s x)]> w0.(working).(db_connections)) ->
    (exists js, w1.(working).(db_jobs) = w0.(working).(db_jobs) ++ js /\
     (js = [] \/ js = [AuditWrite t "update" "connection" c.(cn_id)])) -> is_Some r (A := Connection) -> exists u js,
     w1.(working).(db_connections) = <[c.(cn_id) := cn_set_updatedAt u (cn_set_state s x)]> w0.(working).(db_connections) /\
     w1.(working).(db_jobs) = w0.(working).(db_jobs) ++ js /\
     Forall (fun j => j = AuditWrite t "update" "connection" c.(cn_id)) js /\
     (CONNECTION_STATE_RANK x.(cn_state) < CONNECTION_STATE_RANK s)%nat) as Hmv.
  { intros w0 w1 s' r x Hs [u Hu] (js & Hj & Hjs) _. exists u, js. split_and!; [done..| |].
    - destruct Hjs as [-> | ->]; [done|by apply Forall_singleton].
    - unfold conn_step, isForwardConnectionTransition in Hs. by apply Nat.ltb_lt in Hs. }
  unfold transitionConnectionState. intros E. run_inv E. run_inv E. injection E as <- <- <-.
  case_decide as Hd.
  - injection Hd as ->. apply (protocol_move _ _ _ _ _ c) in E0; [|done..].
    destruct E0 as [(-> & -> & Hno)|(Ha & Hs & Hcm & Hu & Hj)].
    + apply (protocol_move _ _ _ _ _ c) in E1; [|done..].
      destruct E1 as [(-> & -> & _)|(Ha & Hs & Hcm & Hu & Hj)]; [by left|right].
      destruct (Hmv _ _ _ _ _ Hs Hu Hj Ha) as (u & js & H1 & H2 & H3 & H4). destruct a0; [|by destruct Ha].
      split_and!; [by eauto|done|]. exists CN_COMPLETED, u, js. split_and!; try done.
      * intros Heq. rewrite <-Heq in H4. simpl in H4. lia.
      * simpl. destruct (cn_state c) eqn:Es; try done; exfalso; by apply Hno.
    + destruct (Hmv _ _ _ _ _ Hs Hu Hj Ha) as (u & js & H1 & H2 & H3 & H4).
      apply (protocol_move _ _ _ _ _ (cn_set_updatedAt u (cn_set_state ACTIVE c))) in E1;
        [|by rewrite H1, lookup_insert_eq|done..].
      destruct E1 as [(_ & _ & Hno)|(Ha' & Hs' & Hcm' & Hu' & Hj')]; [by exfalso; apply Hno|right].
      destruct (Hmv _ _ _ _ _ Hs' Hu' Hj' Ha') as (u' & js' & H1' & H2' & H3' & _).
      destruct a0; [|by destruct Ha']. split_and!; [by eauto|congruence|].
      exists CN_COMPLETED, u', (js ++ js'). rewrite H1', H1, insert_insert_eq. split_and!.
      * done.
      * intros Heq. rewrite <-Heq in H4. simpl in H4. lia.
      * rewrite bool_decide_eq_true_2 by done. destruct (cn_state c); simpl in H4; try lia; done.
      * by rewrite H2', H2, app_assoc.
      * by apply Forall_app.
      * done.
  - injection E0 as <- <-. apply (protocol_move _ _ _ _ _ c) in E1; [|done..].
    destruct E1 as [(-> & -> & _)|(Ha & Hs & Hcm & Hu & Hj)]; [by left|right].
    destruct (Hmv _ _ _ _ _ Hs Hu Hj Ha) as (u & js & H1 & H2 & H3 & H4). destruct a0; [|by destruct Ha].
    split_and!; [by eauto|done|]. exists s, u, js. split_and!; try done.
    + intros ->. lia.
    + simpl. destruct s; try done; destruct (cn_state c); simpl in H4; try lia; done.
    + by intros [= ->].
Qed.

Lemma established_insert d d' i c' :
  d'.(db_connections) = <[i := c']> d.(db_connections) ->
  established d d' <-> handshake_complete c' /\
    forall c, d.(db_connections) !! i = Some c -> ~ handshake_complete c.
Proof.
  intros Hd. unfold established. rewrite Hd. split.
  - intros (j & x & Hj & Hx & Hold). destruct (decide (j = i)) as [->|Hne].
    + rewrite lookup_insert_eq in Hj. by injection Hj as <-.
    + rewrite lookup_insert_ne in Hj by done. by destruct (Hold x Hj).
  - intros [Hc Hold]. exists i, c'. by rewrite lookup_insert_eq.
Qed.

Lemma is_handshake_spec c : is_handshake c.(cn_state) = true <-> handshake_complete c.
Proof. apply bool_decide_eq_true. Qed.

(** The two writes of a connection outcome: the matched row, or a new one from a
    reusable invitation. *)
Lemma transition_outcome c target w w' ro :
  InTx own w -> w.(working).(db_connections) = w.(committed).(db_connections) ->
  w.(committed).(db_connections) !! c.(cn_id) = Some c -> c.(cn_tenantId) = t ->
  (moved ← transitionConnectionState target (fun s from => applyProtocolStateIfForward c s from Tx);
   mret (mkApplied true (bool_decide (is_Some moved.1)) moved.2)) w = (w', inr ro) ->
  noted w w' /\
  if ro.(ao_transitioned) then
    (exists id, connection_changed w.(committed) w'.(working) "update" id) /\
    (ro.(ao_established) = true <-> established w.(committed) w'.(working)) /\
    (target = Known ACTIVE -> ro.(ao_established) = true)
  else w' = w.
Proof.
  intros HI Hsame Hc Ht E. run_inv E. injection E as -> <-. destruct a as [updated est]. simpl.
  apply transition_connection in E0; [|by rewrite Hsame|done].
  destruct E0 as [[-> ->]|(Hu & Hcm & s & u & js & Hn & Hs & -> & Hj & Hjs & Hact)]; [split; [by apply noted_refl|done]|].
  rewrite (bool_decide_eq_true_2 _ Hu). rewrite Hsame in Hn.
  assert (connection_changed (committed w) (working w') "update" (cn_id c)) as Hch.
  { right. split; [done|]. exists c. eexists. split; [done|]. rewrite Hn, lookup_insert_eq. by split. }
  split_and!; [|by eauto| |exact Hact].
  - exists js. split; [done|]. eapply Forall_impl; [exact Hjs|]. intros j ->. split; [done|]. rewrite Hcm. by right.
  - rewrite (established_insert _ _ _ _ Hn), andb_true_iff, negb_true_iff. rewrite Hc.
    unfold handshake_complete at 1. simpl. unfold is_handshake at 1. rewrite bool_decide_eq_true.
    split; intros [H1 H2]; (split; [done|]).
    + intros x [= <-] Hx. apply is_handshake_spec in Hx. congruence.
    + destruct (is_handshake (cn_state c)) eqn:Eh; [|done]. apply is_handshake_spec in Eh. by destruct (H2 c eq_refl).
Qed.

Lemma template_outcome tpl target did w w' x :
  InTx own w -> w.(working).(db_connections) = w.(committed).(db_connections) -> tpl.(cn_tenantId) = t ->
  createFromInvitationTemplate tpl data.(psc_externalId) target did Tx w = (w', inr x) ->
  noted w w' /\ (exists id, connection_changed w.(committed) w'.(working) "create" id) /\
  (bool_decide (target = Known ACTIVE \/ target = Known CN_COMPLETED) = true <-> established w.(committed) w'.(working)).
Proof.
  intros HI Hsame Ht. unfold createFromInvitationTemplate. destruct target as [s|]; [|done]. intros E. run_inv E.
  run_inv E. injection E as -> <-. destruct a0. unfold connections_create in E0. run_inv E0. run_inv E0. run_inv E0.
  injection E2 as <- <-. injection E3 as <- <-. simpl in E0.
  destruct (bool_decide _) eqn:Ef; [done|]. apply bool_decide_eq_false in Ef.
  run_inv E0. injection E0 as -> <-. unfold write_connection in E2. run_inv E2. injection E0 as <- <-.
  destruct (existsb _ _); [done|]. injection E2 as Ew _.
  assert (committed w1 = committed w /\ working w1 = working w /\ db_jobs (working w) = db_jobs (working w1)) as (H1 & H2 & _).
  { injection E as <- _. done. }
  simpl in E1. pose proof (audit_step _ _ _ _ _ _ E1) as (Hcm & (_ & _ & Hn) & _). rewrite <-Ew in Hcm, Hn. simpl in Hcm, Hn.
  rewrite H2, Hsame in Hn. rewrite H2, Hsame in Ef. rewrite H1 in Hcm.
  assert (db_connections (committed w) !! a0 = None) as Hnone by (by apply eq_None_not_Some).
  assert (connection_changed (committed w) (working w') "create" a0) as Hch.
  { left. split; [done|]. split; [done|]. rewrite Hn, lookup_insert_eq. by eauto. }
  split_and!; [|by eauto|].
  - rewrite Ht in E1. eapply noted_audit; [|exact E1|].
    + rewrite <-Ew. simpl. by rewrite H2.
    + split; [done|]. right. split; [done|]. by rewrite Hcm.
  - rewrite (established_insert _ _ _ _ Hn), bool_decide_eq_true, Hnone. unfold handshake_complete. simpl.
    split; [intros H; split; [|done]|intros [H _]]; destruct H as [H|H];
      first [injection H as ->|rewrite H]; auto.
Qed.

Lemma applyConnectionOutcome_spec outcome w w' ro :
  InTx own w -> w.(working).(db_connections) = w.(committed).(db_connections) ->
  applyConnectionOutcome data outcome w = (w', inr ro) ->
  noted w w' /\
  if ro.(ao_transitioned) then
    (exists id action, connection_changed w.(committed) w'.(working) action id) /\
    (ro.(ao_established) = true <-> established w.(committed) w'.(working)) /\
    (outcome.(po_connectionState) = Some (Known ACTIVE) -> ro.(ao_established) = true)
  else w' = w.
Proof.
  intros HI Hsame. assert (forall i c, w.(committed).(db_connections) !! i = Some c ->
    w.(committed).(db_connections) !! c.(cn_id) = Some c) as Hkey.
  { intros i c Hc. destruct HI as [(_ & _ & K & _) _]. by rewrite (K _ _ Hc). }
  unfold applyConnectionOutcome. cbv zeta.
  destruct (po_connectionState outcome) as [target|]; intros E; [|injection E as <- <-; by split; [apply noted_refl|]].
  assert (forall c i, w.(committed).(db_connections) !! i = Some c -> c.(cn_tenantId) = t ->
    (moved ← transitionConnectionState target (fun s from => applyProtocolStateIfForward c s from Tx);
     mret (mkApplied true (bool_decide (is_Some moved.1)) moved.2)) w = (w', inr ro) ->
    noted w w' /\ if ro.(ao_transitioned) then
      (exists id action, connection_changed w.(committed) w'.(working) action id) /\
      (ro.(ao_established) = true <-> established w.(committed) w'.(working)) /\
      (Some target = Some (Known ACTIVE) -> ro.(ao_established) = true) else w' = w) as Htr.
  { intros c i Hi Ht Et. apply transition_outcome in Et as [H1 H2]; [|by eauto..]. split; [done|].
    case_match; [|done]. destruct H2 as ([id H2] & H3 & H4). split_and!; [by eauto|done|]. intros [= ->]. by apply H4. }
  run_inv E. injection E0 as <- <-. simpl in E. destruct (find_one _ _) as [c|] eqn:Ec.
  { apply find_one_Some in Ec as [[Ht%String.eqb_eq _]%andb_prop [i Hi]]. by eapply Htr. }
  clear Ec. run_inv E. injection E0 as <- <-. simpl in E.
  destruct (find_one _ _) as [c|] eqn:Ec; [|injection E as <- <-; by split; [apply noted_refl|]].
  apply find_one_Some in Ec as [[Ht%String.eqb_eq _]%andb_prop [i Hi]].
  destruct (truthy _); [|by eapply Htr]. case_decide; [injection E as <- <-; by split; [apply noted_refl|]|].
  run_inv E. injection E as -> <-. apply template_outcome in E0 as (H1 & [id H2] & H3); [|done..]. simpl.
  split; [done|]. split_and!; [by eauto|done|]. intros [= ->]. done.
Qed.

(** ** Exchanges *)

Lemma observed_state st x x' tr :
  observed st x = (x', tr) ->
  x'.(ex_id) = x.(ex_id) /\
  match tr with
  | Some m => m.(et_exchangeId) = x.(ex_id) /\ x'.(ex_state) = m.(et_to) /\ m.(et_to) <> x.(ex_state)
  | None => x'.(ex_state) = x.(ex_state)
  end.
Proof.
  assert (forall y, ex_id (confirm_submission y) = ex_id y /\ ex_state (confirm_submission y) = ex_state y) as Hcs.
  { intros y. unfold confirm_submission. by case_match. }
  unfold observed. destruct (isExchangeState st) as [next|]; [|intros [= <- <-]; done].
  unfold advance. cbv zeta. destruct (_ || _) eqn:Eg; intros [= <- <-].
  - by destruct (Hcs x).
  - destruct (Hcs (ex_set_state next x)) as [-> ->]. simpl. split_and!; [done..|]. intros ->.
    apply orb_false_iff in Eg as [Eg _]. apply Nat.leb_gt in Eg. lia.
Qed.

Lemma exchanges_save_states x m w w' r :
  exchanges_save x m w = (w', inr r) -> is_Some ((view m w).(db_exchanges) !! x.(ex_id)) ->
  forall i, (ex_state <$> (view m w').(db_exchanges) !! i) =
    if decide (i = x.(ex_id)) then Some x.(ex_state) else ex_state <$> (view m w).(db_exchanges) !! i.
Proof.
  unfold exchanges_save. intros E [x0 Hx0] i. run_inv E. injection E0 as <- <-. rewrite Hx0 in E.
  case_decide as Hd.
  - injection E as <- <-. case_decide as Hi; [|done]. subst i. rewrite Hx0. simpl. f_equal.
    apply (f_equal ex_state) in Hd. exact Hd.
  - run_inv E. injection E0 as <- <-. run_inv E. injection E as -> <-. unfold write_exchange in E0. run_inv E0.
    injection E as <- <-. destruct (existsb _ _); [done|]. injection E0 as <- _.
    destruct m; simpl; case_decide as Hi; subst; by rewrite ?lookup_insert_eq, ?lookup_insert_ne.
Qed.

(** What the delivery did to the exchanges. *)
Lemma observeExchange_spec correlation w w' tr :
  keyed w.(working) -> observeExchange data correlation w = (w', inr tr) ->
  match tr with
  | Some m => exists x', w'.(working).(db_exchanges) !! m.(et_exchangeId) = Some x' /\ x'.(ex_state) = m.(et_to) /\
      forall i, exchange_moved w.(working) w'.(working) i <-> i = m.(et_exchangeId)
  | None => forall i, ~ exchange_moved w.(working) w'.(working) i
  end.
Proof.
  assert (forall i d, ~ exchange_moved d d i) as Hirr by (intros i d (x & x' & H1 & H2 & H3); congruence).
  intros K. unfold observeExchange. cbv zeta. intros E. case_decide; [|by injection E as <- <-].
  run_inv E. assert (w0 = w) as ->.
  { destruct correlation; injection E0 as <- _; done. }
  destruct (truthy_str _); [|by injection E as <- <-]. unfold exchanges_observe in E. cbv zeta in E. run_inv E.
  injection E1 as <- <-. simpl in E. destruct (exchange_lookup _ _ _ _ _) as [x|] eqn:El; [|by injection E as <- <-].
  apply exchange_lookup_Some in El as [_ [i Hi]]. assert (ex_id x = i) as <- by (destruct K as (_&_&_&K); by apply K).
  destruct (_ && _); [done|]. destruct (observed _ _) as [x' tr'] eqn:Eo. apply observed_state in Eo as [Hid Hst].
  simpl in Hid, Hst. run_inv E. injection E as -> ->.
  assert (forall i, (ex_state <$> (working w').(db_exchanges) !! i) =
    if decide (i = ex_id x) then Some (ex_state x') else ex_state <$> (working w).(db_exchanges) !! i) as Hs.
  { rewrite <-Hid. apply (exchanges_save_states _ Tx _ _ _ E1). simpl. rewrite Hid. eauto. }
  destruct tr as [m|].
  - destruct Hst as (Hm & Hm2 & Hm3). rewrite Hm. pose proof (Hs (ex_id x)) as Hx. rewrite decide_True in Hx by done.
    apply fmap_Some in Hx as (x1 & Hx1 & Hx1s). exists x1. split_and!; [done|congruence|]. intros i. split.
    + intros (y & y' & Hy & Hy' & Hne). specialize (Hs i). rewrite Hy, Hy' in Hs. case_decide; [done|].
      injection Hs as Hs. by destruct Hne.
    + intros ->. exists x, x1. split_and!; [done..|]. congruence.
  - intros i (y & y' & Hy & Hy' & Hne). specialize (Hs i). rewrite Hy, Hy' in Hs. case_decide as Hc.
    + subst i. simplify_eq. injection Hs as Hs. apply Hne. congruence.
    + injection Hs as Hs. by destruct Hne.
Qed.
End Tx.

(** ** The transaction *)

(** The credential and the connection path write no other record. *)
Definition creds_only (d d' : DB) : Prop :=
  d'.(db_operations) = d.(db_operations) /\ d'.(db_connections) = d.(db_connections) /\ d'.(db_exchanges) = d.(db_exchanges).
Definition conns_only (d d' : DB) : Prop :=
  d'.(db_operations) = d.(db_operations) /\ d'.(db_credentials) = d.(db_credentials) /\ d'.(db_exchanges) = d.(db_exchanges).
#[export] Instance creds_only_preorder : PreOrder creds_only.
Proof. split; [by intros d|unfold creds_only; intros d1 d2 d3; intuition congruence]. Qed.
#[export] Instance conns_only_preorder : PreOrder conns_only.
Proof. split; [by intros d|unfold conns_only; intros d1 d2 d3; intuition congruence]. Qed.
#[export] Instance creds_only_send m j : VPres m creds_only (send m j).
Proof. intros w. unfold send. destruct (send_fate w (sends w)); by destruct m; split. Qed.
#[export] Instance conns_only_send m j : VPres m conns_only (send m j).
Proof. intros w. unfold send. destruct (send_fate w (sends w)); by destruct m; split. Qed.
#[export] Instance creds_only_applyCredentialOutcome data outcome :
  VPres Tx creds_only (applyCredentialOutcome data outcome).
Proof.
  unfold applyCredentialOutcome, credentials_findByExternalId, credentials_updateStateIfForward,
    update_credential, write_credential, audit_emit. solve_vpres; by apply vpres_modify.
Qed.
#[export] Instance conns_only_applyConnectionOutcome data outcome :
  VPres Tx conns_only (applyConnectionOutcome data outcome).
Proof.
  unfold applyConnectionOutcome, connections_findByExternalConnectionIdForTenant,
    connections_findByInvitationMsgIdForTenant, transitionConnectionState, applyProtocolStateIfForward,
    connections_updateStateIfForward, createFromInvitationTemplate, connections_create, write_connection, audit_emit.
  solve_vpres; by apply vpres_modify.
Qed.

Lemma vpres_run {A} (R : relation DB) (p : Prog A) `{!VPres Tx R p} w w' r :
  p w = (w', r) -> R w.(working) w'.(working).
Proof. intros E. pose proof (vpres (VPres:=VPres0) w) as [_ H]. by rewrite E in H. Qed.

Section Delivery.
Context (data : ProtocolStateChangeJobData) (outcome : ProtocolOutcome).
Abbreviation t := (data.(psc_tenantId)).
Abbreviation own := (fun x : string => x = t).

(** The record the delivery is for moved. *)
Definition settled (d d' : DB) (m : option Operation) : Prop :=
  match m with
  | Some o => exists s o', outcome.(po_operationState) = Some s /\
      d'.(db_operations) !! o.(op_id) = Some o' /\ op_step o.(op_state) s /\ op_history s o'.(op_state)
  | None => exists id c s c', outcome.(po_credentialState) = Some s /\
      d.(db_credentials) !! id = Some c /\ c.(cr_tenantId) = t /\ c.(cr_externalId) = Some data.(psc_externalId) /\
      d'.(db_credentials) !! id = Some c' /\ c'.(cr_state) = s /\ c.(cr_state) <> s
  end.

Lemma settled_moved d d' m :
  operation_for data d m -> settled d d' m -> exists id, operation_moved d d' id \/ credential_moved d d' id.
Proof.
  destruct m as [o|].
  - intros (_ & Ho & _) (s & o' & _ & Ho' & Hs & Hh). exists (op_id o). left. exists o, o'. split_and!; [done..|].
    intros Heq. apply op_step_rank in Hs. apply op_history_rank in Hh. rewrite Heq in Hh.
    destruct Hh as [Hh|]; [rewrite Hh in Hs|]; lia.
  - intros _ (id & c & s & c' & _ & Hc & _ & _ & Hc' & Hs & Hne). exists id. right. exists c, c'. split_and!; [done..|].
    congruence.
Qed.

(** The records other than the exchange. *)
Lemma applyOutcome_spec w w' oo ro :
  InTx own w -> records_same w.(committed) w.(working) -> applyOutcome data outcome w = (w', inr (oo, ro)) ->
  noted data w w' /\ w'.(committed) = w.(committed) /\ w'.(working).(db_exchanges) = w.(working).(db_exchanges) /\
  if decide (data.(psc_topic) = connections) then
    w'.(working).(db_credentials) = w.(committed).(db_credentials) /\
    (if oo.(oo_transitioned) then exists id, operation_moved w.(committed) w'.(working) id
     else w'.(working).(db_operations) = w.(committed).(db_operations)) /\
    if ro.(ao_transitioned) then
      (exists id action, connection_changed w.(committed) w'.(working) action id) /\
      (ro.(ao_established) = true <-> established w.(committed) w'.(working)) /\
      (outcome.(po_connectionState) = Some (Known ACTIVE) -> ro.(ao_established) = true)
    else w'.(working).(db_connections) = w.(committed).(db_connections)
  else
    w'.(working).(db_connections) = w.(committed).(db_connections) /\ ro.(ao_established) = false /\
    if oo.(oo_transitioned) || ro.(ao_transitioned) then
      exists m, operation_for data w.(committed) m /\ settled w.(committed) w'.(working) m /\
        oo.(oo_operationType) = op_type <$> m
    else w' = w.
Proof.
  intros HI (So & Sc & Sn). unfold applyOutcome. intros E. run_inv E. run_inv E. injection E as -> -> ->.
  pose proof (vpres_run ops_only _ _ _ _ E0) as (Oc & On & Ox).
  destruct (in_tx_step data _ _ _ _ (tx_applyOperationOutcome t data outcome eq_refl) HI E0) as (HI1 & Hc1 & He1).
  apply applyOperationOutcome_spec in E0 as (N1 & Hop & Hnone); [|done].
  assert (forall o' o s, w0.(working).(db_operations) !! op_id o = Some o' -> w.(committed).(db_operations) !! op_id o = Some o ->
    op_step (op_state o) s -> op_history s (op_state o') -> operation_moved w.(committed) w0.(working) (op_id o)) as Hm.
  { intros o' o s Ho' Ho Hs Hh. exists o, o'. split_and!; [done..|]. intros Heq. apply op_step_rank in Hs.
    apply op_history_rank in Hh. rewrite Heq in Hh. destruct Hh as [Hh|]; [rewrite Hh in Hs|]; lia. }
  case_decide as Ht.
  - destruct (in_tx_step data _ _ _ _ (tx_applyConnectionOutcome t data outcome eq_refl) HI1 E1) as (HI2 & Hc2 & He2).
    pose proof (vpres_run conns_only _ _ _ _ E1) as (Eo & Ec & Ox2).
    apply applyConnectionOutcome_spec in E1 as (N2 & Hcn); [|done|congruence].
    split_and!; [by eapply (noted_trans data _ w0)|congruence..| |].
    + destruct (oo_transitioned oo).
      * destruct Hop as (o & s & o' & _ & Ho & _ & _ & _ & Hs & Ho' & Hh). exists (op_id o).
        unfold operation_moved. rewrite Eo. by eapply Hm.
      * subst w0. congruence.
    + rewrite Hc1 in Hcn. destruct (ao_transitioned ro); [done|]. subst w'. congruence.
  - destruct (bool_decide _ || _) eqn:Eg.
    2:{ injection E1 as -> <-. apply orb_false_iff in Eg as [_ Eg]. rewrite Eg in Hop |- *. subst w'. simpl.
        split_and!; [by apply noted_refl|done..]. }
    destruct (in_tx_step data _ _ _ _ (tx_applyCredentialOutcome t data outcome eq_refl) HI1 E1) as (HI2 & Hc2 & He2).
    pose proof (vpres_run creds_only _ _ _ _ E1) as (Eo & En & Ex).
    apply applyCredentialOutcome_spec in E1 as (N2 & Hest & Hcr); [|done|congruence].
    split_and!; [by eapply (noted_trans data _ w0)|congruence..|done|].
    destruct (oo_transitioned oo) eqn:Eoo; simpl.
    + destruct Hop as (o & s & o' & Hcand & Ho & Hnew & Hty & Hst & Hs & Ho' & Hh). exists (Some o).
      split_and!; [done..| |done]. exists s, o'. rewrite Eo. by split_and!.
    + apply orb_true_iff in Eg as [Eg%bool_decide_eq_true|]; [|done]. subst w0.
      destruct (ao_transitioned ro); [|done]. exists None. split_and!; [exact (Hnone Eg)|exact Hcr|done].
Qed.

(** The notification that a credential is requested on an exchange. *)
Definition request_notice (d d' : DB) (now : Z) (js : list Job) : Prop :=
  (exists id x, exchange_moved d d' id /\ d'.(db_exchanges) !! id = Some x /\ x.(ex_state) = Ex RequestReceived /\
     js = [WebhookDispatch t "credential-exchange.request-received" id now]) \/
  (js = [] /\ forall id x, exchange_moved d d' id -> d'.(db_exchanges) !! id = Some x ->
     x.(ex_state) <> Ex RequestReceived).

(** Up to the notification of a request. *)
Lemma opening_spec correlation d w w1 w2 tr :
  w.(committed) = d -> w.(working) = d -> keyed d ->
  observeExchange data correlation w = (w1, inr tr) ->
  (match tr with
   | Some m => prog_when (bool_decide (m.(et_to) = Ex RequestReceived))
       (dispatch Tx t "credential-exchange.request-received" m.(et_exchangeId))
   | None => mret tt end) w1 = (w2, inr tt) ->
  InTx own w2 /\ w2.(committed) = d /\ records_same d w2.(working) /\ w2.(clock) = w.(clock) /\
  ((exists id, exchange_moved d w2.(working) id) <-> is_Some tr) /\
  (data.(psc_topic) = connections -> tr = None) /\
  exists notice, w2.(working).(db_jobs) = d.(db_jobs) ++ notice /\
    request_notice d w2.(working) (date_of w.(clock)) notice.
Proof.
  intros Hcm Hwk K E E2. assert (InTx own w) as HI by (split; rewrite Hcm, ?Hwk; done).
  assert (data.(psc_topic) = connections -> tr = None) as Htr.
  { intros Ht. unfold observeExchange in E. rewrite decide_False in E by congruence. by injection E. }
  destruct (in_tx_step data _ _ _ _ (tx_observeExchange t data correlation eq_refl) HI E) as (HI1 & Hc1 & _).
  pose proof (vpres_run others_same _ _ _ _ E) as (So & Sc & Sn & Sj).
  pose proof (quiet_observeExchange data correlation w) as (_ & _ & Q1). rewrite E in Q1. simpl in Q1.
  apply observeExchange_spec in E as Hex; [|by rewrite Hwk]. rewrite Hwk in *. rewrite Hcm in Hc1.
  destruct tr as [m|].
  - destruct Hex as (x & Hx & Hxs & Hmv).
    assert ((exists id, exchange_moved d (working w1) id) <-> is_Some (Some m)) as Hiff.
    { split; [by eauto|]. intros _. exists (et_exchangeId m). by apply Hmv. }
    case_bool_decide as Hto; simpl in E2.
    + destruct (in_tx_step data _ _ _ _ (txpres_vpres own _ (vpres_dispatch own Tx _ _ _ eq_refl)) HI1 E2) as (HI2 & Hc2 & _).
      pose proof (quiet_dispatch Tx t "credential-exchange.request-received" (et_exchangeId m) w1) as (_ & _ & Q2).
      rewrite E2 in Q2. simpl in Q2. apply dispatch_step in E2 as (_ & (Ro & Rc & Rn) & Rx & Rj).
      unfold exchange_moved. rewrite Rx. split_and!; [done|congruence|split_and!; congruence|congruence|exact Hiff|done|].
      eexists. rewrite Rj, Sj. split; [done|]. left. exists (et_exchangeId m), x. rewrite Rx, <-Q1.
      split_and!; [unfold exchange_moved; rewrite Rx; by apply Hmv|done|congruence|done].
    + injection E2 as <-. split_and!; [done..|]. exists []. rewrite app_nil_r. split; [done|]. right. split; [done|].
      intros id y Hid Hy. apply Hmv in Hid as ->. congruence.
  - injection E2 as <-. split_and!; [done..| |done|].
    + split; [intros [id Hid]; by destruct (Hex id)|by intros [? ?]].
    + exists []. rewrite app_nil_r. split; [done|]. right. split; [done|]. intros id x Hid. by destruct (Hex id).
Qed.

Lemma nothing_else_moved d d' :
  records_same d d' -> something_moved d d' <-> exists id, exchange_moved d d' id.
Proof.
  intros (Ho & Hc & Hn). split; [|intros [id H]; exists id; by auto].
  intros (id & [(x & y & H1 & H2 & H3)|[(x & y & H1 & H2 & H3)|[H|(act & [(_ & H1 & y & H2)|(_ & x & y & H1 & H2 & H3)])]]]);
    solve [congruence|by eauto].
Qed.

Lemma not_announced d d' :
  d'.(db_connections) = d.(db_connections) ->
  (data.(psc_topic) <> connections ->
   d'.(db_operations) = d.(db_operations) /\ d'.(db_credentials) = d.(db_credentials)) ->
  ~ announced data.(psc_topic) d d'.
Proof.
  intros Hn H [id Ha]. case_decide as Ht.
  - destruct Ha as (act & [(_ & H1 & y & H2)|(_ & x & y & H1 & H2 & H3)]); congruence.
  - destruct (H Ht) as [Ho Hc]. destruct Ha as [(x & y & H1 & H2 & H3)|(x & y & H1 & H2 & H3)]; congruence.
Qed.

Lemma announced_moved d d' : announced data.(psc_topic) d d' -> something_moved d d'.
Proof. intros [id H]. exists id. case_decide; [|destruct H]; by auto. Qed.

(** The name the service settles on is the one the state tables give. *)
Lemma outcome_event_named d d' (m : option Operation) est :
  data.(psc_topic) <> connections -> est = false -> operation_for data d m -> settled d d' m ->
  let event := outcome_event outcome est (op_type <$> m) in
  event_named data outcome d d' (default (topic_str data.(psc_topic) +:+ "." +:+ data.(psc_protocolState)) event)
    (bool_decide (is_Some event)).
Proof.
  intros Ht -> Hm Hs. cbv zeta. unfold event_named. rewrite decide_False by done. exists m. split_and!; [done..|].
  unfold outcome_event. destruct (po_event outcome) as [e|]; [|done].
  case_decide as Hd.
  - destruct Hd as [-> ->]. by rewrite !bool_decide_eq_true_2.
  - assert (bool_decide (Some e = Some "credential.issued") && bool_decide (op_type <$> m = Some CREDENTIAL_ACCEPT) = false) as ->.
    { apply andb_false_iff. destruct (decide (e = "credential.issued")) as [->|]; [right|left]; apply bool_decide_eq_false;
        [intros Hx; by apply Hd|congruence]. }
    done.
Qed.

(** The last notification, when the records are settled. *)
Lemma dispatch_adds event id w w' :
  dispatch Tx t event id w = (w', inr tt) ->
  w'.(working) = add_job (WebhookDispatch t event id (date_of w.(clock))) w.(working).
Proof. intros E. apply dispatch_inr in E as (w1 & Hv & ->). specialize (Hv Tx). simpl in *. by rewrite Hv. Qed.

(** On [connections] the only event the tables name is for an active connection. *)
Lemma connections_event st o :
  resolveProtocolOutcome connections st = Some o ->
  po_event o = None \/ (po_event o = Some "connection.established" /\ po_connectionState o = Some (Known ACTIVE)).
Proof.
  simpl. unfold resolveConnectionsOutcome. destruct (js_index _ _) as [[mapped|m]|]; intros H.
  - repeat (case_decide; try (injection H as <-; simpl; subst; by auto)).
    all: injection H as <-; simpl; by auto.
  - injection H as <-. by left.
  - done.
Qed.

Lemma finish d w1 w2 w' notice side (tr : option ExchangeTransition) oo ro r :
  resolveProtocolOutcome data.(psc_topic) data.(psc_protocolState) = Some outcome ->
  records_same d w1.(working) -> ((exists id, exchange_moved d w1.(working) id) <-> is_Some tr) ->
  (data.(psc_topic) = connections -> tr = None) ->
  w2.(working).(db_jobs) = d.(db_jobs) ++ notice ++ side ->
  w2.(working).(db_exchanges) = w1.(working).(db_exchanges) ->
  request_notice d w1.(working) (date_of w2.(clock)) notice -> Forall (side_job t d w2.(working)) side ->
  (if decide (data.(psc_topic) = connections) then
    w2.(working).(db_credentials) = d.(db_credentials) /\
    (if oo.(oo_transitioned) then exists id, operation_moved d w2.(working) id
     else w2.(working).(db_operations) = d.(db_operations)) /\
    if ro.(ao_transitioned) then
      (exists id action, connection_changed d w2.(working) action id) /\
      (ro.(ao_established) = true <-> established d w2.(working)) /\
      (outcome.(po_connectionState) = Some (Known ACTIVE) -> ro.(ao_established) = true)
    else w2.(working).(db_connections) = d.(db_connections)
  else
    w2.(working).(db_connections) = d.(db_connections) /\ ro.(ao_established) = false /\
    if oo.(oo_transitioned) || ro.(ao_transitioned) then
      exists m, operation_for data d m /\ settled d w2.(working) m /\ oo.(oo_operationType) = op_type <$> m
    else w2 = w1) ->
  (let matched := ro.(ao_matched) || oo.(oo_matched) in
   let transitioned := ro.(ao_transitioned) || oo.(oo_transitioned) in
   if bool_decide (data.(psc_topic) = connections) && negb ro.(ao_transitioned) then
     mret (mkProcessResult matched transitioned None)
   else if negb transitioned then
     mret (mkProcessResult (matched || bool_decide (is_Some tr)) (bool_decide (is_Some tr)) None)
   else
     let event := outcome_event outcome ro.(ao_established) oo.(oo_operationType) in
     _ ← dispatch Tx t (default (topic_str data.(psc_topic) +:+ "." +:+ data.(psc_protocolState)) event) data.(psc_externalId);
     mret (mkProcessResult matched transitioned event)) w2 = (w', inr r) ->
  let d' := w'.(working) in let now := date_of w2.(clock) in
  (r.(pr_transitioned) = true <-> something_moved d d') /\
  exists notice side, request_notice d d' now notice /\ Forall (side_job t d d') side /\
    ((announced data.(psc_topic) d d' /\ exists event domain,
        event_named data outcome d d' event domain /\ r.(pr_event) = (if domain : bool then Some event else None) /\
        d'.(db_jobs) = d.(db_jobs) ++ notice ++ side ++ [WebhookDispatch t event data.(psc_externalId) now]) \/
     (~ announced data.(psc_topic) d d' /\ r.(pr_event) = None /\
        d'.(db_jobs) = d.(db_jobs) ++ notice ++ side)).
Proof.
  intros Hout Hsame Hex Htr Hj Hx Hn Hside Hrest E. cbv zeta in *.
  assert (request_notice d (working w2) (date_of (clock w2)) notice) as Hn2.
  { unfold request_notice, exchange_moved in *. by rewrite Hx. }
  assert ((exists id, exchange_moved d (working w2) id) <-> is_Some tr) as Hex2.
  { unfold exchange_moved in *. by rewrite Hx. }
  destruct (decide (psc_topic data = connections)) as [Ht|Ht].
  - destruct Hrest as (Hc & Ho & Hn'). rewrite (bool_decide_eq_true_2 _ Ht) in E. simpl in E.
    specialize (Htr Ht). subst tr.
    destruct (ao_transitioned ro); simpl in E.
    + destruct Hn' as ([id [act Hch]] & Hest & Hact). run_inv E. injection E as -> <-. destruct a.
      apply dispatch_adds in E0. rewrite E0.
      assert (announced (psc_topic data) d (working w2)) as Ha.
      { exists id. rewrite decide_True by done. by exists act. }
      simpl. split; [split; [intros _; by apply announced_moved in Ha|done]|].
      exists notice, side. split; [exact Hn2|]. split; [exact Hside|]. left. split; [exact Ha|].
      rewrite Hj, <-!app_assoc.
      destruct (ao_established ro) eqn:Ee.
      * exists "connection.established", true. split; [|done]. unfold event_named. rewrite decide_True by done. left. split; [|done]. by apply Hest.
      * eexists _, false. rewrite Ht in Hout. apply connections_event in Hout.
        destruct Hout as [Hev|[_ Hev]]; [|by apply Hact in Hev]. unfold outcome_event. rewrite Hev. simpl.
        split; [|done]. unfold event_named. rewrite decide_True by done. right. split; [|done]. intros He. by apply Hest in He.
    + injection E as <- <-. simpl.
      assert (~ announced (psc_topic data) d (working w2)) as Ha by (by apply not_announced).
      split; [|exists notice, side; split; [exact Hn2|]; split; [exact Hside|]; by right].
      destruct (oo_transitioned oo).
      * destruct Ho as [id Ho]. split; [|done]. intros _. exists id. by left.
      * rewrite nothing_else_moved by done. rewrite Hex2. split; [done|by intros [? ?]].
  - destruct Hrest as (Hc & He & Hm). rewrite (bool_decide_eq_false_2 _ Ht) in E. cbn [andb] in E.
    rewrite orb_comm in E. destruct (oo_transitioned oo || ao_transitioned ro); simpl in E.
    + destruct Hm as (m & Hm & Hs & Hty). run_inv E. injection E as -> <-. destruct a.
      apply dispatch_adds in E0. rewrite E0, Hty.
      pose proof (settled_moved _ _ _ Hm Hs) as Hmv.
      assert (announced (psc_topic data) d (working w2)) as Ha.
      { destruct Hmv as [id Hmv]. exists id. by case_decide. }
      simpl. split; [split; [intros _; by apply announced_moved in Ha|done]|].
      exists notice, side. split; [exact Hn2|]. split; [exact Hside|]. left. split; [exact Ha|].
      pose proof (outcome_event_named d (working w2) m (ao_established ro) Ht He Hm Hs) as Hname. cbv zeta in Hname.
      eexists _, _. split; [exact Hname|]. split; [by destruct (outcome_event outcome (ao_established ro) (op_type <$> m))|].
      by rewrite Hj, <-!app_assoc.
    + injection E as <- <-. subst w2. simpl. destruct Hsame as (So & Sc & Sn).
      split; [|exists notice, side; split; [exact Hn2|]; split; [exact Hside|]; right; split; [by apply not_announced|done]].
      rewrite bool_decide_eq_true, nothing_else_moved by done. by rewrite Hex2.
Qed.

(** The transaction, by what it did to the tables [d] it began with. *)
Lemma process_tx_spec correlation d w w' r :
  resolveProtocolOutcome data.(psc_topic) data.(psc_protocolState) = Some outcome ->
  w.(committed) = d -> w.(working) = d -> keyed d ->
  process_tx data outcome correlation w = (w', inr r) ->
  let d' := w'.(working) in let now := date_of w.(clock) in
  (r.(pr_transitioned) = true <-> something_moved d d') /\
  exists notice side, request_notice d d' now notice /\ Forall (side_job t d d') side /\
    ((announced data.(psc_topic) d d' /\ exists event domain,
        event_named data outcome d d' event domain /\ r.(pr_event) = (if domain : bool then Some event else None) /\
        d'.(db_jobs) = d.(db_jobs) ++ notice ++ side ++ [WebhookDispatch t event data.(psc_externalId) now]) \/
     (~ announced data.(psc_topic) d d' /\ r.(pr_event) = None /\
        d'.(db_jobs) = d.(db_jobs) ++ notice ++ side)).
Proof.
  intros Hout Hcm Hwk K E. cbv zeta. unfold process_tx in E.
  run_inv E. run_inv E. destruct a0. pose proof (opening_spec correlation d _ _ _ _ Hcm Hwk K E0 E1)
    as (HI & Hc & Hsame & Hck & Hex & Htr & notice & Hnj & Hn). clear E0 E1.
  run_inv E. destruct a0 as [oo ro].
  assert (clock w2 = clock w1) as Hck2.
  { assert (Quiet (applyOutcome data outcome)) as Q by (unfold applyOutcome; solve_quiet).
    destruct (Q w1) as (_ & _ & H). by rewrite E0 in H. }
  apply applyOutcome_spec in E0 as ((side & Hj & Hside) & Hc2 & Hx & Hrest); [|done|by rewrite Hc].
  rewrite Hc2, Hc in Hside. rewrite Hc in Hrest.
  rewrite <-Hck, <-Hck2 in Hn |- *.
  refine (finish d w1 w2 w' notice side _ _ _ _ Hout Hsame Hex Htr _ Hx Hn Hside Hrest E).
  by rewrite Hj, Hnj, <-app_assoc.
Qed.
End Delivery.

(** C5: every state change is announced, and nothing else is.  When a delivery returns:
    an outcome the state tables do not know leaves everything alone.  Otherwise it is
    reported as applied exactly if some record moved; what it queued is, in order, the
    notification of the exchange that reached request-received (if one did), jobs each
    about a record that moved (the audit entry of a credential or connection, the
    notification of a batch parent or offer that settled), and, exactly if the operation
    or credential (on [connections]: the connection) it speaks for moved, the webhook
    notification of the delivery.  That one names the event of the state tables for the
    delivery's record, with the two exceptions the service makes (a completed handshake;
    a holder's acceptance), and the domain events, and only they, are emitted in the
    process under the same name.  So a delivery that moves nothing queues nothing. *)
Theorem process_notifies data correlation w w' s :
  keyed w.(committed) ->
  process data correlation w = (w', inr s) ->
  let d := w.(committed) in let d' := w'.(committed) in let now := date_of w.(clock) in
  let t := data.(psc_tenantId) in
  match resolveProtocolOutcome data.(psc_topic) data.(psc_protocolState) with
  | None => s = ignored /\ w' = w
  | Some outcome =>
      (s = applied <-> something_moved d d') /\
      exists notice side, request_notice data d d' now notice /\ Forall (side_job t d d') side /\
        ((announced data.(psc_topic) d d' /\ exists event domain,
            event_named data outcome d d' event domain /\
            d'.(db_jobs) = d.(db_jobs) ++ notice ++ side ++ [WebhookDispatch t event data.(psc_externalId) now] /\
            w'.(emitted) = w.(emitted) ++ (if domain : bool then [(event, t, data.(psc_externalId))] else [])) \/
         (~ announced data.(psc_topic) d d' /\
            d'.(db_jobs) = d.(db_jobs) ++ notice ++ side /\ w'.(emitted) = w.(emitted)))
  end.
Proof.
  intros K. unfold process. destruct (resolveProtocolOutcome _ _) as [outcome|] eqn:Hout.
  2:{ intros E. by injection E as <- <-. }
  intros E. cbv zeta. run_inv E. run_inv E. injection E as -> <-. unfold transaction in E0.
  set (w_in := set_dbs (committed w) (committed w) w) in *.
  pose proof (quiet_process_tx data outcome correlation w_in) as (Hem & _).
  destruct (process_tx data outcome correlation w_in) as [w2 [e|r]] eqn:Etx; [done|].
  injection E0 as <- <-. simpl in Hem.
  apply (process_tx_spec data outcome correlation (committed w)) in Etx as (Hs & notice & side & Hn & Hside & Hcase);
    [|done..]. change (clock w_in) with (clock w) in *.
  assert (committed w' = working w2 /\ emitted w' = emitted w2 ++ match pr_event r with
         | Some e => [(e, psc_tenantId data, psc_externalId data)] | None => [] end) as [-> ->].
  { destruct (pr_event r); injection E1 as <-; simpl; by rewrite ?app_nil_r. }
  rewrite Hem. split.
  { rewrite <-Hs. destruct (pr_transitioned r), (pr_matched r); done. }
  exists notice, side. split; [exact Hn|]. split; [exact Hside|].
  destruct Hcase as [(Ha & event & domain & Hname & -> & Hj)|(Ha & -> & Hj)]; [left|right].
  - split; [exact Ha|]. exists event, domain. split; [exact Hname|]. split; [exact Hj|]. by destruct domain.
  - split; [exact Ha|]. split; [exact Hj|]. by rewrite app_nil_r.
Qed.

(** The sample delivery completes the offer and issues its credential. *)
Lemma process_notifies_witness :
  let w' := (process sample_delivery None (world_of sample_db 7000)).1 in
  (exists notice side, w'.(committed).(db_jobs) =
     [] ++ notice ++ side ++ [WebhookDispatch "t1" "credential.issued" "ex1" 7]) /\
  w'.(emitted) = [("credential.issued", "t1", "ex1")].
Proof.
  destruct (process_notifies sample_delivery None (world_of sample_db 7000)
    (process sample_delivery None (world_of sample_db 7000)).1 applied sample_db_keyed)
    as (_ & notice & side & _ & _ & [(_ & event & domain & Hname & Hj & He)|(Hn & _)]).
  - vm_compute. reflexivity.
  - assert (event = "credential.issued" /\ domain = true) as [-> ->].
    { destruct Hname as (m & Hm & _ & Hdom & Hev). split; [|exact Hdom]. rewrite Hev.
      destruct (decide _) as [[_ Hd]|]; [|reflexivity]. exfalso. destruct m as [o|]; [|discriminate Hd].
      destruct Hm as ((Ht & Hx & _) & Ho & _). injection Hd as Hd.
      simpl in Ho. apply lookup_insert_Some in Ho as [[_ Ho]|[_ Ho]].
      - rewrite <-Ho in Hd. discriminate Hd.
      - apply lookup_singleton_Some in Ho as [_ Ho]. rewrite <-Ho in Hd. discriminate Hd. }
    split; [|exact He]. exists notice, side. exact Hj.
  - exfalso. apply Hn. exists "o1". rewrite decide_False by discriminate. left.
    eexists _, _. split; [reflexivity|]. split; [vm_compute; reflexivity|]. discriminate.
Defined.
