(* ===== verification/RoleScopeCorrectness.v ===== *)
(** * Role scopes: the hierarchy, and the sessions a change ends

    However overrides are written and dropped, no role of a tenant holds a scope that
    the role above it lacks, and the owner keeps what it has; a write grants only what
    its actor holds; and when it narrows a role no record of a user with that role is
    left when it returns. *)

From Stdlib Require Import Ascii ZArith Lia.
From stdpp Require Import base decidable strings sets gmap list list_relations sorting.
From S2P Require Import Prelude Js OperationTtl JsText Entities StateMapping Db TenantRepository OidcSessions.
From S2P Require Import Auth TenantUserService OAuthClient RoleScope Lifecycle ProtocolNotification ServiceLogic.

Local Open Scope Z_scope.

(** The scopes a role has in a tenant, and those it has in effect. *)
Definition role_scopes (t : string) (d : DB) (role : TenantUserRole) : list string :=
  (mapping_entry t d role).(me_scopes).
Definition effective (t : string) (d : DB) (role : TenantUserRole) : list string :=
  expandEffectiveScopes (role_scopes t d role).

(** No role holds a scope in effect that the role above it lacks. *)
Definition hierarchy_ok (t : string) (d : DB) : Prop :=
  effective t d ADMIN ⊆ effective t d OWNER /\ effective t d MEMBER ⊆ effective t d ADMIN /\
  effective t d READONLY ⊆ effective t d MEMBER.

(** ** The checks *)

Lemma sort_str_nil l : sort_str l = [] <-> l = [].
Proof.
  split; [|by intros ->]. intros E. apply Permutation_nil. rewrite <-E. apply merge_sort_Permutation.
Qed.

Lemma beyond_nil l l' : beyond l l' = [] <-> expandEffectiveScopes l ⊆ expandEffectiveScopes l'.
Proof.
  unfold beyond. rewrite sort_str_nil. split.
  - intros E s Hs. apply mem_str_spec. apply not_false_is_true. intros Hn.
    assert (s ∈ @nil string) as []%elem_of_nil. rewrite <-E. apply list_elem_of_filter. by rewrite elem_of_remove_dups.
  - intros H. destruct (filter _ _) as [|s r] eqn:E; [done|].
    assert (s ∈ s :: r) as Hs by left. rewrite <-E in Hs. apply list_elem_of_filter in Hs as [Hn Hs].
    rewrite elem_of_remove_dups in Hs. apply H in Hs. rewrite <-mem_str_spec in Hs. congruence.
Qed.

Lemma scopes_in_mapping t d role : scopes_in (map (mapping_entry t d) HIERARCHY) role = role_scopes t d role.
Proof.
  assert (forall r, (mapping_entry t d r).(me_name) = r) as Hn.
  { intros r. unfold mapping_entry. by destruct (override t r d). }
  unfold scopes_in, entry_of, role_scopes. simpl.
  repeat (rewrite filter_cons, Hn; case_decide; [by subst|]). by destruct role.
Qed.

Lemma entry_of_mapping t d role : entry_of role (map (mapping_entry t d) HIERARCHY) = Some (mapping_entry t d role).
Proof.
  assert (forall r, (mapping_entry t d r).(me_name) = r) as Hn.
  { intros r. unfold mapping_entry. by destruct (override t r d). }
  unfold entry_of. simpl. repeat (rewrite filter_cons, Hn; case_decide; [by subst|]). by destruct role.
Qed.

Lemma check_hierarchy_cons mapping parent child rest :
  check_hierarchy mapping parent (child :: rest) = inr tt <->
  expandEffectiveScopes (scopes_in mapping child) ⊆ expandEffectiveScopes (scopes_in mapping parent) /\
  check_hierarchy mapping child rest = inr tt.
Proof. simpl. rewrite <-beyond_nil. destruct (beyond _ _); intuition congruence. Qed.

(** The check on the mapping read is the invariant. *)
Lemma assertHierarchy_spec t d : assertHierarchy (map (mapping_entry t d) HIERARCHY) = inr tt <-> hierarchy_ok t d.
Proof. unfold assertHierarchy, hierarchy_ok. rewrite !check_hierarchy_cons, !scopes_in_mapping. tauto. Qed.

(** What a login resolves for a role is its entry of the mapping. *)
Lemma findScopesForRole_mapping role t m w :
  t <> "" -> (roleScopes_findScopesForRole role (Some t) m w).2 = inr (role_scopes t (view m w) role).
Proof.
  intros Ht. unfold roleScopes_findScopesForRole, role_scopes, mapping_entry. simpl.
  destruct t; [done|]. simpl. by destruct (override _ role (view m w)).
Qed.

(** ** One write *)

(** The mapping of all tenants and roles. *)
Definition same_mapping (d d' : DB) : Prop := forall t r, mapping_entry t d' r = mapping_entry t d r.

Lemma same_tables_mapping d d' :
  d'.(db_admin).(ad_roleScopes) = d.(db_admin).(ad_roleScopes) ->
  d'.(db_admin).(ad_overrides) = d.(db_admin).(ad_overrides) -> same_mapping d d'.
Proof. intros H1 H2 t r. unfold mapping_entry, override, default_scopes. by rewrite H1, H2. Qed.

Lemma same_mapping_ok d d' t : same_mapping d d' -> hierarchy_ok t d <-> hierarchy_ok t d'.
Proof. intros H. unfold hierarchy_ok, effective, role_scopes. by rewrite !H. Qed.

(** The write of one override: the role's scopes afterwards are those returned, and no
    other entry moves. *)
Definition sets_role (t : string) (role : TenantUserRole) (p : Prog (list string)) : Prop :=
  VPres Tx anything p /\
  forall w w1 scopes, p w = (w1, inr scopes) ->
    role_scopes t w1.(working) role = scopes /\
    (forall t' r, (t', r) <> (t, role) -> mapping_entry t' w1.(working) r = mapping_entry t' w.(working) r).

Lemma role_str_inj r r' : role_str r = role_str r' -> r = r'.
Proof. by destruct r, r'. Qed.

Lemma mapping_override_other t role t' r o d :
  (t', r) <> (t, role) ->
  (forall k, k <> (t, role_str role) -> o !! k = d.(db_admin).(ad_overrides) !! k) ->
  mapping_entry t' (set_overrides o d) r = mapping_entry t' d r.
Proof.
  intros Hn Ho. unfold mapping_entry, override, default_scopes. simpl. rewrite Ho; [done|].
  intros [= -> Hr%role_str_inj]. by subst.
Qed.

Lemma upsert_sets t role scopes :
  sets_role t role (_ ← roleScopes_upsert t role scopes Tx; mret scopes).
Proof.
  split.
  - unfold roleScopes_upsert. apply vpres_bind; [apply _| |intros; apply _]. apply vpres_bind; [apply _..|].
    intros []; [by apply vpres_modify|apply _].
  - intros w w1 s E. unfold roleScopes_upsert in E. run_inv E. injection E as <- <-.
    apply bind_inr in E0 as (? & b & Eb & E0). injection Eb as <- <-.
    destruct (bool_decide _); [|done]. injection E0 as <- _. simpl. split.
    + unfold role_scopes, mapping_entry, override. simpl. by rewrite lookup_insert_eq.
    + intros t' r Hn. apply (mapping_override_other t role); [done|]. intros k Hk. by apply lookup_insert_ne.
Qed.

Lemma delete_sets t role :
  sets_role t role (_ ← roleScopes_delete t role Tx; read Tx (default_scopes role)).
Proof.
  split.
  - unfold roleScopes_delete. apply vpres_bind; [apply _| |intros; apply _].
    apply vpres_bind; [apply _..|]. intros b. apply vpres_bind; [apply _|by apply vpres_modify|intros; apply _].
  - intros w w1 s E. unfold roleScopes_delete in E. run_inv E. injection E as <- <-.
    apply bind_inr in E0 as (? & b & Eb & E0). injection Eb as <- <-.
    apply bind_inr in E0 as (? & [] & Em & E0). injection Em as <-. injection E0 as <- _. simpl. split.
    + unfold role_scopes, mapping_entry, override. simpl. by rewrite lookup_delete_eq.
    + intros t' r Hn. apply (mapping_override_other t role); [done|]. intros k Hk. by apply lookup_delete_ne.
Qed.

#[local] Instance vpres_delete_where m P : VPres m anything (delete_where m P).
Proof.
  unfold delete_where. apply vpres_bind; [apply _..|]. intros gone.
  apply vpres_bind; [apply _|by apply vpres_modify|intros; apply _].
Qed.

Lemma delete_where_run m P w w1 r :
  delete_where m P w = (w1, r) ->
  r = inr (select (P (view m w)) (oidc (view m w))) /\ other_view m w1 = other_view m w /\
  view m w1 = set_oidc (filter (fun kv => P (view m w) kv.2 = false) (oidc (view m w))) (view m w).
Proof. unfold delete_where. intros E. by destruct m; injection E as <- <-. Qed.

#[local] Instance write_tx_tx request source action p :
  VPres Tx anything p -> VPres Tx anything (write_tx request source action p).
Proof.
  intros Hp. unfold write_tx, getTenantRoleMapping, revokeAffectedSessions, sessions_deleteAllForTenantRole.
  repeat (apply vpres_bind; [apply _| |]; intros); try apply _; case_match; solve_vpres.
  all: by apply vpres_modify.
Qed.

Lemma mapping_run t m w w' l :
  getTenantRoleMapping t m w = (w', inr l) -> w' = w /\ l = map (mapping_entry t (view m w)) HIERARCHY.
Proof. unfold getTenantRoleMapping, read. intros [-> E]%pair_equal_spec. split; [done|congruence]. Qed.

(** A transaction that commits left a mapping that passed the checks. *)
Lemma write_tx_run request source action p w w1 scopes n narrowed :
  sets_role request.(rw_tenantId) request.(rw_role) p ->
  write_tx request source action p w = (w1, inr (scopes, n, narrowed)) ->
  let t := request.(rw_tenantId) in let role := request.(rw_role) in
  role_scopes t w1.(working) role = scopes /\
  (forall t' r, (t', r) <> (t, role) -> mapping_entry t' w1.(working) r = mapping_entry t' w.(working) r) /\
  hierarchy_ok t w1.(working) /\
  assertNoEscalation scopes request.(rw_actorScopes) request.(rw_actorRoles) = inr tt /\
  narrowed = (0 <? length (removedScopes (role_scopes t w.(working) role) scopes))%nat.
Proof.
  intros [_ Hp] E. unfold write_tx in E. cbv zeta in E.
  apply bind_inr in E as (? & before & Eb & E). apply mapping_run in Eb as [-> ->].
  rewrite entry_of_mapping in E.
  apply bind_inr in E as (wp & s & Es & E). destruct (Hp _ _ _ Es) as [Hs Ho].
  apply bind_inr in E as (? & after & Ea & E). apply mapping_run in Ea as [-> ->].
  apply bind_inr in E as (? & [] & Ee & E). injection Ee as <- Hesc.
  apply bind_inr in E as (? & [] & Eh & E). injection Eh as <- Hh. apply assertHierarchy_spec in Hh.
  apply bind_inr in E as (w2 & k & Er & E). apply bind_inr in E as (w3 & [] & Ec & E). injection E as <- <- <- <-.
  assert (same_mapping wp.(working) w2.(working)) as H2.
  { destruct (0 <? _)%nat; [|by injection Er as <- _]. unfold revokeAffectedSessions in Er. run_inv Er.
    injection Er as <- _. apply delete_where_run in E as (_ & _ & Ev). simpl in Ev. rewrite Ev.
    by apply same_tables_mapping. }
  assert (same_mapping wp.(working) w3.(working)) as H3.
  { intros t r. rewrite <-H2. destruct (_ || _); injection Ec as <-; done. }
  split_and!; [|intros; by rewrite H3, Ho|by apply (same_mapping_ok _ _ _ H3)|done|done].
  unfold role_scopes in *. by rewrite H3.
Qed.

(** ** The claims *)

(** What writes keep: the hierarchy of every tenant, and the owners' scopes. *)
Definition keeps_hierarchy (d d' : DB) : Prop :=
  (forall t, hierarchy_ok t d -> hierarchy_ok t d') /\ (forall t, role_scopes t d' OWNER = role_scopes t d OWNER).

#[export] Instance keeps_hierarchy_preorder : PreOrder keeps_hierarchy.
Proof.
  unfold keeps_hierarchy. split; [done|]. intros d1 d2 d3 [H1 O1] [H2 O2]. split; [auto|].
  intros t. by rewrite O2.
Qed.

Lemma same_mapping_keeps d d' : same_mapping d d' -> keeps_hierarchy d d'.
Proof. intros H. split; intros t; [by apply (same_mapping_ok d d')|]. unfold role_scopes. by rewrite H. Qed.
#[export] Instance keeps_hierarchy_rows : RowsOnly keeps_hierarchy.
Proof. intros d jobs audit metrics. by apply same_mapping_keeps. Qed.

(** The request as the two operations make it. *)
Definition write_of (request : RoleScopeWriteRequest) (scopes : option (list string)) : Prog (list string) :=
  match scopes with
  | Some l => let s := sort_str (remove_dups l) in
              _ ← roleScopes_upsert request.(rw_tenantId) request.(rw_role) s Tx; mret s
  | None => _ ← roleScopes_delete request.(rw_tenantId) request.(rw_role) Tx;
            read Tx (default_scopes request.(rw_role))
  end.

Lemma write_of_sets request scopes : sets_role request.(rw_tenantId) request.(rw_role) (write_of request scopes).
Proof. destruct scopes; [apply upsert_sets|apply delete_sets]. Qed.

(** A write is refused at once, or is one transaction on a role that is not the owner
    with the sweep that follows. *)
Lemma role_write_cases others later request scopes w :
  (exists e, role_write others later request scopes w = (w, inl e)) \/
  (request.(rw_role) <> OWNER /\
   exists source action, role_write others later request scopes w =
     writeMapping others later request source action (write_of request scopes) w).
Proof.
  destruct scopes as [l|]; simpl.
  - unfold replaceRoleScopes, mbind at 1, prog_bind at 1. unfold of_sum, assertScopesAssignable, assertRoleMutable.
    case_bool_decide as Hr; [left; eauto|].
    destruct (filter _ _); [|left; eauto]. destruct (mem_str _ _); [left; eauto|right]. split; [done|].
    by exists FromOverride, "update".
  - unfold resetRoleScopes, mbind at 1, prog_bind at 1. unfold of_sum, assertRoleMutable.
    case_bool_decide as Hr; [left; eauto|right]. split; [done|]. by exists FromDefault, "delete".
Qed.

(** The transaction alone. *)
Lemma write_keeps_hierarchy request source action p w w1 r :
  request.(rw_role) <> OWNER -> sets_role request.(rw_tenantId) request.(rw_role) p ->
  transaction (write_tx request source action p) w = (w1, r) -> keeps_hierarchy w.(committed) w1.(committed).
Proof.
  intros Hr Hp E. pose proof (write_tx_tx request source action p (proj1 Hp)).
  apply transaction_run in E; [|done]. destruct r as [e|[[scopes n] narrowed]]; [by rewrite E|].
  destruct E as (w2 & E & ->). apply write_tx_run in E as (Hs & Ho & Hh & _); [|done]. simpl in Ho.
  split; intros t.
  - destruct (decide (t = rw_tenantId request)) as [->|Hn]; [done|]. intros Hok.
    unfold hierarchy_ok, effective, role_scopes in *. by rewrite !Ho by congruence.
  - unfold role_scopes. rewrite Ho; [done|]. congruence.
Qed.

Lemma sweep_keeps_mapping t role w w1 r :
  revokeAffectedSessions t role NoTx w = (w1, r) -> same_mapping w.(committed) w1.(committed).
Proof.
  unfold revokeAffectedSessions, sessions_deleteAllForTenantRole. intros E. unfold mbind, prog_bind in E.
  destruct (delete_where _ _ w) as [w2 [e|a]] eqn:Ed; injection E as <- <-;
    apply delete_where_run in Ed as (_ & _ & Ev); simpl in Ev; rewrite Ev; by apply same_tables_mapping.
Qed.

Lemma writeMapping_keeps others later request source action p w :
  Pres keeps_hierarchy others -> Pres keeps_hierarchy later -> request.(rw_role) <> OWNER ->
  sets_role request.(rw_tenantId) request.(rw_role) p ->
  keeps_hierarchy w.(committed) (writeMapping others later request source action p w).1.(committed).
Proof.
  intros Ho Hl Hr Hp. unfold writeMapping, mbind at 1, prog_bind at 1.
  destruct (transaction _ w) as [w1 r] eqn:Et. pose proof (write_keeps_hierarchy _ _ _ _ _ _ _ Hr Hp Et) as H1.
  destruct r as [e|[[scopes n] narrowed]]; [done|]. destruct (negb narrowed); [done|].
  unfold mbind at 1, prog_bind at 1. pose proof (Ho w1) as [H2 _].
  destruct (others w1) as [w2 [e|[]]]; [by etrans|]. simpl in H2.
  unfold mbind at 1, prog_bind at 1. destruct (revokeAffectedSessions _ _ _ w2) as [w3 r] eqn:Es.
  apply sweep_keeps_mapping, same_mapping_keeps in Es. assert (keeps_hierarchy w.(committed) w3.(committed)) as H3.
  { etrans; [exact H1|]. by etrans. }
  destruct r as [e|late]; [done|]. unfold mbind at 1, prog_bind at 1. pose proof (Hl w3) as [H4 _].
  destruct (later w3) as [w4 [e|[]]]; [by etrans|]. simpl in H4.
  assert (keeps_hierarchy w.(committed) w4.(committed)) as H5 by (by etrans).
  destruct (late =? 0)%nat; [done|]. simpl. etrans; [exact H5|]. by apply same_mapping_keeps.
Qed.

(** C24: no role of any tenant comes to hold a scope that the role above it lacks, and no
    owner's scopes change, by replacing or resetting the scopes of a role, on every
    path and whatever other such requests do meanwhile. *)
Theorem role_hierarchy_kept others later request scopes w t :
  Pres keeps_hierarchy others -> Pres keeps_hierarchy later -> hierarchy_ok t w.(committed) ->
  let d' := (role_write others later request scopes w).1.(committed) in
  hierarchy_ok t d' /\ role_scopes t d' OWNER = role_scopes t w.(committed) OWNER.
Proof.
  intros Ho Hl Hok d'. assert (keeps_hierarchy w.(committed) d') as [H1 H2]; [|by split; [apply H1|]].
  unfold d'. destruct (role_write_cases others later request scopes w) as [[e ->]|(Hr & s & a & ->)]; [done|].
  apply writeMapping_keeps; [done..|apply write_of_sets].
Qed.

(** ** Sessions *)

(** A user of the tenant with the role, and what the user's logins left: the records of
    the kinds that are tied to an account, and whatever hangs off a grant of it. *)
Definition holder (t : string) (role : TenantUserRole) (d : DB) (a : string) : Prop :=
  exists i u, users d !! i = Some u /\ u.(tu_id) = a /\ u.(tu_tenantId) = t /\ has_role role u = true.

Definition login_record (t : string) (role : TenantUserRole) (d : DB) (x : OidcModel) : Prop :=
  (x.(om_modelName) ∈ ["Session"; "Grant"; "AccessToken"; "RefreshToken"; "AuthorizationCode"; "DeviceCode";
                       "BackchannelAuthenticationRequest"] /\
   exists a, x.(om_accountId) = Some a /\ holder t role d a) \/
  (exists g j y a, x.(om_grantId) = Some g /\ oidc d !! j = Some y /\ y.(om_modelName) = "Grant" /\
     y.(om_oidcId) = g /\ y.(om_accountId) = Some a /\ holder t role d a).

Lemma accounts_of_spec t role d a : accounts_of t role d a = true <-> holder t role d a.
Proof.
  unfold accounts_of, holder. rewrite existsb_exists. split.
  - intros (u & Hu & H). apply list_elem_of_In, elem_of_rows in Hu as [i Hi].
    rewrite !andb_true_iff, !String.eqb_eq in H. destruct H as [[H1 H2] H3]. by exists i, u.
  - intros (i & u & Hi & H1 & H2 & H3). exists u. split; [apply list_elem_of_In, elem_of_rows; eauto|].
    by rewrite !andb_true_iff, !String.eqb_eq.
Qed.

Lemma bound_to_spec t role d x : bound_to (accounts_of t role d) d x = true <-> login_record t role d x.
Proof.
  unfold bound_to, login_record, bound_model, under_grant.
  rewrite orb_true_iff, andb_true_iff, mem_str_spec.
  assert (match om_accountId x with Some a => accounts_of t role d a | None => false end = true <->
          exists a, om_accountId x = Some a /\ holder t role d a) as ->.
  { destruct (om_accountId x) as [a|]; [rewrite accounts_of_spec|]; naive_solver. }
  assert (forall g, existsb (fun y => is_model "Grant" y && String.eqb y.(om_oidcId) g &&
      match y.(om_accountId) with Some a => accounts_of t role d a | None => false end) (rows (oidc d)) = true <->
      exists j y a, oidc d !! j = Some y /\ y.(om_modelName) = "Grant" /\ y.(om_oidcId) = g /\
        y.(om_accountId) = Some a /\ holder t role d a) as Hg.
  { intros g. rewrite existsb_exists. split.
    - intros (y & Hy & H). apply list_elem_of_In, elem_of_rows in Hy as [j Hj]. unfold is_model in H.
      rewrite !andb_true_iff, !String.eqb_eq in H. destruct H as [[H1 H2] H3].
      destruct (om_accountId y) as [a|] eqn:Ea; [|done]. apply accounts_of_spec in H3. by exists j, y, a.
    - intros (j & y & a & Hj & H1 & H2 & H3 & H4). exists y. split; [apply list_elem_of_In, elem_of_rows; eauto|].
      unfold is_model. rewrite !andb_true_iff, !String.eqb_eq, H3. by rewrite accounts_of_spec. }
  destruct (om_grantId x) as [g|]; [rewrite Hg|]; naive_solver.
Qed.

(** The sweep removes exactly those records. *)
Lemma sweep_run t role w w1 r :
  revokeAffectedSessions t role NoTx w = (w1, r) ->
  forall i x, oidc w1.(committed) !! i = Some x <-> oidc w.(committed) !! i = Some x /\ ~ login_record t role w.(committed) x.
Proof.
  unfold revokeAffectedSessions, sessions_deleteAllForTenantRole. intros E i x.
  unfold mbind, prog_bind in E. destruct (delete_where _ _ w) as [w2 [e|a]] eqn:Ed; injection E as <- <-;
    apply delete_where_run in Ed as (_ & _ & Ev); simpl in Ev; rewrite Ev;
    (etrans; [apply map_lookup_filter_Some|]); simpl; by rewrite <-bound_to_spec, not_true_iff_false.
Qed.

(** C28: a change to a role grants no scope its actor lacks, unless the actor is a
    platform administrator, and when it takes away a scope the role had in effect, it
    ends what holders of the role had: after the new mapping was committed, and whatever
    logins saved up to then, one last sweep removes exactly the sessions, grants, tokens
    and codes of the users holding the role in the tenant, and the records under their
    grants.  What a login that had read the old mapping saves after that sweep, before
    the answer or later, is out of its reach. *)
Theorem role_change_takes_effect others later request scopes w w' granted n :
  role_write others later request scopes w = (w', inr (granted, n)) ->
  let t := request.(rw_tenantId) in let role := request.(rw_role) in
  (role_isPlatformAdmin request.(rw_actorRoles) = false ->
   forall s, s ∈ granted -> s ∈ expandEffectiveScopes request.(rw_actorScopes)) /\
  (forall s, s ∈ effective t w.(committed) role -> s ∉ expandEffectiveScopes granted ->
   exists w1 w2 w3 w4,
     role_scopes t w1.(committed) role = granted /\
     others w1 = (w2, inr tt) /\
     (forall i x, oidc w3.(committed) !! i = Some x <->
        oidc w2.(committed) !! i = Some x /\ ~ login_record t role w2.(committed) x) /\
     later w3 = (w4, inr tt) /\
     oidc w'.(committed) = oidc w4.(committed)).
Proof.
  intros E t role. destruct (role_write_cases others later request scopes w) as [[e E']|(Hr & src & act & E')];
    rewrite E' in E; [done|]. clear E'. pose proof (write_of_sets request scopes) as Hp.
  unfold writeMapping in E. apply bind_inr in E as (w1 & [[s k] narrowed] & Et & E).
  pose proof (write_tx_tx request src act _ (proj1 Hp)). apply transaction_run in Et as (wt & Et & Ec); [|done].
  apply write_tx_run in Et as (Hs & _ & _ & Hesc & Hn); [|done]. simpl in Hn.
  assert (granted = s) as ->.
  { destruct (negb narrowed); [by injection E|]. run_inv E. run_inv E. run_inv E.
    destruct (_ =? 0)%nat; [by injection E|]. run_inv E. by injection E. }
  split.
  - intros Ha x Hx. unfold assertNoEscalation in Hesc. rewrite Ha in Hesc.
    destruct (filter _ s) as [|y l] eqn:Ef; [|done]. apply mem_str_spec, not_false_is_true. intros Hm.
    assert (x ∈ @nil string) as []%elem_of_nil. rewrite <-Ef. by apply list_elem_of_filter.
  - intros x Hx Hx'.
    assert (narrowed = true) as ->.
    { rewrite Hn. apply Nat.ltb_lt, Nat.neq_0_lt_0. intros Hl%length_zero_iff_nil%beyond_nil. by apply Hx', Hl. }
    simpl in E. apply bind_inr in E as (w2 & [] & Eo & E). apply bind_inr in E as (w3 & late & Es & E).
    apply bind_inr in E as (w4 & [] & El & E). exists w1, w2, w3, w4.
    split; [by rewrite Ec|]. split; [done|]. split; [by apply (sweep_run _ _ _ _ _ Es)|]. split; [done|].
    destruct (late =? 0)%nat; [by injection E as <- _|].
    apply bind_inr in E as (w5 & [] & Ea & E). injection Ea as <-. by injection E as <- _.
Qed.

(** ** The seeded defaults, and a member who is logged in *)

(** The rows migration 000013 inserts. *)
Definition seeded_role_scopes : gmap string (list string) :=
  {[ "owner" := ["tenants:admin"]; "admin" := LEVEL2_SCOPES ++ LEVEL3_SCOPES;
     "member" := ["credentials:offer"; "credentials:verify"] ]}.

Definition seeded_db : DB :=
  set_admin (mkAdmin {[ "m" := mkTenantUser "m" "t" (Some "m") "m@x" None MEMBER TU_ACTIVE false 0 0 ]} ∅
               seeded_role_scopes ∅
               {[ "s" := mkOidcModel "s" "Session" "sid" (JObj []) None None None (Some "m") None None 0;
                  "x" := mkOidcModel "x" "Interaction" "xid" (JObj []) None None None None None None 0 ]} ∅ ∅)
    (set_tenants {[ "t" := sample_tenant "t" None ]} empty_db).

Definition narrow_member : RoleScopeWriteRequest := mkRoleWrite "t" MEMBER ["tenants:admin"] [].

Lemma seeded_hierarchy : hierarchy_ok "t" seeded_db.
Proof. apply assertHierarchy_spec. vm_compute. reflexivity. Qed.

(** A member may lose a scope; [admin] may not lose one that members keep. *)
Lemma role_hierarchy_kept_witness :
  let narrow_admin := mkRoleWrite "t" ADMIN ["tenants:admin"] [] in
  (role_write (mret tt) (mret tt) narrow_admin (Some ["credentials:verify"]) (world_of seeded_db 0)).2 =
    inl (BadRequestException "Role member would hold scope(s) that admin lacks: credentials:offer") /\
  hierarchy_ok "t" (role_write (mret tt) (mret tt) narrow_member (Some ["credentials:verify"]) (world_of seeded_db 0)).1.(committed).
Proof.
  intros narrow_admin. split; [vm_compute; reflexivity|].
  apply (role_hierarchy_kept (mret tt) (mret tt) narrow_member (Some ["credentials:verify"]) (world_of seeded_db 0) "t").
  - apply _.
  - apply _.
  - exact seeded_hierarchy.
Defined.

(** A login of the member that read the old mapping saves its grant just before the last
    sweep, another one just after it. *)
Definition save_grant (id : string) : Prog unit :=
  write_oidc id (mkOidcModel id "Grant" id (JObj []) None None None (Some "m") None None 0).

(** The member's session and the first grant end, the anonymous interaction and the second
    grant stay. *)
Lemma role_change_takes_effect_witness :
  let r := role_write (save_grant "g1") (save_grant "g2") narrow_member (Some ["credentials:verify"]) (world_of seeded_db 0) in
  r.2 = inr (["credentials:verify"], 2%nat) /\ is_Some (oidc r.1.(committed) !! "x") /\
  oidc r.1.(committed) !! "g1" = None /\ is_Some (oidc r.1.(committed) !! "g2") /\
  exists w2 w3, forall i x, oidc w3.(committed) !! i = Some x <->
    oidc w2.(committed) !! i = Some x /\ ~ login_record "t" MEMBER w2.(committed) x.
Proof.
  intros r. split; [vm_compute; reflexivity|]. split; [vm_compute; eauto|]. split; [vm_compute; reflexivity|].
  split; [vm_compute; eauto|].
  destruct (role_change_takes_effect (save_grant "g1") (save_grant "g2") narrow_member (Some ["credentials:verify"])
    (world_of seeded_db 0) r.1 ["credentials:verify"] 2%nat) as [_ H].
  - vm_compute. reflexivity.
  - destruct (H "credentials:offer") as (w1 & w2 & w3 & w4 & _ & _ & Hs & _);
      [apply (bool_decide_unpack _); vm_compute; exact I..|]. exists w2, w3. exact Hs.
Defined.
