(* ===== verification/OidcCorrectness.v ===== *)
(** * OIDC records: the session cap, logout and the adapter

    After [enforce] the account holds no more sessions than the limit, the new one is
    among them, those that went are the oldest and nothing that hangs off their grants
    is left.  Logging a user out leaves none of their records, and nobody else's is
    touched.  The adapter gives back what was stored until it expires. *)

From Stdlib Require Import Ascii ZArith Lia.
From stdpp Require Import base decidable strings sets gmap list list_relations sorting.
From S2P Require Import Prelude Js OperationTtl JsText Entities StateMapping Db TenantRepository OidcSessions.
From S2P Require Import Auth TenantUserService RoleScope Lifecycle ProtocolNotification ServiceLogic.

Local Open Scope Z_scope.

(** ** Deletions *)

Lemma delete_run m P w :
  delete_where m P w =
  (modify_view m (fun d => set_oidc (filter (fun kv => P d kv.2 = false) (oidc d)) d) w,
   inr (select (P (view m w)) (oidc (view m w)))).
Proof. by destruct m. Qed.

Lemma delete_lookup P d i r :
  oidc (set_oidc (filter (fun kv => P d kv.2 = false) (oidc d)) d) !! i = Some r <->
  oidc d !! i = Some r /\ P d r = false.
Proof.
  change (filter (fun kv => P d kv.2 = false) (oidc d) !! i = Some r <-> oidc d !! i = Some r /\ P d r = false).
  apply map_lookup_filter_Some.
Qed.

(** ** The table *)

(** [uq_oidc_model_name_id] and the primary key. *)
Record oidc_ok (d : DB) : Prop := {
  oo_keyed : table_keyed om_id (oidc d);
  oo_unique : forall i j r r', oidc d !! i = Some r -> oidc d !! j = Some r' ->
    r.(om_modelName) = r'.(om_modelName) -> r.(om_oidcId) = r'.(om_oidcId) -> i = j
}.

Lemma select_NoDup P (t : gmap string OidcModel) : table_keyed om_id t -> NoDup (select P t).
Proof. intros K. eapply NoDup_fmap_1, (select_ids_NoDup om_id), K. Qed.

(** ** What a session is, and the grants it names *)

(** An unexpired session of the account. *)
Definition live_session (a : string) (now : Z) (r : OidcModel) : Prop :=
  r.(om_modelName) = "Session" /\ r.(om_accountId) = Some a /\
  match r.(om_expiresAt) with Some e => now < e | None => True end.
#[export] Instance live_session_dec a now r : Decision (live_session a now r).
Proof. unfold live_session. destruct (om_expiresAt r); apply _. Defined.

Lemma active_session_spec a now r : active_session a now r = true <-> live_session a now r.
Proof.
  unfold active_session, live_session, is_model, of_account, SESSION_MODEL.
  rewrite !andb_true_iff, String.eqb_eq, bool_decide_eq_true. destruct (om_expiresAt r); rewrite ?Z.ltb_lt; tauto.
Qed.

(** An authorization in the payload, kept by client or in a list, is under the grant. *)
Inductive names_grant (payload : json) (g : string) : Prop :=
| named_by_client o clients k authorization :
    payload = JObj o -> assoc "authorizations" o = Some (JObj clients) -> (k, JObj authorization) ∈ clients ->
    assoc "grantId" authorization = Some (JStr g) -> names_grant payload g
| named_in_list o l authorization :
    payload = JObj o -> assoc "authorizations" o = Some (JArr l) -> JObj authorization ∈ l ->
    assoc "grantId" authorization = Some (JStr g) -> names_grant payload g.

Lemma elem_of_index_insert e n e' l : e ∈ (Encryption.insert_index n e' l).*2 <-> e = e' \/ e ∈ l.*2.
Proof.
  induction l as [|[m x] l IH]; simpl; [by rewrite elem_of_cons|].
  case_match; simpl; rewrite ?fmap_cons, !elem_of_cons; [done|]. simpl. rewrite IH. tauto.
Qed.

Lemma elem_of_object_entries e o : e ∈ Encryption.object_entries o <-> e ∈ o.
Proof.
  unfold Encryption.object_entries. rewrite elem_of_app. induction o as [|x o IH]; simpl; [rewrite elem_of_nil; tauto|].
  destruct (Encryption.index_key x.1); rewrite elem_of_cons.
  - rewrite elem_of_index_insert. tauto.
  - rewrite elem_of_cons. tauto.
Qed.

Lemma extractGrantIds_spec payload g : g ∈ extractGrantIds payload <-> names_grant payload g.
Proof.
  assert (forall a, payload_str "grantId" a = Some g <-> assoc "grantId" a = Some (JStr g)) as Hp.
  { intros a. unfold payload_str. destruct (assoc "grantId" a) as [[| | |s| |]|]; split; congruence. }
  split.
  - unfold extractGrantIds. destruct payload as [| | | | |o]; try by intros ?%elem_of_nil.
    destruct (assoc "authorizations" o) as [[| | | |l|clients]|] eqn:E; try by intros ?%elem_of_nil.
    + intros ([| | | | |a] & Ha & Hg)%list_elem_of_omap; try done. apply Hp in Hg. exact (named_in_list _ g o l a eq_refl E Ha Hg).
    + intros ([k [| | | | |a]] & Ha & Hg)%list_elem_of_omap; try done.
      apply (elem_of_object_entries _ clients) in Ha. apply Hp in Hg. exact (named_by_client _ g o clients k a eq_refl E Ha Hg).
  - intros [o clients k a -> E Ha Hg|o l a -> E Ha Hg]; simpl; rewrite E; apply list_elem_of_omap.
    + exists (k, JObj a). split; [by apply elem_of_object_entries|by apply Hp].
    + exists (JObj a). split; [done|by apply Hp].
Qed.

(** ** The cap *)

Section Cap.
Context (collate : relation string) `{!RelDecision collate, !Total collate, !Transitive collate}.

#[local] Instance newest_total : Total (newest_first collate).
Proof.
  intros r r'. unfold newest_first.
  destruct (Z.lt_trichotomy (om_createdAt r) (om_createdAt r')) as [H|[H|H]]; [tauto| |tauto].
  destruct (total collate (om_oidcId r') (om_oidcId r)); rewrite H; tauto.
Qed.
#[local] Instance newest_trans : Transitive (newest_first collate).
Proof.
  intros x y z. unfold newest_first. intros [H1|[E1 C1]] [H2|[E2 C2]]; [left; lia..|].
  right. split; [lia|]. by etrans.
Qed.

Section Claim.
Context (a : string) (keep : nat) (new : option string) (now : Z) (d : DB) (Hok : oidc_ok d).

Definition other_session (r : OidcModel) : bool :=
  active_session a now r && match new with Some s => negb (String.eqb r.(om_oidcId) s) | None => true end.

Abbreviation sorted := (merge_sort (newest_first collate) (select other_session (oidc d))).
Abbreviation claimed := (surplus collate a keep new now d).

Lemma elem_of_sorted r : r ∈ sorted <-> other_session r = true /\ exists i, oidc d !! i = Some r.
Proof. by rewrite (merge_sort_Permutation (newest_first collate)), elem_of_select. Qed.

Lemma claimed_session r : r ∈ claimed -> other_session r = true /\ exists i, oidc d !! i = Some r.
Proof.
  intros H. apply elem_of_sorted. unfold surplus in H. fold other_session in H.
  rewrite <-(take_drop keep sorted). apply elem_of_app. by right.
Qed.

(** The rows the statement deletes are those it selected. *)
Lemma claimed_rows i r :
  oidc d !! i = Some r ->
  is_model SESSION_MODEL r && mem_str r.(om_oidcId) (map om_oidcId claimed) = true <-> r ∈ claimed.
Proof.
  intros Hr. rewrite andb_true_iff, mem_str_spec. split.
  - intros [Hm (x & Hx & Hin)%list_elem_of_fmap]. destruct (claimed_session x Hin) as [Hs [j Hj]].
    enough (i = j) as -> by congruence. eapply (oo_unique d Hok); [done|done| |done].
    unfold other_session, active_session in Hs. rewrite !andb_true_iff in Hs.
    destruct Hs as [[[Hs _] _] _]. apply String.eqb_eq in Hs, Hm. congruence.
  - intros Hin. destruct (claimed_session r Hin) as [Hs _]. split; [|apply list_elem_of_fmap; eauto].
    unfold other_session, active_session in Hs. rewrite !andb_true_iff in Hs. tauto.
Qed.

Lemma surplus_NoDup : NoDup claimed.
Proof.
  assert (NoDup sorted) as Hs by (rewrite merge_sort_Permutation; apply select_NoDup, Hok).
  unfold surplus. fold other_session. rewrite <-(take_drop keep sorted) in Hs. by apply NoDup_app in Hs as (_ & _ & Hs).
Qed.

(** What is left of the others fits. *)
Lemma kept_taken r : other_session r = true -> (exists i, oidc d !! i = Some r) -> r ∉ claimed -> r ∈ take keep sorted.
Proof.
  intros Hs Hi Hn. assert (r ∈ sorted) as H by (by apply elem_of_sorted).
  rewrite <-(take_drop keep sorted) in H. apply elem_of_app in H as [H|H]; [done|]. by destruct Hn.
Qed.

(** Every claimed session is at most as new as every kept one. *)
Lemma claimed_older r r' :
  r ∈ claimed -> other_session r' = true -> (exists i, oidc d !! i = Some r') -> r' ∉ claimed ->
  r.(om_createdAt) <= r'.(om_createdAt).
Proof.
  intros Hr Hs Hi Hn. apply kept_taken in Hn; [|done..].
  assert (StronglySorted (newest_first collate) sorted) as HS.
  { apply Sorted_StronglySorted; [apply _|]. apply Sorted_merge_sort, _. }
  rewrite <-(take_drop keep sorted) in HS.
  destruct (StronglySorted_app_1_elem_of _ _ _ r' r HS) as [H|[H _]]; [done|done|lia..].
Qed.

(** The record is claimed, or hangs off a grant of a claimed session. *)
Definition evicted (r : OidcModel) : Prop :=
  r ∈ claimed \/
  exists x g, x ∈ claimed /\ g ∈ extractGrantIds x.(om_payload) /\
    (r.(om_grantId) = Some g \/ (r.(om_modelName) = "Grant" /\ r.(om_oidcId) = g)).
End Claim.

(** The record is deleted with the given sessions. *)
Definition of_sessions (sessions : list AccountSession) (r : OidcModel) : bool :=
  (is_model SESSION_MODEL r && mem_str r.(om_oidcId) (map as_oidcId sessions)) ||
  match r.(om_grantId) with Some g => mem_str g (sessions ≫= as_grantIds) | None => false end ||
  (is_model "Grant" r && mem_str r.(om_oidcId) (sessions ≫= as_grantIds)).

Lemma deleteSessions_run sessions w :
  exists gone, deleteSessions sessions w =
    (modify_view NoTx (fun d => set_oidc (filter (fun kv => of_sessions sessions kv.2 = false) (oidc d)) d) w, inr gone)
    \/ sessions = [] /\ deleteSessions sessions w = (w, inr gone).
Proof. destruct sessions; [exists []; by right|]. eexists. left. unfold deleteSessions. by rewrite delete_run. Qed.

Lemma elem_of_grants (l : list OidcModel) g :
  g ∈ (map session_of l ≫= as_grantIds) <-> exists x, x ∈ l /\ g ∈ extractGrantIds x.(om_payload).
Proof.
  rewrite list_elem_of_bind. split.
  - intros (x & Hg & (y & -> & Hy)%list_elem_of_fmap). eauto.
  - intros (x & Hx & Hg). exists (session_of x). split; [done|]. apply list_elem_of_fmap. eauto.
Qed.

(** A record that is not one of the claimed sessions goes with them if it hangs off one
    of their grants. *)
Lemma of_sessions_spec (l : list OidcModel) r :
  (is_model SESSION_MODEL r = true -> r.(om_oidcId) ∉ map om_oidcId l) ->
  of_sessions (map session_of l) r = true <->
  exists x g, x ∈ l /\ g ∈ extractGrantIds x.(om_payload) /\
    (r.(om_grantId) = Some g \/ (r.(om_modelName) = "Grant" /\ r.(om_oidcId) = g)).
Proof.
  intros Hn. unfold of_sessions. rewrite map_map, !orb_true_iff, !andb_true_iff. split.
  - intros [[[Hs Hm%mem_str_spec]|Hg]|[Hm%String.eqb_eq Hg%mem_str_spec]].
    + by destruct (Hn Hs).
    + destruct (om_grantId r) as [g|]; [|done]. apply mem_str_spec, elem_of_grants in Hg as (x & Hx & Hg). eauto 8.
    + apply elem_of_grants in Hg as (x & Hx & Hg). eauto 8.
  - intros (x & g & Hx & Hg & [Hr|[Hm Hr]]).
    + left. right. rewrite Hr. apply mem_str_spec, elem_of_grants. eauto.
    + right. split; [by apply String.eqb_eq|]. rewrite Hr. apply mem_str_spec, elem_of_grants. eauto.
Qed.

Section Enforce.
Context (limit : nat) (a : string) (new : option string) (w : World).
Context (Hlimit : limit <> 0%nat) (Hok : oidc_ok w.(committed)).

Definition keep_of : nat := if truthy_str new then (limit - 1)%nat else limit.
Abbreviation claimed := (surplus collate a keep_of new w.(clock) w.(committed)).
Abbreviation gone r := (evicted a keep_of new w.(clock) w.(committed) r).

(** The claim: the sessions returned are those claimed, and only they are gone. *)
Lemma claimSurplus_run :
  exists w1 ev, claimSurplusSessions collate a limit new w = (w1, inr (map session_of ev)) /\
    NoDup ev /\ (forall r, r ∈ ev <-> r ∈ claimed) /\
    (forall i r, oidc w1.(committed) !! i = Some r <-> oidc w.(committed) !! i = Some r /\ r ∉ claimed).
Proof.
  set (P := fun d r => is_model SESSION_MODEL r &&
              mem_str r.(om_oidcId) (map om_oidcId (surplus collate a keep_of new w.(clock) d))).
  assert (forall i r, oidc w.(committed) !! i = Some r -> P w.(committed) r = true <-> r ∈ claimed) as HP.
  { intros i r Hr. by apply (claimed_rows a keep_of new w.(clock) w.(committed) Hok i r). }
  exists (modify_view NoTx (fun d => set_oidc (filter (fun kv => P d kv.2 = false) (oidc d)) d) w),
    (select (P w.(committed)) (oidc w.(committed))). split; [done|].
  split; [apply select_NoDup, Hok|]. split.
  - intros r. rewrite elem_of_select. split; [intros [Hr [i Hi]]; by apply (HP i)|]. intros Hr.
    destruct (claimed_session a keep_of new w.(clock) w.(committed) r Hr) as [_ [i Hi]]. split; [|eauto]. by apply (HP i).
  - intros i r. etrans; [apply (delete_lookup P)|]. split; intros [Hr Hn]; (split; [done|]).
    + intros Hin%(HP i r Hr). congruence.
    + apply not_true_is_false. by rewrite (HP i r Hr).
Qed.

(** What is left is what was there and is not evicted. *)
Lemma enforce_rows :
  exists w' ev, enforce collate limit a new w =
      (w', inr (count_rows (active_session a w.(clock)) (oidc w.(committed)), length ev)) /\
    NoDup ev /\ (forall r, r ∈ ev <-> r ∈ claimed) /\
    forall i r, oidc w'.(committed) !! i = Some r <-> oidc w.(committed) !! i = Some r /\ ~ gone r.
Proof.
  unfold enforce. destruct (Nat.eqb_spec limit 0); [done|].
  destruct claimSurplus_run as (w1 & ev & Ec & Hnd & Hev & H1).
  assert (countActiveSessions a w =
    (w, inr (count_rows (active_session a w.(clock)) (oidc w.(committed))))) as Ek by done.
  unfold mbind, prog_bind. rewrite Ek. cbv beta iota. rewrite Ec. cbv beta iota.
  destruct ev as [|x0 ev'] eqn:Eev.
  { simpl. exists w1, []. split; [done|]. split; [constructor|]. split; [done|]. intros i r. rewrite H1. split; intros [Hr Hn]; (split; [done|]).
    - intros [Hc|(x & g & Hc & _)]; [done|]. apply Hev in Hc. by apply elem_of_nil in Hc.
    - intros Hc. apply Hn. by left. }
  destruct (deleteSessions_run (map session_of (x0 :: ev')) w1) as [g0 [Ed|[? _]]]; [|done].
  set (w2 := modify_view _ _ w1) in Ed. exists w2, (x0 :: ev'). split.
  { change (map session_of (x0 :: ev')) with (session_of x0 :: map session_of ev') at 1. cbv beta iota.
    rewrite Ed. by rewrite length_map. }
  split; [done|]. split; [done|].
  assert (forall i r, oidc w1.(committed) !! i = Some r -> of_sessions (map session_of (x0 :: ev')) r = true <->
    exists x g, x ∈ x0 :: ev' /\ g ∈ extractGrantIds x.(om_payload) /\
      (r.(om_grantId) = Some g \/ (r.(om_modelName) = "Grant" /\ r.(om_oidcId) = g))) as Hof.
  { intros i r [Hr Hn]%H1. apply of_sessions_spec. intros Hs (x & Hx & Hin)%list_elem_of_fmap. apply Hn.
    apply Hev in Hin as Hin'. apply (claimed_rows a keep_of new w.(clock) w.(committed) Hok i r Hr).
    rewrite Hs. apply mem_str_spec. rewrite Hx. by apply list_elem_of_fmap_2. }
  intros i r. etrans; [apply (delete_lookup (fun _ => of_sessions (map session_of (x0 :: ev'))))|]. split.
  - intros [Hr Hb]. pose proof (proj1 (H1 i r) Hr) as [Hr0 Hn]. split; [done|].
    intros [Hc|(x & g & Hx & Hg)]; [done|]. apply not_true_iff_false in Hb. apply Hb, (Hof i r Hr).
    apply Hev in Hx. eauto.
  - intros [Hr Hn]. assert (oidc w1.(committed) !! i = Some r) as Hr1.
    { apply H1. split; [done|]. intros Hc. apply Hn. by left. }
    split; [done|]. apply not_true_is_false. intros (x & g & Hx & Hg)%(Hof i r Hr1). apply Hn. right.
    exists x, g. by rewrite <-Hev.
Qed.

(** *** Consequences *)

Context (after : gmap string OidcModel).
Context (Hafter : forall i r, after !! i = Some r <-> oidc w.(committed) !! i = Some r /\ ~ gone r).
Context (Hgrant : forall i r, oidc w.(committed) !! i = Some r -> r.(om_modelName) = SESSION_MODEL ->
                  r.(om_grantId) = None).
Abbreviation active := (active_session a w.(clock)).

Lemma active_is_session r : active r = true -> r.(om_modelName) = SESSION_MODEL.
Proof. unfold active_session. rewrite !andb_true_iff. intros [[H _] _]. by apply String.eqb_eq. Qed.

(** Of the sessions only the claimed ones go. *)
Lemma gone_claimed i r : oidc w.(committed) !! i = Some r -> active r = true -> gone r -> r ∈ claimed.
Proof.
  intros Hr Ha%active_is_session [Hc|(x & g & _ & _ & [Hg|[Hm _]])]; [done| |by rewrite Ha in Hm].
  by rewrite (Hgrant i r Hr Ha) in Hg.
Qed.

Lemma missing_claimed i r :
  oidc w.(committed) !! i = Some r -> active r = true -> after !! i = None -> r ∈ claimed.
Proof.
  intros Hr Ha Hn. rewrite <-(claimed_rows a keep_of new w.(clock) w.(committed) Hok i r Hr).
  apply not_false_is_true. intros Hc. assert (after !! i = Some r); [|congruence].
  apply Hafter. split; [done|]. intros Hg%(gone_claimed i); [|done..].
  rewrite <-(claimed_rows a keep_of new w.(clock) w.(committed) Hok i r Hr) in Hg. congruence.
Qed.

Lemma new_survives i r :
  oidc w.(committed) !! i = Some r -> active r = true -> new = Some r.(om_oidcId) -> after !! i = Some r.
Proof.
  intros Hr Ha Hs. apply Hafter. split; [done|]. intros Hc%(gone_claimed i); [|done..].
  apply claimed_session in Hc as [Ho _]. unfold other_session in Ho.
  rewrite Hs, String.eqb_refl, andb_false_r in Ho. done.
Qed.

Lemma staying_other j r :
  after !! j = Some r -> active r = true -> new <> Some r.(om_oidcId) ->
  other_session a new w.(clock) r = true /\ (exists i, oidc w.(committed) !! i = Some r) /\ r ∉ claimed.
Proof.
  intros [Hr Hn]%Hafter Ha Hs. split_and!; [|eauto|intros Hc; apply Hn; by left].
  unfold other_session. rewrite Ha. destruct new as [s|]; [|done]. apply negb_true_iff, String.eqb_neq. congruence.
Qed.

(** At most the kept ones and the new one are left. *)
Lemma capped : new <> Some "" -> (count_rows active after <= limit)%nat.
Proof.
  intros Hne. set (sorted := merge_sort (newest_first collate) (select (other_session a new w.(clock)) (oidc w.(committed)))).
  set (fresh := match new with
                | Some s => option_list (find_one (is_record SESSION_MODEL s) (oidc w.(committed)))
                | None => []
                end).
  assert (length (take keep_of sorted ++ fresh) <= limit)%nat as Hlen.
  { rewrite length_app, length_take. unfold keep_of, fresh.
    destruct new as [s|]; [|simpl; lia]. destruct s as [|c s]; [done|]. simpl. destruct (find_one _ _); simpl; lia. }
  etrans; [|exact Hlen]. unfold count_rows. apply submseteq_length, NoDup_submseteq.
  { apply select_NoDup. intros i r [Hr _]%Hafter. by apply Hok. }
  intros r [Ha [i Hi]]%elem_of_select. apply elem_of_app.
  destruct (decide (new = Some r.(om_oidcId))) as [Hs|Hs].
  - right. apply Hafter in Hi as [Hi _]. unfold fresh. rewrite Hs.
    destruct (find_one _ _) as [r'|] eqn:Ef.
    + apply find_one_Some in Ef as [[Hm%String.eqb_eq Ho%String.eqb_eq]%andb_true_iff [j Hj]].
      enough (r' = r) as -> by left. enough (j = i) by congruence.
      eapply (oo_unique _ Hok); [done|done| |done]. by rewrite Hm, (active_is_session r Ha).
    + rewrite find_one_None in Ef. specialize (Ef i r Hi). unfold is_record in Ef.
      rewrite (active_is_session r Ha), !String.eqb_refl in Ef. done.
  - left. destruct (staying_other i r Hi Ha Hs) as (Ho & Hx & Hc). by apply kept_taken.
Qed.
End Enforce.

(** As many are claimed as the kept ones leave over. *)
Lemma length_claimed a keep new now d :
  length (surplus collate a keep new now d) = (count_rows (other_session a new now) (oidc d) - keep)%nat.
Proof.
  unfold surplus, count_rows. rewrite length_drop. f_equal. apply Permutation_length, merge_sort_Permutation.
Qed.

Lemma count_live (P : OidcModel -> bool) (Q : OidcModel -> Prop) `{!forall r, Decision (Q r)} (t : gmap string OidcModel) :
  (forall r, P r = true <-> Q r) -> count_rows P t = length (filter Q (rows t)).
Proof. intros HPQ. unfold count_rows, select. f_equal. by apply list_filter_iff. Qed.

(** C27: the cap on concurrent sessions.  [enforce] returns the number of unexpired
    sessions the account had and the number it evicted.  The evicted ones are unexpired
    sessions of this account other than the new one, exactly as many as there were beyond
    the limit (the new session counts toward it), and none of them is more recent than an
    unexpired session of the account that stayed.  The records that go are exactly the
    evicted sessions, the grants their authorizations name and the records under those
    grants: every other record of anyone stays as it was, and none appears.  So at most
    [limit] unexpired sessions of the account are left, the new one among them if it was
    there.  Sessions carry no grant of their own. *)
Theorem session_cap limit a new w :
  limit <> 0%nat -> new <> Some "" -> oidc_ok w.(committed) ->
  (forall i r, oidc w.(committed) !! i = Some r -> r.(om_modelName) = "Session" -> r.(om_grantId) = None) ->
  let live := live_session a w.(clock) in
  let before := oidc w.(committed) in
  exists w' evicted,
  let after := oidc w'.(committed) in
  enforce collate limit a new w = (w', inr (length (filter live (rows before)), length evicted)) /\
  NoDup evicted /\
  (forall r, r ∈ evicted -> live r /\ new <> Some r.(om_oidcId) /\ exists i, before !! i = Some r) /\
  length evicted = (length (filter (fun r => live r /\ new <> Some r.(om_oidcId)) (rows before)) -
                    match new with Some _ => limit - 1 | None => limit end)%nat /\
  (forall r i r', r ∈ evicted -> before !! i = Some r' -> live r' -> new <> Some r'.(om_oidcId) -> r' ∉ evicted ->
     r.(om_createdAt) <= r'.(om_createdAt)) /\
  (forall i r, after !! i = Some r <-> before !! i = Some r /\ r ∉ evicted /\
     ~ (exists x g, x ∈ evicted /\ names_grant x.(om_payload) g /\
          (r.(om_grantId) = Some g \/ (r.(om_modelName) = "Grant" /\ r.(om_oidcId) = g)))) /\
  (length (filter live (rows after)) <= limit)%nat /\
  (forall i r, before !! i = Some r -> live r -> new = Some r.(om_oidcId) -> after !! i = Some r).
Proof.
  intros Hl Hnew Hok Hgr live before. destruct (enforce_rows limit a new w Hl Hok) as (w' & ev & E & Hnd & Hev & H).
  assert (forall r, other_session a new w.(clock) r = true <-> live r /\ new <> Some r.(om_oidcId)) as Hother.
  { intros r. unfold other_session. rewrite andb_true_iff, active_session_spec. destruct new as [s|]; [|naive_solver].
    rewrite negb_true_iff, String.eqb_neq. naive_solver. }
  assert (keep_of limit new = match new with Some _ => (limit - 1)%nat | None => limit end) as Hkeep
    by (unfold keep_of; by destruct new as [[|]|]).
  pose proof (count_live (active_session a w.(clock)) live) as Hcount.
  exists w', ev. rewrite (Hcount (oidc w.(committed))) in E by (intros; apply active_session_spec).
  split; [exact E|]. split; [exact Hnd|]. split_and!.
  - intros r Hr%Hev. apply claimed_session in Hr as [Ho%Hother Hi]. by destruct Ho.
  - rewrite (Permutation_length (NoDup_Permutation ev _ Hnd (surplus_NoDup a (keep_of limit new) new _ _ Hok) Hev)).
    rewrite length_claimed, Hkeep. f_equal. by apply count_live.
  - intros r i r' Hr%Hev Hi Hlive Hn Hno. eapply (claimed_older a (keep_of limit new) new w.(clock) w.(committed));
      [exact Hr|by apply Hother|eauto|by rewrite <-Hev].
  - intros i r. rewrite H. unfold evicted. rewrite <-Hev. split; intros [Hr Hn]; (split; [done|]).
    + split; [tauto|]. intros (x & g & Hx & Hg%extractGrantIds_spec & Hb). apply Hn. right. exists x, g. by rewrite <-Hev.
    + intros [Hc|(x & g & Hx & Hg & Hb)]; [by destruct Hn|]. apply Hn. exists x, g. by rewrite Hev, <-extractGrantIds_spec.
  - rewrite <-(Hcount (oidc w'.(committed))) by (intros; apply active_session_spec).
    by apply (capped limit a new w Hl Hok _ H).
  - intros i r Hr Ha%active_session_spec Hs. by apply (new_survives limit a new w _ H Hgr i r).
Qed.
End Cap.

(** ** Logging a user out *)

(** Force-logout is complete and touches nobody else.  For a user that exists the
    request succeeds; afterwards no session, grant, token or code of the user is left,
    nor any record under one of their grants, every other record is as it was, the
    number returned is that of the records removed, and the audit entry was committed
    with the removal.  For an unknown user nothing changes. *)
Theorem force_logout_complete id w :
  let w' := (admin_revokeSessions id w).1 in
  let before := oidc w.(committed) in let after := oidc w'.(committed) in
  match users w.(committed) !! id with
  | None => admin_revokeSessions id w = (w, inl (user_not_found id))
  | Some u =>
      (forall i x, after !! i = Some x <->
         before !! i = Some x /\ bound_to (String.eqb u.(tu_id)) w.(committed) x = false) /\
      (forall i x, after !! i = Some x -> x.(om_accountId) = Some u.(tu_id) ->
         x.(om_modelName) ∉ ACCOUNT_BOUND_MODELS) /\
      (forall i j x g, after !! i = Some x -> before !! j = Some g -> g.(om_modelName) = "Grant" ->
         g.(om_accountId) = Some u.(tu_id) -> x.(om_grantId) <> Some g.(om_oidcId)) /\
      (admin_revokeSessions id w).2 =
        inr (count_rows (bound_to (String.eqb u.(tu_id)) w.(committed)) before) /\
      w'.(committed).(db_audit) = w.(committed).(db_audit) ++ [(u.(tu_tenantId), "revoke", "oidc_session", id)]
  end.
Proof.
  intros w' before after. destruct (users w.(committed) !! id) as [u|] eqn:Eu.
  - set (P := fun d => bound_to (String.eqb u.(tu_id)) d).
    assert (exists w1, admin_revokeSessions id w = (w1, inr (count_rows (P w.(committed)) before)) /\
      w1.(committed) = add_audit (u.(tu_tenantId), "revoke", "oidc_session", id)
        (set_oidc (filter (fun kv => P w.(committed) kv.2 = false) (oidc w.(committed))) w.(committed)))
      as (w1 & E & Ec).
    { unfold admin_revokeSessions, user_findById, users_findById, mbind, prog_bind. simpl.
      unfold users in *. rewrite Eu. eexists. split; reflexivity. }
    unfold after, w'. rewrite E. cbn [fst snd].
    assert (forall i x, oidc w1.(committed) !! i = Some x <->
      before !! i = Some x /\ P w.(committed) x = false) as H.
    { intros i x. rewrite Ec. apply (delete_lookup P). }
    split_and!; [exact H| | |done|by rewrite Ec]; unfold P, bound_to in H.
    + intros i x [_ Hb]%H Ha Hm%mem_str_spec. unfold bound_model in Hb. by rewrite Hm, Ha, String.eqb_refl in Hb.
    + intros i j x g [_ [_ Hb]%orb_false_iff]%H Hg Hm Ha Hx. apply not_true_iff_false in Hb. apply Hb.
      unfold under_grant. rewrite Hx. apply existsb_exists. exists g. split; [apply list_elem_of_In, elem_of_rows; eauto|].
      unfold is_model. by rewrite Ha, Hm, !String.eqb_refl.
  - unfold admin_revokeSessions, user_findById, users_findById, mbind, prog_bind. simpl. by rewrite Eu.
Qed.

(** ** The adapter *)

Lemma oidc_find_row modelName oidcId w i r :
  oidc_ok w.(committed) -> oidc w.(committed) !! i = Some r -> is_record modelName oidcId r = true ->
  find_one (is_record modelName oidcId) (oidc w.(committed)) = Some r.
Proof.
  intros Hok Hr HP. destruct (find_one _ _) as [x|] eqn:E.
  - apply find_one_Some in E as [HP' [j Hj]]. f_equal. enough (j = i) by congruence.
    unfold is_record in *. rewrite andb_true_iff, !String.eqb_eq in HP, HP'.
    eapply (oo_unique _ Hok); [done|done|..]; intuition congruence.
  - rewrite find_one_None in E. by rewrite (E i r Hr) in HP.
Qed.

(** A write of a row keeps the constraints when no other row has its name. *)
Lemma write_oidc_ok w id r :
  oidc_ok w.(committed) -> r.(om_id) = id ->
  (forall j x, oidc w.(committed) !! j = Some x -> is_record r.(om_modelName) r.(om_oidcId) x = true -> j = id) ->
  oidc_ok (write_oidc id r w).1.(committed).
Proof.
  intros [K U] Hid Hfree. split; unfold oidc in *; simpl.
  - intros i x [[<- <-]|[_ Hx]]%lookup_insert_Some; [done|by apply K].
  - assert (forall j x, ad_oidc (db_admin (committed w)) !! j = Some x -> x.(om_modelName) = r.(om_modelName) ->
      x.(om_oidcId) = r.(om_oidcId) -> j = id) as Hf.
    { intros j x Hx Hm Ho. apply (Hfree j x Hx). unfold is_record. by rewrite Hm, Ho, !String.eqb_refl. }
    intros i j x y [[<- <-]|[_ Hx]]%lookup_insert_Some [[<- <-]|[_ Hy]]%lookup_insert_Some Hm Ho;
      [done|by symmetry; eapply Hf|by eapply Hf|by eapply U].
Qed.

(** The row an upsert leaves. *)
Lemma upsert_row modelName oidcId payload ttl w w' :
  oidc_ok w.(committed) -> oidc_upsert modelName oidcId payload ttl w = (w', inr tt) ->
  oidc_ok w'.(committed) /\ exists i r, oidc w'.(committed) !! i = Some r /\ is_record modelName oidcId r = true /\
    r.(om_payload) = JObj payload /\ r.(om_consumedAt) = None /\
    r.(om_expiresAt) = if 0 <? ttl then Some (column_of (date_of w.(clock) + ttl * 1000)) else None.
Proof.
  intros Hok E. unfold oidc_upsert in E. cbv zeta in E.
  apply bind_inr in E as (? & now & En & E). injection En as <- <-.
  apply bind_inr in E as (? & existing & Ex & E). injection Ex as <- Ex. destruct existing as [x|].
  - apply find_one_Some in Ex as [HP [i Hi]]. pose proof (oo_keyed _ Hok _ _ Hi) as Hid.
    unfold is_record in HP. rewrite andb_true_iff, !String.eqb_eq in HP. destruct HP as [Hm Ho].
    split.
    + apply (f_equal fst) in E. cbn [fst] in E. rewrite <-E. apply write_oidc_ok; [done..|].
      intros j y Hy [Hm'%String.eqb_eq Ho'%String.eqb_eq]%andb_true_iff. rewrite Hid.
      simpl in Hm', Ho'. eapply (oo_unique _ Hok); [done|done|congruence..].
    + injection E as <-. eexists _, _. split; [apply lookup_insert_eq|]. unfold is_record. simpl.
      by rewrite !String.eqb_refl.
  - rewrite find_one_None in Ex. apply bind_inr in E as (w1 & id & Eg & E). injection Eg as <- <-.
    apply bind_inr in E as (? & created & En & E). injection En as <- <-.
    apply bind_inr in E as (? & taken & Et & E). injection Et as <- <-. destruct (bool_decide _); [done|].
    split.
    + apply (f_equal fst) in E. cbn [fst] in E. rewrite <-E. apply write_oidc_ok; [done..|].
      intros j y Hy Hr. cbn in Hr. by rewrite (Ex j y Hy) in Hr.
    + injection E as <-. eexists _, _. split; [apply lookup_insert_eq|]. unfold is_record. simpl.
      by rewrite !String.eqb_refl.
Qed.

(** What oidc-provider stores it reads back.  After an upsert that succeeded, a lookup
    of the same model and identifier at whatever later time returns the payload that was
    stored, unless a lifetime was given and has run out, when it returns nothing; and
    once the record is destroyed nothing is found, whatever the upstream logout does to
    other tables. *)
Theorem adapter_round_trip logout modelName oidcId payload ttl w w' later :
  oidc_ok w.(committed) -> oidc_upsert modelName oidcId payload ttl w = (w', inr tt) ->
  (oidc_find modelName oidcId (set_clock later w')).2 =
    inr (if (0 <? ttl) && (date_of w.(clock) + ttl * 1000 <=? date_of later) then None else Some payload) /\
  (forall w2, oidc_destroy logout modelName oidcId w' = (w2, inr tt) ->
     (oidc_find modelName oidcId w2).2 = inr None).
Proof.
  intros Hok E. apply upsert_row in E as (Hok' & i & r & Hr & HP & Hpay & Hcon & Hexp); [|done]. split.
  - unfold oidc_find, find_payload, mbind, prog_bind. simpl.
    rewrite (oidc_find_row modelName oidcId w' i r Hok' Hr HP). unfold toPayloadIfActive.
    rewrite Hexp, Hpay, Hcon. destruct (0 <? ttl); simpl; [|done]. rewrite date_of_column_of.
    by destruct (_ <=? _).
  - intros w2 Ed. unfold oidc_destroy in Ed. apply bind_inr in Ed as (w1 & [] & _ & Ed).
    apply bind_inr in Ed as (w3 & gone & Ed & E2). injection E2 as <-. rewrite delete_run in Ed.
    injection Ed as <- <-. unfold oidc_find, find_payload, mbind, prog_bind. simpl.
    rewrite (proj2 (find_one_None _ _)); [done|]. intros j x Hx.
    by apply (delete_lookup (fun _ => is_record modelName oidcId)) in Hx as [_ Hx].
Qed.

(** ** Concrete sessions *)

Definition by_length (s s' : string) : Prop := (String.length s <= String.length s')%nat.
#[local] Instance by_length_dec : RelDecision by_length.
Proof. intros s s'. unfold by_length. apply _. Defined.
#[local] Instance by_length_total : Total by_length.
Proof. intros s s'. unfold by_length. lia. Qed.
#[local] Instance by_length_trans : Transitive by_length.
Proof. intros x y z. unfold by_length. lia. Qed.

Definition sample_session (id : string) (created : Z) : OidcModel :=
  mkOidcModel id "Session" id
    (JObj [("authorizations", JObj [("ui", JObj [("grantId", JStr ("g" +:+ id))])])])
    None None None (Some "m") None None created.

(** Three sessions, the oldest with its grant. *)
Definition sessions_db : DB :=
  set_oidc {[ "a" := sample_session "a" 1; "b" := sample_session "b" 2; "c" := sample_session "c" 3;
              "ga" := mkOidcModel "ga" "Grant" "ga" (JObj []) None None None (Some "m") None None 1;
              "n" := mkOidcModel "n" "Session" "n" (JObj []) None None None (Some "other") None None 1 ]}
    (set_users {[ "m" := mkTenantUser "m" "t" (Some "m") "m@x" None MEMBER TU_ACTIVE false 0 0 ]} empty_db).

Lemma sessions_rows i r :
  oidc sessions_db !! i = Some r -> r.(om_id) = i /\ r.(om_oidcId) = i /\ r.(om_grantId) = None.
Proof.
  intros H. apply elem_of_map_to_list in H. revert H.
  assert (Forall (fun kv => kv.2.(om_id) = kv.1 /\ kv.2.(om_oidcId) = kv.1 /\ kv.2.(om_grantId) = None)
            (map_to_list (oidc sessions_db))) as HF by (vm_compute; repeat constructor).
  rewrite Forall_forall in HF. apply HF.
Qed.

Lemma sessions_ok : oidc_ok sessions_db.
Proof.
  split; [intros i r H; apply (sessions_rows i r H)|].
  intros i j r r' H%sessions_rows H'%sessions_rows _ E. destruct H as (_ & <- & _), H' as (_ & <- & _). done.
Qed.

(** With room for two the oldest goes, with its grant. *)
Lemma session_cap_witness :
  let r := enforce by_length 2 "m" (Some "c") (world_of sessions_db 10) in
  r.2 = inr (3%nat, 1%nat) /\ oidc r.1.(committed) !! "a" = None /\ oidc r.1.(committed) !! "ga" = None /\
  (length (filter (live_session "m" 10) (rows (oidc r.1.(committed)))) <= 2)%nat.
Proof.
  intros r. split; [vm_compute; reflexivity|]. split; [vm_compute; reflexivity|]. split; [vm_compute; reflexivity|].
  destruct (session_cap by_length 2 "m" (Some "c") (world_of sessions_db 10)) as (w' & ev & E & _ & _ & _ & _ & _ & H & _).
  - done.
  - done.
  - exact sessions_ok.
  - intros i x Hx _. apply (sessions_rows i x Hx).
  - unfold r. by rewrite E.
Defined.

Lemma adapter_round_trip_witness :
  let w := world_of sessions_db 5000 in
  let w' := (oidc_upsert "Session" "a" [("accountId", JStr "m")] 60 w).1 in
  (oidc_find "Session" "a" (set_clock 60004000 w')).2 = inr (Some [("accountId", JStr "m")]) /\
  (oidc_find "Session" "a" (set_clock 60005000 w')).2 = inr None.
Proof.
  intros w w'. split.
  - destruct (adapter_round_trip (fun _ _ => mret tt) "Session" "a" [("accountId", JStr "m")] 60 w w' 60004000) as [H _];
      [exact sessions_ok|vm_compute; reflexivity|exact H].
  - destruct (adapter_round_trip (fun _ _ => mret tt) "Session" "a" [("accountId", JStr "m")] 60 w w' 60005000) as [H _];
      [exact sessions_ok|vm_compute; reflexivity|exact H].
Defined.
