(* ===== verification/TenantSwitch.v ===== *)
(** * Switching tenants

    auth/auth.service.ts: the tenants a signed-in user can act in, and the exchange of
    a user's token for one of another tenant; with rebindSessionsToAccount of
    oidc-account-session.repository.ts.  The models of oidc-provider, which the service
    uses to find, save and destroy clients, grants and tokens, are a parameter;
    [ProviderLaws] says what the package documents of them. *)

From Stdlib Require Import Ascii ZArith Lia.
From stdpp Require Import base decidable strings sets gmap list list_relations.
From S2P Require Import Prelude Js OperationTtl JsText Entities StateMapping Db TenantRepository.
From S2P Require Import OidcSessions Auth TenantUserService TenantService RoleScope Lifecycle ProtocolNotification ServiceLogic LogAccess TokenValidation OidcCorrectness.

Local Open Scope Z_scope.

(** ** Rebinding sessions *)

(** [{ ...current, grantId }] of an authorization; anything but an object stays. *)
Definition rebind_authorization (grantId : string) (current : json) : json :=
  match current with
  | JObj a => JObj (assoc_set "grantId" (JStr grantId) a)
  | JArr l => JObj (assoc_set "grantId" (JStr grantId) (imap (fun i v => (JsValue.decimal_text (Z.of_nat i), v)) l))
  | v => v
  end.

(** The entry of the client in [authorizations], an object or an array. *)
Definition rebind_authorizations (clientId grantId : string) (authorizations : json) : json :=
  match authorizations with
  | JObj o =>
      match assoc clientId o with
      | Some current => JObj (assoc_set clientId (rebind_authorization grantId current) o)
      | None => authorizations
      end
  | JArr l =>
      JArr (imap (fun i v => if String.eqb (JsValue.decimal_text (Z.of_nat i)) clientId
                             then rebind_authorization grantId v else v) l)
  | v => v
  end.

Definition rebind_payload (toAccountId clientId grantId : string) (payload : json) : list (string * json) :=
  let spread := assoc_set "accountId" (JStr toAccountId) (match payload with JObj o => o | _ => [] end) in
  match assoc "authorizations" spread with
  | Some authorizations => assoc_set "authorizations" (rebind_authorizations clientId grantId authorizations) spread
  | None => spread
  end.

Definition rebind_session (toAccountId clientId grantId : string) (r : OidcModel) : OidcModel :=
  mkOidcModel r.(om_id) r.(om_modelName) r.(om_oidcId)
    (JObj (rebind_payload toAccountId clientId grantId r.(om_payload)))
    r.(om_grantId) r.(om_userCode) r.(om_uid) (Some toAccountId) r.(om_expiresAt) r.(om_consumedAt) r.(om_createdAt).

Definition rebindSessionsToAccount (fromAccountId toAccountId clientId grantId : string) : Prog unit :=
  sessions ← read NoTx (fun d => select (fun r => is_model SESSION_MODEL r && of_account fromAccountId r) (oidc d));
  _ ← map_prog (fun s => write_oidc s.(om_id) (rebind_session toAccountId clientId grantId s)) sessions;
  mret tt.

(** ** oidc-provider *)

Record GrantProps := mkGrantProps {
  gp_clientId : option string;
  gp_accountId : string;
  gp_oidcScope : option string;
  gp_resources : list (string * string)             (* scopes by resource *)
}.

(** [accountId], [client], [grantId], [scope] and [resource] of a token. *)
Record TokenProps := mkTokenProps {
  tp_accountId : string;
  tp_clientId : string;
  tp_grantId : string;
  tp_scope : string;
  tp_resource : string
}.

Record Provider := mkProvider {
  pv_accessTokenGrant : string -> Prog (option string);    (* AccessToken.find(jti)?.grantId *)
  pv_hasClient : string -> Prog bool;                      (* Client.find(id) *)
  pv_saveGrant : GrantProps -> Prog string;
  pv_saveAccessToken : TokenProps -> Prog string;
  pv_saveRefreshToken : TokenProps -> Prog string;
  pv_hasGrant : string -> Prog bool;                       (* Grant.find(id) *)
  pv_destroyGrant : string -> Prog unit;
  pv_revokeByGrantId : string -> string -> Prog unit       (* model, grant *)
}.

(** ** AuthService *)

Record OidcSettings := mkSettings { oc_audience : string; oc_accessTokenTtlSeconds : Z }.

Record AuthTenantDto := mkAuthTenant {
  at_id : string;
  at_name : string;
  at_slug : string;
  at_status : TenantStatus;
  at_role : TenantUserRole
}.

Record SwitchTenantResponseDto := mkSwitch {
  sw_accessToken : string;
  sw_refreshToken : string;
  sw_tokenType : string;
  sw_expiresIn : Z
}.

Definition STANDARD_OIDC_SCOPES : list string := ["openid"; "profile"; "email"; "tenant"; "offline_access"].

Definition assertUserToken (auth : AccessContext) : Prog unit :=
  match auth.(ac_auth).(au_tokenType) with
  | user_token => mret tt
  | client_token => throw (ForbiddenException
      "Machine clients cannot switch tenants; each client_id is bound to one tenant")
  end.

Definition not_linked : Exn := ForbiddenException "Token subject is not linked to an external identity".

Definition resolveExternalIdentity (auth : AccessContext) : Prog (option TenantUser * string) :=
  current ← catch (u ← user_findById auth.(ac_auth).(au_sub); mret (Some u))
              (fun e => match e with NotFoundException _ => mret None | _ => throw e end);
  match current with
  | Some u =>
      match u.(tu_externalUserId) with
      | Some ((String _ _) as x) => mret (current, x)
      | _ => throw not_linked
      end
  | None =>
      match auth.(ac_externalUserId) with
      | Some ((String _ _) as x) => mret (None, x)
      | _ => throw not_linked
      end
  end.

Definition auth_tenant (tenants : gmap string Tenant) (u : TenantUser) : option AuthTenantDto :=
  t ← find_tenant u.(tu_tenantId) tenants;
  Some (mkAuthTenant t.(tn_id) t.(tn_name) t.(tn_slug) t.(tn_status) u.(tu_role)).

Definition listTenants (auth : AccessContext) : Prog (list AuthTenantDto) :=
  _ ← assertUserToken auth;
  '(_, externalUserId) ← resolveExternalIdentity auth;
  memberships ← users_findActiveByExternalUserId externalUserId;
  (* the query joined the tenants *)
  tenants ← read NoTx db_tenants;
  mret (omap (auth_tenant tenants) memberships).

Section Switching.
Context (provider : Provider) (config : OidcSettings).

Definition issueTokensForMembership (clientId : string) (membership : TenantUser)
    : Prog (string * string * string) :=
  client ← provider.(pv_hasClient) clientId;
  if negb client then throw (ForbiddenException ("OAuth client not found: " +:+ clientId))
  else
    roleScopes ← roleScopes_findScopesForRole membership.(tu_role) (Some membership.(tu_tenantId)) NoTx;
    let resourceScope := String.concat " " roleScopes in
    let oidcScope := String.concat " " (STANDARD_OIDC_SCOPES ++ roleScopes) in
    let scope := if String.eqb resourceScope "" then oidcScope else resourceScope in
    grantId ← provider.(pv_saveGrant) (mkGrantProps (Some clientId) membership.(tu_id) (Some oidcScope)
                (if String.eqb resourceScope "" then [] else [(config.(oc_audience), resourceScope)]));
    accessToken ← provider.(pv_saveAccessToken)
                    (mkTokenProps membership.(tu_id) clientId grantId scope config.(oc_audience));
    refreshToken ← provider.(pv_saveRefreshToken)
                     (mkTokenProps membership.(tu_id) clientId grantId oidcScope config.(oc_audience));
    mret (accessToken, refreshToken, grantId).

Definition revokeGrant (grantId : string) : Prog unit :=
  grant ← provider.(pv_hasGrant) grantId;
  _ ← prog_when grant (provider.(pv_destroyGrant) grantId);
  _ ← provider.(pv_revokeByGrantId) "AccessToken" grantId;
  provider.(pv_revokeByGrantId) "RefreshToken" grantId.

(** The membership the caller may act under: active, in an active tenant. *)
Definition switch_target (auth : AccessContext) (targetTenantId : string) : Prog TenantUser :=
  '(_, externalUserId) ← resolveExternalIdentity auth;
  target ← users_findByTenantAndExternalUserId targetTenantId externalUserId;
  match target with
  | Some u =>
      if is_active_user u then
        tenant ← tenantRepo_findById targetTenantId NoTx;
        _ ← of_sum (assertTenantActive tenant);
        mret u
      else throw (ForbiddenException "User is not an active member of the target tenant")
  | None => throw (ForbiddenException "User is not an active member of the target tenant")
  end.

Definition switchTenant (auth : AccessContext) (targetTenantId : string) : Prog SwitchTenantResponseDto :=
  _ ← assertUserToken auth;
  match auth.(ac_clientId) with
  | Some ((String _ _) as clientId) =>
      target ← switch_target auth targetTenantId;
      previousGrantId ← (match auth.(ac_jti) with
                         | Some ((String _ _) as jti) => provider.(pv_accessTokenGrant) jti
                         | _ => mret None
                         end);
      '(accessToken, refreshToken, grantId) ← issueTokensForMembership clientId target;
      _ ← (match previousGrantId with
           | Some ((String _ _) as g) => prog_when (negb (String.eqb g grantId)) (revokeGrant g)
           | _ => mret tt
           end);
      let sub := auth.(ac_auth).(au_sub) in
      _ ← rebindSessionsToAccount sub target.(tu_id) clientId grantId;
      _ ← prog_when (negb (String.eqb sub target.(tu_id)))
            (_ ← sessions_deleteAllForAccount sub NoTx; mret tt);
      _ ← audit_emit NoTx target.(tu_tenantId) "token_grant" "oidc_grant" grantId;
      mret (mkSwitch accessToken refreshToken "Bearer" config.(oc_accessTokenTtlSeconds))
  | _ => throw (ForbiddenException "Token is missing client_id; cannot switch tenant")
  end.
End Switching.

(** ** What is relied on *)

(** The records of which [P] does not hold are as they were; rows stay stored under
    their identifiers. *)
Record kept_but (P : OidcModel -> bool) (w w' : World) : Prop := {
  kb_rows i r : oidc w.(committed) !! i = Some r -> P r = false -> oidc w'.(committed) !! i = Some r;
  kb_keyed : table_keyed om_id (oidc w.(committed)) -> table_keyed om_id (oidc w'.(committed))
}.

(** The record of a grant: [resources] holds the granted scope by audience. *)
Record grant_record (props : GrantProps) (g : string) (r : OidcModel) : Prop := {
  gr_model : r.(om_modelName) = "Grant";
  gr_id : r.(om_oidcId) = g;
  gr_account : r.(om_accountId) = Some props.(gp_accountId);
  gr_grant : r.(om_grantId) = None;
  gr_resources : props.(gp_resources) <> [] -> exists o, r.(om_payload) = JObj o /\
    assoc "resources" o = Some (JObj ((fun p => (p.1, JStr p.2)) <$> props.(gp_resources)))
}.

(** A lookup changes nothing, saving a model adds its record, destroying a grant and
    revoking by grant remove the records they name. *)
Class ProviderLaws (provider : Provider) : Prop := {
  pl_tokenGrant jti w : (provider.(pv_accessTokenGrant) jti w).1.(committed) = w.(committed);
  pl_hasClient id w : (provider.(pv_hasClient) id w).1.(committed) = w.(committed);
  pl_hasGrant g w : (provider.(pv_hasGrant) g w).1.(committed) = w.(committed);
  pl_saveGrant props w w' g : provider.(pv_saveGrant) props w = (w', inr g) ->
    kept_but (fun _ => false) w w' /\ exists i r, oidc w'.(committed) !! i = Some r /\ grant_record props g r;
  pl_saveAccess props w : kept_but (fun _ => false) w (provider.(pv_saveAccessToken) props w).1;
  pl_saveRefresh props w : kept_but (fun _ => false) w (provider.(pv_saveRefreshToken) props w).1;
  pl_destroy g w :
    kept_but (fun r => is_model "Grant" r && String.eqb r.(om_oidcId) g) w (provider.(pv_destroyGrant) g w).1;
  pl_revoke model g w :
    kept_but (fun r => is_model model r && bool_decide (r.(om_grantId) = Some g)) w
      (provider.(pv_revokeByGrantId) model g w).1
}.

Lemma kept_same P w w' : w'.(committed) = w.(committed) -> kept_but P w w'.
Proof. intros E. split; rewrite E; auto. Qed.

Lemma kept_weaken (P Q : OidcModel -> bool) w w' :
  (forall r, P r = true -> Q r = true) -> kept_but P w w' -> kept_but Q w w'.
Proof.
  intros H [H1 H2]. split; [|done]. intros i r Hr HQ. apply H1; [done|].
  apply not_true_is_false. intros HP%H. congruence.
Qed.

Lemma kept_trans P w w1 w' : kept_but P w w1 -> kept_but P w1 w' -> kept_but P w w'.
Proof. intros [H1 H2] [H3 H4]. split; eauto. Qed.

(** ** Rebinding *)

Section Rebind.
Context (from to clientId grantId : string).

Definition rebound (r : OidcModel) : bool := is_model SESSION_MODEL r && of_account from r.
Definition rebind_row (r : OidcModel) : OidcModel :=
  if rebound r then rebind_session to clientId grantId r else r.

(** The writes, one after the other. *)
Lemma rebind_writes l w :
  exists w' us, map_prog (fun s => write_oidc s.(om_id) (rebind_session to clientId grantId s)) l w = (w', inr us) /\
    forall i, (exists s, s ∈ l /\ om_id s = i /\ oidc w'.(committed) !! i = Some (rebind_session to clientId grantId s)) \/
              ((forall s, s ∈ l -> om_id s <> i) /\ oidc w'.(committed) !! i = oidc w.(committed) !! i).
Proof.
  revert w. induction l as [|s l IH]; intros w.
  { exists w, []. split; [done|]. intros i. right. split; [set_solver|done]. }
  destruct (IH (write_oidc s.(om_id) (rebind_session to clientId grantId s) w).1) as (w' & us & E & H).
  exists w'. eexists. split.
  { cbn [map_prog]. erewrite bind_run by reflexivity. erewrite bind_run by exact E. reflexivity. }
  intros i. destruct (H i) as [(x & Hx & Hi & Hw)|[Hn Hw]]; [left; exists x; split; [by right|done]|].
  destruct (decide (om_id s = i)) as [<-|Hne].
  - left. exists s. split_and!; [by left|done|]. rewrite Hw. apply lookup_insert_eq.
  - right. split; [by intros x [->|Hx]%elem_of_cons; [|apply Hn]|]. rewrite Hw. by apply lookup_insert_ne.
Qed.

Lemma rebind_run w :
  table_keyed om_id (oidc w.(committed)) ->
  exists w', rebindSessionsToAccount from to clientId grantId w = (w', inr tt) /\
    forall i, oidc w'.(committed) !! i = rebind_row <$> oidc w.(committed) !! i.
Proof.
  intros K. set (l := select rebound (oidc w.(committed))).
  destruct (rebind_writes l w) as (w' & us & E & H). exists w'. split.
  { unfold rebindSessionsToAccount. erewrite bind_run by reflexivity. by erewrite bind_run by exact E. }
  assert (forall i s, s ∈ l -> om_id s = i -> oidc w.(committed) !! i = Some s /\ rebound s = true) as Hl.
  { intros i s [Hs [j Hj]]%elem_of_select Hi. split; [|done]. by rewrite <-Hi, (K j s Hj). }
  intros i. destruct (H i) as [(s & Hs & Hi & ->)|[Hn ->]].
  - destruct (Hl i s Hs Hi) as [-> Hr]. simpl. unfold rebind_row. by rewrite Hr.
  - destruct (oidc w.(committed) !! i) as [r|] eqn:Er; [|done]. simpl.
    unfold rebind_row. destruct (rebound r) eqn:Hr; [|done]. destruct (Hn r); [|by apply K].
    apply elem_of_select. eauto.
Qed.
End Rebind.

(** A session moved to the account: its column and its payload say so, and its
    authorization of the client names the grant. *)
Record session_moved (to clientId grantId : string) (r r' : OidcModel) : Prop := {
  sm_model : r'.(om_modelName) = r.(om_modelName) /\ r'.(om_oidcId) = r.(om_oidcId) /\ r'.(om_uid) = r.(om_uid);
  sm_account : r'.(om_accountId) = Some to;
  sm_payload : exists o, r'.(om_payload) = JObj o /\ payload_str "accountId" o = Some to;
  sm_grant o auths a : r.(om_payload) = JObj o -> assoc "authorizations" o = Some (JObj auths) ->
    assoc clientId auths = Some (JObj a) -> grantId ∈ extractGrantIds r'.(om_payload)
}.

Lemma rebind_payload_account to clientId grantId payload :
  payload_str "accountId" (rebind_payload to clientId grantId payload) = Some to.
Proof.
  unfold rebind_payload, payload_str. set (s := assoc_set "accountId" _ _).
  assert (assoc "accountId" s = Some (JStr to)) as Hs by apply assoc_set_eq.
  destruct (assoc "authorizations" s); [rewrite assoc_set_ne by done|]; by rewrite Hs.
Qed.

Lemma elem_of_insert_index n e l x : x ∈ (Encryption.insert_index n e l).*2 <-> x = e \/ x ∈ l.*2.
Proof.
  induction l as [|[m e'] l IH]; simpl; [set_solver|]. destruct (n <=? m); simpl; set_solver.
Qed.

Lemma elem_of_entries e o : e ∈ o -> e ∈ Encryption.object_entries o.
Proof.
  intros H. apply elem_of_app. destruct (Encryption.index_key e.1) as [n|] eqn:En.
  - left. induction H as [o|e x o H IH]; simpl.
    + rewrite En. apply elem_of_insert_index. by left.
    + destruct (Encryption.index_key x.1); [|by apply IH]. apply elem_of_insert_index. right. by apply IH.
  - right. apply list_elem_of_In, filter_In. rewrite En. split; [by apply list_elem_of_In|done].
Qed.

Lemma assoc_pair {A} k (v : A) o : assoc k o = Some v -> (k, v) ∈ o.
Proof.
  induction o as [|[k' v'] o IH]; [done|]. simpl. destruct (String.eqb_spec k k') as [->|]; [intros [= ->]; left|].
  intros H. right. by apply IH.
Qed.

Lemma rebind_moves to clientId grantId r : session_moved to clientId grantId r (rebind_session to clientId grantId r).
Proof.
  split; [done|done|eexists; split; [done|apply rebind_payload_account]|].
  intros o auths a Ho Ha Hc. simpl. unfold rebind_payload. rewrite Ho, assoc_set_ne, Ha by done.
  rewrite assoc_set_eq. unfold rebind_authorizations. rewrite Hc. simpl.
  apply list_elem_of_omap. exists (clientId, JObj (assoc_set "grantId" (JStr grantId) a)).
  split; [by apply elem_of_entries, assoc_pair, assoc_set_eq|]. simpl. unfold payload_str. by rewrite assoc_set_eq.
Qed.

(** ** Eligibility *)

(** The external identity behind a token: the member's while the membership is there,
    else the one the token carries. *)
Definition identity_of (d : DB) (auth : AccessContext) : option string :=
  match users d !! auth.(ac_auth).(au_sub) with
  | Some u => u.(tu_externalUserId)
  | None => auth.(ac_externalUserId)
  end.

(** The caller is a user, and [m] their active membership of the active tenant. *)
Record eligible (d : DB) (auth : AccessContext) (tenantId : string) (m : TenantUser) : Prop := {
  el_user : auth.(ac_auth).(au_tokenType) = user_token;
  el_member : exists i, users d !! i = Some m;
  el_tenant : m.(tu_tenantId) = tenantId;
  el_active : is_active_user m = true;
  el_identity : exists x, identity_of d auth = Some x /\ m.(tu_externalUserId) = Some x;
  el_open : exists t, find_tenant tenantId d.(db_tenants) = Some t /\ t.(tn_status) = TN_ACTIVE
}.

Lemma resolveExternalIdentity_run auth w :
  exists r, resolveExternalIdentity auth w = (w, r) /\
    forall c x, r = inr (c, x) -> identity_of w.(committed) auth = Some x.
Proof.
  unfold resolveExternalIdentity, user_findById, users_findById, mbind, prog_bind, catch, identity_of, users. simpl.
  destruct (ad_users _ !! _) as [u|]; simpl.
  - destruct (tu_externalUserId u) as [[|a x]|]; eexists; (split; [reflexivity|]); by intros c y [= <- <-].
  - destruct (ac_externalUserId auth) as [[|a x]|]; eexists; (split; [reflexivity|]); by intros c y [= <- <-].
Qed.

Lemma switch_target_run auth tenantId w :
  auth.(ac_auth).(au_tokenType) = user_token ->
  exists r, switch_target auth tenantId w = (w, r) /\ forall m, r = inr m -> eligible w.(committed) auth tenantId m.
Proof.
  intros Hu. unfold switch_target. destruct (resolveExternalIdentity_run auth w) as ([e|[c x]] & E & Hx).
  { exists (inl e). split; [by erewrite bind_throw|done]. }
  erewrite bind_run by exact E. cbv beta iota. erewrite bind_run by reflexivity. simpl view.
  destruct (find_one _ _) as [u|] eqn:Ef; [|by eexists].
  apply find_one_Some in Ef as [[Ht%String.eqb_eq Hi%bool_decide_eq_true]%andb_true_iff Hin].
  destruct (is_active_user u) eqn:Ea; [|by eexists].
  erewrite bind_run by reflexivity. simpl view.
  destruct (find_tenant tenantId _) as [t|] eqn:Et; [|eexists; split; [by erewrite bind_throw|done]].
  unfold of_sum, assertTenantActive. destruct (tn_status t) eqn:Es; try (eexists; split; [by erewrite bind_throw|done]).
  exists (inr u). split; [by erewrite bind_run|]. intros m [= <-].
  split; try done; [exists x; split; [by eapply Hx|done]|by exists t].
Qed.

(** ** The switch *)

Section Moves.
Context (provider : Provider) (config : OidcSettings) `{!ProviderLaws provider}.

(** The grant the switch issues: of the membership, with the scopes of its role in its
    tenant. *)
Definition membership_grant (d : DB) (clientId : string) (m : TenantUser) : GrantProps :=
  let scopes := default (default_scopes m.(tu_role) d) (override m.(tu_tenantId) m.(tu_role) d) in
  let resourceScope := String.concat " " scopes in
  mkGrantProps (Some clientId) m.(tu_id) (Some (String.concat " " (STANDARD_OIDC_SCOPES ++ scopes)))
    (if String.eqb resourceScope "" then [] else [(config.(oc_audience), resourceScope)]).

Lemma issueTokens_run clientId m w w' a t g :
  m.(tu_tenantId) <> "" ->
  issueTokensForMembership provider config clientId m w = (w', inr (a, t, g)) ->
  kept_but (fun _ => false) w w' /\
  exists i r, oidc w'.(committed) !! i = Some r /\ grant_record (membership_grant w.(committed) clientId m) g r.
Proof.
  intros Ht E. unfold issueTokensForMembership in E.
  apply bind_inr in E as (w1 & c & E1 & E). pose proof (pl_hasClient clientId w) as H1. rewrite E1 in H1. simpl in H1.
  destruct c; [|done]. simpl negb in E. cbv beta iota in E.
  apply bind_inr in E as (w1' & scopes & Es & E). injection Es as <- Es. cbv zeta in E.
  apply bind_inr in E as (w2 & g' & E2 & E). apply bind_inr in E as (w3 & a' & E3 & E).
  apply bind_inr in E as (w4 & t' & E4 & E). injection E as <- <- <- <-.
  apply pl_saveGrant in E2 as [K2 (i & r & Hr & Hg)].
  match type of E3 with pv_saveAccessToken _ ?p _ = _ => pose proof (pl_saveAccess p w2) as K3 end. rewrite E3 in K3. simpl in K3.
  match type of E4 with pv_saveRefreshToken _ ?p _ = _ => pose proof (pl_saveRefresh p w3) as K4 end. rewrite E4 in K4. simpl in K4.
  split.
  - eapply kept_trans; [by apply kept_same|]. eapply kept_trans; [exact K2|]. by eapply kept_trans.
  - exists i, r. split; [apply (kb_rows _ _ _ K4); [by apply (kb_rows _ _ _ K3)|done]|].
    assert (scopes = default (default_scopes m.(tu_role) w.(committed)) (override m.(tu_tenantId) m.(tu_role) w.(committed)))
      as Hs; [|unfold membership_grant; rewrite <-Hs; exact Hg].
    rewrite <-Es. simpl view. rewrite H1. by destruct (tu_tenantId m).
Qed.

(** What revoking the previous grant may remove: never a session, nor another grant. *)
Definition of_grant (g : string) (r : OidcModel) : bool :=
  (is_model "Grant" r && String.eqb r.(om_oidcId) g) ||
  ((is_model "AccessToken" r || is_model "RefreshToken" r) && bool_decide (r.(om_grantId) = Some g)).

Lemma revokeGrant_run g w w' : revokeGrant provider g w = (w', inr tt) -> kept_but (of_grant g) w w'.
Proof.
  intros E. unfold revokeGrant in E. apply bind_inr in E as (w1 & b & E1 & E).
  pose proof (pl_hasGrant g w) as H1. rewrite E1 in H1. simpl in H1.
  apply bind_inr in E as (w2 & [] & E2 & E). apply bind_inr in E as (w3 & [] & E3 & E).
  pose proof (pl_revoke "AccessToken" g w2) as K3. rewrite E3 in K3. simpl in K3.
  pose proof (pl_revoke "RefreshToken" g w3) as K4. rewrite E in K4. simpl in K4.
  assert (kept_but (of_grant g) w1 w2) as K2.
  { unfold prog_when in E2. destruct b; [|injection E2 as <-; by apply kept_same].
    pose proof (pl_destroy g w1) as K. rewrite E2 in K. simpl in K. eapply kept_weaken, K.
    intros r H. unfold of_grant. by rewrite H. }
  eapply kept_trans; [by apply kept_same|]. eapply kept_trans; [exact K2|].
  eapply kept_trans; (eapply kept_weaken; [|eassumption]); intros r [H1' H2]%andb_true_iff; unfold of_grant;
    rewrite H1', H2; by rewrite ?orb_true_r.
Qed.

(** What a switch leaves: nothing of the old account, its sessions on the new one, and
    the new grant. *)
Record switched (d d' : DB) (sub clientId : string) (m : TenantUser) (g : string) : Prop := {
  sd_gone i x : sub <> m.(tu_id) -> oidc d' !! i = Some x -> x.(om_accountId) = Some sub ->
    x.(om_modelName) ∉ ACCOUNT_BOUND_MODELS;
  sd_sessions i r : oidc d !! i = Some r -> r.(om_modelName) = SESSION_MODEL -> r.(om_accountId) = Some sub ->
    exists r', oidc d' !! i = Some r' /\ session_moved m.(tu_id) clientId g r r';
  sd_grant : exists i r, oidc d' !! i = Some r /\ grant_record (membership_grant d clientId m) g r
}.

(** A record of another account that hangs off no grant is not of this one. *)
Lemma not_bound sub other d r :
  r.(om_accountId) = Some other -> sub <> other -> r.(om_grantId) = None -> bound_to (String.eqb sub) d r = false.
Proof.
  intros Ha Hne Hg. unfold bound_to, under_grant. rewrite Ha, Hg, (proj2 (String.eqb_neq _ _) Hne), andb_false_r. done.
Qed.

Lemma audit_keeps_oidc t a rt ri w : oidc (audit_emit NoTx t a rt ri w).1.(committed) = oidc w.(committed).
Proof. unfold audit_emit, catch, send. by destruct (send_fate _ _). Qed.

(** From the grant being issued to the answer. *)
Lemma finish_switch d sub clientId m g w2 w3 w4 w5 w6 previous :
  kept_but (match previous with Some p => of_grant p | None => fun _ => false end) w2 w3 -> previous <> Some g ->
  rebindSessionsToAccount sub m.(tu_id) clientId g w3 = (w4, inr tt) ->
  prog_when (negb (String.eqb sub m.(tu_id))) (_ ← sessions_deleteAllForAccount sub NoTx; mret tt) w4 = (w5, inr tt) ->
  oidc w6.(committed) = oidc w5.(committed) ->
  table_keyed om_id (oidc w2.(committed)) ->
  (forall i r, oidc d !! i = Some r -> oidc w2.(committed) !! i = Some r) ->
  (forall i r, oidc d !! i = Some r -> r.(om_modelName) = SESSION_MODEL -> r.(om_grantId) = None) ->
  (exists i r, oidc w2.(committed) !! i = Some r /\ grant_record (membership_grant d clientId m) g r) ->
  switched d w6.(committed) sub clientId m g.
Proof.
  intros K3 Hp E4 E5 H6 K2 Hd Hs (ig & rg & Hrg & Hg).
  destruct (rebind_run sub m.(tu_id) clientId g w3 (kb_keyed _ _ _ K3 K2)) as (w4' & E4' & H4).
  rewrite E4 in E4'. injection E4' as <-.
  assert (forall i r, oidc w4.(committed) !! i = Some r ->
    (sub <> m.(tu_id) -> bound_to (String.eqb sub) w4.(committed) r = false) -> oidc w6.(committed) !! i = Some r) as Hkeep.
  { intros i r Hr Hb. rewrite H6. unfold prog_when in E5. destruct (String.eqb_spec sub m.(tu_id)) as [He|Hne];
      [by injection E5 as <-|]. simpl in E5. unfold sessions_deleteAllForAccount in E5.
    erewrite bind_run in E5 by apply delete_run. injection E5 as <-.
    apply (delete_lookup (bound_to (String.eqb sub))). split; [done|by apply Hb]. }
  split.
  - intros i x Hne Hx Ha Hm%mem_str_spec. rewrite H6 in Hx. unfold prog_when in E5.
    rewrite (proj2 (String.eqb_neq _ _) Hne) in E5. simpl in E5. unfold sessions_deleteAllForAccount in E5.
    erewrite bind_run in E5 by apply delete_run. injection E5 as <-.
    apply (delete_lookup (bound_to (String.eqb sub))) in Hx as [_ Hb]. unfold bound_to, bound_model in Hb.
    by rewrite Hm, Ha, String.eqb_refl in Hb.
  - intros i r Hr Hm Ha. exists (rebind_session m.(tu_id) clientId g r). split; [|apply rebind_moves].
    apply Hkeep; [|by intros Hne; apply (not_bound _ m.(tu_id)); [| |apply (Hs i r)]].
    rewrite H4, (kb_rows _ _ _ K3 i r (Hd i r Hr)).
    + simpl. unfold rebind_row, rebound, is_model, of_account. by rewrite Hm, Ha, String.eqb_refl, bool_decide_true.
    + destruct previous; [|done]. unfold of_grant, is_model. by rewrite Hm.
  - exists ig, rg. split; [|done]. destruct Hg as [Hm Hi Ha Hn _].
    apply Hkeep; [|by intros Hne; apply (not_bound _ m.(tu_id))].
    rewrite H4, (kb_rows _ _ _ K3 ig rg Hrg).
    + simpl. unfold rebind_row, rebound, is_model. by rewrite Hm.
    + destruct previous as [p|]; [|done]. unfold of_grant, is_model. rewrite Hm, Hi. simpl.
      rewrite orb_false_r. apply String.eqb_neq. congruence.
Qed.
End Moves.

(** C14: switching tenants.  A switch that is granted is for a user who is an active member,
    under the same external identity, of an active tenant; it leaves a grant of that
    membership with exactly the scopes its role has in that tenant, every browser session
    of the old account now belongs to the new one and renews under the new grant, and
    nothing else the old account signed in with is left.  For anyone else, and for machine
    clients, the switch is refused and no record changes. *)
Theorem tenant_switch_sound provider config auth tenantId w w' r :
  ProviderLaws provider ->
  table_keyed om_id (oidc w.(committed)) ->
  (forall i x, oidc w.(committed) !! i = Some x -> x.(om_modelName) = SESSION_MODEL -> x.(om_grantId) = None) ->
  tenantId <> "" ->
  switchTenant provider config auth tenantId w = (w', r) ->
  ((forall m, ~ eligible w.(committed) auth tenantId m) -> w'.(committed) = w.(committed) /\ exists e, r = inl e) /\
  (forall response, r = inr response -> exists m clientId g, eligible w.(committed) auth tenantId m /\
     auth.(ac_clientId) = Some clientId /\
     switched config w.(committed) w'.(committed) auth.(ac_auth).(au_sub) clientId m g).
Proof.
  intros HL K Hs Ht E. unfold switchTenant, assertUserToken in E.
  destruct (au_tokenType (ac_auth auth)) eqn:Eu.
  2: { injection E as <- <-. split; [eauto|done]. }
  erewrite bind_run in E by reflexivity. cbv beta in E.
  destruct (ac_clientId auth) as [[|c0 c]|] eqn:Ec; try (injection E as <- <-; split; [eauto|done]).
  destruct (switch_target_run auth tenantId w Eu) as ([e|m] & Et & Hm).
  { erewrite bind_throw in E by exact Et. injection E as <- <-. split; [eauto|done]. }
  specialize (Hm m eq_refl). erewrite bind_run in E by exact Et. cbv beta in E.
  split; [intros Hn; by destruct (Hn m)|]. intros response ->.
  apply bind_inr in E as (w1 & previous & E1 & E).
  assert (w1.(committed) = w.(committed)) as H1.
  { destruct (ac_jti auth) as [[|a j]|]; try (by injection E1 as <- _).
    pose proof (pl_tokenGrant (String a j) w) as H. by rewrite E1 in H. }
  apply bind_inr in E as (w2 & [[a t] g] & E2 & E). cbv beta iota in E.
  apply issueTokens_run in E2 as [K2 Hg]; [|done|by rewrite (el_tenant _ _ _ _ Hm)]. rewrite H1 in Hg.
  apply bind_inr in E as (w3 & [] & E3 & E). cbv beta zeta in E.
  apply bind_inr in E as (w4 & [] & E4 & E). apply bind_inr in E as (w5 & [] & E5 & E).
  apply bind_inr in E as (w6 & [] & E6 & E). injection E as <- _.
  exists m, (String c0 c), g. split_and!; [done|done|].
  set (revoked := match previous with
                  | Some ((String _ _) as p) => if String.eqb p g then None else Some p
                  | _ => None
                  end).
  eapply (finish_switch config _ _ _ m g w2 w3 w4 w5 w6 revoked); [| |exact E4|exact E5| | | |exact Hs|exact Hg].
  - unfold revoked. destruct previous as [[|p0 p]|]; try (injection E3 as <-; by apply kept_same).
    unfold prog_when in E3. destruct (String.eqb_spec (String p0 p) g); [injection E3 as <-; by apply kept_same|].
    by eapply revokeGrant_run.
  - unfold revoked. destruct previous as [[|p0 p]|]; try done.
    destruct (String.eqb_spec (String p0 p) g); [done|]. congruence.
  - pose proof (audit_keeps_oidc m.(tu_tenantId) "token_grant" "oidc_grant" g w5) as H. by rewrite E6 in H.
  - apply (kb_keyed _ _ _ K2). by rewrite H1.
  - intros i x Hx. apply (kb_rows _ _ _ K2); [by rewrite H1|done].
Qed.

(** ** A concrete provider and switch *)

Definition grant_row (props : GrantProps) (g : string) : OidcModel :=
  mkOidcModel g "Grant" g
    (JObj [("resources", JObj ((fun p => (p.1, JStr p.2)) <$> props.(gp_resources)))])
    None None None (Some props.(gp_accountId)) None None 0.

(** Grants under fresh identifiers; tokens that are not stored. *)
Definition sample_provider : Provider :=
  mkProvider (fun _ => mret None) (fun _ => mret true)
    (fun props => g ← read NoTx (fun d => fresh (dom (oidc d))); _ ← write_oidc g (grant_row props g); mret g)
    (fun _ => mret "at") (fun _ => mret "rt") (fun _ => mret true)
    (fun g => _ ← delete_where NoTx (fun _ r => is_model "Grant" r && String.eqb r.(om_oidcId) g); mret tt)
    oidc_revokeByGrantId.

Lemma kept_delete (P : OidcModel -> bool) w :
  kept_but P w ((delete_where NoTx (fun _ => P) ≫= fun _ => (mret tt : Prog unit)) w).1.
Proof.
  erewrite bind_run by apply delete_run. split.
  - intros i r Hr HP. by apply (delete_lookup (fun _ => P)).
  - intros K i r [Hr _]%(delete_lookup (fun _ => P)). by apply K.
Qed.

#[export] Instance sample_provider_laws : ProviderLaws sample_provider.
Proof.
  split; try done.
  - intros props w w' g E. simpl in E. erewrite bind_run in E by reflexivity. cbv beta in E.
    set (f := fresh _) in E. erewrite bind_run in E by reflexivity. injection E as <- <-.
    assert (oidc w.(committed) !! f = None) as Hf by apply not_elem_of_dom, is_fresh. split.
    + split.
      * intros i r Hr _. unfold oidc in *. simpl. rewrite lookup_insert_ne; [done|congruence].
      * intros K i r. unfold oidc in *. simpl. intros [[<- <-]|[_ Hr]]%lookup_insert_Some; [done|by apply K].
    + exists f, (grant_row props f). split; [apply lookup_insert_eq|]. split; try done.
      intros _. by eexists.
  - intros g w. apply kept_delete.
  - intros model g w. apply kept_delete.
Qed.

Definition switch_user (id tenantId : string) : TenantUser :=
  mkTenantUser id tenantId (Some "x") "u@example.org" None ADMIN TU_ACTIVE false 0 0.

(** A user of two tenants, signed in to the first. *)
Definition switch_db : DB :=
  set_oidc {[ "s" := mkOidcModel "s" "Session" "s"
                (JObj [("accountId", JStr "m1"); ("authorizations", JObj [("ui", JObj [("grantId", JStr "g1")])])])
                None None (Some "uid") (Some "m1") None None 0;
              "g1" := mkOidcModel "g1" "Grant" "g1" (JObj []) None None None (Some "m1") None None 0;
              "a1" := mkOidcModel "a1" "AccessToken" "a1" (JObj []) (Some "g1") None None (Some "m1") None None 0 ]}
    (set_users {[ "m1" := switch_user "m1" "t1"; "m2" := switch_user "m2" "t2" ]}
       (set_tenants {[ "t1" := sample_tenant "t1" None; "t2" := sample_tenant "t2" None ]} empty_db)).

Definition switch_auth : AccessContext :=
  mkAccess (mkAuth "m1" user_token (Some "t1") ["admin"] []) (Some "x") (Some "ui") "" "https://issuer"
    (JStr "https://api") (num_of_Z 10) (num_of_Z 0) (Some "a1").

Lemma tenant_switch_sound_witness :
  let run := switchTenant sample_provider (mkSettings "https://api" 300) switch_auth "t2" (world_of switch_db 0) in
  run.2 = inr (mkSwitch "at" "rt" "Bearer" 300) /\
  exists m g r, eligible switch_db switch_auth "t2" m /\ oidc run.1.(committed) !! "s" = Some r /\
    session_moved m.(tu_id) "ui" g (mkOidcModel "s" "Session" "s"
      (JObj [("accountId", JStr "m1"); ("authorizations", JObj [("ui", JObj [("grantId", JStr "g1")])])])
      None None (Some "uid") (Some "m1") None None 0) r.
Proof.
  intros run. assert (run.2 = inr (mkSwitch "at" "rt" "Bearer" 300)) as E by (vm_compute; reflexivity).
  split; [exact E|].
  assert (forall i r, oidc switch_db !! i = Some r -> om_id r = i /\ (om_modelName r = SESSION_MODEL -> om_grantId r = None)) as Hrows.
  { intros i r H%elem_of_map_to_list. revert i r H.
    assert (Forall (fun kv => kv.2.(om_id) = kv.1 /\ (kv.2.(om_modelName) = SESSION_MODEL -> kv.2.(om_grantId) = None))
              (map_to_list (oidc switch_db))) as HF by (vm_compute; repeat constructor; done).
    rewrite Forall_forall in HF. intros i r. apply (HF (i, r)). }
  destruct (tenant_switch_sound sample_provider (mkSettings "https://api" 300) switch_auth "t2" (world_of switch_db 0) run.1 run.2)
    as [_ H].
  - apply _.
  - intros i r Hr. by apply Hrows.
  - intros i r Hr. by apply (Hrows i r Hr).
  - done.
  - apply surjective_pairing.
  - destruct (H _ E) as (m & c & g & Hm & [= <-] & [_ Hs _]).
    destruct (Hs "s" _ ltac:(vm_compute; reflexivity) eq_refl eq_refl) as (r & Hr & Hmv).
    exists m, g, r. exact (conj Hm (conj Hr Hmv)).
Defined.
