(* ===== verification/TokenIssuance.v ===== *)
(** * What goes into a token

    Of libs/oidc/src/oidc-provider.service.ts: the hooks oidc-provider calls when it
    issues tokens (the extra claims, the scope of the signed token, the resource server
    and the lifetime of refresh tokens) and when it looks an account up; and the
    read-only adapter of clients (adapters/oidc-client.adapter.ts). *)

From Stdlib Require Import Ascii ZArith Lia.
From stdpp Require Import base decidable strings sets gmap list list_relations.
From S2P Require Import Prelude Js OperationTtl JsText Entities StateMapping Db TenantRepository OidcSessions.
From S2P Require Import Auth TenantUserService OAuthClient RoleScope LogAccess TokenValidation.

Local Open Scope Z_scope.

(** ** Configuration *)

(** Of OidcConfig: the server's audience, the other ones it serves and the scopes it
    knows. *)
Record IssuerConfig := mkIssuerConfig {
  ig_audience : string;
  ig_additionalAudiences : list string;
  ig_scopes : list string;
  ig_refreshTokenTtlSeconds : Z
}.

Definition OIDC_PROTOCOL_SCOPES : list string := ["openid"; "offline_access"].

(** The scopes of [claims] in the configuration. *)
Definition CLAIM_SCOPES : list string := ["openid"; "profile"; "email"; "tenant"].

Definition identityScopes : list string := OIDC_PROTOCOL_SCOPES ++ CLAIM_SCOPES.

(** ** Refresh tokens *)

(** A client as the hook sees it: its own lifetime and how it authenticates. *)
Record RefreshTokenTtlClient := mkTtlClient {
  rc_refresh_token_ttl_seconds : option Z;
  rc_clientAuthMethod : option string
}.

(** [rotated] is what is left of the token being replaced, in seconds. *)
Definition resolveRefreshTokenTtl (defaultTtlSeconds : Z) (client : option RefreshTokenTtlClient) (rotated : option Z)
    : Z :=
  let ttlSeconds := match client ≫= rc_refresh_token_ttl_seconds with
                    | Some n => if 0 <? n then n else defaultTtlSeconds
                    | None => defaultTtlSeconds
                    end in
  match rotated with
  | Some remaining =>
      if bool_decide (client ≫= rc_clientAuthMethod = Some "none") then Z.min ttlSeconds remaining else ttlSeconds
  | None => ttlSeconds
  end.

(** ** Clients *)

(** OidcClientAdapter.toClientMetadata: what matters to the hooks is the tenant, the
    roles, the way the client authenticates and its lifetime of refresh tokens. *)
Definition toClientMetadata (c : OAuthClient) : list (string * json) :=
  [("client_id", JStr c.(oc_clientId)); ("client_name", JStr c.(oc_name)); ("tenant_id", JStr c.(oc_tenantId));
   ("roles", JArr (JStr <$> c.(oc_roles))); ("redirect_uris", JArr (JStr <$> c.(oc_redirectUris)));
   ("post_logout_redirect_uris", JArr (JStr <$> c.(oc_postLogoutRedirectUris)));
   ("grant_types", JArr (JStr <$> c.(oc_grantTypes)));
   ("response_types", JArr (if mem_str "authorization_code" c.(oc_grantTypes) then [JStr "code"] else []));
   ("scope", JStr (String.concat " " c.(oc_scopes)))] ++
  (if c.(oc_isPublic) then [("token_endpoint_auth_method", JStr "none")]
   else let hash := match c.(oc_clientSecretHash) with Some h => JStr h | None => JNull end in
        [("client_secret", hash); ("client_secret_hash", hash);
         ("token_endpoint_auth_method", JStr "client_secret_basic")]) ++
  match c.(oc_refreshTokenTtlSeconds) with
  | Some n => [("refresh_token_ttl_seconds", JNum (num_of_Z n))]
  | None => []
  end.

Definition clientAdapter_find (id : string) : Prog (option (list (string * json))) :=
  client ← findActiveClient id;
  mret (toClientMetadata <$> client).

Definition clientAdapter_upsert : Prog unit :=
  throw (JsError "Dynamic client registration is not supported; manage OAuth clients via the OAuthClient API.").
Definition clientAdapter_destroy : Prog unit :=
  throw (JsError "Destroying OAuth clients via oidc-provider is not supported; use the OAuthClient API.").

(** The comparator of secrets: [verify] of argon2. *)
Definition compareClientSecret (verify : string -> string -> bool) (hash : option string) (actual : string) : bool :=
  match hash with
  | Some ((String _ _) as h) => verify h actual
  | _ => false
  end.

(** ** Claims *)

(** The client of a token: its tenant and roles. *)
Record ClientExtraMetadata := mkExtraMetadata {
  xm_tenant_id : option string;
  xm_roles : option (list string)
}.

Definition user_claims (u : TenantUser) : list (string * json) :=
  [("tenant_id", JStr u.(tu_tenantId)); ("tenant_role", JStr (role_str u.(tu_role)))] ++
  match u.(tu_externalUserId) with
  | Some ((String _ _) as x) => [("external_user_id", JStr x)]
  | _ => []
  end ++
  [("roles", JArr (JStr <$> (if u.(tu_isPlatformOperator) then [role_str u.(tu_role); PLATFORM_ADMIN_ROLE]
                             else [role_str u.(tu_role)])))].

(** [undefined] is [None]. *)
Definition extraTokenClaims (accountId : option string) (client : option ClientExtraMetadata)
    : Prog (option (list (string * json))) :=
  match accountId with
  | Some ((String _ _) as a) =>
      user ← adapter_findById a;
      mret (match user with
            | Some u => if is_active_user u then Some (user_claims u) else None
            | None => None
            end)
  | _ =>
      mret (match client ≫= xm_tenant_id with
            | Some ((String _ _) as t) =>
                Some (("tenant_id", JStr t) ::
                      match client ≫= xm_roles with
                      | Some ((_ :: _) as roles) => [("roles", JArr (JStr <$> roles))]
                      | _ => []
                      end)
            | _ => None
            end)
  end.

Definition findAccount (accountId : string) : Prog (option (list (string * json))) :=
  user ← adapter_findById accountId;
  mret (match user with
        | Some u =>
            if is_active_user u then
              Some ([("sub", JStr u.(tu_id)); ("email", JStr u.(tu_email))] ++
                    match u.(tu_displayName) with Some n => [("name", JStr n)] | None => [("name", JNull)] end ++
                    [("tenant_id", JStr u.(tu_tenantId)); ("tenant_role", JStr (role_str u.(tu_role)))])
            else None
        | None => None
        end).

(** ** Scopes *)

Definition role_of_str (s : string) : option TenantUserRole :=
  List.find (fun r => String.eqb (role_str r) s) [OWNER; ADMIN; MEMBER; READONLY].

(** The query casts the role to the enumeration of the database. *)
Definition scopes_for (role : string) (tenantId : string) : Prog (list string) :=
  match role_of_str role with
  | Some r => roleScopes_findScopesForRole r (Some tenantId) NoTx
  | None => throw (QueryFailed "22P02" "")
  end.

Section Issuing.
Context (config : IssuerConfig).

(** [None] leaves the scope of the token as it is. *)
Definition resolveUserAccessTokenScope (accountId : option string) (payload : list (string * json))
    : Prog (option string) :=
  match accountId with
  | Some (String _ _) =>
      roleScopes ← (match assoc "tenant_role" payload, assoc "tenant_id" payload with
                    | Some (JStr role), Some (JStr tenantId) => scopes_for role tenantId
                    | _, _ => mret []
                    end);
      let granted := match assoc "scope" payload with Some (JStr s) => words "" s | _ => [] end in
      let scopes := js_set (List.filter (fun s => mem_str s identityScopes) granted ++
                            List.filter (fun s => mem_str s config.(ig_scopes)) roleScopes) in
      let unchanged := (length scopes =? length granted)%nat && forallb (fun s => mem_str s scopes) granted in
      mret (if unchanged then None else Some (String.concat " " scopes))
  | _ => mret None
  end.

(** The customizer of signed access tokens: an empty scope is no claim. *)
Definition customize_jwt (accountId : option string) (payload : list (string * json)) : Prog (list (string * json)) :=
  scope ← resolveUserAccessTokenScope accountId payload;
  mret (match scope with
        | None => payload
        | Some EmptyString => List.filter (fun e => negb (String.eqb e.1 "scope")) payload
        | Some s => assoc_set "scope" (JStr s) payload
        end).

(** The claims of an access token, from those of oidc-provider: the extra ones are
    stamped, then the customizer runs. *)
Definition stamp (extra : option (list (string * json))) (payload : list (string * json)) : list (string * json) :=
  fold_left (fun p e => assoc_set e.1 e.2 p) (default [] extra) payload.

Definition signed_claims (accountId : option string) (client : option ClientExtraMetadata)
    (payload : list (string * json)) : Prog (list (string * json)) :=
  extra ← extraTokenClaims accountId client;
  customize_jwt accountId (stamp extra payload).

(** ** Resources *)

Definition defaultResource (oneOf : option (list string)) : option string :=
  match oneOf with
  | None => Some config.(ig_audience)
  | Some l => if mem_str config.(ig_audience) l then Some config.(ig_audience) else head l
  end.

(** The scope of a resource the server issues tokens for; others are refused. *)
Definition getResourceServerInfo (resourceIndicator : string) : string + string :=
  if mem_str resourceIndicator (config.(ig_audience) :: config.(ig_additionalAudiences))
  then inr (String.concat " " config.(ig_scopes))
  else inl ("unsupported resource indicator: " +:+ resourceIndicator).
End Issuing.

(** ** Words *)

Definition word (s : string) : Prop := s <> "" /\ forall c, c ∈ String.list_ascii_of_string s -> is_js_space c = false.

Lemma words_run acc s rest :
  (forall c, c ∈ String.list_ascii_of_string s -> is_js_space c = false) -> words acc (s +:+ rest) = words (acc +:+ s) rest.
Proof.
  revert acc. induction s as [|c s IH]; intros acc Hs.
  { change ("" +:+ rest) with rest. f_equal. induction acc as [|x a IH]; [done|]. exact (f_equal (String x) IH). }
  change (String c s +:+ rest) with (String c (s +:+ rest)). cbn [words].
  rewrite (Hs c) by (by left). rewrite IH by (intros; apply Hs; by right). by rewrite assoc_string_app.
Qed.

Lemma words_join l : Forall word l -> words "" (String.concat " " l) = l.
Proof.
  induction l as [|s l IH]; intros H; [done|]. apply Forall_cons in H as [[Hne Hs] Hl]. specialize (IH Hl).
  assert (String.eqb s "" = false) as He by (by apply String.eqb_neq). destruct l as [|t l].
  - change (String.concat " " [s]) with s. rewrite <-(string_app_nil s) at 1. rewrite words_run by done.
    change ("" +:+ s) with s. cbn [words]. by rewrite He.
  - change (String.concat " " (s :: t :: l)) with (s +:+ String " " (String.concat " " (t :: l))).
    rewrite words_run by done. change ("" +:+ s) with s. cbn [words].
    change (is_js_space " ") with true. cbv iota. by rewrite He, IH.
Qed.

Lemma words_word acc s :
  (forall c, c ∈ String.list_ascii_of_string acc -> is_js_space c = false) -> Forall word (words acc s).
Proof.
  revert acc. induction s as [|c s IH]; intros acc Ha; cbn [words].
  { destruct (String.eqb_spec acc "") as [|Hne]; [constructor|]. by repeat constructor. }
  destruct (is_js_space c) eqn:Ec.
  - assert (Forall word (words "" s)) as Hw by (apply IH; by intros x ?%not_elem_of_nil).
    destruct (String.eqb_spec acc ""); [done|]. by constructor.
  - apply IH. intros x. rewrite list_ascii_app, elem_of_app. intros [H|H]; [by apply Ha|].
    apply list_elem_of_singleton in H as ->. exact Ec.
Qed.

(** ** Sets *)

Lemma js_set_nodup_acc l acc :
  NoDup acc -> NoDup (fold_left (fun acc x => if mem_str x acc then acc else acc ++ [x]) l acc).
Proof.
  revert acc. induction l as [|y l IH]; intros acc Ha; [done|]. simpl. apply IH.
  destruct (mem_str y acc) eqn:E; [done|]. apply mem_str_false in E. apply NoDup_app.
  split_and!; [done|set_solver|apply NoDup_singleton].
Qed.

(** Lists without repetition, one within the other and as long, hold the same. *)
Lemma same_length_elems (l k : list string) x :
  NoDup l -> (forall y, y ∈ l -> y ∈ k) -> length k = length l -> x ∈ k -> x ∈ l.
Proof.
  intros Hl Hlk Hlen. assert (l ≡ₚ k) as ->; [|done].
  apply submseteq_length_Permutation; [by apply NoDup_submseteq|lia].
Qed.

(** ** The scope of a signed token *)

Definition granted_of (payload : list (string * json)) : list string :=
  match assoc "scope" payload with Some (JStr s) => words "" s | _ => [] end.

(** What the guard reads in the claims. *)
Definition carried (claims : list (string * json)) : list string := words "" (readScope (assoc "scope" claims)).

Definition scopes_of_role (u : TenantUser) (d : DB) : list string :=
  default (default_scopes u.(tu_role) d) (override u.(tu_tenantId) u.(tu_role) d).

Section Scope.
Context (config : IssuerConfig).

Lemma assoc_filter_out {A} k (o : list (string * A)) : assoc k (List.filter (fun e => negb (String.eqb e.1 k)) o) = None.
Proof.
  induction o as [|[k' v] o IH]; [done|]. simpl. destruct (String.eqb_spec k' k) as [|Hne]; simpl; [done|].
  rewrite (proj2 (String.eqb_neq k k')); [done|congruence].
Qed.

Lemma assoc_filter_other {A} k k' (o : list (string * A)) :
  k <> k' -> assoc k (List.filter (fun e => negb (String.eqb e.1 k')) o) = assoc k o.
Proof.
  intros Hne. induction o as [|[x v] o IH]; [done|]. simpl. destruct (String.eqb_spec x k') as [->|]; simpl.
  - by rewrite (proj2 (String.eqb_neq k k')).
  - by rewrite IH.
Qed.

(** The customizer, given the scopes of the role: no other claim changes, nothing is
    carried but the identity scopes granted and the allowed scopes of the role, and, of a
    grant without repetitions, all of them are. *)
Lemma customize_spec a payload roleScopes w w' claims :
  a <> "" -> Forall word roleScopes ->
  (match assoc "tenant_role" payload, assoc "tenant_id" payload with
   | Some (JStr role), Some (JStr tenantId) => scopes_for role tenantId
   | _, _ => mret []
   end) w = (w, inr roleScopes) ->
  (forall l, assoc "scope" payload <> Some (JArr l)) ->
  customize_jwt config (Some a) payload w = (w', inr claims) ->
  w' = w /\ (forall k, k <> "scope" -> assoc k claims = assoc k payload) /\
  let due s := (s ∈ granted_of payload /\ s ∈ identityScopes) \/ (s ∈ roleScopes /\ s ∈ config.(ig_scopes)) in
  (forall s, s ∈ carried claims -> due s) /\ (NoDup (granted_of payload) -> forall s, due s -> s ∈ carried claims).
Proof.
  intros Ha Hw Hr Hnarr E. unfold customize_jwt in E. apply bind_inr in E as (w1 & scope & E1 & E).
  unfold resolveUserAccessTokenScope in E1. destruct a as [|c a]; [done|].
  apply bind_inr in E1 as (w2 & rs & Ers & E1). rewrite Hr in Ers. injection Ers as <- <-. cbv zeta in E1.
  fold (granted_of payload) in E1. set (granted := granted_of payload) in *.
  set (scopes := js_set _) in E1. injection E1 as <- Hscope.
  assert (forall s, s ∈ scopes <-> (s ∈ granted /\ s ∈ identityScopes) \/ (s ∈ roleScopes /\ s ∈ config.(ig_scopes))) as Hs.
  { intros s. unfold scopes. rewrite js_set_elem, elem_of_app, !list_elem_of_In, !filter_In, <-!list_elem_of_In, !mem_str_spec.
    done. }
  assert (Forall word scopes) as Hsw.
  { apply Forall_forall. intros s [[Hg _]|[Hg _]]%Hs; [|by eapply Forall_forall].
    unfold granted, granted_of in Hg. destruct (assoc "scope" payload) as [[]|]; try by apply elem_of_nil in Hg.
    eapply Forall_forall; [|exact Hg]. apply words_word. by intros x ?%not_elem_of_nil. }
  destruct ((length scopes =? length granted)%nat && forallb (fun s => mem_str s scopes) granted) eqn:Eu.
  - subst scope. injection E as <- <-. split; [done|]. split; [done|].
    assert (carried payload = granted) as ->.
    { unfold carried, granted, granted_of, readScope. destruct (assoc "scope" payload) as [[]|] eqn:Ep; try done.
      by destruct (Hnarr l). }
    apply andb_true_iff in Eu as [Hlen%Nat.eqb_eq Hall]. rewrite forallb_forall in Hall.
    assert (forall s, s ∈ granted -> s ∈ scopes) as Hsub.
    { intros s H%list_elem_of_In. by apply mem_str_spec, Hall. }
    split; [intros s H; by apply Hs, Hsub|]. intros Hnd s H%Hs. by eapply same_length_elems.
  - subst scope. assert (exists claims', claims = claims' /\ w' = w /\ carried claims = scopes /\
      forall k, k <> "scope" -> assoc k claims = assoc k payload) as (? & <- & -> & Hc & Hk).
    { destruct (String.concat " " scopes) as [|x t] eqn:Ec; injection E as <- <-; eexists; split_and!; try done.
      - unfold carried. rewrite assoc_filter_out. rewrite <-(words_join scopes Hsw), Ec. done.
      - intros k Hk. by apply assoc_filter_other.
      - unfold carried. rewrite assoc_set_eq. cbn [readScope]. by rewrite <-Ec, words_join.
      - intros k Hk. by apply assoc_set_ne. }
    split; [done|]. split; [done|]. rewrite Hc. split; [|intros _]; intros s; by rewrite Hs.
Qed.
End Scope.

(** ** Stamped claims *)

Lemma assoc_stamp extra payload k :
  NoDup (default [] extra).*1 ->
  assoc k (stamp extra payload) = match assoc k (default [] extra) with Some v => Some v | None => assoc k payload end.
Proof.
  unfold stamp. generalize (default [] extra). intros l. clear extra. revert payload.
  induction l as [|[x v] l IH]; intros payload Hnd; [done|]. apply NoDup_cons in Hnd as [Hx Hl]. simpl. rewrite IH by done.
  destruct (String.eqb_spec k x) as [->|Hne].
  - destruct (assoc x l) as [v'|] eqn:E; [|apply assoc_set_eq].
    destruct Hx. apply list_elem_of_fmap. exists (x, v'). split; [done|].
    clear -E. induction l as [|[y z] l IH]; [done|]. simpl in E.
    destruct (String.eqb_spec x y) as [->|]; [injection E as ->; left|right; by apply IH].
  - destruct (assoc k l); [done|by apply assoc_set_ne].
Qed.

Lemma user_claims_keys u : NoDup (user_claims u).*1.
Proof. unfold user_claims. by destruct (tu_externalUserId u) as [[|]|]; repeat (constructor; [set_solver|]); constructor. Qed.

Lemma user_claims_at u :
  assoc "tenant_id" (user_claims u) = Some (JStr u.(tu_tenantId)) /\
  assoc "tenant_role" (user_claims u) = Some (JStr (role_str u.(tu_role))) /\
  assoc "scope" (user_claims u) = None /\
  role_isPlatformAdmin (readRoles (assoc "roles" (user_claims u))) = u.(tu_isPlatformOperator).
Proof.
  unfold user_claims. destruct (tu_externalUserId u) as [[|]|], (tu_isPlatformOperator u), (tu_role u); by vm_compute.
Qed.

Lemma extraTokenClaims_run a client w :
  a <> "" ->
  extraTokenClaims (Some a) client w =
  (w, inr (match users w.(committed) !! a with
           | Some u => if is_active_user u then Some (user_claims u) else None
           | None => None
           end)).
Proof.
  intros Ha. destruct a as [|c a]; [done|].
  unfold extraTokenClaims, adapter_findById, user_findById, users_findById, mbind, prog_bind, catch. simpl.
  unfold users. by destruct (ad_users _ !! _).
Qed.

Lemma scopes_for_role u w :
  u.(tu_tenantId) <> "" ->
  scopes_for (role_str u.(tu_role)) u.(tu_tenantId) w = (w, inr (scopes_of_role u w.(committed))).
Proof.
  intros Ht. unfold scopes_for, scopes_of_role, roleScopes_findScopesForRole, read.
  replace (role_of_str (role_str (tu_role u))) with (Some (tu_role u)) by (by destruct (tu_role u)).
  destruct (tu_tenantId u) as [|c t]; [done|]. done.
Qed.

(** C16: the scopes of a user's token follow the role.  Whatever was granted, the access
    token signed for an active member carries no scope but the identity scopes of the
    grant and those of the member's role, in their tenant, that the server knows, and it
    carries all of these when the grant lists no scope twice; it names that tenant, and the
    platform role exactly when the member is a platform operator.  A token for anyone else
    carries at most identity scopes and names no tenant. *)
Theorem token_scopes_follow_role config a client payload w w' claims :
  a <> "" ->
  (forall u, users w.(committed) !! a = Some u ->
     u.(tu_tenantId) <> "" /\ Forall word (scopes_of_role u w.(committed))) ->
  assoc "tenant_id" payload = None -> (forall l, assoc "scope" payload <> Some (JArr l)) ->
  signed_claims config (Some a) client payload w = (w', inr claims) ->
  let api s := match users w.(committed) !! a with
               | Some u => is_active_user u = true /\ s ∈ scopes_of_role u w.(committed) /\ s ∈ config.(ig_scopes)
               | None => False
               end in
  let due s := (s ∈ granted_of payload /\ s ∈ identityScopes) \/ api s in
  w' = w /\
  (forall s, s ∈ carried claims -> due s) /\
  (NoDup (granted_of payload) -> forall s, due s -> s ∈ carried claims) /\
  match users w.(committed) !! a with
  | Some u =>
      if is_active_user u
      then assoc "tenant_id" claims = Some (JStr u.(tu_tenantId)) /\
           role_isPlatformAdmin (readRoles (assoc "roles" claims)) = u.(tu_isPlatformOperator)
      else assoc "tenant_id" claims = None
  | None => assoc "tenant_id" claims = None
  end.
Proof.
  intros Ha Hu Ht Hnarr E api due. unfold signed_claims in E.
  erewrite bind_run in E by by apply extraTokenClaims_run.
  assert (stamp None payload = payload) as Hnone by done.
  destruct (users w.(committed) !! a) as [u|] eqn:Eu; [destruct (is_active_user u) eqn:Ea|].
  - destruct (Hu u eq_refl) as [Htn Hw]. destruct (user_claims_at u) as (H1 & H2 & H3 & H4).
    assert (forall k, assoc k (stamp (Some (user_claims u)) payload) =
      match assoc k (user_claims u) with Some v => Some v | None => assoc k payload end) as Hst
      by (intros k; apply assoc_stamp, user_claims_keys).
    assert (granted_of (stamp (Some (user_claims u)) payload) = granted_of payload) as Hg
      by (unfold granted_of; by rewrite Hst, H3).
    eapply customize_spec in E as (-> & Hk & Hle & Hge); [|done|exact Hw| |].
    + rewrite Hg in *. split; [done|]. split_and!.
      * intros s [H|H]%Hle; [by left|right]. unfold api. rewrite ?Eu. tauto.
      * intros Hnd s [H|H]; apply Hge; [done|by left|done|]. right. unfold api in H. rewrite ?Eu in H. tauto.
      * rewrite Hk, Hst, H1 by done. done.
      * rewrite Hk, Hst by done. destruct (assoc "roles" (user_claims u)) as [v|] eqn:Er; [exact H4|].
        exfalso. clear -Er. unfold user_claims in Er. by destruct (tu_externalUserId u) as [[|]|].
    + rewrite !Hst, H1, H2. by apply scopes_for_role.
    + intros l. rewrite Hst, H3. apply Hnarr.
  - eapply (customize_spec config a payload []) in E as (-> & Hk & Hle & Hge); [|done|constructor| |done].
    + split; [done|]. split_and!; [| |by rewrite Hk].
      * intros s [H|[H _]]%Hle; [by left|by apply elem_of_nil in H].
      * intros Hnd s [H|H]; apply Hge; [done|by left|done|]. unfold api in H. rewrite ?Eu, ?Ea in H. by destruct H.
    + rewrite Ht. by destruct (assoc "tenant_role" payload) as [[]|].
  - eapply (customize_spec config a payload []) in E as (-> & Hk & Hle & Hge); [|done|constructor| |done].
    + split; [done|]. split_and!; [| |by rewrite Hk].
      * intros s [H|[H _]]%Hle; [by left|by apply elem_of_nil in H].
      * intros Hnd s [H|H]; apply Hge; [done|by left|done|]. unfold api in H. by rewrite ?Eu in H.
    + rewrite Ht. by destruct (assoc "tenant_role" payload) as [[]|].
Qed.

(** A member whose role may offer and verify. *)
Definition issuance_db : DB :=
  set_admin (mkAdmin {[ "m" := mkTenantUser "m" "t" (Some "x") "m@x" None MEMBER TU_ACTIVE false 0 0 ]} ∅
               {[ "member" := ["credentials:offer"; "credentials:verify"] ]} ∅ ∅ ∅ ∅) empty_db.

Definition issuance_config : IssuerConfig :=
  mkIssuerConfig "https://api" [] ["openid"; "credentials:offer"; "tenants:admin"] 3600.

(** The grant asked for the scope of an administrator. *)
Definition issuance_payload : list (string * json) :=
  [("sub", JStr "m"); ("scope", JStr "openid tenants:admin")].

Lemma token_scopes_follow_role_witness :
  let run := signed_claims issuance_config (Some "m") None issuance_payload (world_of issuance_db 0) in
  exists claims, run.2 = inr claims /\ carried claims = ["openid"; "credentials:offer"] /\
    assoc "tenant_id" claims = Some (JStr "t") /\
    (forall s, s ∈ carried claims -> (s ∈ ["openid"; "tenants:admin"] /\ s ∈ identityScopes) \/
       (s ∈ ["credentials:offer"; "credentials:verify"] /\ s ∈ issuance_config.(ig_scopes))).
Proof.
  intros run. eexists. split; [vm_compute; reflexivity|]. split; [vm_compute; reflexivity|].
  match goal with |- assoc _ ?c = _ /\ _ => set (claims := c) end.
  destruct (token_scopes_follow_role issuance_config "m" None issuance_payload (world_of issuance_db 0)
              (world_of issuance_db 0) claims) as (_ & Hle & _ & Ht).
  - done.
  - intros u Hu. vm_compute in Hu. injection Hu as <-. split; [done|].
    replace (scopes_of_role _ _) with ["credentials:offer"; "credentials:verify"] by (vm_compute; reflexivity).
    repeat constructor; try done; intros c Hc; vm_compute in Hc;
      repeat (apply elem_of_cons in Hc as [->|Hc]; [reflexivity|]); by apply elem_of_nil in Hc.
  - reflexivity.
  - by intros l.
  - vm_compute. reflexivity.
  - split; [exact (proj1 Ht)|]. intros s Hs. destruct (Hle s Hs) as [H|H]; [left; exact H|right].
    vm_compute in H. vm_compute. tauto.
Defined.

(** ** Rotation *)

(** The expiry of a refresh token after it was rotated at the given times. *)
Definition rotate (defaultTtl : Z) (client : option RefreshTokenTtlClient) (expiry : Z) (times : list Z) : Z :=
  fold_left (fun e t => t + resolveRefreshTokenTtl defaultTtl client (Some (e - t))) times expiry.

(** A public client cannot stretch its sign-in by rotating: every token expires by the
    time the first one does.  Another client gets its full lifetime at each rotation. *)
Lemma refresh_rotation_bounded defaultTtl client t0 times :
  let ttl := resolveRefreshTokenTtl defaultTtl client None in
  (client ≫= rc_clientAuthMethod = Some "none" -> rotate defaultTtl client (t0 + ttl) times <= t0 + ttl) /\
  (client ≫= rc_clientAuthMethod <> Some "none" ->
     rotate defaultTtl client (t0 + ttl) times = default t0 (last times) + ttl).
Proof.
  intros ttl. split; intros Hm.
  - generalize (t0 + ttl). induction times as [|t times IH]; intros e; [simpl; lia|]. simpl. etrans; [apply IH|].
    unfold resolveRefreshTokenTtl. rewrite bool_decide_true by done. lia.
  - assert (forall e, resolveRefreshTokenTtl defaultTtl client (Some e) = ttl) as He.
    { intros e. unfold ttl, resolveRefreshTokenTtl. by rewrite bool_decide_false. }
    clearbody ttl. induction times as [|t times IH] using rev_ind; [done|].
    unfold rotate. rewrite fold_left_app. cbn [fold_left]. by rewrite He, last_snoc.
Qed.
