(* ===== verification/SignIn.v ===== *)
(** * Federation and sign-in

    The upstream federation service with its tables (upstream-oidc), then the sign-in endpoints built on it
    (libs/oidc/src/oidc-interaction.controller.ts). *)

From Stdlib Require Import Ascii ZArith Lia.
From stdpp Require Import base decidable strings sets gmap list list_relations.
From S2P Require Import Prelude Js OperationTtl JsText Entities StateMapping Db Pagination TenantRepository.
From S2P Require Import OidcSessions Redaction Auth TenantUserService OAuthClient RoleScope Lifecycle ProtocolNotification ServiceLogic.
From S2P Require Import LogAccess TokenValidation OidcCorrectness TenantSwitch.

(** * Federation with the upstream identity provider

    upstream-oidc: the interactions (one per sign-in that was sent upstream) and the
    upstream sessions, their repositories, and UpstreamOidcService.  Parameters are
    openid-client and the upstream provider: the random values, the authorization URL,
    the exchange of an authorization code, and the end of a session. *)

Local Open Scope Z_scope.

Definition interactions (d : DB) : gmap string OidcUpstreamInteraction := d.(db_admin).(ad_interactions).
Definition upstream_sessions (d : DB) : gmap string OidcUpstreamSession := d.(db_admin).(ad_upstream).

(** ** OidcUpstreamInteractionRepository *)

Definition has_state (state : string) (x : OidcUpstreamInteraction) : bool := String.eqb x.(ui_state) state.
Definition has_uid (uid : string) (x : OidcUpstreamInteraction) : bool := String.eqb x.(ui_interactionUid) uid.

Definition interactions_findByState (state : string) : Prog (option OidcUpstreamInteraction) :=
  read NoTx (fun d => find_one (has_state state) (interactions d)).

(** The identifier is unique, so the order of the query does not matter. *)
Definition interactions_findByInteractionUid (uid : string) : Prog (option OidcUpstreamInteraction) :=
  read NoTx (fun d => find_one (has_uid uid) (interactions d)).

Definition write_interaction (x : OidcUpstreamInteraction) : Prog unit :=
  modify NoTx (fun d => set_interactions (<[x.(ui_id) := x]> (interactions d)) d).

(** [save]: of a row whose [state] and [interactionUid] the service never changes. *)
Definition interactions_update (x : OidcUpstreamInteraction) : Prog OidcUpstreamInteraction :=
  _ ← write_interaction x; mret x.

Definition interactions_delete (id : string) : Prog unit :=
  modify NoTx (fun d => set_interactions (delete id (interactions d)) d).

Definition interactions_deleteByState (state : string) : Prog unit :=
  modify NoTx (fun d => set_interactions (filter (fun e => has_state state e.2 = false) (interactions d)) d).

Definition interactions_findConsumed : Prog (list OidcUpstreamInteraction) :=
  read NoTx (fun d => select (fun x => bool_decide (is_Some x.(ui_consumedAt))) (interactions d)).

Record InteractionInput := mkInteractionInput {
  ii_state : string;
  ii_nonce : string;
  ii_interactionUid : string;
  ii_codeVerifier : string;
  ii_tenantId : string;
  ii_tenantUserId : option string;
  ii_expiresAt : Z
}.

Definition state_taken (state uid : string) (d : DB) : bool :=
  existsb (fun x => has_state state x && negb (has_uid uid x)) (rows (interactions d)).

(** [INSERT ... ON CONFLICT (interaction_uid) DO UPDATE] of every column but the
    identifier and the creation time; the row is not consumed and names no user. *)
Definition interactions_upsertByInteractionUid (i : InteractionInput) : Prog OidcUpstreamInteraction :=
  if String.eqb i.(ii_interactionUid) "" then throw (JsError "interactionUid is required for upsertByInteractionUid")
  else
    let fill id createdAt :=
      mkUpstreamInteraction id i.(ii_state) i.(ii_nonce) i.(ii_interactionUid) i.(ii_codeVerifier) i.(ii_tenantId)
        i.(ii_tenantUserId) createdAt i.(ii_expiresAt) None in
    taken ← read NoTx (state_taken i.(ii_state) i.(ii_interactionUid));
    if taken : bool then throw (QueryFailed "23505" "oidc_upstream_interaction_state_key")
    else
      existing ← interactions_findByInteractionUid i.(ii_interactionUid);
      match existing with
      | Some x => interactions_update (fill x.(ui_id) x.(ui_createdAt))
      | None =>
          id ← gen_uuid;
          created ← now_us;
          dup ← read NoTx (fun d => bool_decide (is_Some (interactions d !! id)));
          if dup : bool then throw (QueryFailed "23505" "oidc_upstream_interaction_pkey")
          else interactions_update (fill id created)
      end.

Definition interactions_findExpired : Prog (list OidcUpstreamInteraction) :=
  now ← now_us;
  read NoTx (fun d => select (fun x => x.(ui_expiresAt) <? now) (interactions d)).

(** ** OidcUpstreamSessionRepository *)

Definition of_model (oidcModelId : string) (s : OidcUpstreamSession) : bool :=
  bool_decide (s.(us_oidcModelId) = Some oidcModelId).
Definition of_session_uid (uid : string) (s : OidcUpstreamSession) : bool :=
  bool_decide (s.(us_oidcSessionUid) = Some uid).

Definition upstream_findByOidcModelId (oidcModelId : string) : Prog (option OidcUpstreamSession) :=
  read NoTx (fun d => find_one (of_model oidcModelId) (upstream_sessions d)).
Definition upstream_findByOidcSessionUid (uid : string) : Prog (option OidcUpstreamSession) :=
  read NoTx (fun d => find_one (of_session_uid uid) (upstream_sessions d)).

(** Not yet tied to a record of oidc-provider, and not expired. *)
Definition pending_of (tenantUserId : string) (now : Z) (s : OidcUpstreamSession) : bool :=
  String.eqb s.(us_tenantUserId) tenantUserId && bool_decide (s.(us_oidcModelId) = None) &&
  match s.(us_expiresAt) with Some e => now <? e | None => true end.

Definition upstream_findLatestPendingByTenantUserId (tenantUserId : string) : Prog (option OidcUpstreamSession) :=
  now ← now_us;
  read NoTx (fun d => find_latest us_createdAt (pending_of tenantUserId now) (upstream_sessions d)).

(** The constraints of the table: the two unique columns and the foreign keys. *)
Definition upstream_violation (s : OidcUpstreamSession) (d : DB) : option Exn :=
  let others := filter (fun x => negb (String.eqb x.(us_id) s.(us_id)) = true) (rows (upstream_sessions d)) in
  let clash (f : OidcUpstreamSession -> option string) :=
    match f s with Some v => existsb (fun x => bool_decide (f x = Some v)) others | None => false end in
  if clash us_oidcModelId then Some (QueryFailed "23505" "uq_oidc_upstream_session_model")
  else if clash us_oidcSessionUid then Some (QueryFailed "23505" "uq_oidc_upstream_session_uid")
  else if match s.(us_oidcModelId) with Some i => negb (bool_decide (is_Some (oidc d !! i))) | None => false end
  then Some (QueryFailed "23503" "oidc_upstream_session_oidc_model_id_fkey")
  else if negb (bool_decide (is_Some (users d !! s.(us_tenantUserId))))
  then Some (QueryFailed "23503" "oidc_upstream_session_tenant_user_id_fkey")
  else None.

Definition upstream_write (s : OidcUpstreamSession) : Prog OidcUpstreamSession :=
  violation ← read NoTx (upstream_violation s);
  match violation with
  | Some e => throw e
  | None => _ ← modify NoTx (fun d => set_upstream (<[s.(us_id) := s]> (upstream_sessions d)) d); mret s
  end.

Definition upstream_delete (id : string) : Prog unit :=
  modify NoTx (fun d => set_upstream (delete id (upstream_sessions d)) d).

(** [expiresAt] is [Some None] when the date the service computed is invalid. *)
Record UpstreamSessionInput := mkUpstreamSessionInput {
  ups_tenantUserId : string;
  ups_upstreamSubject : string;
  ups_upstreamIdToken : string;
  ups_expiresAt : option (option Z)
}.

Definition upstream_createPending (s : UpstreamSessionInput) : Prog OidcUpstreamSession :=
  match s.(ups_expiresAt) with
  | Some None => throw (QueryFailed "22007" "")
  | _ =>
      id ← gen_uuid;
      created ← now_us;
      dup ← read NoTx (fun d => bool_decide (is_Some (upstream_sessions d !! id)));
      if dup : bool then throw (QueryFailed "23505" "oidc_upstream_session_pkey")
      else upstream_write (mkUpstreamSession id None None s.(ups_tenantUserId) s.(ups_upstreamSubject)
             s.(ups_upstreamIdToken) created (column_of <$> mjoin s.(ups_expiresAt)))
  end.

(** [INSERT ... ON CONFLICT DO UPDATE]: the row [key] selects keeps its identifier and its
    creation time. *)
Definition upstream_upsert (key : OidcUpstreamSession -> bool) (oidcModelId oidcSessionUid : option string)
    (s : UpstreamSessionInput) : Prog OidcUpstreamSession :=
  match s.(ups_expiresAt) with
  | Some None => throw (QueryFailed "22007" "")
  | _ =>
      let fill id createdAt :=
        mkUpstreamSession id oidcModelId oidcSessionUid s.(ups_tenantUserId) s.(ups_upstreamSubject)
          s.(ups_upstreamIdToken) createdAt (column_of <$> mjoin s.(ups_expiresAt)) in
      existing ← read NoTx (fun d => find_one key (upstream_sessions d));
      match existing with
      | Some x => upstream_write (fill x.(us_id) x.(us_createdAt))
      | None =>
          id ← gen_uuid;
          created ← now_us;
          dup ← read NoTx (fun d => bool_decide (is_Some (upstream_sessions d !! id)));
          if dup : bool then throw (QueryFailed "23505" "oidc_upstream_session_pkey")
          else upstream_write (fill id created)
      end
  end.

Definition upstream_upsertByOidcModelId (oidcModelId oidcSessionUid : option string) (s : UpstreamSessionInput)
    : Prog OidcUpstreamSession :=
  match oidcModelId with
  | Some ((String _ _) as i) => upstream_upsert (of_model i) oidcModelId oidcSessionUid s
  | _ => throw (JsError "oidcModelId is required for upsertByOidcModelId")
  end.

Definition upstream_upsertPendingByOidcSessionUid (oidcSessionUid : option string) (s : UpstreamSessionInput)
    : Prog OidcUpstreamSession :=
  match oidcSessionUid with
  | Some ((String _ _) as uid) => upstream_upsert (of_session_uid uid) None oidcSessionUid s
  | _ => throw (JsError "oidcSessionUid is required for upsertPendingByOidcSessionUid")
  end.

Definition upstream_deleteByOidcModelId (oidcModelId : string) : Prog unit :=
  modify NoTx (fun d => set_upstream (filter (fun e => of_model oidcModelId e.2 = false) (upstream_sessions d)) d).

Definition upstream_findExpiredSessions : Prog (list OidcUpstreamSession) :=
  now ← now_us;
  read NoTx (fun d => select (fun s => match s.(us_expiresAt) with Some e => e <? now | None => false end)
                        (upstream_sessions d)).

(** Expired, never tied to a record; the oldest first. *)
Definition expired_pending (limit : Z) (now : Z) (d : DB) : list OidcUpstreamSession :=
  take (Z.to_nat (Z.max 1 limit)) (order_by (fun s => (s.(us_createdAt), s.(us_id))) ASC
    (select (fun s => bool_decide (s.(us_oidcModelId) = None) &&
                      match s.(us_expiresAt) with Some e => e <? now | None => false end) (upstream_sessions d))).

Definition upstream_deleteExpiredPendingBatch (limit : Z) : Prog nat :=
  now ← now_us;
  limitedRows ← read NoTx (expired_pending limit now);
  match limitedRows with
  | [] => mret 0%nat
  | _ =>
      let ids := map us_id limitedRows in
      affected ← read NoTx (fun d => count_rows (fun s => mem_str s.(us_id) ids) (upstream_sessions d));
      _ ← modify NoTx (fun d => set_upstream (foldr delete (upstream_sessions d) ids) d);
      mret affected
  end.

(** ** openid-client *)

(** The claims of an ID token at the types OpenID Connect gives them; whether [sub] is
    there and is text is for the service to check. *)
Record IdClaims := mkIdClaims {
  ic_sub : option json;
  ic_email : option string;
  ic_name : option string;
  ic_exp : option jsnum
}.

Record UpstreamClient := mkUpstreamClient {
  uc_codeVerifier : Prog string;
  uc_state : Prog string;
  uc_nonce : Prog string;
  uc_codeChallenge : string -> string;
  (* redirect URI, state, nonce, code challenge *)
  uc_authorizationUrl : string -> string -> string -> string -> string;
  (* the callback's URL, and the expected verifier, state and nonce: the [id_token] of the
     answer and its claims *)
  uc_authorizationCodeGrant : string -> string -> string -> string -> Prog (option json * option IdClaims);
  (* the status of the end-session request for an ID token *)
  uc_endSession : string -> Prog Z
}.

(** ** UpstreamOidcService *)

Section Service.
Context (client : UpstreamClient).

Definition storeInteraction (state nonce codeVerifier interactionUid tenantId : string) (tenantUserId : option string)
    (ttlMinutes : Z) : Prog OidcUpstreamInteraction :=
  now ← now_ms;
  interactions_upsertByInteractionUid
    (mkInteractionInput state nonce interactionUid codeVerifier tenantId tenantUserId
       (column_of (now + ttlMinutes * 60 * 1000))).

Definition validateInteraction (state : string) : Prog OidcUpstreamInteraction :=
  interaction ← interactions_findByState state;
  match interaction with
  | None => throw (JsError ("Interaction not found for state: " +:+ state))
  | Some x =>
      now ← now_ms;
      if date_of x.(ui_expiresAt) <? now then throw (JsError ("Interaction has expired for state: " +:+ state))
      else mret x
  end.

Definition ui_set_consumedAt (t : Z) (x : OidcUpstreamInteraction) : OidcUpstreamInteraction :=
  mkUpstreamInteraction x.(ui_id) x.(ui_state) x.(ui_nonce) x.(ui_interactionUid) x.(ui_codeVerifier)
    x.(ui_tenantId) x.(ui_tenantUserId) x.(ui_createdAt) x.(ui_expiresAt) (Some t).
Definition ui_set_tenantUserId (u : string) (x : OidcUpstreamInteraction) : OidcUpstreamInteraction :=
  mkUpstreamInteraction x.(ui_id) x.(ui_state) x.(ui_nonce) x.(ui_interactionUid) x.(ui_codeVerifier)
    x.(ui_tenantId) (Some u) x.(ui_createdAt) x.(ui_expiresAt) x.(ui_consumedAt).

Definition consumeInteraction (state : string) : Prog OidcUpstreamInteraction :=
  interaction ← validateInteraction state;
  now ← now_ms;
  interactions_update (ui_set_consumedAt (column_of now) interaction).

Definition getInteractionByUid (uid : string) : Prog (option OidcUpstreamInteraction) :=
  interactions_findByInteractionUid uid.

Definition setTenantUserIdForInteraction (state tenantUserId : string) : Prog OidcUpstreamInteraction :=
  interaction ← validateInteraction state;
  interactions_update (ui_set_tenantUserId tenantUserId interaction).

Definition cleanupExpiredInteractions : Prog nat :=
  expired ← interactions_findExpired;
  _ ← map_prog (fun x => interactions_delete x.(ui_id)) expired;
  mret (length expired).

Definition initiateUpstreamLogin (interactionUid tenantId redirectUri : string) : Prog (string * string) :=
  codeVerifier ← client.(uc_codeVerifier);
  state ← client.(uc_state);
  nonce ← client.(uc_nonce);
  _ ← storeInteraction state nonce codeVerifier interactionUid tenantId None 15;
  mret (state, client.(uc_authorizationUrl) redirectUri state nonce (client.(uc_codeChallenge) codeVerifier)).

Record UpstreamClaims := mkClaims {
  uk_sub : string;
  uk_email : option string;
  uk_name : option string
}.

(** [new Date(exp * 1000)] *)
Definition claims_expiry (exp : option jsnum) : option (option Z) :=
  (fun n => new_date (js_mul n (num_of_Z 1000))) <$> exp.

(** The claims, the interaction and the upstream session: subject, token and expiry. *)
Definition handleUpstreamCallback (state currentUrl : string)
    : Prog (UpstreamClaims * OidcUpstreamInteraction * (string * string * option (option Z))) :=
  interaction ← validateInteraction state;
  tokens ← client.(uc_authorizationCodeGrant) currentUrl interaction.(ui_codeVerifier) interaction.(ui_state)
             interaction.(ui_nonce);
  match tokens.1 with
  | Some (JStr ((String _ _) as idToken)) =>
      match tokens.2 with
      | Some claims =>
          match claims.(ic_sub) with
          | Some (JStr sub) =>
              mret (mkClaims sub claims.(ic_email) claims.(ic_name), interaction,
                    (sub, idToken, claims_expiry claims.(ic_exp)))
          | _ => throw (JsError "Invalid or missing sub claim in ID token")
          end
      | None => throw (JsError "Invalid or missing sub claim in ID token")
      end
  | _ => throw (JsError "Missing ID token from upstream authorization code grant")
  end.

Definition stagePendingUpstreamSession (s : UpstreamSessionInput) : Prog unit :=
  _ ← upstream_createPending s; mret tt.

Definition finalizeUpstreamSessionForOidcSession (oidcModelId oidcSessionUid tenantUserId : string)
    : Prog (option OidcUpstreamSession) :=
  pending ← upstream_findLatestPendingByTenantUserId tenantUserId;
  match pending with
  | None => mret None
  | Some p =>
      existing ← upstream_findByOidcSessionUid oidcSessionUid;
      match existing with
      | Some x =>
          if negb (String.eqb x.(us_id) p.(us_id)) then
            updated ← upstream_write (mkUpstreamSession x.(us_id) (Some oidcModelId) x.(us_oidcSessionUid)
                        p.(us_tenantUserId) p.(us_upstreamSubject) p.(us_upstreamIdToken) x.(us_createdAt)
                        p.(us_expiresAt));
            _ ← upstream_delete p.(us_id);
            mret (Some updated)
          else
            updated ← upstream_write (mkUpstreamSession p.(us_id) (Some oidcModelId) (Some oidcSessionUid)
                        p.(us_tenantUserId) p.(us_upstreamSubject) p.(us_upstreamIdToken) p.(us_createdAt)
                        p.(us_expiresAt));
            mret (Some updated)
      | None =>
          updated ← upstream_write (mkUpstreamSession p.(us_id) (Some oidcModelId) (Some oidcSessionUid)
                      p.(us_tenantUserId) p.(us_upstreamSubject) p.(us_upstreamIdToken) p.(us_createdAt)
                      p.(us_expiresAt));
          mret (Some updated)
      end
  end.

Definition logoutUpstreamSessionForOidcSession (oidcModelId : string) : Prog unit :=
  upstreamSession ← upstream_findByOidcModelId oidcModelId;
  match upstreamSession with
  | None => mret tt
  | Some s =>
      status ← client.(uc_endSession) s.(us_upstreamIdToken);
      if 400 <=? status
      then throw (JsError ("Upstream end-session request failed with status " +:+ JsValue.decimal_text status))
      else upstream_delete s.(us_id)
  end.
End Service.

(** * Signing in

    libs/oidc/src/oidc-interaction.controller.ts: the interaction endpoint, which sends a
    user to the upstream provider and answers oidc-provider's prompts, and the callback,
    which turns an upstream identity into a tenant user; with the finalisation of the
    upstream session of oidc-provider.service.ts.  Parameters are openid-client, the
    models of oidc-provider and its [interactionFinished], escape-html, [new URL], and
    what other requests do meanwhile. *)

Local Open Scope Z_scope.

(** ** Requests and answers *)

(** provider.interactionDetails: the prompt and what it lacks. *)
Record InteractionDetails := mkDetails {
  dt_uid : string;
  dt_prompt : string;
  dt_clientId : option string;
  dt_accountId : option string;                                      (* session?.accountId *)
  dt_missingOIDCScope : option (list string);
  dt_missingResourceScopes : option (list (string * list string))
}.

Record CallbackRequest := mkCallback {
  cb_code : option string;
  cb_state : option string;
  cb_error : option string;
  cb_errorDescription : option string;
  cb_forwardedProto : option string;
  cb_host : option string;
  cb_url : option string
}.

(** [interactionFinished] answers for the controller: the account of a login, and the
    grant. *)
Inductive Answer :=
| Redirect (location : string)
| PlainText (status : Z) (body : string)
| Finished (login : option string) (grantId : string).

(** [s.replace(/^\/+/, '')] *)
Fixpoint strip_leading (s : string) : string :=
  match s with
  | String c r => if eq_ascii c "/" then strip_leading r else s
  | EmptyString => EmptyString
  end.

Definition buildOidcIssuerUrl (issuer pathSegment : string) : string :=
  strip_slashes issuer +:+ ("/" +:+ strip_leading pathSegment).

(** [s.split(',')[0]] *)
Fixpoint before_comma (s : string) : string :=
  match s with
  | EmptyString => EmptyString
  | String c r => if eq_ascii c "," then EmptyString else String c (before_comma r)
  end.

Section Controller.
Context (client : UpstreamClient) (provider : Provider) (interactionFinished : option string -> string -> Prog unit).
Context (escapeHtml : string -> string) (new_URL : string -> string -> Exn + string) (issuer : string) (others : Prog unit).

(** ** Grants *)

(** The role and the scopes it does not have, or the grant. *)
Definition createAndSaveGrant (accountId : string) (details : InteractionDetails)
    : Prog ((TenantUserRole * list string) + string) :=
  user ← adapter_findById accountId;
  match user with
  | Some u =>
      if is_active_user u then
        roleScopes ← roleScopes_findScopesForRole u.(tu_role) (Some u.(tu_tenantId)) NoTx;
        let allowedScopes := STANDARD_OIDC_SCOPES ++ roleScopes in
        let '(grantedScopes, deniedScopes) :=
          match details.(dt_missingOIDCScope) with
          | Some requested => partitionRequestedScopes allowedScopes allowedScopes false requested
          | None => ([], [])
          end in
        match deniedScopes with
        | _ :: _ => mret (inl (u.(tu_role), deniedScopes))
        | [] =>
            grantId ← provider.(pv_saveGrant) (mkGrantProps details.(dt_clientId) accountId
                        (match grantedScopes with [] => None | _ => Some (String.concat " " grantedScopes) end)
                        (match details.(dt_missingResourceScopes) with
                         | Some resources => (fun p => (p.1, String.concat " " p.2)) <$> resources
                         | None => []
                         end));
            mret (inr grantId)
        end
      else throw (JsError ("Active tenant user not found: " +:+ accountId))
  | None => throw (JsError ("Active tenant user not found: " +:+ accountId))
  end.

Definition scope_denied (role : TenantUserRole) (deniedScopes : list string) : Answer :=
  PlainText 403 ("Insufficient role for requested scopes: " +:+
    escapeHtml ("Requested scopes exceed tenant-user role " +:+ (in_quotes (role_str role) +:+
      (": " +:+ String.concat ", " deniedScopes)))).

Definition finish_with_grant (login : option string) (accountId : string) (details : InteractionDetails) : Prog Answer :=
  grant ← createAndSaveGrant accountId details;
  match grant with
  | inl (role, denied) => mret (scope_denied role denied)
  | inr grantId => _ ← interactionFinished login grantId; mret (Finished login grantId)
  end.

(** ** The interaction endpoint *)

Definition startUpstreamLogin (details : InteractionDetails) : Prog Answer :=
  match details.(dt_accountId) with
  | Some ((String _ _) as a) => throw (JsError ("Attempted upstream login despite existing accountId " +:+ a))
  | _ =>
      match details.(dt_clientId) with
      | None => throw (JsError "Missing client_id in interaction params")
      | Some clientId =>
          found ← findActiveClient clientId;
          match found with
          | None => throw (JsError ("OAuth client not found: " +:+ clientId))
          | Some c =>
              '(_, authorizationUrl) ← initiateUpstreamLogin client details.(dt_uid) c.(oc_tenantId)
                                         (buildOidcIssuerUrl issuer "callback");
              mret (Redirect authorizationUrl)
          end
      end
  end.

(** A consumed interaction always names its user ([signin_ok]); the source would look up
    [null] otherwise. *)
Definition interaction (details : InteractionDetails) : Prog Answer :=
  if String.eqb details.(dt_prompt) "login" then
    found ← getInteractionByUid details.(dt_uid);
    match found with
    | Some x =>
        match x.(ui_consumedAt) with
        | Some _ =>
            match x.(ui_tenantUserId) with
            | Some accountId => finish_with_grant (Some accountId) accountId details
            | None => throw (JsError "Active tenant user not found: null")
            end
        | None => startUpstreamLogin details
        end
    | None => startUpstreamLogin details
    end
  else if String.eqb details.(dt_prompt) "consent" then
    match details.(dt_accountId) with
    | Some ((String _ _) as accountId) => finish_with_grant None accountId details
    | _ => throw (JsError "No authenticated session")
    end
  else throw (JsError ("Unsupported oidc-provider interaction prompt: " +:+ details.(dt_prompt))).

(** ** The callback *)

Definition current_url (q : CallbackRequest) : Exn + string :=
  let proto := match q.(cb_forwardedProto) with Some p => js_trim (before_comma p) | None => "http" end in
  match q.(cb_host) with
  | Some ((String _ _) as host) => new_URL (default "/" q.(cb_url)) (proto +:+ ("://" +:+ host))
  | _ => inl (JsError "Missing Host header")
  end.

(** The user of an upstream identity: a membership they had, the invitation of this
    tenant they claim, or a new member with the least role. *)
Definition federated_user (tenantId : string) (claims : UpstreamClaims) : Prog TenantUser :=
  priorMemberships ← users_findActiveByExternalUserId claims.(uk_sub);
  claimed ← (match claims.(uk_email) with
             | Some ((String _ _) as email) => user_claimAllInvitedByEmail others email claims.(uk_sub)
             | _ => mret []
             end);
  match priorMemberships, List.find (fun u => String.eqb u.(tu_tenantId) tenantId) claimed with
  | u :: _, _ => mret u
  | [], Some u => mret u
  | [], None =>
      found ← users_findByTenantAndExternalUserId tenantId claims.(uk_sub);
      match found with
      | Some u => if is_active_user u then mret u else throw (JsError "Federated user is not active")
      | None =>
          let displayName := match claims.(uk_name), claims.(uk_email) with
                             | Some n, _ => n | None, Some e => e | None, None => claims.(uk_sub)
                             end in
          user_create others (mkCreateUser tenantId claims.(uk_sub) (default "" claims.(uk_email)) (Some displayName)
                                (Some READONLY) (Some TU_ACTIVE))
      end
  end.

(** Up to the binding of the user to the interaction: the interaction, the user and the
    verified subject. *)
Definition bind_callback (q : CallbackRequest) (state : string) : Prog (OidcUpstreamInteraction * TenantUser * string) :=
  currentUrl ← of_sum (current_url q);
  '(claims, x, (upstreamSubject, upstreamIdToken, expiresAt)) ← handleUpstreamCallback client state currentUrl;
  u ← federated_user x.(ui_tenantId) claims;
  _ ← stagePendingUpstreamSession (mkUpstreamSessionInput u.(tu_id) upstreamSubject upstreamIdToken expiresAt);
  _ ← setTenantUserIdForInteraction state u.(tu_id);
  mret (x, u, claims.(uk_sub)).

Definition callback (q : CallbackRequest) : Prog Answer :=
  match q.(cb_error) with
  | Some ((String _ _) as error) =>
      mret (PlainText 400 ("Upstream OIDC error: " +:+ (escapeHtml error +:+
        String (ascii_of_N 10) (escapeHtml (default "" q.(cb_errorDescription))))))
  | _ =>
      match q.(cb_code), q.(cb_state) with
      | Some (String _ _), Some ((String _ _) as state) =>
          catch
            ('(x, _, _) ← bind_callback q state;
             _ ← consumeInteraction state;
             mret (Redirect (buildOidcIssuerUrl issuer ("interaction/" +:+ x.(ui_interactionUid)))))
            (fun e => mret (PlainText 400 ("Error processing callback: " +:+ escapeHtml (exn_message e))))
      | _, _ => mret (PlainText 400 "Missing code or state in upstream callback")
      end
  end.

(** ** OidcProviderService.finalizePendingUpstreamSession *)

Definition finalizePendingUpstreamSession (uid accountId : option string) : Prog unit :=
  match uid, accountId with
  | Some ((String _ _) as u), Some ((String _ _) as a) =>
      sessionModel ← read NoTx (fun d => find_latest om_createdAt
                        (fun r => is_model SESSION_MODEL r && bool_decide (r.(om_uid) = Some u)) (oidc d));
      match sessionModel with
      | None => mret tt
      | Some r => _ ← finalizeUpstreamSessionForOidcSession r.(om_id) u a; mret tt
      end
  | _, _ => mret tt
  end.
End Controller.
