(* ===== verification/SignInCorrectness.v ===== *)
(** * Signing in: nobody without the upstream provider

    The user a callback selects is active and has the identity the upstream provider
    vouched for; an interaction is consumed only after one was bound to it; and so every
    login the service reports to oidc-provider follows an upstream authentication of that
    very account for that very interaction. *)

From Stdlib Require Import Ascii ZArith Lia.
From stdpp Require Import base decidable strings sets gmap list list_relations.
From S2P Require Import Prelude Js OperationTtl JsText Redaction Entities StateMapping Db Pagination TenantRepository.
From S2P Require Import OidcSessions Auth TenantUserService OAuthClient RoleScope Lifecycle ProtocolNotification ServiceLogic LogAccess.
From S2P Require Import TokenValidation OidcCorrectness TenantSwitch SignIn.

Local Open Scope Z_scope.

(** ** Calm programs *)

(** Active users stay as they are, users are stored under their identifiers, and the
    interactions are not touched. *)
Record calm (w w' : World) : Prop := {
  cm_active i u : users w.(committed) !! i = Some u -> is_active_user u = true -> users w'.(committed) !! i = Some u;
  cm_keyed : table_keyed tu_id (users w.(committed)) -> table_keyed tu_id (users w'.(committed));
  cm_interactions : interactions w'.(committed) = interactions w.(committed)
}.

#[export] Instance calm_preorder : PreOrder calm.
Proof. split; [by intros w; split|]. intros a b c [] []. split; eauto. congruence. Qed.

Lemma calm_same w w' :
  users w'.(committed) = users w.(committed) -> interactions w'.(committed) = interactions w.(committed) -> calm w w'.
Proof. intros Hu Hi. split; rewrite ?Hu; auto. Qed.

Class Calm {A} (p : Prog A) : Prop := calm_prog w : calm w (p w).1.

Lemma calm_run {A} (p : Prog A) `{!Calm p} w w' r : p w = (w', r) -> calm w w'.
Proof. intros E. pose proof (calm_prog w) as H. by rewrite E in H. Qed.

#[export] Instance Calm_ret {A} (a : A) : Calm (mret a).
Proof. by intros w. Qed.
#[export] Instance Calm_throw {A} e : Calm (throw (A:=A) e).
Proof. by intros w. Qed.
#[export] Instance Calm_of_sum {A} (r : Exn + A) : Calm (of_sum r).
Proof. by intros w. Qed.
#[export] Instance Calm_read {A} m (f : DB -> A) : Calm (read m f).
Proof. by intros w. Qed.
#[export] Instance Calm_now_ms : Calm now_ms.
Proof. by intros w. Qed.
#[export] Instance Calm_now_us : Calm now_us.
Proof. by intros w. Qed.
#[export] Instance Calm_uuid : Calm gen_uuid.
Proof. intros w. by apply calm_same. Qed.
#[export] Instance Calm_bind {A B} (p : Prog A) (k : A -> Prog B) : Calm p -> (forall a, Calm (k a)) -> Calm (p ≫= k).
Proof.
  intros Hp Hk w. unfold mbind, prog_bind. pose proof (Hp w) as H. destruct (p w) as [w1 [e|a]]; [done|].
  simpl in H. etrans; [exact H|apply Hk].
Qed.
#[export] Instance Calm_catch {A} (p : Prog A) (h : Exn -> Prog A) : Calm p -> (forall e, Calm (h e)) -> Calm (catch p h).
Proof.
  intros Hp Hh w. unfold catch. pose proof (Hp w) as H. destruct (p w) as [w1 [e|a]]; [|done].
  simpl in H. etrans; [exact H|apply Hh].
Qed.
#[export] Instance Calm_audit t a rt ri : Calm (audit_emit NoTx t a rt ri).
Proof. intros w. unfold audit_emit, catch, send. destruct (send_fate _ _); by apply calm_same. Qed.

(** By the structure of the program. *)
Ltac solve_calm :=
  repeat first
    [ apply _ | apply Calm_bind | apply Calm_catch
    | match goal with
      | |- forall _, _ => intros ?
      | |- Calm (match ?x with _ => _ end) => destruct x
      end ].

(** A row may be written where no active one is. *)
Lemma calm_write_user id u w :
  u.(tu_id) = id -> (forall x, users w.(committed) !! id = Some x -> is_active_user x = false) ->
  calm w (write_user NoTx id u w).1 /\
  ((write_user NoTx id u w).2 = inr tt -> users (write_user NoTx id u w).1.(committed) !! id = Some u).
Proof.
  intros Hid Hx. unfold write_user. erewrite bind_run by reflexivity. erewrite bind_run by reflexivity.
  destruct (other_user _ _ _); [by split|]. destruct (other_user _ _ _); [by split|].
  split; [|intros _; apply lookup_insert_eq]. split.
  - intros i x Hi Ha. unfold users in *. simpl. rewrite lookup_insert_ne; [done|]. intros <-.
    by rewrite (Hx x Hi) in Ha.
  - intros K i x. unfold users in *. simpl. intros [[<- <-]|[_ H]]%lookup_insert_Some; [done|by apply K].
  - done.
Qed.

(** ** The user of an identity *)

(** An active user of the table with the identity. *)
Definition member_row (sub : string) (u : TenantUser) (w : World) : Prop :=
  users w.(committed) !! u.(tu_id) = Some u /\ is_active_user u = true /\ u.(tu_externalUserId) = Some sub.

Lemma member_calm sub w w' u : calm w w' -> member_row sub u w -> member_row sub u w'.
Proof. intros [Ha _ _] (Hu & Hact & Hs). split_and!; [by apply Ha|done..]. Qed.

(** A calm run on a keyed table, and what its result satisfies. *)
Definition selects {A} (p : Prog A) (Q : A -> World -> Prop) (w : World) : Prop :=
  table_keyed tu_id (users w.(committed)) -> calm w (p w).1 /\ forall a, (p w).2 = inr a -> Q a (p w).1.

Lemma selects_calm {A} (p : Prog A) `{!Calm p} w : selects p (fun _ _ => True) w.
Proof. intros _. split; [apply calm_prog|done]. Qed.

Lemma selects_ret {A} (a : A) (Q : A -> World -> Prop) w : Q a w -> selects (mret a) Q w.
Proof. intros H _. split; [done|]. by intros b [= <-]. Qed.

Lemma selects_throw {A} e (Q : A -> World -> Prop) w : selects (throw e) Q w.
Proof. intros _. by split. Qed.

Lemma selects_bind {A B} (p : Prog A) (k : A -> Prog B) Q R w :
  selects p Q w -> (forall a w1, calm w w1 -> Q a w1 -> selects (k a) R w1) -> selects (p ≫= k) R w.
Proof.
  intros Hp Hk K. destruct (Hp K) as [Hc HQ]. unfold mbind, prog_bind. destruct (p w) as [w1 [e|a]]; [by split|].
  simpl in Hc. destruct (Hk a w1 Hc (HQ a eq_refl) (cm_keyed _ _ Hc K)) as [Hc' HR]. split; [by etrans|done].
Qed.

(** The table is keyed. *)
Lemma selects_keyed {A} (p : Prog A) Q w :
  (table_keyed tu_id (users w.(committed)) -> selects p Q w) -> selects p Q w.
Proof. intros H K. by apply H. Qed.

(** A read. *)
Lemma selects_read {A B} (f : DB -> A) (k : A -> Prog B) R w :
  selects (k (f w.(committed))) R w -> selects (read NoTx f ≫= k) R w.
Proof. intros H. exact H. Qed.

(** A calm step whose result does not matter. *)
Lemma selects_then {A B} (p : Prog A) (k : A -> Prog B) R w :
  Calm p -> (forall a w1, calm w w1 -> selects (k a) R w1) -> selects (p ≫= k) R w.
Proof. intros Hp Hk. eapply selects_bind; [by apply selects_calm|]. intros a w1 Hc _. by apply Hk. Qed.

(** A member stays one. *)
Lemma selects_member {A} (p : Prog A) sub u Q w :
  member_row sub u w -> selects p Q w -> selects p (fun a w' => Q a w' /\ member_row sub u w') w.
Proof.
  intros Hu Hp K. destruct (Hp K) as [Hc HQ]. split; [done|]. intros a Ha. split; [by apply HQ|by eapply member_calm].
Qed.

Section Users.
Context (others : Prog unit) `{!Calm others} (sub : string).

Lemma claim_selects id w :
  selects (users_claimInvitedById id sub) (fun r w' => forall u, r = Some u -> member_row sub u w') w.
Proof.
  apply selects_keyed. intros K. unfold users_claimInvitedById. apply selects_read.
  destruct (users w.(committed) !! id) as [x|] eqn:Ex; [|by apply selects_ret].
  destruct (_ && _) eqn:Ec; [|by apply selects_ret].
  apply andb_true_iff in Ec as [_ Hs%bool_decide_eq_true].
  eapply (selects_bind now_us _ (fun now w1 => w1 = w)).
  { intros _. split; [done|]. by intros a [= <-]. }
  intros now ? _ ->.
  destruct (calm_write_user id (tu_claim sub now x) w) as [Hc Hw].
  { apply (K id x Ex). }
  { intros y Hy. assert (y = x) as -> by congruence. unfold is_active_user. by rewrite Hs. }
  eapply (selects_bind _ _ (fun _ w1 => users w1.(committed) !! id = Some (tu_claim sub now x))).
  { intros _. split; [exact Hc|]. intros [] E. by apply Hw. }
  intros [] w1 _ H1 _. split; [done|]. intros a [= <-] u. rewrite H1. intros [= <-].
  split_and!; [|done|done]. simpl. by rewrite (K id x Ex).
Qed.

Lemma claim_invites_selects taken invites w :
  selects (claim_invites others sub taken invites) (fun us w' => forall u, u ∈ us -> member_row sub u w') w.
Proof.
  revert taken w. induction invites as [|i invites IH]; intros taken w; cbn [claim_invites].
  { apply selects_ret. by intros u Hu%elem_of_nil. }
  destruct (mem_str _ _); [apply IH|]. cbv zeta. apply selects_then; [done|]. intros _ w1 _.
  eapply selects_bind; [apply claim_selects|]. intros [u|] w2 _ Hu; [|apply IH].
  eapply selects_bind; [eapply selects_member; [by apply Hu|by apply selects_calm, Calm_audit]|].
  intros _ w3 _ [_ Hm]. eapply selects_bind; [eapply selects_member; [exact Hm|apply IH]|].
  intros us w4 _ [Hus Hm']. apply selects_ret. by intros x [->|Hx]%elem_of_cons; [|apply Hus].
Qed.

Lemma claim_all_selects email w :
  selects (user_claimAllInvitedByEmail others email sub) (fun us w' => forall u, u ∈ us -> member_row sub u w') w.
Proof.
  unfold user_claimAllInvitedByEmail. apply selects_then; [apply _|]. intros invites w1 _.
  destruct invites as [|i invites]; [apply selects_ret; by intros u Hu%elem_of_nil|].
  apply selects_then; [apply _|]. intros existing w2 _. apply claim_invites_selects.
Qed.

Lemma create_selects dto w :
  dto.(cu_externalUserId) = sub -> dto.(cu_status) = Some TU_ACTIVE ->
  selects (user_create others dto) (member_row sub) w.
Proof.
  intros Hsub Hst. unfold user_create. apply selects_then; [apply _|]. intros [x|] w1 _; [apply selects_throw|].
  apply selects_then; [done|]. intros _ w2 _.
  eapply selects_bind; [|intros u w3 _ Hu; eapply selects_bind;
    [eapply selects_member; [exact Hu|by apply selects_calm, Calm_audit]|intros _ w4 _ [_ H]; by apply selects_ret]].
  unfold users_create. apply selects_then; [apply _|]. intros id w3 _. apply selects_then; [apply _|]. intros now w4 _.
  apply selects_read. destruct (bool_decide _) eqn:Et; [apply selects_throw|]. apply bool_decide_eq_false in Et.
  set (u := mkTenantUser _ _ _ _ _ _ _ _ _ _).
  destruct (calm_write_user id u w4) as [Hc Hw]; [done| |].
  { intros y Hy. destruct Et. by exists y. }
  eapply (selects_bind _ _ (fun _ w5 => users w5.(committed) !! id = Some u)).
  { intros _. split; [exact Hc|]. intros [] E. by apply Hw. }
  intros [] w5 _ H5. apply selects_ret. split_and!; [exact H5| |simpl; by rewrite Hsub].
  unfold is_active_user. simpl. by rewrite Hst.
Qed.

Lemma federated_selects tenantId claims w :
  claims.(uk_sub) = sub -> selects (federated_user others tenantId claims) (member_row sub) w.
Proof.
  intros Hsub. apply selects_keyed. intros K. unfold federated_user. rewrite Hsub. unfold users_findActiveByExternalUserId at 1, list_users at 1.
  apply selects_read. set (prior := order_by _ _ _).
  assert (forall u, u ∈ prior -> member_row sub u w) as Hprior.
  { intros u Hu. unfold prior in Hu. rewrite order_by_perm in Hu.
    apply elem_of_select in Hu as [[[_ Hi%bool_decide_eq_true]%andb_true_iff Ha]%andb_true_iff [i Hi']].
    split_and!; [|done|done]. by rewrite (K i u Hi'). }
  eapply selects_bind.
  { instantiate (1 := fun us w' => (forall u, u ∈ us -> member_row sub u w') /\ (forall u, u ∈ prior -> member_row sub u w')).
    intros _. destruct (claims.(uk_email)) as [[|c e]|].
    - split; [done|]. intros us [= <-]. split; [by intros u Hu%elem_of_nil|done].
    - destruct (claim_all_selects (String c e) w K) as [Hc HQ]. split; [done|].
      intros us E. split; [by apply HQ|]. intros u Hu. eapply member_calm; [exact Hc|by apply Hprior].
    - split; [done|]. intros us [= <-]. split; [by intros u Hu%elem_of_nil|done]. }
  intros claimed w1 _ [Hcl Hpr]. destruct prior as [|u prior']; [|apply selects_ret, Hpr; left].
  destruct (List.find _ claimed) as [u|] eqn:Ef.
  { apply List.find_some in Ef as [Hin%list_elem_of_In _]. by apply selects_ret, Hcl. }
  apply selects_keyed. intros K1. apply selects_read. destruct (find_one _ _) as [u|] eqn:Eo.
  - destruct (is_active_user u) eqn:Ea; [|apply selects_throw]. apply selects_ret.
    apply find_one_Some in Eo as [[_ Hi%bool_decide_eq_true]%andb_true_iff [i Hi']].
    split_and!; [|done|done]. by rewrite (K1 i u Hi').
  - cbv zeta. by apply create_selects.
Qed.
End Users.

(** ** The interactions *)

(** [attest uid a]: the account [a] was authenticated upstream for the interaction [uid].
    The keys and unique columns of the table, and what its consumed rows say. *)
Record signin_ok (attest : string -> string -> Prop) (t : gmap string OidcUpstreamInteraction) : Prop := {
  so_keyed i x : t !! i = Some x -> x.(ui_id) = i;
  so_state i j x y : t !! i = Some x -> t !! j = Some y -> x.(ui_state) = y.(ui_state) -> i = j;
  so_uid i j x y : t !! i = Some x -> t !! j = Some y -> x.(ui_interactionUid) = y.(ui_interactionUid) -> i = j;
  so_bound i x : t !! i = Some x -> x.(ui_consumedAt) <> None ->
    exists a, x.(ui_tenantUserId) = Some a /\ attest x.(ui_interactionUid) a
}.

Lemma signin_mono (P Q : string -> string -> Prop) t :
  (forall uid a, P uid a -> Q uid a) -> signin_ok P t -> signin_ok Q t.
Proof.
  intros H [K S U B]. split; try done. intros i x Hx Hc. destruct (B i x Hx Hc) as (a & Ha & HP). exists a. auto.
Qed.

Section Interactions.
Context (attest : string -> string -> Prop).

(** A row may be replaced by one with its names, or added with names of its own, when it
    says what consumed rows say. *)
Lemma signin_write t x :
  signin_ok attest t ->
  (forall j y, t !! j = Some y -> y.(ui_state) = x.(ui_state) -> j = x.(ui_id)) ->
  (forall j y, t !! j = Some y -> y.(ui_interactionUid) = x.(ui_interactionUid) -> j = x.(ui_id)) ->
  (x.(ui_consumedAt) <> None -> exists a, x.(ui_tenantUserId) = Some a /\ attest x.(ui_interactionUid) a) ->
  signin_ok attest (<[x.(ui_id) := x]> t).
Proof.
  intros [K S U B] Hs Hu Hc. split.
  - by intros i y [[<- <-]|[_ H]]%lookup_insert_Some; [|apply K].
  - intros i j y z [[<- <-]|[_ Hy]]%lookup_insert_Some [[<- <-]|[_ Hz]]%lookup_insert_Some E;
      [done|by symmetry; eapply Hs|by eapply Hs|by eapply S].
  - intros i j y z [[<- <-]|[_ Hy]]%lookup_insert_Some [[<- <-]|[_ Hz]]%lookup_insert_Some E;
      [done|by symmetry; eapply Hu|by eapply Hu|by eapply U].
  - by intros i y [[<- <-]|[_ H]]%lookup_insert_Some; [|eapply B].
Qed.

Lemma signin_delete t (ids : list string) : signin_ok attest t -> signin_ok attest (foldr delete t ids).
Proof.
  intros H. induction ids as [|i ids [K S U B]]; [done|]. simpl.
  split; [intros ? ? [_ ?]%lookup_delete_Some; eauto| | |intros ? ? [_ ?]%lookup_delete_Some; eauto];
    intros ? ? ? ? [_ ?]%lookup_delete_Some [_ ?]%lookup_delete_Some; eauto.
Qed.

Lemma upsert_ok input w :
  signin_ok attest (interactions w.(committed)) ->
  signin_ok attest (interactions (interactions_upsertByInteractionUid input w).1.(committed)).
Proof.
  intros H. unfold interactions_upsertByInteractionUid. destruct (String.eqb _ _); [done|]. cbv zeta.
  erewrite bind_run by reflexivity. cbn [view]. destruct (state_taken _ _ _) eqn:Et; [done|].
  erewrite bind_run by reflexivity. cbn [view].
  assert (forall j y, interactions w.(committed) !! j = Some y -> y.(ui_state) = input.(ii_state) ->
    y.(ui_interactionUid) = input.(ii_interactionUid)) as Hst.
  { intros j y Hy Es. apply not_true_iff_false in Et. destruct (String.eqb_spec (ui_interactionUid y) (ii_interactionUid input));
      [done|]. destruct Et. apply existsb_exists. exists y.
    split; [apply list_elem_of_In, elem_of_rows; eauto|]. unfold has_state, has_uid. apply andb_true_iff.
    split; [by apply String.eqb_eq|]. by apply negb_true_iff, String.eqb_neq. }
  destruct (find_one _ _) as [x|] eqn:Ef.
  - apply find_one_Some in Ef as [Hu%String.eqb_eq [i Hi]]. pose proof (so_keyed _ _ H i x Hi) as Hid.
    apply signin_write; simpl; [done| | |done]; intros j y Hy E; rewrite Hid; apply (so_uid _ _ H j i y x Hy Hi);
      rewrite Hu; [by apply (Hst j)|done].
  - rewrite find_one_None in Ef. erewrite bind_run by reflexivity. erewrite bind_run by reflexivity.
    erewrite bind_run by reflexivity. cbn [view]. destruct (bool_decide _) eqn:Ed; [done|].
    assert (forall j y, interactions w.(committed) !! j = Some y -> y.(ui_interactionUid) <> input.(ii_interactionUid)) as Hno.
    { intros j y Hy E. specialize (Ef j y Hy). unfold has_uid in Ef. by rewrite E, String.eqb_refl in Ef. }
    apply (signin_write (interactions w.(committed))); simpl; [done| | |done]; intros j y Hy E;
      destruct (Hno j y Hy); [by apply (Hst j)|done].
Qed.

(** The row of a state, and that there is one only. *)
Lemma validate_run state w :
  exists r, validateInteraction state w = (w, r) /\
    forall x, r = inr x -> find_one (has_state state) (interactions w.(committed)) = Some x.
Proof.
  unfold validateInteraction, interactions_findByState. erewrite bind_run by reflexivity. cbn [view].
  destruct (find_one _ _) as [x|]; [|eexists; split; [reflexivity|done]].
  erewrite bind_run by reflexivity. destruct (_ <? _); eexists; (split; [reflexivity|]); [done|by intros y [= <-]].
Qed.

Lemma state_row state t x :
  signin_ok attest t -> find_one (has_state state) t = Some x ->
  t !! x.(ui_id) = Some x /\ x.(ui_state) = state.
Proof.
  intros H [Hs%String.eqb_eq [i Hi]]%find_one_Some. split; [|done]. by rewrite (so_keyed _ _ H i x Hi).
Qed.

(** Any row of the state is the one that is found. *)
Lemma state_found state t x :
  signin_ok attest t -> t !! x.(ui_id) = Some x -> x.(ui_state) = state -> find_one (has_state state) t = Some x.
Proof.
  intros H Hx Hs. destruct (find_one _ t) as [y|] eqn:E.
  - destruct (state_row state t y H E) as [Hy Hys]. f_equal.
    assert (ui_id y = ui_id x) as Hid by (eapply (so_state _ _ H); [done|done|congruence]). rewrite Hid in Hy. congruence.
  - rewrite find_one_None in E. specialize (E _ x Hx). unfold has_state in E. by rewrite Hs, String.eqb_refl in E.
Qed.

(** Binding a user that is attested for the row. *)
Lemma set_user_ok state a w x :
  signin_ok attest (interactions w.(committed)) ->
  find_one (has_state state) (interactions w.(committed)) = Some x -> attest x.(ui_interactionUid) a ->
  let w' := (setTenantUserIdForInteraction state a w).1 in
  signin_ok attest (interactions w'.(committed)) /\
  ((setTenantUserIdForInteraction state a w).2 = inr (ui_set_tenantUserId a x) ->
     find_one (has_state state) (interactions w'.(committed)) = Some (ui_set_tenantUserId a x)).
Proof.
  intros H Hx Ha w'. subst w'. unfold setTenantUserIdForInteraction.
  destruct (validate_run state w) as ([e|y] & E & Hy); [erewrite bind_throw by exact E; by split|].
  specialize (Hy y eq_refl). assert (y = x) as -> by congruence. erewrite bind_run by exact E.
  destruct (state_row state _ x H Hx) as [Hrow Hs].
  assert (signin_ok attest (<[ui_id x := ui_set_tenantUserId a x]> (interactions w.(committed)))) as Hok.
  { apply (signin_write _ (ui_set_tenantUserId a x)); simpl; [done| | |by intros _; exists a].
    - intros j z Hz Ez. by eapply (so_state _ _ H).
    - intros j z Hz Ez. by eapply (so_uid _ _ H). }
  split; [exact Hok|]. intros _. apply state_found; [exact Hok| |exact Hs]. apply lookup_insert_eq.
Qed.

(** Consuming a row that names an attested user. *)
Lemma consume_ok state w x a :
  signin_ok attest (interactions w.(committed)) ->
  find_one (has_state state) (interactions w.(committed)) = Some x ->
  x.(ui_tenantUserId) = Some a -> attest x.(ui_interactionUid) a ->
  signin_ok attest (interactions (consumeInteraction state w).1.(committed)).
Proof.
  intros H Hx Hu Ha. unfold consumeInteraction.
  destruct (validate_run state w) as ([e|y] & E & Hy); [by erewrite bind_throw by exact E|].
  specialize (Hy y eq_refl). assert (y = x) as -> by congruence. erewrite bind_run by exact E.
  erewrite bind_run by reflexivity. destruct (state_row state _ x H Hx) as [Hrow Hs].
  match goal with |- context [interactions_update ?z] => apply (signin_write _ z) end; simpl; [done| | |by exists a].
  - intros j z Hz Ez. by eapply (so_state _ _ H).
  - intros j z Hz Ez. by eapply (so_uid _ _ H).
Qed.
End Interactions.

Lemma cleanup_ok attest w :
  signin_ok attest (interactions w.(committed)) ->
  signin_ok attest (interactions (cleanupExpiredInteractions w).1.(committed)).
Proof.
  intros H. unfold cleanupExpiredInteractions. erewrite bind_run by reflexivity. cbn [view].
  generalize (select (fun x => ui_expiresAt x <? w.(clock)) (interactions w.(committed))). intros l.
  assert (forall l w, signin_ok attest (interactions w.(committed)) ->
    exists w' us, map_prog (fun x => interactions_delete x.(ui_id)) l w = (w', inr us) /\
      signin_ok attest (interactions w'.(committed)) /\ users w'.(committed) = users w.(committed)) as Hl.
  { clear. induction l as [|x l IH]; intros w H; [by exists w, []|]. cbn [map_prog].
    destruct (IH (interactions_delete x.(ui_id) w).1) as (w' & us & E & H' & Hu); [by apply (signin_delete _ _ [ui_id x])|].
    exists w'. eexists. split; [erewrite bind_run by reflexivity; by erewrite bind_run by exact E|]. by split. }
  destruct (Hl l w H) as (w' & us & E & H' & _). by erewrite bind_run by exact E.
Qed.

Lemma cleanup_users w : users (cleanupExpiredInteractions w).1.(committed) = users w.(committed).
Proof.
  unfold cleanupExpiredInteractions. erewrite bind_run by reflexivity. cbn [view].
  generalize (select (fun x => ui_expiresAt x <? w.(clock)) (interactions w.(committed))). intros l.
  assert (forall l w, users (map_prog (fun x => interactions_delete x.(ui_id)) l w).1.(committed) = users w.(committed)) as Hl.
  { clear. induction l as [|x l IH]; intros w; [done|]. cbn [map_prog]. erewrite bind_run by reflexivity.
    specialize (IH (interactions_delete x.(ui_id) w).1). unfold mbind, prog_bind. destruct (map_prog _ l _) as [w' [e|us]]; exact IH. }
  specialize (Hl l w). unfold mbind, prog_bind. by destruct (map_prog _ l w) as [w' [e|us]].
Qed.

(** ** Runs of the sign-in endpoints *)

(** What oidc-provider is told, and the upstream authentications behind it. *)
Inductive Event :=
| Authenticated (uid account sub : string)
| SignedIn (uid account : string).

(** openid-client and the models of oidc-provider do not touch users or interactions. *)
Class SignInLaws (client : UpstreamClient) (provider : Provider) (finished : option string -> string -> Prog unit)
    (others : Prog unit) : Prop := {
  sl_verifier :: Calm client.(uc_codeVerifier);
  sl_state :: Calm client.(uc_state);
  sl_nonce :: Calm client.(uc_nonce);
  sl_codeGrant url v s n :: Calm (client.(uc_authorizationCodeGrant) url v s n);
  sl_saveGrant props :: Calm (provider.(pv_saveGrant) props);
  sl_finished login g :: Calm (finished login g);
  sl_others :: Calm others
}.

(** At the callback [q] in [w], the stored interaction of the callback's state is [x], and
    the upstream provider answers the code of the callback's url, asked then with the
    verifier, state and nonce of [x], for the subject. *)
Definition verified (client : UpstreamClient) (new_URL : string -> string -> Exn + string) (q : CallbackRequest)
    (w : World) (x : OidcUpstreamInteraction) (sub : string) : Prop :=
  (exists id, interactions w.(committed) !! id = Some x) /\ q.(cb_state) = Some x.(ui_state) /\
  exists url w' tokens claims, current_url new_URL q = inr url /\
    client.(uc_authorizationCodeGrant) url x.(ui_codeVerifier) x.(ui_state) x.(ui_nonce) w = (w', inr tokens) /\
    tokens.2 = Some claims /\ claims.(ic_sub) = Some (JStr sub).

Section Runs.
Context (client : UpstreamClient) (provider : Provider) (finished : option string -> string -> Prog unit).
Context (escapeHtml : string -> string) (new_URL : string -> string -> Exn + string) (issuer : string) (others : Prog unit).

Abbreviation interact := (interaction client provider finished escapeHtml issuer).
Abbreviation call_back := (callback client escapeHtml new_URL issuer others).
Abbreviation binds := (bind_callback client new_URL others).

Definition interaction_events (details : InteractionDetails) (r : Exn + Answer) : list Event :=
  match r with inr (Finished (Some a) _) => [SignedIn details.(dt_uid) a] | _ => [] end.

(** The callback got as far as binding a user. *)
Definition callback_events (q : CallbackRequest) (w : World) : list Event :=
  if truthy_str q.(cb_error) then []
  else match q.(cb_code), q.(cb_state) with
       | Some (String _ _), Some ((String _ _) as state) =>
           match (binds q state w).2 with
           | inr (x, u, sub) => [Authenticated x.(ui_interactionUid) u.(tu_id) sub]
           | inl _ => []
           end
       | _, _ => []
       end.

(** The endpoints and the cleanup; the rest of the service leaves interactions alone. *)
Inductive signin_step : World -> list Event -> World -> Prop :=
| step_interaction details w : signin_step w (interaction_events details (interact details w).2) (interact details w).1
| step_callback q w : signin_step w (callback_events q w) (call_back q w).1
| step_cleanup w : signin_step w [] (cleanupExpiredInteractions w).1
| step_other w w' :
    interactions w'.(committed) = interactions w.(committed) ->
    (table_keyed tu_id (users w.(committed)) -> table_keyed tu_id (users w'.(committed))) -> signin_step w [] w'.

Inductive signin_run (w0 : World) : list Event -> World -> Prop :=
| run_nil : signin_run w0 [] w0
| run_snoc es w ev w' : signin_run w0 es w -> signin_step w ev w' -> signin_run w0 (es ++ ev) w'.

(** A callback of the run bound the account to the interaction: the upstream provider
    vouched for the subject, whose active member the account was. *)
Record attested (w0 : World) (es : list Event) (uid a : string) : Prop := {
  ae_event : exists es1 es2 sub q w1 u x, es = es1 ++ Authenticated uid a sub :: es2 /\ signin_run w0 es1 w1 /\
    callback_events q w1 = [Authenticated uid a sub] /\
    x.(ui_interactionUid) = uid /\ verified client new_URL q w1 x sub /\ u.(tu_id) = a /\ member_row sub u (call_back q w1).1
}.

Lemma attested_app w0 es es' uid a : attested w0 es uid a -> attested w0 (es ++ es') uid a.
Proof.
  intros [(es1 & es2 & sub & q & w1 & u & x & -> & H)]. split. exists es1, (es2 ++ es'), sub, q, w1, u, x.
  split; [|done]. by rewrite <-app_assoc.
Qed.

Context `{!SignInLaws client provider finished others}.

Lemma Calm_finish login a details : Calm (finish_with_grant provider finished escapeHtml login a details).
Proof.
  unfold finish_with_grant, createAndSaveGrant, adapter_findById, user_findById, users_findById, roleScopes_findScopesForRole.
  solve_calm.
Qed.

Lemma initiate_ok attest uid tenantId redirect w :
  signin_ok attest (interactions w.(committed)) ->
  signin_ok attest (interactions (initiateUpstreamLogin client uid tenantId redirect w).1.(committed)) /\
  (table_keyed tu_id (users w.(committed)) ->
   table_keyed tu_id (users (initiateUpstreamLogin client uid tenantId redirect w).1.(committed))).
Proof.
  intros H. unfold initiateUpstreamLogin, mbind, prog_bind.
  destruct (uc_codeVerifier client w) as [w1 [e|v]] eqn:E1; apply (calm_run _) in E1 as [_ K1 I1]; [cbn [fst]; rewrite I1; auto|].
  destruct (uc_state client w1) as [w2 [e|s]] eqn:E2; apply (calm_run _) in E2 as [_ K2 I2]; [cbn [fst]; rewrite I2, I1; auto|].
  destruct (uc_nonce client w2) as [w3 [e|n]] eqn:E3; apply (calm_run _) in E3 as [_ K3 I3]; [cbn [fst]; rewrite I3, I2, I1; auto|].
  assert (signin_ok attest (interactions w3.(committed))) as H3 by (by rewrite I3, I2, I1).
  assert (forall input w, users (interactions_upsertByInteractionUid input w).1.(committed) = users w.(committed)) as Hu.
  { clear. intros input w. unfold interactions_upsertByInteractionUid. destruct (String.eqb _ _); [done|]. cbv zeta.
    erewrite bind_run by reflexivity. destruct (state_taken _ _ _); [done|]. erewrite bind_run by reflexivity.
    cbn [view]. destruct (find_one _ _); [done|]. erewrite bind_run by reflexivity. erewrite bind_run by reflexivity.
    erewrite bind_run by reflexivity. cbn [view]. by destruct (bool_decide _). }
  unfold storeInteraction, mbind, prog_bind. cbn [now_ms].
  match goal with |- context [interactions_upsertByInteractionUid ?i w3] =>
    pose proof (upsert_ok attest i w3 H3) as Hok; specialize (Hu i w3);
    destruct (interactions_upsertByInteractionUid i w3) as [w4 [e|x]] end; simpl in *; (split; [exact Hok|]); rewrite Hu; auto.
Qed.

Lemma finish_login login a details w l g :
  (finish_with_grant provider finished escapeHtml login a details w).2 = inr (Finished l g) -> l = login.
Proof.
  unfold finish_with_grant, mbind, prog_bind. destruct (createAndSaveGrant _ _ _ w) as [w1 [e|[[role denied]|grantId]]]; [done..|].
  destruct (finished login grantId w1) as [w2 [e|[]]]; [done|]. by intros [= -> _].
Qed.

Lemma Calm_findActiveClient id : Calm (findActiveClient id).
Proof. unfold findActiveClient, client_findByClientId. solve_calm. Qed.

Lemma start_ok attest details w :
  signin_ok attest (interactions w.(committed)) -> table_keyed tu_id (users w.(committed)) ->
  signin_ok attest (interactions (startUpstreamLogin client issuer details w).1.(committed)) /\
  table_keyed tu_id (users (startUpstreamLogin client issuer details w).1.(committed)) /\
  forall l g, (startUpstreamLogin client issuer details w).2 <> inr (Finished l g).
Proof.
  intros H K. unfold startUpstreamLogin.
  destruct (dt_accountId details) as [[|c a]|]; [|done|]; (destruct (dt_clientId details) as [id|]; [|done]);
    pose proof (Calm_findActiveClient id w) as [_ Hk Hi]; unfold mbind, prog_bind;
    (destruct (findActiveClient id w) as [w1 [e|[c1|]]]; cbn [fst] in Hk, Hi; [simpl; rewrite Hi; auto| |simpl; rewrite Hi; auto]);
    (destruct (initiate_ok attest (dt_uid details) (oc_tenantId c1) (buildOidcIssuerUrl issuer "callback") w1) as [Ho Hu];
      [by rewrite Hi|]);
    destruct (initiateUpstreamLogin _ _ _ _ w1) as [w2 [e|[st url]]]; simpl in *; auto.
Qed.

(** The endpoint reports the account of the interaction's consumed row. *)
Lemma interaction_ok attest details w :
  signin_ok attest (interactions w.(committed)) -> table_keyed tu_id (users w.(committed)) ->
  signin_ok attest (interactions (interact details w).1.(committed)) /\
  table_keyed tu_id (users (interact details w).1.(committed)) /\
  forall a g, (interact details w).2 = inr (Finished (Some a) g) -> attest details.(dt_uid) a.
Proof.
  intros H K. unfold interaction. destruct (String.eqb _ "login").
  - unfold getInteractionByUid, interactions_findByInteractionUid. erewrite bind_run by reflexivity. cbn [view].
    destruct (find_one _ _) as [x|] eqn:Ef.
    + destruct (ui_consumedAt x) as [t|] eqn:Ec.
      * apply find_one_Some in Ef as [Hu%String.eqb_eq [i Hi]].
        destruct (so_bound _ _ H i x Hi) as (a & Ha & HP); [congruence|]. rewrite Ha.
        pose proof (Calm_finish (Some a) a details w) as [_ Hk Hin]. rewrite Hin. split_and!; [done|auto|].
        intros a' g [= ->]%finish_login. by rewrite <-Hu.
      * destruct (start_ok attest details w H K) as (H1 & H2 & H3). split_and!; [done..|]. by intros a g ?%H3.
    + destruct (start_ok attest details w H K) as (H1 & H2 & H3). split_and!; [done..|]. by intros a g ?%H3.
  - destruct (String.eqb _ "consent"); [|done]. destruct (dt_accountId details) as [[|c a]|]; [done| |done].
    pose proof (Calm_finish None (String c a) details w) as [_ Hk Hin]. rewrite Hin. split_and!; [done|auto|].
    by intros a' g ?%finish_login.
Qed.

#[local] Instance Calm_upstream f : Calm (modify NoTx (fun d => set_upstream (f d) d)).
Proof. intros w. by apply calm_same. Qed.

Lemma Calm_stage s : Calm (stagePendingUpstreamSession s).
Proof. unfold stagePendingUpstreamSession, upstream_createPending, upstream_write. solve_calm. Qed.

(** What happens up to the binding: nothing to the interactions before it; then the row
    of the state names a member with the subject that was verified for it. *)
Lemma bind_run_cases q state w :
  q.(cb_state) = Some state -> table_keyed tu_id (users w.(committed)) ->
  match binds q state w with
  | (w', inl _) => interactions w'.(committed) = interactions w.(committed) /\ table_keyed tu_id (users w'.(committed))
  | (w', inr (x, u, sub)) =>
      find_one (has_state state) (interactions w.(committed)) = Some x /\ verified client new_URL q w x sub /\
      exists w5, calm w w5 /\ member_row sub u w5 /\
        setTenantUserIdForInteraction state u.(tu_id) w5 = (w', inr (ui_set_tenantUserId u.(tu_id) x))
  end.
Proof.
  intros Hq K. unfold bind_callback, of_sum, mbind, prog_bind. destruct (current_url new_URL q) as [e|url] eqn:Eurl; [done|].
  unfold handleUpstreamCallback. destruct (validate_run state w) as ([e|x] & Ev & Hx).
  { unfold mbind, prog_bind. by rewrite Ev. }
  specialize (Hx x eq_refl). unfold mbind, prog_bind. rewrite Ev.
  destruct (uc_authorizationCodeGrant client url _ _ _ w) as [w1 [e|tokens]] eqn:Eg; apply (calm_run _) in Eg as Hc1;
    [by destruct Hc1; auto|].
  assert (forall e, match (throw e : Prog unit) w1 with
    | (w', inl _) => interactions w'.(committed) = interactions w.(committed) /\ table_keyed tu_id (users w'.(committed))
    | _ => True end) as Hfail by (intros e; destruct Hc1; simpl; auto).
  destruct tokens.1 as [[| | |[|c idToken]| |]|]; try exact (Hfail (JsError "")).
  destruct tokens.2 as [claims|] eqn:Ec; [|exact (Hfail (JsError ""))].
  destruct (ic_sub claims) as [[| | |sub| |]|] eqn:Es; try exact (Hfail (JsError "")).
  cbn [mret prog_ret uk_sub].
  assert (verified client new_URL q w x sub) as Hv.
  { apply find_one_Some in Hx as [Hs%String.eqb_eq Hid]. split; [done|]. split; [by rewrite Hs|].
    by exists url, w1, tokens, claims. }
  destruct (federated_selects others sub (ui_tenantId x) (mkClaims sub (ic_email claims) (ic_name claims)) w1 eq_refl
              (cm_keyed _ _ Hc1 K)) as [Hc2 Hm].
  destruct (federated_user others (ui_tenantId x) _ w1) as [w2 [e|u]]; cbn [fst snd] in *.
  { assert (calm w w2) as [_ Hk Hi] by by etrans. auto. }
  specialize (Hm u eq_refl).
  match goal with |- context [stagePendingUpstreamSession ?s w2] => pose proof (Calm_stage s w2) as Hc3;
    destruct (stagePendingUpstreamSession s w2) as [w3 [e|[]]] end; cbn [fst] in Hc3.
  { assert (calm w w3) as [_ Hk Hi] by (do 2 (etrans; [eassumption|]); done). auto. }
  assert (calm w w3) as Hc by (do 2 (etrans; [eassumption|]); done).
  assert (find_one (has_state state) (interactions w3.(committed)) = Some x) as Hx3 by (by rewrite (cm_interactions _ _ Hc)).
  destruct (validate_run state w3) as ([e|y] & E3 & Hy).
  { unfold setTenantUserIdForInteraction, mbind, prog_bind. rewrite E3. destruct Hc. auto. }
  specialize (Hy y eq_refl). assert (y = x) as -> by congruence.
  unfold setTenantUserIdForInteraction at 1, mbind, prog_bind. rewrite E3. simpl.
  split; [done|]. split; [done|]. exists w3. split; [done|]. split; [exact (member_calm _ _ _ _ Hc3 Hm)|].
  unfold setTenantUserIdForInteraction. by erewrite bind_run by exact E3.
Qed.

Lemma consume_users state w : users (consumeInteraction state w).1.(committed) = users w.(committed).
Proof.
  unfold consumeInteraction. destruct (validate_run state w) as ([e|y] & E & _).
  - by erewrite bind_throw by exact E.
  - erewrite bind_run by exact E. by erewrite bind_run by reflexivity.
Qed.

Lemma set_user_users state a w : users (setTenantUserIdForInteraction state a w).1.(committed) = users w.(committed).
Proof.
  unfold setTenantUserIdForInteraction. destruct (validate_run state w) as ([e|y] & E & _).
  - by erewrite bind_throw by exact E.
  - by erewrite bind_run by exact E.
Qed.

(** The part of the callback that may throw. *)
Definition accept (q : CallbackRequest) (state : string) : Prog Answer :=
  '(x, _, _) ← binds q state;
  _ ← consumeInteraction state;
  mret (Redirect (buildOidcIssuerUrl issuer ("interaction/" +:+ x.(ui_interactionUid)))).

Lemma accept_ok (attest : string -> string -> Prop) q state w :
  q.(cb_state) = Some state ->
  (forall x u sub, (binds q state w).2 = inr (x, u, sub) -> verified client new_URL q w x sub ->
     member_row sub u (accept q state w).1 -> attest x.(ui_interactionUid) u.(tu_id)) ->
  signin_ok attest (interactions w.(committed)) -> table_keyed tu_id (users w.(committed)) ->
  signin_ok attest (interactions (accept q state w).1.(committed)) /\
  table_keyed tu_id (users (accept q state w).1.(committed)).
Proof.
  intros Hq Hev H K. pose proof (bind_run_cases q state w Hq K) as Hb. unfold accept, mbind, prog_bind in *.
  destruct (bind_callback client new_URL others q state w) as [w' [e|[[x u] sub]]]; [destruct Hb as [Hi Hk]; simpl; by rewrite Hi|].
  destruct Hb as (Hx & Hv & w5 & Hc & Hm & Hset).
  pose proof (set_user_users state u.(tu_id) w5) as Hu5. rewrite Hset in Hu5. cbn [fst] in Hu5.
  pose proof (consume_users state w') as Hu6. rewrite Hu5 in Hu6.
  assert (table_keyed tu_id (users w5.(committed))) as K5 by (by apply (cm_keyed _ _ Hc)).
  assert (attest x.(ui_interactionUid) u.(tu_id)) as Ha.
  { apply (Hev x u sub); [done|done|]. unfold member_row in *.
    destruct (consumeInteraction state w') as [w6 [e|y]]; simpl in *; by rewrite Hu6. }
  rewrite <-(cm_interactions _ _ Hc) in H, Hx.
  destruct (set_user_ok attest state u.(tu_id) w5 x H Hx Ha) as [Hok Hfound]. rewrite Hset in Hok, Hfound.
  specialize (Hfound eq_refl). cbn [fst] in Hok, Hfound.
  pose proof (consume_ok attest state w' _ u.(tu_id) Hok Hfound eq_refl Ha) as Hdone.
  destruct (consumeInteraction state w') as [w6 [e|y]]; simpl in *; rewrite Hu6; auto.
Qed.

(** A callback either changes no interaction or binds and consumes the one of its state. *)
Lemma callback_ok (attest attest' : string -> string -> Prop) q w :
  (forall uid a, attest uid a -> attest' uid a) ->
  (forall uid a sub u x, callback_events q w = [Authenticated uid a sub] -> x.(ui_interactionUid) = uid ->
     verified client new_URL q w x sub -> u.(tu_id) = a -> member_row sub u (call_back q w).1 -> attest' uid a) ->
  signin_ok attest (interactions w.(committed)) -> table_keyed tu_id (users w.(committed)) ->
  signin_ok attest' (interactions (call_back q w).1.(committed)) /\
  table_keyed tu_id (users (call_back q w).1.(committed)).
Proof.
  intros Hmono Hev H%(signin_mono _ _ _ Hmono) K. unfold callback_events, callback in *.
  assert (forall state, (catch (accept q state) (fun e => mret (PlainText 400 ("Error processing callback: " +:+
    escapeHtml (exn_message e)))) w).1 = (accept q state w).1) as Hcatch.
  { intros state. unfold catch. by destruct (accept q state w) as [w' [e|a]]. }
  destruct (cb_error q) as [[|c0 er]|]; [|done|];
  (destruct (cb_code q) as [[|c1 code]|]; [done| |done]); (destruct (cb_state q) as [[|c2 st]|] eqn:Est; [done| |done]);
  cbn [truthy_str] in Hev; fold (accept q (String c2 st)) in *; rewrite Hcatch in *;
  (apply accept_ok; [done| |done|done]; intros x u sub E Hv Hm; apply (Hev _ _ sub u x); [by rewrite E|done..]).
Qed.

(** The state a run reaches, and every login of it. *)
Lemma run_ok w0 es w :
  interactions w0.(committed) = ∅ -> table_keyed tu_id (users w0.(committed)) -> signin_run w0 es w ->
  signin_ok (attested w0 es) (interactions w.(committed)) /\ table_keyed tu_id (users w.(committed)) /\
  (forall es1 uid a es2, es = es1 ++ SignedIn uid a :: es2 -> attested w0 es1 uid a).
Proof.
  intros H0 K0 Hrun. induction Hrun as [|es w ev w' Hrun (IH1 & IH2 & IH3) Hstep].
  { split_and!; [|done|by intros [|? ?] ? ? ? [=]]. rewrite H0. by split; intros *; rewrite lookup_empty. }
  assert (forall uid a, attested w0 es uid a -> attested w0 (es ++ ev) uid a) as Hmono by (intros; by apply attested_app).
  assert (signin_ok (attested w0 (es ++ ev)) (interactions w'.(committed)) /\ table_keyed tu_id (users w'.(committed)) /\
    (forall uid a, SignedIn uid a ∈ ev -> attested w0 es uid a)) as (H1 & H2 & H3).
  { destruct Hstep as [details w|q w|w|w w' Hi Hk].
    - destruct (interaction_ok _ details w IH1 IH2) as (Ho & Hk & Hs). split_and!; [by eapply signin_mono|done|].
      intros uid a. unfold interaction_events.
      destruct (interaction _ _ _ _ _ details w).2 as [e|[| |[a'|] g]] eqn:Er; intros Hin; try by apply elem_of_nil in Hin.
      apply list_elem_of_singleton in Hin as [= -> ->]. by eapply Hs.
    - destruct (callback_ok (attested w0 es) (attested w0 (es ++ callback_events q w)) q w) as [Ho Hk]; [done| |done|done|].
      { intros uid a sub u x Ee Hu Hv Ha Hm. split. exists es, [], sub, q, w, u, x. by rewrite Ee. }
      split_and!; [done|done|]. intros uid a Hin. exfalso. unfold callback_events in Hin.
      destruct (truthy_str _); [by apply elem_of_nil in Hin|].
      destruct (cb_code q) as [[|? ?]|]; [by apply elem_of_nil in Hin| |by apply elem_of_nil in Hin].
      destruct (cb_state q) as [[|? ?]|]; [by apply elem_of_nil in Hin| |by apply elem_of_nil in Hin].
      destruct (_.2) as [e|[[x u] sub]]; [by apply elem_of_nil in Hin|]. by apply list_elem_of_singleton in Hin.
    - split_and!; [by apply cleanup_ok; eapply signin_mono|by rewrite cleanup_users|by intros ? ? ?%elem_of_nil].
    - rewrite Hi. split_and!; [by eapply signin_mono|auto|by intros ? ? ?%elem_of_nil]. }
  split_and!; [done|done|]. intros es1 uid a es2 E.
  apply app_eq_inv in E as [(k & -> & Ek)|(k & -> & Ek)].
  - destruct k as [|y k]; simpl in Ek.
    + rewrite app_nil_r in H3. apply H3. rewrite <-Ek. left.
    + injection Ek as <- _. by eapply IH3.
  - apply attested_app, H3. rewrite Ek. set_solver.
Qed.
End Runs.

(** C15: nobody signs in without the upstream provider.  In every run of the sign-in
    endpoints and of whatever else the service does, each login reported to oidc-provider
    for an interaction was preceded by a callback of the run in whose world the stored
    interaction of the callback's state was that one, and at which the upstream provider
    answered the code, asked with that interaction's verifier, state and nonce, with a
    subject of whom the account was then an active member. *)
Theorem login_follows_upstream client provider finished escapeHtml new_URL issuer others w0 es w es1 uid a es2 :
  SignInLaws client provider finished others ->
  interactions w0.(committed) = ∅ -> table_keyed tu_id (users w0.(committed)) ->
  signin_run client provider finished escapeHtml new_URL issuer others w0 es w ->
  es = es1 ++ SignedIn uid a :: es2 ->
  attested client provider finished escapeHtml new_URL issuer others w0 es1 uid a.
Proof. intros HL H0 K Hrun. by apply (run_ok client provider finished escapeHtml new_URL issuer others w0 es w). Qed.

(** ** A concrete sign-in *)

Definition sample_upstream : UpstreamClient :=
  mkUpstreamClient (mret "verifier") (mret "state") (mret "nonce") (fun v => v)
    (fun redirect state nonce challenge => "https://idp/auth?state=" +:+ state)
    (fun _ _ _ _ => mret (Some (JStr "idtoken"), Some (mkIdClaims (Some (JStr "x")) None None None)))
    (fun _ => mret 200).

#[local] Instance sample_signin_laws : SignInLaws sample_upstream sample_provider (fun _ _ => mret tt) (mret tt).
Proof.
  split; try apply _. intros props. unfold sample_provider. cbn [pv_saveGrant].
  apply Calm_bind; [apply _|]. intros g. apply Calm_bind; [|apply _]. intros w. by apply calm_same.
Qed.

(** A client of the tenant, and nobody who signed in yet. *)
Definition signin_db : DB :=
  set_clients {[ "c" := mkOAuthClient "c" "t" "ui" None true "UI" [] [] [] [] ["authorization_code"] None 0 None None None ]}
    empty_db.

Definition signin_details : InteractionDetails := mkDetails "i1" "login" (Some "ui") None (Some ["openid"]) None.
Definition signin_callback : CallbackRequest :=
  mkCallback (Some "code") (Some "state") None None None (Some "host") (Some "/oidc/callback").

Abbreviation sample_interact := (interaction sample_upstream sample_provider (fun _ _ => mret tt) (fun s => s) "https://issuer").
Abbreviation sample_callback := (callback sample_upstream (fun s => s) (fun p h => inr (h +:+ p)) "https://issuer" (mret tt)).

Definition signin_w1 : World := (sample_interact signin_details (world_of signin_db 0)).1.
Definition signin_w2 : World := (sample_callback signin_callback signin_w1).1.

(** The user is sent upstream, comes back, and is signed in under the account the callback
    made. *)
Lemma login_follows_upstream_witness :
  (sample_interact signin_details (world_of signin_db 0)).2 = inr (Redirect "https://idp/auth?state=state") /\
  (sample_callback signin_callback signin_w1).2 = inr (Redirect "https://issuer/interaction/i1") /\
  attested sample_upstream sample_provider (fun _ _ => mret tt) (fun s => s) (fun p h => inr (h +:+ p)) "https://issuer"
    (mret tt) (world_of signin_db 0) [Authenticated "i1" "u1" "x"] "i1" "u1".
Proof.
  split; [vm_compute; reflexivity|]. split; [vm_compute; reflexivity|].
  eapply (login_follows_upstream sample_upstream sample_provider (fun _ _ => mret tt) (fun s => s) (fun p h => inr (h +:+ p))
            "https://issuer" (mret tt) (world_of signin_db 0) [Authenticated "i1" "u1" "x"; SignedIn "i1" "u1"]
            (sample_interact signin_details signin_w2).1 _ "i1" "u1" []).
  - apply _.
  - reflexivity.
  - intros i u H. vm_compute in H. discriminate H.
  - apply (run_snoc _ _ _ _ _ _ _ _ [Authenticated "i1" "u1" "x"] signin_w2 [SignedIn "i1" "u1"]).
    + apply (run_snoc _ _ _ _ _ _ _ _ [] signin_w1 [Authenticated "i1" "u1" "x"]).
      * apply (run_snoc _ _ _ _ _ _ _ _ [] (world_of signin_db 0) []); [constructor|].
        exact (step_interaction _ _ _ _ _ _ _ signin_details (world_of signin_db 0)).
      * replace [Authenticated "i1" "u1" "x"] with
          (callback_events sample_upstream (fun p h => inr (h +:+ p)) (mret tt) signin_callback signin_w1)
          by (vm_compute; reflexivity).
        exact (step_callback _ _ _ _ _ _ _ signin_callback signin_w1).
    + replace [SignedIn "i1" "u1"] with (interaction_events signin_details (sample_interact signin_details signin_w2).2)
        by (vm_compute; reflexivity).
      exact (step_interaction _ _ _ _ _ _ _ signin_details signin_w2).
  - reflexivity.
Defined.
