(* ===== verification/OidcPurge.v ===== *)
(** * Purging expired OIDC records

    libs/oidc/src: oidc-purge.repository.ts and the hourly job of oidc-purge.service.ts,
    which logs expired sessions out upstream and deletes expired records, staged sessions
    and interactions in bounded batches.  The do-while loop is structural on the batches
    left before the per-run cap. *)

From Stdlib Require Import Ascii ZArith Lia.
From stdpp Require Import base decidable strings sets gmap list list_relations.
From S2P Require Import Prelude Js OperationTtl JsText Entities StateMapping Db Pagination TenantRepository OidcSessions.
From S2P Require Import OperationPurge Auth TenantUserService RoleScope Lifecycle ProtocolNotification ServiceLogic OidcCorrectness SignIn.

Local Open Scope Z_scope.

(** ** OidcPurgeRepository *)

Definition expired_record (now : Z) (r : OidcModel) : bool :=
  match r.(om_expiresAt) with Some e => e <? now | None => false end.

(** [ORDER BY expires_at LIMIT] of the records that satisfy [P]. *)
Definition oldest (limit : Z) (P : OidcModel -> bool) (d : DB) : list OidcModel :=
  take (Z.to_nat (Z.max 1 limit)) (order_by (fun r => (default 0 r.(om_expiresAt), r.(om_id))) ASC (select P (oidc d))).

(** The expired sessions with an upstream session: the record and the session's uid. *)
Definition getExpiredSessionsWithUpstreamCleanup (limit : Z) : Prog (list (string * option string)) :=
  now ← now_us;
  read NoTx (fun d =>
    let upstream r := find_one (of_model r.(om_id)) (upstream_sessions d) in
    map (fun r => (r.(om_id), upstream r ≫= us_oidcSessionUid))
      (oldest limit (fun r => is_model SESSION_MODEL r && expired_record now r && bool_decide (is_Some (upstream r))) d)).

Definition count_by_model (l : list OidcModel) : list (string * nat) :=
  (fun n => (n, length (filter (fun r => r.(om_modelName) = n) l))) <$> remove_dups (om_modelName <$> l).

Definition purgeExpiredBatch (limit : Z) : Prog (list (string * nat)) :=
  now ← now_us;
  gone ← delete_where NoTx (fun d r => mem_str r.(om_id) (map om_id (oldest limit (expired_record now) d)));
  mret (count_by_model gone).

Definition purgeExpiredUpstreamInteractionsBatch (limit : Z) : Prog nat :=
  now ← now_us;
  ids ← read NoTx (fun d => map ui_id (take (Z.to_nat (Z.max 1 limit))
           (order_by (fun x => (x.(ui_expiresAt), x.(ui_id))) ASC
              (select (fun x => x.(ui_expiresAt) <? now) (interactions d)))));
  count ← read NoTx (fun d => count_rows (fun x => mem_str x.(ui_id) ids) (interactions d));
  _ ← modify NoTx (fun d => set_interactions (foldr delete (interactions d) ids) d);
  mret count.

(** ** OidcPurgeService *)

Record PurgeReport := mkReport {
  pr_totalsByModel : list (string * nat);
  pr_upstreamInteractions : nat;
  pr_logouts : nat;
  pr_pendingSessions : nat;
  pr_batches : nat
}.

Section Purge.
Context (client : UpstreamClient).

(** The upstream logouts of a batch, best effort: how many succeeded. *)
Fixpoint logout_all (sessions : list (string * option string)) : Prog nat :=
  match sessions with
  | [] => mret 0%nat
  | s :: rest =>
      done ← catch (_ ← logoutUpstreamSessionForOidcSession client s.1; mret 1%nat) (fun _ => mret 0%nat);
      more ← logout_all rest;
      mret (done + more)%nat
  end.

(** The body of the loop: the records deleted by this batch, and the totals. *)
Definition purge_once (report : PurgeReport) : Prog (nat * PurgeReport) :=
  sessionsToCleanup ← getExpiredSessionsWithUpstreamCleanup BATCH_SIZE;
  logouts ← logout_all sessionsToCleanup;
  deletedPending ← upstream_deleteExpiredPendingBatch BATCH_SIZE;
  batch ← purgeExpiredBatch BATCH_SIZE;
  upstreamCount ← purgeExpiredUpstreamInteractionsBatch BATCH_SIZE;
  mret (batch_count batch,
        mkReport (foldl add_total report.(pr_totalsByModel) batch) (report.(pr_upstreamInteractions) + upstreamCount)
          (report.(pr_logouts) + logouts) (report.(pr_pendingSessions) + deletedPending) (S report.(pr_batches))).

(** The loop with [left] more batches allowed after this one. *)
Fixpoint purge_models (left : nat) (report : PurgeReport) : Prog PurgeReport :=
  '(batchCount, report) ← purge_once report;
  match left with
  | S left' => if (0 <? batchCount)%nat then purge_models left' report else mret report
  | O => mret report
  end.

Definition purgeExpiredModels : Prog PurgeReport :=
  purge_models (MAX_BATCHES_PER_RUN - 1) (mkReport [] 0 0 0 0).
End Purge.

(** ** What a run removes *)

(** Time goes on, and only records that have expired by then go. *)
Record purged (w w' : World) : Prop := {
  pg_clock : w.(clock) <= w'.(clock);
  pg_rows i r : oidc w'.(committed) !! i = Some r -> oidc w.(committed) !! i = Some r;
  pg_gone i r : oidc w.(committed) !! i = Some r ->
    oidc w'.(committed) !! i = Some r \/ expired_record w'.(clock) r = true
}.

Lemma expired_later now now' r : now <= now' -> expired_record now r = true -> expired_record now' r = true.
Proof. unfold expired_record. destruct (om_expiresAt r); [|done]. rewrite !Z.ltb_lt. lia. Qed.

#[export] Instance purged_preorder : PreOrder purged.
Proof.
  split; [by intros w; split; [lia|auto|auto]|]. intros a b c [C1 R1 G1] [C2 R2 G2].
  split; [lia|auto|]. intros i r Hr. destruct (G1 i r Hr) as [Hb|He]; [by apply G2|right; by eapply expired_later].
Qed.

Lemma purged_same w w' :
  w.(clock) <= w'.(clock) -> oidc w'.(committed) = oidc w.(committed) -> purged w w'.
Proof. intros Hc Ho. split; rewrite ?Ho; auto. Qed.

Class Purging {A} (p : Prog A) : Prop := purging w : purged w (p w).1.

#[export] Instance Purging_ret {A} (a : A) : Purging (mret a).
Proof. by intros w. Qed.
#[export] Instance Purging_throw {A} e : Purging (throw (A:=A) e).
Proof. by intros w. Qed.
#[export] Instance Purging_read {A} m (f : DB -> A) : Purging (read m f).
Proof. by intros w. Qed.
#[export] Instance Purging_now : Purging now_us.
Proof. by intros w. Qed.
#[export] Instance Purging_bind {A B} (p : Prog A) (k : A -> Prog B) : Purging p -> (forall a, Purging (k a)) -> Purging (p ≫= k).
Proof.
  intros Hp Hk w. unfold mbind, prog_bind. pose proof (Hp w) as H. destruct (p w) as [w1 [e|a]]; [done|].
  simpl in H. etrans; [exact H|apply Hk].
Qed.
#[export] Instance Purging_catch {A} (p : Prog A) (h : Exn -> Prog A) : Purging p -> (forall e, Purging (h e)) -> Purging (catch p h).
Proof.
  intros Hp Hh w. unfold catch. pose proof (Hp w) as H. destruct (p w) as [w1 [e|a]]; [|done].
  simpl in H. etrans; [exact H|apply Hh].
Qed.
#[export] Instance Purging_upstream f : Purging (modify NoTx (fun d => set_upstream (f d) d)).
Proof. intros w. apply purged_same; [simpl; lia|done]. Qed.
#[export] Instance Purging_interactions f : Purging (modify NoTx (fun d => set_interactions (f d) d)).
Proof. intros w. apply purged_same; [simpl; lia|done]. Qed.

Lemma elem_of_oldest limit P d r : r ∈ oldest limit P d -> P r = true /\ exists i, oidc d !! i = Some r.
Proof.
  unfold oldest. intros Hin. apply (elem_of_submseteq _ (order_by (fun r => (default 0 r.(om_expiresAt), r.(om_id))) ASC
    (select P (oidc d)))) in Hin; [|apply sublist_submseteq, sublist_take].
  rewrite order_by_perm in Hin. by apply elem_of_select in Hin.
Qed.

Section Runs.
Context (client : UpstreamClient).
Context (end_session : forall token, Purging (client.(uc_endSession) token)).

#[local] Instance Purging_logout id : Purging (logoutUpstreamSessionForOidcSession client id).
Proof.
  unfold logoutUpstreamSessionForOidcSession. apply Purging_bind; [apply _|]. intros [s|]; [|apply _].
  apply Purging_bind; [apply end_session|]. intros status. destruct (400 <=? status); apply _.
Qed.

#[local] Instance Purging_logout_all l : Purging (logout_all client l).
Proof.
  induction l as [|s l IH]; cbn [logout_all]; [apply _|].
  apply Purging_bind; [apply Purging_catch; apply _|]. intros n. apply Purging_bind; apply _.
Qed.

#[local] Instance Purging_pending limit : Purging (upstream_deleteExpiredPendingBatch limit).
Proof.
  unfold upstream_deleteExpiredPendingBatch. apply Purging_bind; [apply _|]. intros now.
  apply Purging_bind; [apply _|]. intros [|s l]; apply _.
Qed.

(** A batch of records. *)
Lemma purge_batch_run limit w :
  exists gone, purgeExpiredBatch limit w =
    (modify_view NoTx (fun d => set_oidc (filter (fun kv =>
       mem_str kv.2.(om_id) (map om_id (oldest limit (expired_record w.(clock)) d)) = false) (oidc d)) d) w,
     inr (count_by_model gone)) /\
    gone = select (fun r => mem_str r.(om_id) (map om_id (oldest limit (expired_record w.(clock)) w.(committed)))) (oidc w.(committed)).
Proof.
  eexists. split; [|reflexivity]. unfold purgeExpiredBatch. erewrite bind_run by reflexivity.
  erewrite bind_run by apply delete_run. reflexivity.
Qed.

Lemma purge_batch_purged limit w : table_keyed om_id (oidc w.(committed)) -> purged w (purgeExpiredBatch limit w).1.
Proof.
  intros K. destruct (purge_batch_run limit w) as (gone & -> & _). split; [simpl; lia| |].
  - intros i r [Hr _]%(delete_lookup (fun d r => mem_str r.(om_id) (map om_id (oldest limit (expired_record w.(clock)) d)))). done.
  - intros i r Hr.
    destruct (mem_str r.(om_id) (map om_id (oldest limit (expired_record w.(clock)) w.(committed)))) eqn:Em.
    + right. apply mem_str_spec, list_elem_of_fmap in Em as (x & Hid & Hx).
      apply elem_of_oldest in Hx as [He [j Hj]].
      assert (x = r) as -> by (pose proof (K i r Hr); pose proof (K j x Hj); congruence). exact He.
    + left. by apply (delete_lookup (fun d r => mem_str r.(om_id) (map om_id (oldest limit (expired_record w.(clock)) d)))).
Qed.

Lemma oldest_nil limit P d : oldest limit P d = [] -> forall i r, oidc d !! i = Some r -> P r = false.
Proof.
  unfold oldest. intros H i r Hr. apply not_true_is_false. intros HP.
  assert (r ∈ select P (oidc d)) as Hin by (apply elem_of_select; eauto).
  rewrite <-(order_by_perm (fun r => (default 0 r.(om_expiresAt), r.(om_id))) ASC) in Hin.
  destruct (order_by _ _ _) as [|x l]; [by apply elem_of_nil in Hin|].
  destruct (Z.to_nat (Z.max 1 limit)) eqn:E; [lia|done].
Qed.

(** A batch that deletes nothing leaves nothing expired. *)
Lemma empty_batch limit w w' counts :
  purgeExpiredBatch limit w = (w', inr counts) -> batch_count counts = 0%nat ->
  forall i r, oidc w.(committed) !! i = Some r -> expired_record w.(clock) r = false.
Proof.
  intros E Hz. destruct (purge_batch_run limit w) as (gone & E' & Hg). rewrite E in E'. injection E' as _ ->.
  apply (oldest_nil limit). destruct (oldest limit (expired_record w.(clock)) w.(committed)) as [|x l] eqn:Eo; [done|].
  exfalso. assert (x ∈ gone) as Hx.
  { destruct (elem_of_oldest limit (expired_record w.(clock)) w.(committed) x) as [_ Hi]; [rewrite Eo; left|].
    rewrite Hg. apply elem_of_select. split; [apply mem_str_spec; left|done]. }
  destruct gone as [|y gone]; [by apply elem_of_nil in Hx|].
  pose proof (batch_count_grouped om_modelName (y :: gone)) as H. unfold count_by_model in Hz. rewrite Hz in H.
  by specialize (H ltac:(done)); lia.
Qed.

Lemma purged_keyed w w' : purged w w' -> table_keyed om_id (oidc w.(committed)) -> table_keyed om_id (oidc w'.(committed)).
Proof. intros H K i r Hr. by apply K, (pg_rows _ _ H). Qed.

Lemma purging_run {A} (p : Prog A) `{!Purging p} w w' r : p w = (w', r) -> purged w w'.
Proof. intros E. pose proof (purging w) as H. by rewrite E in H. Qed.

Lemma purge_once_run report w w' n report' :
  table_keyed om_id (oidc w.(committed)) -> purge_once client report w = (w', inr (n, report')) ->
  purged w w' /\ report'.(pr_batches) = S report.(pr_batches) /\
  (n = 0%nat -> forall i r, oidc w'.(committed) !! i = Some r -> expired_record w.(clock) r = false).
Proof.
  intros K E. unfold purge_once in E.
  apply bind_inr in E as (w1 & sessions & E1 & E). apply (purging_run _) in E1 as P1.
  apply bind_inr in E as (w2 & logouts & E2 & E). apply (purging_run _) in E2 as P2.
  apply bind_inr in E as (w3 & pending & E3 & E). apply (purging_run _) in E3 as P3.
  apply bind_inr in E as (w4 & batch & E4 & E). apply bind_inr in E as (w5 & count & E5 & E).
  assert (purged w w3) as P03 by (do 2 (etrans; [eassumption|]); done).
  pose proof (purge_batch_purged BATCH_SIZE w3 (purged_keyed _ _ P03 K)) as P4. rewrite E4 in P4. cbn [fst] in P4.
  apply (purging_run _) in E5 as P5.
  assert (purged w3 w5) as P35 by by etrans. injection E as -> <- <-.
  split; [by etrans|]. split; [done|]. intros Hz i r Hr. apply not_true_is_false. intros He.
  apply (expired_later _ w3.(clock)) in He; [|apply (pg_clock _ _ P03)].
  by rewrite (empty_batch BATCH_SIZE w3 w4 batch E4 Hz i r (pg_rows _ _ P35 i r Hr)) in He.
Qed.

(** The loop: it removes only what has expired, and when it stops before its cap nothing is
    left that had expired when it began. *)
Lemma purge_models_run left report w w' report' :
  table_keyed om_id (oidc w.(committed)) -> purge_models client left report w = (w', inr report') ->
  purged w w' /\ ((report'.(pr_batches) <= left + report.(pr_batches))%nat -> forall i r,
    oidc w'.(committed) !! i = Some r -> expired_record w.(clock) r = false).
Proof.
  revert report w. induction left as [|left IH]; intros report w K E; cbn [purge_models] in E;
    apply bind_inr in E as (w1 & [n report1] & E1 & E); apply purge_once_run in E1 as (P1 & Hb & Hn); [|done| |done].
  - injection E as <- <-. split; [done|]. rewrite Hb. lia.
  - destruct (Nat.ltb_spec 0 n) as [Hpos|Hz].
    + apply IH in E as [P2 Hd]; [|by apply (purged_keyed _ _ P1)]. split; [by etrans|]. intros Hle i r Hr.
      apply not_true_is_false. intros He. apply (expired_later _ w1.(clock)) in He; [|apply (pg_clock _ _ P1)].
      rewrite Hb in Hd. by rewrite (Hd ltac:(lia) i r Hr) in He.
    + injection E as <- <-. split; [done|]. intros _. apply Hn. lia.
Qed.
End Runs.

(** A run of the job removes no record that has not expired, and when it returns before
    its cap of batches none is left that had expired when it began. *)
Theorem oidc_purge_drains client w w' report :
  (forall token, Purging (client.(uc_endSession) token)) ->
  table_keyed om_id (oidc w.(committed)) -> purgeExpiredModels client w = (w', inr report) ->
  (forall i r, oidc w.(committed) !! i = Some r ->
     oidc w'.(committed) !! i = Some r \/ expired_record w'.(clock) r = true) /\
  ((report.(pr_batches) < MAX_BATCHES_PER_RUN)%nat -> forall i r,
     oidc w'.(committed) !! i = Some r -> expired_record w.(clock) r = false).
Proof.
  intros HL K E. unfold purgeExpiredModels in E. apply purge_models_run in E as [P H]; [|done..].
  split; [apply (pg_gone _ _ P)|]. intros Hlt. apply H. simpl. unfold MAX_BATCHES_PER_RUN in *. lia.
Qed.
