(* ===== verification/RequestBoundary.v ===== *)
(** * What leaves a request: error responses and the context of jobs

    common/filters: the filter that turns everything a handler throws into the error
    envelope of the API (global-exception.filter.ts) and the factory of validation
    failures (validation-exception-factory.ts).  jobs/jobs.service.ts: what a job carries
    of the request that enqueued it ([withRequestContext]), what the worker restores from
    it ([runJob]), and the order in which a batch is worked off.  The trace context is the
    carrier that the telemetry library injects. *)

From Stdlib Require Import Ascii ZArith Lia.
From stdpp Require Import base decidable strings sets gmap list list_relations.
From S2P Require Import Prelude Js OperationTtl JsText Redaction Entities StateMapping Db Auth LogAccess TokenValidation.

Local Open Scope Z_scope.

(** ** What is thrown *)

(** An HttpException has the body it was made with, its own message, and, when it is an
    authentication failure, the challenge; [stack] is [undefined] on values that are not
    errors. *)
Inductive Thrown :=
| ConnectorSelectionAmbiguousError (code message : string) (context : list (string * json)) (stack : option string)
| HttpException (status : Z) (response : json) (message : string) (challenge : option (string * string)) (stack : option string)
| OtherThrown (message : string) (stack : option string).

Definition stack_of (e : Thrown) : option string :=
  match e with ConnectorSelectionAmbiguousError _ _ _ s | HttpException _ _ _ _ s | OtherThrown _ s => s end.

Definition status_of (e : Thrown) : Z :=
  match e with
  | ConnectorSelectionAmbiguousError _ _ _ _ => 409
  | HttpException s _ _ _ _ => s
  | OtherThrown _ _ => 500
  end.

Definition rawResponse (e : Thrown) : json :=
  match e with HttpException _ r _ _ _ => r | _ => JNull end.

(** ** Bodies *)

Definition STATUS_CODE_FALLBACKS (status : Z) : option string :=
  if status =? 400 then Some "BAD_REQUEST"
  else if status =? 401 then Some "UNAUTHORIZED"
  else if status =? 403 then Some "FORBIDDEN"
  else if status =? 404 then Some "RESOURCE_NOT_FOUND"
  else if status =? 409 then Some "DUPLICATE_RESOURCE"
  else if status =? 422 then Some "UNPROCESSABLE_ENTITY"
  else if status =? 429 then Some "TOO_MANY_REQUESTS"
  else if status =? 500 then Some "INTERNAL_SERVER_ERROR"
  else None.

Definition GENERIC_SERVER_ERROR_MESSAGE : string := "An unexpected error occurred".

Definition is_text (v : option json) : bool := match v with Some (JStr _) => true | _ => false end.

Definition coded (o : list (string * json)) : bool := is_text (assoc "code" o) && is_text (assoc "message" o).

(** [isShapedErrorBody], with the error. *)
Definition isShapedErrorBody (v : json) : option (list (string * json)) :=
  match v with
  | JObj o => match assoc "error" o with Some (JObj e) => if coded e then Some e else None | _ => None end
  | _ => None
  end.

(** [isBareCodedBody], with the body. *)
Definition isBareCodedBody (v : json) : option (list (string * json)) :=
  match v with
  | JObj o => if bool_decide (assoc "error" o = None) && coded o then Some o else None
  | _ => None
  end.

(** [typeof v === 'object'] holds of [null] and of arrays. *)
Definition isHealthCheckBody (v : json) : bool :=
  match v with
  | JObj o => is_text (assoc "status" o) &&
              match assoc "details" o with Some (JObj _) | Some (JArr _) | Some JNull => true | _ => false end &&
              bool_decide (assoc "code" o = None) && bool_decide (assoc "message" o = None)
  | _ => false
  end.

(** [join('; ')]: [null] is nothing. *)
Definition join_messages (l : list json) : string :=
  String.concat "; " (map (fun v => match v with JNull => "" | _ => JsValue.to_string v end) l).

Definition extractHttpExceptionMessage (response : json) (message : string) : json :=
  match response with
  | JStr s => JStr s
  | _ => match get_prop "message" (Some response) with
         | Some (JArr l) => JStr (join_messages l)
         | None | Some JNull => JStr message
         | Some v => v
         end
  end.

Definition buildNormalizedErrorBody (e : Thrown) : list (string * json) :=
  let error :=
    match e with
    | ConnectorSelectionAmbiguousError code message context _ =>
        fold_left (fun o f => assoc_set f.1 f.2 o) context [("code", JStr code); ("message", JStr message)]
    | _ =>
        match isShapedErrorBody (rawResponse e), isBareCodedBody (rawResponse e) with
        | Some o, _ | None, Some o => o
        | None, None =>
            [("code", JStr (default ("HTTP_" +:+ JsValue.decimal_text (status_of e)) (STATUS_CODE_FALLBACKS (status_of e))));
             ("message", match e with
                         | HttpException _ r m _ _ => extractHttpExceptionMessage r m
                         | _ => JStr GENERIC_SERVER_ERROR_MESSAGE
                         end)]
        end
    end in
  if 500 <=? status_of e then assoc_set "message" (JStr GENERIC_SERVER_ERROR_MESSAGE) error else error.

(** ** The filter *)

Record FilterEnv := mkFilterEnv { fe_nodeEnv : option string; fe_requestId : option string }.

(** [NODE_ENV] is development by default. *)
Definition buildStackDetail (env : FilterEnv) (e : Thrown) : option json :=
  if String.eqb (default "development" env.(fe_nodeEnv)) "production" then None
  else (fun s => JObj [("message", JStr s)]) <$> stack_of e.

(** [[...(details ?? []), detail]]; what cannot be spread throws. *)
Definition add_detail (detail : json) (details : option json) : option json :=
  match details with
  | None | Some JNull => Some (JArr [detail])
  | Some (JArr l) => Some (JArr (l ++ [detail]))
  | Some (JStr s) => Some (JArr (map (fun c => JStr (String c "")) (String.list_ascii_of_string s) ++ [detail]))
  | Some _ => None
  end.

Definition buildBody (env : FilterEnv) (e : Thrown) : option json :=
  let error := buildNormalizedErrorBody e in
  let error := match env.(fe_requestId) with Some r => assoc_set "request_id" (JStr r) error | None => error end in
  match buildStackDetail env e with
  | None => Some (JObj [("error", JObj error)])
  | Some detail =>
      (fun d => JObj [("error", JObj (assoc_set "details" d error))]) <$> add_detail detail (assoc "details" error)
  end.

Record ErrorAnswer := mkErrorAnswer {
  ea_status : Z;
  ea_wwwAuthenticate : option string;
  ea_body : json
}.

(** [None]: the filter itself throws. *)
Definition filter_catch (env : FilterEnv) (e : Thrown) : option ErrorAnswer :=
  let header := match e with
                | HttpException _ _ _ (Some (error, description)) _ => Some (getWwwAuthenticateHeader error description)
                | _ => None
                end in
  if isHealthCheckBody (rawResponse e) then Some (mkErrorAnswer (status_of e) header (rawResponse e))
  else mkErrorAnswer (status_of e) header <$> buildBody env e.

(** ** Validation failures *)

Inductive ValidationFailure := VFail (property : string) (constraints : list string) (children : list ValidationFailure).

Definition validation_detail (field message : string) : json := JObj [("field", JStr field); ("message", JStr message)].

Fixpoint flattenValidationError (parentPath : string) (f : ValidationFailure) : list json :=
  match f with
  | VFail property constraints children =>
      let field := if String.eqb parentPath "" then property else parentPath +:+ ("." +:+ property) in
      map (validation_detail field) constraints ++
      (fix flatten (l : list ValidationFailure) : list json :=
         match l with [] => [] | c :: l' => flattenValidationError field c ++ flatten l' end) children
  end.

Definition validation_exception (errors : list ValidationFailure) (stack : option string) : Thrown :=
  HttpException 400
    (JObj [("error", JObj [("code", JStr "VALIDATION_FAILED"); ("message", JStr "Request validation failed");
                           ("details", JArr (errors ≫= flattenValidationError ""))])])
    "Bad Request Exception" None stack.

(** ** What a client learns *)

Definition production (env : FilterEnv) : Prop := env.(fe_nodeEnv) = Some "production".

Lemma body_production env e :
  production env ->
  buildBody env e = Some (JObj [("error", JObj (match env.(fe_requestId) with
    | Some r => assoc_set "request_id" (JStr r) (buildNormalizedErrorBody e) | None => buildNormalizedErrorBody e end))]).
Proof. intros Hp. unfold buildBody, buildStackDetail. by rewrite Hp. Qed.

Lemma server_error_message e :
  500 <= status_of e -> assoc "message" (buildNormalizedErrorBody e) = Some (JStr GENERIC_SERVER_ERROR_MESSAGE).
Proof. intros H. unfold buildNormalizedErrorBody. rewrite (proj2 (Z.leb_le _ _) H). apply assoc_set_eq. Qed.

(** In production internal errors are opaque.  The answer to anything thrown that is not
    meant for the client is the same whatever was thrown; an answer of status 500 or above
    carries the generic message, unless it is a health report; and an answer always says
    the status, the envelope and the request. *)
Theorem internal_errors_opaque env e :
  production env ->
  exists a, filter_catch env e = Some a /\ a.(ea_status) = status_of e /\
    (forall m s, e = OtherThrown m s -> a = mkErrorAnswer 500 None (JObj [("error", JObj (
       [("code", JStr "INTERNAL_SERVER_ERROR"); ("message", JStr GENERIC_SERVER_ERROR_MESSAGE)] ++
       match env.(fe_requestId) with Some r => [("request_id", JStr r)] | None => [] end))])) /\
    (isHealthCheckBody (rawResponse e) = false -> exists error, a.(ea_body) = JObj [("error", JObj error)] /\
       (500 <= status_of e -> assoc "message" error = Some (JStr GENERIC_SERVER_ERROR_MESSAGE)) /\
       (forall r, env.(fe_requestId) = Some r -> assoc "request_id" error = Some (JStr r))).
Proof.
  intros Hp. unfold filter_catch. destruct (isHealthCheckBody (rawResponse e)) eqn:Eh.
  - eexists. split; [done|]. split_and!; [done| |done]. intros m s ->. done.
  - rewrite body_production by done. eexists. split; [reflexivity|]. split; [done|]. split.
    + intros m s ->. simpl. by destruct (fe_requestId env).
    + intros _. eexists. split; [done|]. split.
      * intros H%server_error_message. destruct (fe_requestId env); [by rewrite assoc_set_ne|done].
      * intros r ->. apply assoc_set_eq.
Qed.

Lemma internal_errors_opaque_witness :
  filter_catch (mkFilterEnv (Some "production") (Some "r1")) (OtherThrown "connect ECONNREFUSED 10.0.0.1" (Some "at db.ts")) =
  Some (mkErrorAnswer 500 None (JObj [("error", JObj [("code", JStr "INTERNAL_SERVER_ERROR");
    ("message", JStr "An unexpected error occurred"); ("request_id", JStr "r1")])])).
Proof.
  destruct (internal_errors_opaque (mkFilterEnv (Some "production") (Some "r1"))
              (OtherThrown "connect ECONNREFUSED 10.0.0.1" (Some "at db.ts")) eq_refl) as (a & E & _ & H & _).
  rewrite E. f_equal. exact (H _ _ eq_refl).
Defined.

(** A validation failure reaches the client as it was made. *)
Lemma validation_answer env errors stack :
  production env -> env.(fe_requestId) = None ->
  filter_catch env (validation_exception errors stack) =
  Some (mkErrorAnswer 400 None (JObj [("error", JObj [("code", JStr "VALIDATION_FAILED");
    ("message", JStr "Request validation failed"); ("details", JArr (errors ≫= flattenValidationError ""))])])).
Proof. intros Hp Hr. unfold filter_catch. simpl. rewrite body_production by done. rewrite Hr. done. Qed.

(** ** The context of jobs *)


Record RequestContextStore := mkContext {
  rx_source : string;
  rx_requestId : option string;
  rx_tenantId : option string;
  rx_operationId : option string
}.

Definition TRACE_CARRIER_KEYS : list string := ["traceparent"; "tracestate"].

Definition traceCarrierFrom (data : list (string * json)) : list (string * json) :=
  omap (fun key => match assoc key data with Some (JStr s) => Some (key, JStr s) | _ => None end) TRACE_CARRIER_KEYS.

Definition text_field (key : string) (v : option string) : list (string * json) :=
  match v with Some ((String _ _) as s) => [(key, JStr s)] | _ => [] end.

(** [injected] is what the propagators wrote; [None] is [null]. *)
Definition withRequestContext (context : option RequestContextStore) (injected : list (string * json))
    (data : option (list (string * json))) : option (list (string * json)) :=
  let carrier := traceCarrierFrom injected in
  let base := default [] data in
  let stale := existsb (fun key => bool_decide (is_Some (assoc key base))) TRACE_CARRIER_KEYS in
  match context, stale, carrier with
  | None, false, [] => data
  | _, _, _ =>
      let domain := List.filter (fun f => negb (mem_str f.1 TRACE_CARRIER_KEYS)) base in
      Some (spread (spread (text_field "tenantId" (context ≫= rx_tenantId) ++
                            text_field "requestId" (context ≫= rx_requestId)) domain) carrier)
  end.

(** ** The worker *)

Definition text_of (key : string) (data : list (string * json)) : option string :=
  match assoc key data with Some (JStr s) => Some s | _ => None end.

Definition jobContextFrom (queueName : string) (data : list (string * json)) : RequestContextStore :=
  mkContext ("job:" +:+ queueName) (text_of "requestId" data) (text_of "tenantId" data) (text_of "operationId" data).

(** The parent of the job's span: the carrier, or the root when there is none. *)
Definition job_parent (data : list (string * json)) : option (list (string * json)) :=
  match traceCarrierFrom data with [] => None | carrier => Some carrier end.

(** The handler under the job's own context; what it throws is rethrown. *)
Definition runJob (queueName : string) (handler : RequestContextStore -> list (string * json) -> Prog unit)
    (data : option (list (string * json))) : Prog unit :=
  let data := default [] data in handler (jobContextFrom queueName data) data.

(** The jobs of a batch, one after the other: the first that throws ends it. *)
Fixpoint workHandler (queueName : string) (handler : RequestContextStore -> list (string * json) -> Prog unit)
    (jobs : list (option (list (string * json)))) : Prog unit :=
  match jobs with
  | [] => mret tt
  | job :: rest => _ ← runJob queueName handler job; workHandler queueName handler rest
  end.

(** ** What a job is about *)

Lemma carrier_keys data : NoDup (traceCarrierFrom data).*1.
Proof.
  unfold traceCarrierFrom, TRACE_CARRIER_KEYS. simpl.
  destruct (assoc "traceparent" data) as [[]|], (assoc "tracestate" data) as [[]|]; simpl;
    repeat (constructor; [set_solver|]); constructor.
Qed.

Lemma carrier_other data k : k ∉ TRACE_CARRIER_KEYS -> assoc k (traceCarrierFrom data) = None.
Proof.
  unfold traceCarrierFrom, TRACE_CARRIER_KEYS. intros Hk.
  assert (String.eqb k "traceparent" = false) as H1 by (apply String.eqb_neq; set_solver).
  assert (String.eqb k "tracestate" = false) as H2 by (apply String.eqb_neq; set_solver).
  simpl. destruct (assoc "traceparent" data) as [[]|], (assoc "tracestate" data) as [[]|]; simpl; by rewrite ?H1, ?H2.
Qed.

Lemma carrier_idem data : traceCarrierFrom (traceCarrierFrom data) = traceCarrierFrom data.
Proof.
  unfold traceCarrierFrom, TRACE_CARRIER_KEYS. simpl.
  by destruct (assoc "traceparent" data) as [[]|], (assoc "tracestate" data) as [[]|].
Qed.

Lemma assoc_cons (x k : string) (v : json) l : assoc k ((x, v) :: l) = if String.eqb k x then Some v else assoc k l.
Proof. done. Qed.

Lemma assoc_domain (base : list (string * json)) k :
  assoc k (List.filter (fun f => negb (mem_str f.1 TRACE_CARRIER_KEYS)) base) =
  if mem_str k TRACE_CARRIER_KEYS then None else assoc k base.
Proof.
  induction base as [|[x v] base IH]; [by destruct (mem_str _ _)|]. cbn [List.filter fst].
  destruct (mem_str x TRACE_CARRIER_KEYS) eqn:Ex; cbn [negb]; rewrite ?assoc_cons.
  - rewrite IH. destruct (String.eqb_spec k x) as [->|]; [by rewrite Ex|done].
  - destruct (String.eqb_spec k x) as [->|]; [by rewrite Ex|exact IH].
Qed.

Lemma filter_keys_NoDup (P : string * json -> bool) o : NoDup o.*1 -> NoDup (List.filter P o).*1.
Proof.
  induction o as [|[x v] o IH]; intros Hnd; [done|]. apply NoDup_cons in Hnd as [Hx Ho]. simpl.
  destruct (P (x, v)); [|by apply IH]. apply NoDup_cons. split; [|by apply IH]. intros Hin. apply Hx.
  apply list_elem_of_fmap in Hin as (y & -> & Hy). apply list_elem_of_fmap. exists y. split; [done|].
  apply list_elem_of_In in Hy. apply filter_In in Hy as [Hy _]. by apply list_elem_of_In.
Qed.

(** What a key of the payload becomes: the caller's value, then that of the request. *)
Lemma with_context_field context injected data k :
  NoDup (default [] data).*1 -> k ∉ TRACE_CARRIER_KEYS ->
  assoc k (default [] (withRequestContext context injected data)) =
  match assoc k (default [] data) with
  | Some v => Some v
  | None => assoc k (text_field "tenantId" (context ≫= rx_tenantId) ++ text_field "requestId" (context ≫= rx_requestId))
  end.
Proof.
  intros Hnd Hk. unfold withRequestContext.
  assert (assoc k (spread (spread (text_field "tenantId" (context ≫= rx_tenantId) ++
      text_field "requestId" (context ≫= rx_requestId))
      (List.filter (fun f => negb (mem_str f.1 TRACE_CARRIER_KEYS)) (default [] data))) (traceCarrierFrom injected)) =
    match assoc k (default [] data) with
    | Some v => Some v
    | None => assoc k (text_field "tenantId" (context ≫= rx_tenantId) ++ text_field "requestId" (context ≫= rx_requestId))
    end) as H.
  { rewrite assoc_spread by apply carrier_keys. rewrite carrier_other by done. rewrite assoc_spread.
    - rewrite assoc_domain. rewrite (proj2 (mem_str_false _ _) Hk). done.
    - by apply filter_keys_NoDup. }
  destruct context as [c|]; [exact H|].
  destruct (existsb _ TRACE_CARRIER_KEYS); [exact H|]. destruct (traceCarrierFrom injected); [|exact H].
  simpl. by destruct (assoc k (default [] data)).
Qed.

Lemma carrier_ext data data' :
  Forall (fun key => assoc key data = assoc key data') TRACE_CARRIER_KEYS -> traceCarrierFrom data = traceCarrierFrom data'.
Proof.
  intros H. unfold traceCarrierFrom. apply list_omap_ext. apply Forall_Forall2_diag.
  apply (Forall_impl _ _ _ H). by intros key ->.
Qed.

Lemma context_fields_untraced context key :
  key ∈ TRACE_CARRIER_KEYS ->
  assoc key (text_field "tenantId" (context ≫= rx_tenantId) ++ text_field "requestId" (context ≫= rx_requestId)) = None.
Proof.
  intros Hkey. unfold text_field.
  apply elem_of_cons in Hkey as [->|Hkey]; [|apply list_elem_of_singleton in Hkey as ->];
    destruct (context ≫= rx_tenantId) as [[|]|], (context ≫= rx_requestId) as [[|]|]; done.
Qed.

(** The trace a job carries is the one active when it was sent. *)
Lemma with_context_carrier context injected data :
  NoDup (default [] data).*1 ->
  traceCarrierFrom (default [] (withRequestContext context injected data)) = traceCarrierFrom injected.
Proof.
  intros Hnd. unfold withRequestContext. set (merged := spread _ _).
  assert (traceCarrierFrom merged = traceCarrierFrom injected) as H.
  { rewrite <-(carrier_idem injected). apply carrier_ext, Forall_forall. intros key Hkey.
    unfold merged. rewrite assoc_spread by apply carrier_keys.
    destruct (assoc key (traceCarrierFrom injected)) as [v|] eqn:E; [done|].
    rewrite assoc_spread by by apply filter_keys_NoDup.
    by rewrite assoc_domain, (proj2 (mem_str_spec _ _) Hkey), context_fields_untraced. }
  destruct context as [c|]; [exact H|].
  destruct (existsb _ TRACE_CARRIER_KEYS) eqn:Es; [exact H|].
  destruct (traceCarrierFrom injected) as [|f l] eqn:Ec; [|exact H].
  unfold traceCarrierFrom, TRACE_CARRIER_KEYS in *. simpl in Es |- *. rewrite !orb_false_iff in Es.
  destruct Es as (E1%bool_decide_eq_false & E2%bool_decide_eq_false & _).
  destruct (assoc "traceparent" (default [] data)); [by destruct E1|].
  by destruct (assoc "tracestate" (default [] data)); [destruct E2|].
Qed.

Definition truthy_text (v : option string) : option string :=
  match v with Some ((String _ _) as s) => Some s | _ => None end.

Lemma assoc_context_fields context key :
  assoc key (text_field "tenantId" (context ≫= rx_tenantId) ++ text_field "requestId" (context ≫= rx_requestId)) =
  if String.eqb key "tenantId" then JStr <$> truthy_text (context ≫= rx_tenantId)
  else if String.eqb key "requestId" then JStr <$> truthy_text (context ≫= rx_requestId) else None.
Proof.
  unfold text_field, truthy_text.
  destruct (String.eqb_spec key "tenantId") as [->|H1];
    destruct (context ≫= rx_tenantId) as [[|]|], (context ≫= rx_requestId) as [[|]|]; try done;
    simpl; rewrite ?(proj2 (String.eqb_neq _ _) H1); by destruct (String.eqb key "requestId").
Qed.

(** What the worker reads of a payload's key. *)
Lemma restored_field context injected data key :
  NoDup (default [] data).*1 -> key ∉ TRACE_CARRIER_KEYS ->
  text_of key (default [] (withRequestContext context injected data)) =
  match assoc key (default [] data) with
  | Some v => text_of key (default [] data)
  | None => if String.eqb key "tenantId" then truthy_text (context ≫= rx_tenantId)
            else if String.eqb key "requestId" then truthy_text (context ≫= rx_requestId) else None
  end.
Proof.
  intros Hnd Hk. unfold text_of. rewrite with_context_field by done.
  destruct (assoc key (default [] data)); [done|]. rewrite assoc_context_fields.
  destruct (String.eqb key "tenantId"); [by destruct (truthy_text _)|].
  destruct (String.eqb key "requestId"); [by destruct (truthy_text _)|done].
Qed.

(** A job that crosses the queue gives its worker the context of its sender: its parent
    span is exactly the trace active when it was sent, never one left on the payload; a
    tenant or request the caller put on the payload stays the caller's, and one it did not
    put there is that of the request; the operation is the caller's alone. *)
Theorem job_context_crosses_queue queueName context injected data :
  NoDup (default [] data).*1 ->
  let sent := default [] (withRequestContext context injected data) in
  let restored := jobContextFrom queueName sent in
  let caller key := assoc key (default [] data) in
  job_parent sent = job_parent injected /\
  rx_source restored = "job:" +:+ queueName /\
  rx_tenantId restored =
    match caller "tenantId" with
    | Some (JStr t) => Some t
    | Some _ => None
    | None => truthy_text (context ≫= rx_tenantId)
    end /\
  rx_requestId restored =
    match caller "requestId" with
    | Some (JStr r) => Some r
    | Some _ => None
    | None => truthy_text (context ≫= rx_requestId)
    end /\
  rx_operationId restored = match caller "operationId" with Some (JStr o) => Some o | _ => None end /\
  (forall key, key ∉ TRACE_CARRIER_KEYS -> is_Some (caller key) -> assoc key sent = caller key).
Proof.
  intros Hnd. cbv zeta.
  assert (forall key, mem_str key TRACE_CARRIER_KEYS = false -> key ∉ TRACE_CARRIER_KEYS) as Hdom
    by (intros key; apply mem_str_false).
  split; [by unfold job_parent; rewrite with_context_carrier|]. split; [done|].
  unfold jobContextFrom. cbn [rx_tenantId rx_requestId rx_operationId].
  rewrite !restored_field by (done || by apply Hdom). unfold text_of. cbn [String.eqb Ascii.eqb Bool.eqb].
  repeat split.
  - by destruct (assoc "tenantId" _) as [[]|].
  - by destruct (assoc "requestId" _) as [[]|].
  - by destruct (assoc "operationId" _) as [[]|].
  - intros key Hk [v Hv]. rewrite with_context_field by done. by rewrite Hv.
Qed.

(** An audit job about one tenant, sent by a request of another, with a trace left on it. *)
Lemma job_context_crosses_queue_witness :
  let data := Some [("tenantId", JStr "t-subject"); ("traceparent", JStr "00-stale")] in
  let context := Some (mkContext "api" (Some "req-1") (Some "t-actor") (Some "op-9")) in
  let sent := default [] (withRequestContext context [("traceparent", JStr "00-live"); ("baggage", JStr "b")] data) in
  jobContextFrom "audit.write" sent = mkContext "job:audit.write" (Some "req-1") (Some "t-subject") None /\
  job_parent sent = Some [("traceparent", JStr "00-live")].
Proof.
  cbv zeta.
  destruct (job_context_crosses_queue "audit.write"
    (Some (mkContext "api" (Some "req-1") (Some "t-actor") (Some "op-9")))
    [("traceparent", JStr "00-live"); ("baggage", JStr "b")]
    (Some [("tenantId", JStr "t-subject"); ("traceparent", JStr "00-stale")]))
    as (Hparent & Hsource & Htenant & Hrequest & Hoperation & _).
  - by apply (bool_decide_unpack _).
  - split; [|exact Hparent]. revert Hsource Htenant Hrequest Hoperation.
    generalize (jobContextFrom "audit.write" (default [] (withRequestContext
      (Some (mkContext "api" (Some "req-1") (Some "t-actor") (Some "op-9")))
      [("traceparent", JStr "00-live"); ("baggage", JStr "b")]
      (Some [("tenantId", JStr "t-subject"); ("traceparent", JStr "00-stale")])))).
    intros [s r t o]. cbn. by intros -> -> -> ->.
Defined.
