(* ===== verification/ConnectionCorrectness.v ===== *)
(** * What the connection service guarantees

    Reconciliation keeps the lifecycle contract of Lifecycle while the agent and
    other requests run, and a connection handed out for issuance is one whose
    handshake is complete on the connector asked for. *)

From Stdlib Require Import Ascii ZArith Lia.
From stdpp Require Import base decidable strings sets gmap list list_relations.
From S2P Require Import Prelude Js Entities StateMapping OperationTtl Db Pagination.
From S2P Require Import OperationService CredentialRepository.
From S2P Require Import ConnectionRepository ConnectorService AdapterRegistry Auth ConnectionService.
From S2P Require Import ProtocolStateChange Lifecycle ProtocolLifecycle ProtocolNotification.
From S2P Require Import OperationCorrectness ServiceLogic.

Local Open Scope Z_scope.

(** ** The contract *)

Lemma connections_update_vrel own m c w :
  (keyed (view m w) ->
   exists r, (view m w).(db_connections) !! c.(cn_id) = Some r /\ cn_row r c /\
     own r.(cn_tenantId)) ->
  vrel m (Evo own) w (connections_update c m w).1.
Proof.
  intros H. unfold connections_update. apply vrel_bind; [apply _|reflexivity|]. simpl.
  intros row [= <-]. destruct (db_connections (view m w) !! cn_id c) as [r|] eqn:Er.
  - case_decide; [reflexivity|]. apply vrel_bind; [apply _|reflexivity|]. intros now _.
    apply vrel_bind; [apply _| |intros; reflexivity]. apply write_connection_vrel. intros K.
    destruct (H K) as (r' & [= <-] & Hrow & Hown). simpl in *. rewrite Er. split; [done|by right].
  - apply vrel_bind; [apply _| |intros; reflexivity]. apply write_connection_vrel. intros K.
    by destruct (H K) as (r' & ? & _).
Qed.

Lemma find_connection_Some t id d c :
  find_connection t id d = Some c -> d.(db_connections) !! id = Some c /\ c.(cn_tenantId) = t.
Proof.
  unfold find_connection. intros H. case_match; [|done].
  destruct (String.eqb_spec (cn_tenantId c0) t); naive_solver.
Qed.

(** The guarded moves of a reconciliation, on a row of the tenant. *)
Lemma vpres_reconcile_moves t id saved state :
  VPres Tx (Evo (fun x => x = t))
    (transitionConnectionState (Known state) (fun s fromStates =>
       won ← connections_updateStateIfForward id t s fromStates Tx;
       if won : bool then
         mret (match s with Known s => Some (cn_set_state s saved) | Inherited _ => None end)
       else mret None)).
Proof.
  apply vpres_transitionConnectionState. intros s.
  apply vpres_bind; [apply _|by apply vpres_connections_updateStateIfForward|]. intros []; apply _.
Qed.

Lemma txkeeps_reconcile t id connectorId remote state forward hook P :
  TxPres (fun x => x = t) hook ->
  txkeeps (fun x => x = t) P (reconcile_tx t id connectorId remote state forward hook).
Proof.
  unfold reconcile_tx.
  intros Hhook w HI _. apply vrel_bind; [apply _|reflexivity|]. simpl. intros row [= <-].
  destruct (find_connection t id (working w)) as [c|] eqn:Ec; [|reflexivity].
  apply find_connection_Some in Ec as [Hc Hct]. destruct (binding_free _ _ _); [|reflexivity].
  assert (vrel Tx (Evo (fun x => x = t)) w
            (connections_update (reconcile_row connectorId remote c) Tx w).1) as Hv.
  { apply connections_update_vrel. intros (_ & _ & K & _). exists c. simpl.
    rewrite (K _ _ Hc). repeat split; done || reflexivity. }
  apply vrel_bind; [apply _|exact Hv|]. intros r _. eapply InTx_step in Hv; [|exact HI].
  revert Hv. generalize (connections_update (reconcile_row connectorId remote c) Tx w).1 as w1.
  intros w1 HI1. cbv zeta. revert w1 HI1. apply txpres_bind.
  { apply txpres_vpres. case_decide; [apply vpres_reconcile_moves|apply _]. }
  intros moved. apply txpres_bind; [by apply txpres_prog_when|]. intros; apply _.
Qed.

Section Contract.
Context (registry : Registry) (own : string -> Prop) (t : string) (Ht : own t).
Context (laws : forall ty a, registry.(rg_adapters) ty = Some a -> AdapterLaws (Evo own) a).

Lemma keeps_resolve {B} P f o (k : ResolvedAdapter -> Prog B) :
  stable own P ->
  (forall r, AdapterLaws (Evo own) r.(rs_adapter) -> keeps own P (k r)) ->
  keeps own P (resolve registry t f o ≫= k).
Proof.
  intros HS Hk. apply (keeps_bind own P (fun r _ => AdapterLaws (Evo own) r.(rs_adapter))).
  - done.
  - apply (keeps_rotates own _ t); [apply _|exact Ht].
  - intros w w' r _ _ E. apply resolve_registered in E as [ty Hty]. by eapply laws.
  - intros r w K [HP HL]. by apply Hk.
Qed.

Lemma keeps_resolveRemoteIdentity P id sel :
  stable own P -> keeps own P (resolveRemoteIdentity registry t id sel).
Proof.
  intros HS. unfold resolveRemoteIdentity, connections_findByIdForTenant.
  apply keeps_seq; [done|apply keeps_read_only, _|]. intros [c|]; [|apply keeps_read_only, _].
  case_match; [apply keeps_read_only, _|]. case_match; [apply keeps_read_only, _|]. cbv zeta.
  case_match; [apply keeps_read_only, _|]. apply keeps_resolve; [done|]. intros r HL.
  apply keeps_pres. apply pres_bind; [apply _| |intros; case_match; apply _].
  case_match.
  - apply pres_bind; [apply _| |intros; case_match; apply _].
    apply pres_catch; [apply _..|]. intros []; try apply _. case_match; apply _.
  - repeat (case_match; try apply _). apply pres_bind; [apply _..|]. intros l.
    repeat (case_match; try apply _).
Qed.

Lemma keeps_connections_reconcile P id connectorId remote state forward hook :
  TxPres (fun x => x = t) hook ->
  keeps own P (connections_reconcile t id connectorId remote state forward hook).
Proof. intros Hh. eapply keeps_transaction; [|by apply txkeeps_reconcile]. by intros x ->. Qed.

Lemma keeps_resolveIdentity P id connectorId :
  stable own P -> keeps own P (resolveIdentity registry t id connectorId).
Proof.
  intros HS. unfold resolveIdentity. apply keeps_seq; [done|by apply keeps_resolveRemoteIdentity|].
  intros [[c remote] k]. case_match; [apply keeps_read_only, _|].
  apply keeps_seq; [done|apply keeps_connections_reconcile; apply txpres_vpres, _|].
  intros [[c' b]|]; apply keeps_read_only, _.
Qed.

Lemma keeps_reconcile P id sel : stable own P -> keeps own P (reconcile registry t id sel).
Proof.
  intros HS. unfold reconcile. apply keeps_seq; [done|by apply keeps_resolveRemoteIdentity|].
  intros [[c remote] k]. case_decide; [|apply keeps_read_only, _]. cbv zeta.
  apply keeps_seq; [done|apply keeps_connections_reconcile; apply txpres_vpres; by apply vpres_dispatch|].
  intros [[c' b]|]; [|apply keeps_read_only, _].
  apply keeps_seq; [done|apply keeps_pres, _|]. intros _.
  apply keeps_seq; [done|eapply (keeps_statement own (fun x => x = t)); [by intros x ->|by apply vpres_audit_emit]|].
  intros _. apply keeps_read_only, _.
Qed.

Lemma keeps_resolveForIssuance P id k :
  stable own P -> keeps own P (resolveForIssuance registry t id k).
Proof.
  intros HS. unfold resolveForIssuance. apply keeps_seq; [done|by apply keeps_reconcile|].
  intros c. case_match; apply keeps_read_only, _.
Qed.
End Contract.

(** ** Binding

    [bound t id k x s d]: the row [id] of tenant [t] is a DIDComm v1 connection on
    connector [k], known there as [x], in state [s]. *)

Definition bound (t id k x : string) (s : ConnectionState) (d : DB) : Prop :=
  exists r, d.(db_connections) !! id = Some r /\ r.(cn_tenantId) = t /\
    r.(cn_connectorId) = Some k /\ r.(cn_externalConnectionId) = Some x /\
    r.(cn_protocol) = DIDCOMM_V1 /\ r.(cn_state) = s.

Lemma connections_update_row m c w w' r :
  connections_update c m w = (w', inr r) -> is_Some ((view m w).(db_connections) !! c.(cn_id)) ->
  exists row, (view m w').(db_connections) !! c.(cn_id) = Some row /\
    cn_set_updatedAt 0 row = cn_set_updatedAt 0 c.
Proof.
  unfold connections_update. intros E [r0 Hr0]. run_inv E. injection E0 as <- <-. rewrite Hr0 in E.
  case_decide as Hd; [injection E as <- <-; eauto|].
  run_inv E. injection E0 as <- <-. run_inv E. injection E as <- <-.
  unfold write_connection in E0. run_inv E0. injection E as <- <-. destruct (existsb _ _); [done|].
  injection E0 as <- _. exists (cn_set_updatedAt (clock w) c). destruct m; simpl; by rewrite lookup_insert_eq.
Qed.

(** A guarded move either lost and changed nothing, or set the state. *)
Lemma updateStateIfForward_bound t id k x s from w w' b s0 :
  connections_updateStateIfForward id t (Known s) from Tx w = (w', inr b) ->
  bound t id k x s0 w.(working) -> bound t id k x (if b then s else s0) w'.(working).
Proof.
  unfold connections_updateStateIfForward. intros E (r & Hr & Ht & Hk & Hx & Hp & Hs). run_inv E.
  injection E0 as <- <-. simpl in E. rewrite Hr in E.
  destruct (_ && _); [|injection E as <- <-; by exists r].
  run_inv E. injection E0 as <- <-. run_inv E. injection E as <- <-.
  unfold write_connection in E0. run_inv E0. injection E as <- <-. destruct (existsb _ _); [done|].
  injection E0 as <- _. exists (cn_set_updatedAt (clock w) (cn_set_state s r)). simpl.
  by rewrite lookup_insert_eq.
Qed.

Lemma reconcile_moves_bound t id k x saved target w w' moved :
  transitionConnectionState (Known target) (fun s fromStates =>
       won ← connections_updateStateIfForward id t s fromStates Tx;
       if won : bool then
         mret (match s with Known s => Some (cn_set_state s saved) | Inherited _ => None end)
       else mret None) w = (w', inr moved) ->
  bound t id k x saved.(cn_state) w.(working) ->
  bound t id k x (default saved moved.1).(cn_state) w'.(working) /\
  (default saved moved.1).(cn_id) = saved.(cn_id) /\
  (default saved moved.1).(cn_tenantId) = saved.(cn_tenantId) /\
  (default saved moved.1).(cn_connectorId) = saved.(cn_connectorId) /\
  (default saved moved.1).(cn_externalConnectionId) = saved.(cn_externalConnectionId).
Proof.
  set (write := fun (s : ConnVal) fromStates =>
    won ← connections_updateStateIfForward id t s fromStates Tx;
    if won : bool then
      mret (match s with Known s => Some (cn_set_state s saved) | Inherited _ => None end)
    else mret None).
  assert (forall s from w w' r s0, write (Known s) from w = (w', inr r) ->
    bound t id k x s0 w.(working) ->
    (r = None /\ bound t id k x s0 w'.(working)) \/
    (r = Some (cn_set_state s saved) /\ bound t id k x s w'.(working))) as Hwrite.
  { intros s from w0 w1 r s0 E Hb. unfold write in E. run_inv E.
    eapply updateStateIfForward_bound in E0; [|exact Hb].
    destruct a; injection E as <- <-; [right|left]; done. }
  unfold transitionConnectionState. intros E Hb. run_inv E. run_inv E. injection E as <- <-. simpl.
  assert ((a = None /\ bound t id k x (cn_state saved) (working w0)) \/
          (a = Some (cn_set_state ACTIVE saved) /\ bound t id k x ACTIVE (working w0))) as Ha.
  { case_decide; [by eapply Hwrite|]. injection E0 as <- <-. by left. }
  destruct Ha as [[-> Hb0]|[-> Hb0]];
    (eapply Hwrite in E1; [|exact Hb0]; destruct E1 as [[-> Hb1]|[-> Hb1]]); by repeat split.
Qed.

Lemma reconcile_tx_bound t id k remote state forward hook w w' c b :
  keyed w.(working) ->
  (forall w w', hook w = (w', inr tt) ->
     w'.(working).(db_connections) = w.(working).(db_connections)) ->
  reconcile_tx t id k remote state forward hook w = (w', inr (Some (c, b))) ->
  c.(cn_id) = id /\ c.(cn_tenantId) = t /\ c.(cn_connectorId) = Some k /\
  c.(cn_externalConnectionId) = Some remote.(rm_id) /\
  bound t id k remote.(rm_id) c.(cn_state) w'.(working).
Proof.
  unfold reconcile_tx. intros K Hhook E. run_inv E. injection E0 as <- <-. simpl in E.
  destruct (find_connection t id (working w)) as [c0|] eqn:Ec; [|done].
  apply find_connection_Some in Ec as [Hc Hct]. destruct (binding_free _ _ _); [|done].
  assert (cn_id c0 = id) as Hid by (destruct K as (_&_&K&_); by apply K).
  run_inv E. apply connections_update_row in E0 as (row & Hrow & Heq); [|simpl; by rewrite Hid].
  simpl in Hrow. rewrite Hid in Hrow. run_inv E. run_inv E. injection E as <- <- <-.
  assert (bound t id k (rm_id remote) (cn_state c0) (working w0)) as Hb.
  { exists row. destruct row, c0. injection Heq. intros. simpl in *. by subst. }
  assert (db_connections (working w2) = db_connections (working w1)) as Hsame.
  { destruct a0.2; simpl in E1; [destruct a1; by apply Hhook|by injection E1 as <- _]. }
  unfold bound. rewrite Hsame. case_decide.
  - eapply reconcile_moves_bound in E0 as (Hb' & H1 & H2 & H3 & H4); [|exact Hb].
    rewrite H1, H2, H3, H4. by repeat split.
  - injection E0 as <- <-. simpl. by repeat split.
Qed.

(** The connector of an established remote identity is the one asked for. *)
Lemma resolveRemoteIdentity_connector registry t id k w w' c remote k' :
  k <> "" -> resolveRemoteIdentity registry t id (Some k) w = (w', inr (c, remote, k')) -> k' = k.
Proof.
  intros Hk. unfold resolveRemoteIdentity. intros E. run_inv E. destruct a as [c0|]; [|done].
  destruct (truthy _ && _); [done|].
  destruct (truthy_str (cn_connectorId c0) && truthy_str (Some k) &&
            negb (bool_decide (cn_connectorId c0 = Some k))) eqn:Esel; [done|].
  cbv zeta in E. destruct (negb (truthy_str (or_else _ _))) eqn:Etr; [done|].
  apply negb_false_iff in Etr. run_inv E. run_inv E. case_match; [|done]. injection E as _ _ _ <-.
  destruct (cn_connectorId c0) as [k0|]; cbn [or_else default] in *; [|done].
  assert (truthy_str (Some k) = true) as Hkt by (apply truthy_str_spec; eauto).
  rewrite Etr, Hkt in Esel. simpl in Esel. apply negb_false_iff, bool_decide_eq_true in Esel.
  by injection Esel.
Qed.

Lemma dispatch_connections t e r w w' :
  dispatch Tx t e r w = (w', inr tt) ->
  w'.(working).(db_connections) = w.(working).(db_connections).
Proof.
  unfold dispatch, send. intros E. run_inv E. injection E0 as <- <-.
  destruct (send_fate _ _); [|done..]. by injection E as <-.
Qed.

Lemma audit_emit_committed t a rt ri w :
  (audit_emit NoTx t a rt ri w).1.(committed).(db_connections) = w.(committed).(db_connections).
Proof. unfold audit_emit, catch, send. by destruct (send_fate _ _). Qed.

(** A connection handed out for issuance is ready on the right connector.
    When [resolveForIssuance] returns, the connection belongs to the tenant, is
    bound to the connector the credential definition lives on, has the agent's
    connection id, and is active or completed; and the committed row says the
    same, whatever the agent did and whoever else was writing. *)
Theorem resolveForIssuance_sound registry own t id k w w' c :
  own t -> k <> "" -> keyed w.(committed) ->
  (forall ty a, registry.(rg_adapters) ty = Some a -> AdapterLaws (Evo own) a) ->
  resolveForIssuance registry t id k w = (w', inr c) ->
  c.(cn_id) = id /\ c.(cn_tenantId) = t /\ c.(cn_connectorId) = Some k /\
  (c.(cn_state) = ACTIVE \/ c.(cn_state) = CN_COMPLETED) /\
  exists x, x <> "" /\ c.(cn_externalConnectionId) = Some x /\
    bound t id k x c.(cn_state) w'.(committed).
Proof.
  intros Ht Hk K laws E. unfold resolveForIssuance in E. run_inv E.
  destruct (_ && _) eqn:Eok; [|done]. injection E as <- <-.
  apply andb_prop in Eok as [Hx Hst%bool_decide_eq_true].
  unfold reconcile in E0. run_inv E0. destruct a0 as [[conn remote] k'].
  pose proof (keeps_resolveRemoteIdentity registry own t Ht laws (fun _ => True) id (Some k)
    ltac:(by intros ????) w K I) as K1. rewrite E in K1. simpl in K1.
  eapply evolves_keyed in K1; [|exact K].
  apply resolveRemoteIdentity_connector in E as ->; [|done].
  case_decide; [|done]. cbv zeta in E0. run_inv E0. destruct a0 as [[c0 b]|]; [|done].
  run_inv E0. run_inv E0. injection E0 as <- <-.
  unfold connections_reconcile, transaction in E.
  destruct (reconcile_tx _ _ _ _ _ _ _ _) as [wt [e|r]] eqn:Etx; [done|].
  injection E as <- ->. apply reconcile_tx_bound in Etx as (H1 & H2 & H3 & H4 & H5);
    [|done|by intros; eapply dispatch_connections].
  rewrite H4 in Hx. apply truthy_str_spec in Hx as (x & [= Hxe] & Hne).
  split_and!; try done. exists x. rewrite H4, Hxe. split_and!; try done.
  match type of E2 with _ ?wa = (?wb, _) =>
    assert (db_connections (committed wb) = db_connections (committed wa)) as Hc2 end.
  { pose proof (audit_emit_committed t "update" "connection" (cn_id conn) w3) as Hc.
    by rewrite E2 in Hc. }
  unfold bound. rewrite Hc2. rewrite <-Hxe.
  destruct b; simpl in E1; injection E1 as <- _; exact H5.
Qed.

(** A connection row with an invitation behind it, on the sample connector. *)
Definition holder_cn : Connection :=
  mkConnection "cn" "t" (Some "r") None None REQUESTED TRACTION (Some "k1") DIDCOMM_V1 [] 0 0.
Definition holder_db : DB :=
  set_connections {[ "cn" := holder_cn ]} connector_db.

Lemma holder_db_keyed : keyed holder_db.
Proof. repeat split; apply map_Forall_to_list; vm_compute; repeat constructor. Qed.

Lemma sample_registry_laws own :
  forall ty a, sample_registry.(rg_adapters) ty = Some a -> AdapterLaws (Evo own) a.
Proof.
  intros ty a H. unfold sample_registry in H. simpl in H. case_decide; [|done].
  injection H as <-. apply _.
Qed.

Lemma resolveForIssuance_sound_witness :
  exists w' c, resolveForIssuance sample_registry "t" "cn" "k1" (world_of holder_db 0) = (w', inr c) /\
    c.(cn_connectorId) = Some "k1" /\ exists x, bound "t" "cn" "k1" x ACTIVE w'.(committed).
Proof.
  destruct (resolveForIssuance sample_registry "t" "cn" "k1" (world_of holder_db 0))
    as [w' r] eqn:E.
  assert (exists c, r = inr c /\ c.(cn_state) = ACTIVE) as (c & -> & Hs).
  { vm_compute in E. injection E as _ <-. eexists. split; reflexivity. }
  destruct (resolveForIssuance_sound sample_registry (fun x => x = "t") "t" "cn" "k1"
    (world_of holder_db 0) w' c eq_refl ltac:(done) holder_db_keyed (sample_registry_laws _) E)
    as (_ & _ & H3 & _ & x & _ & _ & H). rewrite Hs in H.
  exists w', c. split; [reflexivity|]. split; [exact H3|]. exists x. exact H.
Defined.
