(* ===== verification/ExchangeCorrectness.v ===== *)
(** * Issuing at most once

    What CredentialExchangeService guarantees: the lifecycle contract while the
    agent and other requests run, and that the agent is asked to issue only on
    an exchange whose claim is on record. *)

From Stdlib Require Import Ascii ZArith Lia.
From stdpp Require Import base decidable strings sets gmap list list_relations.
From S2P Require Import Prelude Js Entities StateMapping OperationTtl Db Pagination.
From S2P Require Import OperationService CredentialRepository.
From S2P Require Import ConnectionRepository ConnectorService AdapterRegistry Auth ConnectionService.
From S2P Require Import ProtocolStateChange Lifecycle ProtocolLifecycle ProtocolNotification.
From S2P Require Import OperationCorrectness CredentialExchangeService ServiceLogic.
From S2P Require Import ConnectionCorrectness.

Local Open Scope Z_scope.

(** ** Operations created in a handler *)

Lemma createOperation_row input m w w' o :
  createOperation input m w = (w', inr o) ->
  exists x id, o = new_operation input x id w.(clock) /\
    (view m w').(db_operations) = <[id := o]> (view m w).(db_operations) /\
    (view m w').(db_exchanges) = (view m w).(db_exchanges) /\ w'.(clock) = w.(clock) /\
    (view m w).(db_operations) !! id = None.
Proof.
  unfold createOperation, operations_insert. intros E. run_inv E. injection E0 as <- <-.
  run_inv E. apply tenants_findById_inr in E0 as ->. run_inv E. apply date_param_inr in E0 as ->.
  run_inv E. injection E0 as <- <-. run_inv E. injection E0 as <- <-. run_inv E.
  injection E0 as <- <-. case_bool_decide as Hfresh; [done|]. run_inv E. injection E as <- <-.
  apply eq_None_not_Some in Hfresh. unfold write_operation in E0. run_inv E0. injection E as <- <-.
  destruct (operation_conflict _ _ _); [done|]. injection E0 as <- _.
  eexists _, _. split; [done|]. by destruct m.
Qed.

Lemma vpres_createOperation (mine : string -> Prop) m input :
  mine input.(co_tenantId) -> VPres m (Evo mine) (createOperation input m).
Proof.
  intros Hi. unfold createOperation.
  apply vpres_bind; [apply _..|]. intros now. apply vpres_bind; [apply _..|]. intros tn.
  apply vpres_bind; [apply _..|]. intros x. apply vpres_operations_insert. by intros.
Qed.

Lemma txkeeps_createOperation (mine : string -> Prop) P input :
  mine input.(co_tenantId) -> txkeeps mine P (createOperation input Tx).
Proof. intros Hi. by apply txkeeps_pres, txpres_vpres, vpres_createOperation. Qed.

Lemma exchanges_save_row m x w w' r :
  exchanges_save x m w = (w', inr r) -> is_Some ((view m w).(db_exchanges) !! x.(ex_id)) ->
  (exists row, (view m w').(db_exchanges) !! x.(ex_id) = Some row /\
    ex_set_updatedAt 0 row = ex_set_updatedAt 0 x) /\
  (view m w').(db_operations) = (view m w).(db_operations).
Proof.
  unfold exchanges_save. intros E [r0 Hr0]. run_inv E. injection E0 as <- <-. rewrite Hr0 in E.
  case_decide as Hd; [injection E as <- <-; eauto|].
  run_inv E. injection E0 as <- <-. run_inv E. injection E as <- <-.
  unfold write_exchange in E0. run_inv E0. injection E as <- <-. destruct (existsb _ _); [done|].
  injection E0 as <- _. split; [|by destruct m].
  exists (ex_set_updatedAt (clock w) x). destruct m; simpl; by rewrite lookup_insert_eq.
Qed.

#[export] Instance read_only_retained x m : ReadOnly (retainedIssueOperation x m).
Proof.
  unfold retainedIssueOperation, operations_findByIdForTenant. solve_read_only.
Qed.

#[export] Instance read_only_exchange_get t id : ReadOnly (exchange_get t id).
Proof. unfold exchange_get, exchanges_findForTenant. solve_read_only. Qed.

Lemma find_exchange_Some t id d x :
  find_exchange t id d = Some x -> d.(db_exchanges) !! id = Some x /\ x.(ex_tenantId) = t.
Proof.
  unfold find_exchange. intros H. case_match; [|done].
  destruct (String.eqb_spec (ex_tenantId c) t); naive_solver.
Qed.

Lemma exchange_get_inr t id w w' x :
  exchange_get t id w = (w', inr x) -> w' = w /\ find_exchange t id w.(committed) = Some x.
Proof.
  unfold exchange_get, exchanges_findForTenant. intros E. run_inv E. injection E0 as <- <-.
  simpl in E. destruct (find_exchange _ _ _); [|done]. by injection E as <- <-.
Qed.

(** ** The contract *)

Lemma vpres_audit_emit_last (mine : string -> Prop) t a rt ri :
  mine t -> VPres Tx (Evo mine) (audit_emit_last t a rt ri).
Proof.
  intros Hm. unfold audit_emit_last. apply vpres_catch; [apply _| |intros []; apply _].
  apply vpres_bind; [apply _|by apply vpres_send|]. intros; apply _.
Qed.

Lemma ex_row_submission s o x : ex_row x (ex_set_submission s o x).
Proof. by repeat split. Qed.

Lemma txkeeps_claim_issue (mine : string -> Prop) t id x remote P :
  mine t -> txkeeps mine P (claim_issue t id x remote).
Proof.
  intros Hm w HI _. unfold claim_issue, exchanges_lock.
  apply vrel_bind; [apply _|reflexivity|]. simpl. intros row [= <-].
  destruct (find_exchange t id (working w)) as [y|] eqn:Ey; [|reflexivity].
  apply find_exchange_Some in Ey as [Hy Hyt].
  assert (ex_id y = id) as Hid by (pose proof (InTx_working _ _ HI) as (_&_&_&K); by apply K).
  case_match.
  { apply vrel_bind; [apply _|by rewrite read_only|]. intros; reflexivity. }
  case_match; [reflexivity|].
  set (input := mkCreateOp _ _ _ _ _ _).
  pose proof (txkeeps_createOperation mine (fun _ => True) input Hm w HI I) as Hv.
  apply vrel_bind; [apply _|exact Hv|]. intros o Ho.
  destruct (createOperation input Tx w) as [w1 r1] eqn:E1. simpl in Ho, Hv |- *. subst r1.
  apply createOperation_row in E1 as (x0 & i & -> & Hops & Hexs & Hclk & _). simpl in Hops, Hexs.
  eapply InTx_step in Hv; [|exact HI].
  assert (has_op t i (working w1)) as Hop.
  { eexists. rewrite Hops, lookup_insert_eq. split; [done|]. done. }
  simpl. clear Hops Hclk. revert w1 Hv Hexs Hop. intros w1 HI1 Hexs Hop.
  assert (vrel Tx (Evo mine) w1
    (exchanges_save (ex_set_submission Submitting (Some i) y) Tx w1).1) as Hv1.
  { apply exchanges_save_vrel. intros _. exists y. simpl. rewrite Hexs, Hid. split; [done|].
    split; [apply ex_row_submission|by rewrite Hyt]. }
  apply vrel_bind; [apply _|exact Hv1|]. intros r _.
  assert (has_op t i (working (exchanges_save (ex_set_submission Submitting (Some i) y) Tx w1).1)) as Hop2.
  { destruct Hv1 as [_ Hv1]. eapply stable_has_op; [by eapply InTx_working| |exact Hop].
    apply Hv1. by eapply InTx_working. }
  eapply InTx_step in Hv1; [|exact HI1]. revert Hop2 Hv1.
  generalize (exchanges_save (ex_set_submission Submitting (Some i) y) Tx w1).1 as w2.
  intros w2 Hop2 HI2. revert w2 HI2 Hop2.
  apply (txkeeps_seq mine (has_op t i)); [apply stable_has_op| |].
  { apply txkeeps_transition; [|intros; by eapply has_op_mine]. intros s Hs%list_elem_of_singleton. subst s.
    exists PROCESSING. split; [done|]. vm_compute. lia. }
  intros _. apply txkeeps_pres, txpres_vpres.
  apply vpres_bind; [apply _|by apply vpres_audit_emit_last|]. intros; apply _.
Qed.

Lemma txkeeps_record_rejection (mine : string -> Prop) t id op code msg (P : DB -> Prop) :
  mine t ->
  (forall d o, P d -> d.(db_operations) !! op = Some o -> mine o.(op_tenantId)) ->
  txkeeps mine P (record_rejection t id op code msg).
Proof.
  intros Hm HP w HI Hop. unfold record_rejection, exchanges_lock.
  apply vrel_bind; [apply _|reflexivity|]. simpl. intros row [= <-].
  destruct (find_exchange t id (working w)) as [y|] eqn:Ey; [|reflexivity].
  apply find_exchange_Some in Ey as [Hy Hyt].
  assert (ex_id y = id) as Hid by (pose proof (InTx_working _ _ HI) as (_&_&_&K); by apply K).
  case_match; [reflexivity|].
  set (tr := transitionStateIfForward _ _ _ _ _ _).
  assert (vrel Tx (Evo mine) w (tr w).1) as Hv.
  { eapply txkeeps_transition; [|exact HP|done|done].
    intros s Hs%list_elem_of_singleton. subst s. exists FAILED. split; [done|]. vm_compute. lia. }
  apply vrel_bind; [apply _|exact Hv|]. intros [o|] Ho; [|reflexivity].
  apply vrel_bind; [apply _| |].
  - apply exchanges_save_vrel. intros K. simpl. rewrite Hid.
    destruct Hv as [_ Hv]. destruct (Hv (InTx_working _ _ HI)) as (_&_&_&Hex&_).
    specialize (Hex id). unfold cell_evolves in Hex. simpl in Hex. rewrite Hy in Hex. simpl.
    destruct (db_exchanges (working (tr w).1) !! id) as [y'|] eqn:Ey'; [|done].
    exists y'. split; [done|]. destruct (tr w) as [w1 r1] eqn:Etr. simpl in Ho. subst r1.
    assert (y' = y) as ->.
    { apply transition_only_operations in Etr as (_&_&Hsame&_). simpl in *. congruence. }
    split; [apply ex_row_submission|by rewrite Hyt].
  - intros r _. by apply vpres_dispatch.
Qed.

Section Contract.
Context (registry : Registry) (own : string -> Prop) (t : string) (Ht : own t).
Context (laws : forall ty a, registry.(rg_adapters) ty = Some a -> AdapterLaws (Evo own) a).

Lemma keeps_process P data corr : data.(psc_tenantId) = t -> keeps own P (process data corr).
Proof.
  intros Hd w K _. eapply evolves_mono; [|by apply process_evolves]. simpl. intros x ->. by rewrite Hd.
Qed.

Lemma keeps_synchronize P x remote : x.(ex_tenantId) = t -> keeps own P (synchronize x remote).
Proof.
  intros Hx w K HP. unfold synchronize. cbv zeta.
  apply (keeps_seq own (fun _ => True)); [by intros ????|by apply keeps_process| |done|done].
  intros _. apply keeps_read_only, _.
Qed.

Lemma keeps_assertCorrelation P x remote :
  stable own P -> x.(ex_tenantId) = t -> keeps own P (assertCorrelation registry x remote).
Proof.
  intros HS Hx. unfold assertCorrelation. rewrite Hx.
  case_match; [apply keeps_read_only, _|]. case_match; [apply keeps_read_only, _|]. cbv zeta.
  apply keeps_seq; [done|apply keeps_read_only; unfold connections_findByIdForTenant; apply _|].
  intros row. apply keeps_seq; [done| |].
  - destruct row as [c|]; [|apply keeps_read_only, _]. case_match; [apply keeps_read_only, _|].
    apply keeps_seq; [done|by apply keeps_resolveIdentity|]. intros c'. apply keeps_read_only, _.
  - intros [c|]; [|apply keeps_read_only, _]. case_match; [|apply keeps_read_only, _].
    apply keeps_when. apply keeps_seq; [done|by apply keeps_resolveIdentity|].
    intros c'. apply keeps_read_only, _.
Qed.

Lemma keeps_exchange_resolve {B} P x (k : ResolvedAdapter -> Prog B) :
  stable own P -> x.(ex_tenantId) = t ->
  (forall r, AdapterLaws (Evo own) r.(rs_adapter) -> keeps own P (k r)) ->
  keeps own P (exchange_resolve registry x ≫= k).
Proof.
  intros HS Hx Hk. unfold exchange_resolve. rewrite Hx.
  destruct (negb _); [by intros w K HP|]. destruct (toPortCredentialFormat _); [|by intros w K HP].
  by apply keeps_resolve.
Qed.

Lemma keeps_readRemote P x r :
  AdapterLaws (Evo own) r.(rs_adapter) -> keeps own P (readRemote x r).
Proof.
  intros HL. apply keeps_pres. unfold readRemote. apply pres_catch; [apply _..|].
  intros []; try apply _. case_match; apply _.
Qed.

Lemma keeps_exchange_get {B} P id (k : CredentialExchange -> Prog B) :
  stable own P -> (forall x, x.(ex_tenantId) = t -> keeps own P (k x)) ->
  keeps own P (exchange_get t id ≫= k).
Proof.
  intros HS Hk. apply (keeps_bind own P (fun x _ => x.(ex_tenantId) = t)).
  - done.
  - apply keeps_read_only, _.
  - intros w w' x _ _ E. by apply exchange_get_inr in E as [_ [_ H]%find_exchange_Some].
  - intros x w K [HP Hx]. by apply Hk.
Qed.

Lemma keeps_exchange_reconcile P id :
  stable own P -> keeps own P (exchange_reconcile registry t id).
Proof.
  intros HS. unfold exchange_reconcile. apply keeps_exchange_get; [done|]. intros x Hx.
  apply keeps_exchange_resolve; [done..|]. intros r HL.
  apply keeps_seq; [done|by apply keeps_readRemote|]. intros remote.
  apply keeps_seq; [done|by apply keeps_assertCorrelation|]. intros _.
  apply keeps_seq; [done|by apply keeps_synchronize|]. intros _. apply keeps_read_only, _.
Qed.
End Contract.

Lemma vpres_setSubmission (mine : string -> Prop) t id s :
  mine t -> VPres NoTx (Evo mine) (exchanges_setSubmission t id s).
Proof.
  intros Hm w. unfold exchanges_setSubmission. apply vrel_bind; [apply _|reflexivity|]. simpl.
  intros row [= <-]. destruct (find_exchange t id (committed w)) as [x|] eqn:Ex; [|reflexivity].
  apply find_exchange_Some in Ex as [Hx Hxt]. case_decide; [|reflexivity].
  apply vrel_bind; [apply _|reflexivity|]. intros now _. apply write_exchange_vrel. intros K.
  simpl in *. rewrite Hx. split; [by repeat split|by right; rewrite Hxt].
Qed.

Lemma vrel_applyViewed t o w :
  w.(committed).(db_operations) !! o.(op_id) = Some o -> o.(op_tenantId) = t ->
  vrel NoTx (Evo (fun x => x = t)) w (applyViewed o w).1.
Proof.
  intros Ho Hot. unfold applyViewed. apply vrel_bind; [apply _|apply vpres_tenants_findById|].
  intros tn _. rewrite tenants_findById_world. apply vrel_bind; [apply _|reflexivity|].
  intros now _. cbv zeta. apply vrel_bind; [apply _| |].
  - unfold operations_markFirstView. apply vrel_bind; [apply _|apply vpres_date_param|]. intros x _.
    rewrite date_param_world. apply vrel_bind; [apply _|reflexivity|]. simpl. intros row [= <-].
    rewrite Ho. destruct (op_viewedAt o); [reflexivity|].
    apply vrel_bind; [apply _| |intros; reflexivity]. apply write_operation_vrel. intros K.
    simpl. rewrite Ho. split; [by repeat split|by right].
  - intros [[v x]|] _; [reflexivity|]. apply vrel_bind; [apply _|reflexivity|]. intros [c|] _; reflexivity.
Qed.

Lemma keeps_getForTenant own t id P : own t -> keeps own P (getForTenant t id).
Proof.
  intros Ht w K _. unfold getForTenant, operations_findByIdForTenant.
  unfold mbind at 1, prog_bind at 1. simpl.
  destruct (db_operations (committed w) !! id) as [o|] eqn:Eo; [|reflexivity].
  destruct (String.eqb_spec (op_tenantId o) t) as [Hot|]; [|reflexivity].
  assert (op_id o = id) as Hid by (destruct K as [K _]; by apply K).
  apply (evolves_mono (fun x => x = t)); [by intros x ->|]. unfold prepareForRead.
  assert (vrel NoTx (Evo (fun x => x = t)) w ((if isTerminalOperationState (op_state o) &&
    bool_decide (op_viewedAt o = None) then applyViewed o else mret o) w).1) as Hv.
  { case_match; [|reflexivity]. apply vrel_applyViewed; [by rewrite Hid|done]. }
  unfold mbind, prog_bind.
  destruct ((if _ && _ then applyViewed o else mret o) w) as [w1 [e|o1]]; simpl in *;
    destruct Hv as [_ Hv]; simpl in Hv; [by apply Hv|]. rewrite serveResult_world. by apply Hv.
Qed.

(** Issuance is about every tenant's rows: the operation a lost claim names may
    not exist. *)
Section Issue.
Context (registry : Registry) (t : string).

Abbreviation anyone := (fun _ : string => True).

Context (laws : forall ty a, registry.(rg_adapters) ty = Some a -> AdapterLaws (Evo anyone) a).

Lemma stable_True own : stable own (fun _ => True).
Proof. by intros ????. Qed.

Lemma keeps_issue_failed id op b e : keeps anyone (fun _ => True) (issue_failed t id op b e).
Proof.
  assert (keeps anyone (fun _ => True)
    (_ ← exchanges_setSubmission t id Uncertain;
     throw (A:=unit) (ServiceUnavailableException
       "Issuance outcome uncertain; reconcile this exchange, do not resubmit"))) as Hu.
  { apply keeps_seq; [apply stable_True|eapply (keeps_statement _ anyone); [done|by apply vpres_setSubmission]|].
    intros _. apply keeps_read_only, _. }
  unfold issue_failed. destruct b; [exact Hu|]. destruct e; try exact Hu; case_match; try exact Hu.
  apply keeps_seq; [apply stable_True| |].
  - eapply (keeps_transaction _ anyone); [done|by apply txkeeps_record_rejection].
  - intros _. repeat case_match; apply keeps_read_only, _.
Qed.

Lemma keeps_submit_issue id op x r :
  AdapterLaws (Evo anyone) r.(rs_adapter) -> x.(ex_tenantId) = t ->
  keeps anyone (fun _ => True) (submit_issue registry t id op x r).
Proof.
  intros HL Hx. unfold submit_issue. apply keeps_seq; [apply stable_True| |].
  { apply keeps_pres. unfold ask_to_issue. apply pres_catch; [apply _..|]. intros; apply _. }
  intros [e|y]; [apply keeps_issue_failed|].
  apply keeps_catch; [apply stable_True| |intros; apply keeps_issue_failed].
  apply keeps_seq; [apply stable_True|by eapply keeps_assertCorrelation|].
  intros _. apply keeps_seq; [apply stable_True| |].
  { eapply (keeps_statement _ anyone); [done|by apply vpres_setSubmission]. }
  intros _. by eapply keeps_synchronize.
Qed.

Lemma keeps_issue id : keeps anyone (fun _ => True) (issue registry t id).
Proof.
  unfold issue. eapply keeps_exchange_get; [apply stable_True|]. intros x Hx.
  case_match; [apply keeps_read_only, _|]. case_match.
  { apply keeps_seq; [apply stable_True|apply keeps_read_only, _|]. intros o.
    by apply keeps_getForTenant. }
  eapply keeps_exchange_resolve; [done|done|apply stable_True|done|]. intros r HL.
  apply keeps_seq; [apply stable_True|by apply keeps_readRemote|]. intros remote.
  apply keeps_seq; [apply stable_True|by eapply keeps_assertCorrelation|]. intros _.
  apply keeps_seq; [apply stable_True|by eapply keeps_synchronize|]. intros _.
  apply keeps_seq; [apply stable_True| |].
  { eapply (keeps_transaction_or_abort _ anyone); [done|by apply txkeeps_claim_issue]. }
  intros [o submit]. apply keeps_seq; [apply stable_True|by apply keeps_when, keeps_submit_issue|].
  intros _. by apply keeps_getForTenant.
Qed.
End Issue.

(** ** Asking the agent only when the claim is on record

    [guard_adapter P a] is the agent [a] with a doorman: it refuses to be asked to
    issue unless [P] holds of the world at that moment. *)

Section Guard.
Context (P : World -> bool).

Definition guard_adapter (a : AgentAdapter) : AgentAdapter :=
  mkAdapter a.(ad_supportedFormats) a.(ad_createInvitation) a.(ad_acceptInvitation) a.(ad_getById)
    a.(ad_listByInvitation) a.(ad_deleteById) a.(ad_offerCredential)
    (fun cx i w => if P w then a.(ad_issueCredential) cx i w
                   else (w, inl (JsError "issuance without a claim")))
    a.(ad_getExchange) a.(ad_acceptOffer) a.(ad_rejectOffer) a.(ad_revoke)
    a.(ad_requestPresentation) a.(ad_anonCredsRegistration).

Definition guard_registry (r : Registry) : Registry :=
  mkRegistry (fun ty => guard_adapter <$> r.(rg_adapters) ty) r.(rg_overrideEnabled) r.(rg_env).

Definition guard_resolved (r : ResolvedAdapter) : ResolvedAdapter :=
  mkResolved (guard_adapter r.(rs_adapter)) r.(rs_connector) r.(rs_context) r.(rs_format).

Context (registry : Registry).

Lemma resolve_guard {B} t f o (k : ResolvedAdapter -> Prog B) :
  prog_eq (resolve (guard_registry registry) t f o ≫= k)
    (resolve registry t f o ≫= fun r => k (guard_resolved r)).
Proof.
  intros w. unfold resolve, resolveOverride, getByConnectorType, mbind, prog_bind. simpl.
  destruct (ro_adapterOverride o) as [ty|].
  - destruct (negb (rg_overrideEnabled registry)), (negb (ro_isPlatformAdmin o)); try done. simpl.
    destruct (rg_adapters registry ty) as [a|]; [|done]. simpl.
    change (findSoleActiveConnector (guard_registry registry)) with (findSoleActiveConnector registry).
    destruct (findSoleActiveConnector registry t (Some ty) w) as [w1 [e|c]]; [done|].
    change (buildContext (guard_registry registry)) with (buildContext registry). unfold of_sum.
    destruct (buildContext registry c); [done|]. unfold selectFormat. simpl. destruct f; [case_decide|]; done.
  - simpl. change (findConnector (guard_registry registry)) with (findConnector registry).
    destruct (findConnector registry _ _ _ w) as [w1 [e|c]]; [done|].
    destruct (rg_adapters registry (con_type c)) as [a|]; [|done]. simpl.
    change (buildContext (guard_registry registry)) with (buildContext registry). unfold of_sum.
    destruct (buildContext registry c); [done|]. unfold selectFormat. simpl. destruct f; [case_decide|]; done.
Qed.

Lemma resolveRemoteIdentity_guard t id sel :
  prog_eq (resolveRemoteIdentity (guard_registry registry) t id sel)
    (resolveRemoteIdentity registry t id sel).
Proof.
  unfold resolveRemoteIdentity. apply bind_proper; [|done]. intros [c|]; [|done].
  cbv zeta. repeat (case_match; [done|]).
  rewrite resolve_guard. done.
Qed.

Lemma resolveIdentity_guard t id k :
  prog_eq (resolveIdentity (guard_registry registry) t id k) (resolveIdentity registry t id k).
Proof. unfold resolveIdentity. by rewrite resolveRemoteIdentity_guard. Qed.

Lemma assertCorrelation_guard x remote :
  prog_eq (assertCorrelation (guard_registry registry) x remote)
    (assertCorrelation registry x remote).
Proof.
  unfold assertCorrelation. repeat (case_match; [done|]). cbv zeta.
  apply bind_proper; [|done]. intros row. apply bind_proper.
  - intros [c|]; [|done]. case_match; [|done]. apply prog_when_proper.
    by rewrite resolveIdentity_guard.
  - destruct row as [c|]; [|done]. case_match; [done|]. by rewrite resolveIdentity_guard.
Qed.

Lemma exchange_resolve_guard {B} x (k : ResolvedAdapter -> Prog B) :
  prog_eq (exchange_resolve (guard_registry registry) x ≫= k)
    (exchange_resolve registry x ≫= fun r => k (guard_resolved r)).
Proof.
  unfold exchange_resolve. destruct (negb _); [done|].
  destruct (toPortCredentialFormat _); [apply resolve_guard|done].
Qed.

Lemma submit_issue_guard t id op x r w :
  P w = true ->
  submit_issue (guard_registry registry) t id op x (guard_resolved r) w =
  submit_issue registry t id op x r w.
Proof.
  intros HP. unfold submit_issue.
  apply bind_at.
  { unfold ask_to_issue, catch, mbind, prog_bind. simpl. by rewrite HP. }
  intros w' [e|y] _; [done|].
  apply catch_proper; [|done]. apply bind_proper; [done|apply assertCorrelation_guard].
Qed.
End Guard.

(** The exchange is claimed: submitting, under an issue operation of its own that
    is in progress. *)
Definition claimed (t id : string) (d : DB) : bool :=
  match find_exchange t id d with
  | Some x =>
      bool_decide (x.(ex_issueSubmission) = Submitting) &&
      match x.(ex_issueOperationId) with
      | Some op =>
          match d.(db_operations) !! op with
          | Some o => String.eqb o.(op_tenantId) t && String.eqb o.(op_type) CREDENTIAL_ISSUE &&
                      bool_decide (o.(op_exchangeId) = Some id) &&
                      bool_decide (o.(op_state) = PROCESSING)
          | None => false
          end
      | None => false
      end
  | None => false
  end.

(** The last insert into the queue failed in the database. *)
Definition queue_insert_failed (w : World) : bool :=
  match w.(send_fate) (pred w.(sends)) with StatementFailed => true | _ => false end.

Lemma audit_emit_last_run t a rt ri w w' b :
  audit_emit_last t a rt ri w = (w', inr b) ->
  w'.(working).(db_exchanges) = w.(working).(db_exchanges) /\
  w'.(working).(db_operations) = w.(working).(db_operations) /\
  (b = true -> queue_insert_failed w' = true).
Proof.
  unfold audit_emit_last, catch, mbind, prog_bind, send, queue_insert_failed.
  destruct (send_fate w (sends w)) eqn:E; simpl; intros H; injection H as <- <-; simpl;
    split_and!; try done. by rewrite E.
Qed.

Lemma claim_issue_recorded t id x remote w w' o :
  keyed w.(committed) ->
  transaction_or_abort (claim_issue t id x remote) w = (w', inr (o, true)) ->
  claimed t id w'.(committed) || queue_insert_failed w' = true.
Proof.
  intros K. unfold transaction_or_abort.
  destruct (claim_issue t id x remote _) as [w1 [e|[[o' submit] aborted]]] eqn:E; [done|].
  intros H. assert (submit = true) as -> by (by destruct aborted; injection H as _ _ ->).
  revert E. unfold claim_issue, exchanges_lock. intros E. run_inv E. injection E0 as <- <-.
  simpl in E. destruct (find_exchange t id (committed w)) as [y|] eqn:Ey; [|done].
  apply find_exchange_Some in Ey as [Hy Hyt].
  assert (ex_id y = id) as Hid by (destruct K as (_&_&_&K); by apply K).
  case_match; [by run_inv E|]. case_match; [done|]. run_inv E. run_inv E. run_inv E. run_inv E.
  injection E as <- <- ->.
  apply createOperation_row in E0 as (x0 & i & -> & Hops & Hexs & _). simpl in Hops, Hexs, E1.
  apply exchanges_save_row in E1 as [(row & Hrow & Heq) Hops2]; [|simpl; rewrite Hexs, Hid; eauto].
  simpl in Hrow, Hops2. rewrite Hid in Hrow. cbn [op_id new_operation] in E2.
  assert (db_operations (working w2) !! i = Some (new_operation
    (mkCreateOp t CREDENTIAL_ISSUE (JObj [("method", JStr "POST");
       ("path", JStr (API_BASE_PATH +:+ "/tenants/" +:+ t +:+
                      "/credential-exchanges/" +:+ id +:+ "/issue"));
       ("body", JObj [])]) None (ex_externalId x) (Some id)) x0 i (clock w))) as Hnew.
  { rewrite Hops2, Hops. by rewrite lookup_insert_eq. }
  pose proof (transition_matching _ _ _ _ _ _ _ _ _ _ E2 Hnew) as [o2 ->]; [by left|].
  pose proof (transition_only_operations _ _ _ _ _ _ _ _ _ E2) as (_ & _ & Hexs3 & _).
  apply transitionStateIfForward_won in E2 as (o0 & x1 & Ho0 & _ & -> & Hwon).
  simpl in Ho0, Hwon, Hexs3. rewrite Hnew in Ho0. injection Ho0 as <-.
  apply audit_emit_last_run in E3 as (Hexs4 & Hops4 & Hfail).
  destruct aborted; injection H as <- _; [apply orb_true_intro; right; exact (Hfail eq_refl)|].
  apply orb_true_intro. left. unfold claimed, find_exchange. simpl.
  rewrite Hexs4, Hexs3, Hrow, Hops4.
  destruct row. injection Heq. intros. simpl in *. subst. simpl. rewrite String.eqb_refl.
  simpl. rewrite Hwon. simpl. rewrite String.eqb_refl. by rewrite !bool_decide_eq_true_2.
Qed.

Lemma exchange_resolve_inr registry x w w' r :
  exchange_resolve registry x w = (w', inr r) ->
  rotates x.(ex_tenantId) w w' /\ exists ty, registry.(rg_adapters) ty = Some r.(rs_adapter).
Proof.
  unfold exchange_resolve. destruct (negb (truthy_str (ex_externalId x))); [done|].
  destruct (toPortCredentialFormat (ex_format x)); [|done]. intros E. split.
  - pose proof (rotates_run (p:=resolve registry (ex_tenantId x) (Some c) (with_connector (Some (ex_connectorId x)))) w) as H.
    by rewrite E in H.
  - by eapply resolve_registered.
Qed.

(** C10: the agent is asked to issue only on a recorded claim.  Put a doorman in
    front of every registered agent that refuses to issue unless the exchange is
    claimed in the committed tables at that moment ([claimed]: submitting, under
    its own issue operation, which is in progress): [issue] behaves exactly the
    same.  The one case the doorman has to let through is a claim transaction
    whose audit insert failed in the database (see [failed_audit_loses_claim]). *)
Theorem issue_asks_only_when_claimed registry t id w :
  keyed w.(committed) ->
  (forall ty a, registry.(rg_adapters) ty = Some a -> AdapterLaws (Evo (fun _ => True)) a) ->
  issue (guard_registry (fun w => claimed t id w.(committed) || queue_insert_failed w) registry)
    t id w =
  issue registry t id w.
Proof.
  intros K laws. set (P := fun w => _ || _). set (own := fun _ : string => True).
  unfold issue. apply bind_at; [reflexivity|]. intros w1 x [-> Hx]%exchange_get_inr.
  apply find_exchange_Some in Hx as [_ Hxt]. case_match; [done|]. case_match; [done|].
  rewrite (exchange_resolve_guard P registry x _ w).
  assert (forall w' {A} (p : Prog A) w1 a, p w' = (w1, inr a) -> keeps own (fun _ => True) p ->
    keyed w'.(committed) -> keyed w1.(committed)) as Hstep.
  { intros w' A p w1 a Ep Hp Kw'. specialize (Hp w' Kw' I). rewrite Ep in Hp.
    by eapply evolves_keyed. }
  assert (stable own (fun _ => True)) as HS by (by intros ????).
  apply bind_at; [reflexivity|]. intros w0 r [(T & n & _ & ->) [ty Hty]]%exchange_resolve_inr.
  apply laws in Hty as HL.
  apply bind_at; [reflexivity|]. intros w1 remote E1.
  eapply Hstep in E1 as K1; [|by eapply keeps_readRemote|done].
  apply bind_at; [apply assertCorrelation_guard|]. intros w2 u2 E2.
  eapply Hstep in E2 as K2; [|by eapply keeps_assertCorrelation|done].
  apply bind_at; [reflexivity|]. intros w3 u3 E3.
  eapply Hstep in E3 as K3; [|by eapply keeps_synchronize|done].
  apply bind_at; [reflexivity|]. intros w4 [o submit] E4. apply bind_at; [|done].
  destruct submit; [|done]. simpl. apply submit_issue_guard. by eapply claim_issue_recorded.
Qed.

(** An exchange waiting for issuance, on the sample connector. *)
Definition waiting_exchange (s : IssueSubmission) (op : option string) : CredentialExchange :=
  mkExchange "x1" "t" "k1" (Some "cn") Issuer "didcomm-v1" ANONCREDS (Ex RequestReceived)
    (Some "ext") s op 0 0.
Definition issue_db (s : IssueSubmission) (op : option string) : DB :=
  set_exchanges {[ "x1" := waiting_exchange s op ]} holder_db.

Lemma issue_db_keyed s op : keyed (issue_db s op).
Proof. repeat split; apply map_Forall_to_list; vm_compute; repeat constructor. Qed.

Lemma issue_asks_only_when_claimed_witness :
  issue (guard_registry (fun w => claimed "t" "x1" w.(committed) || queue_insert_failed w)
           sample_registry) "t" "x1" (world_of (issue_db NotSubmitted None) 0) =
    issue sample_registry "t" "x1" (world_of (issue_db NotSubmitted None) 0) /\
  exists o, (issue sample_registry "t" "x1" (world_of (issue_db NotSubmitted None) 0)).2 = inr o.
Proof.
  split.
  - apply (issue_asks_only_when_claimed sample_registry "t" "x1"
      (world_of (issue_db NotSubmitted None) 0)); [apply issue_db_keyed|apply sample_registry_laws].
  - eexists. vm_compute. reflexivity.
Defined.

(** ** An exchange that was submitted stays with its operation *)

(** The operation an exchange's submission is tracked by. *)
Definition retained_operation (x : CredentialExchange) (d : DB) : option Operation :=
  if truthy_str x.(ex_issueOperationId) then
    match d.(db_operations) !! default "" x.(ex_issueOperationId) with
    | Some o =>
        if String.eqb o.(op_tenantId) x.(ex_tenantId) &&
           bool_decide (o.(op_exchangeId) = Some x.(ex_id)) && String.eqb o.(op_type) CREDENTIAL_ISSUE
        then Some o else None
    | None => None
    end
  else None.

Lemma retainedIssueOperation_run x w :
  retainedIssueOperation x NoTx w =
  (w, match retained_operation x w.(committed) with
      | Some o => inr o
      | None => inl (ConflictException
                  "Issuance already attempted; reconcile the exchange, do not resubmit")
      end).
Proof.
  unfold retainedIssueOperation, retained_operation, operations_findByIdForTenant, mbind, prog_bind.
  destruct (truthy_str _); [|done]. simpl. destruct (_ !! _) as [o|]; [|done].
  destruct (String.eqb (op_tenantId o) (ex_tenantId x)); [|done]. simpl. by destruct (_ && _).
Qed.

(** C11: once a submission is on record, asking again never reaches the agent.
    Whatever agents are registered, [issue] on an exchange whose submission is
    submitting, submitted or uncertain answers with the tracked operation as any
    read would serve it, or with a conflict if there is none, and nothing else
    happens. *)
Theorem issue_never_resubmits registry t id w x :
  find_exchange t id w.(committed) = Some x -> x.(ex_issueSubmission) <> NotSubmitted ->
  issue registry t id w =
  if decide (x.(ex_role) = Issuer) then
    match retained_operation x w.(committed) with
    | Some o => getForTenant t o.(op_id) w
    | None => (w, inl (ConflictException
                 "Issuance already attempted; reconcile the exchange, do not resubmit"))
    end
  else (w, inl (ConflictException "Only issuer exchanges can issue")).
Proof.
  intros Hx Hs. assert (exchange_get t id w = (w, inr x)) as Hget.
  { unfold exchange_get, exchanges_findForTenant, mbind, prog_bind. simpl. by rewrite Hx. }
  unfold issue. rewrite (bind_run _ _ _ _ _ Hget).
  case_decide as Hr; [rewrite bool_decide_eq_true_2 by done|by rewrite bool_decide_eq_false_2].
  simpl. rewrite (bool_decide_eq_false_2 _ Hs). simpl.
  unfold mbind, prog_bind. rewrite retainedIssueOperation_run.
  by destruct (retained_operation x (committed w)).
Qed.

Definition submitted_db : DB :=
  set_operations {[ "op" := mkOperation "op" "t" None CREDENTIAL_ISSUE PROCESSING JNull None
                              (Some "ext") (Some "x1") None 0 0 0 ]}
    (issue_db Uncertain (Some "op")).

Lemma issue_never_resubmits_witness :
  issue sample_registry "t" "x1" (world_of submitted_db 0) =
  getForTenant "t" "op" (world_of submitted_db 0).
Proof.
  rewrite (issue_never_resubmits sample_registry "t" "x1" (world_of submitted_db 0)
    (waiting_exchange Uncertain (Some "op"))); [reflexivity|vm_compute; reflexivity|done].
Defined.

(** ** A claim that is lost *)

(** The sample agent, logging what it is asked to issue and still working on it
    when it answers. *)
Definition busy_adapter : AgentAdapter :=
  mkAdapter [AnonCreds] silent_adapter.(ad_createInvitation) silent_adapter.(ad_acceptInvitation)
    silent_adapter.(ad_getById) silent_adapter.(ad_listByInvitation) silent_adapter.(ad_deleteById)
    silent_adapter.(ad_offerCredential)
    (fun _ i => _ ← log_call "issueCredential" i; mret (sample_exchange i (Some "r") RequestReceived))
    silent_adapter.(ad_getExchange) silent_adapter.(ad_acceptOffer) silent_adapter.(ad_rejectOffer)
    silent_adapter.(ad_revoke) silent_adapter.(ad_requestPresentation) None.
Definition busy_registry : Registry :=
  mkRegistry (fun t => if decide (t = TRACTION) then Some busy_adapter else None) false plain_env.

(** The first insert into the queue fails in the database. *)
Definition flaky_world : World :=
  let w := world_of (issue_db NotSubmitted None) 0 in
  mkWorld w.(committed) w.(working) w.(clock) w.(uuids) w.(uuid_next)
    (fun n => if (n =? 0)%nat then StatementFailed else Sent) w.(still_queued) w.(sends)
    w.(emitted) w.(calls) w.(pod).

(** A failed audit insert loses the claim.  The claim transaction ends with the
    audit entry, whose errors are swallowed; when that insert fails in the
    database the transaction is aborted, its COMMIT rolls back without an error,
    and [issue] goes on to ask the agent although nothing was recorded.  The
    caller gets "Operation not found", the exchange still says not-submitted, and
    the next request asks the agent to issue the same credential again. *)
Theorem failed_audit_loses_claim :
  let r1 := issue busy_registry "t" "x1" flaky_world in
  let r2 := issue busy_registry "t" "x1" r1.1 in
  r1.2 = inl (NotFoundException "Operation not found") /\
  (ex_issueSubmission <$> find_exchange "t" "x1" r1.1.(committed)) = Some NotSubmitted /\
  r1.1.(committed).(db_operations) = ∅ /\
  r2.1.(calls) = [("issueCredential", "ext"); ("issueCredential", "ext")].
Proof. vm_compute. split_and!; reflexivity. Qed.
