(* ===== verification/CredentialAction.v ===== *)
(** * Holder actions and revocation

    CredentialActionService and CredentialRevokeService (credential): the requests on a credential that drive one
    operation through the agent. *)

From Stdlib Require Import Ascii ZArith Lia.
From stdpp Require Import base decidable strings sets gmap list list_relations.
From S2P Require Import Prelude Js Entities StateMapping OperationTtl Db Pagination OperationService CredentialRepository.
From S2P Require Import ConnectionRepository ConnectorService AdapterRegistry CredentialExchangeService.

(** * CredentialActionService

    Models credential/credential-action.service.ts: a holder accepts or rejects an
    offer.  At most one such action is in flight per offer; a request finds, joins
    or creates it, and drives it off [PENDING] by asking the agent. *)

Local Open Scope Z_scope.

Inductive HolderAction := Accept | Reject.

Definition action_str (a : HolderAction) : string :=
  match a with Accept => "accept" | Reject => "reject" end.

Definition action_type (a : HolderAction) : string :=
  match a with Accept => CREDENTIAL_ACCEPT | Reject => CREDENTIAL_REJECT end.

Definition domainEventName (a : HolderAction) : string :=
  match a with Accept => "credential.accepted" | Reject => "credential.rejected" end.

(** What a resolved agent call means for the operation. *)
Record ActionOutcome := mkActionOutcome {
  oc_state : OperationState;
  oc_result : option json
}.

Definition completeAccept (a : AgentAdapter) (cx : ConnectorContext) (externalId : string)
    : Prog ActionOutcome :=
  exchange ← a.(ad_acceptOffer) cx externalId;
  mret (if decide (exchange.(ae_state) = Done)
        then mkActionOutcome COMPLETED (Some (agent_exchange_json exchange))
        else mkActionOutcome PROCESSING None).

Definition completeReject (a : AgentAdapter) (cx : ConnectorContext) (externalId : string)
    : Prog ActionOutcome :=
  _ ← a.(ad_rejectOffer) cx externalId;
  mret (mkActionOutcome COMPLETED (Some (JObj []))).

(** The row as other requests left it, after a lost guard. *)
Definition current_operation (id : string) (m : Mgr) : Prog Operation :=
  row ← operations_findById id m;
  match row with
  | Some o => mret o
  | None => throw (NotFoundException "Operation not found")
  end.

(** The transaction of a resolved call: the operation, and whether this caller's
    outcome is the one recorded. *)
Definition settle_action (tenantId externalId id : string) (action : HolderAction)
    (outcome : ActionOutcome) : Prog (Operation * bool) :=
  updated ← transitionStateIfForward id (Some outcome.(oc_state))
              (operationStatesBelow (Some outcome.(oc_state))) (Some outcome.(oc_result)) Tx None;
  match updated with
  | None => current ← current_operation id NoTx; mret (current, false)
  | Some u =>
      _ ← prog_when (bool_decide (outcome.(oc_state) = COMPLETED))
            (dispatch Tx tenantId (domainEventName action) externalId);
      mret (u, true)
  end.

(** The transaction of a failed call; the revocation service has the same one. *)
Definition settle_failure (tenantId externalId id code message event : string) : Prog Operation :=
  failed ← transitionStateIfForward id (Some FAILED) (operationStatesBelow (Some FAILED))
             (Some (Some (JObj [("code", JStr code); ("message", JStr message)]))) Tx None;
  match failed with
  | None => current_operation id NoTx
  | Some f => _ ← dispatch Tx tenantId event externalId; mret f
  end.

Section ActionService.
Context (registry : Registry).

Definition executeAction (action : HolderAction) (tenantId exchangeId externalId : string)
    (actionOperation : Operation) : Prog Operation :=
  let id := actionOperation.(op_id) in
  catch
    (resolved ← resolve registry tenantId None no_options;
     outcome ← match action with
               | Accept => completeAccept resolved.(rs_adapter) resolved.(rs_context) externalId
               | Reject => completeReject resolved.(rs_adapter) resolved.(rs_context) externalId
               end;
     '(completed, won) ← transaction (settle_action tenantId externalId id action outcome);
     _ ← audit_emit NoTx tenantId "hold" "credential" exchangeId;
     _ ← prog_when (won && bool_decide (outcome.(oc_state) = COMPLETED))
           (emit_event (domainEventName action) tenantId externalId);
     mret completed)
    (fun error =>
     match is_adapter_error error with
     | None => throw error
     | Some (code, message) =>
         current ← transaction (settle_failure tenantId externalId id code message
                                  ("credential." +:+ action_str action +:+ ".failed"));
         _ ← audit_emit NoTx tenantId "hold" "credential" exchangeId;
         mret current
     end).

Definition perform (action : HolderAction) (tenantId exchangeId : string) : Prog Operation :=
  row ← operations_findByIdForTenant exchangeId tenantId NoTx;
  match row with
  | Some offer =>
      if String.eqb offer.(op_type) CREDENTIAL_OFFER && truthy_str offer.(op_externalId) then
        let externalId := default "" offer.(op_externalId) in
        inFlightAction ← operations_findByExternalIdForTenant tenantId externalId
                           [action_type action];
        match inFlightAction with
        | Some o =>
            if decide (o.(op_state) = PROCESSING) then mret o
            else executeAction action tenantId exchangeId externalId o
        | None =>
            created ← catch
              (o ← createOperation
                 (mkCreateOp tenantId (action_type action)
                    (JObj [("method", JStr "POST");
                           ("path", JStr (API_BASE_PATH +:+ "/tenants/" +:+ tenantId +:+
                              "/credentials/" +:+ exchangeId +:+ "/" +:+ action_str action));
                           ("body", JObj [])]) None (Some externalId) None) NoTx;
               mret (inr o))
              (fun e => if isUniqueConstraintViolation e then mret (inl e) else throw e);
            match created with
            | inr o => executeAction action tenantId exchangeId externalId o
            | inl error =>
                winner ← operations_findLatestByExternalIdAndTypeForTenant tenantId externalId
                           [CREDENTIAL_ACCEPT; CREDENTIAL_REJECT];
                match winner with
                | None => throw error
                | Some o =>
                    if negb (String.eqb o.(op_type) (action_type action)) then
                      throw (ConflictException
                        ("Credential offer '" +:+ exchangeId +:+ "' was already " +:+
                         (if String.eqb o.(op_type) CREDENTIAL_ACCEPT then "accepted"
                          else "rejected")))
                    else if decide (o.(op_state) = PENDING)
                    then executeAction action tenantId exchangeId externalId o
                    else mret o
                end
            end
        end
      else throw (NotFoundException ("Credential offer '" +:+ exchangeId +:+ "' was not found"))
  | None => throw (NotFoundException ("Credential offer '" +:+ exchangeId +:+ "' was not found"))
  end.

Definition credential_accept (tenantId exchangeId : string) : Prog Operation :=
  perform Accept tenantId exchangeId.
Definition credential_reject (tenantId exchangeId : string) : Prog Operation :=
  perform Reject tenantId exchangeId.
End ActionService.

(** * CredentialRevokeService

    Models credential/credential-revoke.service.ts: revoking a credential through
    the agent that issued it.  At most one revocation is in flight per credential;
    a request finds, joins or creates it, and settles it with what the agent
    answers. *)

Local Open Scope Z_scope.

Definition REVOCABLE_FORMATS : list CredentialDefinitionFormat := [ANONCREDS].

(** The transaction of a revocation the agent applied. *)
Definition settle_revoked (tenantId credentialId externalId id : string)
    (result : RevocationResult) (revokedAt : Z) : Prog (Operation * bool) :=
  updated ← transitionStateIfForward id (Some COMPLETED) (operationStatesBelow (Some COMPLETED))
              (Some (Some (revocation_json result))) Tx None;
  match updated with
  | None => current ← current_operation id NoTx; mret (current, false)
  | Some u =>
      credentialUpdated ← credentials_updateStateIfForward credentialId tenantId REVOKED
                            (credentialStatesBelow REVOKED)
                            (mkTimestamps None (Some revokedAt) None) Tx;
      if credentialUpdated : bool then
        _ ← dispatch Tx tenantId "credential.revoked" externalId;
        mret (u, true)
      else throw (JsError ("Credential '" +:+ credentialId +:+ "' was not in a revocable state " +:+
             "despite Operation '" +:+ id +:+ "' winning its own guard"))
  end.

Section RevokeService.
Context (registry : Registry).

Definition executeRevoke (tenantId credentialId : string) (credential : Credential)
    (operation : Operation) : Prog Operation :=
  let externalId := default "" credential.(cr_externalId) in
  let id := operation.(op_id) in
  catch
    (resolved ← resolve registry tenantId None (with_connector (Some credential.(cr_connectorId)));
     result ← resolved.(rs_adapter).(ad_revoke) resolved.(rs_context) externalId;
     if negb result.(rv_revoked) then
       current ← transaction (settle_failure tenantId externalId id "REVOCATION_FAILED"
                   (default "Revocation was not applied" result.(rv_error))
                   "credential.revoke.failed");
       _ ← audit_emit NoTx tenantId "revoke" "credential" credentialId;
       mret current
     else
       now ← now_ms;
       let revokedAt := match result.(rv_revokedAt) with
                        | Some (String _ _, at_) => at_
                        | _ => now
                        end in
       '(current, won) ← transaction (settle_revoked tenantId credentialId externalId id result
                                        revokedAt);
       _ ← audit_emit NoTx tenantId "revoke" "credential" credentialId;
       _ ← prog_when won (emit_event "credential.revoked" tenantId externalId);
       mret current)
    (fun error =>
     match is_adapter_error error with
     | None => throw error
     | Some (code, message) =>
         current ← transaction (settle_failure tenantId externalId id code message
                                  "credential.revoke.failed");
         _ ← audit_emit NoTx tenantId "revoke" "credential" credentialId;
         mret current
     end).

Definition revoke (tenantId credentialId : string) : Prog Operation :=
  row ← credentials_findByIdForTenant credentialId tenantId;
  match row with
  | None => throw (NotFoundException ("Credential '" +:+ credentialId +:+ "' was not found"))
  | Some credential =>
      if negb (bool_decide (credential.(cr_format) ∈ REVOCABLE_FORMATS)) then
        throw (BadRequestException ("Credential format '" +:+
          definition_format_str credential.(cr_format) +:+ "' does not support revocation"))
      else if negb (truthy_str credential.(cr_externalId)) then
        throw (BadRequestException ("Credential '" +:+ credentialId +:+
          "' has no adapter-assigned identifier to revoke"))
      else
        let externalId := default "" credential.(cr_externalId) in
        inFlight ← operations_findByExternalIdForTenant tenantId externalId [CREDENTIAL_REVOKE];
        match inFlight with
        | Some o =>
            if decide (o.(op_state) = PROCESSING) then mret o
            else executeRevoke tenantId credentialId credential o
        | None =>
            created ← catch
              (o ← createOperation
                 (mkCreateOp tenantId CREDENTIAL_REVOKE
                    (JObj [("method", JStr "POST");
                           ("path", JStr (API_BASE_PATH +:+ "/tenants/" +:+ tenantId +:+
                              "/credentials/" +:+ credentialId +:+ "/revoke"));
                           ("body", JObj [])]) None (Some externalId) None) NoTx;
               mret (inr o))
              (fun e => if isUniqueConstraintViolation e then mret (inl e) else throw e);
            match created with
            | inr o => executeRevoke tenantId credentialId credential o
            | inl error =>
                winner ← operations_findLatestByExternalIdAndTypeForTenant tenantId externalId
                           [CREDENTIAL_REVOKE];
                match winner with
                | None => throw error
                | Some o =>
                    if decide (o.(op_state) = PENDING)
                    then executeRevoke tenantId credentialId credential o
                    else mret o
                end
            end
        end
  end.
End RevokeService.
