(* ===== verification/ActionCorrectness.v ===== *)
(** * What holder actions and revocations guarantee

    Both services ask the agent between two steps on their operation: finding or
    creating it, and settling it.  Whatever other requests and the webhook worker
    commit meanwhile, records only move forward, and no caller is handed an
    operation that nothing will move. *)

From Stdlib Require Import Ascii ZArith Lia.
From stdpp Require Import base decidable strings sets gmap list list_relations.
From S2P Require Import Prelude Js Entities StateMapping OperationTtl Db Pagination.
From S2P Require Import OperationService CredentialRepository.
From S2P Require Import ConnectionRepository ConnectorService AdapterRegistry Auth ConnectionService.
From S2P Require Import ProtocolStateChange Lifecycle ProtocolLifecycle ProtocolNotification.
From S2P Require Import OperationCorrectness CredentialExchangeService ServiceLogic.
From S2P Require Import ConnectionCorrectness ExchangeCorrectness CredentialAction.

Local Open Scope Z_scope.

(** ** The contract *)

Lemma txkeeps_below own t id st r e P :
  own t -> (forall d, P d -> has_op t id d) ->
  txkeeps own P (transitionStateIfForward id st (operationStatesBelow st) r Tx e).
Proof.
  intros Ht HP. apply txkeeps_transition; [apply below_step|].
  intros d o Hd. by eapply has_op_mine, HP.
Qed.

#[export] Instance read_only_current id m : ReadOnly (current_operation id m).
Proof. unfold current_operation, operations_findById. solve_read_only. Qed.

Lemma txpres_read_only {A} mine (p : Prog A) `{!ReadOnly p} : TxPres mine p.
Proof. intros w _. rewrite read_only. reflexivity. Qed.

Section Contract.
Context (registry : Registry) (own : string -> Prop) (t : string) (Ht : own t).
Context (laws : forall ty a, registry.(rg_adapters) ty = Some a -> AdapterLaws (Evo own) a).

Abbreviation mine := (fun x : string => x = t).

Lemma txkeeps_settle_action ext id a oc : txkeeps mine (has_op t id) (settle_action t ext id a oc).
Proof.
  unfold settle_action. apply txkeeps_seq; [apply stable_has_op|by apply (txkeeps_below mine t)|].
  intros [u|]; apply txkeeps_pres.
  - apply txpres_bind; [apply txpres_prog_when, txpres_vpres; by apply vpres_dispatch|intros; apply _].
  - apply txpres_bind; [apply txpres_read_only, _|intros; apply _].
Qed.

Lemma txkeeps_settle_failure ext id code msg ev :
  txkeeps mine (has_op t id) (settle_failure t ext id code msg ev).
Proof.
  unfold settle_failure. apply txkeeps_seq; [apply stable_has_op|by apply (txkeeps_below mine t)|].
  intros [u|]; apply txkeeps_pres; [|apply txpres_read_only, _].
  apply txpres_bind; [apply txpres_vpres; by apply vpres_dispatch|intros; apply _].
Qed.

Lemma txkeeps_settle_revoked cid ext id r at_ :
  txkeeps mine (has_op t id) (settle_revoked t cid ext id r at_).
Proof.
  unfold settle_revoked. apply txkeeps_seq; [apply stable_has_op|by apply (txkeeps_below mine t)|].
  intros [u|]; apply txkeeps_pres.
  - apply txpres_bind; [apply txpres_vpres; by apply vpres_credentials_updateStateIfForward|].
    intros []; [|apply _]. apply txpres_bind; [apply txpres_vpres; by apply vpres_dispatch|intros; apply _].
  - apply txpres_bind; [apply txpres_read_only, _|intros; apply _].
Qed.

Lemma keeps_tx {A} P (p : Prog A) : txkeeps mine P p -> keeps own P (transaction p).
Proof. intros Hp. eapply keeps_transaction; [|exact Hp]. by intros x ->. Qed.

(** The audit entry after a transaction, and what follows it. *)
Lemma keeps_audit {B} P act rid (k : unit -> Prog B) :
  stable own P -> (forall u, Pres (Evo own) (k u)) ->
  keeps own P (audit_emit NoTx t act "credential" rid ≫= k).
Proof.
  intros HS Hk. apply keeps_seq; [done| |intros; by apply keeps_pres].
  eapply (keeps_statement _ mine); [by intros y ->|by apply vpres_audit_emit].
Qed.

Lemma keeps_executeAction a exId ext op :
  keeps own (has_op t op.(op_id)) (executeAction registry a t exId ext op).
Proof.
  pose proof (stable_has_op own t op.(op_id)) as HS. unfold executeAction. cbv zeta.
  apply keeps_catch; [done| |].
  - eapply keeps_resolve; [done..|]. intros r HL. apply keeps_seq; [done| |].
    { apply keeps_pres. unfold completeAccept, completeReject.
      destruct a; apply pres_bind; try apply _; intros; apply _. }
    intros oc.
    apply keeps_seq; [done|apply keeps_tx, txkeeps_settle_action|]. intros [completed won].
    apply keeps_audit; [done|intros; apply _].
  - intros e. destruct (is_adapter_error e) as [[code msg]|]; [|apply keeps_read_only, _].
    apply keeps_seq; [done|apply keeps_tx, txkeeps_settle_failure|].
    intros current. apply keeps_audit; [done|intros; apply _].
Qed.

Lemma keeps_executeRevoke cid c op :
  keeps own (has_op t op.(op_id)) (executeRevoke registry t cid c op).
Proof.
  pose proof (stable_has_op own t op.(op_id)) as HS. unfold executeRevoke. cbv zeta.
  apply keeps_catch; [done| |].
  - eapply keeps_resolve; [done..|]. intros r HL. apply keeps_seq; [done|apply keeps_pres, _|].
    intros res. case_match.
    + apply keeps_seq; [done|apply keeps_tx, txkeeps_settle_failure|].
    intros current. apply keeps_audit; [done|intros; apply _].
    + apply keeps_seq; [done|apply keeps_pres, _|]. intros now.
      apply keeps_seq; [done|apply keeps_tx, txkeeps_settle_revoked|]. intros [current won].
      apply keeps_audit; [done|intros; apply _].
  - intros e. destruct (is_adapter_error e) as [[code msg]|]; [|apply keeps_read_only, _].
    apply keeps_seq; [done|apply keeps_tx, txkeeps_settle_failure|].
    intros current. apply keeps_audit; [done|intros; apply _].
Qed.
End Contract.

(** ** Finding the operation *)

Lemma latest_has_op t ext P (Q : Operation -> bool) d o :
  keyed d -> find_latest op_createdAt Q d.(db_operations) = Some o ->
  (Q o = true -> matches_external t ext P o = true) -> has_op t o.(op_id) d.
Proof.
  intros [K _] (HQ & [i Hi] & _)%find_latest_Some Hm. specialize (Hm HQ).
  apply andb_prop in Hm as [[Hot _]%andb_prop _]. apply String.eqb_eq in Hot.
  exists o. by rewrite (K _ _ Hi).
Qed.

Section Requests.
Context (registry : Registry) (own : string -> Prop) (t : string) (Ht : own t).
Context (laws : forall ty a, registry.(rg_adapters) ty = Some a -> AdapterLaws (Evo own) a).

(** The shape both services share: join the operation in flight, or create it, or
    take the winner of the race to create it. *)
Lemma keeps_find_or_create {B} ext types (input : CreateOperationInput)
    (run : Operation -> Prog B) (found : Operation -> Prog B) (lost : Exn -> Prog B) :
  input.(co_tenantId) = t ->
  (forall o, keeps own (has_op t o.(op_id)) (run o)) ->
  (forall o, keeps own (has_op t o.(op_id)) (found o)) ->
  (forall e, keeps own (fun _ => True) (lost e)) ->
  keeps own (fun _ => True)
    (inFlight ← operations_findByExternalIdForTenant t ext types;
     match inFlight with
     | Some o => found o
     | None =>
         created ← catch (o ← createOperation input NoTx; mret (inr o))
           (fun e => if isUniqueConstraintViolation e then mret (inl e) else throw e);
         match created with
         | inr o => run o
         | inl error => lost error
         end
     end).
Proof.
  intros Hi Hrun Hfound Hlost.
  apply (keeps_bind own _ (fun r d => match r with Some o => has_op t o.(op_id) d | None => True end)).
  - by intros ????.
  - apply keeps_read_only. unfold operations_findByExternalIdForTenant. apply _.
  - intros w w' r K _ E. injection E as <- <-. destruct (find_latest _ _ _) as [o|] eqn:Eo; [|done].
    eapply latest_has_op; [done|exact Eo|]. by intros [H _]%andb_prop.
  - intros [o|]; [eapply keeps_weaken; [|apply Hfound]; by intros d [_ ?]|].
    apply (keeps_bind own _ (fun r d => match r with inr o => has_op t o.(op_id) d | inl _ => True end)).
    + by intros ????.
    + intros w K _. apply (keeps_catch own (fun _ => True)); [by intros ????| | |done|done].
      * apply keeps_seq; [by intros ????| |intros; apply keeps_read_only, _].
        eapply (keeps_statement _ (fun x => x = t)); [by intros x ->|by apply vpres_createOperation].
      * intros e. case_match; apply keeps_read_only, _.
    + intros w w' r K _ E. unfold catch in E. unfold mbind at 1, prog_bind at 1 in E.
      destruct (createOperation input NoTx w) as [w1 [e|o]] eqn:Ec.
      * destruct (isUniqueConstraintViolation e); [by injection E as _ <-|done].
      * injection E as <- <-. apply createOperation_row in Ec as (x & i & -> & Hops & _).
        simpl in Hops. eexists. rewrite Hops. simpl. by rewrite lookup_insert_eq.
    + intros [e|o]; eapply keeps_weaken; [|apply Hlost| |apply Hrun]; [done|]. by intros d [_ ?].
Qed.

Lemma keeps_winner {B} ext types (k : option Operation -> Prog B) :
  (forall o, keeps own (has_op t o.(op_id)) (k (Some o))) -> keeps own (fun _ => True) (k None) ->
  keeps own (fun _ => True)
    (winner ← operations_findLatestByExternalIdAndTypeForTenant t ext types; k winner).
Proof.
  intros HS HN.
  apply (keeps_bind own _ (fun r d => match r with Some o => has_op t o.(op_id) d | None => True end)).
  - by intros ????.
  - apply keeps_read_only. unfold operations_findLatestByExternalIdAndTypeForTenant. apply _.
  - intros w w' r K _ E. injection E as <- <-. destruct (find_latest _ _ _) as [o|] eqn:Eo; [|done].
    by eapply latest_has_op; [done|exact Eo|].
  - intros [o|]; eapply keeps_weaken; [|apply HS| |apply HN]; [|done]. by intros d [_ ?].
Qed.

Lemma keeps_perform a exId : keeps own (fun _ => True) (perform registry a t exId).
Proof.
  unfold perform. apply keeps_seq; [by intros ????| |].
  { apply keeps_read_only. unfold operations_findByIdForTenant. apply _. }
  intros [offer|]; [|apply keeps_read_only, _]. case_match; [|apply keeps_read_only, _]. cbv zeta.
  apply (keeps_find_or_create _ _ _ (executeAction registry a t exId (default "" (op_externalId offer)))
    (fun o => if decide (op_state o = PROCESSING) then mret o
              else executeAction registry a t exId (default "" (op_externalId offer)) o)
    (fun error => winner ← operations_findLatestByExternalIdAndTypeForTenant t _ _; _)); [done|..].
  - intros o. by apply keeps_executeAction.
  - intros o. case_decide; [apply keeps_read_only, _|by apply keeps_executeAction].
  - intros e. apply keeps_winner; [|apply keeps_read_only, _]. intros o.
    case_match; [apply keeps_read_only, _|]. case_decide; [by apply keeps_executeAction|apply keeps_read_only, _].
Qed.

Lemma keeps_revoke cid : keeps own (fun _ => True) (revoke registry t cid).
Proof.
  unfold revoke. apply keeps_seq; [by intros ????| |].
  { apply keeps_read_only. unfold credentials_findByIdForTenant. apply _. }
  intros [c|]; [|apply keeps_read_only, _]. case_match; [apply keeps_read_only, _|].
  case_match; [apply keeps_read_only, _|]. cbv zeta.
  apply (keeps_find_or_create _ _ _ (executeRevoke registry t cid c)
    (fun o => if decide (op_state o = PROCESSING) then mret o else executeRevoke registry t cid c o)
    (fun error => winner ← operations_findLatestByExternalIdAndTypeForTenant t _ _; _)); [done|..].
  - intros o. by apply keeps_executeRevoke.
  - intros o. destruct (decide (op_state o = PROCESSING));
      [apply keeps_read_only, _|by apply keeps_executeRevoke].
  - intros e. apply keeps_winner; [|apply keeps_read_only, _]. intros o.
    destruct (decide (op_state o = PENDING)); [by apply keeps_executeRevoke|apply keeps_read_only, _].
Qed.
End Requests.

(** ** Settling *)

Lemma dispatch_operations m t e r w w' u :
  dispatch m t e r w = (w', inr u) -> (view m w').(db_operations) = (view m w).(db_operations).
Proof.
  unfold dispatch, send. intros E. run_inv E. injection E0 as <- <-.
  destruct (send_fate _ _); [|done..]. injection E as <- _. by destruct m.
Qed.

Lemma audit_emit_operations t a rt ri w w' x :
  audit_emit NoTx t a rt ri w = (w', x) ->
  w'.(committed).(db_operations) = w.(committed).(db_operations).
Proof.
  unfold audit_emit, catch, send. destruct (send_fate _ _); intros E; injection E as <- _; done.
Qed.

(** A guarded transition in a transaction: either its patch is on the row, or it
    lost to the state the row is in. *)
Lemma transition_in_tx id st r e w w1 res :
  transitionStateIfForward id (Some st) (operationStatesBelow (Some st)) r Tx e w = (w1, inr res) ->
  match res with
  | Some o => w1.(working).(db_operations) !! id = Some o /\ o.(op_state) = st
  | None => w1 = w /\ forall o, w.(working).(db_operations) !! id = Some o ->
              o.(op_state) ∉ operationStatesBelow (Some st)
  end.
Proof.
  intros E. destruct res as [o|].
  - apply transitionStateIfForward_won in E as (o0 & x & _ & _ & -> & H). split; [exact H|].
    simpl. unfold apply_patch. by destruct r, e.
  - split; [by eapply transitionStateIfForward_None|]. intros o Ho Hin.
    by destruct (transition_matching _ _ _ _ _ _ _ _ _ _ E Ho Hin).
Qed.

Lemma current_operation_inr id m w w' o :
  current_operation id m w = (w', inr o) -> w' = w /\ (view m w).(db_operations) !! id = Some o.
Proof.
  unfold current_operation. intros E. run_inv E. injection E0 as <- <-.
  destruct (_ !! id); [|done]. by injection E as <- <-.
Qed.

(** The committed row after a settling transaction. *)
Definition settled_row (id : string) (st : OperationState) (d : DB) (o : Operation) : Prop :=
  d.(db_operations) !! id = Some o /\
  (o.(op_state) = st \/ o.(op_state) ∉ operationStatesBelow (Some st)).

Lemma settle_action_row t ext id a oc w w' o won :
  transaction (settle_action t ext id a oc) w = (w', inr (o, won)) ->
  settled_row id oc.(oc_state) w'.(committed) o.
Proof.
  unfold transaction. destruct (settle_action _ _ _ _ _ _) as [w1 [e|r]] eqn:E; [done|].
  intros H. injection H as <- ->. unfold settle_action in E. run_inv E.
  apply transition_in_tx in E0. destruct a0 as [u|].
  - destruct E0 as [Hu Hst]. run_inv E. injection E as <- <- <-. split; [|by left]. simpl.
    destruct (bool_decide _); simpl in E0; [|by injection E0 as <- _].
    apply dispatch_operations in E0. simpl in E0. by rewrite E0.
  - destruct E0 as [-> Hlost]. run_inv E. injection E as <- <- <-.
    apply current_operation_inr in E0 as [-> Hc]. simpl in *. split; [done|right; by apply Hlost].
Qed.

Lemma settle_failure_row t ext id code msg ev w w' o :
  transaction (settle_failure t ext id code msg ev) w = (w', inr o) ->
  settled_row id FAILED w'.(committed) o.
Proof.
  unfold transaction. destruct (settle_failure _ _ _ _ _ _ _) as [w1 [e|r]] eqn:E; [done|].
  intros H. injection H as <- ->. unfold settle_failure in E. run_inv E.
  apply transition_in_tx in E0. destruct a as [u|].
  - destruct E0 as [Hu Hst]. run_inv E. injection E as <- <-. split; [|by left]. simpl.
    apply dispatch_operations in E0. simpl in E0. by rewrite E0.
  - destruct E0 as [-> Hlost]. apply current_operation_inr in E as [-> Hc]. simpl in *.
    split; [done|right; by apply Hlost].
Qed.

Lemma settle_revoked_row t cid ext id r at_ w w' o won :
  transaction (settle_revoked t cid ext id r at_) w = (w', inr (o, won)) ->
  settled_row id COMPLETED w'.(committed) o /\
  (won = true -> exists c, w'.(committed).(db_credentials) !! cid = Some c /\
                           c.(cr_tenantId) = t /\ c.(cr_state) = REVOKED).
Proof.
  unfold transaction. destruct (settle_revoked _ _ _ _ _ _ _) as [w1 [e|x]] eqn:E; [done|].
  intros H. injection H as <- ->. unfold settle_revoked in E. run_inv E.
  apply transition_in_tx in E0. destruct a as [u|].
  - destruct E0 as [Hu Hst]. run_inv E. destruct a; [|done]. run_inv E. injection E as <- <- <-.
    pose proof (dispatch_operations _ _ _ _ _ _ _ E1) as Ho2.
    unfold credentials_updateStateIfForward, update_credential in E0. run_inv E0.
    injection E as <- <-. simpl in E0. destruct (_ !! cid) as [c|] eqn:Ec; [|done].
    destruct (String.eqb_spec (cr_tenantId c) t) as [Hct|]; [|done]. destruct (bool_decide _); [|done].
    run_inv E0. injection E as <- <-. run_inv E0. injection E0 as <-.
    unfold write_credential in E. run_inv E. injection E0 as <- <-.
    destruct (existsb _ _); [done|]. injection E as <- _. simpl in *. split.
    + split; [by rewrite Ho2|by left].
    + intros _. unfold dispatch, send in E1. run_inv E1. injection E as <- <-.
      destruct (send_fate _ _); [|done..]. injection E1 as <- _. simpl.
      rewrite lookup_insert_eq. eexists. split; [done|]. done.
  - destruct E0 as [-> Hlost]. run_inv E. injection E as <- <- <-.
    apply current_operation_inr in E0 as [-> Hc]. simpl in *.
    split; [split; [done|right; by apply Hlost]|done].
Qed.

Lemma not_below_not_pending s st : s ∉ operationStatesBelow (Some st) -> st <> PENDING -> s <> PENDING.
Proof.
  intros H Hst ->. apply H. apply operationStatesBelow_spec. destruct st; vm_compute; try lia. done.
Qed.

Lemma not_below_terminal s st :
  s ∉ operationStatesBelow (Some st) -> op_terminal st -> op_terminal s.
Proof.
  intros H Hst. destruct (decide (s = COMPLETED \/ s = FAILED)) as [|Hn]; [done|]. exfalso. apply H.
  apply operationStatesBelow_spec. destruct Hst as [-> | ->], s; try done; naive_solver.
Qed.

Lemma settled_row_not_pending id st d o : settled_row id st d o -> st <> PENDING -> o.(op_state) <> PENDING.
Proof. intros [_ [-> |H]] Hst; [done|by eapply not_below_not_pending]. Qed.

Lemma settled_row_terminal id st d o : settled_row id st d o -> op_terminal st -> op_terminal o.(op_state).
Proof. intros [_ [-> |H]] Hst; [done|by eapply not_below_terminal]. Qed.

Lemma settled_row_same id st d d' o :
  d'.(db_operations) = d.(db_operations) -> settled_row id st d o -> settled_row id st d' o.
Proof. unfold settled_row. by intros ->. Qed.

Lemma executeAction_row registry a t exId ext op w w' o :
  executeAction registry a t exId ext op w = (w', inr o) ->
  exists st, st <> PENDING /\ settled_row op.(op_id) st w'.(committed) o.
Proof.
  unfold executeAction. cbv zeta. intros [E|(w1 & e & _ & E)]%catch_inr.
  - run_inv E. run_inv E. run_inv E. destruct a2 as [completed won]. run_inv E. run_inv E.
    injection E as <- <-. exists (oc_state a1). split.
    { unfold completeAccept, completeReject in E1. destruct a; run_inv E1; injection E1 as _ <-;
        [case_decide|]; done. }
    apply settle_action_row in E2. eapply settled_row_same; [|exact E2].
    apply audit_emit_operations in E3. rewrite <-E3.
    destruct (won && _); simpl in E4; by injection E4 as <- _.
  - destruct (is_adapter_error e) as [[code msg]|]; [|done]. run_inv E. run_inv E.
    injection E as <- <-. exists FAILED. split; [done|]. apply settle_failure_row in E0.
    apply audit_emit_operations in E1. by eapply settled_row_same.
Qed.

Lemma executeRevoke_row registry t cid c op w w' o :
  executeRevoke registry t cid c op w = (w', inr o) ->
  exists st, op_terminal st /\ settled_row op.(op_id) st w'.(committed) o.
Proof.
  unfold executeRevoke. cbv zeta. intros [E|(w1 & e & _ & E)]%catch_inr.
  - run_inv E. run_inv E. destruct (negb (rv_revoked a0)).
    + run_inv E. run_inv E. injection E as <- <-. exists FAILED. split; [by right|].
      apply settle_failure_row in E2. apply audit_emit_operations in E3. by eapply settled_row_same.
    + run_inv E. run_inv E. destruct a2 as [current won]. run_inv E. run_inv E. injection E as <- <-.
      exists COMPLETED. split; [by left|]. apply settle_revoked_row in E3 as [E3 _].
      eapply settled_row_same; [|exact E3]. apply audit_emit_operations in E4. rewrite <-E4.
      destruct won; simpl in E5; by injection E5 as <- _.
  - destruct (is_adapter_error e) as [[code msg]|]; [|done]. run_inv E. run_inv E.
    injection E as <- <-. exists FAILED. split; [by right|]. apply settle_failure_row in E0.
    apply audit_emit_operations in E1. by eapply settled_row_same.
Qed.

(** C31: a holder action is never left waiting.  The operation [accept] or [reject]
    answers with is a committed row that is no longer pending: processing at the
    agent, completed or failed.  This holds for an action this request created,
    one it joined, one it recovered from an earlier request that stopped halfway,
    and one it lost the race for, whatever the agent and the webhook worker do. *)
Theorem holder_action_settles registry a t exId w w' o :
  perform registry a t exId w = (w', inr o) ->
  o.(op_state) <> PENDING /\ exists i, w'.(committed).(db_operations) !! i = Some o.
Proof.
  assert (forall ext op w, executeAction registry a t exId ext op w = (w', inr o) ->
    o.(op_state) <> PENDING /\ exists i, w'.(committed).(db_operations) !! i = Some o) as Hrun.
  { intros ext op w0 (st & Hst & Hrow)%executeAction_row. split; [by eapply settled_row_not_pending|].
    exists (op_id op). apply Hrow. }
  unfold perform. intros E. run_inv E. destruct a0 as [offer|]; [|done].
  destruct (_ && _); [|done]. cbv zeta in E. run_inv E. injection E1 as <- <-.
  destruct (find_latest _ _ _) as [f|] eqn:Ef.
  { case_decide as Hs; [|by eapply Hrun]. injection E as <- <-. rewrite Hs. split; [done|].
    by apply find_latest_Some in Ef as (_ & ? & _). }
  run_inv E. destruct a0 as [e|c]; [|by eapply Hrun]. run_inv E. injection E2 as <- <-.
  clear Ef. destruct (find_latest _ _ _) as [f|] eqn:Ew; [|done].
  destruct (negb _); [done|]. case_decide as Hs; [by eapply Hrun|]. injection E as <- <-.
  split; [done|]. by apply find_latest_Some in Ew as (_ & ? & _).
Qed.

(** An offer and the sample agent. *)
Definition offer_db : DB :=
  set_operations {[ "o1" := mkOperation "o1" "t" None CREDENTIAL_OFFER PROCESSING JNull None
                              (Some "ext") None None 0 0 0 ]} connector_db.

Lemma holder_action_settles_witness :
  exists w' o, perform sample_registry Reject "t" "o1" (world_of offer_db 0) = (w', inr o) /\
    o.(op_state) <> PENDING.
Proof.
  destruct (perform sample_registry Reject "t" "o1" (world_of offer_db 0)) as [w' r] eqn:E.
  assert (exists o, r = inr o) as [o ->].
  { vm_compute in E. injection E as _ <-. eexists. reflexivity. }
  exists w', o. split; [reflexivity|].
  exact (proj1 (holder_action_settles sample_registry Reject "t" "o1" (world_of offer_db 0) w' o E)).
Defined.

(** A creation that throws wrote nothing. *)
Lemma createOperation_throws input m w w' e :
  createOperation input m w = (w', inl e) ->
  w'.(committed) = w.(committed) /\ w'.(working) = w.(working).
Proof.
  unfold createOperation, operations_insert. intros E.
  apply bind_inl in E as [E|(w1 & now & E1 & E)]; [done|]. injection E1 as <- <-.
  apply bind_inl in E as [E|(w1 & tn & E1 & E)].
  { pose proof (tenants_findById_world (co_tenantId input) w) as H. rewrite E in H. by subst. }
  apply tenants_findById_inr in E1 as ->. apply bind_inl in E as [E|(w1 & x & E1 & E)].
  { match type of E with date_param ?y _ = _ => pose proof (date_param_world y w) as H end.
    rewrite E in H. by subst. }
  apply date_param_inr in E1 as ->.
  apply bind_inl in E as [E|(w1 & i & E1 & E)]; [done|]. injection E1 as <- <-.
  apply bind_inl in E as [E|(w1 & n & E1 & E)]; [done|]. injection E1 as <- <-.
  apply bind_inl in E as [E|(w1 & b & E1 & E)]; [done|]. injection E1 as <- <-.
  case_bool_decide; [by injection E as <- _|].
  apply bind_inl in E as [E|(w1 & u & E1 & E)]; [|done].
  unfold write_operation in E. apply bind_inl in E as [E|(w1 & c & E1 & E)]; [done|].
  injection E1 as <- <-. destruct (operation_conflict _ _ _); [by injection E as <- _|done].
Qed.

Lemma create_attempt_inl input w w' e :
  catch (o ← createOperation input NoTx; mret (inr o))
    (fun e => if isUniqueConstraintViolation e then mret (inl e) else throw e) w
    = (w', inr (inl e : Exn + Operation)) ->
  w'.(committed) = w.(committed).
Proof.
  unfold catch, mbind, prog_bind. destruct (createOperation input NoTx w) as [w1 [x|o]] eqn:E; [|done].
  apply createOperation_throws in E as [E _].
  destruct (isUniqueConstraintViolation x); intros H; by injection H as <- _.
Qed.

(** A revocation request answers with an operation that is settled, or that
    another request is settling.  The operation is a committed row that is not
    pending, and if it is still processing then it was found in flight, not made
    by this request. *)
Theorem revocation_settles registry t cid w w' o :
  revoke registry t cid w = (w', inr o) ->
  (exists i, w'.(committed).(db_operations) !! i = Some o) /\ o.(op_state) <> PENDING /\
  (o.(op_state) = PROCESSING -> w'.(committed) = w.(committed)).
Proof.
  assert (forall c op w, executeRevoke registry t cid c op w = (w', inr o) ->
    (exists i, w'.(committed).(db_operations) !! i = Some o) /\ op_terminal o.(op_state)) as Hrun.
  { intros c op w0 (st & Hst & Hrow)%executeRevoke_row. split; [exists (op_id op); apply Hrow|].
    by eapply settled_row_terminal. }
  assert (forall c op w0, executeRevoke registry t cid c op w0 = (w', inr o) ->
    (exists i, w'.(committed).(db_operations) !! i = Some o) /\ o.(op_state) <> PENDING /\
    (o.(op_state) = PROCESSING -> w'.(committed) = w.(committed))) as Hfin.
  { intros c op w0 [Hi Hterm]%Hrun. split; [done|]. destruct Hterm as [-> | ->]; done. }
  unfold revoke. intros E. run_inv E. injection E0 as <- <-.
  destruct (_ !! cid) as [c|]; [|done]. destruct (String.eqb _ _); [|done].
  destruct (negb _); [done|]. destruct (negb _); [done|]. cbv zeta in E. run_inv E.
  injection E0 as <- <-. destruct (find_latest _ _ _) as [f|] eqn:Ef.
  { case_decide as Hs; [|by eapply Hfin]. injection E as <- <-. rewrite Hs.
    apply find_latest_Some in Ef as (_ & ? & _). by split_and!. }
  clear Ef. run_inv E. destruct a as [e|c']; [|by eapply Hfin]. run_inv E. injection E1 as <- <-.
  destruct (find_latest _ _ _) as [f|] eqn:Ew; [|done].
  case_decide as Hs; [by eapply Hfin|]. injection E as <- <-.
  apply find_latest_Some in Ew as (_ & ? & _). split_and!; [done|done|]. intros _.
  by apply create_attempt_inl in E0.
Qed.

Definition revoke_credential (s : CredentialState) : Credential :=
  mkCredential "c1" "t" None None "k1" (Some "ext") ANONCREDS s "o1" None JNull None None 0 0.
Definition revoke_db (s : CredentialState) : DB :=
  set_credentials {[ "c1" := revoke_credential s ]} offer_db.

Lemma revocation_settles_witness :
  exists w' o, revoke sample_registry "t" "c1" (world_of (revoke_db ISSUED) 0) = (w', inr o) /\
    o.(op_state) <> PENDING.
Proof.
  destruct (revoke sample_registry "t" "c1" (world_of (revoke_db ISSUED) 0)) as [w' r] eqn:E.
  assert (exists o, r = inr o) as [o ->].
  { vm_compute in E. injection E as _ <-. eexists. reflexivity. }
  exists w', o. split; [reflexivity|].
  exact (proj1 (proj2 (revocation_settles sample_registry "t" "c1" (world_of (revoke_db ISSUED) 0)
    w' o E))).
Defined.

(** ** A revocation that can never settle *)

Lemma credential_update_lost i t st ts w c :
  (view Tx w).(db_credentials) !! i = Some c -> c.(cr_state) ∉ credentialStatesBelow st ->
  credentials_updateStateIfForward i t st (credentialStatesBelow st) ts Tx w = (w, inr false).
Proof.
  intros Hc Hs. unfold credentials_updateStateIfForward, update_credential, mbind, prog_bind.
  simpl in *. rewrite Hc. rewrite (bool_decide_eq_false_2 _ Hs). by rewrite andb_false_r.
Qed.

(** Revoking a credential that is not issued strands its operation.  The
    service does not look at the credential's state before asking the agent; when
    the agent reports the credential revoked and it is not in the issued state
    here (still offered, failed, or revoked before), recording the outcome throws,
    everything is rolled back, and the operation stays pending.  The next request
    finds it pending and goes the same way. *)
Theorem revoke_unissued_strands registry t cid c op w r res :
  resolve registry t None (with_connector (Some c.(cr_connectorId))) w = (w, inr r) ->
  r.(rs_adapter).(ad_revoke) r.(rs_context) (default "" c.(cr_externalId)) w = (w, inr res) ->
  res.(rv_revoked) = true ->
  w.(committed).(db_credentials) !! cid = Some c -> c.(cr_state) <> ISSUED ->
  w.(committed).(db_operations) !! op.(op_id) = Some op -> op.(op_state) = PENDING ->
  let out := executeRevoke registry t cid c op w in
  out.1.(committed) = w.(committed) /\ exists e, out.2 = inl e /\ is_adapter_error e = None.
Proof.
  intros Hr Hrev Hres Hc Hs Ho Hp. cbv zeta.
  enough (exists w1 e, executeRevoke registry t cid c op w = (w1, inl e) /\
    is_adapter_error e = None /\ w1.(committed) = w.(committed)) as (w1 & e & -> & ? & ?) by eauto.
  unfold executeRevoke. cbv zeta.
  unfold catch at 1. rewrite (bind_run _ _ _ _ _ Hr), (bind_run _ _ _ _ _ Hrev), Hres. cbn [negb].
  rewrite (bind_run now_ms _ w w (date_of w.(clock))) by reflexivity.
  set (at_ := match _ with Some _ => _ | None => _ end).
  assert (exists w1 e, transaction (settle_revoked t cid (default "" (cr_externalId c)) (op_id op) res at_) w
    = (w1, inl e) /\ is_adapter_error e = None /\ w1.(committed) = w.(committed))
    as (w1 & e & Htx & He & Hw1).
  { unfold transaction. set (w0 := set_dbs _ _ _). unfold settle_revoked. unfold mbind at 1, prog_bind at 1.
    destruct (transitionStateIfForward _ _ _ _ _ _ w0) as [w1 [e|[u|]]] eqn:Et.
    - exists (set_dbs (committed w1) (working w) w1), e.
      pose proof (transition_tx_frame _ _ _ _ _ _ _ _ Et) as [Hv _].
      split_and!; [done|by eapply no_agent_error in Et|exact Hv].
    - pose proof (transition_tx_frame _ _ _ _ _ _ _ _ Et) as [Hv (Hcr & _)].
      unfold mbind, prog_bind. rewrite (credential_update_lost cid t REVOKED _ w1 c).
      + eexists _, _. split; [reflexivity|]. split; [done|]. exact Hv.
      + simpl. by rewrite Hcr.
      + intros Hin%credentialStatesBelow_spec. apply Hs. by destruct (cr_state c).
    - destruct (transition_matching _ _ _ _ _ _ _ _ _ _ Et Ho) as [? ?]; [|done].
      rewrite Hp. apply operationStatesBelow_spec. reflexivity. }
  rewrite (bind_throw _ _ _ _ _ Htx). rewrite He. exists w1, e. by split_and!.
Qed.

Lemma revoke_unissued_strands_witness :
  let op := mkOperation "o1" "t" None CREDENTIAL_REVOKE PENDING JNull None (Some "ext") None None 0 0 0 in
  let w := world_of (set_operations {[ "o1" := op ]} (revoke_db REVOKED)) 0 in
  (executeRevoke sample_registry "t" "c1" (revoke_credential REVOKED) op w).1.(committed) =
    w.(committed).
Proof.
  cbv zeta.
  refine (proj1 (revoke_unissued_strands sample_registry "t" "c1" (revoke_credential REVOKED) _ _
    (mkResolved silent_adapter sample_connector sample_context (Some AnonCreds))
    (mkRevocation "ext" true None None) _ _ _ _ _ _ _)); vm_compute; done.
Defined.
