(* ===== verification/FormatValidators.v ===== *)
(** * Format validators

    Models libs/credential-ports/src/validators: the AnonCreds validator of schema
    definitions and offered attributes, the mDL stub, the registry of validators
    and the structural check of an offer request.  An issue keeps the value it
    describes instead of its serialization ([describe]). *)

From Stdlib Require Import Ascii ZArith Lia.
From stdpp Require Import base decidable strings sets gmap list list_relations sorting.
From S2P Require Import Prelude Js Entities StateMapping OperationTtl Db AdapterRegistry.
From S2P Require Import CredentialExchangeService.

(** ** Issues *)

Inductive IssueActual :=
| ActualText (s : string)
| ActualDescribed (v : option json)              (* describe(value) *)
| ActualAttribute (v : AttributeValue).

Record FormatValidationIssue := mkIssue {
  fi_field : string;
  fi_expected : string;
  fi_actual : IssueActual;
  fi_message : string
}.

(** [names.join(', ')] *)
Definition join_names (names : list string) : string := String.concat ", " names.

(** [isStringArray] and [isNonEmptyStringArray], with the strings. *)
Definition isStringArray (v : option json) : option (list string) :=
  match v with
  | Some (JArr l) => mapM (fun x => as_string (Some x)) l
  | _ => None
  end.

Definition isNonEmptyStringArray (v : option json) : option (list string) :=
  match isStringArray v with
  | Some (x :: l) => Some (x :: l)
  | _ => None
  end.

(** [typeof value === 'string' && value.trim().length > 0] *)
Definition hasText (v : option json) : bool :=
  match v with Some (JStr s) => negb (String.eqb (js_trim s) "") | _ => false end.

(** ** AnonCreds *)

Module AnonCredsFormatValidator.

Definition validateAttrNames (attrNames : option json) : option FormatValidationIssue :=
  match isNonEmptyStringArray attrNames with
  | None =>
      Some (mkIssue "attr_names" "a non-empty array of attribute name strings"
              (ActualDescribed attrNames)
              "AnonCreds schema must declare attr_names as a non-empty array of strings")
  | Some names =>
      if (length (js_set names) =? length names)%nat then None
      else Some (mkIssue "attr_names" "unique attribute names" (ActualDescribed attrNames)
                   "AnonCreds schema attr_names must not contain duplicates")
  end.

Definition validateSchemaNameAndVersion (schema : list (string * json))
    : list FormatValidationIssue :=
  mbind (fun field =>
    let value := assoc field schema in
    if hasText value then []
    else [mkIssue field "a non-empty string" (ActualDescribed value)
            ("AnonCreds schema must declare a non-empty " +:+ field)])
    ["schema_name"; "schema_version"].

Definition validateOptionalAttributes (optionalAttributes attrNames : option json)
    : list FormatValidationIssue :=
  match optionalAttributes with
  | None => []
  | Some _ =>
      match isStringArray optionalAttributes with
      | None =>
          [mkIssue "optional_attributes" "an array of attribute name strings"
             (ActualDescribed optionalAttributes)
             "AnonCreds schema optional_attributes must be a string array"]
      | Some optional =>
          match isNonEmptyStringArray attrNames with
          | None => []
          | Some names =>
              (fun n => mkIssue "optional_attributes" ("one of: " +:+ join_names names)
                          (ActualText n)
                          ("optional_attributes entry '" +:+ n +:+
                           "' is not declared in attr_names")) <$>
              List.filter (fun n => negb (mem_str n names)) optional
          end
      end
  end.

(** [typeof attribute.value === 'string'] *)
Definition is_text (v : AttributeValue) : bool :=
  match v with
  | AText _ | ASerialized _ => true
  | ARaw v => match v with JStr _ => true | _ => false end
  end.

Definition validateAttributeEntry (name : string) (value : AttributeValue)
    (attrNames : list string) (isDuplicate : bool) : option FormatValidationIssue :=
  if isDuplicate then
    Some (mkIssue name "a single value" (ActualText "duplicate attribute")
            ("Attribute '" +:+ name +:+ "' was supplied more than once"))
  else if negb (mem_str name attrNames) then
    Some (mkIssue name ("one of: " +:+ join_names attrNames) (ActualText name)
            ("Attribute '" +:+ name +:+
             "' is not declared in the credential definition schema"))
  else if negb (is_text value) then
    Some (mkIssue name "a string value" (ActualAttribute value)
            ("AnonCreds attribute values must be strings; ACA-Py encodes predicate " +:+
             "values as strings internally"))
  else None.

Definition findMissingRequiredAttributes (requiredNames seenNames : list string)
    : list FormatValidationIssue :=
  (fun n => mkIssue n "a value" (ActualText "missing")
              ("Required attribute '" +:+ n +:+ "' was not supplied")) <$>
  List.filter (fun n => negb (mem_str n seenNames)) requiredNames.

Definition validateSchema (schema : list (string * json)) : list FormatValidationIssue :=
  let attrNames := assoc "attr_names" schema in
  match validateAttrNames attrNames with Some i => [i] | None => [] end ++
  validateSchemaNameAndVersion schema ++
  validateOptionalAttributes (assoc "optional_attributes" schema) attrNames.

(** The loop over the offered attributes: the issues found, and the names seen. *)
Fixpoint check_entries (attrNames : list string) (attributes : list (string * AttributeValue))
    (seenNames : list string) : list FormatValidationIssue * list string :=
  match attributes with
  | [] => ([], seenNames)
  | (name, value) :: rest =>
      let issue := validateAttributeEntry name value attrNames (mem_str name seenNames) in
      let '(issues, seen) := check_entries attrNames rest
                               (if mem_str name seenNames then seenNames else seenNames ++ [name]) in
      (match issue with Some i => i :: issues | None => issues end, seen)
  end.

Definition validateAttributes (schema : list (string * json))
    (attributes : list (string * AttributeValue)) : list FormatValidationIssue :=
  match isNonEmptyStringArray (assoc "attr_names" schema) with
  | None =>
      [mkIssue "attr_names" "a non-empty array of attribute name strings"
         (ActualDescribed (assoc "attr_names" schema))
         "Cannot validate attributes: AnonCreds schema attr_names is missing or invalid"]
  | Some attrNames =>
      let optional := default [] (isStringArray (assoc "optional_attributes" schema)) in
      let requiredNames := js_set (List.filter (fun n => negb (mem_str n optional)) attrNames) in
      let '(issues, seen) := check_entries attrNames attributes [] in
      issues ++ findMissingRequiredAttributes requiredNames seen
  end.

End AnonCredsFormatValidator.

(** ** The registry *)

Record FormatValidator := mkValidator {
  fv_format : CredentialFormat;
  fv_validateSchema : list (string * json) -> Exn + list FormatValidationIssue;
  fv_validateAttributes : list (string * json) -> list (string * AttributeValue) ->
    Exn + list FormatValidationIssue
}.

Definition anonCredsFormatValidator : FormatValidator :=
  mkValidator AnonCreds
    (fun s => inr (AnonCredsFormatValidator.validateSchema s))
    (fun s a => inr (AnonCredsFormatValidator.validateAttributes s a)).

Definition mdlFormatValidator : FormatValidator :=
  mkValidator Mdl
    (fun _ => inl (NotImplementedException
       ("mDL schema validation is not yet implemented (ISO/IEC 18013-5 namespace " +:+
        "and doctype rules are pending a capability decision)")))
    (fun _ _ => inl (NotImplementedException
       ("mDL attribute validation is not yet implemented (ISO/IEC 18013-5 namespace " +:+
        "and doctype rules are pending a capability decision)"))).

(** The validators by the order they were registered in. *)
Definition FormatValidatorRegistry := list FormatValidator.

Definition validators_has (format : CredentialFormat) (r : FormatValidatorRegistry) : bool :=
  existsb (fun v => bool_decide (v.(fv_format) = format)) r.

Definition validators_register (v : FormatValidator) (r : FormatValidatorRegistry)
    : Exn + FormatValidatorRegistry :=
  if validators_has v.(fv_format) r
  then inl (JsError ("A format validator is already registered for format '" +:+
              credential_format_str v.(fv_format) +:+ "'"))
  else inr (r ++ [v]).

Definition validators_resolve (format : CredentialFormat) (r : FormatValidatorRegistry)
    : Exn + FormatValidator :=
  match List.find (fun v => bool_decide (v.(fv_format) = format)) r with
  | Some v => inr v
  | None => inl (AdapterError FormatNotSupported "FORMAT_NOT_SUPPORTED"
              ("Credential format not supported: " +:+ credential_format_str format))
  end.

(** ** The structural check of an offer *)

Definition validateOfferCredentialRequest (req : OfferCredentialRequest) : option (list string) :=
  let format_issues :=
    if bool_decide (req.(or_format) ∈ credential_formats) then [] else ["format is required/invalid"] in
  let attribute_issues :=
    match req.(or_attributes) with
    | [] => ["attributes must not be empty"]
    | l => mbind (fun '(n, _) =>
             if hasText (Some (JStr n)) then [] else ["attribute name must not be empty"]) l
    end in
  match format_issues ++ attribute_issues with
  | [] => None
  | issues => Some issues
  end.

(** ** What the AnonCreds validator accepts *)

Lemma filter_nil {A} (f : A -> bool) l : List.filter f l = [] <-> forall x, x ∈ l -> f x = false.
Proof.
  induction l as [|y l IH]; simpl; [set_solver|]. destruct (f y) eqn:E; [|set_solver].
  split; [done|]. intros H. specialize (H y). rewrite H in E by set_solver. done.
Qed.

Module AnonCredsFacts.
Import AnonCredsFormatValidator.

Lemma validateAttributeEntry_None name v names dup :
  validateAttributeEntry name v names dup = None <->
  dup = false /\ name ∈ names /\ is_text v = true.
Proof.
  unfold validateAttributeEntry. rewrite <-mem_str_spec.
  destruct dup, (mem_str name names), (is_text v); naive_solver.
Qed.

Lemma check_entries_spec names attributes seen :
  (forall n, n ∈ (check_entries names attributes seen).2 <-> n ∈ seen \/ n ∈ attributes.*1) /\
  ((check_entries names attributes seen).1 = [] <->
   NoDup attributes.*1 /\
   forall n v, (n, v) ∈ attributes -> (n ∉ seen) /\ n ∈ names /\ is_text v = true).
Proof.
  revert seen. induction attributes as [|[n v] l IH]; intros seen; simpl.
  { split; [set_solver|]. split; [|done]. split; [constructor|set_solver]. }
  set (seen' := if mem_str n seen then seen else seen ++ [n]).
  assert (forall m, m ∈ seen' <-> m ∈ seen \/ m = n) as Hseen.
  { intros m. subst seen'. destruct (mem_str n seen) eqn:E; [apply mem_str_spec in E|]; set_solver. }
  destruct (IH seen') as [IHs IHi]. destruct (check_entries names l seen') as [found s']. simpl in *.
  split; [intros m; rewrite IHs, Hseen; set_solver|].
  assert (found = [] /\ validateAttributeEntry n v names (mem_str n seen) = None <->
    match validateAttributeEntry n v names (mem_str n seen) with Some i => i :: found | None => found end = [])
    as <- by (destruct (validateAttributeEntry _ _ _ _); naive_solver).
  rewrite IHi, validateAttributeEntry_None, mem_str_false, NoDup_cons. split.
  - intros [[Hnd Hl] (? & ? & ?)]. split.
    + split; [|done]. intros ((? & ?) & -> & Hin)%list_elem_of_fmap.
      destruct (Hl _ _ Hin) as [Hs _]. rewrite Hseen in Hs. simpl in Hs. tauto.
    + intros m u [[= -> ->]|Hin]%elem_of_cons; [done|]. destruct (Hl _ _ Hin) as (Hs & ?).
      rewrite Hseen in Hs. tauto.
  - intros [[Hn Hnd] Hl]. split; [split; [done|]|apply Hl; by left].
    intros m u Hin. destruct (Hl m u) as (? & ? & ?); [by right|]. rewrite Hseen.
    split_and!; [|done..]. intros [?| ->]; [done|]. apply Hn. by apply (list_elem_of_fmap_2 fst) in Hin.
Qed.

Lemma findMissingRequiredAttributes_nil required seen :
  findMissingRequiredAttributes required seen = [] <-> forall n, n ∈ required -> n ∈ seen.
Proof.
  unfold findMissingRequiredAttributes. split.
  - intros H n Hn. apply fmap_nil_inv in H. rewrite filter_nil in H. apply H in Hn.
    by apply negb_false_iff, mem_str_spec in Hn.
  - intros H. rewrite (proj2 (filter_nil _ _)); [done|]. intros n Hn.
    by apply negb_false_iff, mem_str_spec, H.
Qed.

Lemma required_names_elem optional names n :
  n ∈ js_set (List.filter (fun n => negb (mem_str n optional)) names) <->
  n ∈ names /\ n ∉ optional.
Proof.
  rewrite js_set_elem, list_elem_of_In, filter_In, <-list_elem_of_In, negb_true_iff.
  by rewrite mem_str_false.
Qed.

(** The AnonCreds validator accepts exactly the attributes a schema asks for.
    Attributes pass without an issue when the schema declares its attribute names
    and every offered attribute is one of them, is offered once and has a text
    value, and every declared name that is not optional is offered; in every
    other case there is at least one issue. *)
Theorem anoncreds_attributes_exact schema attributes :
  validateAttributes schema attributes = [] <->
  exists names,
    isNonEmptyStringArray (assoc "attr_names" schema) = Some names /\
    NoDup attributes.*1 /\
    (forall n v, (n, v) ∈ attributes -> n ∈ names /\ is_text v = true) /\
    (forall n, n ∈ names ->
       n ∈ default [] (isStringArray (assoc "optional_attributes" schema)) \/ n ∈ attributes.*1).
Proof.
  unfold validateAttributes.
  destruct (isNonEmptyStringArray (assoc "attr_names" schema)) as [names|]; [|naive_solver].
  cbv zeta. set (optional := default [] _).
  destruct (check_entries_spec names attributes []) as [Hs Hi].
  destruct (check_entries names attributes []) as [found seen]. simpl in Hs, Hi.
  rewrite app_nil, Hi, findMissingRequiredAttributes_nil. setoid_rewrite required_names_elem.
  setoid_rewrite Hs. split.
  - intros [[Hnd Hl] Hreq]. exists names. split_and!; [done|done| |].
    + intros n v Hin. by destruct (Hl n v Hin) as (_ & ? & ?).
    + intros n Hn. destruct (decide (n ∈ optional)); [by left|right].
      destruct (Hreq n) as [Hno|?]; [done|set_solver|done].
  - intros (? & [= <-] & Hnd & Hl & Hreq). split.
    + split; [done|]. intros n v Hin. split; [set_solver|by apply Hl].
    + intros n [Hn Ho]. destruct (Hreq n Hn); [done|by right].
Qed.
End AnonCredsFacts.
