(* ===== verification/ClaimValidators.v ===== *)
(** * Validators of typed claims

    libs/credential-ports/src/validators: claim-type.util.ts and the validators of
    SD-JWT and W3C credentials, whose schemas declare a type for every claim.  The two
    loops over the offered attributes are the same but for their texts, and are one
    definition here. *)

From Stdlib Require Import Ascii ZArith Lia.
From stdpp Require Import base decidable strings sets gmap list list_relations.
From S2P Require Import Prelude Js JsText Entities StateMapping OperationTtl Db AdapterRegistry FormatValidators.

(** ** Claim types *)

Inductive ClaimType := CtString | CtNumber | CtBoolean | CtArray | CtObject.

Definition claim_type_str (t : ClaimType) : string :=
  match t with
  | CtString => "string" | CtNumber => "number" | CtBoolean => "boolean" | CtArray => "array" | CtObject => "object"
  end.

Definition CLAIM_TYPES : list ClaimType := [CtString; CtNumber; CtBoolean; CtArray; CtObject].

(** [isClaimType(value)], with the type *)
Definition isClaimType (value : option json) : option ClaimType :=
  match value with
  | Some (JStr s) => List.find (fun t => String.eqb (claim_type_str t) s) CLAIM_TYPES
  | _ => None
  end.

(** [JSON.parse] of an attribute's text.  The text of a serialized value reads back as
    the value; a value that was left as it is, which no caller makes, is converted to
    text first. *)
Definition parsed_value (value : AttributeValue) : option json :=
  match value with
  | AText s => JsonText.parse s
  | ASerialized v => Some v
  | ARaw v => JsonText.parse (JsValue.to_string v)
  end.

Definition matchesClaimType (rawValue : AttributeValue) (type : ClaimType) : bool :=
  match type with
  | CtString => true
  | _ =>
      match parsed_value rawValue, type with
      | Some (JNum n), CtNumber => is_finite n
      | Some (JBool _), CtBoolean => true
      | Some (JArr _), CtArray => true
      | Some (JObj _), CtObject => true
      | _, _ => false
      end
  end.

(** ** Declarations *)

Definition isPlainObject (value : option json) : option (list (string * json)) :=
  match value with Some (JObj o) => Some o | _ => None end.

Definition SUPPORTED : string := "string, number, boolean, array, object".

(** The map of names to types, when the object is not empty and every declaration in it
    has a supported type. *)
Fixpoint read_declarations (entries : list (string * json)) : option (list (string * ClaimType)) :=
  match entries with
  | [] => Some []
  | (name, declaration) :: rest =>
      match isPlainObject (Some declaration) with
      | Some o => match isClaimType (assoc "type" o), read_declarations rest with
                  | Some t, Some m => Some ((name, t) :: m)
                  | _, _ => None
                  end
      | None => None
      end
  end.

Definition readValidDeclarations (value : option json) : option (list (string * ClaimType)) :=
  match isPlainObject value with
  | Some ((_ :: _) as entries) => read_declarations entries
  | _ => None
  end.

(** ** Offered attributes *)

(** What a validator calls a claim, and how it says that one is not declared. *)
Record ClaimTexts := mkClaimTexts {
  ct_noun : string;                               (* Claim, Attribute *)
  ct_duplicate : string;
  ct_undeclared : string -> string;
  ct_missing : string -> string
}.

Section Attributes.
Context (texts : ClaimTexts) (declared : list (string * ClaimType)).

Definition typed_claim_issue (name : string) (value : AttributeValue) (seen : bool) : option FormatValidationIssue :=
  if seen then
    Some (mkIssue name "a single value" (ActualText texts.(ct_duplicate))
            (texts.(ct_noun) +:+ " '" +:+ name +:+ "' was supplied more than once"))
  else match assoc name declared with
       | None => Some (mkIssue name ("one of: " +:+ join_names declared.*1) (ActualText name) (texts.(ct_undeclared) name))
       | Some t =>
           if matchesClaimType value t then None
           else Some (mkIssue name ("a " +:+ claim_type_str t +:+ " value") (ActualAttribute value)
                        (texts.(ct_noun) +:+ " '" +:+ name +:+ "' does not match its declared type '" +:+
                         claim_type_str t +:+ "'"))
       end.

Fixpoint typed_claim_issues (attributes : list (string * AttributeValue)) (seenNames : list string)
    : list FormatValidationIssue * list string :=
  match attributes with
  | [] => ([], seenNames)
  | (name, value) :: rest =>
      let issue := typed_claim_issue name value (mem_str name seenNames) in
      let '(issues, seen) := typed_claim_issues rest (if mem_str name seenNames then seenNames else seenNames ++ [name]) in
      (match issue with Some i => i :: issues | None => issues end, seen)
  end.

Definition missing_claims (seenNames : list string) : list FormatValidationIssue :=
  (fun n => mkIssue n "a value" (ActualText "missing") (texts.(ct_missing) n)) <$>
  List.filter (fun n => negb (mem_str n seenNames)) declared.*1.

Definition check_claims (attributes : list (string * AttributeValue)) : list FormatValidationIssue :=
  let '(issues, seen) := typed_claim_issues attributes [] in issues ++ missing_claims seen.
End Attributes.

(** ** SD-JWT *)

Module SdJwtFormatValidator.

Definition validateVct (vct : option json) : option FormatValidationIssue :=
  if hasText vct then None
  else Some (mkIssue "vct" "a non-empty string" (ActualDescribed vct)
               "SD-JWT schema must declare a non-empty vct (credential type)").

Definition validateClaimDeclaration (name : string) (declaration : json) : list FormatValidationIssue :=
  let field := "claims." +:+ name in
  match isPlainObject (Some declaration) with
  | None => [mkIssue field "an object with a `type` field" (ActualDescribed (Some declaration))
               ("SD-JWT claim '" +:+ name +:+ "' must declare its type as an object")]
  | Some o =>
      match isClaimType (assoc "type" o) with
      | Some _ => []
      | None => [mkIssue (field +:+ ".type") ("one of: " +:+ SUPPORTED) (ActualDescribed (assoc "type" o))
                   ("SD-JWT claim '" +:+ name +:+ "' declares an unsupported type")]
      end ++
      match assoc "disclosable" o with
      | None | Some (JBool _) => []
      | v => [mkIssue (field +:+ ".disclosable") "a boolean" (ActualDescribed v)
                ("SD-JWT claim '" +:+ name +:+ "' disclosable flag must be a boolean")]
      end
  end.

Definition validateClaims (claims : option json) : list FormatValidationIssue :=
  match isPlainObject claims with
  | Some ((_ :: _) as entries) => mbind (fun '(name, declaration) => validateClaimDeclaration name declaration) entries
  | _ => [mkIssue "claims" "a non-empty object mapping claim names to declarations" (ActualDescribed claims)
            "SD-JWT schema must declare at least one claim"]
  end.

Definition readValidClaims (schema : list (string * json)) : option (list (string * ClaimType)) :=
  readValidDeclarations (assoc "claims" schema).

Definition validateSchema (schema : list (string * json)) : list FormatValidationIssue :=
  match validateVct (assoc "vct" schema) with Some i => [i] | None => [] end ++
  validateClaims (assoc "claims" schema).

Definition texts : ClaimTexts :=
  mkClaimTexts "Claim" "duplicate claim" (fun n => "Claim '" +:+ n +:+ "' is not declared in the SD-JWT schema")
    (fun n => "Required claim '" +:+ n +:+ "' was not supplied").

Definition validateAttributes (schema : list (string * json)) (attributes : list (string * AttributeValue))
    : list FormatValidationIssue :=
  match readValidClaims schema with
  | None => [mkIssue "claims" "a non-empty object mapping claim names to declarations"
               (ActualDescribed (assoc "claims" schema))
               "Cannot validate claims: SD-JWT schema claims is missing or invalid"]
  | Some claims => check_claims texts claims attributes
  end.
End SdJwtFormatValidator.

Definition sdJwtFormatValidator : FormatValidator :=
  mkValidator SdJwtVc (fun s => inr (SdJwtFormatValidator.validateSchema s))
    (fun s a => inr (SdJwtFormatValidator.validateAttributes s a)).

(** ** W3C *)

Module W3cVcFormatValidator.

Definition BASE_CONTEXTS : list string :=
  ["https://www.w3.org/2018/credentials/v1"; "https://www.w3.org/ns/credentials/v2"].

Definition ALLOWED_CONTEXTS : list string :=
  BASE_CONTEXTS ++ ["https://www.w3.org/2018/credentials/examples/v1"; "https://w3id.org/security/suites/ed25519-2020/v1";
    "https://w3id.org/security/suites/jws-2020/v1"; "https://w3id.org/citizenship/v1"].

Definition BASE_TYPE : string := "VerifiableCredential".

(** [isNonEmptyStringArray], with the strings: none of them blank *)
Definition non_blank_array (value : option json) : option (list string) :=
  match isStringArray value with
  | Some ((_ :: _) as l) => if forallb (fun s => hasText (Some (JStr s))) l then Some l else None
  | _ => None
  end.

Definition strings_json (l : list string) : option json := Some (JArr (JStr <$> l)).

Definition validateContext (context : option json) : list FormatValidationIssue :=
  match non_blank_array context with
  | None => [mkIssue "@context" "a non-empty array of context URL strings" (ActualDescribed context)
               "W3C VC schema must declare a non-empty @context array"]
  | Some urls =>
      let disallowed := List.filter (fun url => negb (mem_str url ALLOWED_CONTEXTS)) urls in
      match disallowed with
      | [] => []
      | _ => [mkIssue "@context" ("each URL to be one of: " +:+ join_names ALLOWED_CONTEXTS)
                (ActualDescribed (strings_json disallowed))
                "W3C VC schema @context contains a URL that is not in the allowed list"]
      end ++
      (if existsb (fun url => mem_str url BASE_CONTEXTS) urls then []
       else [mkIssue "@context" ("at least one of: " +:+ join_names BASE_CONTEXTS) (ActualDescribed context)
               "W3C VC schema @context must include the base VC context"])
  end.

Definition validateType (type : option json) : list FormatValidationIssue :=
  match non_blank_array type with
  | None => [mkIssue "type" "a non-empty array of type strings" (ActualDescribed type)
               "W3C VC schema must declare a non-empty type array"]
  | Some names =>
      (if mem_str BASE_TYPE names then []
       else [mkIssue "type" ("an array including '" +:+ BASE_TYPE +:+ "'") (ActualDescribed type)
               ("W3C VC schema type array must include the base '" +:+ BASE_TYPE +:+ "' type")]) ++
      (if existsb (fun n => negb (String.eqb n BASE_TYPE)) names then []
       else [mkIssue "type" ("an array including a specific type in addition to '" +:+ BASE_TYPE +:+ "'")
               (ActualDescribed type)
               "W3C VC schema type array must include a specific type from the credential definition"])
  end.

Definition validateCredentialSubjectDeclaration (name : string) (declaration : json) : option FormatValidationIssue :=
  match isPlainObject (Some declaration) ≫= (fun o => isClaimType (assoc "type" o)) with
  | Some _ => None
  | None => Some (mkIssue ("credentialSubject." +:+ name) ("an object whose `type` is one of: " +:+ SUPPORTED)
              (ActualDescribed (Some declaration))
              ("W3C VC credentialSubject field '" +:+ name +:+ "' must declare a supported type"))
  end.

Definition validateCredentialSubject (credentialSubject : option json) : list FormatValidationIssue :=
  match isPlainObject credentialSubject with
  | Some ((_ :: _) as entries) =>
      omap (fun '(name, declaration) => validateCredentialSubjectDeclaration name declaration) entries
  | _ => [mkIssue "credentialSubject" "a non-empty object mapping field names to declarations"
            (ActualDescribed credentialSubject) "W3C VC schema must declare at least one credentialSubject field"]
  end.

Definition readValidCredentialSubject (schema : list (string * json)) : option (list (string * ClaimType)) :=
  readValidDeclarations (assoc "credentialSubject" schema).

Definition validateSchema (schema : list (string * json)) : list FormatValidationIssue :=
  validateContext (assoc "@context" schema) ++ validateType (assoc "type" schema) ++
  validateCredentialSubject (assoc "credentialSubject" schema).

Definition texts : ClaimTexts :=
  mkClaimTexts "Attribute" "duplicate attribute"
    (fun n => "Attribute '" +:+ n +:+ "' is not declared in the W3C VC credentialSubject schema")
    (fun n => "Required attribute '" +:+ n +:+ "' was not supplied").

Definition validateAttributes (schema : list (string * json)) (attributes : list (string * AttributeValue))
    : list FormatValidationIssue :=
  match readValidCredentialSubject schema with
  | None => [mkIssue "credentialSubject" "a non-empty object mapping field names to declarations"
               (ActualDescribed (assoc "credentialSubject" schema))
               "Cannot validate attributes: W3C VC schema credentialSubject is missing or invalid"]
  | Some subject => check_claims texts subject attributes
  end.
End W3cVcFormatValidator.

Definition w3cVcFormatValidator : FormatValidator :=
  mkValidator JsonLd (fun s => inr (W3cVcFormatValidator.validateSchema s))
    (fun s a => inr (W3cVcFormatValidator.validateAttributes s a)).

(** ** What they accept *)

(** The attributes a schema asks for: each declared claim once, with a value of its
    declared type, and nothing else. *)
Definition exact_claims (declared : list (string * ClaimType)) (attributes : list (string * AttributeValue)) : Prop :=
  NoDup attributes.*1 /\
  (forall n v, (n, v) ∈ attributes -> exists t, assoc n declared = Some t /\ matchesClaimType v t = true) /\
  (forall n, n ∈ declared.*1 -> n ∈ attributes.*1).

Lemma typed_claim_issue_None texts declared name v seen :
  typed_claim_issue texts declared name v seen = None <->
  seen = false /\ exists t, assoc name declared = Some t /\ matchesClaimType v t = true.
Proof.
  unfold typed_claim_issue. destruct seen; [by split; [|intros [? _]]|].
  destruct (assoc name declared) as [t|]; [|by split; [|intros (_ & ? & ? & _)]].
  destruct (matchesClaimType v t) eqn:E; split; try done; [intros _; split; [done|by exists t]|].
  intros (_ & t' & [= <-] & Ht). congruence.
Qed.

Lemma typed_claim_issues_spec texts declared attributes seen :
  (forall n, n ∈ (typed_claim_issues texts declared attributes seen).2 <-> n ∈ seen \/ n ∈ attributes.*1) /\
  ((typed_claim_issues texts declared attributes seen).1 = [] <->
   NoDup attributes.*1 /\
   forall n v, (n, v) ∈ attributes ->
     (n ∉ seen) /\ exists t, assoc n declared = Some t /\ matchesClaimType v t = true).
Proof.
  revert seen. induction attributes as [|[n v] l IH]; intros seen; simpl.
  { split; [set_solver|]. split; [|done]. split; [constructor|set_solver]. }
  set (seen' := if mem_str n seen then seen else seen ++ [n]).
  assert (forall m, m ∈ seen' <-> m ∈ seen \/ m = n) as Hseen.
  { intros m. subst seen'. destruct (mem_str n seen) eqn:E; [apply mem_str_spec in E|]; set_solver. }
  destruct (IH seen') as [IHs IHi]. destruct (typed_claim_issues texts declared l seen') as [found s']. simpl in *.
  split; [intros m; rewrite IHs, Hseen; set_solver|].
  assert (found = [] /\ typed_claim_issue texts declared n v (mem_str n seen) = None <->
    match typed_claim_issue texts declared n v (mem_str n seen) with Some i => i :: found | None => found end = [])
    as <- by (destruct (typed_claim_issue _ _ _ _ _); naive_solver).
  rewrite IHi, typed_claim_issue_None, mem_str_false, NoDup_cons. split.
  - intros [[Hnd Hl] [? ?]]. split.
    + split; [|done]. intros ((? & ?) & -> & Hin)%list_elem_of_fmap.
      destruct (Hl _ _ Hin) as [Hs _]. rewrite Hseen in Hs. simpl in Hs. tauto.
    + intros m u [[= -> ->]|Hin]%elem_of_cons; [done|]. destruct (Hl _ _ Hin) as (Hs & ?).
      rewrite Hseen in Hs. tauto.
  - intros [[Hn Hnd] Hl]. split; [split; [done|]|apply Hl; by left].
    intros m u Hin. destruct (Hl m u) as (? & ?); [by right|]. rewrite Hseen.
    split; [|done]. intros [?| ->]; [done|]. apply Hn. by apply (list_elem_of_fmap_2 fst) in Hin.
Qed.

Lemma missing_claims_nil texts declared seen :
  missing_claims texts declared seen = [] <-> forall n, n ∈ declared.*1 -> n ∈ seen.
Proof.
  unfold missing_claims. split.
  - intros H n Hn. apply fmap_nil_inv in H. rewrite filter_nil in H. apply H in Hn.
    by apply negb_false_iff, mem_str_spec in Hn.
  - intros H. rewrite (proj2 (filter_nil _ _)); [done|]. intros n Hn. by apply negb_false_iff, mem_str_spec, H.
Qed.

Lemma check_claims_exact texts declared attributes :
  check_claims texts declared attributes = [] <-> exact_claims declared attributes.
Proof.
  unfold check_claims, exact_claims. pose proof (typed_claim_issues_spec texts declared attributes []) as [Hs Hi].
  destruct (typed_claim_issues texts declared attributes []) as [issues seen]. simpl in *.
  assert (issues ++ missing_claims texts declared seen = [] <-> issues = [] /\ missing_claims texts declared seen = [])
    as -> by (destruct issues; naive_solver).
  rewrite Hi, missing_claims_nil. setoid_rewrite Hs. split.
  - intros [[Hnd Ha] Hm]. split_and!; [done|by intros n v Hin; apply Ha in Hin as [_ ?]|].
    intros n Hn. destruct (Hm n Hn) as [?%not_elem_of_nil|]; done.
  - intros (Hnd & Ha & Hm). split; [split; [done|]|]; [|by intros n Hn; right; apply Hm].
    intros n v Hin. split; [apply not_elem_of_nil|by apply Ha].
Qed.

Lemma read_declarations_Some entries :
  (forall n d, (n, d) ∈ entries -> exists t, (isPlainObject (Some d) ≫= fun o => isClaimType (assoc "type" o)) = Some t) ->
  exists declared, read_declarations entries = Some declared.
Proof.
  induction entries as [|[n d] l IH]; intros H; cbn [read_declarations]; [by eexists|].
  destruct (H n d) as [t Ht]; [by left|]. destruct IH as [m Hm]; [intros; eapply H; by right|].
  destruct (isPlainObject (Some d)) as [o|]; [|done]. cbn [mbind option_bind] in Ht. rewrite Ht, Hm. by eexists.
Qed.

Module ClaimFacts.

Lemma sd_jwt_schema_readable schema :
  SdJwtFormatValidator.validateSchema schema = [] ->
  exists declared, SdJwtFormatValidator.readValidClaims schema = Some declared.
Proof.
  unfold SdJwtFormatValidator.validateSchema, SdJwtFormatValidator.readValidClaims, readValidDeclarations.
  intros [_ H]%app_nil. unfold SdJwtFormatValidator.validateClaims in H.
  destruct (isPlainObject (assoc "claims" schema)) as [[|e l]|]; try done.
  apply read_declarations_Some. intros n d Hin.
  assert (SdJwtFormatValidator.validateClaimDeclaration n d = []) as Hd.
  { revert H Hin. generalize (e :: l) as entries. clear. induction entries as [|[n' d'] l IH]; [set_solver|].
    intros [H1 H2]%app_nil [[= -> ->]|Hin]%elem_of_cons; [done|by apply IH]. }
  unfold SdJwtFormatValidator.validateClaimDeclaration in Hd. destruct (isPlainObject (Some d)) as [o|]; [|done].
  cbn [mbind option_bind]. destruct (isClaimType (assoc "type" o)) as [t|]; [by exists t|done].
Qed.

Lemma w3c_schema_readable schema :
  W3cVcFormatValidator.validateSchema schema = [] ->
  exists declared, W3cVcFormatValidator.readValidCredentialSubject schema = Some declared.
Proof.
  unfold W3cVcFormatValidator.validateSchema, W3cVcFormatValidator.readValidCredentialSubject, readValidDeclarations.
  intros [_ [_ H]%app_nil]%app_nil. unfold W3cVcFormatValidator.validateCredentialSubject in H.
  destruct (isPlainObject (assoc "credentialSubject" schema)) as [[|e l]|]; try done.
  apply read_declarations_Some. intros n d Hin.
  assert (W3cVcFormatValidator.validateCredentialSubjectDeclaration n d = None) as Hd.
  { revert H Hin. generalize (e :: l) as entries. clear. induction entries as [|[n' d'] l IH]; [set_solver|].
    cbn [omap list_omap]. destruct (W3cVcFormatValidator.validateCredentialSubjectDeclaration n' d') eqn:E; [done|].
    intros H [[= -> ->]|Hin]%elem_of_cons; [done|by apply IH]. }
  unfold W3cVcFormatValidator.validateCredentialSubjectDeclaration in Hd.
  destruct (_ ≫= _) as [t|]; [by exists t|done].
Qed.

Lemma w3c_context_trusted schema :
  W3cVcFormatValidator.validateSchema schema = [] ->
  exists urls, isStringArray (assoc "@context" schema) = Some urls /\
    (forall u, u ∈ urls -> u ∈ W3cVcFormatValidator.ALLOWED_CONTEXTS) /\
    (exists u, u ∈ urls /\ u ∈ W3cVcFormatValidator.BASE_CONTEXTS).
Proof.
  unfold W3cVcFormatValidator.validateSchema. intros [H _]%app_nil. unfold W3cVcFormatValidator.validateContext in H.
  destruct (W3cVcFormatValidator.non_blank_array (assoc "@context" schema)) as [urls|] eqn:E; [|done].
  exists urls. apply app_nil in H as [H1 H2]. split_and!.
  - unfold W3cVcFormatValidator.non_blank_array in E. destruct (isStringArray _) as [[|x l]|]; try done.
    destruct (forallb _ _); by simplify_eq.
  - destruct (List.filter _ urls) eqn:Ef; [|done]. rewrite filter_nil in Ef.
    intros u Hu. by apply Ef, negb_false_iff, mem_str_spec in Hu.
  - destruct (existsb _ urls) eqn:Ee; [|done]. apply existsb_exists in Ee as (u & Hin%list_elem_of_In & Hu%mem_str_spec).
    by exists u.
Qed.

(** C38: the typed validators accept exactly what a schema declares.  For an SD-JWT and
    for a W3C credential alike, offered attributes pass without an issue if and only if
    the schema's declarations can be read and every declared claim is offered once, with
    a value that reads as its declared type, and nothing else is; a schema that passes
    its own check can always be read that way; and a W3C schema that passes refers only
    to contexts this deployment trusts, the base context among them. *)
Theorem typed_claims_exact schema attributes :
  (SdJwtFormatValidator.validateAttributes schema attributes = [] <->
   exists declared, SdJwtFormatValidator.readValidClaims schema = Some declared /\ exact_claims declared attributes) /\
  (W3cVcFormatValidator.validateAttributes schema attributes = [] <->
   exists declared, W3cVcFormatValidator.readValidCredentialSubject schema = Some declared /\
     exact_claims declared attributes) /\
  (SdJwtFormatValidator.validateSchema schema = [] ->
   exists declared, SdJwtFormatValidator.readValidClaims schema = Some declared) /\
  (W3cVcFormatValidator.validateSchema schema = [] ->
   (exists declared, W3cVcFormatValidator.readValidCredentialSubject schema = Some declared) /\
   exists urls, isStringArray (assoc "@context" schema) = Some urls /\
     (forall u, u ∈ urls -> u ∈ W3cVcFormatValidator.ALLOWED_CONTEXTS) /\
     (exists u, u ∈ urls /\ u ∈ W3cVcFormatValidator.BASE_CONTEXTS)).
Proof.
  split_and!.
  - unfold SdJwtFormatValidator.validateAttributes.
    destruct (SdJwtFormatValidator.readValidClaims schema); [rewrite check_claims_exact|]; naive_solver.
  - unfold W3cVcFormatValidator.validateAttributes.
    destruct (W3cVcFormatValidator.readValidCredentialSubject schema); [rewrite check_claims_exact|]; naive_solver.
  - apply sd_jwt_schema_readable.
  - intros H. split; [by apply w3c_schema_readable|by apply w3c_context_trusted].
Qed.

(** A schema and an offer that pass. *)
Definition sample_vc_schema : list (string * json) :=
  [("@context", JArr [JStr "https://www.w3.org/ns/credentials/v2"]); ("type", JArr [JStr "VerifiableCredential"; JStr "Person"]);
   ("credentialSubject", JObj [("name", JObj [("type", JStr "string")]); ("age", JObj [("type", JStr "number")])])].

Lemma typed_claims_exact_witness :
  W3cVcFormatValidator.validateSchema sample_vc_schema = [] /\
  (exists declared, W3cVcFormatValidator.readValidCredentialSubject sample_vc_schema = Some declared /\
     exact_claims declared [("age", AText "42"); ("name", AText "A")]) /\
  exists urls, isStringArray (assoc "@context" sample_vc_schema) = Some urls /\
    (forall u, u ∈ urls -> u ∈ W3cVcFormatValidator.ALLOWED_CONTEXTS) /\
    (exists u, u ∈ urls /\ u ∈ W3cVcFormatValidator.BASE_CONTEXTS).
Proof.
  destruct (typed_claims_exact sample_vc_schema [("age", AText "42"); ("name", AText "A")]) as (_ & H1 & _ & H2).
  split; [vm_compute; reflexivity|]. split.
  - apply H1. vm_compute. reflexivity.
  - apply H2. vm_compute. reflexivity.
Defined.
End ClaimFacts.
