(* ===== verification/DefinitionService.v ===== *)
(** * CredentialDefinitionService and its format handlers

    Models credential-definition/credential-definition.service.ts and
    anoncreds-credential-definition-format.handler.ts: drafts, the start, replay
    and restart of a registration, updates and deactivation.  A format handler
    is a record of operations; the service is written against that record, and
    only the AnonCreds handler is registered by the module. *)

From Stdlib Require Import Ascii ZArith Lia.
From stdpp Require Import base decidable strings sets gmap list list_relations.
From S2P Require Import Prelude Js Entities StateMapping OperationTtl Db Pagination.
From S2P Require Import ConnectorRepository OperationService DefinitionRepository.
From S2P Require Import AdapterRegistry Auth CredentialExchangeService FormatValidators.

Local Open Scope Z_scope.

(** ** Requests *)

Record RegistrationSchema := mkRegistrationSchema {
  gs_id : option string;
  gs_definition : option (list (string * json))
}.

Record CreateCredentialDefinitionDto := mkCreateDefinition {
  cd_name : string;
  cd_connectorId : option string;
  cd_schema : RegistrationSchema;
  cd_issuer : option IssuerSelection;
  cd_options : list (string * json);
  cd_metadata : option (list (string * json))
}.

(** [undefined] is [None]; the columns that may be cleared take [Some None]. *)
Record UpdateCredentialDefinitionDto := mkUpdateDefinition {
  ud_name : option string;
  ud_schemaDefinition : option (option (list (string * json)));
  ud_connectorId : option string;
  ud_status : option CredentialDefinitionStatus;
  ud_metadata : option (option (list (string * json)))
}.

Definition definition_formats : list CredentialDefinitionFormat := [ANONCREDS; SD_JWT; MDL; W3C_VC].

(** [dto.options.format] *)
Definition requested_format (dto : CreateCredentialDefinitionDto)
    : option CredentialDefinitionFormat :=
  find (fun f => bool_decide (assoc "format" dto.(cd_options) = Some (JStr (definition_format_str f))))
    definition_formats.

(** ** Format handlers *)

Record PreparedCredentialDefinition := mkPrepared {
  pd_connectorId : string;
  pd_connectorType : ConnectorType;
  pd_schemaDefinition : list (string * json);
  pd_registration : option DefinitionRegistration
}.

(** [register] may change the entity it is given: it returns it. *)
Record CredentialDefinitionFormatHandler := mkHandler {
  fh_format : CredentialDefinitionFormat;
  fh_normalizeOptions : option json -> Exn + list (string * json);
  fh_normalizeSchema : RegistrationSchema -> Exn + RegistrationSchema;
  fh_prepare : string -> CreateCredentialDefinitionDto -> Prog PreparedCredentialDefinition;
  fh_register : CredentialDefinition -> Prog CredentialDefinition
}.

Definition options_invalid : Exn := BadRequestException "Credential definition options are invalid".

(** [options ?? {}] when it is an object. *)
Definition options_object (options : option json) : Exn + list (string * json) :=
  match options with
  | None | Some JNull => inr []
  | Some (JObj o) => inr o
  | Some _ => inl (BadRequestException "Credential definition options must be an object")
  end.

(** [whitelist] with [forbidNonWhitelisted] *)
Definition only_keys (keys : list string) (o : list (string * json)) : bool :=
  forallb (fun kv => mem_str kv.1 keys) o.

(** [@IsString() @MinLength(1) @MaxLength(100)], in code points of UTF-8 text. *)
Fixpoint code_points (s : string) : nat :=
  match s with
  | EmptyString => 0
  | String c s' =>
      let n := nat_of_ascii c in
      ((if (128 <=? n) && (n <? 192) then 0 else 1) + code_points s')%nat
  end%nat.

Definition valid_tag (v : json) : option string :=
  match v with
  | JStr s => if (1 <=? code_points s)%nat && (code_points s <=? 100)%nat then Some s else None
  | _ => None
  end.

(** AnonCredsRevocationOptionsDto and AnonCredsStatusOptionsDto: an absent value
    takes the class's default. *)
Definition revocation_enabled (v : option json) : option bool :=
  match v with
  | None => Some true
  | Some (JObj r) =>
      if only_keys ["enabled"] r then
        match assoc "enabled" r with
        | None => Some true
        | Some (JBool b) => Some b
        | Some _ => None
        end
      else None
  | Some _ => None
  end.

Definition status_revocation (v : option json) : option bool :=
  match v with
  | None => Some true
  | Some (JObj s) => if only_keys ["revocation"] s then revocation_enabled (assoc "revocation" s) else None
  | Some _ => None
  end.

Definition is_format (f : CredentialDefinitionFormat) (o : list (string * json)) : bool :=
  bool_decide (assoc "format" o = Some (JStr (definition_format_str f))).

(** [normalizeOptions(AnonCredsCredentialDefinitionOptionsDto, options)] *)
Definition normalize_anoncreds (options : option json) : Exn + list (string * json) :=
  match options_object options with
  | inl e => inl e
  | inr o =>
      let tag := match assoc "tag" o with None => Some "default" | Some v => valid_tag v end in
      match only_keys ["format"; "tag"; "status"] o && is_format ANONCREDS o, tag,
            status_revocation (assoc "status" o) with
      | true, Some t, Some b =>
          inr [("format", JStr (definition_format_str ANONCREDS)); ("tag", JStr t);
               ("status", JObj [("revocation", JObj [("enabled", JBool b)])])]
      | _, _, _ => inl options_invalid
      end
  end.

(** The option classes of the other formats have the format only. *)
Definition normalize_plain (f : CredentialDefinitionFormat) (options : option json)
    : Exn + list (string * json) :=
  match options_object options with
  | inl e => inl e
  | inr o =>
      if only_keys ["format"] o && is_format f o
      then inr [("format", JStr (definition_format_str f))] else inl options_invalid
  end.

(** Exactly one of [id] and [definition]. *)
Definition validateSchemaSource (s : RegistrationSchema) : Exn + unit :=
  if Bool.eqb (bool_decide (is_Some s.(gs_id))) (bool_decide (is_Some s.(gs_definition)))
  then inl (BadRequestException "Supply schema.id or schema.definition, not both")
  else inr tt.

Definition validateIssuerSelection (dto : CreateCredentialDefinitionDto) : Exn + unit :=
  match dto.(cd_issuer) with
  | Some i =>
      if Bool.eqb (bool_decide (is_Some i.(is_id))) (bool_decide (is_Some i.(is_method)))
      then inl (BadRequestException "Supply issuer.id or issuer.method, not both")
      else inr tt
  | None => inr tt
  end.

Section Handlers.
Context (registry : Registry) (validators : FormatValidatorRegistry).

Definition validateSchemaDefinition (schemaDefinition : list (string * json)) : Exn + unit :=
  if negb (validators_has AnonCreds validators) then inr tt
  else match validators_resolve AnonCreds validators with
       | inl e => inl e
       | inr v =>
           match fv_validateSchema v schemaDefinition with
           | inl e => inl e
           | inr [] => inr tt
           | inr _ => inl (BadRequestException "Credential definition schema failed format validation")
           end
       end.

Definition anoncreds_normalizeSchema (s : RegistrationSchema) : Exn + RegistrationSchema :=
  match validateSchemaSource s with
  | inl e => inl e
  | inr _ =>
      match s.(gs_definition) with
      | Some d => match validateSchemaDefinition d with inl e => inl e | inr _ => inr s end
      | None => inr s
      end
  end.

Definition anoncreds_prepare (tenantId : string) (dto : CreateCredentialDefinitionDto)
    : Prog PreparedCredentialDefinition :=
  _ ← of_sum (validateSchemaSource dto.(cd_schema));
  _ ← of_sum (validateIssuerSelection dto);
  resolved ← resolve registry tenantId (Some AnonCreds) (with_connector dto.(cd_connectorId));
  match resolved.(rs_adapter).(ad_anonCredsRegistration) with
  | None => throw (AdapterError FormatNotSupported "FORMAT_NOT_SUPPORTED"
                     "Credential format not supported: anoncreds")
  | Some port =>
      issuerId ← port.(pt_resolveIssuer) resolved.(rs_context) dto.(cd_issuer);
      '(definition, id) ←
        (if truthy_str dto.(cd_schema).(gs_id) then
           schema ← port.(pt_resolveSchema) resolved.(rs_context) (default "" dto.(cd_schema).(gs_id));
           _ ← of_sum (validateSchemaDefinition schema.(sc_definition));
           mret (schema.(sc_definition), Some schema.(sc_id))
         else mret (default [] dto.(cd_schema).(gs_definition), None));
      mret (mkPrepared resolved.(rs_connector).(con_id) resolved.(rs_connector).(con_type) definition
              (Some (mkRegistration issuerId
                       (Some (if truthy_str id then mkProgress id None None (Some Finished)
                              else mkProgress None None None None))
                       (Some (mkProgress None None None None)) None)))
  end.

(** The job, in the caller's transaction. *)
Definition anoncreds_register (d : CredentialDefinition) : Prog CredentialDefinition :=
  _ ← send_keyed Tx (DefinitionRegister d.(df_tenantId) d.(df_id) None);
  mret d.

Definition anoncreds_handler : CredentialDefinitionFormatHandler :=
  mkHandler ANONCREDS normalize_anoncreds anoncreds_normalizeSchema anoncreds_prepare
    anoncreds_register.

(** NoRegistrationCredentialDefinitionFormatHandler *)
Definition plain_normalizeSchema (s : RegistrationSchema) : Exn + RegistrationSchema :=
  match validateSchemaSource s with inl e => inl e | inr _ => inr s end.

Definition plain_prepare (tenantId : string) (dto : CreateCredentialDefinitionDto)
    : Prog PreparedCredentialDefinition :=
  _ ← of_sum (validateSchemaSource dto.(cd_schema));
  resolved ← resolve registry tenantId None (with_connector dto.(cd_connectorId));
  mret (mkPrepared resolved.(rs_connector).(con_id) resolved.(rs_connector).(con_type)
          (match dto.(cd_schema).(gs_definition) with
           | Some d => d
           | None => match dto.(cd_schema).(gs_id) with
                     | Some i => [("id", JStr i)]
                     | None => []
                     end
           end) None).

Definition plain_register (d : CredentialDefinition) : Prog CredentialDefinition :=
  let ready := fun d => df_register d.(df_externalId) RegReady d.(df_registrationOperationId)
                          d.(df_registration) d.(df_status) d.(df_isActive) d in
  _ ← update_definition Tx d.(df_id) (of_tenant d.(df_tenantId)) ready;
  mret (ready d).

Definition plain_handler (f : CredentialDefinitionFormat) : CredentialDefinitionFormatHandler :=
  mkHandler f (normalize_plain f) plain_normalizeSchema plain_prepare plain_register.

(** What the module registers, and what it could. *)
Definition registered_handlers : list CredentialDefinitionFormatHandler := [anoncreds_handler].
Definition NO_REGISTRATION_FORMATS : list CredentialDefinitionFormatHandler :=
  plain_handler <$> [SD_JWT; MDL; W3C_VC].
End Handlers.

(** ** The service *)

Definition DUPLICATE_CREDENTIAL_DEFINITION_MESSAGE : string :=
  "Credential definition with this name and format already exists for this tenant.".

Definition isUniqueViolation (e : Exn) : bool :=
  match e with QueryFailed code _ => String.eqb code "23505" | _ => false end.

Definition throwNameConflictOrRethrow (e : Exn) : Exn :=
  if isUniqueViolation e then ConflictException DUPLICATE_CREDENTIAL_DEFINITION_MESSAGE else e.

(** A client error of the backend that is not worth a retry. *)
Definition client_error (status : option Z) (retryable : list Z) : bool :=
  match status with
  | Some s => negb (s =? 0) && (400 <=? s) && (s <? 500) && negb (existsb (Z.eqb s) retryable)
  | None => false
  end.

Definition registrationError (e : Exn) : Exn :=
  match e with
  | RegistrationBackendError status _ detail =>
      if client_error status [408; 429] then BadRequestException detail
      else ServiceUnavailableException "Traction registration service is unavailable"
  | AdapterError _ _ msg => BadRequestException msg
  | AxiosError status _ _ _ =>
      if client_error status [429]
      then BadRequestException "Traction could not resolve the requested issuer or schema"
      else ServiceUnavailableException "Traction registration service is unavailable"
  | _ => e
  end.

(** [typeof v === 'string' && v.trim() ? v : '1.0'] *)
Definition version_of (schemaVersion : option json) : string :=
  match schemaVersion with
  | Some (JStr s) => if negb (String.eqb (js_trim s) "") then s else "1.0"
  | _ => "1.0"
  end.

(** [schema.version ?? schema.schema_version] *)
Definition schema_version (schema : list (string * json)) : option json :=
  match assoc "version" schema with
  | None | Some JNull => assoc "schema_version" schema
  | v => v
  end.

(** [toCredentialDefinitionConnectorType] *)
Definition toCredentialDefinitionConnectorType (t : ConnectorType) : option ConnectorType :=
  match t with TRACTION => Some TRACTION | CREDO => Some CREDO end.

Record RegistrationOutcome := mkOutcome {
  ro_definition : CredentialDefinition;
  ro_operation : Operation;
  ro_created : bool
}.

Definition replay_unavailable (message : string) : Exn := ConflictException message.

Definition createRegistrationOperation (tenantId : string) (dto : CreateCredentialDefinitionDto)
    (format : CredentialDefinitionFormat) : Prog Operation :=
  createOperation
    (mkCreateOp tenantId CREDENTIAL_DEFINITION_REGISTER
       (JObj [("method", JStr "POST");
              ("path", JStr (API_BASE_PATH +:+ "/tenants/" +:+ tenantId +:+ "/credential-definitions"));
              ("body", JObj [("name", JStr dto.(cd_name));
                             ("options", JObj [("format", JStr (definition_format_str format))])])])
       None None None) Tx.

(** An operation of a format that is ready at once is completed with it. *)
Definition completeImmediateRegistration (d : CredentialDefinition) (o : Operation)
    (tenantId : string) : Prog Operation :=
  if negb (bool_decide (d.(df_registrationState) = RegReady)) then mret o
  else transitionState o.(op_id) COMPLETED (Some o.(op_result)) Tx (Some tenantId).

Definition definition_link (id : string) : option json :=
  Some (JObj [("credential_definition_id", JStr id)]).

(** Which of the settings that identify a registration differ; a stored
    registration without its schema makes the comparison throw. *)
Definition settings_differ (d : CredentialDefinition) (dto : CreateCredentialDefinitionDto)
    (prepared : PreparedCredentialDefinition) (options : list (string * json)) (isLocalDraft : bool)
    : Exn + bool :=
  let schema_id r := match r with
                     | None => inr None
                     | Some r => match dr_schema r with
                                 | Some p => inr (ap_id p)
                                 | None => inl (JsError "Cannot read properties of undefined")
                                 end
                     end in
  if negb (bool_decide (d.(df_connectorId) = Some prepared.(pd_connectorId))) ||
     negb (bool_decide (d.(df_connectorType) = prepared.(pd_connectorType))) ||
     negb (deep_equal (JObj d.(df_schemaDefinition)) (JObj prepared.(pd_schemaDefinition)))
  then inr true
  else
    match (match dto.(cd_schema).(gs_id) with
           | None => inr false
           | Some _ =>
               match schema_id d.(df_registration), schema_id prepared.(pd_registration) with
               | inr x, inr y => inr (negb (bool_decide (x = y)))
               | inl e, _ | _, inl e => inl e
               end
           end) with
    | inl e => inl e
    | inr true => inr true
    | inr false =>
        inr (negb (deep_equal (JObj d.(df_options)) (JObj options)) ||
             (negb isLocalDraft &&
              negb (bool_decide (dr_issuerId <$> d.(df_registration) =
                                 dr_issuerId <$> prepared.(pd_registration)))))
    end.

Section Service.
Context (formatHandlers : list CredentialDefinitionFormatHandler).

Definition find_handler (format : option CredentialDefinitionFormat)
    : option CredentialDefinitionFormatHandler :=
  match format with
  | Some f => List.find (fun h => bool_decide (h.(fh_format) = f)) formatHandlers
  | None => None
  end.

Definition format_not_supported (dto : CreateCredentialDefinitionDto) : Exn :=
  registrationError (AdapterError FormatNotSupported "FORMAT_NOT_SUPPORTED"
    ("Credential format not supported: " +:+
     default "undefined" (as_string (assoc "format" dto.(cd_options))))).

Definition startExistingRegistration (handler : CredentialDefinitionFormatHandler)
    (d : CredentialDefinition) (tenantId : string) (dto : CreateCredentialDefinitionDto)
    (status : CredentialDefinitionStatus) (registration : option DefinitionRegistration)
    : Prog RegistrationOutcome :=
  operation ← createRegistrationOperation tenantId dto handler.(fh_format);
  let start := fun d => df_register d.(df_externalId) RegPending (Some operation.(op_id)) registration
                          status true d in
  _ ← update_definition Tx d.(df_id) (of_tenant tenantId) start;
  operation ← operations_save Tx (op_set_result (definition_link d.(df_id)) operation);
  registered ← handler.(fh_register) (start d);
  operation ← completeImmediateRegistration registered operation tenantId;
  mret (mkOutcome registered operation false).

(** The operation a definition's registration is tracked by. *)
Definition registration_operation (d : CredentialDefinition) (tenantId : string)
    : Prog (option Operation) :=
  if truthy_str d.(df_registrationOperationId)
  then operations_findByIdForTenant (default "" d.(df_registrationOperationId)) tenantId Tx
  else mret None.

Definition continueExisting (handler : CredentialDefinitionFormatHandler) (d : CredentialDefinition)
    (tenantId : string) (dto : CreateCredentialDefinitionDto)
    (prepared : PreparedCredentialDefinition) (options : list (string * json))
    : Prog RegistrationOutcome :=
  if negb d.(df_isActive) && bool_decide (d.(df_registrationState) = RegReady) then
    throw (replay_unavailable ("A deactivated credential definition with this name and format " +:+
             "already exists and will not be reactivated."))
  else if negb d.(df_isActive) && negb (bool_decide (d.(df_registrationState) = RegFailed)) then
    throw (replay_unavailable "The inactive credential definition cannot be continued.")
  else
    let isLocalDraft := d.(df_isActive) && bool_decide (d.(df_status) = DF_DRAFT) &&
                        bool_decide (d.(df_registrationState) = Unverified) in
    differ ← of_sum (settings_differ d dto prepared options isLocalDraft);
    if differ : bool then
      throw (ConflictException
        "Credential definition registration settings differ from the existing definition.")
    else if isLocalDraft then
      startExistingRegistration handler d tenantId dto DF_PUBLISHED prepared.(pd_registration)
    else match d.(df_registrationState) with
    | RegFailed => startExistingRegistration handler d tenantId dto d.(df_status) d.(df_registration)
    | RegPending =>
        row ← registration_operation d tenantId;
        match row with
        | Some o =>
            if negb d.(df_isActive) || bool_decide (o.(op_state) = FAILED)
            then throw (replay_unavailable "The pending registration operation is unavailable.")
            else registered ← handler.(fh_register) d; mret (mkOutcome registered o false)
        | None => throw (replay_unavailable "The pending registration operation is unavailable.")
        end
    | RegReady =>
        row ← registration_operation d tenantId;
        match row with
        | Some o =>
            if negb d.(df_isActive) || negb (bool_decide (o.(op_state) = COMPLETED))
            then throw (replay_unavailable "The completed registration operation is unavailable.")
            else mret (mkOutcome d o false)
        | None => throw (replay_unavailable "The completed registration operation is unavailable.")
        end
    | Unverified =>
        throw (ConflictException "Credential definition registration cannot be continued.")
    end.

Definition createOrContinue (handler : CredentialDefinitionFormatHandler) (tenantId : string)
    (dto : CreateCredentialDefinitionDto) (prepared : PreparedCredentialDefinition)
    (options : list (string * json)) : Prog RegistrationOutcome :=
  existing ← definitions_findExistingByTenantAndNameAndFormat tenantId dto.(cd_name)
               handler.(fh_format) Tx;
  match existing with
  | Some d => continueExisting handler d tenantId dto prepared options
  | None =>
      operation ← createRegistrationOperation tenantId dto handler.(fh_format);
      definition ← definitions_create
        (fun id now => mkDefinition id tenantId dto.(cd_name) handler.(fh_format)
           prepared.(pd_schemaDefinition) None (Some prepared.(pd_connectorId)) RegPending
           (Some operation.(op_id)) options prepared.(pd_registration) prepared.(pd_connectorType)
           (version_of (schema_version prepared.(pd_schemaDefinition))) DF_PUBLISHED
           dto.(cd_metadata) true now now) Tx;
      operation ← operations_save Tx (op_set_result (definition_link definition.(df_id)) operation);
      registered ← handler.(fh_register) definition;
      operation ← completeImmediateRegistration registered operation tenantId;
      mret (mkOutcome registered operation true)
  end.

Definition definition_create (tenantId : string) (dto : CreateCredentialDefinitionDto)
    (auth : option AuthContext) : Prog Operation :=
  _ ← of_sum (assertTenantAccess auth tenantId);
  match find_handler (requested_format dto) with
  | None => throw (format_not_supported dto)
  | Some handler =>
      options ← of_sum (handler.(fh_normalizeOptions) (Some (JObj dto.(cd_options))));
      schema ← of_sum (handler.(fh_normalizeSchema) dto.(cd_schema));
      prepared ← catch
        (handler.(fh_prepare) tenantId
           (mkCreateDefinition dto.(cd_name) dto.(cd_connectorId) schema dto.(cd_issuer)
              dto.(cd_options) dto.(cd_metadata)))
        (fun e => throw (registrationError e));
      result ← catch (transaction (createOrContinue handler tenantId dto prepared options))
        (fun e =>
           if negb (isUniqueViolation e) then throw e
           else transaction
             (existing ← definitions_findExistingByTenantAndNameAndFormat tenantId dto.(cd_name)
                           handler.(fh_format) Tx;
              match existing with
              | None => throw (ConflictException
                                 "Credential definition already exists for this tenant.")
              | Some d => continueExisting handler d tenantId dto prepared options
              end));
      _ ← prog_when result.(ro_created)
            (audit_emit NoTx result.(ro_definition).(df_tenantId) "create" "credential_definition"
               result.(ro_definition).(df_id));
      mret result.(ro_operation)
  end.

Definition definition_createDraft (tenantId : string) (dto : CreateCredentialDefinitionDto)
    (auth : option AuthContext) : Prog CredentialDefinition :=
  _ ← of_sum (assertTenantAccess auth tenantId);
  match find_handler (requested_format dto) with
  | None => throw (format_not_supported dto)
  | Some handler =>
      match dto.(cd_schema).(gs_definition), truthy_str dto.(cd_connectorId) with
      | Some schema, true =>
          existing ← definitions_findByTenantAndNameAndFormat tenantId dto.(cd_name)
                       handler.(fh_format) NoTx;
          match existing with
          | Some _ => throw (ConflictException DUPLICATE_CREDENTIAL_DEFINITION_MESSAGE)
          | None =>
              connector ← connectors_findActiveByTenantAndId tenantId (default "" dto.(cd_connectorId));
              match connector ≫= (fun c => (c,.) <$> toCredentialDefinitionConnectorType (con_type c)) with
              | None => throw (BadRequestException ("Selected connector is not active for this " +:+
                                 "tenant or has an unsupported type."))
              | Some (c, type) =>
                  options ← of_sum (handler.(fh_normalizeOptions) (Some (JObj dto.(cd_options))));
                  created ← catch
                    (definitions_create
                       (fun id now => mkDefinition id tenantId dto.(cd_name) handler.(fh_format) schema
                          None (Some c.(con_id)) Unverified None options None type
                          (version_of (schema_version schema)) DF_DRAFT dto.(cd_metadata) true now now)
                       NoTx)
                    (fun e => throw (throwNameConflictOrRethrow e));
                  _ ← audit_emit NoTx tenantId "create" "credential_definition" created.(df_id);
                  mret created
              end
          end
      | _, _ => throw (BadRequestException "Drafts require schema.definition and connector_id.")
      end
  end.
End Service.

Definition definitions_notFound (id : string) : string :=
  "Credential definition '" +:+ id +:+ "' was not found.".

Definition definition_findById (tenantId id : string) (auth : option AuthContext)
    : Prog CredentialDefinition :=
  row ← definitions_findById id;
  match row with
  | Some d =>
      if negb (String.eqb d.(df_tenantId) tenantId)
      then throw (NotFoundException (definitions_notFound id))
      else _ ← of_sum (assertResourceTenantOrNotFound auth d.(df_tenantId) (definitions_notFound id));
           mret d
  | None => throw (NotFoundException (definitions_notFound id))
  end.

Definition definition_findByTenantId (tenantId : string) : Prog (list CredentialDefinition) :=
  definitions_findByTenantId tenantId.
Definition definition_findByFormat (tenantId : string) (format : CredentialDefinitionFormat)
    : Prog (list CredentialDefinition) := definitions_findByFormat format tenantId.
Definition definition_findByConnector (tenantId : string) (type : ConnectorType)
    : Prog (list CredentialDefinition) := definitions_findByConnector type tenantId.

(** The callback of [update]: what the request does to the locked entity. *)
Definition apply_update (tenantId : string) (dto : UpdateCredentialDefinitionDto)
    (auth : option AuthContext) (notFound : string) (d : CredentialDefinition)
    : Prog CredentialDefinition :=
  let draft := bool_decide (d.(df_status) = DF_DRAFT) in
  _ ← of_sum (assertResourceTenantOrNotFound auth tenantId notFound);
  if bool_decide (dto.(ud_status) = Some DF_DRAFT) && negb draft then
    throw (BadRequestException
      "Published or deprecated credential definitions cannot return to draft.")
  else if bool_decide (dto.(ud_status) = Some DF_PUBLISHED) &&
          negb (bool_decide (d.(df_status) = DF_PUBLISHED)) then
    throw (BadRequestException "Publish the draft through credential definition registration.")
  else if (bool_decide (is_Some dto.(ud_schemaDefinition)) ||
           bool_decide (is_Some dto.(ud_connectorId))) && negb draft then
    throw (BadRequestException "Only draft credential definitions can be edited.")
  else
    _ ← match dto.(ud_name) with
        | Some name =>
            if String.eqb name d.(df_name) then mret tt
            else
              existing ← definitions_findByTenantAndNameAndFormat tenantId name d.(df_format) NoTx;
              match existing with
              | Some e => if negb (String.eqb e.(df_id) d.(df_id))
                          then throw (ConflictException DUPLICATE_CREDENTIAL_DEFINITION_MESSAGE)
                          else mret tt
              | None => mret tt
              end
        | None => mret tt
        end;
    '(schema, version) ←
      match dto.(ud_schemaDefinition) with
      | None => mret (d.(df_schemaDefinition), d.(df_version))
      | Some None => throw (BadRequestException "schema_definition must be an object.")
      | Some (Some schema) =>
          mret (schema, match assoc "version" schema with
                        | Some (JStr s) => if negb (String.eqb (js_trim s) "") then s
                                           else d.(df_version)
                        | _ => d.(df_version)
                        end)
      end;
    '(connector, type) ←
      match dto.(ud_connectorId) with
      | None => mret (d.(df_connectorId), d.(df_connectorType))
      | Some id =>
          row ← connectors_findActiveByTenantAndId tenantId id;
          match row with
          | None => throw (BadRequestException
                             "Selected connector credential is not active for this tenant.")
          | Some c =>
              match toCredentialDefinitionConnectorType c.(con_type) with
              | None => throw (BadRequestException
                          "Selected connector credential has an unsupported connector type.")
              | Some t => mret (Some c.(con_id), t)
              end
          end
      end;
    mret (df_edit (default d.(df_name) dto.(ud_name)) schema connector type version
            (default d.(df_status) dto.(ud_status)) (default d.(df_metadata) dto.(ud_metadata)) d).

Definition definition_update (tenantId id : string) (dto : UpdateCredentialDefinitionDto)
    (auth : option AuthContext) : Prog CredentialDefinition :=
  let notFound := definitions_notFound id in
  updated ← catch (definitions_updateWithLock tenantId id (apply_update tenantId dto auth notFound))
              (fun e => throw (throwNameConflictOrRethrow e));
  match updated with
  | None => throw (NotFoundException notFound)
  | Some d =>
      _ ← audit_emit NoTx d.(df_tenantId) "update" "credential_definition" d.(df_id);
      mret d
  end.

Definition definition_delete (tenantId id : string) (auth : option AuthContext) : Prog unit :=
  d ← definition_findById tenantId id auth;
  _ ← definitions_deactivate id;
  audit_emit NoTx d.(df_tenantId) "update" "credential_definition" id.
