(* ===== verification/RegistrationWorker.v ===== *)
(** * AnonCreds registration worker

    Models credential-definition/anoncreds-credential-definition-registration.worker.ts:
    one run of the [credential-definition.register] job publishes what is still
    missing on the ledger, records how far it came, and either settles the
    registration or queues the next look at it.

    The code keeps what it learns in a mutable [work] object that its error
    handler reads, so a step of the worker is a [Step]: it threads the work
    through the programs of Db and keeps it when it throws. *)

From Stdlib Require Import Ascii ZArith Lia.
From stdpp Require Import base decidable strings sets gmap list list_relations.
From S2P Require Import Prelude Js Entities StateMapping OperationTtl Db Pagination.
From S2P Require Import OperationService DefinitionRepository.
From S2P Require Import ConnectorService AdapterRegistry DefinitionService.

Local Open Scope Z_scope.

Definition WAIT_INTERVAL_SECONDS : Z := 15.
Definition MAX_WAIT_CHECKS : Z := 20.

Record RegistrationWork := mkWork {
  wk_tenantId : string;
  wk_definition : CredentialDefinition;
  wk_registration : DefinitionRegistration;
  wk_operationId : string;
  wk_checks : Z
}.

Record RegistrationBackend := mkBackend {
  be_port : RegistrationPort;
  be_context : ConnectorContext
}.

(** ** Steps *)

Definition Step (A : Type) : Type :=
  RegistrationWork -> World -> World * (RegistrationWork * (Exn + A)).

#[export] Instance step_ret : MRet Step := fun A a k w => (w, (k, inr a)).
#[export] Instance step_bind : MBind Step := fun A B f s k w =>
  match s k w with
  | (w', (k', inr a)) => f a k' w'
  | (w', (k', inl e)) => (w', (k', inl e))
  end.

Definition step_throw {A} (e : Exn) : Step A := fun k w => (w, (k, inl e)).
Definition lift {A} (p : Prog A) : Step A := fun k w => let '(w', r) := p w in (w', (k, r)).
Definition get_work : Step RegistrationWork := fun k w => (w, (k, inr k)).
Definition set_work (f : RegistrationWork -> RegistrationWork) : Step unit := fun k w => (w, (f k, inr tt)).

(** [try { s } catch (e) { h(e) }] *)
Definition step_catch {A} (s : Step A) (h : Exn -> Step A) : Step A := fun k w =>
  match s k w with
  | (w', (k', inl e)) => h e k' w'
  | r => r
  end.

Definition run_step {A} (k : RegistrationWork) (s : Step A) : Prog A := fun w =>
  let '(w', (_, r)) := s k w in (w', r).

(** ** The work *)

Definition no_progress : ArtifactProgress := mkProgress None None None None.
Definition schema_progress (r : DefinitionRegistration) : ArtifactProgress :=
  default no_progress r.(dr_schema).
Definition definition_progress (r : DefinitionRegistration) : ArtifactProgress :=
  default no_progress r.(dr_definition).

Definition on_registration (f : DefinitionRegistration -> DefinitionRegistration)
    (k : RegistrationWork) : RegistrationWork :=
  mkWork k.(wk_tenantId) k.(wk_definition) (f k.(wk_registration)) k.(wk_operationId) k.(wk_checks).
Definition on_definition (f : CredentialDefinition -> CredentialDefinition)
    (k : RegistrationWork) : RegistrationWork :=
  mkWork k.(wk_tenantId) (f k.(wk_definition)) k.(wk_registration) k.(wk_operationId) k.(wk_checks).

(** [work.registration.stage = stage] and the two artifacts *)
Definition set_stage (stage : string) : Step unit :=
  set_work (on_registration (fun r =>
    mkRegistration r.(dr_issuerId) r.(dr_schema) r.(dr_definition) (Some stage))).
Definition set_schema (p : ArtifactProgress) : Step unit :=
  set_work (on_registration (fun r =>
    mkRegistration r.(dr_issuerId) (Some p) r.(dr_definition) r.(dr_stage))).
Definition set_definition (p : ArtifactProgress) : Step unit :=
  set_work (on_registration (fun r =>
    mkRegistration r.(dr_issuerId) r.(dr_schema) (Some p) r.(dr_stage))).

(** [work.definition.externalId = id] and [work.definition.registrationState = s] *)
Definition df_set_externalId (id : string) (d : CredentialDefinition) : CredentialDefinition :=
  df_register (Some id) d.(df_registrationState) d.(df_registrationOperationId) d.(df_registration)
    d.(df_status) d.(df_isActive) d.
Definition df_set_registrationState (s : RegistrationState) (d : CredentialDefinition)
    : CredentialDefinition :=
  df_register d.(df_externalId) s d.(df_registrationOperationId) d.(df_registration)
    d.(df_status) d.(df_isActive) d.
Definition set_externalId (id : string) : Step unit := set_work (on_definition (df_set_externalId id)).
Definition set_registrationState (s : RegistrationState) : Step unit :=
  set_work (on_definition (df_set_registrationState s)).

Definition stage_of (r : DefinitionRegistration) : string := default "preflight" r.(dr_stage).

Definition hasSubmission (p : ArtifactProgress) : bool :=
  match p.(ap_state) with
  | Some ArtifactFailed => false
  | s => truthy_str p.(ap_id) || truthy_str p.(ap_jobId) || truthy_str p.(ap_transactionId) ||
         bool_decide (is_Some s)
  end.

(** [...(x ? { key: x } : {})] *)
Definition when_truthy (x : option string) : option string := if truthy_str x then x else None.

Definition toProgress (s : RegistrationSubmission) : ArtifactProgress :=
  mkProgress (when_truthy s.(su_id)) (when_truthy s.(su_jobId)) (when_truthy s.(su_transactionId))
    (Some s.(su_state)).

Definition submissionFailure (s : RegistrationSubmission) : Exn :=
  RegistrationBackendError s.(su_status) (Some (default "REGISTRATION_REJECTED" s.(su_backendCode)))
    (default "The backend rejected artifact publication" s.(su_detail)).

(** [definition.options ?? {}] with the defaults of absent values. *)
Definition definitionOptions (d : CredentialDefinition) : DefinitionOptions :=
  let enabled := get_prop "enabled" (get_prop "revocation" (assoc "status" d.(df_options))) in
  mkDefinitionOptions
    (match assoc "tag" d.(df_options) with Some (JStr s) => s | _ => "default" end)
    (match enabled with None | Some JNull => true | v => truthy v end).

(** ** Results *)

Definition opt_json (x : option string) : json := match x with Some s => JStr s | None => JNull end.

Definition artifact_state_str (s : ArtifactState) : string :=
  match s with
  | Finished => "finished" | Wait => "wait" | Action => "action" | ArtifactFailed => "failed"
  end.

Definition progressResult (r : DefinitionRegistration) : json :=
  let stage := stage_of r in
  let report artifact (p : ArtifactProgress) :=
    JObj [("stage", JStr stage); ("artifact", JStr artifact); ("id", opt_json p.(ap_id));
          ("job_id", opt_json p.(ap_jobId)); ("transaction_id", opt_json p.(ap_transactionId));
          ("state", opt_json (artifact_state_str <$> p.(ap_state)))] in
  if String.prefix "schema_" stage ||
     mem_str stage ["awaiting_schema_endorsement"; "awaiting_schema_discovery"]
  then report "schema" (schema_progress r)
  else if String.prefix "definition_" stage ||
          mem_str stage ["awaiting_definition_endorsement"; "awaiting_definition_discovery";
                         "awaiting_revocation_registry"]
  then report "credential_definition" (definition_progress r)
  else JObj [("stage", JStr stage); ("artifact", JNull)].

Record RegistrationFailure := mkFailure {
  rf_detail : string;
  rf_problem : json
}.

(** [error.status] of a backend error, [error.response?.status] of an HTTP error *)
Definition backend_status (e : Exn) : option Z :=
  match e with
  | RegistrationBackendError status _ _ => status
  | AxiosError status _ _ _ => status
  | _ => None
  end.

Definition PROBLEM_TYPE : string :=
  "https://github.com/bcgov/digital-trust-common-service/blob/main/docs/DEVELOPER.md" +:+
  "#credential-registration-failed".

(** RegistrationProblemDetailsDto.create; [uuid] is the occurrence's identifier. *)
Definition problem_details (detail stage : string) (status : option Z) (code : option string)
    (uuid : string) : json :=
  JObj ([("type", JStr PROBLEM_TYPE); ("title", JStr "Credential registration failed");
         ("detail", JStr detail); ("stage", JStr stage); ("retryable", JBool false)] ++
        match status with Some s => [("backend_status", JNum (num_of_Z s))] | None => [] end ++
        opt_field "backend_code" (when_truthy code) ++
        [("instance", JStr ("urn:uuid:" +:+ uuid))]).

Definition classifyFailure (e : Exn) (stage : string) : Prog RegistrationFailure :=
  let code := match e with RegistrationBackendError _ c _ => c | _ => None end in
  let detail := match e with
                | RegistrationBackendError _ _ detail => detail
                | AdapterError (AdapterValidation issues) _ _ => String.concat "; " issues
                | _ => "AnonCreds registration could not be completed"
                end in
  uuid ← gen_uuid;
  mret (mkFailure detail (problem_details detail stage (backend_status e) code uuid)).

Definition operation_result (k : RegistrationWork) (failure : option RegistrationFailure) : json :=
  JObj ([("credential_definition_id", JStr k.(wk_definition).(df_id));
         ("external_id", opt_json k.(wk_definition).(df_externalId));
         ("registration", progressResult k.(wk_registration))] ++
        match failure with
        | Some f => [("code", JStr "REGISTRATION_FAILED"); ("message", JStr f.(rf_detail));
                     ("problem_details", f.(rf_problem))]
        | None => []
        end).

(** ** Persistence *)

Definition saveProgress : Step unit :=
  k ← get_work;
  lift (transaction
    (affected ← update_definition Tx k.(wk_definition).(df_id)
       (fun d => of_tenant k.(wk_tenantId) d && d.(df_isActive))
       (fun d => df_register k.(wk_definition).(df_externalId) d.(df_registrationState)
                   d.(df_registrationOperationId) (Some k.(wk_registration)) d.(df_status)
                   d.(df_isActive) d);
     if affected : bool then mret tt else throw (JsError "Credential definition is no longer active"))).

(** The transaction of an outcome: the definition, its operation and, to wait,
    the next job. *)
Definition write_outcome (k : RegistrationWork) (state : OperationState)
    (failure : option RegistrationFailure) (scheduleFollowUp : bool) : Prog unit :=
  _ ← update_definition Tx k.(wk_definition).(df_id) (of_tenant k.(wk_tenantId))
    (fun d => df_register k.(wk_definition).(df_externalId) k.(wk_definition).(df_registrationState)
                d.(df_registrationOperationId) (Some k.(wk_registration)) d.(df_status)
                d.(df_isActive) d);
  _ ← transitionState k.(wk_operationId) state (Some (Some (operation_result k failure))) Tx
        (Some k.(wk_tenantId));
  prog_when (scheduleFollowUp && (k.(wk_checks) <? MAX_WAIT_CHECKS))
    (send_keyed Tx (DefinitionRegister k.(wk_tenantId) k.(wk_definition).(df_id)
                      (Some (k.(wk_checks) + 1)))).

Definition persistOutcome (state : OperationState) (failure : option RegistrationFailure)
    (scheduleFollowUp : bool) : Step unit :=
  k ← get_work; lift (transaction (write_outcome k state failure scheduleFollowUp)).

Definition persistFailure (e : Exn) (stage : string) : Step unit :=
  failure ← lift (classifyFailure e stage);
  _ ← set_stage stage;
  _ ← set_registrationState RegFailed;
  persistOutcome FAILED (Some failure) false.

Definition persistWaiting : Step unit :=
  k ← get_work;
  if MAX_WAIT_CHECKS <=? k.(wk_checks) then
    persistFailure (RegistrationBackendError None (Some "REGISTRATION_TIMEOUT")
                      "Registration did not become ready before the polling limit")
      (stage_of k.(wk_registration))
  else
    _ ← set_registrationState RegPending;
    persistOutcome PROCESSING None true.

Definition transitionOperation (state : OperationState) : Step unit :=
  k ← get_work;
  lift (transaction
    (_ ← transitionState k.(wk_operationId) state (Some (Some (operation_result k None))) Tx
           (Some k.(wk_tenantId));
     mret tt)).

Definition failWithoutOperation (d : CredentialDefinition) : Prog unit :=
  transaction
    (_ ← update_definition Tx d.(df_id) (of_tenant d.(df_tenantId)) (df_set_registrationState RegFailed);
     mret tt).

Definition recordPublication (key : IntentKey) (s : IntentState) : Prog unit :=
  transaction (intents_record key s Tx).

(** ** Publishing *)

Inductive Artifact := SchemaArtifact | DefinitionArtifact.

(** [value ?? null] of an array element in JSON *)
Definition element (v : option json) : json := default JNull v.

(** What an artifact is identified by on the ledger. *)
Definition artifact_identity (a : Artifact) (k : RegistrationWork) (schemaId : option string)
    : list json :=
  match a with
  | SchemaArtifact =>
      [JStr "schema"; JStr k.(wk_registration).(dr_issuerId);
       element (assoc "schema_name" k.(wk_definition).(df_schemaDefinition));
       element (assoc "schema_version" k.(wk_definition).(df_schemaDefinition))]
  | DefinitionArtifact =>
      [JStr "definition"; JStr k.(wk_registration).(dr_issuerId); opt_json schemaId;
       JStr (definitionOptions k.(wk_definition)).(do_tag)]
  end.

Section Worker.
Context (registry : Registry).
(** The hexadecimal SHA-256 digest of [JSON.stringify]. *)
Context (digest : list json -> string).

Definition intent_key (a : Artifact) (k : RegistrationWork) (connectorId : string)
    (schemaId : option string) : IntentKey :=
  (k.(wk_tenantId), connectorId, digest (artifact_identity a k schemaId)).

Definition submit_artifact (a : Artifact) (backend : RegistrationBackend) (k : RegistrationWork)
    (schemaId : option string) : Prog RegistrationSubmission :=
  match a with
  | SchemaArtifact =>
      backend.(be_port).(pt_publishSchema) backend.(be_context) k.(wk_registration).(dr_issuerId)
        k.(wk_definition).(df_schemaDefinition)
  | DefinitionArtifact =>
      if truthy_str schemaId then
        backend.(be_port).(pt_publishDefinition) backend.(be_context)
          k.(wk_registration).(dr_issuerId) (default "" schemaId) (definitionOptions k.(wk_definition))
      else throw (ValidationError ["Credential definition requires a schema ID"])
  end.

(** The claim is committed before the backend is asked, and closed again only
    when the backend said no. *)
Definition publishArtifact (backend : RegistrationBackend) (a : Artifact) (schemaId : option string)
    : Step (option RegistrationSubmission) :=
  k ← get_work;
  if negb (truthy_str k.(wk_definition).(df_connectorId)) then
    step_throw (ValidationError ["The registration connector is unavailable"])
  else
    let key := intent_key a k (default "" k.(wk_definition).(df_connectorId)) schemaId in
    claimed ← lift (transaction (intents_claim key Tx));
    if negb claimed then mret None
    else
      submitted ← lift (catch (submit_artifact a backend k schemaId) (fun e =>
        _ ← prog_when (client_error (backend_status e) [408; 429])
              (recordPublication key IntentRejected);
        throw e));
      _ ← lift (recordPublication key
            (if decide (submitted.(su_state) = ArtifactFailed) then IntentRejected
             else IntentSubmitted));
      mret (Some submitted).

(** ** Advancing *)

(** The schema's identifier once it is on the ledger; [None] to wait for it. *)
Definition advanceSchema (backend : RegistrationBackend) : Step (option string) :=
  k ← get_work;
  let progress := schema_progress k.(wk_registration) in
  let finished := bool_decide (progress.(ap_state) = Some Finished) in
  if finished && negb (truthy_str progress.(ap_id)) then
    step_throw (ValidationError ["Completed schema registration has no resolvable ID"])
  else if finished && truthy_str progress.(ap_id) then
    _ ← set_stage "schema_resolution";
    _ ← lift (backend.(be_port).(pt_resolveSchema) backend.(be_context) (default "" progress.(ap_id)));
    mret progress.(ap_id)
  else
    _ ← set_stage "schema_lookup";
    found ← lift (backend.(be_port).(pt_findSchema) backend.(be_context)
                    k.(wk_registration).(dr_issuerId) k.(wk_definition).(df_schemaDefinition));
    match found with
    | Some s =>
        _ ← set_schema (mkProgress (Some s.(sc_id)) progress.(ap_jobId) progress.(ap_transactionId)
                          (Some Finished));
        _ ← saveProgress;
        mret (Some s.(sc_id))
    | None =>
        if hasSubmission progress then
          _ ← set_stage "awaiting_schema_endorsement"; mret None
        else
          _ ← set_stage "schema_publication";
          submitted ← publishArtifact backend SchemaArtifact None;
          match submitted with
          | None => _ ← set_stage "awaiting_schema_discovery"; mret None
          | Some s =>
              _ ← set_schema (toProgress s);
              _ ← saveProgress;
              match s.(su_state) with
              | ArtifactFailed => step_throw (submissionFailure s)
              | Finished =>
                  if truthy_str s.(su_id) then mret s.(su_id)
                  else step_throw (RegistrationBackendError None
                         (Some "INVALID_REGISTRATION_RESPONSE")
                         "Backend reported a completed schema without an ID")
              | _ => _ ← set_stage "awaiting_schema_endorsement"; mret None
              end
          end
    end.

(** The credential definition: [false] when the run ends by waiting for it. *)
Definition advanceDefinition (backend : RegistrationBackend) (schemaId : string)
    (options : DefinitionOptions) : Step bool :=
  _ ← set_stage "definition_lookup";
  k ← get_work;
  let progress := definition_progress k.(wk_registration) in
  found ← lift (backend.(be_port).(pt_findDefinition) backend.(be_context)
                  k.(wk_registration).(dr_issuerId) schemaId options);
  if truthy_str found then
    _ ← set_externalId (default "" found);
    _ ← set_definition (mkProgress found progress.(ap_jobId) progress.(ap_transactionId)
                          (Some Finished));
    _ ← saveProgress;
    mret true
  else if hasSubmission progress then
    if bool_decide (progress.(ap_state) = Some Finished) && negb (truthy_str progress.(ap_id)) then
      step_throw (ValidationError ["Completed credential-definition registration has no ID"])
    else
      _ ← set_stage "awaiting_definition_endorsement";
      _ ← persistWaiting;
      mret false
  else
    _ ← set_stage "definition_publication";
    submitted ← publishArtifact backend DefinitionArtifact (Some schemaId);
    match submitted with
    | None =>
        _ ← set_stage "awaiting_definition_discovery";
        _ ← persistWaiting;
        mret false
    | Some s =>
        _ ← set_definition (toProgress s);
        match s.(su_state) with
        | ArtifactFailed => _ ← saveProgress; step_throw (submissionFailure s)
        | Finished =>
            if truthy_str s.(su_id) then
              _ ← set_externalId (default "" s.(su_id));
              _ ← saveProgress;
              mret true
            else step_throw (RegistrationBackendError None (Some "INVALID_REGISTRATION_RESPONSE")
                   "Backend reported a completed credential definition without an ID")
        | _ =>
            _ ← set_stage "awaiting_definition_endorsement";
            _ ← saveProgress;
            _ ← persistWaiting;
            mret false
        end
    end.

(** The rest of [advance], once the definition is on the ledger. *)
Definition finishRegistration (backend : RegistrationBackend) (options : DefinitionOptions)
    : Step unit :=
  revocationReady ←
    (if options.(do_revocation) then
       _ ← set_stage "revocation_verification";
       k ← get_work;
       lift (backend.(be_port).(pt_verifyRevocation) backend.(be_context)
               (default "" k.(wk_definition).(df_externalId)))
     else mret true);
  if negb revocationReady then
    _ ← set_stage "awaiting_revocation_registry";
    persistWaiting
  else
    _ ← set_stage "completed";
    _ ← set_registrationState RegReady;
    persistOutcome COMPLETED None false.

Definition advance_registration (backend : RegistrationBackend) : Step unit :=
  schemaId ← advanceSchema backend;
  if truthy_str schemaId then
    k ← get_work;
    let options := definitionOptions k.(wk_definition) in
    published ← advanceDefinition backend (default "" schemaId) options;
    if published : bool then finishRegistration backend options else mret tt
  else persistWaiting.

(** The body of the [try] of [process]: after the first check, and whole. *)
Definition attempt_on (k : RegistrationWork) : Step unit :=
  let d := k.(wk_definition) in
  resolved ← lift (resolve registry k.(wk_tenantId) (Some AnonCreds) (with_connector d.(df_connectorId)));
  match resolved.(rs_adapter).(ad_anonCredsRegistration) with
  | None => step_throw (ValidationError
              ["The selected connector does not support AnonCreds registration"])
  | Some port =>
      let backend := mkBackend port resolved.(rs_context) in
      _ ← transitionOperation PROCESSING;
      issuerId ← lift (port.(pt_resolveIssuer) resolved.(rs_context)
                         (Some (mkIssuerSelection (Some k.(wk_registration).(dr_issuerId)) None)));
      if negb (String.eqb issuerId k.(wk_registration).(dr_issuerId)) then
        step_throw (ValidationError ["The configured issuer no longer matches"])
      else advance_registration backend
  end.

Definition attempt : Step unit :=
  k ← get_work;
  if negb k.(wk_definition).(df_isActive) || negb (truthy_str k.(wk_definition).(df_connectorId)) then
    step_throw (ValidationError ["The credential definition or its connector is unavailable"])
  else attempt_on k.

(** [{ ...registration, schema: registration.schema ?? {}, definition: ... ?? {} }] *)
Definition with_artifacts (r : DefinitionRegistration) : DefinitionRegistration :=
  mkRegistration r.(dr_issuerId) (Some (schema_progress r)) (Some (definition_progress r)) r.(dr_stage).

Definition find_pending (tenantId id : string) (t : DB) : option CredentialDefinition :=
  match t.(db_definitions) !! id with
  | Some d => if of_tenant tenantId d && bool_decide (d.(df_format) = ANONCREDS) &&
                 bool_decide (d.(df_registrationState) = RegPending)
              then Some d else None
  | None => None
  end.

Definition process_registration (tenantId id : string) (checks : Z) : Prog unit :=
  row ← read NoTx (find_pending tenantId id);
  match row with
  | None => mret tt
  | Some definition =>
      match definition.(df_registration), truthy_str definition.(df_registrationOperationId) with
      | Some registration, true =>
          let operationId := default "" definition.(df_registrationOperationId) in
          operation ← operations_findByIdForTenant operationId tenantId NoTx;
          match operation with
          | None => failWithoutOperation definition
          | Some o =>
              if bool_decide (o.(op_state) = FAILED) then failWithoutOperation definition
              else
                run_step (mkWork tenantId definition (with_artifacts registration) operationId checks)
                  (step_catch attempt (fun e =>
                     k ← get_work; persistFailure e (stage_of k.(wk_registration))))
          end
      | _, _ => failWithoutOperation definition
      end
  end.

(** The queue's handler: a job without its identifiers is dropped, a count that
    is not a safe non-negative integer is read as 0. *)
Definition safe_checks (checks : option Z) : Z :=
  match checks with
  | Some c => if (0 <=? c) && (c <=? 9007199254740991) then c else 0
  | None => 0
  end.

Definition handle_registration (j : Job) : Prog unit :=
  match j with
  | DefinitionRegister tenantId definitionId checks =>
      if truthy_str (Some tenantId) && truthy_str (Some definitionId)
      then process_registration tenantId definitionId (safe_checks checks) else mret tt
  | _ => mret tt
  end.
End Worker.
