(* ===== verification/RegistrationCorrectness.v ===== *)
(** * A run of the registration worker settles or reschedules

    The worker reads a pending definition, asks the ledger's backend several
    times, and writes in between; other requests commit while it waits.  What it
    relies on is [undisturbed]: nobody else moves the registration it works on
    (DefinitionCorrectness shows that the service's own requests do not).  A
    step is specified by a triple over its work and the world: what holds when
    it returns, and what holds when it throws. *)

From Stdlib Require Import Ascii ZArith Lia.
From stdpp Require Import base decidable strings sets gmap list list_relations.
From S2P Require Import Prelude Js Entities StateMapping OperationTtl Db Pagination.
From S2P Require Import OperationService DefinitionRepository.
From S2P Require Import ConnectorService AdapterRegistry Auth ProtocolStateChange Lifecycle ProtocolNotification.
From S2P Require Import OperationCorrectness CredentialExchangeService ServiceLogic.
From S2P Require Import DefinitionService RegistrationWorker.

Local Open Scope Z_scope.

(** ** Rows written in a transaction *)

Lemma update_definition_run m id g f w w' b :
  update_definition m id g f w = (w', inr b) ->
  match (view m w).(db_definitions) !! id with
  | Some d =>
      if g d then b = true /\ exists now, (view m w').(db_definitions) =
                      <[id := df_set_updatedAt now (f d)]> (view m w).(db_definitions)
      else b = false /\ w' = w
  | None => b = false /\ w' = w
  end.
Proof.
  unfold update_definition, write_definition. intros E. run_inv E. injection E0 as <- <-.
  destruct (db_definitions (view m w) !! id) as [d|]; [|by injection E as <- <-].
  destruct (g d); [|by injection E as <- <-].
  run_inv E. injection E0 as <- <-. run_inv E. injection E as <- <-.
  run_inv E0. injection E as <- <-. destruct (negb _); [done|].
  destruct (definition_conflict _ _ _); [done|]. injection E0 as <- _.
  split; [done|]. exists (clock w). by destruct m.
Qed.

Lemma operations_save_run m o w w' o' :
  operations_save m o w = (w', inr o') ->
  exists u, (view m w').(db_operations) !! o.(op_id) = Some (op_set_updatedAt u o) /\
    forall j, j <> o.(op_id) ->
      (view m w').(db_operations) !! j = (view m w).(db_operations) !! j.
Proof.
  unfold operations_save, write_operation. intros E. run_inv E. injection E0 as <- <-.
  destruct (db_operations (view m w) !! op_id o) as [r|] eqn:Er.
  - case_decide as Hsame.
    + injection E as <- <-. exists (op_updatedAt r). split; [|done]. rewrite Er. f_equal.
      destruct r, o. injection Hsame. intros. by subst.
    + run_inv E. injection E0 as <- <-. run_inv E. injection E as <- <-. run_inv E0.
      injection E as <- <-. destruct (operation_conflict _ _ _); [done|]. injection E0 as <- _.
      exists (clock w). destruct m; simpl; (split; [by rewrite lookup_insert_eq|]);
        intros j Hj; by rewrite lookup_insert_ne.
  - run_inv E. injection E as <- <-. run_inv E0. injection E as <- <-.
    destruct (operation_conflict _ _ _); [done|]. injection E0 as <- _.
    exists (op_updatedAt o). destruct m; simpl; (split; [rewrite lookup_insert_eq; by destruct o|]);
      intros j Hj; by rewrite lookup_insert_ne.
Qed.

(** A tenant-scoped transition, inside a transaction. *)
Lemma transitionState_tx id st res t o w w' o' :
  t <> "" -> w.(working).(db_operations) !! id = Some o -> o.(op_id) = id ->
  transitionState id st (Some res) Tx (Some t) w = (w', inr o') ->
  exists r, w'.(working).(db_operations) !! id = Some r /\ r.(op_id) = id /\
    r.(op_tenantId) = o.(op_tenantId) /\ r.(op_state) = st /\ r.(op_result) = res /\
    r.(op_type) = o.(op_type) /\
    forall j, j <> id -> w'.(working).(db_operations) !! j = w.(working).(db_operations) !! j.
Proof.
  intros Ht Ho Hid E. unfold transitionState in E.
  assert (truthy_str (Some t) = true) as Htt by (by destruct t). rewrite Htt in E.
  unfold operations_findByIdForTenant in E. run_inv E. injection E0 as <- <-. cbn [view] in E.
  rewrite Ho in E. destruct (String.eqb _ _); [|done].
  run_inv E. apply tenants_findById_inr in E0 as ->. cbv zeta in E. run_inv E.
  apply date_param_inr in E0 as ->. run_inv E. run_inv E. injection E as <- <-.
  apply operations_save_run in E0 as (u & Hu & Hrest). simpl in Hu, Hrest. rewrite Hid in Hu, Hrest.
  match type of E1 with recordTerminalOutcome ?ty ?s _ ?wa = (?wb, _) =>
    pose proof (frame_run db_operations Tx (recordTerminalOutcome ty s Tx) wa wb _ E1) as Hf end.
  simpl in Hf. rewrite Hf. eexists. split; [exact Hu|]. done.
Qed.

(** A keyed send that returns: the job is queued last, or its key was still there and
    nothing is queued. *)
Lemma send_keyed_run m j w w' :
  send_keyed m j w = (w', inr tt) ->
  w'.(still_queued) = w.(still_queued) /\
  ((view m w').(db_jobs) = (view m w).(db_jobs) ++ [j] \/
   (exists n, w.(still_queued) n = true) /\ (view m w').(db_jobs) = (view m w).(db_jobs) /\
   exists j', j' ∈ (view m w').(db_jobs) /\ singleton_key j' = singleton_key j).
Proof.
  unfold send_keyed, send. destruct (_ && _) eqn:Eq.
  - intros [= <-]. split; [done|]. right. apply andb_prop in Eq as [Hs (j' & Hj & Hk)%existsb_exists].
    split; [by exists (sends w)|]. split; [by destruct m|]. exists j'. apply bool_decide_eq_true in Hk.
    split; [|done]. apply list_elem_of_In. by destruct m.
  - destruct (send_fate _ _); intros [= <-]. split; [by destruct m|]. left. by destruct m.
Qed.

(** The jobs of a definition's registration, in the order they were queued. *)
Definition registration_jobs (did : string) (d : DB) : list Job :=
  filter (fun j => singleton_key j = Some did) d.(db_jobs).

Lemma registration_jobs_same did d d' :
  d'.(db_jobs) = d.(db_jobs) -> registration_jobs did d' = registration_jobs did d.
Proof. unfold registration_jobs. by intros ->. Qed.

Lemma registration_jobs_snoc did d d' j :
  d'.(db_jobs) = d.(db_jobs) ++ [j] -> singleton_key j = Some did ->
  registration_jobs did d' = registration_jobs did d ++ [j].
Proof. unfold registration_jobs. intros -> Hj. by rewrite filter_app, filter_cons_True. Qed.

Lemma update_definition_jobs i g f w w' b :
  update_definition Tx i g f w = (w', inr b) -> w'.(working).(db_jobs) = w.(working).(db_jobs).
Proof. intros E. pose proof (frame_run db_jobs Tx _ _ _ _ E) as H. exact H. Qed.

Lemma transitionState_jobs i st r t w w' o :
  transitionState i st r Tx t w = (w', inr o) -> w'.(working).(db_jobs) = w.(working).(db_jobs).
Proof. intros E. pose proof (frame_run db_jobs Tx _ _ _ _ E) as H. exact H. Qed.

(** ** Triples *)

Definition triple {A} (P : RegistrationWork -> World -> Prop) (s : Step A)
    (Q : A -> RegistrationWork -> World -> Prop) (E : RegistrationWork -> World -> Prop) : Prop :=
  forall k w, P k w ->
  match s k w with
  | (w', (k', inr a)) => Q a k' w'
  | (w', (k', inl _)) => E k' w'
  end.

Section Triples.
Context (E : RegistrationWork -> World -> Prop).
Implicit Types P : RegistrationWork -> World -> Prop.

Lemma triple_ret {A} P (a : A) Q : (forall k w, P k w -> Q a k w) -> triple P (mret a) Q E.
Proof. intros H k w HP. by apply H. Qed.

Lemma triple_throw {A} P e Q : (forall k w, P k w -> E k w) -> triple P (step_throw (A:=A) e) Q E.
Proof. intros H k w HP. by apply H. Qed.

Lemma triple_bind {A B} P (R : A -> RegistrationWork -> World -> Prop) (s : Step A)
    (f : A -> Step B) Q :
  triple P s R E -> (forall a, triple (R a) (f a) Q E) -> triple P (s ≫= f) Q E.
Proof.
  intros Hs Hf k w HP. specialize (Hs k w HP). unfold mbind, step_bind.
  destruct (s k w) as [w' [k' [e|a]]]; [done|]. by apply Hf.
Qed.

(** Reading the work. *)
Lemma triple_get {A} P (f : RegistrationWork -> Step A) Q :
  (forall k, triple (fun k' w => k' = k /\ P k w) (f k) Q E) -> triple P (get_work ≫= f) Q E.
Proof. intros Hf k w HP. apply (Hf k k w). by split. Qed.

(** Writing it. *)
Lemma triple_set {A} P g (f : unit -> Step A) Q :
  triple (fun k w => exists k0, k = g k0 /\ P k0 w) (f tt) Q E ->
  triple P (set_work g ≫= f) Q E.
Proof. intros Hf k w HP. apply (Hf (g k) w). by exists k. Qed.

Lemma triple_weaken {A} P P' (s : Step A) Q Q' :
  (forall k w, P k w -> P' k w) -> triple P' s Q' E -> (forall a k w, Q' a k w -> Q a k w) ->
  triple P s Q E.
Proof.
  intros HP Hs HQ k w H. specialize (Hs k w (HP _ _ H)). destruct (s k w) as [w' [k' [e|a]]]; auto.
Qed.

Lemma triple_pre {A} P P' (s : Step A) Q :
  (forall k w, P k w -> P' k w) -> triple P' s Q E -> triple P s Q E.
Proof. intros HP Hs. by eapply triple_weaken. Qed.

Lemma triple_catch {A} P (s : Step A) h Q E' :
  triple P s Q E' -> (forall e, triple E' (h e) Q E) -> triple P (step_catch s h) Q E.
Proof.
  intros Hs Hh k w HP. specialize (Hs k w HP). unfold step_catch.
  destruct (s k w) as [w' [k' [e|a]]]; [by apply Hh|done].
Qed.
End Triples.

(** ** What the worker holds on to *)

Section Run.
Context (t did oid : string) (conn : option string) (c : Z).
Hypothesis t_named : t <> "".

(** The jobs of the definition when the run began, where they are followed: then nobody
    else may queue one. *)
Context (known : option (list Job)).

Definition jobs_known (d : DB) : Prop :=
  match known with Some l => registration_jobs did d = l | None => True end.

(** The registration of [did] is pending under [oid], which is in flight. *)
Definition Held (d : DB) : Prop :=
  exists r o,
    d.(db_definitions) !! did = Some r /\ r.(df_id) = did /\ r.(df_tenantId) = t /\
    r.(df_format) = ANONCREDS /\ r.(df_registrationState) = RegPending /\
    r.(df_registrationOperationId) = Some oid /\ r.(df_connectorId) = conn /\
    is_Some r.(df_registration) /\
    d.(db_operations) !! oid = Some o /\ o.(op_id) = oid /\ o.(op_tenantId) = t /\
    o.(op_type) = CREDENTIAL_DEFINITION_REGISTER /\ in_flight o.(op_state) = true.

(** What other requests may do meanwhile: anything that leaves the registration
    columns of [did], while it is pending, and the state of [oid] as they are. *)
Definition undisturbed (d d' : DB) : Prop :=
  (forall r, d.(db_definitions) !! did = Some r -> r.(df_registrationState) = RegPending ->
   exists r',
     d'.(db_definitions) !! did = Some r' /\ r'.(df_id) = r.(df_id) /\
     r'.(df_tenantId) = r.(df_tenantId) /\ r'.(df_format) = r.(df_format) /\
     r'.(df_registrationState) = r.(df_registrationState) /\
     r'.(df_registrationOperationId) = r.(df_registrationOperationId) /\
     r'.(df_connectorId) = r.(df_connectorId) /\ r'.(df_registration) = r.(df_registration)) /\
  (forall o, d.(db_operations) !! oid = Some o -> o.(op_type) = CREDENTIAL_DEFINITION_REGISTER ->
   exists o',
     d'.(db_operations) !! oid = Some o' /\ o'.(op_id) = o.(op_id) /\
     o'.(op_tenantId) = o.(op_tenantId) /\ o'.(op_type) = o.(op_type) /\
     o'.(op_state) = o.(op_state)).

#[export] Instance undisturbed_preorder : PreOrder undisturbed.
Proof.
  split.
  - intros d. split; eauto 12.
  - intros d1 d2 d3 [H1 G1] [H2 G2]. split.
    + intros r Hr Hp. destruct (H1 r Hr Hp) as (r2 & Hr2 & ?&?&?&Hs&?&?&?).
      destruct (H2 r2 Hr2) as (r3 & ? & ?&?&?&?&?&?&?); [congruence|].
      exists r3. repeat split; congruence.
    + intros o Ho Ht. destruct (G1 o Ho Ht) as (o2 & Ho2 & ?&?&?&?).
      destruct (G2 o2 Ho2) as (o3 & ? & ?&?&?&?); [congruence|].
      exists o3. repeat split; congruence.
Qed.

Lemma Held_undisturbed d d' : undisturbed d d' -> Held d -> Held d'.
Proof.
  intros [HD HO] (r & o & Hr & ?&?&?&Hp&?&?&Hreg & Ho & ?&?&Hty&?).
  destruct (HD r Hr Hp) as (r' & ? & ?&?&?&?&?&?&Hreg').
  destruct (HO o Ho Hty) as (o' & ? & ?&?&?&Hs).
  exists r', o'. rewrite Hs, Hreg'. repeat split; congruence.
Qed.

(** The same, and no job for the definition where jobs are followed. *)
Definition tolerated : relation DB :=
  match known with
  | Some _ => fun d d' => undisturbed d d' /\ registration_jobs did d' = registration_jobs did d
  | None => undisturbed
  end.

#[export] Instance tolerated_preorder : PreOrder tolerated.
Proof.
  unfold tolerated. destruct known; [|apply _]. split; [by intros d|].
  intros d1 d2 d3 [H1 E1] [H2 E2]. split; [by etrans|congruence].
Qed.

Definition Good (d : DB) : Prop := Held d /\ jobs_known d.

Lemma Good_tolerated d d' : tolerated d d' -> Good d -> Good d'.
Proof.
  unfold tolerated, Good, jobs_known. destruct known as [l|]; intros H [Hh Hj].
  - destruct H as [H E]. split; [by eapply Held_undisturbed|congruence].
  - split; [by eapply Held_undisturbed|done].
Qed.

(** A program that leaves the registration and the queue alone is tolerated. *)
Definition followed_tables (d : DB) := (d.(db_definitions), d.(db_operations), d.(db_jobs)).

Lemma tolerated_tables d d' : followed_tables d' = followed_tables d -> tolerated d d'.
Proof.
  intros [= Hd Ho Hj]. assert (undisturbed d d') as Hu by (unfold undisturbed; rewrite Hd, Ho; split; eauto 10).
  unfold tolerated. destruct known; [|done]. split; [done|by apply registration_jobs_same].
Qed.

(** The work object is about that registration. *)
Definition tracks (k : RegistrationWork) : Prop :=
  k.(wk_tenantId) = t /\ k.(wk_definition).(df_id) = did /\ k.(wk_operationId) = oid /\
  k.(wk_checks) = c /\ k.(wk_definition).(df_connectorId) = conn.

Definition Open (k : RegistrationWork) (w : World) : Prop := tracks k /\ Good w.(committed).

(** How a run ends: the definition and its operation agree. *)
Definition completed_run (d : DB) : Prop :=
  exists r o, d.(db_definitions) !! did = Some r /\ d.(db_operations) !! oid = Some o /\
    r.(df_registrationState) = RegReady /\ o.(op_state) = COMPLETED /\
    isCredentialDefinitionReadyForIssuance r = true /\
    get_prop "external_id" o.(op_result) = JStr <$> r.(df_externalId).

Definition failed_run (d : DB) : Prop :=
  exists r o, d.(db_definitions) !! did = Some r /\ d.(db_operations) !! oid = Some o /\
    r.(df_registrationState) = RegFailed /\ o.(op_state) = FAILED /\
    get_prop "code" o.(op_result) = Some (JStr "REGISTRATION_FAILED").

(** The next look is queued in the same transaction, with the count raised,
    unless the queue still holds a job for the definition. *)
Definition waiting_run (w : World) : Prop :=
  c < MAX_WAIT_CHECKS /\ Held w.(committed) /\
  (last w.(committed).(db_jobs) = Some (DefinitionRegister t did (Some (c + 1))) \/
   (exists n, w.(still_queued) n = true) /\
   exists j, j ∈ w.(committed).(db_jobs) /\ singleton_key j = Some did).

Definition Settled (w : World) : Prop :=
  completed_run w.(committed) \/ failed_run w.(committed) \/ waiting_run w.

(** What is known of the queue then: only a run that waits queues a job, and just the one. *)
Definition jobs_grown (w : World) : Prop :=
  match known with
  | Some l =>
      registration_jobs did w.(committed) = l ++ [DefinitionRegister t did (Some (c + 1))] \/
      (exists n, w.(still_queued) n = true) /\ registration_jobs did w.(committed) = l
  | None => True
  end.

Definition Ended (w : World) : Prop :=
  (completed_run w.(committed) \/ failed_run w.(committed)) /\ jobs_known w.(committed) \/
  waiting_run w /\ jobs_grown w.

Lemma ended_settled w : Ended w -> Settled w.
Proof. unfold Ended, Settled. tauto. Qed.

(** Steps that only touch the work. *)
Definition harmless (g : RegistrationWork -> RegistrationWork) : Prop :=
  forall k, tracks k -> tracks (g k).

Lemma open_set {A} P g (f : unit -> Step A) Q :
  (forall k w, P k w -> Open k w) -> harmless g ->
  triple Open (f tt) Q Open -> triple P (set_work g ≫= f) Q Open.
Proof.
  intros HP Hg Hf. apply triple_set. eapply triple_weaken; [|exact Hf|done].
  intros k w (k0 & -> & [Ht Hh]%HP). split; [by apply Hg|done].
Qed.

Lemma open_bind {A B} (s : Step A) (f : A -> Step B) Q :
  triple Open s (fun _ => Open) Open -> (forall a, triple Open (f a) Q Open) ->
  triple Open (s ≫= f) Q Open.
Proof. intros Hs Hf. eapply triple_bind; [exact Hs|done]. Qed.

(** A call to the backend, or any other program that keeps the contract. *)
Lemma open_lift {A} (p : Prog A) : Pres tolerated p -> triple Open (lift p) (fun _ => Open) Open.
Proof.
  intros Hp k w [Ht Hh]. unfold lift. specialize (Hp w). destruct (p w) as [w' [e|a]];
    destruct Hp as [Hc _]; (split; [done|by eapply Good_tolerated]).
Qed.

Lemma harmless_registration f : harmless (on_registration f).
Proof. by intros k (?&?&?&?&?). Qed.
Lemma harmless_definition f :
  (forall d, (f d).(df_id) = d.(df_id) /\ (f d).(df_connectorId) = d.(df_connectorId)) ->
  harmless (on_definition f).
Proof.
  intros Hf k (?&Hid&?&?&Hc). destruct (Hf k.(wk_definition)) as [E1 E2].
  repeat split; simpl; congruence.
Qed.

Lemma jobs_known_same d d' : d'.(db_jobs) = d.(db_jobs) -> jobs_known d -> jobs_known d'.
Proof. unfold jobs_known. intros E. destruct known; [|done]. intros <-. by apply registration_jobs_same. Qed.

(** *** The transactions that write the registration *)

Lemma write_outcome_run k st f sched w w' u :
  tracks k -> Held w.(working) -> write_outcome k st f sched w = (w', inr u) ->
  exists r o, w'.(working).(db_definitions) !! did = Some r /\
    w'.(working).(db_operations) !! oid = Some o /\
    (r.(df_id) = did /\ r.(df_tenantId) = t /\ r.(df_format) = ANONCREDS /\
     r.(df_registrationOperationId) = Some oid /\ r.(df_connectorId) = conn /\
     is_Some r.(df_registration) /\ r.(df_registrationState) = k.(wk_definition).(df_registrationState) /\
     r.(df_externalId) = k.(wk_definition).(df_externalId)) /\
    (o.(op_id) = oid /\ o.(op_tenantId) = t /\ o.(op_type) = CREDENTIAL_DEFINITION_REGISTER /\
     o.(op_state) = st /\
     o.(op_result) = Some (operation_result k f)) /\
    (sched = false -> w'.(working).(db_jobs) = w.(working).(db_jobs)) /\
    (sched = true -> c < MAX_WAIT_CHECKS ->
     w'.(working).(db_jobs) = w.(working).(db_jobs) ++ [DefinitionRegister t did (Some (c + 1))] \/
     (exists n, w'.(still_queued) n = true) /\ w'.(working).(db_jobs) = w.(working).(db_jobs) /\
     exists j, j ∈ w'.(working).(db_jobs) /\ singleton_key j = Some did).
Proof.
  intros (Ekt & Ekd & Eko & Ekc & _) (r & o & Hr & Hid & Hrt & Hfmt & _ & Hop & Hconn & _ & Ho & Hoid & Hot & Hty & _).
  unfold write_outcome. rewrite Ekt, Ekd, Eko, Ekc. intros E.
  apply bind_inr in E as (w1 & b & E1 & E). apply bind_inr in E as (w2 & o2 & E2 & E3).
  apply update_definition_run in E1 as Hd1. cbn [view] in Hd1. rewrite Hr in Hd1.
  unfold of_tenant in Hd1. rewrite Hrt, String.eqb_refl in Hd1. destruct Hd1 as (_ & now & Hd1).
  pose proof (frame_run db_operations Tx _ _ _ _ E1) as Ho1. cbn [view] in Ho1.
  pose proof (frame_run db_definitions Tx _ _ _ _ E2) as Hd2. cbn [view] in Hd2.
  assert (db_jobs (working w2) = db_jobs (working w)) as Hj2.
  { rewrite (transitionState_jobs _ _ _ _ _ _ _ E2). by apply update_definition_jobs in E1. }
  eapply transitionState_tx in E2 as (o' & Ho' & ?&?&?&?&?&_); [|done|by rewrite Ho1|done].
  assert (db_definitions (working w') = db_definitions (working w2) /\
          db_operations (working w') = db_operations (working w2)) as [-> ->].
  { split; [eapply (frame_run db_definitions Tx)|eapply (frame_run db_operations Tx)];
      [|exact E3| |exact E3]; apply _. }
  rewrite Hd2, Hd1, lookup_insert_eq. eexists _, o'. split; [done|]. split; [done|].
  split; [by repeat split|]. split; [repeat split; congruence|]. split.
  { intros ->. simpl in E3. by injection E3 as <- _. }
  intros -> Hc. rewrite (proj2 (Z.ltb_lt _ _) Hc) in E3. simpl in E3. destruct u.
  apply send_keyed_run in E3 as [Hq Hjob]. rewrite Hq, <-Hj2. exact Hjob.
Qed.

Lemma persistOutcome_spec (P : RegistrationWork -> World -> Prop) st f sched Q :
  (forall k w, P k w -> Open k w) ->
  (forall k w w1 w2, P k w -> write_outcome k st f sched w1 = (w2, inr tt) ->
     Good w1.(working) -> forall w', w'.(committed) = w2.(working) ->
     w'.(still_queued) = w2.(still_queued) -> Q tt k w') ->
  triple P (persistOutcome st f sched) Q Open.
Proof.
  intros HO HQ k w HP. pose proof (HO _ _ HP) as [Ht Hh].
  change (persistOutcome st f sched k w) with (lift (transaction (write_outcome k st f sched)) k w).
  unfold lift.
  destruct (transaction (write_outcome k st f sched) w) as [w' [e|[]]] eqn:E.
  - apply transaction_throws in E; [|unfold write_outcome; solve_frame]. split; [done|by rewrite E].
  - unfold transaction in E. fold (begin_tx w) in E.
    destruct (write_outcome k st f sched (begin_tx w)) as [w1 [e|[]]] eqn:E1; [done|].
    injection E as <-. eapply HQ; eauto.
Qed.

Lemma persistFailure_spec e stage :
  triple Open (persistFailure e stage) (fun _ _ w => Ended w) Open.
Proof.
  unfold persistFailure. apply open_bind.
  { apply open_lift. unfold classifyFailure. cbv zeta. apply _. }
  intros f. unfold set_stage, set_registrationState. apply open_set; [done|apply harmless_registration|].
  apply triple_set. apply persistOutcome_spec.
  - intros k w (k0 & -> & Ht & Hh). split; [|done]. by apply harmless_definition.
  - intros k w w1 w2 (k0 & -> & Ht & _) E [Hh HJ] w' Hw' _.
    eapply write_outcome_run in E as (r & o & Hr & Ho & (?&?&?&?&?&_&Hs&_) & (_&_&_&?&Hres) & Hj & _);
      [|by apply harmless_definition|done].
    left. rewrite Hw'. split; [|by eapply jobs_known_same; [apply Hj|]]. right.
    exists r, o. rewrite Hres. by repeat split.
Qed.

Lemma persistWaiting_spec : triple Open persistWaiting (fun _ _ w => Ended w) Open.
Proof.
  unfold persistWaiting. apply triple_get. intros k0. destruct (Z.leb_spec MAX_WAIT_CHECKS (wk_checks k0)).
  { eapply triple_weaken; [|apply persistFailure_spec|done]. by intros k w [-> ?]. }
  apply triple_set. apply persistOutcome_spec.
  - intros k w (k1 & -> & -> & Ht & Hh). split; [|done]. by apply harmless_definition.
  - intros k w w1 w2 (k1 & -> & -> & Ht & _) E [Hh HJ] w' Hw' Hq.
    assert (c < MAX_WAIT_CHECKS) as Hc by (destruct Ht as (_&_&_&<-&_); done).
    eapply write_outcome_run in E as (r & o & Hr & Ho & (?&?&?&?&?&?&?&_) & (?&?&?&Hst&_) & _ & Hj);
      [|by apply harmless_definition|done].
    specialize (Hj eq_refl Hc). right. split.
    + split; [done|]. rewrite Hw', Hq. split; [exists r, o; rewrite Hst; by repeat split|].
      destruct Hj as [->|(Hn & _ & Hj)]; [left; apply last_snoc|by right].
    + unfold jobs_grown, jobs_known in *. destruct known as [l|]; [|done]. rewrite Hw', Hq, <-HJ.
      destruct Hj as [Hj|(Hn & Hj & _)]; [left; by apply registration_jobs_snoc|right].
      split; [done|by apply registration_jobs_same].
Qed.

(** The running work is saved; [X] is what is known of it. *)
Lemma saveProgress_spec (X : RegistrationWork -> Prop) :
  triple (fun k w => Open k w /\ X k) saveProgress (fun _ k w => Open k w /\ X k) Open.
Proof.
  intros k w [[Ht Hh] HX].
  unfold saveProgress. unfold mbind at 1, step_bind, get_work, lift.
  match goal with |- context [transaction ?p w] => destruct (transaction p w) as [w' [e|[]]] eqn:E end.
  - apply transaction_throws in E; [|solve_frame]. split; [done|by rewrite E].
  - apply transaction_run in E as (w1 & E & Hw'); [|solve_frame].
    split; [|done]. split; [done|]. rewrite Hw'. apply bind_inr in E as (w2 & b & E1 & E).
    destruct Ht as (Ekt & Ekd & _). rewrite Ekt, Ekd in E1. destruct Hh as [Hh HJ].
    apply update_definition_jobs in E1 as Hj1. simpl in Hj1.
    destruct Hh as (r & o & Hr & Hid & Hrt & Hfmt & Hs & Hop & Hconn & Hreg & Ho & Hoid & Hot & Hty & Hst).
    apply update_definition_run in E1 as Hd1. cbn [view begin_tx] in Hd1. simpl in Hd1. rewrite Hr in Hd1.
    pose proof (frame_run db_operations Tx _ _ _ _ E1) as Ho1. simpl in Ho1.
    destruct (of_tenant t r && df_isActive r); destruct Hd1 as [-> Hd1]; [|done].
    destruct Hd1 as [now Hd1]. injection E as <-. split; [|by eapply jobs_known_same].
    eexists _, o. rewrite Hd1, lookup_insert_eq, Ho1. split; [done|]. by repeat split.
Qed.

Lemma save_bind {A} (X : RegistrationWork -> Prop) (f : unit -> Step A) Q :
  triple (fun k w => Open k w /\ X k) (f tt) Q Open ->
  triple (fun k w => Open k w /\ X k) (saveProgress ≫= f) Q Open.
Proof. intros Hf. eapply triple_bind; [apply saveProgress_spec|]. by intros []. Qed.

Lemma open_save {A} (f : unit -> Step A) Q :
  triple Open (f tt) Q Open -> triple Open (saveProgress ≫= f) Q Open.
Proof.
  intros Hf. apply (triple_pre _ _ (fun k w => Open k w /\ True)); [done|]. apply save_bind.
  by apply (triple_pre _ _ Open); [intros ?? [? _]|].
Qed.

Lemma transitionOperation_spec :
  triple Open (transitionOperation PROCESSING) (fun _ => Open) Open.
Proof.
  intros k w [Ht Hh]. unfold transitionOperation. unfold mbind at 1, step_bind, get_work, lift.
  match goal with |- context [transaction ?p w] => destruct (transaction p w) as [w' [e|[]]] eqn:E end.
  - apply transaction_throws in E; [|solve_frame]. split; [done|by rewrite E].
  - apply transaction_run in E as (w1 & E & Hw'); [|solve_frame].
    split; [done|]. rewrite Hw'. apply bind_inr in E as (w2 & o2 & E1 & E). injection E as <-.
    destruct Ht as (Ekt & Ekd & Eko & _). rewrite Ekt, Eko in E1. destruct Hh as [Hh HJ].
    apply transitionState_jobs in E1 as Hj1. simpl in Hj1.
    destruct Hh as (r & o & Hr & Hid & Hrt & Hfmt & Hs & Hop & Hconn & Hreg & Ho & Hoid & Hot & Hty & Hst).
    pose proof (frame_run db_definitions Tx _ _ _ _ E1) as Hd1. simpl in Hd1.
    eapply transitionState_tx in E1 as (o' & Ho' & ?&?&Hst'&?&?&_); [|done|exact Ho|done].
    split; [|by eapply jobs_known_same].
    exists r, o'. rewrite Hd1, Hst'. repeat split; try done; congruence.
Qed.

(** *** Talking to the backend *)

Lemma tolerated_frame {A} m (p : Prog A) :
  VPres m (frame followed_tables) p -> Pres tolerated p.
Proof.
  intros Hp. apply (vpres_pres m tolerated). intros w. destruct (Hp w) as [Ho Hf]. split; [done|].
  by apply tolerated_tables.
Qed.

#[local] Instance tolerated_no_connectors : NoConnectors tolerated.
Proof. intros d T. apply tolerated_tables. done. Qed.

Lemma tolerated_read_only {A} (p : Prog A) `{!ReadOnly p} : Pres tolerated p.
Proof. intros w. rewrite read_only. reflexivity. Qed.

Context (registry : Registry) (digest : list json -> string).

Lemma publishArtifact_spec backend `{!RegistrationLaws tolerated backend.(be_port)} a sid :
  triple Open (publishArtifact digest backend a sid) (fun _ => Open) Open.
Proof.
  assert (forall k s, Pres tolerated (recordPublication k s)) as Hrec.
  { intros. unfold recordPublication. apply pres_transaction; [apply _|]. apply (tolerated_frame Tx), _. }
  unfold publishArtifact. apply triple_get. intros k0.
  apply (triple_pre _ _ Open); [by intros k w [-> ?]|].
  destruct (negb (truthy_str _)); [by apply triple_throw|]. cbv zeta. apply open_bind.
  { apply open_lift, pres_transaction; [apply _|]. apply (tolerated_frame Tx), _. }
  intros claimed. destruct (negb claimed); [by apply triple_ret|]. apply open_bind.
  - apply open_lift. apply pres_catch; [apply _| |].
    + unfold submit_artifact. destruct a; [apply _|]. destruct (truthy_str sid); apply _.
    + intros e. apply pres_bind; [apply _| |intros; apply _]. by destruct (client_error _ _); simpl; apply _.
  - intros s. apply open_bind; [by apply open_lift|]. intros _. by apply triple_ret.
Qed.

Lemma advanceSchema_spec backend `{!RegistrationLaws tolerated backend.(be_port)} :
  triple Open (advanceSchema digest backend) (fun _ => Open) Open.
Proof.
  unfold advanceSchema, set_stage, set_schema. apply triple_get. intros k0. cbv zeta.
  apply (triple_pre _ _ Open); [by intros k w [-> ?]|].
  destruct (bool_decide _ && negb _); [by apply triple_throw|].
  destruct (bool_decide _ && _).
  { apply open_set; [done|apply harmless_registration|].
    apply open_bind; [apply open_lift, _|]. intros. by apply triple_ret. }
  apply open_set; [done|apply harmless_registration|].
  apply open_bind; [apply open_lift, _|]. intros [s|].
  { apply open_set; [done|apply harmless_registration|]. apply open_save. by apply triple_ret. }
  destruct (hasSubmission _).
  { apply open_set; [done|apply harmless_registration|]. by apply triple_ret. }
  apply open_set; [done|apply harmless_registration|].
  apply open_bind; [by apply publishArtifact_spec|]. intros [s|].
  - apply open_set; [done|apply harmless_registration|]. apply open_save.
    destruct (su_state s); [|apply open_set; [done|apply harmless_registration|]; by apply triple_ret..|
      by apply triple_throw].
    destruct (truthy_str _); [by apply triple_ret|by apply triple_throw].
  - apply open_set; [done|apply harmless_registration|]. by apply triple_ret.
Qed.

(** The definition is published with an identifier, or the run has ended. *)
Lemma advanceDefinition_spec backend `{!RegistrationLaws tolerated backend.(be_port)} sid opts :
  triple Open (advanceDefinition digest backend sid opts)
    (fun b k w => if b then Open k w /\ truthy_str k.(wk_definition).(df_externalId) = true
                  else Ended w) Open.
Proof.
  set (X := fun k => truthy_str k.(wk_definition).(df_externalId) = true).
  assert (triple Open (_ ← persistWaiting; mret false)
    (fun b k w => if b : bool then Open k w /\ X k else Ended w) Open) as Hwait.
  { eapply triple_bind; [apply persistWaiting_spec|]. intros []. by apply triple_ret. }
  assert (forall id g, truthy_str (Some id) = true ->
    triple Open (_ ← set_externalId id; _ ← set_work (on_registration g); _ ← saveProgress; mret true)
      (fun b k w => if b : bool then Open k w /\ X k else Ended w) Open) as Hpub.
  { intros id g Hid. apply triple_set, triple_set.
    apply (triple_pre _ _ (fun k w => Open k w /\ X k)).
    - intros k w (k1 & -> & k0 & -> & Ht & Hh). split; [|done]. split; [|done].
      by apply harmless_registration, harmless_definition.
    - apply save_bind. by apply triple_ret. }
  unfold advanceDefinition, set_stage. apply open_set; [done|apply harmless_registration|].
  apply triple_get. intros k0. cbv zeta. apply (triple_pre _ _ Open); [by intros k w [-> ?]|].
  apply open_bind; [apply open_lift, _|]. intros found.
  destruct (truthy_str found) eqn:Ef; [destruct found as [id|]; [|done]; by apply Hpub|].
  destruct (hasSubmission _).
  { destruct (_ && _); [by apply triple_throw|]. by apply open_set; [done|apply harmless_registration|]. }
  apply open_set; [done|apply harmless_registration|].
  apply open_bind; [by apply publishArtifact_spec|]. intros [s|].
  - apply open_set; [done|apply harmless_registration|]. destruct (su_state s).
    + destruct (truthy_str (su_id s)) eqn:Es; [|by apply triple_throw].
      destruct (su_id s) as [id|]; [|done]. apply triple_set.
      apply (triple_pre _ _ (fun k w => Open k w /\ X k)).
      * intros k w (k1 & -> & Ht & Hh). split; [|done]. split; [|done]. by apply harmless_definition.
      * apply save_bind. by apply triple_ret.
    + apply open_set; [done|apply harmless_registration|]. by apply open_save.
    + apply open_set; [done|apply harmless_registration|]. by apply open_save.
    + apply open_save. by apply triple_throw.
  - by apply open_set; [done|apply harmless_registration|].
Qed.

Lemma finishRegistration_spec backend `{!RegistrationLaws tolerated backend.(be_port)} opts :
  truthy_str conn = true ->
  triple (fun k w => Open k w /\ truthy_str k.(wk_definition).(df_externalId) = true)
    (finishRegistration backend opts) (fun _ _ w => Ended w) Open.
Proof.
  set (P := fun k w => Open k w /\ truthy_str k.(wk_definition).(df_externalId) = true).
  intros Hconn. unfold finishRegistration. apply (triple_bind _ _ (fun _ => P)).
  { destruct (do_revocation opts); [|by apply triple_ret]. intros k w [[Ht Hh] HX].
    unfold set_stage, set_work, get_work, lift, mbind, step_bind.
    match goal with |- context [pt_verifyRevocation ?p ?cx ?i w] =>
      pose proof (pl_verifyRevocation (p:=p) cx i w) as [Hc _];
      destruct (pt_verifyRevocation p cx i w) as [w' [e|b]] end;
      simpl in Hc; apply (Good_tolerated _ _ Hc) in Hh; [by split|]. by split; [split|]. }
  intros []; simpl.
  - unfold set_stage, set_registrationState. apply triple_set, triple_set. apply persistOutcome_spec.
    + intros k w (k1 & -> & k0 & -> & [Ht Hh] & _). split; [|done].
      by apply harmless_definition; [|apply harmless_registration].
    + intros k w w1 w2 (k1 & -> & k0 & -> & [Ht _] & HX) E [Hh HJ] w' Hw' _.
      eapply write_outcome_run in E as (r & o & Hr & Ho & (?&?&?&?&Hc&_&Hs&Hext) & (_&_&_&?&Hres) & Hj & _);
        [|by apply harmless_definition; [|apply harmless_registration]|done].
      left. rewrite Hw'. split; [left|by eapply jobs_known_same; [apply Hj|]]. exists r, o. unfold isCredentialDefinitionReadyForIssuance.
      rewrite Hres, Hext, Hs, Hc, Hconn. simpl in *. rewrite HX.
      destruct (df_externalId (wk_definition k0)); [|done]. by repeat split.
  - unfold set_stage. apply open_set; [by intros ?? [? _]|apply harmless_registration|].
    apply persistWaiting_spec.
Qed.

Lemma advance_spec backend `{!RegistrationLaws tolerated backend.(be_port)} :
  truthy_str conn = true ->
  triple Open (advance_registration digest backend) (fun _ _ w => Ended w) Open.
Proof.
  intros Hconn. unfold advance_registration. apply open_bind; [by apply advanceSchema_spec|]. intros sid.
  destruct (truthy_str sid); [|apply persistWaiting_spec].
  apply triple_get. intros k0. cbv zeta. apply (triple_pre _ _ Open); [by intros k w [-> ?]|].
  eapply triple_bind; [by apply advanceDefinition_spec|]. intros [].
  - by apply finishRegistration_spec.
  - by apply triple_ret.
Qed.

Lemma attempt_on_spec k0 :
  truthy_str conn = true ->
  (forall ty a, registry.(rg_adapters) ty = Some a -> AdapterLaws tolerated a) ->
  triple Open (attempt_on registry digest k0) (fun _ _ w => Ended w) Open.
Proof.
  intros Hconn laws. unfold attempt_on. cbv zeta.
  apply (triple_bind _ _ (fun r k w => Open k w /\
    exists ty, registry.(rg_adapters) ty = Some r.(rs_adapter))).
  { set (p := resolve _ _ _ _). assert (Pres tolerated p) as Hp by (eapply (pres_rotates tolerated), _).
    intros k w HO. pose proof (open_lift p Hp k w HO) as H. unfold lift in *. destruct (p w) as [w' [e|r]] eqn:E; [done|].
    split; [done|]. by eapply resolve_registered. }
  intros r. destruct (ad_anonCredsRegistration (rs_adapter r)) as [port|] eqn:Ep.
  - intros k w [HO [ty Hty]]. apply laws in Hty.
    pose proof (al_registration (a:=rs_adapter r) port Ep) as HL.
    revert k w HO. apply open_bind; [apply transitionOperation_spec|]. intros _.
    apply open_bind; [apply open_lift, _|]. intros issuer.
    destruct (negb _); [by apply triple_throw|]. by apply advance_spec.
  - apply triple_throw. by intros k w [? _].
Qed.

Lemma attempt_spec :
  (forall ty a, registry.(rg_adapters) ty = Some a -> AdapterLaws tolerated a) ->
  triple Open (attempt registry digest) (fun _ _ w => Ended w) Open.
Proof.
  intros laws. unfold attempt. apply triple_get. intros k0 k w [-> HO].
  destruct (_ || _) eqn:Eg; [done|]. apply orb_false_elim in Eg as [_ Eg%negb_false_iff].
  apply attempt_on_spec; [|done..]. destruct HO as [(_&_&_&_&<-) _]. done.
Qed.
End Run.

(** ** The run *)

(** What a run leaves, with the jobs of the definition followed or not. *)
Lemma process_ends registry digest t did oid conn checks known w :
  t <> "" -> oid <> "" ->
  (forall ty a, registry.(rg_adapters) ty = Some a -> AdapterLaws (tolerated did oid known) a) ->
  Good t did oid conn known w.(committed) ->
  let '(w', r) := process_registration registry digest t did checks w in
  match r with
  | inr _ => Ended t did oid conn checks known w'
  | inl _ => Good t did oid conn known w'.(committed)
  end.
Proof.
  intros Ht Hoid laws HG. pose proof HG as [HH HJ].
  pose proof HH as (r & o & Hr & Hid & Hrt & Hfmt & Hs & Hop & Hconn & [reg Hreg] & Ho & Hoo & Hot & Hty & Hst).
  unfold process_registration, read, operations_findByIdForTenant.
  unfold mbind at 1, prog_bind at 1, find_pending. cbn [view]. rewrite Hr. unfold of_tenant.
  rewrite Hrt, String.eqb_refl, Hfmt, Hs. simpl. rewrite Hreg, Hop.
  assert (truthy_str (Some oid) = true) as Htr by (by destruct oid). rewrite Htr. simpl.
  unfold mbind at 1, prog_bind at 1. unfold read. cbn [view]. rewrite Ho, Hot, String.eqb_refl.
  destruct (bool_decide (op_state o = FAILED)) eqn:Ef.
  { apply bool_decide_eq_true in Ef. by rewrite Ef in Hst. }
  set (k := mkWork _ _ _ _ _). unfold run_step.
  assert (Open t did oid conn checks known k w) as HO by (split; [by repeat split|done]).
  pose proof (triple_catch (Open t did oid conn checks known) (Open t did oid conn checks known) (attempt registry digest)
    (fun e => k ← get_work; persistFailure e (stage_of k.(wk_registration)))
    (fun _ _ w => Ended t did oid conn checks known w) (Open t did oid conn checks known)
    (attempt_spec t did oid conn checks Ht known registry digest laws)) as Hrun.
  specialize (Hrun ltac:(intros e; apply triple_get; intros k0;
    apply (triple_pre _ _ (Open t did oid conn checks known)); [by intros ?? [-> ?]|by apply persistFailure_spec]) k w HO).
  destruct (step_catch _ _ k w) as [w' [k' [e|u]]]; [by destruct Hrun|done].
Qed.

(** C7: a run of the registration worker settles the registration or queues the
    next look at it, whatever the ledger's backend answers or throws.  When the
    run returns, the definition and its operation agree: both completed, with
    the external identifier recorded in the definition and reported by the
    operation and the definition ready for issuance; or both failed, with the
    reported code; or still pending with fewer than 20 looks so far, the
    operation in flight, and the job of the next look queued in the transaction
    that recorded the progress (or one for the same definition still queued).
    When it throws, the registration is as resumable as before, for the queue's
    retry.  Other requests may commit anything that leaves this registration
    alone while the backend is asked. *)
Theorem registration_run_settles registry digest t did oid conn checks w :
  t <> "" -> oid <> "" ->
  (forall ty a, registry.(rg_adapters) ty = Some a -> AdapterLaws (undisturbed did oid) a) ->
  Held t did oid conn w.(committed) ->
  let '(w', r) := process_registration registry digest t did checks w in
  match r with
  | inr _ => Settled t did oid conn checks w'
  | inl _ => Held t did oid conn w'.(committed)
  end.
Proof.
  intros Ht Hoid laws HH.
  pose proof (process_ends registry digest t did oid conn checks None w Ht Hoid laws (conj HH I)) as H.
  destruct (process_registration registry digest t did checks w) as [w' [e|u]]; [apply H|by eapply ended_settled].
Qed.

(** A registration as the service leaves it, on the sample connector. *)
Definition pending_definition : CredentialDefinition :=
  mkDefinition "df" "t" "Person" ANONCREDS
    [("attr_names", JArr [JStr "name"]); ("schema_name", JStr "person"); ("schema_version", JStr "1.0")]
    None (Some "k1") RegPending (Some "o1") [("format", JStr "anoncreds")]
    (Some (mkRegistration "did:issuer" (Some no_progress) (Some no_progress) None)) TRACTION "1.0"
    DF_PUBLISHED None true 0 0.
Definition registration_op : Operation :=
  mkOperation "o1" "t" None CREDENTIAL_DEFINITION_REGISTER PENDING JNull None None None None 0 0 0.
Definition registration_db : DB :=
  set_definitions {[ "df" := pending_definition ]}
    (set_operations {[ "o1" := registration_op ]} connector_db).

Lemma registration_db_held : Held "t" "df" "o1" (Some "k1") registration_db.
Proof. eexists _, _. repeat split. by eexists. Qed.

Lemma sample_registry_undisturbed did oid ty a :
  sample_registry.(rg_adapters) ty = Some a -> AdapterLaws (undisturbed did oid) a.
Proof. simpl. intros. case_decide; simplify_eq. apply _. Qed.

Lemma registration_run_settles_witness :
  let w := world_of registration_db 0 in
  Settled "t" "df" "o1" (Some "k1") 0
    (process_registration sample_registry (fun _ => "key") "t" "df" 0 w).1 /\
  (process_registration sample_registry (fun _ => "key") "t" "df" 0 w).2 = inr tt.
Proof.
  intros w. pose proof (registration_run_settles sample_registry (fun _ => "key") "t" "df" "o1"
    (Some "k1") 0 w ltac:(done) ltac:(done) (sample_registry_undisturbed _ _) registration_db_held) as H.
  assert ((process_registration sample_registry (fun _ => "key") "t" "df" 0 w).2 = inr tt) as E
    by (vm_compute; reflexivity).
  destruct (process_registration sample_registry (fun _ => "key") "t" "df" 0 w) as [w' r].
  simpl in E. subst r. split; [exact H|done].
Defined.

(** ** The number of looks is bounded *)

(** What others do while a registration is polled: nothing to it, and they queue no job
    for its definition. *)
Definition left_alone (did oid : string) (d d' : DB) : Prop :=
  undisturbed did oid d d' /\ registration_jobs did d' = registration_jobs did d.

#[export] Instance left_alone_preorder did oid : PreOrder (left_alone did oid).
Proof. exact (tolerated_preorder did oid (Some [])). Qed.

(** Nobody starts a settled registration anew. *)
Definition not_restarted (did : string) (d d' : DB) : Prop :=
  forall r, d.(db_definitions) !! did = Some r -> r.(df_registrationState) <> RegPending ->
  exists r', d'.(db_definitions) !! did = Some r' /\ r'.(df_registrationState) <> RegPending.

#[export] Instance not_restarted_preorder did : PreOrder (not_restarted did).
Proof.
  split; [intros d r ??; by exists r|]. intros d1 d2 d3 H1 H2 r Hr Hs.
  destruct (H1 r Hr Hs) as (r2 & Hr2 & Hs2). eauto.
Qed.

(** The queue hands the worker the jobs of the definition in the order they were queued,
    from number [next] on, each when the run of the one before has returned; [between] is
    what else happens before it does.  The result is the number of jobs handed out when
    none is left, or [None] when [runs] runs were not enough. *)
Section Polling.
Context (registry : Registry) (digest : list json -> string) (between : Prog unit) (did : string).

Fixpoint drain (runs next : nat) : Prog (option nat) :=
  job ← read NoTx (fun d => registration_jobs did d !! next);
  match job, runs with
  | None, _ => mret (Some next)
  | Some _, O => mret None
  | Some j, S runs' =>
      _ ← handle_registration registry digest j;
      _ ← between;
      drain runs' (S next)
  end.

Lemma truthy_named s : s <> "" -> truthy_str (Some s) = true.
Proof. by destruct s. Qed.

(** No longer pending; or the queue refused the next job because it held one. *)
Definition polled_out (w : World) : Prop :=
  (exists r, w.(committed).(db_definitions) !! did = Some r /\ r.(df_registrationState) <> RegPending) \/
  exists n, w.(still_queued) n = true.

Lemma drain_empty runs l w :
  registration_jobs did w.(committed) = l -> drain runs (length l) w = (w, inr (Some (length l))).
Proof.
  intros <-. destruct runs; simpl; unfold read; unfold mbind, prog_bind; simpl;
    by rewrite (proj2 (lookup_ge_None _ _)).
Qed.

Context (t oid : string) (conn : option string).
Context (t_named : t <> "") (did_named : did <> "") (oid_named : oid <> "").
Context (laws : forall ty a, registry.(rg_adapters) ty = Some a -> AdapterLaws (left_alone did oid) a).
Context (quiet_between : Pres (left_alone did oid) between).
Context (no_restart : Pres (not_restarted did) between).
Context (same_queue : forall w, (between w).1.(still_queued) = w.(still_queued)).

Lemma settled_after_between w w' x :
  completed_run did oid w.(committed) \/ failed_run did oid w.(committed) ->
  between w = (w', x) -> polled_out w'.
Proof.
  intros Hs E. left. destruct (no_restart w) as [Hnew _]. rewrite E in Hnew. simpl in Hnew.
  destruct Hs as [(r & o & Hr & _ & Hst & _)|(r & o & Hr & _ & Hst & _)];
    apply (Hnew r Hr); by rewrite Hst.
Qed.

Lemma drain_ends runs c checks older w w' result :
  Held t did oid conn w.(committed) ->
  registration_jobs did w.(committed) = older ++ [DefinitionRegister t did checks] ->
  safe_checks checks = c -> 0 <= c -> c <= MAX_WAIT_CHECKS < c + Z.of_nat runs ->
  drain runs (length older) w = (w', inr result) ->
  exists n, result = Some n /\ (length older < n <= length older + runs)%nat /\ polled_out w'.
Proof.
  revert c checks older w. induction runs as [|runs IH]; intros c checks older w HH Hj Hc H0 Hr E; [lia|].
  set (l := older ++ [DefinitionRegister t did checks]) in *.
  assert (length l = S (length older)) as Hlen by (unfold l; rewrite length_app; simpl; lia).
  cbn [drain] in E. unfold read in E. unfold mbind at 1, prog_bind at 1 in E. cbn [view] in E.
  rewrite Hj in E. unfold l in E at 1. rewrite list_lookup_middle in E by done.
  apply bind_inr in E as (w1 & [] & E1 & E). apply bind_inr in E as (w2 & [] & E2 & E).
  unfold handle_registration in E1. rewrite !truthy_named in E1 by done. cbn [andb] in E1. rewrite Hc in E1.
  pose proof (process_ends registry digest t did oid conn c (Some l) w t_named oid_named laws (conj HH Hj)) as HE.
  rewrite E1 in HE. destruct (quiet_between w1) as [[Hq1 Hq2] _]. rewrite E2 in Hq1, Hq2. simpl in Hq1, Hq2.
  rewrite <-Hlen in E. destruct HE as [[Hs Hk]|[[Hlt [HH1 _]] [Hk|[[n Hn] Hk]]]]; simpl in Hk.
  - rewrite (drain_empty _ l) in E by congruence. injection E as <- <-.
    exists (length l). split_and!; [done|lia|lia|]. by eapply settled_after_between.
  - assert (safe_checks (Some (c + 1)) = c + 1) as Hnext.
    { unfold safe_checks. unfold MAX_WAIT_CHECKS in *.
      rewrite (proj2 (Z.leb_le 0 (c + 1))), (proj2 (Z.leb_le (c + 1) 9007199254740991)) by lia. done. }
    destruct (IH (c + 1) (Some (c + 1)) l w2) as (n & -> & Hn & Ho); try done; try lia.
    + by eapply Held_undisturbed.
    + by rewrite Hq2, Hk.
    + exists n. split_and!; [done|lia|lia|done].
  - rewrite (drain_empty _ l) in E by congruence. injection E as <- <-.
    exists (length l). split_and!; [done|lia|lia|]. right. exists n.
    pose proof (same_queue w1) as Hsq. rewrite E2 in Hsq. simpl in Hsq. by rewrite Hsq.
Qed.
End Polling.

(** C35: registration polling ends, and only because the registration is settled.  The
    queue holds the job of a pending registration's submission, and every later job is
    one that a run of the worker queued.  However the ledger's backend answers, if the
    runs return, no more than 21 of them happen until the queue holds no job for the
    definition, and then it is no longer pending; or the queue refused a job because it
    still held one for the definition.  Assumed of the other requests: they leave the
    pending registration alone, queue no job for its definition and, when it is settled,
    do not start it anew. *)
Theorem registration_polling_bounded registry digest between t did oid conn older w w' result :
  t <> "" -> did <> "" -> oid <> "" ->
  (forall ty a, registry.(rg_adapters) ty = Some a -> AdapterLaws (left_alone did oid) a) ->
  Pres (left_alone did oid) between -> Pres (not_restarted did) between ->
  (forall w, (between w).1.(still_queued) = w.(still_queued)) ->
  Held t did oid conn w.(committed) ->
  registration_jobs did w.(committed) = older ++ [DefinitionRegister t did None] ->
  drain registry digest between did 21 (length older) w = (w', inr result) ->
  exists n, result = Some n /\ (length older < n <= length older + 21)%nat /\
    ((exists r, w'.(committed).(db_definitions) !! did = Some r /\ r.(df_registrationState) <> RegPending) \/
     exists n, w'.(still_queued) n = true).
Proof.
  intros Ht Hd Ho laws Hb Hn Hq HH Hj.
  by apply (drain_ends registry digest between did t oid conn Ht Hd Ho laws Hb Hn Hq 21 0 None).
Qed.

(** A ledger that never shows the schema and only ever queues its publication. *)
Definition stalled_port : RegistrationPort :=
  mkRegistrationPort silent_port.(pt_resolveIssuer) silent_port.(pt_resolveSchema)
    (fun _ _ _ => mret None)
    (fun _ _ _ => mret (mkSubmission Wait None (Some "job-1") None None None None))
    silent_port.(pt_findDefinition) silent_port.(pt_publishDefinition) silent_port.(pt_verifyRevocation).
Definition stalled_adapter : AgentAdapter :=
  mkAdapter [AnonCreds] silent_adapter.(ad_createInvitation) silent_adapter.(ad_acceptInvitation)
    silent_adapter.(ad_getById) silent_adapter.(ad_listByInvitation) silent_adapter.(ad_deleteById)
    silent_adapter.(ad_offerCredential) silent_adapter.(ad_issueCredential)
    silent_adapter.(ad_getExchange) silent_adapter.(ad_acceptOffer) silent_adapter.(ad_rejectOffer)
    silent_adapter.(ad_revoke) silent_adapter.(ad_requestPresentation) (Some stalled_port).
Definition stalled_registry : Registry :=
  mkRegistry (fun t => if decide (t = TRACTION) then Some stalled_adapter else None) false plain_env.

Lemma stalled_registry_laws R `{!PreOrder R} ty a :
  stalled_registry.(rg_adapters) ty = Some a -> AdapterLaws R a.
Proof.
  simpl. intros. case_decide; simplify_eq. split; intros; simpl in *; simplify_eq; try apply _.
  split; intros; simpl; apply _.
Qed.

(** The job of the submission is queued; the ledger stalls for all 20 looks after it. *)
Definition queued_db : DB := add_job (DefinitionRegister "t" "df" None) registration_db.

Lemma registration_polling_bounded_witness :
  (drain stalled_registry (fun _ => "key") (mret tt) "df" 20 0 (world_of queued_db 0)).2 = inr None /\
  exists w', drain stalled_registry (fun _ => "key") (mret tt) "df" 21 0 (world_of queued_db 0) = (w', inr (Some 21%nat)) /\
    ((exists r, w'.(committed).(db_definitions) !! "df" = Some r /\ r.(df_registrationState) <> RegPending) \/
     exists n, w'.(still_queued) n = true).
Proof.
  split; [vm_compute; reflexivity|].
  assert ((drain stalled_registry (fun _ => "key") (mret tt) "df" 21 0 (world_of queued_db 0)).2 = inr (Some 21%nat)) as E
    by (vm_compute; reflexivity).
  destruct (drain stalled_registry (fun _ => "key") (mret tt) "df" 21 0 (world_of queued_db 0)) as [w' r] eqn:Er.
  simpl in E. subst r. exists w'. split; [reflexivity|].
  assert (Held "t" "df" "o1" (Some "k1") (world_of queued_db 0).(committed)) as HH by exact registration_db_held.
  assert (registration_jobs "df" (world_of queued_db 0).(committed) = [] ++ [DefinitionRegister "t" "df" None]) as Hj
    by (vm_compute; reflexivity).
  destruct (registration_polling_bounded stalled_registry (fun _ => "key") (mret tt) "t" "df" "o1" (Some "k1") []
    (world_of queued_db 0) w' (Some 21%nat) ltac:(discriminate) ltac:(discriminate) ltac:(discriminate)
    (stalled_registry_laws _) ltac:(apply _) ltac:(apply _) ltac:(intros; reflexivity) HH Hj Er) as (n & _ & _ & H).
  exact H.
Defined.
