(* ===== verification/PublicationIntents.v ===== *)
(** * An artifact is published at most once

    Publishing writes to a public ledger and cannot be taken back, and the
    answer to a publication may get lost.  The worker therefore commits a claim
    ([anoncreds_publication_intent]) before it asks, and opens the claim again
    only when the backend refused.

    [step] interleaves any number of runs of [publishArtifact] for one artifact,
    statement by statement: each run claims, asks and records the answer, in
    the transactions of the code, while the others do the same and other
    requests commit in between.  [publishArtifact_phases] says that these are
    the phases of the code. *)

From Stdlib Require Import Ascii ZArith Lia.
From stdpp Require Import base decidable strings sets gmap list list_relations relations.
From S2P Require Import Prelude Js Entities StateMapping OperationTtl Db Pagination.
From S2P Require Import OperationService DefinitionRepository.
From S2P Require Import ConnectorService AdapterRegistry Auth ProtocolStateChange Lifecycle ServiceLogic.
From S2P Require Import DefinitionService RegistrationWorker.

(** ** The phases of a publication *)

(** The answer says that nothing was written to the ledger. *)
Definition refused (r : Exn + RegistrationSubmission) : bool :=
  match r with
  | inl e => client_error (backend_status e) [408; 429]%Z
  | inr s => bool_decide (s.(su_state) = ArtifactFailed)
  end.

(** What is recorded for an answer. *)
Definition record_answer (key : IntentKey) (r : Exn + RegistrationSubmission) : Prog unit :=
  match r with
  | inl _ => prog_when (refused r) (recordPublication key IntentRejected)
  | inr _ => recordPublication key (if refused r then IntentRejected else IntentSubmitted)
  end.

Lemma publishArtifact_phases digest backend a sid k w :
  truthy_str k.(wk_definition).(df_connectorId) = true ->
  let key := intent_key digest a k (default "" k.(wk_definition).(df_connectorId)) sid in
  publishArtifact digest backend a sid k w =
  match transaction (intents_claim key Tx) w with
  | (w1, inl e) => (w1, (k, inl e))
  | (w1, inr false) => (w1, (k, inr None))
  | (w1, inr true) =>
      let '(w2, r) := submit_artifact a backend k sid w1 in
      let '(w3, u) := record_answer key r w2 in
      (w3, (k, match u, r with
               | inl e, _ => inl e
               | inr _, inl e => inl e
               | inr _, inr s => inr (Some s)
               end))
  end.
Proof.
  intros Hc key. unfold publishArtifact, mbind, step_bind, get_work, lift. rewrite Hc. simpl. fold key.
  destruct (transaction (intents_claim key Tx) w) as [w1 [e|[]]]; [done| |done]. simpl. unfold catch.
  destruct (submit_artifact a backend k sid w1) as [w2 [e|s]]; simpl.
  - unfold prog_bind. destruct (client_error _ _); [|done].
    change (prog_when true ?p) with p. by destruct (recordPublication key IntentRejected w2) as [w3 [e'|[]]].
  - unfold bool_decide. destruct (decide_rel _ _ _) as [Hs|Hs]; destruct (decide _) as [Hd|Hd]; try done.
    all: by destruct (recordPublication _ _ w2) as [w3 [e'|[]]].
Qed.

(** ** Interleaved publications *)

Inductive Phase := Ready | Holding | Asking | Over.

Record System := mkSystem {
  sy_world : World;
  sy_phase : nat -> Phase;            (* of each run *)
  sy_asked : nat;                     (* publications asked for so far *)
  sy_refused : nat                    (* and refused *)
}.

Definition set_phase (i : nat) (p : Phase) (f : nat -> Phase) : nat -> Phase :=
  fun j => if decide (j = i) then p else f j.

Definition intent (key : IntentKey) (w : World) : option IntentState :=
  w.(committed).(db_intents) !! key.

Inductive step (key : IntentKey) : System -> System -> Prop :=
| step_claim i w f n m w' b :
    f i = Ready -> transaction (intents_claim key Tx) w = (w', inr b) ->
    step key (mkSystem w f n m) (mkSystem w' (set_phase i (if b then Holding else Over) f) n m)
| step_ask i w f n m :
    f i = Holding -> step key (mkSystem w f n m) (mkSystem w (set_phase i Asking f) (S n) m)
| step_answer i r w f n m w' u :
    f i = Asking -> record_answer key r w = (w', inr u) ->
    step key (mkSystem w f n m)
      (mkSystem w' (set_phase i Over f) n (if refused r then S m else m))
| step_crash i w f n m :               (* the process dies: nothing more is recorded *)
    f i <> Ready -> step key (mkSystem w f n m) (mkSystem w (set_phase i Over f) n m)
| step_again i w f n m :               (* a later job *)
    f i = Over -> step key (mkSystem w f n m) (mkSystem w (set_phase i Ready f) n m)
| step_other w f n m w' :              (* another request, or the clock *)
    intent key w' = intent key w -> step key (mkSystem w f n m) (mkSystem w' f n m).

Definition busy (p : Phase) : Prop := p = Holding \/ p = Asking.

(** The intent is closed to new claims. *)
Definition closed (key : IntentKey) (w : World) : bool :=
  match intent key w with Some Publishing | Some IntentSubmitted => true | _ => false end.

Record invariant (key : IntentKey) (s : System) : Prop := {
  one_busy i j : busy (s.(sy_phase) i) -> busy (s.(sy_phase) j) -> i = j;
  busy_publishing i : busy (s.(sy_phase) i) -> intent key s.(sy_world) = Some Publishing;
  holding_count i : s.(sy_phase) i = Holding -> s.(sy_asked) <= s.(sy_refused);
  open_count : closed key s.(sy_world) = false -> s.(sy_asked) <= s.(sy_refused);
  total_count : s.(sy_asked) <= S s.(sy_refused)
}.

Lemma claim_run key w w' b :
  transaction (intents_claim key Tx) w = (w', inr b) ->
  (b = negb (closed key w)) /\ intent key w' = (if b then Some Publishing else intent key w).
Proof.
  intros E. apply transaction_run in E as (w1 & E & Hw'); [|apply _].
  unfold intents_claim in E. apply bind_inr in E as (w2 & row & E1 & E). injection E1 as <- <-.
  unfold closed, intent. rewrite Hw'. simpl in E.
  destruct (db_intents (committed w) !! key) as [[]|] eqn:Ei; simpl in E;
    injection E as <- <-; simpl; by rewrite ?lookup_insert_eq.
Qed.

Lemma record_run key r w w' u :
  record_answer key r w = (w', inr u) -> intent key w = Some Publishing ->
  intent key w' = Some (match r with
                        | inl _ => if refused r then IntentRejected else Publishing
                        | inr _ => if refused r then IntentRejected else IntentSubmitted
                        end).
Proof.
  intros E Hi.
  assert (forall s, recordPublication key s w = (w', inr u) -> intent key w' = Some s) as Hrec.
  { intros s Es. unfold recordPublication in Es. apply transaction_run in Es as (w1 & Es & Hw'); [|apply _].
    injection Es as <-. unfold intent in *. rewrite Hw'. simpl. by rewrite lookup_alter_eq, Hi. }
  unfold record_answer in E. destruct r as [e|s]; [|by apply Hrec].
  destruct (refused (inl e)); [by apply Hrec|]. by injection E as <-.
Qed.

Lemma step_invariant key s s' : invariant key s -> step key s s' -> invariant key s'.
Proof.
  intros [I1 I2 I3 I4 I5] Hstep. destruct Hstep as [i w f n m w' b Hi E|i w f n m Hi|
    i r w f n m w' u Hi E|i w f n m Hi|i w f n m Hi|w f n m w' Hw]; simpl in *.
  - apply claim_run in E as [Hb Hw]. destruct b.
    + assert (closed key w = false) as Hc by (by destruct (closed key w)).
      assert (forall j, ~ busy (f j)) as Hfree.
      { intros j Hj. unfold closed in Hc. by rewrite (I2 j Hj) in Hc. }
      split; simpl; intros; [| |by apply I4|by apply I4|done].
      * unfold set_phase, busy in *. repeat case_decide; naive_solver.
      * done.
    + assert (closed key w' = closed key w) as Hc by (unfold closed; by rewrite Hw).
      split; simpl; rewrite ?Hc, ?Hw; unfold set_phase, busy in *; intros; repeat case_decide;
        naive_solver.
  - assert (closed key w = true) as Hc by (unfold closed; by rewrite (I2 i (or_introl Hi))).
    specialize (I3 i Hi). split; simpl; rewrite ?Hc; [| | |done|lia].
    + unfold set_phase, busy in *. intros. repeat case_decide; naive_solver.
    + intros j _. apply (I2 i). by left.
    + intros j Hj. exfalso. unfold set_phase in Hj. case_decide; [done|].
      assert (j = i) by (apply I1; [by left|by left]). done.
  - apply record_run in E as Hw; [|apply (I2 i); by right].
    assert (forall j, ~ busy (set_phase i Over f j)) as Hfree.
    { intros j Hj. unfold set_phase, busy in Hj. case_decide; [naive_solver|].
      assert (j = i) by (apply I1; [done|by right]). done. }
    split; simpl.
    + intros j j' Hj. by destruct (Hfree j).
    + intros j Hj. by destruct (Hfree j).
    + intros j Hj. destruct (Hfree j). by left.
    + unfold closed. rewrite Hw. destruct (refused r); [lia|]. by destruct r.
    + destruct (refused r); lia.
  - split; simpl; [| |intros j Hj; apply (I3 j)|done..]; unfold set_phase, busy in *; intros;
      repeat case_decide; naive_solver.
  - split; simpl; [| |intros j Hj; apply (I3 j)|done..]; unfold set_phase, busy in *; intros;
      repeat case_decide; naive_solver.
  - assert (closed key w' = closed key w) as Hc by (unfold closed; by rewrite Hw).
    split; simpl; rewrite ?Hc, ?Hw; done.
Qed.

Lemma free_set_phase i p f :
  (forall j, ~ busy (f j)) -> ~ busy p -> forall j, ~ busy (set_phase i p f j).
Proof. intros Hf Hp j. unfold set_phase. destruct (decide (j = i)); [done|apply Hf]. Qed.

(** Nothing is asked of a closed intent that no run holds. *)
Lemma step_sealed key s s' :
  closed key s.(sy_world) = true /\ (forall i, ~ busy (s.(sy_phase) i)) /\ s.(sy_asked) = 0 ->
  step key s s' ->
  closed key s'.(sy_world) = true /\ (forall i, ~ busy (s'.(sy_phase) i)) /\ s'.(sy_asked) = 0.
Proof.
  intros (Hc & Hf & Ha) Hstep. destruct Hstep as [i w f n m w' b Hi E|i w f n m Hi|
    i r w f n m w' u Hi E|i w f n m Hi|i w f n m Hi|w f n m w' Hw]; simpl in *.
  - apply claim_run in E as [-> Hw]. rewrite Hc in Hw. simpl in Hw. unfold closed in *. rewrite Hw, Hc.
    split; [done|]. split; [|done]. apply free_set_phase; [done|]. by intros [?|?].
  - destruct (Hf i). by left.
  - destruct (Hf i). by right.
  - split; [done|]. split; [|done]. apply free_set_phase; [done|]. by intros [?|?].
  - split; [done|]. split; [|done]. apply free_set_phase; [done|]. by intros [?|?].
  - unfold closed in *. by rewrite Hw.
Qed.

(** C4: an artifact is published at most once.  Let any number of worker runs
    publish the same artifact, interleaved in any order with each other, with
    crashes, repeated jobs and other requests: at any time the backend has been
    asked at most once more than it has refused, and a claim that was open or
    submitted when nobody was at work is never asked for again. *)
Theorem artifact_published_at_most_once key w f s :
  (forall i, ~ busy (f i)) ->
  rtc (step key) (mkSystem w f 0 0) s ->
  s.(sy_asked) <= S s.(sy_refused) /\
  (closed key w = true -> s.(sy_asked) = 0).
Proof.
  intros Hf Hrun. split.
  - apply (total_count key). revert Hrun. apply (rtc_ind_r (invariant key)).
    + split; simpl; intros; try lia; by destruct (Hf i).
    + intros s1 s2 _ H Hinv. by eapply step_invariant.
  - intros Hc.
    assert (closed key s.(sy_world) = true /\ (forall i, ~ busy (s.(sy_phase) i)) /\ s.(sy_asked) = 0)
      as (_ & _ & ?); [|done].
    revert Hrun. apply (rtc_ind_r (fun s => closed key s.(sy_world) = true /\
      (forall i, ~ busy (s.(sy_phase) i)) /\ s.(sy_asked) = 0)); [done|].
    intros s1 s2 _ H Hs. by eapply step_sealed.
Qed.

(** One run asks while a second one finds the claim taken. *)
Lemma artifact_published_at_most_once_witness :
  let key := ("t", "k1", "schema") in
  exists s, rtc (step key) (mkSystem (world_of empty_db 0) (fun _ => Ready) 0 0) s /\
    s.(sy_asked) = 1 /\ s.(sy_phase) 1 = Over /\ s.(sy_asked) <= S s.(sy_refused).
Proof.
  intros key. set (w := world_of empty_db 0).
  set (w1 := (transaction (intents_claim key Tx) w).1).
  set (s := mkSystem (transaction (intents_claim key Tx) w1).1
              (set_phase 1 Over (set_phase 0 Asking (set_phase 0 Holding (fun _ => Ready)))) 1 0).
  assert (rtc (step key) (mkSystem w (fun _ => Ready) 0 0) s) as Hrun.
  { eapply rtc_l; [apply (step_claim key 0 w (fun _ => Ready) 0 0 w1 true); by vm_compute|].
    eapply rtc_l; [by apply (step_ask key 0)|].
    apply rtc_once. apply (step_claim key 1 _ _ 1 0 _ false); by vm_compute. }
  exists s. split; [exact Hrun|]. split; [done|]. split; [done|].
  apply (artifact_published_at_most_once key w (fun _ => Ready) s); [by intros i [?|?]|exact Hrun].
Defined.
