(* ===== verification/DefinitionCorrectness.v ===== *)
(** * Credential definitions: what the requests do

    The life of a definition under requests, and the operation a registration is answered with. *)

From Stdlib Require Import Ascii ZArith Lia.
From stdpp Require Import base decidable strings sets gmap list list_relations relations.
From S2P Require Import Prelude Js Entities StateMapping OperationTtl Db Pagination ConnectorRepository OperationService.
From S2P Require Import DefinitionRepository ConnectorService AdapterRegistry Auth ProtocolStateChange Lifecycle ProtocolNotification OperationCorrectness CredentialExchangeService.
From S2P Require Import ServiceLogic ExchangeCorrectness FormatValidators DefinitionService RegistrationWorker RegistrationCorrectness.

(** * The life of a credential definition

    What the requests on credential definitions (create, draft, update, delete)
    may do to the tables: [definition_row] relates a row before and after.
    Identity, format and options are fixed; the status only moves on; the
    settings of a definition that left the draft stage are frozen; a registration
    that is pending is left to its worker, and a ready one stays ready.  The
    requests keep this contract while others that keep it commit in between, and
    the contract implies what the worker relies on ([undisturbed]). *)

Local Open Scope Z_scope.

(** ** Rows *)

Definition status_rank (s : CredentialDefinitionStatus) : Z :=
  match s with DF_DRAFT => 0 | DF_PUBLISHED => 1 | DF_DEPRECATED => 2 end.

Inductive registration_step : RegistrationState -> RegistrationState -> Prop :=
| reg_start : registration_step Unverified RegPending
| reg_ready : registration_step RegPending RegReady
| reg_failed : registration_step RegPending RegFailed
| reg_restart : registration_step RegFailed RegPending.

Definition registration_columns (d : CredentialDefinition) :=
  (d.(df_registrationState), d.(df_registrationOperationId), d.(df_registration),
   d.(df_externalId), d.(df_connectorId)).

Definition settings (d : CredentialDefinition) :=
  (d.(df_schemaDefinition), d.(df_connectorId), d.(df_connectorType), d.(df_version)).

Definition definition_row (d d' : CredentialDefinition) : Prop :=
  d'.(df_id) = d.(df_id) /\ d'.(df_tenantId) = d.(df_tenantId) /\
  d'.(df_format) = d.(df_format) /\ d'.(df_options) = d.(df_options) /\
  d'.(df_createdAt) = d.(df_createdAt) /\
  status_rank d.(df_status) <= status_rank d'.(df_status) /\
  (d.(df_status) <> DF_DRAFT -> settings d' = settings d) /\
  rtc registration_step d.(df_registrationState) d'.(df_registrationState) /\
  (d.(df_registrationState) = RegPending -> registration_columns d' = registration_columns d) /\
  (d.(df_registrationState) = RegReady -> d'.(df_externalId) = d.(df_externalId)) /\
  (d'.(df_status) = DF_DRAFT -> d'.(df_registrationState) = d.(df_registrationState)).

Lemma ready_final s : rtc registration_step RegReady s -> s = RegReady.
Proof. intros H. inversion H as [|? ? ? Hs]; [done|]. inversion Hs. Qed.

Lemma rank_draft d d' :
  status_rank d.(df_status) <= status_rank d'.(df_status) -> d.(df_status) <> DF_DRAFT ->
  d'.(df_status) <> DF_DRAFT.
Proof. by destruct (df_status d), (df_status d'). Qed.

#[export] Instance definition_row_order : RowOrder definition_row df_id df_tenantId.
Proof.
  split; [split|..].
  - intros d. repeat split; first [done | lia].
  - intros d1 d2 d3 (?&?&?&?&?&Hr1&Hs1&Hh1&Hp1&Hx1&Hd1)
      (?&?&?&?&?&Hr2&Hs2&Hh2&Hp2&Hx2&Hd2).
    repeat split; try congruence; try lia.
    + intros Hd. rewrite Hs2, Hs1; [done..|]. by eapply rank_draft.
    + by etrans.
    + intros Hp. rewrite Hp2, Hp1; [done..|]. injection (Hp1 Hp). congruence.
    + intros Hp. rewrite Hx2, Hx1; [done..|]. rewrite Hp in Hh1. by apply ready_final.
    + intros Hd. rewrite Hd2, Hd1; [done| |done]. rewrite Hd in Hr2. by destruct (df_status d2).
  - by intros d d' (?&?&_).
  - by intros d d' (?&?&_).
Qed.

(** Sequencing with the run of the first program at hand. *)
Lemma vrel_bind_run {A B} m R `{!PreOrder R} (p : Prog A) (k : A -> Prog B) w :
  vrel m R w (p w).1 -> (forall w1 a, p w = (w1, inr a) -> vrel m R w1 (k a w1).1) ->
  vrel m R w ((p ≫= k) w).1.
Proof.
  intros Hp Hk. apply vrel_bind; [done|done|]. intros a Ha. destruct (p w) as [w1 r]. simpl in *.
  subst r. by apply Hk.
Qed.

(** ** Tables *)

(** Operations that track a registration keep their identity and state. *)
Definition trackers_kept (d d' : DB) : Prop :=
  forall i o, d.(db_operations) !! i = Some o -> o.(op_type) = CREDENTIAL_DEFINITION_REGISTER ->
  exists o', d'.(db_operations) !! i = Some o' /\ o'.(op_id) = o.(op_id) /\
    o'.(op_tenantId) = o.(op_tenantId) /\ o'.(op_type) = o.(op_type) /\ o'.(op_state) = o.(op_state).

(** What the table guarantees of its rows: keys, the constraints of the schema,
    and that a draft has not been registered. *)
Record definitions_wf (d : DB) : Prop := {
  wf_keyed : table_keyed df_id d.(db_definitions);
  wf_draft i r : d.(db_definitions) !! i = Some r -> r.(df_status) = DF_DRAFT ->
    r.(df_registrationState) = Unverified;
  wf_options i r : d.(db_definitions) !! i = Some r -> options_match r = true;
  wf_names i j r r' : d.(db_definitions) !! i = Some r -> d.(db_definitions) !! j = Some r' ->
    i <> j -> same_active_name r r' = false
}.

Lemma same_active_name_comm r r' : same_active_name r r' = same_active_name r' r.
Proof.
  unfold same_active_name. rewrite (String.eqb_sym (df_tenantId r)), (String.eqb_sym (df_name r)).
  rewrite (bool_decide_ext (df_format r = df_format r') (df_format r' = df_format r)) by done.
  by rewrite (andb_comm (df_isActive r)).
Qed.

(** A write that passes the constraints. *)
Lemma wf_write d i r :
  definitions_wf d -> r.(df_id) = i ->
  (r.(df_status) = DF_DRAFT -> r.(df_registrationState) = Unverified) ->
  options_match r = true -> definition_conflict i r d.(db_definitions) = false ->
  definitions_wf (set_definitions (<[i := r]> d.(db_definitions)) d).
Proof.
  intros [K D O N] Hid Hdr Hop Hc.
  assert (forall j r', j <> i -> d.(db_definitions) !! j = Some r' -> same_active_name r r' = false)
    as Hnew.
  { intros j r' Hj Hr'. destruct (same_active_name r r') eqn:E; [|done].
    rewrite <-Hc. symmetry. apply existsb_exists. exists r'. split.
    - apply list_elem_of_In, elem_of_rows. eauto.
    - rewrite E, (K _ _ Hr'). by rewrite (proj2 (String.eqb_neq j i)). }
  split; simpl.
  - intros j r' [[<- <-]|[? Hr']]%lookup_insert_Some; [done|by apply K].
  - intros j r' [[<- <-]|[? Hr']]%lookup_insert_Some; [done|by eapply D].
  - intros j r' [[<- <-]|[? Hr']]%lookup_insert_Some; [done|by eapply O].
  - intros j j' r1 r2 [[<- <-]|[? H1]]%lookup_insert_Some [[<- <-]|[? H2]]%lookup_insert_Some Hne;
      [done|by eapply Hnew| |by eapply N].
    rewrite same_active_name_comm. by eapply Hnew.
Qed.

Section Contract.
Context (own : string -> Prop).

Definition definitions_evolve (d d' : DB) : Prop :=
  definitions_wf d ->
  table_evolves definition_row df_id df_tenantId own d.(db_definitions) d'.(db_definitions) /\
  trackers_kept d d' /\ definitions_wf d'.

#[export] Instance definitions_evolve_preorder : PreOrder definitions_evolve.
Proof.
  split.
  - intros d ?. split; [reflexivity|]. split; [|done]. intros i o ? _. by exists o.
  - intros d1 d2 d3 H1 H2 K. destruct (H1 K) as (T1 & O1 & K2). destruct (H2 K2) as (T2 & O2 & K3).
    split; [by etrans|]. split; [|done]. intros i o Ho Ht.
    destruct (O1 i o Ho Ht) as (o2 & Ho2 & ?&?&?&?).
    destruct (O2 i o2 Ho2) as (o3 & ? & ?&?&?&?); [congruence|].
    exists o3. repeat split; congruence.
Qed.

Abbreviation R := definitions_evolve.

Lemma wf_same d d' : d'.(db_definitions) = d.(db_definitions) -> definitions_wf d -> definitions_wf d'.
Proof. intros E [K D O N]. split; rewrite E; done. Qed.

(** Programs that touch neither table. *)
Definition registration_tables (d : DB) := (d.(db_definitions), d.(db_operations)).

Lemma evolve_frame {A} m (p : Prog A) : VPres m (frame registration_tables) p -> VPres m R p.
Proof.
  intros Hp w. destruct (Hp w) as [Ho Hf]. split; [done|]. injection Hf as Hd Hop. intros K.
  unfold trackers_kept. rewrite Hd, Hop. split; [reflexivity|]. split; [eauto 10|by eapply wf_same].
Qed.

Lemma row_wf r r' i :
  definition_row r r' -> r.(df_id) = i ->
  (r.(df_status) = DF_DRAFT -> r.(df_registrationState) = Unverified) ->
  r'.(df_id) = i /\ (r'.(df_status) = DF_DRAFT -> r'.(df_registrationState) = Unverified).
Proof.
  intros (-> & _ & _ & _ & _ & Hrank & _ & _ & _ & _ & Hdr) Hid H. split; [done|]. intros Hd'.
  rewrite Hdr by done. apply H. rewrite Hd' in Hrank. by destruct (df_status r).
Qed.

Section View.
Context (m : Mgr).

Lemma write_definition_vrel i r w :
  (definitions_wf (view m w) ->
   cell_evolves definition_row df_id df_tenantId own i ((view m w).(db_definitions) !! i) (Some r) /\
   r.(df_id) = i /\ (r.(df_status) = DF_DRAFT -> r.(df_registrationState) = Unverified)) ->
  vrel m R w (write_definition m i r w).1.
Proof.
  intros H. unfold write_definition, mbind, prog_bind, read. simpl.
  destruct (options_match r) eqn:Eo; [|reflexivity]. simpl.
  destruct (definition_conflict _ _ _) eqn:Ec; [reflexivity|].
  apply vrel_modify. intros K. destruct (H K) as (Hcell & Hid & Hdr).
  split; [by apply table_evolves_insert; [apply _|]|].
  split; [|by apply wf_write]. intros j o ? _. by exists o.
Qed.

Lemma update_definition_vrel i g f w :
  (forall r, (view m w).(db_definitions) !! i = Some r -> g r = true -> r.(df_id) = i ->
     own r.(df_tenantId) /\ definition_row r (f r)) ->
  vrel m R w (update_definition m i g f w).1.
Proof.
  intros H. unfold update_definition. apply vrel_bind; [apply _|reflexivity|]. simpl.
  intros row [= <-]. destruct (db_definitions (view m w) !! i) as [r|] eqn:Er; [|reflexivity].
  destruct (g r) eqn:Eg; [|reflexivity].
  apply vrel_bind; [apply _|reflexivity|]. intros now _.
  apply vrel_bind; [apply _| |intros; reflexivity]. apply write_definition_vrel. intros K.
  pose proof (wf_keyed _ K _ _ Er) as Hid. destruct (H r eq_refl Eg Hid) as [Ho Hr].
  simpl in *. rewrite Er. split; [by split; [exact Hr|right]|].
  apply (row_wf r); [exact Hr|done|by eapply wf_draft].
Qed.

Lemma vpres_definitions_create mk :
  (forall i now, df_id (mk i now) = i /\ own (df_tenantId (mk i now)) /\
     (df_status (mk i now) = DF_DRAFT -> df_registrationState (mk i now) = Unverified)) ->
  VPres m R (definitions_create mk m).
Proof.
  intros H w. unfold definitions_create.
  apply vrel_bind; [apply _|apply vpres_gen_uuid; apply _|]. intros id _.
  apply vrel_bind; [apply _|reflexivity|]. intros us _.
  apply vrel_bind; [apply _|reflexivity|]. simpl. intros b [= <-].
  case_bool_decide as Hfresh; [reflexivity|]. apply eq_None_not_Some in Hfresh.
  apply vrel_bind; [apply _| |intros; reflexivity]. apply write_definition_vrel. intros _.
  rewrite Hfresh. destruct (H id us) as (?&?&?). done.
Qed.

Lemma definitions_save_vrel r w :
  (definitions_wf (view m w) ->
   exists r0, (view m w).(db_definitions) !! r.(df_id) = Some r0 /\ definition_row r0 r /\
     own r0.(df_tenantId)) ->
  vrel m R w (definitions_save m r w).1.
Proof.
  intros H. unfold definitions_save. apply vrel_bind; [apply _|reflexivity|]. simpl.
  intros row [= <-]. destruct (db_definitions (view m w) !! df_id r) as [r0|] eqn:Er.
  - case_decide; [reflexivity|]. apply vrel_bind; [apply _|reflexivity|]. intros now _.
    apply vrel_bind; [apply _| |intros; reflexivity]. apply write_definition_vrel. intros K.
    destruct (H K) as (r' & [= <-] & Hrow & Hown). simpl in *. rewrite Er.
    split; [by split; [|right]|]. apply (row_wf r0); [done| |by eapply wf_draft].
    by apply (wf_keyed _ K).
  - apply vrel_bind; [apply _| |intros; reflexivity]. apply write_definition_vrel. intros K.
    by destruct (H K) as (r' & ? & _).
Qed.

(** A new operation, and its result before anyone has seen it. *)
Lemma write_operation_fresh i o w :
  (view m w).(db_operations) !! i = None -> vrel m R w (write_operation m i o w).1.
Proof.
  intros Hi. unfold write_operation, mbind, prog_bind, read. simpl.
  destruct (operation_conflict _ _ _); [reflexivity|]. apply vrel_modify. intros K.
  split; [reflexivity|]. split; [|by apply (wf_same (view m w))]. intros j o' Ho' _. exists o'. simpl.
  rewrite lookup_insert_ne; [done|congruence].
Qed.

#[export] Instance vpres_createOperation i : VPres m R (createOperation i m).
Proof.
  unfold createOperation. apply vpres_bind; [apply _..|]. intros now.
  apply vpres_bind; [apply _|apply evolve_frame, _|]. intros tn.
  apply vpres_bind; [apply _|apply evolve_frame, _|]. intros x w. unfold operations_insert.
  apply vrel_bind; [apply _|apply vpres_gen_uuid; apply _|]. intros id _.
  apply vrel_bind; [apply _|reflexivity|]. intros us _.
  apply vrel_bind; [apply _|reflexivity|]. simpl. intros b [= <-].
  case_bool_decide as Hfresh; [reflexivity|].
  apply vrel_bind; [apply _| |intros; reflexivity]. apply write_operation_fresh.
  by apply eq_None_not_Some.
Qed.

Lemma operations_save_vrel' o r w :
  (view m w).(db_operations) !! o.(op_id) = Some r ->
  o.(op_id) = r.(op_id) -> o.(op_tenantId) = r.(op_tenantId) -> o.(op_type) = r.(op_type) ->
  o.(op_state) = r.(op_state) -> vrel m R w (operations_save m o w).1.
Proof.
  intros Hr ????. unfold operations_save. apply vrel_bind; [apply _|reflexivity|]. simpl.
  intros row [= <-]. rewrite Hr. case_decide; [reflexivity|].
  apply vrel_bind; [apply _|reflexivity|]. intros now _.
  apply vrel_bind; [apply _| |intros; reflexivity].
  unfold write_operation, mbind, prog_bind, read. simpl.
  destruct (operation_conflict _ _ _); [reflexivity|]. apply vrel_modify. intros K.
  split; [reflexivity|]. split; [|by apply (wf_same (view m w))]. intros j o' Ho' Ht. simpl.
  destruct (decide (j = op_id o)) as [->|Hj].
  - rewrite lookup_insert_eq. simplify_eq. by eexists.
  - rewrite lookup_insert_ne by done. by exists o'.
Qed.
End View.

(** ** The AnonCreds handler's part of the service *)

Section Requests.
Context (registry : Registry) (validators : FormatValidatorRegistry).
Abbreviation handler := (anoncreds_handler registry validators).

(** What starts a registration: a failed one again, or an active local draft. *)
Definition startable (d : CredentialDefinition) (status : CredentialDefinitionStatus)
    (registration : option DefinitionRegistration) : Prop :=
  (d.(df_registrationState) = RegFailed \/ d.(df_registrationState) = Unverified) /\
  status_rank d.(df_status) <= status_rank status /\ status <> DF_DRAFT.

Lemma start_row d status registration op :
  startable d status registration ->
  definition_row d (df_register d.(df_externalId) RegPending (Some op) registration status true d).
Proof.
  intros (Hs & Hr & Hn). repeat split; try done; simpl.
  - destruct Hs as [-> | ->]; apply rtc_once; constructor.
  - intros Hp. destruct Hs; congruence.
Qed.

Lemma startExisting_vrel d t dto status registration w :
  definitions_wf w.(working) ->
  w.(working).(db_definitions) !! d.(df_id) = Some d -> own d.(df_tenantId) ->
  startable d status registration ->
  vrel Tx R w (startExistingRegistration handler d t dto status registration w).1.
Proof.
  intros K Hd Hown Hst. unfold startExistingRegistration, createRegistrationOperation. cbv zeta.
  apply vrel_bind_run; [apply _|apply vpres_createOperation|]. intros w1 o E1.
  pose proof (frame_run db_definitions Tx _ _ _ _ E1) as Hd1.
  apply createOperation_row in E1 as (x & id & -> & Hops & _). simpl in Hd1, Hops.
  apply vrel_bind_run; [apply _| |].
  { apply update_definition_vrel. simpl. intros r Hr _ _. rewrite Hd1, Hd in Hr. simplify_eq.
    split; [done|by apply start_row]. }
  intros w2 b E2. pose proof (frame_run db_operations Tx _ _ _ _ E2) as Ho2. simpl in Ho2.
  apply vrel_bind; [apply _| |].
  { eapply operations_save_vrel'; [simpl; rewrite Ho2, Hops; apply lookup_insert_eq|done..]. }
  intros o2 _. apply vrel_bind_run; [apply _|apply evolve_frame, _|]. intros w3 reg E3.
  unfold anoncreds_register in E3. apply bind_inr in E3 as (w4 & u & _ & E3). injection E3 as _ <-.
  apply vrel_bind; [apply _|reflexivity|intros; reflexivity].
Qed.

Lemma continueExisting_vrel d t dto prepared options w :
  definitions_wf w.(working) ->
  w.(working).(db_definitions) !! d.(df_id) = Some d -> own d.(df_tenantId) ->
  vrel Tx R w (continueExisting handler d t dto prepared options w).1.
Proof.
  intros K Hd Hown. unfold continueExisting. cbv zeta.
  destruct (_ && _); [reflexivity|]. destruct (negb (df_isActive d) && _); [reflexivity|].
  destruct (df_isActive d && bool_decide (df_status d = DF_DRAFT) &&
            bool_decide (df_registrationState d = Unverified)) eqn:Edraft.
  - apply andb_prop in Edraft as [[_ Es%bool_decide_eq_true]%andb_prop Er%bool_decide_eq_true].
    apply vrel_bind; [apply _|reflexivity|]. intros [] _; [reflexivity|].
    apply startExisting_vrel; [done..|]. split; [by right|]. by rewrite Es.
  - apply vrel_bind; [apply _|reflexivity|]. intros [] _; [reflexivity|].
    assert (forall d t, VPres Tx R (registration_operation d t)) as Hop.
    { intros. unfold registration_operation. case_match; [|apply _].
      unfold operations_findByIdForTenant. apply _. }
    destruct (df_registrationState d) eqn:Er; [reflexivity|..].
    + apply vrel_bind; [apply _|apply Hop|]. intros [o|] _; [|reflexivity].
      destruct (_ || _); [reflexivity|]. apply vrel_bind; [apply _| |intros; reflexivity].
      apply evolve_frame. apply _.
    + apply vrel_bind; [apply _|apply Hop|]. intros [o|] _; [|reflexivity].
      destruct (_ || _); reflexivity.
    + apply startExisting_vrel; [done..|]. split; [by left|]. split; [lia|].
      intros Es. pose proof (wf_draft _ K _ _ Hd Es). congruence.
Qed.

Lemma first_by_elem {A} (before : A -> A -> bool) l x : first_by before l = Some x -> x ∈ l.
Proof.
  revert x. induction l as [|y l IH]; intros x; simpl; [done|].
  destruct (first_by before l) as [z|]; [|intros [= ->]; by left].
  destruct (before z y); intros [= <-]; [right; by apply IH|by left].
Qed.

Lemma find_existing_run t name f m w w' d :
  definitions_wf (view m w) ->
  definitions_findExistingByTenantAndNameAndFormat t name f m w = (w', inr (Some d)) ->
  w' = w /\ (view m w).(db_definitions) !! d.(df_id) = Some d /\ named t name f d = true.
Proof.
  intros K [= <- H%first_by_elem%elem_of_select]. destruct H as [Hn [i Hi]].
  by rewrite (wf_keyed _ K _ _ Hi).
Qed.

Lemma named_tenant t name f d : named t name f d = true -> d.(df_tenantId) = t.
Proof. by intros [[H%String.eqb_eq _]%andb_prop _]%andb_prop. Qed.

Lemma definitions_create_run mk m w w' d :
  definitions_create mk m w = (w', inr d) -> exists id now, d = mk id now /\
    (view m w').(db_definitions) = <[id := d]> (view m w).(db_definitions) /\
    (view m w').(db_operations) = (view m w).(db_operations).
Proof.
  intros E. pose proof (frame_run db_operations m _ _ _ _ E) as Hops. revert E.
  unfold definitions_create, write_definition. intros E. run_inv E. injection E0 as <- <-.
  run_inv E. injection E0 as <- <-. run_inv E. injection E0 as <- <-. case_bool_decide; [done|].
  run_inv E. injection E as <- <-. run_inv E0. injection E as <- <-. destruct (negb _); [done|].
  destruct (definition_conflict _ _ _); [done|]. injection E0 as <- _.
  eexists _, _. split; [done|]. split; [by destruct m|done].
Qed.

Lemma createOrContinue_vrel t dto prepared options w :
  own t -> definitions_wf w.(working) ->
  vrel Tx R w (createOrContinue handler t dto prepared options w).1.
Proof.
  intros Ht K. unfold createOrContinue. apply vrel_bind_run; [apply _|reflexivity|].
  intros w1 [d|] E.
  { apply find_existing_run in E as (-> & Hd & Hn%named_tenant); [|done].
    apply continueExisting_vrel; [done..|]. by rewrite Hn. }
  injection E as <- _. unfold createRegistrationOperation.
  apply vrel_bind_run; [apply _|apply vpres_createOperation|]. intros w1 o E1.
  apply createOperation_row in E1 as (x & id & -> & Hops & _). simpl in Hops.
  apply vrel_bind_run; [apply _|by apply vpres_definitions_create|]. intros w2 d E2.
  apply definitions_create_run in E2 as (id' & now & -> & _ & Ho2). simpl in Ho2.
  apply vrel_bind; [apply _| |].
  { eapply operations_save_vrel'; [simpl; rewrite Ho2, Hops; apply lookup_insert_eq|done..]. }
  intros o2 _. apply vrel_bind_run; [apply _|apply evolve_frame, _|]. intros w3 reg E3.
  unfold anoncreds_register in E3. apply bind_inr in E3 as (w4 & u & _ & E3). injection E3 as _ <-.
  apply vrel_bind; [apply _|reflexivity|intros; reflexivity].
Qed.

(** ** Whole requests *)

(** The committed tables move along the contract, whatever the program returns. *)
Definition honours {A} (p : Prog A) : Prop := forall w, R w.(committed) (p w).1.(committed).

Lemma honours_pres {A} (p : Prog A) : Pres R p -> honours p.
Proof. intros Hp w. by destruct (Hp w). Qed.
Lemma honours_statement {A} (p : Prog A) : VPres NoTx R p -> honours p.
Proof. intros Hp w. by destruct (Hp w). Qed.
Lemma honours_read {A} (p : Prog A) `{!ReadOnly p} : honours p.
Proof. intros w. rewrite read_only. reflexivity. Qed.
Lemma honours_rotates {A} t (p : Prog A) `{!Rotates t p} : honours p.
Proof.
  apply honours_statement, evolve_frame. intros w. by destruct (rotates_run (p:=p) w) as (T & n & _ & ->).
Qed.
Lemma honours_bind {A B} (p : Prog A) (k : A -> Prog B) :
  honours p -> (forall a, honours (k a)) -> honours (p ≫= k).
Proof.
  intros Hp Hk w. specialize (Hp w). unfold mbind, prog_bind.
  destruct (p w) as [w' [e|a]]; simpl in *; [done|]. etrans; [exact Hp|apply Hk].
Qed.
Lemma honours_catch {A} (p : Prog A) h :
  honours p -> (forall e, honours (h e)) -> honours (catch p h).
Proof.
  intros Hp Hh w. specialize (Hp w). unfold catch.
  destruct (p w) as [w' [e|a]]; simpl in *; [|done]. etrans; [exact Hp|apply Hh].
Qed.
Lemma honours_transaction {A} (p : Prog A) :
  (forall w, definitions_wf w.(working) -> vrel Tx R w (p w).1) ->
  (forall w, (p w).1.(committed) = w.(committed)) -> honours (transaction p).
Proof.
  intros Hp Ho w K. unfold transaction. specialize (Hp (begin_tx w) K). specialize (Ho (begin_tx w)).
  fold (begin_tx w). destruct (p (begin_tx w)) as [w1 [e|a]]; simpl in *.
  - rewrite Ho. by apply definitions_evolve_preorder.
  - destruct Hp as [_ H]. by apply H.
Qed.
Lemma honours_audit t a rt ri : honours (audit_emit NoTx t a rt ri).
Proof. apply honours_statement, evolve_frame, _. Qed.

(** A body that only uses its transaction leaves the committed tables. *)
Lemma tx_only {A} (p : Prog A) : VPres Tx anything p -> forall w, (p w).1.(committed) = w.(committed).
Proof. intros Hp w. by destruct (Hp w). Qed.

#[export] Instance anything_continue d t dto prepared options :
  VPres Tx anything (continueExisting handler d t dto prepared options).
Proof.
  unfold continueExisting, startExistingRegistration, createRegistrationOperation.
  unfold completeImmediateRegistration, registration_operation, operations_findByIdForTenant.
  simpl. unfold anoncreds_register. cbv zeta. solve_frame.
Qed.

#[export] Instance anything_createOrContinue t dto prepared options :
  VPres Tx anything (createOrContinue handler t dto prepared options).
Proof.
  unfold createOrContinue, createRegistrationOperation, completeImmediateRegistration.
  unfold definitions_findExistingByTenantAndNameAndFormat. simpl. unfold anoncreds_register.
  cbv zeta. solve_frame.
Qed.

Lemma honours_prepare t dto :
  (forall ty a, registry.(rg_adapters) ty = Some a -> AdapterLaws R a) ->
  honours (anoncreds_prepare registry validators t dto).
Proof.
  intros laws. unfold anoncreds_prepare.
  apply honours_bind; [apply honours_read, _|]. intros _.
  apply honours_bind; [apply honours_read, _|]. intros _ w. unfold mbind, prog_bind.
  set (p := resolve _ _ _ _). pose proof (honours_rotates t p w) as Hp. destruct (p w) as [w1 [e|r]] eqn:E; [done|].
  etrans; [exact Hp|]. simpl. apply resolve_registered in E as [ty Hty]. apply laws in Hty. clear Hp.
  destruct (ad_anonCredsRegistration (rs_adapter r)) as [port|] eqn:Ep; [|reflexivity].
  pose proof (al_registration (a:=rs_adapter r) port Ep) as HL. clear Ep.
  apply (honours_bind (pt_resolveIssuer _ _ _)); [apply honours_pres, _|]. intros issuer.
  apply honours_bind; [|intros []; apply honours_read, _].
  destruct (truthy_str _); [|apply honours_read, _].
  apply honours_bind; [apply honours_pres, _|]. intros sc. apply honours_read. solve_read_only.
Qed.

Lemma honours_create t dto auth :
  own t -> (forall ty a, registry.(rg_adapters) ty = Some a -> AdapterLaws R a) ->
  honours (definition_create (registered_handlers registry validators) t dto auth).
Proof.
  intros Ht laws. unfold definition_create. apply honours_bind; [apply honours_read, _|]. intros _.
  destruct (find_handler _ _) as [h|] eqn:Eh; [|apply honours_read, _].
  assert (h = handler) as ->.
  { unfold find_handler, registered_handlers in Eh. simpl in Eh. repeat case_match; by simplify_eq. }
  apply honours_bind; [apply honours_read, _|]. intros options.
  apply honours_bind; [apply honours_read, _|]. intros schema.
  apply honours_bind.
  { apply honours_catch; [by apply honours_prepare|]. intros; apply honours_read, _. }
  intros prepared. apply honours_bind.
  - apply honours_catch.
    + apply honours_transaction; [intros; by apply createOrContinue_vrel|apply tx_only, _].
    + intros e. destruct (negb _); [apply honours_read, _|]. apply honours_transaction.
      * intros w K. apply vrel_bind_run; [apply _|reflexivity|]. intros w1 [d|] E; [|reflexivity].
        apply find_existing_run in E as (-> & Hd & Hn%named_tenant); [|done].
        apply continueExisting_vrel; [done..|]. by rewrite Hn.
      * apply tx_only. unfold definitions_findExistingByTenantAndNameAndFormat. solve_frame.
  - intros o. apply honours_bind; [|intros; apply honours_read, _].
    destruct (ro_created o); [apply honours_audit|apply honours_read, _].
Qed.

Lemma honours_createDraft t dto auth :
  own t -> honours (definition_createDraft (registered_handlers registry validators) t dto auth).
Proof.
  intros Ht. unfold definition_createDraft, definitions_findByTenantAndNameAndFormat.
  unfold connectors_findActiveByTenantAndId.
  apply honours_bind; [apply honours_read, _|]. intros _.
  destruct (find_handler _ _) as [h|]; [|apply honours_read, _].
  destruct (gs_definition _); [|apply honours_read, _]. destruct (truthy_str _); [|apply honours_read, _].
  apply honours_bind; [apply honours_read, _|]. intros [e|]; [apply honours_read, _|].
  apply honours_bind; [apply honours_read, _|]. intros cn.
  destruct (cn ≫= _) as [[c ty]|]; [|apply honours_read, _].
  apply honours_bind; [apply honours_read, _|]. intros options.
  apply honours_bind.
  - apply honours_catch; [|intros; apply honours_read, _]. apply honours_statement.
    by apply vpres_definitions_create.
  - intros d. apply honours_bind; [apply honours_audit|]. intros; apply honours_read, _.
Qed.
End Requests.

Lemma apply_update_run t dto auth nf d w w' d' :
  (d.(df_status) = DF_DRAFT -> d.(df_registrationState) = Unverified) ->
  apply_update t dto auth nf d w = (w', inr d') -> definition_row d d'.
Proof.
  intros Hdr. unfold apply_update. cbv zeta. intros E.
  apply bind_inr in E as (w1 & u & _ & E).
  destruct (bool_decide (ud_status dto = Some DF_DRAFT) && _) eqn:E1; [done|].
  destruct (bool_decide (ud_status dto = Some DF_PUBLISHED) && _) eqn:E2; [done|].
  destruct ((bool_decide (is_Some (ud_schemaDefinition dto)) ||
             bool_decide (is_Some (ud_connectorId dto))) &&
            negb (bool_decide (df_status d = DF_DRAFT))) eqn:E3; [done|].
  apply bind_inr in E as (w2 & u2 & _ & E). apply bind_inr in E as (w3 & [schema version] & Es & E).
  apply bind_inr in E as (w4 & [connector type] & Ec & E). injection E as _ <-.
  assert (d.(df_status) <> DF_DRAFT -> settings (df_edit (default (df_name d) (ud_name dto)) schema
    connector type version (default (df_status d) (ud_status dto))
    (default (df_metadata d) (ud_metadata dto)) d) = settings d) as Hset.
  { intros Hn. rewrite (bool_decide_eq_false_2 _ Hn), andb_true_r in E3.
    destruct (ud_schemaDefinition dto); [done|]. destruct (ud_connectorId dto); [done|].
    injection Es as _ <- <-. injection Ec as _ <- <-. done. }
  assert (status_rank (df_status d) <= status_rank (default (df_status d) (ud_status dto)) /\
    (default (df_status d) (ud_status dto) = DF_DRAFT -> df_status d = DF_DRAFT)) as [Hrank Hback].
  { destruct (ud_status dto) as [[]|]; simpl in *.
    - apply negb_false_iff, bool_decide_eq_true in E1. by rewrite E1.
    - apply negb_false_iff, bool_decide_eq_true in E2. by rewrite E2.
    - by destruct (df_status d).
    - split; [lia|done]. }
  repeat split; try done. simpl. intros Hp.
  assert (df_status d <> DF_DRAFT) as Hn by (intros Hd; rewrite Hdr in Hp; done).
  injection (Hset Hn) as _ Hc _ _. unfold registration_columns. simpl. by rewrite Hc.
Qed.

#[export] Instance read_only_apply_update t dto auth nf d : ReadOnly (apply_update t dto auth nf d).
Proof.
  unfold apply_update, definitions_findByTenantAndNameAndFormat, connectors_findActiveByTenantAndId.
  cbv zeta. solve_read_only.
Qed.

Lemma find_active_Some t i d r :
  find_active t i d = Some r -> d.(db_definitions) !! i = Some r /\ r.(df_tenantId) = t.
Proof.
  unfold find_active, of_tenant. intros H. repeat (case_match; simplify_eq). split; [done|].
  match goal with H : _ && _ = true |- _ => apply andb_prop in H as [H _]; by apply String.eqb_eq end.
Qed.

Lemma honours_update t id dto auth : own t -> honours (definition_update t id dto auth).
Proof.
  intros Ht. unfold definition_update, definitions_updateWithLock. cbv zeta. apply honours_bind.
  - apply honours_catch; [|intros; apply honours_read, _]. apply honours_transaction.
    + intros w K. apply vrel_bind_run; [apply _|reflexivity|]. intros w1 row [= <- Hrow].
      destruct row as [d|]; [|reflexivity]. apply find_active_Some in Hrow as [Hd Htn].
      apply vrel_bind_run; [apply _|rewrite read_only; reflexivity|]. intros w1 d' E.
      pose proof (read_only_run _ _ _ _ E) as ->.
      apply apply_update_run in E; [|by eapply wf_draft].
      apply vrel_bind; [apply _| |intros; reflexivity]. apply definitions_save_vrel. intros _.
      exists d. pose proof (wf_keyed _ K _ _ Hd) as Hid.
      destruct E as (Hid' & E). rewrite Hid', Hid, Htn. done.
    + apply tx_only. apply vpres_bind; [apply _..|]. intros [d|]; [|apply _].
      apply vpres_bind; [apply _| |].
      * intros w. rewrite read_only. reflexivity.
      * intros d'. apply vpres_bind; [apply _..|]. intros; apply _.
  - intros [d|]; [|apply honours_read, _]. apply honours_bind; [apply honours_audit|].
    intros; apply honours_read, _.
Qed.

#[export] Instance read_only_findById t id auth : ReadOnly (definition_findById t id auth).
Proof. unfold definition_findById, definitions_findById. solve_read_only. Qed.

Lemma definition_findById_run t id auth w w' d :
  definition_findById t id auth w = (w', inr d) ->
  w' = w /\ w.(committed).(db_definitions) !! id = Some d /\ d.(df_tenantId) = t /\ d.(df_isActive) = true.
Proof.
  unfold definition_findById, definitions_findById. intros E.
  apply bind_inr in E as (w1 & row & E1 & E). injection E1 as <- <-. cbn [view] in E.
  destruct (db_definitions (committed w) !! id) as [r|] eqn:Er; [|done].
  destruct (df_isActive r) eqn:Ea; [|done].
  destruct (String.eqb_spec (df_tenantId r) t); [|done]. simpl in E.
  apply bind_inr in E as (w1 & u & E1 & E). injection E1 as <- _. injection E as <- <-. done.
Qed.

Lemma honours_delete t id auth : own t -> honours (definition_delete t id auth).
Proof.
  intros Ht w. unfold definition_delete, mbind at 1, prog_bind at 1.
  destruct (definition_findById t id auth w) as [w1 [e|d]] eqn:E;
    pose proof (read_only_run _ _ _ _ E) as ->; [reflexivity|].
  apply definition_findById_run in E as (_ & Hd & Htn & _).
  assert (vrel NoTx R w (definitions_deactivate id w).1) as [_ H1].
  { unfold definitions_deactivate. apply vrel_bind; [apply _| |intros; reflexivity].
    apply update_definition_vrel. simpl. intros r Hr _ _. simplify_eq. split; [done|].
    repeat split; first [done | lia]. }
  unfold mbind, prog_bind. destruct (definitions_deactivate id w) as [w1 [e|u]]; simpl in *; [done|].
  etrans; [exact H1|apply honours_audit].
Qed.
End Contract.

(** The requests on credential definitions, as the controller makes them. *)
Inductive DefinitionRequest :=
| CreateRequest (dto : CreateCredentialDefinitionDto)
| DraftRequest (dto : CreateCredentialDefinitionDto)
| UpdateRequest (id : string) (dto : UpdateCredentialDefinitionDto)
| DeleteRequest (id : string).

Definition run_request (registry : Registry) (validators : FormatValidatorRegistry) (t : string)
    (auth : option AuthContext) (q : DefinitionRequest) : Prog unit :=
  match q with
  | CreateRequest dto =>
      _ ← definition_create (registered_handlers registry validators) t dto auth; mret tt
  | DraftRequest dto =>
      _ ← definition_createDraft (registered_handlers registry validators) t dto auth; mret tt
  | UpdateRequest id dto => _ ← definition_update t id dto auth; mret tt
  | DeleteRequest id => definition_delete t id auth
  end.

Lemma honours_request own registry validators t auth q :
  own t -> (forall ty a, registry.(rg_adapters) ty = Some a -> AdapterLaws (definitions_evolve own) a) ->
  honours own (run_request registry validators t auth q).
Proof.
  intros Ht laws. assert (forall A (p : Prog A), honours own p -> honours own (_ ← p; mret tt)) as Hdrop.
  { intros A p Hp. apply honours_bind; [done|]. intros. apply honours_read, _. }
  destruct q; simpl; [apply Hdrop..|].
  - by apply honours_create.
  - by apply honours_createDraft.
  - by apply honours_update.
  - by apply honours_delete.
Qed.

(** ** A table with one pending registration *)

Lemma sample_registry_evolve own ty a :
  sample_registry.(rg_adapters) ty = Some a -> AdapterLaws (definitions_evolve own) a.
Proof. simpl. intros. case_decide; simplify_eq. apply _. Qed.

Lemma definitions_wf_empty d : d.(db_definitions) = ∅ -> definitions_wf d.
Proof.
  intros E. split; unfold table_keyed; rewrite E; intros *; by rewrite lookup_empty.
Qed.

Lemma registration_db_wf : definitions_wf registration_db.
Proof.
  split; simpl.
  - intros i r [<- <-]%lookup_singleton_Some. reflexivity.
  - intros i r [<- <-]%lookup_singleton_Some. by simpl.
  - intros i r [<- <-]%lookup_singleton_Some. reflexivity.
  - intros i j r r' [<- <-]%lookup_singleton_Some [<- <-]%lookup_singleton_Some. done.
Qed.

(** An edit of the pending definition's name. *)
Definition rename_request : DefinitionRequest :=
  UpdateRequest "df" (mkUpdateDefinition (Some "Renamed") None None None None).

(** C9: credential definitions only move forward.  Whatever a request to create,
    draft, update or delete a definition does and however it ends, no row
    disappears and every row keeps its identity, format and options; the status
    never goes back; schema, connector, connector type and version are frozen
    once the draft stage is left (name and metadata may still be edited); a pending registration is left to the worker and a ready one
    stays ready under its identifier; rows of other tenants are untouched; and
    the operations that track registrations keep their state.  Requests that
    keep the same contract may commit while the agent is asked. *)
Theorem definitions_forward_only registry validators t auth q w :
  let own := fun x => x = t in
  definitions_wf w.(committed) ->
  (forall ty a, registry.(rg_adapters) ty = Some a -> AdapterLaws (definitions_evolve own) a) ->
  let d' := (run_request registry validators t auth q w).1.(committed) in
  table_evolves definition_row df_id df_tenantId own w.(committed).(db_definitions) d'.(db_definitions) /\
  trackers_kept w.(committed) d'.
Proof.
  intros own K laws d'. destruct (honours_request own registry validators t auth q eq_refl laws w K)
    as (? & ? & _). done.
Qed.

Lemma definitions_forward_only_witness :
  let w := world_of registration_db 0 in
  let d' := (run_request sample_registry [] "t" (Some sample_auth) rename_request w).1.(committed) in
  table_evolves definition_row df_id df_tenantId (fun x => x = "t")
    registration_db.(db_definitions) d'.(db_definitions) /\
  df_name <$> d'.(db_definitions) !! "df" = Some "Renamed".
Proof.
  split.
  - apply (definitions_forward_only sample_registry [] "t" (Some sample_auth) rename_request
             (world_of registration_db 0) registration_db_wf (sample_registry_evolve _)).
  - vm_compute. reflexivity.
Defined.

(** C34: the definition table stays well-formed.  Every request leaves rows stored
    under their id, active names unique per tenant and format, options that
    agree with the format, and drafts that were never registered, so a draft
    can always still be edited or published. *)
Theorem definitions_well_formed registry validators t auth q w :
  definitions_wf w.(committed) ->
  (forall ty a, registry.(rg_adapters) ty = Some a ->
     AdapterLaws (definitions_evolve (fun _ => True)) a) ->
  definitions_wf (run_request registry validators t auth q w).1.(committed).
Proof. intros K laws. by apply (honours_request (fun _ => True) registry validators t auth q I laws w K). Qed.

Lemma definitions_well_formed_witness :
  definitions_wf (run_request sample_registry [] "t" (Some sample_auth) rename_request
                    (world_of registration_db 0)).1.(committed).
Proof.
  apply (definitions_well_formed sample_registry [] "t" (Some sample_auth) rename_request
           (world_of registration_db 0) registration_db_wf (sample_registry_evolve _)).
Defined.

(** The contract implies what the registration worker relies on. *)
Lemma evolve_undisturbed own did oid d d' :
  definitions_wf d -> definitions_evolve own d d' -> undisturbed did oid d d'.
Proof.
  intros K H. destruct (H K) as (T & O & _). split.
  - intros r Hr Hp. specialize (T did). unfold cell_evolves in T. rewrite Hr in T.
    destruct (db_definitions d' !! did) as [r'|]; [|done].
    destruct T as [(?&?&?&?&?&_&_&_&Hcols&_) _]. injection (Hcols Hp). intros. exists r'. by repeat split.
  - intros o Ho Ht. destruct (O oid o Ho Ht) as (o' & ?&?&?&?&?). by exists o'.
Qed.

(** Requests do not disturb a registration in progress.  While a registration
    is pending, no create, draft, update or delete request of any tenant, for
    this definition or another, changes the columns its worker works on or the
    state of its operation; the worker picks it up where it left it. *)
Lemma requests_leave_registrations registry validators t auth q did oid t' conn w :
  definitions_wf w.(committed) ->
  (forall ty a, registry.(rg_adapters) ty = Some a ->
     AdapterLaws (definitions_evolve (fun _ => True)) a) ->
  Held t' did oid conn w.(committed) ->
  Held t' did oid conn (run_request registry validators t auth q w).1.(committed).
Proof.
  intros K laws. apply Held_undisturbed.
  eapply (evolve_undisturbed (fun _ => True)); [done|]. by apply honours_request.
Qed.

(** * What a request to register a credential definition answers with

    [definition_create] answers with an operation.  Whichever way it got there
    (a new definition, a draft or a failed registration started again, a replay
    of a pending or of a ready one, directly or after losing the race for the
    name), the definition of that tenant, name and format is tracked by that
    operation, and a pending one has its job. *)

Local Open Scope Z_scope.

Section Tracking.
Context (registry : Registry) (validators : list FormatValidator).
Context (t name : string) (options : list (string * json)).
Let handler := anoncreds_handler registry validators.

(** The definition is registered under the returned operation: pending, with a
    job for the worker, or ready. *)
Definition tracked (o : Operation) (d : DB) : Prop :=
  exists r oid o', d.(db_definitions) !! r.(df_id) = Some r /\
    (r.(df_tenantId) = t /\ r.(df_name) = name /\ r.(df_format) = ANONCREDS) /\
    r.(df_isActive) = true /\
    (r.(df_options) = options \/ deep_equal (JObj r.(df_options)) (JObj options) = true) /\
    r.(df_registrationOperationId) = Some oid /\
    d.(db_operations) !! oid = Some o' /\ o'.(op_id) = o.(op_id) /\ o'.(op_state) = o.(op_state) /\
    ((r.(df_registrationState) = RegPending /\ o.(op_state) <> FAILED /\
      exists j, j ∈ d.(db_jobs) /\ singleton_key j = Some r.(df_id)) \/
     (r.(df_registrationState) = RegReady /\ o.(op_state) = COMPLETED)).

Lemma send_keyed_queued m j w w' k :
  send_keyed m j w = (w', inr tt) -> singleton_key j = Some k ->
  exists j', j' ∈ (view m w').(db_jobs) /\ singleton_key j' = Some k.
Proof.
  intros E Hk. apply send_keyed_run in E as [_ [->|(_ & _ & j' & Hj & Hs)]].
  - exists j. split; [apply elem_of_app; right; by left|done].
  - exists j'. split; [done|congruence].
Qed.

Lemma operations_save_same m o w w' o' :
  operations_save m o w = (w', inr o') -> o'.(op_id) = o.(op_id) /\ o'.(op_state) = o.(op_state).
Proof.
  unfold operations_save. intros E. apply bind_inr in E as (w1 & row & _ & E). destruct row as [r|].
  - case_decide; [by injection E as _ <-|]. apply bind_inr in E as (w2 & now & _ & E).
    apply bind_inr in E as (w3 & u & _ & E). by injection E as _ <-.
  - apply bind_inr in E as (w3 & u & _ & E). by injection E as _ <-.
Qed.

(** A row that identifies the registration and points at operation [oid]. *)
Definition started (oid : string) (r : CredentialDefinition) : Prop :=
  (r.(df_tenantId) = t /\ r.(df_name) = name /\ r.(df_format) = ANONCREDS) /\
  r.(df_isActive) = true /\
  (r.(df_options) = options \/ deep_equal (JObj r.(df_options)) (JObj options) = true) /\
  r.(df_registrationOperationId) = Some oid /\ r.(df_registrationState) = RegPending.

Lemma register_run d w w' reg :
  anoncreds_register d w = (w', inr reg) -> reg = d /\
  w'.(working).(db_definitions) = w.(working).(db_definitions) /\
  w'.(working).(db_operations) = w.(working).(db_operations) /\
  exists j, j ∈ w'.(working).(db_jobs) /\ singleton_key j = Some d.(df_id).
Proof.
  unfold anoncreds_register. intros E. apply bind_inr in E as (w1 & [] & E & E1).
  injection E1 as <- <-. split; [done|].
  pose proof (frame_run db_definitions Tx _ _ _ _ E). pose proof (frame_run db_operations Tx _ _ _ _ E).
  split; [done|]. split; [done|]. by eapply (send_keyed_queued Tx).
Qed.

(** The end of a start: the operation's result is stored and the job is sent. *)
Lemma start_tracked did d o r b w w' out :
  did = d.(df_id) -> w.(working).(db_definitions) !! d.(df_id) = Some r -> r.(df_id) = d.(df_id) ->
  d.(df_registrationState) = RegPending -> o.(op_state) = PENDING -> started o.(op_id) r ->
  (o ← operations_save Tx (op_set_result (definition_link did) o);
   reg ← handler.(fh_register) d;
   o ← completeImmediateRegistration reg o t;
   mret (mkOutcome reg o b)) w = (w', inr out) ->
  tracked out.(ro_operation) w'.(working).
Proof.
  intros -> Hr Hid Hs Ho (Hn & Ha & Hopt & Hop & Hp) E. apply bind_inr in E as (w1 & o2 & E1 & E).
  apply bind_inr in E as (w2 & reg & E2 & E). apply bind_inr in E as (w3 & o3 & E3 & E).
  injection E as <- <-. cbn [ro_operation].
  pose proof (frame_run db_definitions Tx _ _ _ _ E1) as Hd1. simpl in Hd1.
  pose proof (operations_save_same _ _ _ _ _ E1) as [Hoid Host]. simpl in Hoid, Host.
  apply operations_save_run in E1 as (u & Hu & _). simpl in Hu.
  apply register_run in E2 as (-> & Hd2 & Ho2 & Hj).
  unfold completeImmediateRegistration in E3. rewrite Hs in E3. injection E3 as <- <-.
  exists r, o.(op_id), (op_set_updatedAt u (op_set_result (definition_link d.(df_id)) o)).
  rewrite Hd2, Hd1, Ho2, Hoid, Host, Hid, Ho.
  split; [done|]. split; [done|]. split; [done|]. split; [done|]. split; [done|].
  split; [done|]. split; [done|]. split; [done|]. by left.
Qed.

Lemma startExisting_tracked d dto status registration w w' out :
  d.(df_tenantId) = t -> d.(df_name) = name -> d.(df_format) = ANONCREDS ->
  deep_equal (JObj d.(df_options)) (JObj options) = true ->
  w.(working).(db_definitions) !! d.(df_id) = Some d ->
  startExistingRegistration handler d t dto status registration w = (w', inr out) ->
  tracked out.(ro_operation) w'.(working).
Proof.
  intros Ht Hn Hf Heq Hd E. unfold startExistingRegistration, createRegistrationOperation in E.
  cbv zeta in E. apply bind_inr in E as (w1 & o & E1 & E).
  pose proof (frame_run db_definitions Tx _ _ _ _ E1) as Hd1. simpl in Hd1.
  apply createOperation_row in E1 as (x & id & -> & _).
  apply bind_inr in E as (w2 & ok & E2 & E). apply update_definition_run in E2. simpl in E2.
  rewrite Hd1, Hd in E2. unfold of_tenant in E2. rewrite Ht, String.eqb_refl in E2.
  destruct E2 as (_ & now & Hd2).
  eapply start_tracked in E; [exact E|done|simpl; rewrite Hd2; apply lookup_insert_eq|done..|].
  repeat split; by auto.
Qed.

Lemma settings_same d dto prepared b :
  settings_differ d dto prepared options b = inr false ->
  deep_equal (JObj d.(df_options)) (JObj options) = true.
Proof.
  unfold settings_differ. intros E. repeat case_match; simplify_eq;
    match goal with H : _ || _ = false |- _ => apply orb_false_iff in H as [H%negb_false_iff _] end;
    done.
Qed.

Lemma registration_operation_run d w w' o :
  registration_operation d t w = (w', inr (Some o)) ->
  w' = w /\ exists oid, d.(df_registrationOperationId) = Some oid /\
    w.(working).(db_operations) !! oid = Some o.
Proof.
  unfold registration_operation, operations_findByIdForTenant, read.
  destruct (df_registrationOperationId d) as [oid|]; [|done]. destruct (truthy_str _); [|done].
  simpl. intros E. injection E as <- E. split; [done|]. exists oid. split; [done|].
  destruct (_ !! oid) as [o'|]; [|done]. by destruct (_ =? _)%string; simplify_eq.
Qed.

Lemma continue_tracked d dto prepared w w' out :
  named t name ANONCREDS d = true -> w.(working).(db_definitions) !! d.(df_id) = Some d ->
  continueExisting handler d t dto prepared options w = (w', inr out) ->
  tracked out.(ro_operation) w'.(working).
Proof.
  unfold named, of_tenant.
  intros [[Ht%String.eqb_eq Hn%String.eqb_eq]%andb_prop Hf%bool_decide_eq_true]%andb_prop Hd E.
  unfold continueExisting in E. cbv zeta in E. destruct (_ && _); [done|].
  destruct (negb (df_isActive d) && _); [done|].
  apply bind_inr in E as (w1 & [] & E1 & E); [done|].
  destruct (settings_differ _ _ _ _ _) as [|b] eqn:Es; [done|]. injection E1 as <- ->.
  apply settings_same in Es.
  destruct (df_isActive d && bool_decide (df_status d = DF_DRAFT) &&
            bool_decide (df_registrationState d = Unverified)).
  { by eapply startExisting_tracked. }
  destruct (df_registrationState d) eqn:Er; [done|..].
  - apply bind_inr in E as (w1 & [o|] & E1 & E); [|done].
    apply registration_operation_run in E1 as (-> & oid & Hoid & Ho).
    destruct (negb (df_isActive d)) eqn:Ea; [done|]. case_bool_decide as Hs; [done|].
    apply bind_inr in E as (w2 & reg & E2 & E). injection E as <- <-.
    apply register_run in E2 as (-> & Hd2 & Ho2 & Hj).
    exists d, oid, o. rewrite Hd2, Ho2. apply negb_false_iff in Ea. by auto 20.
  - apply bind_inr in E as (w1 & [o|] & E1 & E); [|done].
    apply registration_operation_run in E1 as (-> & oid & Hoid & Ho).
    destruct (negb (df_isActive d)) eqn:Ea; [done|]. case_bool_decide as Hs; [|done].
    injection E as <- <-. exists d, oid, o. apply negb_false_iff in Ea. by auto 20.
  - by eapply startExisting_tracked.
Qed.

Lemma createOrContinue_tracked dto prepared w w' out :
  definitions_wf w.(working) -> dto.(cd_name) = name ->
  createOrContinue handler t dto prepared options w = (w', inr out) ->
  tracked out.(ro_operation) w'.(working).
Proof.
  intros K Hn E. unfold createOrContinue in E. apply bind_inr in E as (w1 & [d|] & E1 & E).
  { apply find_existing_run in E1 as (-> & Hd & Hnm); [|done]. rewrite Hn in Hnm.
    by eapply continue_tracked. }
  injection E1 as <- _. unfold createRegistrationOperation in E.
  apply bind_inr in E as (w1 & o & E1 & E). apply createOperation_row in E1 as (x & id & -> & _).
  apply bind_inr in E as (w2 & d & E2 & E).
  apply definitions_create_run in E2 as (id' & now & -> & Hd & _). simpl in Hd.
  eapply start_tracked in E; [exact E|done|simpl; rewrite Hd; apply lookup_insert_eq|done..|].
  repeat split; by auto.
Qed.

End Tracking.

(** What the tracking depends on survives the audit event. *)
Lemma audit_tracked t name options o a rt ri w w' u tn :
  audit_emit NoTx tn a rt ri w = (w', u) ->
  tracked t name options o w.(committed) -> tracked t name options o w'.(committed).
Proof.
  intros E (r & oid & o' & Hd & Hn & Ha & Ho & Hoid & Hop & Hi & Hs & Hcase).
  pose proof (frame_run db_definitions NoTx _ _ _ _ E) as H1.
  pose proof (frame_run db_operations NoTx _ _ _ _ E) as H2. simpl in H1, H2.
  exists r, oid, o'. rewrite H1, H2. repeat (split; [done|]).
  destruct Hcase as [(Hp & Hf & j & Hj & Hk)|?]; [left|by right]. split; [done|]. split; [done|].
  exists j. split; [|done]. revert E. unfold audit_emit, catch, send, modify.
  destruct (send_fate w (sends w)); intros E; injection E as <- _; simpl; [|done..].
  apply elem_of_app. by left.
Qed.

(** A registration request is answered with the operation that tracks it.
    When [definition_create] returns an operation, the tables hold an active
    definition of the request's tenant, name and format with the normalized
    options of the request, it points at that operation, and it is either
    pending, with a job for the registration worker queued under its key and an
    operation that has not failed, or ready with a completed operation: for a
    new definition, for a draft or a failed registration started again, for a
    replayed request, and for the loser of a race on the name. *)
Theorem create_tracks_registration registry validators t dto auth w w' o :
  definitions_wf w.(committed) ->
  (forall ty a, registry.(rg_adapters) ty = Some a ->
     AdapterLaws (definitions_evolve (fun _ => True)) a) ->
  definition_create (registered_handlers registry validators) t dto auth w = (w', inr o) ->
  exists options, normalize_anoncreds (Some (JObj dto.(cd_options))) = inr options /\
    tracked t dto.(cd_name) options o w'.(committed).
Proof.
  intros K laws E. unfold definition_create in E. apply bind_inr in E as (w1 & u & E1 & E).
  apply (read_only_run _) in E1 as ->.
  destruct (find_handler _ _) as [h|] eqn:Eh; [|done].
  assert (h = anoncreds_handler registry validators) as ->.
  { unfold find_handler, registered_handlers in Eh. simpl in Eh. repeat case_match; by simplify_eq. }
  apply bind_inr in E as (w1 & options & E1 & E). exists options.
  cbn [fh_normalizeOptions anoncreds_handler] in E1.
  destruct (normalize_anoncreds _) as [|op]; [done|]. injection E1 as <- ->. split; [done|].
  apply bind_inr in E as (w1 & schema & E1 & E). apply (read_only_run _) in E1 as ->.
  apply bind_inr in E as (w2 & prepared & E1 & E).
  assert (definitions_wf w2.(committed)) as K2.
  { apply catch_inr in E1 as [E1|(w3 & e & _ & E1)]; [|done].
    pose proof (honours_prepare (fun _ => True) registry validators t
      (mkCreateDefinition dto.(cd_name) dto.(cd_connectorId) schema dto.(cd_issuer)
              dto.(cd_options) dto.(cd_metadata)) laws w) as H.
    cbn [fh_prepare anoncreds_handler] in E1. rewrite E1 in H. by apply H. }
  apply bind_inr in E as (w3 & out & E2 & E). apply bind_inr in E as (w4 & u' & E3 & E).
  injection E as <- <-.
  assert (tracked t dto.(cd_name) options out.(ro_operation) w3.(committed)) as T.
  { apply catch_inr in E2 as [E2|(w5 & e & E2 & E4)].
    - apply transaction_run in E2 as (w5 & E2 & ->); [|apply _].
      by apply (createOrContinue_tracked registry validators t dto.(cd_name) options dto prepared
            (begin_tx w2)) in E2.
    - apply transaction_throws in E2 as Hc; [|apply _]. destruct (negb _); [done|].
      apply transaction_run in E4 as (w6 & E4 & ->).
      2: { unfold definitions_findExistingByTenantAndNameAndFormat. solve_frame. }
      apply bind_inr in E4 as (w7 & [d|] & E5 & E4); [|done].
      apply find_existing_run in E5 as (-> & Hd & Hn); [|by simpl; rewrite Hc].
      by eapply continue_tracked. }
  destruct (ro_created out); [by eapply audit_tracked|by injection E3 as <-].
Qed.

(** A new AnonCreds definition of a fresh tenant. *)
Definition person_dto : CreateCredentialDefinitionDto :=
  mkCreateDefinition "Person" None
    (mkRegistrationSchema None (Some [("attr_names", JArr [JStr "name"]); ("schema_name", JStr "person");
                                 ("schema_version", JStr "1.0")]))
    None [("format", JStr "anoncreds")] None.

Lemma create_tracks_registration_witness :
  let w := world_of connector_db 0 in
  exists w' o options, definition_create (registered_handlers sample_registry []) "t" person_dto (Some sample_auth) w
                  = (w', inr o) /\
    normalize_anoncreds (Some (JObj person_dto.(cd_options))) = inr options /\
    tracked "t" "Person" options o w'.(committed).
Proof.
  intros w.
  assert (match (definition_create (registered_handlers sample_registry []) "t" person_dto
                    (Some sample_auth) w).2 with inl _ => false | inr _ => true end
          = true) as Hok by (vm_compute; reflexivity).
  destruct (definition_create (registered_handlers sample_registry []) "t" person_dto (Some sample_auth) w)
    as [w' [e|o]] eqn:E; [discriminate Hok|].
  destruct (create_tracks_registration sample_registry [] "t" person_dto (Some sample_auth) w w' o
    (definitions_wf_empty connector_db eq_refl) (sample_registry_evolve _) E) as (options & H).
  exists w', o, options. split; [reflexivity|exact H].
Defined.
