(* ===== verification/ProfileService.v ===== *)
(** * Presentation definitions and profiles

    The check of presentation definitions, then the services of issuance and verification profiles. *)

From Stdlib Require Import Ascii ZArith Lia.
From stdpp Require Import base decidable strings sets gmap list list_relations.
From S2P Require Import Prelude Js Entities StateMapping Db FormatValidators OperationTtl Pagination DefinitionRepository.
From S2P Require Import AdapterRegistry Auth CredentialExchangeService DefinitionService.

(** * Presentation definitions

    verification-profile/presentation-definition.validator.ts: the structural
    check of a DIF Presentation Exchange object and the attribute names its
    JSONPaths refer to. *)

(** ** Paths *)

Definition SQUOTE : ascii := "'"%char.
Definition DQUOTE : ascii := ascii_of_N 34.

Fixpoint last_char (s : string) : option ascii :=
  match s with
  | EmptyString => None
  | String c EmptyString => Some c
  | String _ s' => last_char s'
  end.

Fixpoint drop_last (s : string) : string :=
  match s with
  | EmptyString | String _ EmptyString => EmptyString
  | String c s' => String c (drop_last s')
  end.

(** [length >= 2], starts and ends with [q]: the text in between. *)
Definition unquote (q : ascii) (segment : string) : option string :=
  match segment with
  | String c (String _ _ as rest) =>
      if eq_ascii c q && bool_decide (last_char rest = Some q) then Some (drop_last rest) else None
  | _ => None
  end.

Definition stripJsonPathQuotes (segment : string) : string :=
  match unquote SQUOTE segment with
  | Some s => s
  | None => match unquote DQUOTE segment with Some s => s | None => segment end
  end.

Definition path_separator (c : ascii) : bool :=
  eq_ascii c "."%char || eq_ascii c "["%char || eq_ascii c "]"%char.

(** [path.split(/[.[\]]/)] *)
Fixpoint split_path (s : string) : list string :=
  match s with
  | EmptyString => [EmptyString]
  | String c s' =>
      if path_separator c then EmptyString :: split_path s'
      else match split_path s' with
           | seg :: segs => String c seg :: segs
           | [] => [String c EmptyString]
           end
  end.

Definition attributeNameFromPath (path : string) : option string :=
  let segments := filter (fun s => s <> EmptyString) (split_path path) in
  stripJsonPathQuotes <$> last segments.

(** ** Fields and descriptors *)

Definition json_strings (l : list json) : list string :=
  omap (fun v => match v with JStr s => Some s | _ => None end) l.

Definition attributeNamesFromField (field : json) : list string :=
  match get_prop "path" (Some field) with
  | Some (JArr paths) => omap attributeNameFromPath (json_strings paths)
  | _ => []
  end.

Definition descriptor_fields (descriptor : json) : option (list json) :=
  match get_prop "fields" (get_prop "constraints" (Some descriptor)) with
  | Some (JArr fields) => Some fields
  | _ => None
  end.

Definition attributeNamesFromDescriptor (descriptor : json) : list string :=
  default [] (descriptor_fields descriptor) ≫= attributeNamesFromField.

Definition hasValidDescriptorId (descriptor : json) : bool :=
  bool_decide (is_Some (as_string (get_prop "id" (Some descriptor)))).

Definition extractRequestedAttributes (presentationDefinition : list (string * json))
    : Exn + list string :=
  match assoc "input_descriptors" presentationDefinition with
  | Some (JArr (_ :: _ as descriptors)) =>
      if forallb hasValidDescriptorId descriptors
      then inr (js_set (descriptors ≫= attributeNamesFromDescriptor))
      else inl (BadRequestException
             "Each presentation_definition input_descriptor must declare a string 'id'.")
  | _ => inl (BadRequestException ("presentation_definition must be a DIF Presentation Exchange " +:+
           "object with a non-empty input_descriptors array."))
  end.

(** ** Properties *)

Fixpoint all_chars (P : ascii -> bool) (s : string) : bool :=
  match s with EmptyString => true | String c s' => P c && all_chars P s' end.

(** A name that needs no quoting in a path. *)
Definition plain_char (c : ascii) : bool :=
  negb (path_separator c) && negb (eq_ascii c SQUOTE) && negb (eq_ascii c DQUOTE).
Definition plain_name (n : string) : bool := negb (String.eqb n "") && all_chars plain_char n.
Definition inside (s : string) : bool := all_chars (fun c => negb (path_separator c)) s.

Lemma split_path_nonempty s : split_path s <> [].
Proof. destruct s as [|c s]; simpl; [done|]. destruct (path_separator c); [done|]. by case_match. Qed.

Lemma split_path_inside n : inside n = true -> split_path n = [n].
Proof.
  unfold inside. induction n as [|c n IH]; simpl; [done|]. intros [Hc%negb_true_iff Hn]%andb_prop.
  by rewrite Hc, IH.
Qed.

Lemma split_path_app p c s :
  path_separator c = true -> split_path (p +:+ String c s) = split_path p ++ split_path s.
Proof.
  intros Hc. induction p as [|d p IH]; simpl; [by rewrite Hc|]. rewrite IH.
  destruct (path_separator d); [done|].
  destruct (split_path p) as [|seg segs] eqn:E; [by apply split_path_nonempty in E|done].
Qed.

Lemma plain_inside n : all_chars plain_char n = true -> inside n = true.
Proof.
  unfold inside. induction n as [|c n IH]; simpl; [done|]. unfold plain_char at 1.
  intros [[[Hc _]%andb_prop _]%andb_prop Hn]%andb_prop. by rewrite Hc, IH.
Qed.

Lemma inside_app a b : inside (a +:+ b) = inside a && inside b.
Proof. unfold inside. induction a as [|c a IH]; simpl; [done|]. by rewrite IH, andb_assoc. Qed.

Lemma strip_plain n : all_chars plain_char n = true -> stripJsonPathQuotes n = n.
Proof.
  unfold stripJsonPathQuotes, unquote. destruct n as [|c n]; [done|]. simpl.
  unfold plain_char at 1.
  intros [[[_ H1%negb_true_iff]%andb_prop H2%negb_true_iff]%andb_prop _]%andb_prop.
  rewrite H1, H2. by destruct n.
Qed.

Lemma last_char_snoc s q : last_char (s +:+ String q "") = Some q.
Proof. induction s as [|c s IH]; [done|]. simpl. rewrite IH. by destruct s. Qed.
Lemma drop_last_snoc s q : drop_last (s +:+ String q "") = s.
Proof. induction s as [|c s IH]; [done|]. simpl. rewrite IH. by destruct s. Qed.

Definition quoted (q : ascii) (n : string) : string := String q (n +:+ String q "").

Lemma unquote_quoted q q' n :
  unquote q' (quoted q n) = if eq_ascii q q' then Some n else None.
Proof.
  unfold unquote, quoted. destruct (n +:+ String q "") as [|c r] eqn:E; [by destruct n|].
  rewrite <-E, last_char_snoc, drop_last_snoc. unfold eq_ascii.
  destruct (Ascii.eqb_spec q q') as [->|]; [|done]. by rewrite bool_decide_true.
Qed.

Lemma strip_quoted q n : q = SQUOTE \/ q = DQUOTE -> stripJsonPathQuotes (quoted q n) = n.
Proof. unfold stripJsonPathQuotes. rewrite !unquote_quoted. by intros [-> | ->]. Qed.

Lemma last_name p s : s <> EmptyString -> inside s = true ->
  attributeNameFromPath (p +:+ String "." s) = Some (stripJsonPathQuotes s) /\
  attributeNameFromPath (p +:+ String "[" (s +:+ "]")) = Some (stripJsonPathQuotes s).
Proof.
  intros Hne Hin. unfold attributeNameFromPath.
  rewrite !split_path_app by done.
  rewrite (split_path_inside s) by done. rewrite !filter_app. unfold filter. simpl.
  rewrite !decide_True by done.
  change (filter (fun s0 : string => s0 <> "") []) with (@nil string). by rewrite app_nil_r, !last_snoc.
Qed.

(** Dot and bracket notation name the same attribute.  For every prefix of a
    path and every name without separators or quotes, [p.name], [p['name']] and
    the double-quoted form all resolve to that name. *)
Theorem path_notations_agree p n :
  plain_name n = true ->
  attributeNameFromPath (p +:+ "." +:+ n) = Some n /\
  attributeNameFromPath (p +:+ "[" +:+ quoted SQUOTE n +:+ "]") = Some n /\
  attributeNameFromPath (p +:+ "[" +:+ quoted DQUOTE n +:+ "]") = Some n.
Proof.
  unfold plain_name. intros [Hne%negb_true_iff%String.eqb_neq Hn]%andb_prop.
  pose proof (plain_inside n Hn) as Hin.
  assert (forall q, q = SQUOTE \/ q = DQUOTE -> inside (quoted q n) = true) as Hq.
  { intros q Hq. unfold quoted. change (inside (String q "" +:+ (n +:+ String q "")) = true).
    rewrite !inside_app, Hin. by destruct Hq as [-> | ->]. }
  split; [|split]; simpl.
  - rewrite <-(strip_plain n) at 2 by done. by apply last_name.
  - etrans; [by apply (last_name p (quoted SQUOTE n)); auto|]. by rewrite strip_quoted by auto.
  - etrans; [by apply (last_name p (quoted DQUOTE n)); auto|]. by rewrite strip_quoted by auto.
Qed.

Lemma path_notations_agree_witness :
  attributeNameFromPath "$.credentialSubject.given_names" = Some "given_names" /\
  attributeNameFromPath "$['credentialSubject']['given_names']" = Some "given_names".
Proof.
  destruct (path_notations_agree "$.credentialSubject" "given_names") as [H _]; [reflexivity|].
  destruct (path_notations_agree "$['credentialSubject']" "given_names") as [_ [H' _]]; [reflexivity|].
  split; [exact H|exact H'].
Defined.

(** * Issuance and verification profiles: services

    issuance-profile.service.ts and verification-profile.service.ts.  A request
    reads a profile, decides, and writes it with one statement; between the two
    other requests may commit.  [others] is what they commit there: the code as
    it stands runs with whatever it is, and the theorems say what must be
    assumed of it. *)

Local Open Scope Z_scope.

(** A nullable field of a patch: absent, [null], or a value. *)
Abbreviation patch A := (option (option A)).

(** A patched column that takes NULL, and one that does not. *)
Definition patched {A} (f : patch A) (old : option A) : option A := default old f.
Definition patched_not_null {A} (f : patch A) (old : A) : Exn + A :=
  match f with
  | None => inr old
  | Some (Some v) => inr v
  | Some None => inl not_null_violation
  end.

Definition AUTO : string := "auto".

(** The sum monad, for the columns of one statement. *)
Definition sum_bind {A B} (m : Exn + A) (k : A -> Exn + B) : Exn + B :=
  match m with inl e => inl e | inr a => k a end.

(** ** IssuanceProfileService *)

Module Issuance.

Record CreateIssuanceProfileDto := mkCreate {
  ci_name : string;
  ci_version : string;
  ci_description : option string;
  ci_credentialDefinitionId : string;
  ci_attributeSchema : list (string * json);
  ci_defaults : option (list (string * json));
  ci_display : option (list (string * json));
  ci_metadata : patch (list (string * json));
  ci_protocolHint : patch string
}.

Record UpdateIssuanceProfileDto := mkUpdate {
  ui_description : patch string;
  ui_defaults : patch (list (string * json));
  ui_display : patch (list (string * json));
  ui_metadata : patch (list (string * json));
  ui_protocolHint : patch string
}.

Definition exists_already : Exn :=
  ConflictException "Issuance profile with this name and version already exists for this tenant.".

Definition not_in_draft (id verb : string) : Exn :=
  ConflictException ("Issuance profile '" +:+ id +:+ "' cannot be " +:+ verb +:+
    " because it is not in draft status.").
Definition not_in_published (id : string) : Exn :=
  ConflictException ("Issuance profile '" +:+ id +:+
    "' cannot be deprecated because it is not in published status.").

(** The attribute names of an AnonCreds schema bound the profile's; other
    formats, and a schema without a list of names, are not checked. *)
Definition validateAttributeSchema (format : CredentialDefinitionFormat)
    (schemaDefinition attributeSchema : list (string * json)) : Exn + unit :=
  match format, assoc "attr_names" schemaDefinition with
  | ANONCREDS, Some (JArr names) =>
      let unknown := List.filter (fun n => negb (mem_str n (json_strings names))) attributeSchema.*1 in
      match unknown with
      | [] => inr tt
      | _ => inl (BadRequestException ("attribute_schema declares attributes not present in the " +:+
               "credential definition schema: " +:+ join_names unknown))
      end
  | _, _ => inr tt
  end.

Definition isUniqueConstraintViolation (e : Exn) : bool :=
  match e with
  | QueryFailed code constraint =>
      String.eqb code "23505" && String.eqb constraint "uq_issuance_profile_tenant_name_version"
  | _ => false
  end.

Definition createProfile (tenantId : string) (dto : CreateIssuanceProfileDto) (definitionId : string)
    : Prog IssuanceProfile :=
  catch
    (metadata ← of_sum (patched_not_null dto.(ci_metadata) []);
     hint ← of_sum (patched_not_null dto.(ci_protocolHint) AUTO);
     profiles_create (fun id now =>
       mkProfile id tenantId dto.(ci_name) dto.(ci_version) dto.(ci_description) definitionId
         dto.(ci_attributeSchema) dto.(ci_defaults) dto.(ci_display) metadata hint IP_DRAFT now now))
    (fun e => if isUniqueConstraintViolation e then throw exists_already else throw e).

Definition profile_notFound (id : string) : string :=
  "Issuance profile '" +:+ id +:+ "' was not found.".

Definition profile_findById (tenantId id : string) (auth : option AuthContext)
    : Prog IssuanceProfile :=
  row ← profiles_findById id;
  match row with
  | Some p =>
      if negb (String.eqb p.(ip_tenantId) tenantId)
      then throw (NotFoundException (profile_notFound id))
      else _ ← of_sum (assertResourceTenantOrNotFound auth p.(ip_tenantId) (profile_notFound id));
           mret p
  | None => throw (NotFoundException (profile_notFound id))
  end.

Definition profile_list (tenantId : string) (f : IssuanceProfileFilters) (limit : option nat)
    (cursor : option Cursor) : Prog Page :=
  profiles_findPage tenantId f (default 20%nat limit) cursor.

Definition edited (dto : UpdateIssuanceProfileDto) (p : IssuanceProfile) : Exn + IssuanceProfile :=
  sum_bind (patched_not_null dto.(ui_metadata) p.(ip_metadata)) (fun metadata =>
  sum_bind (patched_not_null dto.(ui_protocolHint) p.(ip_protocolHint)) (fun hint =>
  inr (ip_edit (patched dto.(ui_description) p.(ip_description))
         (patched dto.(ui_defaults) p.(ip_defaults)) (patched dto.(ui_display) p.(ip_display))
         metadata hint p))).

Section Service.
Context (registry : Registry) (others : Prog unit).

Definition resolveConnector (tenantId : string) (format : CredentialDefinitionFormat)
    (connectorId : string) : Prog string :=
  match toPortCredentialFormat format with
  | None => throw (BadRequestException ("Credential format '" +:+ definition_format_str format +:+
              "' does not yet support connector compatibility validation."))
  | Some portFormat =>
      catch
        (resolved ← resolve registry tenantId (Some portFormat) (with_connector (Some connectorId));
         mret resolved.(rs_connector).(con_id))
        (fun e => match is_adapter_error e with
                  | Some (_, message) => throw (BadRequestException message)
                  | None => throw e
                  end)
  end.

Definition profile_create (tenantId : string) (dto : CreateIssuanceProfileDto)
    (auth : option AuthContext) : Prog IssuanceProfile :=
  _ ← of_sum (assertTenantAccess auth tenantId);
  d ← definition_findById tenantId dto.(ci_credentialDefinitionId) auth;
  if bool_decide (d.(df_status) = DF_PUBLISHED) && negb (isCredentialDefinitionReadyForIssuance d)
  then throw (BadRequestException "Credential definition is not ready for issuance")
  else
    _ ← of_sum (validateAttributeSchema d.(df_format) d.(df_schemaDefinition) dto.(ci_attributeSchema));
    existing ← profiles_findByNameAndVersion tenantId dto.(ci_name) dto.(ci_version);
    match existing with
    | Some _ => throw exists_already
    | None =>
        if negb (truthy_str d.(df_connectorId))
        then throw (BadRequestException "Credential definition has no connector binding.")
        else
          _ ← resolveConnector tenantId d.(df_format) (default "" d.(df_connectorId));
          _ ← others;
          created ← createProfile tenantId dto d.(df_id);
          _ ← audit_emit NoTx created.(ip_tenantId) "create" "issuance_profile" created.(ip_id);
          mret created
    end.

Definition profile_update (tenantId id : string) (dto : UpdateIssuanceProfileDto)
    (auth : option AuthContext) : Prog IssuanceProfile :=
  p ← profile_findById tenantId id auth;
  if negb (bool_decide (p.(ip_status) = IP_DRAFT)) then throw (not_in_draft id "updated")
  else
    _ ← others;
    p' ← of_sum (edited dto p);
    updated ← profiles_save p';
    _ ← audit_emit NoTx updated.(ip_tenantId) "update" "issuance_profile" updated.(ip_id);
    mret updated.

Definition assertConnectorHealthy (p : IssuanceProfile) (auth : option AuthContext)
    : Prog ExpectedDefinition :=
  d ← definition_findById p.(ip_tenantId) p.(ip_credentialDefinitionId) auth;
  if negb (bool_decide (d.(df_status) = DF_PUBLISHED))
  then throw (BadRequestException
         "Credential definition must be published before publishing an issuance profile.")
  else if negb (isCredentialDefinitionReadyForIssuance d)
  then throw (BadRequestException "Credential definition is not ready for issuance")
  else
    _ ← resolveConnector p.(ip_tenantId) d.(df_format) (default "" d.(df_connectorId));
    mret (mkExpected d.(df_id) (default "" d.(df_connectorId)) d.(df_format)).

Definition profile_publish (tenantId id : string) (auth : option AuthContext)
    : Prog IssuanceProfile :=
  p ← profile_findById tenantId id auth;
  if negb (bool_decide (p.(ip_status) = IP_DRAFT)) then throw (not_in_draft id "published")
  else
    binding ← assertConnectorHealthy p auth;
    _ ← others;
    transitioned ← profiles_transitionStatus tenantId id IP_DRAFT IP_PUBLISHED (Some binding);
    if negb transitioned then throw (not_in_draft id "published")
    else
      published ← profile_findById tenantId id auth;
      _ ← audit_emit NoTx published.(ip_tenantId) "update" "issuance_profile" published.(ip_id);
      mret published.

Definition profile_deprecate (tenantId id : string) (auth : option AuthContext)
    : Prog IssuanceProfile :=
  p ← profile_findById tenantId id auth;
  if negb (bool_decide (p.(ip_status) = IP_PUBLISHED)) then throw (not_in_published id)
  else
    _ ← others;
    transitioned ← profiles_transitionStatus tenantId id IP_PUBLISHED IP_DEPRECATED None;
    if negb transitioned then throw (not_in_published id)
    else
      deprecated ← profile_findById tenantId id auth;
      _ ← audit_emit NoTx deprecated.(ip_tenantId) "update" "issuance_profile" deprecated.(ip_id);
      mret deprecated.
End Service.
End Issuance.

(** ** VerificationProfileService *)

Module Verification.

Record CreateVerificationProfileDto := mkCreate {
  cv_name : string;
  cv_version : string;
  cv_description : option string;
  cv_presentationDefinition : list (string * json);
  cv_predicates : option (list VerificationPredicate);
  cv_metadata : option (list (string * json));
  cv_isPublic : option bool;
  cv_protocolHint : patch string
}.

Record UpdateVerificationProfileDto := mkUpdate {
  uv_description : patch string;
  uv_presentationDefinition : patch (list (string * json));
  uv_predicates : patch (list VerificationPredicate);
  uv_metadata : patch (list (string * json));
  uv_isPublic : patch bool;
  uv_protocolHint : patch string
}.

Definition exists_already : Exn :=
  ConflictException "Verification profile with this name and version already exists for this tenant.".

Definition not_in_draft (id verb : string) : Exn :=
  ConflictException ("Verification profile '" +:+ id +:+ "' cannot be " +:+ verb +:+
    " because it is not in draft status.").
Definition not_in_published (id : string) : Exn :=
  ConflictException ("Verification profile '" +:+ id +:+
    "' cannot be deprecated because it is not in published status.").

(** [isUniqueConstraintViolation(error, constraintName)] of postgres-error.ts *)
Definition isUniqueConstraintViolation (e : Exn) (constraintName : string) : bool :=
  match e with
  | QueryFailed code constraint => String.eqb code "23505" && String.eqb constraint constraintName
  | _ => false
  end.

Definition createProfile (tenantId : string) (dto : CreateVerificationProfileDto)
    (requestedAttributes : list string) : Prog VerificationProfile :=
  catch
    (hint ← of_sum (patched_not_null dto.(cv_protocolHint) AUTO);
     vprofiles_create (fun id now =>
       mkVProfile id tenantId dto.(cv_name) dto.(cv_version) dto.(cv_description)
         dto.(cv_presentationDefinition) (Some requestedAttributes) dto.(cv_predicates)
         (default [] dto.(cv_metadata)) (default false dto.(cv_isPublic)) hint IP_DRAFT now now))
    (fun e => if isUniqueConstraintViolation e "uq_verification_profile_tenant_name_version"
              then throw exists_already else throw e).

Definition vprofile_notFound (id : string) : string :=
  "Verification profile '" +:+ id +:+ "' was not found.".

Definition vprofile_findById (tenantId id : string) (auth : option AuthContext)
    : Prog VerificationProfile :=
  row ← vprofiles_findById id;
  match row with
  | Some p =>
      if negb (String.eqb p.(vp_tenantId) tenantId)
      then throw (NotFoundException (vprofile_notFound id))
      else _ ← of_sum (assertResourceTenantOrNotFound auth p.(vp_tenantId) (vprofile_notFound id));
           mret p
  | None => throw (NotFoundException (vprofile_notFound id))
  end.

Definition vprofile_list (tenantId : string) (f : VerificationProfileFilters) (limit : option nat)
    (cursor : option Cursor) : Prog Page :=
  vprofiles_findPage tenantId f (default 20%nat limit) cursor.

(** The definition of a patch with the attributes it names; reading a property of
    [null] throws. *)
Definition patched_definition (f : patch (list (string * json)))
    : Exn + option (list (string * json) * list string) :=
  match f with
  | None => inr None
  | Some None => inl (JsError "Cannot read properties of null")
  | Some (Some definition) =>
      sum_bind (extractRequestedAttributes definition) (fun names => inr (Some (definition, names)))
  end.

(** The columns of the patch. *)
Definition patched_vprofile (dto : UpdateVerificationProfileDto)
    (definition : option (list (string * json) * list string)) (p : VerificationProfile)
    : Exn + VerificationProfile :=
  sum_bind (patched_not_null dto.(uv_metadata) p.(vp_metadata)) (fun metadata =>
  sum_bind (patched_not_null dto.(uv_isPublic) p.(vp_isPublic)) (fun isPublic =>
  sum_bind (patched_not_null dto.(uv_protocolHint) p.(vp_protocolHint)) (fun hint =>
  inr (vp_edit (patched dto.(uv_description) p.(vp_description))
         (default p.(vp_presentationDefinition) (fst <$> definition))
         (match definition with Some d => Some d.2 | None => p.(vp_requestedAttributes) end)
         (patched dto.(uv_predicates) p.(vp_predicates)) metadata isPublic hint p)))).

Section Service.
Context (others : Prog unit).

Definition vprofile_create (tenantId : string) (dto : CreateVerificationProfileDto)
    (auth : option AuthContext) : Prog VerificationProfile :=
  _ ← of_sum (assertTenantAccess auth tenantId);
  requestedAttributes ← of_sum (extractRequestedAttributes dto.(cv_presentationDefinition));
  existing ← vprofiles_findByNameAndVersion tenantId dto.(cv_name) dto.(cv_version);
  match existing with
  | Some _ => throw exists_already
  | None =>
      _ ← others;
      created ← createProfile tenantId dto requestedAttributes;
      _ ← audit_emit NoTx created.(vp_tenantId) "create" "verification_profile" created.(vp_id);
      mret created
  end.

Definition vprofile_update (tenantId id : string) (dto : UpdateVerificationProfileDto)
    (auth : option AuthContext) : Prog VerificationProfile :=
  p ← vprofile_findById tenantId id auth;
  if negb (bool_decide (p.(vp_status) = IP_DRAFT)) then throw (not_in_draft id "updated")
  else
    definition ← of_sum (patched_definition dto.(uv_presentationDefinition));
    _ ← others;
    updatedWhileDraft ← vprofiles_updateIfDraft tenantId id (patched_vprofile dto definition);
    if negb updatedWhileDraft then throw (not_in_draft id "updated")
    else
      updated ← vprofile_findById tenantId id auth;
      _ ← audit_emit NoTx updated.(vp_tenantId) "update" "verification_profile" updated.(vp_id);
      mret updated.

Definition vprofile_publish (tenantId id : string) (auth : option AuthContext)
    : Prog VerificationProfile :=
  p ← vprofile_findById tenantId id auth;
  if negb (bool_decide (p.(vp_status) = IP_DRAFT)) then throw (not_in_draft id "published")
  else
    _ ← others;
    transitioned ← vprofiles_transitionStatus tenantId id IP_DRAFT IP_PUBLISHED;
    if negb transitioned then throw (not_in_draft id "published")
    else
      published ← vprofile_findById tenantId id auth;
      _ ← audit_emit NoTx published.(vp_tenantId) "update" "verification_profile" published.(vp_id);
      mret published.

Definition vprofile_deprecate (tenantId id : string) (auth : option AuthContext)
    : Prog VerificationProfile :=
  p ← vprofile_findById tenantId id auth;
  if negb (bool_decide (p.(vp_status) = IP_PUBLISHED)) then throw (not_in_published id)
  else
    _ ← others;
    transitioned ← vprofiles_transitionStatus tenantId id IP_PUBLISHED IP_DEPRECATED;
    if negb transitioned then throw (not_in_published id)
    else
      deprecated ← vprofile_findById tenantId id auth;
      _ ← audit_emit NoTx deprecated.(vp_tenantId) "update" "verification_profile" deprecated.(vp_id);
      mret deprecated.
End Service.
End Verification.
