(* ===== verification/ProfileLifecycle.v ===== *)
(** * The life of a profile

    The contract of both profile services as a small machine, [spec_step]: a
    profile is created as a draft, a draft may be edited or published, a
    published profile may be deprecated, and nothing else ever happens to it.
    Every request on verification profiles refines the machine, whatever other
    requests commit between its read and its write; so do the requests on
    issuance profiles except the update, for which [issuance_update_reverts]
    gives the interleaving that takes a published profile back to draft. *)

From Stdlib Require Import Ascii ZArith Lia.
From stdpp Require Import base decidable strings sets gmap list list_relations relations.
From S2P Require Import Prelude Js Entities StateMapping OperationTtl Db Pagination.
From S2P Require Import DefinitionRepository ConnectorService AdapterRegistry Auth Lifecycle.
From S2P Require Import CredentialExchangeService ServiceLogic FormatValidators.
From S2P Require Import DefinitionService ProfileService.

Local Open Scope Z_scope.

(** ** The specification *)

(** What a profile is to its clients; [C]: the content of one kind of profile. *)
Record Profile (C : Type) := mkSpec {
  sp_tenant : string;
  sp_name : string;
  sp_version : string;
  sp_status : ProfileStatus;
  sp_content : C
}.
Arguments mkSpec {C}.
Arguments sp_tenant {C}.
Arguments sp_name {C}.
Arguments sp_version {C}.
Arguments sp_status {C}.
Arguments sp_content {C}.

Section Spec.
Context {C : Type}.
(** The part of the content an edit leaves. *)
Context {F : Type} (fixed_part : C -> F).
Abbreviation Profiles := (gmap string (Profile C)).

Definition with_status (s : ProfileStatus) (p : Profile C) : Profile C :=
  mkSpec p.(sp_tenant) p.(sp_name) p.(sp_version) s p.(sp_content).
Definition with_content (c : C) (p : Profile C) : Profile C :=
  mkSpec p.(sp_tenant) p.(sp_name) p.(sp_version) p.(sp_status) c.
Definition same_name (p q : Profile C) : Prop :=
  p.(sp_tenant) = q.(sp_tenant) /\ p.(sp_name) = q.(sp_name) /\ p.(sp_version) = q.(sp_version).

Inductive spec_step : relation Profiles :=
| spec_create t id p :
    t !! id = None -> p.(sp_status) = IP_DRAFT ->
    (forall i q, t !! i = Some q -> ~ same_name q p) ->
    spec_step t (<[id := p]> t)
| spec_edit t id p c :
    t !! id = Some p -> p.(sp_status) = IP_DRAFT -> fixed_part c = fixed_part p.(sp_content) ->
    spec_step t (<[id := with_content c p]> t)
| spec_publish t id p :
    t !! id = Some p -> p.(sp_status) = IP_DRAFT ->
    spec_step t (<[id := with_status IP_PUBLISHED p]> t)
| spec_deprecate t id p :
    t !! id = Some p -> p.(sp_status) = IP_PUBLISHED ->
    spec_step t (<[id := with_status IP_DEPRECATED p]> t).

(** *** What the machine guarantees *)

Definition profile_rank (s : ProfileStatus) : nat :=
  match s with IP_DRAFT => 0 | IP_PUBLISHED => 1 | IP_DEPRECATED => 2 end.

(** One profile over time: it keeps its name and the fixed part, its status moves
    on, and its content is frozen once it is not a draft. *)
Definition profile_moves (p p' : Profile C) : Prop :=
  same_name p' p /\ fixed_part p'.(sp_content) = fixed_part p.(sp_content) /\
  (profile_rank p.(sp_status) <= profile_rank p'.(sp_status))%nat /\
  (p.(sp_status) <> IP_DRAFT -> p'.(sp_content) = p.(sp_content)).

#[export] Instance profile_moves_preorder : PreOrder profile_moves.
Proof.
  split; [by intros p; split_and!|]. intros p q r (N1 & F1 & R1 & C1) (N2 & F2 & R2 & C2).
  destruct N1 as (?&?&?), N2 as (?&?&?).
  split_and!; [unfold same_name; split_and!; congruence|congruence|lia|].
  intros Hnd. rewrite C2, C1; [done..|]. intros E. rewrite E in R1. by destruct (sp_status p); simpl in *; [|lia..].
Qed.

Lemma spec_moves t t' id p :
  rtc spec_step t t' -> t !! id = Some p -> exists p', t' !! id = Some p' /\ profile_moves p p'.
Proof.
  intros H. revert p. induction H as [t|t t1 t2 Hs _ IH]; intros p Hp; [by exists p|].
  assert (exists p1, t1 !! id = Some p1 /\ profile_moves p p1) as (p1 & Hp1 & M).
  { destruct Hs as [t i q Hn _ _|t i q c Hq Hd Hf|t i q Hq Hd|t i q Hq Hd];
      (destruct (decide (i = id)) as [->|Hne];
       [|exists p; split; [by rewrite lookup_insert_ne|reflexivity]]); simplify_eq;
      (eexists; split; [apply lookup_insert_eq|]); split_and!; try done; simpl;
      rewrite ?Hd; simpl; try lia; congruence. }
  destruct (IH p1 Hp1) as (p2 & Hp2 & M2). exists p2. split; [done|by etrans].
Qed.

(** Names stay unique. *)
Definition unique_names (t : Profiles) : Prop :=
  forall i j p q, t !! i = Some p -> t !! j = Some q -> same_name p q -> i = j.

Lemma spec_unique t t' : rtc spec_step t t' -> unique_names t -> unique_names t'.
Proof.
  induction 1 as [|t t1 t2 Hs _ IH]; [done|]. intros U. apply IH. clear IH.
  assert (forall i q0 q, t !! i = Some q0 -> same_name q q0 -> unique_names (<[i := q]> t)) as Hupd.
  { intros i q0 q H0 (E1 & E2 & E3) j k p p' Hj Hk Hn. unfold same_name in *.
    apply lookup_insert_Some in Hj as [[<- <-]|[Hij Hj]];
      apply lookup_insert_Some in Hk as [[<- <-]|[Hik Hk]]; [done|..|by eapply U].
    - eapply (U i k q0 p'); [done..|]. destruct Hn as (?&?&?). split_and!; congruence.
    - eapply (U j i p q0); [done..|]. destruct Hn as (?&?&?). split_and!; congruence. }
  destruct Hs as [t id p Hn _ Hu|t id p c Hp _ _|t id p Hp _|t id p Hp _]; [|by eapply Hupd..].
  intros j k q q' Hj Hk Hs. apply lookup_insert_Some in Hj as [[<- <-]|[Hij Hj]];
    apply lookup_insert_Some in Hk as [[<- <-]|[Hik Hk]]; [done|..|by eapply U].
  - destruct (Hu _ _ Hk). destruct Hs as (?&?&?). by split_and!.
  - by destruct (Hu _ _ Hj).
Qed.
End Spec.

(** ** Tables that refine the machine *)

Section Refines.
Context {A C F : Type} (id : A -> string) (abs : A -> Profile C) (fixed_part : C -> F).
Abbreviation step := (spec_step fixed_part).

Definition table_refines (t t' : gmap string A) : Prop :=
  table_keyed id t -> rtc step (abs <$> t) (abs <$> t') /\ table_keyed id t'.

#[export] Instance table_refines_preorder : PreOrder table_refines.
Proof.
  split; [by intros t K|]. intros t1 t2 t3 H1 H2 K. destruct (H1 K) as [S1 K1].
  destruct (H2 K1) as [S2 K2]. split; [by etrans|done].
Qed.

(** One statement on one row. *)
Inductive row_step (r r' : A) : Prop :=
| row_edit : id r' = id r -> (abs r).(sp_status) = IP_DRAFT ->
    abs r' = with_content (abs r').(sp_content) (abs r) ->
    fixed_part (abs r').(sp_content) = fixed_part (abs r).(sp_content) -> row_step r r'
| row_publish : id r' = id r -> (abs r).(sp_status) = IP_DRAFT ->
    abs r' = with_status IP_PUBLISHED (abs r) -> row_step r r'
| row_deprecate : id r' = id r -> (abs r).(sp_status) = IP_PUBLISHED ->
    abs r' = with_status IP_DEPRECATED (abs r) -> row_step r r'.

Lemma refines_row t i r r' : t !! i = Some r -> row_step r r' -> table_refines t (<[i := r']> t).
Proof.
  intros Hr Hs K. pose proof (K _ _ Hr) as Hid. split.
  - apply rtc_once. rewrite fmap_insert.
    assert ((abs <$> t) !! i = Some (abs r)) as Ha by (by rewrite lookup_fmap, Hr).
    destruct Hs as [_ Hd -> Hf|_ Hd ->|_ Hd ->]; [apply spec_edit|apply spec_publish|apply spec_deprecate];
      done.
  - intros j q Hq. apply lookup_insert_Some in Hq as [[<- <-]|[_ Hq]]; [|by apply K].
    destruct Hs; congruence.
Qed.

Lemma refines_create t i r :
  t !! i = None -> id r = i -> (abs r).(sp_status) = IP_DRAFT ->
  (table_keyed id t -> forall j q, t !! j = Some q -> ~ same_name (abs q) (abs r)) ->
  table_refines t (<[i := r]> t).
Proof.
  intros Hn Hid Hd Hc K. split.
  - apply rtc_once. rewrite fmap_insert. apply spec_create; [by rewrite lookup_fmap, Hn|done|].
    intros j p Hp. rewrite lookup_fmap in Hp. apply fmap_Some in Hp as (q & Hq & ->). by eapply Hc.
  - intros j q Hq. apply lookup_insert_Some in Hq as [[<- <-]|[_ Hq]]; [done|by apply K].
Qed.
End Refines.

(** ** Verification profiles *)

Record VContent := mkVContent {
  vc_description : option string;
  vc_presentationDefinition : list (string * json);
  vc_requestedAttributes : option (list string);
  vc_predicates : option (list VerificationPredicate);
  vc_metadata : list (string * json);
  vc_isPublic : bool;
  vc_protocolHint : string;
  vc_createdAt : Z
}.

Definition vabs (p : VerificationProfile) : Profile VContent :=
  mkSpec p.(vp_tenantId) p.(vp_name) p.(vp_version) p.(vp_status)
    (mkVContent p.(vp_description) p.(vp_presentationDefinition) p.(vp_requestedAttributes)
       p.(vp_predicates) p.(vp_metadata) p.(vp_isPublic) p.(vp_protocolHint) p.(vp_createdAt)).

Definition vrefines (d d' : DB) : Prop :=
  table_refines vp_id vabs vc_createdAt d.(db_vprofiles) d'.(db_vprofiles).

#[export] Instance vrefines_preorder : PreOrder vrefines.
Proof. split; [by intros d K|]. intros d1 d2 d3 H1 H2. unfold vrefines in *. by etrans. Qed.
#[export] Instance vrefines_rows : RowsOnly vrefines.
Proof. intros d jobs audit metrics. unfold vrefines. simpl. reflexivity. Qed.

Lemma vp_named_same t n v p q :
  p.(sp_tenant) = t -> p.(sp_name) = n -> p.(sp_version) = v ->
  same_name (vabs q) p -> vp_named t n v q = true.
Proof.
  unfold same_name, vp_named. simpl. intros <- <- <- (-> & -> & ->). by rewrite !String.eqb_refl.
Qed.

Lemma pres_vcreate mk :
  (forall i now, (mk i now).(vp_id) = i /\ (mk i now).(vp_status) = IP_DRAFT) ->
  Pres vrefines (vprofiles_create mk).
Proof.
  intros H w. unfold vprofiles_create.
  apply wrel_bind; [apply _|by split|]. intros i _.
  apply wrel_bind; [apply _|by split|]. intros now _.
  apply wrel_bind; [apply _|by split|]. intros taken [= <-]. case_bool_decide as Ht; [by split|].
  apply wrel_bind; [apply _|by split|]. intros conflict [= <-].
  destruct (vprofile_conflict _ _ _) eqn:Ec; [by split|].
  apply wrel_bind; [apply _| |intros; by split]. split; [|reflexivity]. simpl. unfold vrefines. simpl.
  destruct (H i now) as [Hid Hd].
  apply refines_create; [by apply eq_None_not_Some|done|done|]. intros K j q Hq Hs.
  assert (vprofile_conflict i (mk i now) (db_vprofiles (committed (gen_uuid w).1)) = true) as Hc.
  { unfold vprofile_conflict. apply existsb_exists. exists q. split.
    - apply list_elem_of_In, elem_of_rows. by exists j.
    - rewrite (vp_named_same _ _ _ (vabs (mk i now))) by done. rewrite andb_true_r.
      apply negb_true_iff, String.eqb_neq. intros E. rewrite (K _ _ Hq) in E. subst j.
      apply Ht. by exists q. }
  simpl in *. congruence.
Qed.

Lemma pres_vupdate i guard f :
  (forall p p', guard p = true -> f p = inr p' -> row_step vp_id vabs vc_createdAt p p') ->
  Pres vrefines (update_vprofile i guard f).
Proof.
  intros H w. unfold update_vprofile. apply wrel_bind; [apply _|by split|]. intros row [= <-].
  simpl. destruct (db_vprofiles (committed w) !! i) as [p|] eqn:Ep; [|by split].
  destruct (guard p) eqn:Eg; [|by split].
  apply wrel_bind; [apply _|by split|]. intros p' [= Ef].
  apply wrel_bind; [apply _|by split|]. intros now _.
  apply wrel_bind; [apply _| |intros; by split]. split; [|reflexivity]. simpl. unfold vrefines. simpl.
  specialize (H p p' Eg Ef). eapply refines_row; [done|].
  destruct H; [apply row_edit|apply row_publish|apply row_deprecate]; done.
Qed.

Import Verification.

Lemma vp_in_spec t s p : vp_in t s p = true -> p.(vp_tenantId) = t /\ p.(vp_status) = s.
Proof. unfold vp_in. intros [->%String.eqb_eq ->%bool_decide_eq_true]%andb_prop. done. Qed.

Inductive VRequest :=
| VCreate (dto : CreateVerificationProfileDto)
| VUpdate (id : string) (dto : UpdateVerificationProfileDto)
| VPublish (id : string)
| VDeprecate (id : string).

Definition run_vrequest (others : Prog unit) (t : string) (auth : option AuthContext) (q : VRequest)
    : Prog VerificationProfile :=
  match q with
  | VCreate dto => vprofile_create others t dto auth
  | VUpdate id dto => vprofile_update others t id dto auth
  | VPublish id => vprofile_publish others t id auth
  | VDeprecate id => vprofile_deprecate others t id auth
  end.

Lemma pres_read_only {A} R `{!PreOrder R} (p : Prog A) `{!ReadOnly p} : Pres R p.
Proof. intros w. by rewrite read_only. Qed.

#[export] Instance read_only_vfind t id auth : ReadOnly (vprofile_findById t id auth).
Proof. unfold vprofile_findById, vprofiles_findById. solve_read_only. Qed.

Lemma patched_vprofile_step dto definition p p' :
  patched_vprofile dto definition p = inr p' -> vp_status p = IP_DRAFT ->
  row_step vp_id vabs vc_createdAt p p'.
Proof.
  unfold patched_vprofile, sum_bind. intros E Hd. do 3 (destruct (patched_not_null _ _); [done|]).
  injection E as <-. by apply row_edit.
Qed.

(** The end of a guarded request: the statement, and what it is answered with. *)
Lemma pres_guarded stmt e t id auth action :
  Pres vrefines stmt ->
  Pres vrefines (ok ← stmt; if negb ok then throw e
                 else p ← vprofile_findById t id auth;
                      _ ← audit_emit NoTx p.(vp_tenantId) action "verification_profile" p.(vp_id);
                      mret p).
Proof.
  intros Hs. apply pres_bind; [apply _..|]. intros []; simpl; [|apply _].
  apply pres_bind; [apply _|apply pres_read_only; apply _|intros; apply _].
Qed.

Lemma pres_vrequest others t auth q :
  Pres vrefines others -> Pres vrefines (run_vrequest others t auth q).
Proof.
  intros Ho. destruct q as [dto|id dto|id|id]; simpl.
  - unfold vprofile_create, vprofiles_findByNameAndVersion, createProfile.
    apply pres_bind; [apply _..|intros _]. apply pres_bind; [apply _..|intros names].
    apply pres_bind; [apply _..|]. intros [x|]; [apply _|].
    apply pres_bind; [apply _..|intros _]. apply pres_bind; [apply _|..|intros; apply _].
    apply pres_catch; [apply _|..|intros e; destruct (isUniqueConstraintViolation e _); apply _].
    apply pres_bind; [apply _..|]. intros hint. by apply pres_vcreate.
  - unfold vprofile_update, vprofiles_updateIfDraft.
    apply pres_bind; [apply _|apply pres_read_only; apply _|]. intros p. destruct (negb _); [apply _|].
    apply pres_bind; [apply _..|intros definition]. apply pres_bind; [apply _..|intros _].
    apply pres_guarded, pres_vupdate. intros r r' [_ Hd]%vp_in_spec E. by eapply patched_vprofile_step.
  - unfold vprofile_publish, vprofiles_transitionStatus.
    apply pres_bind; [apply _|apply pres_read_only; apply _|]. intros p. destruct (negb _); [apply _|].
    apply pres_bind; [apply _..|intros _].
    apply pres_guarded, pres_vupdate. intros r r' [_ Hd]%vp_in_spec [= <-]. by apply row_publish.
  - unfold vprofile_deprecate, vprofiles_transitionStatus.
    apply pres_bind; [apply _|apply pres_read_only; apply _|]. intros p. destruct (negb _); [apply _|].
    apply pres_bind; [apply _..|intros _].
    apply pres_guarded, pres_vupdate. intros r r' [_ Hd]%vp_in_spec [= <-]. by apply row_deprecate.
Qed.

(** C8: the verification profile service refines the profile machine.  Whatever
    other requests that do so commit between its read and its write, a request
    to create, update, publish or deprecate a verification profile moves the
    table, seen without its modification times, along steps of [spec_step],
    whether it returns or throws: profiles are created as drafts under a fresh
    name and version, edited only as drafts, published only from draft and
    deprecated only from published. *)
Theorem verification_requests_refine others t auth q w :
  Pres vrefines others -> table_keyed vp_id w.(committed).(db_vprofiles) ->
  let d' := (run_vrequest others t auth q w).1.(committed) in
  rtc (spec_step vc_createdAt) (vabs <$> w.(committed).(db_vprofiles)) (vabs <$> d'.(db_vprofiles)) /\
  table_keyed vp_id d'.(db_vprofiles).
Proof. intros Ho K. destruct (pres_vrequest others t auth q Ho w) as [H _]. by apply H. Qed.

(** ** Issuance profiles *)

Module I := Issuance.

Record IContent := mkIContent {
  ic_description : option string;
  ic_defaults : option (list (string * json));
  ic_display : option (list (string * json));
  ic_metadata : list (string * json);
  ic_protocolHint : string;
  ic_fixed : string * list (string * json) * Z
}.

(** The definition, the attribute schema and the creation time are fixed. *)
Definition iabs (p : IssuanceProfile) : Profile IContent :=
  mkSpec p.(ip_tenantId) p.(ip_name) p.(ip_version) p.(ip_status)
    (mkIContent p.(ip_description) p.(ip_defaults) p.(ip_display) p.(ip_metadata) p.(ip_protocolHint)
       (p.(ip_credentialDefinitionId), p.(ip_attributeSchema), p.(ip_createdAt))).

Definition irefines (d d' : DB) : Prop :=
  table_refines ip_id iabs ic_fixed d.(db_profiles) d'.(db_profiles).

#[export] Instance irefines_preorder : PreOrder irefines.
Proof. split; [by intros d K|]. intros d1 d2 d3 H1 H2. unfold irefines in *. by etrans. Qed.
#[export] Instance irefines_rows : RowsOnly irefines.
Proof. intros d jobs audit metrics. unfold irefines. simpl. reflexivity. Qed.

#[export] Instance read_only_ifind t id auth : ReadOnly (I.profile_findById t id auth).
Proof. unfold I.profile_findById, profiles_findById. solve_read_only. Qed.
#[export] Instance read_only_dfind t id auth : ReadOnly (definition_findById t id auth).
Proof. unfold definition_findById, definitions_findById. solve_read_only. Qed.
#[export] Instance irefines_no_connectors : NoConnectors irefines.
Proof. intros d T. unfold irefines. simpl. reflexivity. Qed.
#[export] Instance rotates_resolveConnector registry t f c :
  Rotates t (I.resolveConnector registry t f c).
Proof.
  unfold I.resolveConnector. destruct (toPortCredentialFormat f); [|apply _].
  apply rotates_catch; [apply _|]. intros e. destruct (is_adapter_error e) as [[]|]; apply _.
Qed.
#[export] Instance rotates_healthy registry p auth :
  Rotates p.(ip_tenantId) (I.assertConnectorHealthy registry p auth).
Proof.
  unfold I.assertConnectorHealthy. apply rotates_bind; [apply (rotates_read_only _), _|]. intros d.
  destruct (negb _); [apply _|]. destruct (negb _); apply _.
Qed.

Lemma profile_findById_run t id auth w w' p :
  I.profile_findById t id auth w = (w', inr p) ->
  w' = w /\ w.(committed).(db_profiles) !! id = Some p /\ p.(ip_tenantId) = t.
Proof.
  intros E. pose proof (read_only_run _ _ _ _ E) as ->. split; [done|]. revert E.
  unfold I.profile_findById. intros E. apply bind_inr in E as (w1 & row & [= <- <-] & E). simpl in E.
  destruct (_ !! id) as [q|]; [|done]. destruct (String.eqb_spec q.(ip_tenantId) t) as [Ht|]; [|done].
  apply bind_inr in E as (w2 & u & _ & [= _ <-]). done.
Qed.

Lemma update_profile_run id guard f w w' :
  update_profile id guard f w = (w', inr true) ->
  exists p now, w.(committed).(db_profiles) !! id = Some p /\ guard w.(committed) p = true /\
    w'.(committed) = set_profiles (<[id := ip_set_updatedAt now (f p)]> w.(committed).(db_profiles))
                       w.(committed).
Proof.
  unfold update_profile. intros E. apply bind_inr in E as (w1 & t & [= <- <-] & E). simpl in E.
  destruct (_ !! id) as [p|]; [|done]. destruct (guard _ p) eqn:Eg; [|done].
  apply bind_inr in E as (w2 & now & [= <- <-] & E). apply bind_inr in E as (w3 & u & [= <- <-] & E).
  injection E as <-. by exists p, (clock w).
Qed.

(** The binding of a profile that may be offered: its definition is active,
    published and registered, on an active connector of the tenant. *)
Definition issuable (t : string) (p : IssuanceProfile) (d : DB) : Prop :=
  exists df c, d.(db_definitions) !! p.(ip_credentialDefinitionId) = Some df /\
    df.(df_tenantId) = t /\ df.(df_isActive) = true /\ df.(df_status) = DF_PUBLISHED /\
    isCredentialDefinitionReadyForIssuance df = true /\
    d.(db_connectors) !! default "" df.(df_connectorId) = Some c /\
    c.(con_tenantId) = t /\ c.(con_active) = true.

Lemma definition_still_issuable t e d p :
  e.(ed_connectorId) <> "" -> definition_still t e d p = true -> issuable t p d.
Proof.
  intros Hne. unfold definition_still, issuable, isCredentialDefinitionReadyForIssuance, of_tenant.
  destruct (db_definitions d !! _) as [df|]; [|done].
  intros [[[[[[[[_ Ht%String.eqb_eq]%andb_prop Ha]%andb_prop Hs%bool_decide_eq_true]%andb_prop
    Hr%bool_decide_eq_true]%andb_prop He]%andb_prop Hc%bool_decide_eq_true]%andb_prop _]%andb_prop
    Hk]%andb_prop.
  destruct (db_connectors d !! _) as [c|] eqn:Ec; [|done].
  apply andb_prop in Hk as [Hct%String.eqb_eq Hca]. exists df, c. rewrite Hc. simpl.
  rewrite Hr, bool_decide_true, He by done. split_and!; try done; [|congruence].
  unfold truthy_str. simpl. by destruct (ed_connectorId e).
Qed.

Lemma healthy_run registry p auth w w' e :
  I.assertConnectorHealthy registry p auth w = (w', inr e) ->
  rotates p.(ip_tenantId) w w' /\ e.(ed_connectorId) <> "".
Proof.
  intros E. split; [pose proof (rotates_healthy registry p auth w) as H; by rewrite E in H|]. revert E.
  unfold I.assertConnectorHealthy. intros E. apply bind_inr in E as (w1 & d & _ & E).
  destruct (negb _); [done|].
  destruct (isCredentialDefinitionReadyForIssuance d) eqn:Er; [|done]. cbn [negb] in E.
  apply bind_inr in E as (w2 & x & _ & [= _ <-]). simpl.
  unfold isCredentialDefinitionReadyForIssuance, truthy_str in Er.
  apply andb_prop in Er as [_ Er]. destruct (df_connectorId d) as [[|]|]; done.
Qed.

(** What a successful publication did, and to which tables. *)
Lemma publish_run registry others t id auth w w' p' :
  I.profile_publish registry others t id auth w = (w', inr p') ->
  exists p r now w1, w.(committed).(db_profiles) !! id = Some p /\ p.(ip_status) = IP_DRAFT /\
    p.(ip_tenantId) = t /\ (exists w0, rotates t w w0 /\ (others w0).1 = w1) /\
    w1.(committed).(db_profiles) !! id = Some r /\ r.(ip_status) = IP_DRAFT /\ r.(ip_tenantId) = t /\
    issuable t r w1.(committed) /\
    p' = ip_set_updatedAt now (ip_set_status IP_PUBLISHED r) /\
    w'.(committed).(db_profiles) = <[id := p']> w1.(committed).(db_profiles) /\
    w'.(committed).(db_definitions) = w1.(committed).(db_definitions) /\
    w'.(committed).(db_connectors) = w1.(committed).(db_connectors).
Proof.
  unfold I.profile_publish. intros E. apply bind_inr in E as (w0 & p & E1 & E).
  apply profile_findById_run in E1 as (-> & Hp & Ht).
  destruct (bool_decide_reflect (ip_status p = IP_DRAFT)) as [Hs|]; [|done]. cbn [negb] in E.
  apply bind_inr in E as (w0 & e & E1 & E). apply healthy_run in E1 as [Hw0 He]. rewrite Ht in Hw0.
  apply bind_inr in E as (w1 & u & E1 & E). apply bind_inr in E as (w2 & [] & E2 & E); [|done].
  apply update_profile_run in E2 as (r & now & Hr & Hg & Hw2).
  apply andb_prop in Hg as [[Hrt%String.eqb_eq Hrs%bool_decide_eq_true]%andb_prop Hg].
  cbn [negb] in E. apply bind_inr in E as (w3 & q & E3 & E).
  apply profile_findById_run in E3 as (-> & Hq & _). rewrite Hw2 in Hq. simpl in Hq.
  rewrite lookup_insert_eq in Hq. injection Hq as <-.
  apply bind_inr in E as (w4 & u' & E4 & E). injection E as <- <-.
  exists p, r, now, w1. split_and!; try done; [exists w0; by rewrite E1|by eapply definition_still_issuable|..].
  - pose proof (frame_run db_profiles NoTx _ _ _ _ E4) as H. simpl in H. by rewrite H, Hw2.
  - pose proof (frame_run db_definitions NoTx _ _ _ _ E4) as H. simpl in H. by rewrite H, Hw2.
  - pose proof (frame_run db_connectors NoTx _ _ _ _ E4) as H. simpl in H. by rewrite H, Hw2.
Qed.

(** A published issuance profile can be issued from.  Whatever other requests
    commit while a publication is checked (a definition edited, deactivated or
    rebound, a connector switched off), when it returns the profile was a draft
    of the tenant at that moment, is now published, and its definition is active,
    published, registered and bound to an active connector of the same tenant. *)
Theorem publish_binds_issuable registry others t id auth w w' p' :
  I.profile_publish registry others t id auth w = (w', inr p') ->
  w'.(committed).(db_profiles) !! id = Some p' /\ p'.(ip_status) = IP_PUBLISHED /\
  p'.(ip_tenantId) = t /\ issuable t p' w'.(committed).
Proof.
  intros E. apply publish_run in E as (p & r & now & w1 & _ & _ & _ & _ & _ & _ & Hrt & Hi & -> & Hp & Hd & Hc).
  rewrite Hp, lookup_insert_eq. split_and!; try done. unfold issuable. by rewrite Hd, Hc.
Qed.

Lemma ip_named_same t n v p q :
  p.(sp_tenant) = t -> p.(sp_name) = n -> p.(sp_version) = v ->
  same_name (iabs q) p <-> ip_named t n v q = true.
Proof.
  unfold same_name, ip_named. simpl. intros <- <- <-. split.
  - intros (-> & -> & ->). by rewrite !String.eqb_refl.
  - intros [[?%String.eqb_eq ?%String.eqb_eq]%andb_prop ?%String.eqb_eq]%andb_prop. done.
Qed.

(** The creation, the publication and the deprecation of issuance profiles keep to
    the machine too. *)
Lemma pres_icreate mk :
  (forall i now, (mk i now).(ip_id) = i /\ (mk i now).(ip_status) = IP_DRAFT) ->
  Pres irefines (profiles_create mk).
Proof.
  intros H w. unfold profiles_create, write_profile.
  apply wrel_bind; [apply _|by split|]. intros i _.
  apply wrel_bind; [apply _|by split|]. intros now _.
  apply wrel_bind; [apply _|by split|]. intros taken [= <-]. case_bool_decide as Ht; [by split|].
  apply wrel_bind; [apply _| |intros; by split].
  apply wrel_bind; [apply _|by split|]. intros conflict [= <-].
  destruct (profile_conflict _ _ _) eqn:Ec; [by split|]. split; [|reflexivity]. unfold irefines. simpl.
  destruct (H i now) as [Hid Hd].
  apply refines_create; [by apply eq_None_not_Some|done|done|]. intros K j q Hq Hs.
  apply (ip_named_same (mk i now).(ip_tenantId) (mk i now).(ip_name) (mk i now).(ip_version)) in Hs; [|done..].
  apply not_true_iff_false in Ec. apply Ec. apply existsb_exists. exists q. split.
  - apply list_elem_of_In, elem_of_rows. by exists j.
  - rewrite Hs, andb_true_r. apply negb_true_iff, String.eqb_neq. intros E.
    rewrite (K _ _ Hq) in E. subst j. apply Ht. by exists q.
Qed.

Lemma pres_iupdate i guard f :
  (forall d p, guard d p = true -> row_step ip_id iabs ic_fixed p (f p)) ->
  Pres irefines (update_profile i guard f).
Proof.
  intros H w. unfold update_profile. apply wrel_bind; [apply _|by split|]. intros t [= <-].
  simpl. destruct (db_profiles (committed w) !! i) as [p|] eqn:Ep; [|by split].
  destruct (guard _ p) eqn:Eg; [|by split].
  apply wrel_bind; [apply _|by split|]. intros now _.
  apply wrel_bind; [apply _| |intros; by split]. split; [|reflexivity]. simpl. unfold irefines. simpl.
  specialize (H _ p Eg). eapply refines_row; [done|].
  destruct H; [apply row_edit|apply row_publish|apply row_deprecate]; done.
Qed.

Lemma pres_itransition t id from to e stmt_err auth :
  (from = IP_DRAFT /\ to = IP_PUBLISHED) \/ (from = IP_PUBLISHED /\ to = IP_DEPRECATED) ->
  Pres irefines (ok ← profiles_transitionStatus t id from to e;
                 if negb ok then throw stmt_err
                 else p ← I.profile_findById t id auth;
                      _ ← audit_emit NoTx p.(ip_tenantId) "update" "issuance_profile" p.(ip_id);
                      mret p).
Proof.
  intros Hft. apply pres_bind; [apply _|..].
  - unfold profiles_transitionStatus. apply pres_iupdate.
    intros d p [[_ Hs%bool_decide_eq_true]%andb_prop _]%andb_prop.
    destruct Hft as [[-> ->]|[-> ->]]; [by apply row_publish|by apply row_deprecate].
  - intros []; simpl; [|apply _].
    apply pres_bind; [apply _|apply pres_read_only; apply _|intros; apply _].
Qed.

Lemma issuance_requests_refine registry others t auth :
  Pres irefines others ->
  (forall dto, Pres irefines (I.profile_create registry others t dto auth)) /\
  (forall id, Pres irefines (I.profile_publish registry others t id auth)) /\
  (forall id, Pres irefines (I.profile_deprecate others t id auth)).
Proof.
  intros Ho. split; [|split]; intros x.
  - unfold I.profile_create, profiles_findByNameAndVersion, I.createProfile.
    apply pres_bind; [apply _..|intros _].
    apply pres_bind; [apply _|apply pres_read_only; apply _|intros d]. destruct (_ && _); [apply _|].
    apply pres_bind; [apply _..|intros _]. apply pres_bind; [apply _..|]. intros [y|]; [apply _|].
    destruct (negb _); [apply _|]. apply pres_bind; [apply _|eapply (pres_rotates irefines), _|intros _].
    apply pres_bind; [apply _..|intros _]. apply pres_bind; [apply _|..|intros; apply _].
    apply pres_catch; [apply _|..|intros e; destruct (I.isUniqueConstraintViolation e); apply _].
    apply pres_bind; [apply _..|]. intros md. apply pres_bind; [apply _..|]. intros hint.
    by apply pres_icreate.
  - unfold I.profile_publish. apply pres_bind; [apply _|apply pres_read_only; apply _|intros p].
    destruct (negb _); [apply _|]. apply pres_bind; [apply _|eapply (pres_rotates irefines), _|intros e].
    apply pres_bind; [apply _..|intros _]. apply pres_itransition. by left.
  - unfold I.profile_deprecate. apply pres_bind; [apply _|apply pres_read_only; apply _|intros p].
    destruct (negb _); [apply _|]. apply pres_bind; [apply _..|intros _]. apply pres_itransition. by right.
Qed.

Lemma profile_conflict_false i p t :
  table_keyed ip_id t -> unique_names (iabs <$> t) ->
  (exists r, t !! i = Some r /\ same_name (iabs r) (iabs p)) -> profile_conflict i p t = false.
Proof.
  intros K U (r & Hr & Hs). apply not_true_iff_false. unfold profile_conflict.
  rewrite existsb_exists. intros (q & Hq%list_elem_of_In & [Hne%negb_true_iff%String.eqb_neq Hn]%andb_prop).
  apply elem_of_rows in Hq as [j Hj]. apply (ip_named_same _ _ _ (iabs p)) in Hn; [|done..].
  apply Hne. rewrite (K _ _ Hj). apply (U j i (iabs q) (iabs r)); [by rewrite lookup_fmap, Hj|by rewrite lookup_fmap, Hr|].
  destruct Hn as (?&?&?), Hs as (?&?&?). unfold same_name. split_and!; congruence.
Qed.

Lemma edited_keeps dto p p' :
  I.edited dto p = inr p' -> p'.(ip_id) = p.(ip_id) /\ p'.(ip_status) = p.(ip_status) /\
  same_name (iabs p') (iabs p).
Proof.
  unfold I.edited, sum_bind. intros E. do 2 (destruct (patched_not_null _ _); [done|]).
  by injection E as <-.
Qed.

Lemma profiles_save_at p r w :
  w.(committed).(db_profiles) !! p.(ip_id) = Some r -> ip_status r <> ip_status p ->
  (forall now, profile_conflict p.(ip_id) (ip_set_updatedAt now p) w.(committed).(db_profiles) = false) ->
  exists w' now, profiles_save p w = (w', inr (ip_set_updatedAt now p)) /\
    w'.(committed).(db_profiles) =
      <[p.(ip_id) := ip_set_updatedAt now p]> w.(committed).(db_profiles).
Proof.
  intros Hr Hs Hc. unfold profiles_save, write_profile.
  erewrite bind_run by reflexivity. simpl. rewrite Hr. rewrite decide_False.
  2: { intros E. apply Hs. by apply (f_equal ip_status) in E. }
  unfold mbind, prog_bind, now_us, read, modify. simpl. rewrite Hc. by eexists _, _.
Qed.

Lemma audit_returns t a rt ri w : exists w', audit_emit NoTx t a rt ri w = (w', inr tt).
Proof.
  unfold audit_emit, catch, send. destruct (send_fate w (sends w)); eauto.
Qed.

(** An issuance profile update can take back a publication.  If a publication
    of the same draft commits between the read and the save of an update, the
    save writes the stale status: the profile that the other request was told is
    published is a draft again, with the update's answer a success, which is not
    a behaviour of the profile machine. *)
Theorem issuance_update_reverts registry t id dto auth w w1 p1 p p' :
  table_keyed ip_id w.(committed).(db_profiles) -> unique_names (iabs <$> w.(committed).(db_profiles)) ->
  w.(committed).(db_profiles) !! id = Some p -> I.edited dto p = inr p' ->
  I.profile_publish registry (mret tt) t id auth w = (w1, inr p1) ->
  p1.(ip_status) = IP_PUBLISHED /\ w1.(committed).(db_profiles) !! id = Some p1 /\
  exists w2 u, I.profile_update (_ ← I.profile_publish registry (mret tt) t id auth; mret tt) t id dto auth w
               = (w2, inr u) /\
    w2.(committed).(db_profiles) !! id = Some u /\ u.(ip_status) = IP_DRAFT /\
    ~ rtc (spec_step ic_fixed) (iabs <$> w1.(committed).(db_profiles)) (iabs <$> w2.(committed).(db_profiles)).
Proof.
  intros K U Hp Hed E. pose proof E as Epub.
  assert (exists a, I.profile_findById t id auth w = (w, inr a)) as (a & Hfind).
  { unfold I.profile_publish in E. apply bind_inr in E as (w0 & a & E & _).
    pose proof (read_only_run _ _ _ _ E) as ->. by exists a. }
  pose proof (profile_findById_run _ _ _ _ _ _ Hfind) as (_ & Ha & _). simplify_eq.
  apply publish_run in E as (p0 & r & now & w0 & Hp0 & Hs & _ & Hw0 & Hr & _ & _ & _ & Hp1 & Hpr & _).
  destruct Hw0 as (w00 & (T & n & _ & ->) & Hw0). simpl in Hw0. subst w0. simpl in Hr, Hpr. simplify_eq. pose proof (edited_keeps _ _ _ Hed) as (Hid & Hst & Hn).
  pose proof (K _ _ Hp) as Kid. rewrite Hpr, lookup_insert_eq. split_and!; [done..|].
  unfold I.profile_update. erewrite bind_run by exact Hfind. rewrite bool_decide_true by done.
  cbn [negb]. erewrite bind_run by (erewrite bind_run by exact Epub; reflexivity).
  erewrite bind_run by (unfold of_sum; rewrite Hed; reflexivity).
  set (q := ip_set_updatedAt now (ip_set_status IP_PUBLISHED p)) in *.
  assert (table_keyed ip_id w1.(committed).(db_profiles)) as K1.
  { rewrite Hpr. intros i x Hx. apply lookup_insert_Some in Hx as [[<- <-]|[_ Hx]]; [done|by apply K]. }
  assert (unique_names (iabs <$> w1.(committed).(db_profiles))) as U1.
  { rewrite Hpr, fmap_insert. eapply (spec_unique ic_fixed); [|exact U]. apply rtc_once.
    change (iabs q) with (with_status IP_PUBLISHED (iabs p)).
    apply spec_publish; [by rewrite lookup_fmap, Hp|done]. }
  assert (w1.(committed).(db_profiles) !! p'.(ip_id) = Some q) as Hq
    by (rewrite Hid, Kid, Hpr; apply lookup_insert_eq).
  destruct (profiles_save_at p' q w1) as (w2 & now' & Esave & Hw2); [done|simpl; congruence| |].
  { intros x. apply profile_conflict_false; [done..|]. exists q. split; [done|].
    destruct Hn as (?&?&?). unfold same_name. simpl in *. split_and!; congruence. }
  destruct (audit_returns p'.(ip_tenantId) "update" "issuance_profile" p'.(ip_id) w2) as (w3 & Eaud).
  exists w3, (ip_set_updatedAt now' p'). erewrite bind_run by exact Esave.
  erewrite bind_run by exact Eaud. split; [done|].
  pose proof (frame_run db_profiles NoTx _ _ _ _ Eaud) as Hf. simpl in Hf.
  rewrite Hf, Hw2, Hid, Kid, lookup_insert_eq. simpl. split_and!; [done|congruence|].
  intros Hspec. apply (spec_moves ic_fixed _ _ id (iabs q)) in Hspec as (x & Hx & M).
  - rewrite lookup_fmap, lookup_insert_eq in Hx. injection Hx as <-. destruct M as (_ & _ & M & _).
    simpl in M. rewrite Hst, Hs in M. simpl in M. lia.
  - by rewrite lookup_fmap, lookup_insert_eq.
Qed.

(** ** Examples *)

(** A draft of each kind, the issuance profile on a registered definition. *)
Definition ready_definition : CredentialDefinition :=
  mkDefinition "df" "t" "Person" ANONCREDS [("attr_names", JArr [JStr "name"])] (Some "creddef") (Some "k1")
    RegReady (Some "o1") [("format", JStr "anoncreds")] None TRACTION "1.0" DF_PUBLISHED None true 0 0.
Definition draft_profile : IssuanceProfile :=
  mkProfile "p1" "t" "person" "1.0" None "df" [("name", JObj [])] None None [] "auto" IP_DRAFT 0 0.
Definition draft_vprofile : VerificationProfile :=
  mkVProfile "v1" "t" "age" "1.0" None [] (Some ["age"]) None [] false "auto" IP_DRAFT 0 0.
Definition profile_db : DB :=
  set_vprofiles {[ "v1" := draft_vprofile ]}
    (set_profiles {[ "p1" := draft_profile ]}
       (set_definitions {[ "df" := ready_definition ]} connector_db)).

(** The update of a verification profile that loses to a publication. *)
Definition describe_v : VRequest :=
  VUpdate "v1" (mkUpdate (Some (Some "Over 18")) None None None None None).
Definition publish_v : Prog unit :=
  _ ← vprofile_publish (mret tt) "t" "v1" (Some sample_auth); mret tt.

Lemma pres_publish_v : Pres vrefines publish_v.
Proof.
  unfold publish_v. apply pres_bind; [apply _| |intros; apply _].
  apply (pres_vrequest (mret tt) "t" (Some sample_auth) (VPublish "v1")). apply _.
Qed.

Lemma verification_requests_refine_witness :
  let r := run_vrequest publish_v "t" (Some sample_auth) describe_v (world_of profile_db 0) in
  rtc (spec_step vc_createdAt) (vabs <$> profile_db.(db_vprofiles)) (vabs <$> r.1.(committed).(db_vprofiles)) /\
  r.2 = inl (not_in_draft "v1" "updated") /\
  vp_status <$> r.1.(committed).(db_vprofiles) !! "v1" = Some IP_PUBLISHED.
Proof.
  split; [|split; vm_compute; reflexivity].
  apply (verification_requests_refine publish_v "t" (Some sample_auth) describe_v (world_of profile_db 0)
           pres_publish_v).
  apply map_Forall_to_list. vm_compute. repeat constructor.
Defined.

Lemma publish_binds_issuable_witness :
  exists w' p', I.profile_publish sample_registry (mret tt) "t" "p1" (Some sample_auth)
                  (world_of profile_db 0) = (w', inr p') /\ issuable "t" p' w'.(committed).
Proof.
  destruct (I.profile_publish sample_registry (mret tt) "t" "p1" (Some sample_auth)
              (world_of profile_db 0)) as [w' [e|p']] eqn:E.
  - exfalso. assert (match (I.profile_publish sample_registry (mret tt) "t" "p1" (Some sample_auth)
      (world_of profile_db 0)).2 with inl _ => False | inr _ => True end) as H by (vm_compute; exact I).
    rewrite E in H. exact H.
  - exists w', p'. split; [reflexivity|].
    apply (publish_binds_issuable sample_registry (mret tt) "t" "p1" (Some sample_auth)
             (world_of profile_db 0) w' p' E).
Defined.

Definition describe_i : I.UpdateIssuanceProfileDto :=
  I.mkUpdate (Some (Some "A person")) None None None None.

Lemma issuance_update_reverts_witness :
  exists w1 p1 w2 u, I.profile_publish sample_registry (mret tt) "t" "p1" (Some sample_auth)
                  (world_of profile_db 0) = (w1, inr p1) /\ p1.(ip_status) = IP_PUBLISHED /\
    I.profile_update (_ ← I.profile_publish sample_registry (mret tt) "t" "p1" (Some sample_auth); mret tt)
      "t" "p1" describe_i (Some sample_auth) (world_of profile_db 0) = (w2, inr u) /\
    u.(ip_status) = IP_DRAFT.
Proof.
  destruct (I.profile_publish sample_registry (mret tt) "t" "p1" (Some sample_auth)
              (world_of profile_db 0)) as [w1 [e|p1]] eqn:E.
  - exfalso. assert (match (I.profile_publish sample_registry (mret tt) "t" "p1" (Some sample_auth)
      (world_of profile_db 0)).2 with inl _ => False | inr _ => True end) as H by (vm_compute; exact I).
    rewrite E in H. exact H.
  - destruct (issuance_update_reverts sample_registry "t" "p1" describe_i (Some sample_auth)
      (world_of profile_db 0) w1 p1 draft_profile
      (ip_edit (Some "A person") None None [] "auto" draft_profile)) as (H1 & _ & w2 & u & H2 & _ & H3 & _).
    + apply map_Forall_to_list. vm_compute. repeat constructor.
    + intros i j p q. simpl. rewrite map_fmap_singleton.
      intros [<- _]%lookup_singleton_Some [<- _]%lookup_singleton_Some _. reflexivity.
    + reflexivity.
    + reflexivity.
    + exact E.
    + exists w1, p1, w2, u. split; [reflexivity|]. split; [exact H1|]. split; [exact H2|exact H3].
Defined.
