(* ===== verification/PresentationRequest.v ===== *)
(** * PresentationRequestService

    presentation-request/presentation-request.service.ts: asking a holder for a
    presentation over an established DIDComm connection.  The request comes from
    a published verification profile or from a raw presentation definition; the
    operation it creates is settled with what the agent answers. *)

From Stdlib Require Import Ascii ZArith Lia.
From stdpp Require Import base decidable strings sets gmap list list_relations.
From S2P Require Import Prelude Js Entities StateMapping OperationTtl Db Pagination.
From S2P Require Import OperationService CredentialRepository.
From S2P Require Import DefinitionRepository ConnectionRepository AdapterRegistry.
From S2P Require Import CredentialExchangeService CredentialAction FormatValidators.
From S2P Require Import JsText ProfileService.

Local Open Scope Z_scope.

(** ** Requests *)

Record RequestPresentationDto := mkRequestDto {
  rq_verificationProfileId : option (option string);               (* [Some None]: null *)
  rq_presentationDefinition : option (option (list (string * json)));
  rq_format : option CredentialDefinitionFormat;
  rq_connectionId : option string
}.

Record ResolvedRequest := mkResolvedRequest {
  rr_name : string;
  rr_requestedAttributes : list string;
  rr_requestedPredicates : option (list RequestedPredicate);
  rr_format : option CredentialDefinitionFormat
}.

Definition USABLE_CONNECTION_STATES : list ConnectionState := [ACTIVE; CN_COMPLETED].

Definition null_property : Exn := JsError "Cannot read properties of null".

(** [UUID_REGEX] *)
Definition is_hex (c : ascii) : bool := bool_decide (is_Some (JsNumber.radix_digit 16 c)).
Definition one_of (set : string) (c : ascii) : bool :=
  existsb (eq_ascii (lower_ascii c)) (String.list_ascii_of_string set).

Definition uuid_pattern : list (ascii -> bool) :=
  let hex n := replicate n is_hex in
  let dash := [eq_ascii "-"%char] in
  hex 8%nat ++ dash ++ hex 4%nat ++ dash ++ [one_of "12345"] ++ hex 3%nat ++ dash ++
  [one_of "89ab"] ++ hex 3%nat ++ dash ++ hex 12%nat.

Definition UUID_REGEX_test (s : string) : bool := match_chars uuid_pattern s.

Definition assertExactlyOneMode (dto : RequestPresentationDto) : Exn + unit :=
  let hasProfile := bool_decide (is_Some dto.(rq_verificationProfileId)) in
  let hasRaw := bool_decide (is_Some dto.(rq_presentationDefinition)) in
  if Bool.eqb hasProfile hasRaw
  then inl (BadRequestException
         "Provide exactly one of verification_profile_id or presentation_definition.")
  else inr tt.

Definition assertConnectionUsable (c : Connection) : Exn + unit :=
  if negb (bool_decide (c.(cn_state) ∈ USABLE_CONNECTION_STATES))
  then inl (BadRequestException ("Connection '" +:+ c.(cn_id) +:+
         "' is not established yet (state: '" +:+ connection_state_str c.(cn_state) +:+ "')."))
  else if bool_decide (c.(cn_protocol) = OPENID4VC)
  then inl (BadRequestException ("Connection '" +:+ c.(cn_id) +:+
         "' does not use a DIDComm protocol."))
  else inr tt.

(** A field with a [filter] property. *)
Definition has_filter (field : json) : bool := bool_decide (is_Some (get_prop "filter" (Some field))).

Definition assertConstraintsRepresentable (presentationDefinition : list (string * json)) : Exn + unit :=
  match assoc "submission_requirements" presentationDefinition with
  | Some (JArr (_ :: _)) =>
      inl (BadRequestException
        "presentation_definition.submission_requirements is not supported yet.")
  | _ =>
      match assoc "input_descriptors" presentationDefinition with
      | Some (JArr descriptors) =>
          if existsb (fun d => existsb has_filter (default [] (descriptor_fields d))) descriptors
          then inl (BadRequestException ("presentation_definition field filters (issuer/schema/value " +:+
                 "restrictions) are not supported yet; only attribute selection is."))
          else inr tt
      | _ => inr tt
      end
  end.

(** [value.indexOf('/')], with the text on both sides. *)
Fixpoint split_first_slash (s : string) : option (string * string) :=
  match s with
  | EmptyString => None
  | String c s' =>
      if eq_ascii c "/"%char then Some (EmptyString, s')
      else match split_first_slash s' with
           | Some (a, b) => Some (String c a, b)
           | None => None
           end
  end.

Definition resolveProfileByNameVersion (tenantId value : string) : Prog (option VerificationProfile) :=
  match split_first_slash value with
  | Some (String _ _ as name, String _ _ as version) =>
      vprofiles_findByNameAndVersion tenantId name version
  | _ => throw (BadRequestException
           "verification_profile_id must be a UUID or a 'name/version' string.")
  end.

Definition resolveProfile (tenantId : string) (profileIdOrName : string) : Prog VerificationProfile :=
  profile ← (if UUID_REGEX_test profileIdOrName then vprofiles_findById profileIdOrName
             else resolveProfileByNameVersion tenantId profileIdOrName);
  match profile with
  | Some p =>
      if negb (String.eqb p.(vp_tenantId) tenantId)
      then throw (BadRequestException ("Verification profile '" +:+ profileIdOrName +:+ "' was not found."))
      else if negb (bool_decide (p.(vp_status) = IP_PUBLISHED))
      then throw (BadRequestException ("Verification profile '" +:+ profileIdOrName +:+ "' is not published."))
      else mret p
  | None => throw (BadRequestException ("Verification profile '" +:+ profileIdOrName +:+ "' was not found."))
  end.

Definition map_predicate (p : VerificationPredicate) : Exn + RequestedPredicate :=
  match JsNumber.of_string p.(pr_value) with
  | NNaN => inl (BadRequestException ("Verification profile predicate for attribute '" +:+
              p.(pr_attribute) +:+ "' has a non-numeric value."))
  | v => inr (mkPredicate p.(pr_attribute) p.(pr_condition) v)
  end.

Fixpoint map_sum {A B} (f : A -> Exn + B) (l : list A) : Exn + list B :=
  match l with
  | [] => inr []
  | a :: l' =>
      match f a with
      | inl e => inl e
      | inr b => match map_sum f l' with inl e => inl e | inr bs => inr (b :: bs) end
      end
  end.

Definition mapPredicates (predicates : option (list VerificationPredicate))
    : Exn + option (list RequestedPredicate) :=
  match predicates with
  | None | Some [] => inr None
  | Some ps => match map_sum map_predicate ps with inl e => inl e | inr l => inr (Some l) end
  end.

Definition resolveRequest (tenantId : string) (dto : RequestPresentationDto) : Prog ResolvedRequest :=
  match dto.(rq_verificationProfileId) with
  | Some None => throw null_property
  | Some (Some profileId) =>
      profile ← resolveProfile tenantId profileId;
      _ ← of_sum (assertConstraintsRepresentable profile.(vp_presentationDefinition));
      attributes ← match profile.(vp_requestedAttributes) with
                   | Some names => mret names
                   | None => of_sum (extractRequestedAttributes profile.(vp_presentationDefinition))
                   end;
      predicates ← of_sum (mapPredicates profile.(vp_predicates));
      mret (mkResolvedRequest profile.(vp_name) attributes predicates None)
  | None =>
      match dto.(rq_format) with
      | None => throw (BadRequestException
                         "format is required when presentation_definition is provided.")
      | Some format =>
          definition ← match dto.(rq_presentationDefinition) with
                       | Some (Some d) => mret d
                       | _ => throw null_property
                       end;
          _ ← of_sum (assertConstraintsRepresentable definition);
          attributes ← of_sum (extractRequestedAttributes definition);
          mret (mkResolvedRequest "ad-hoc-presentation-request" attributes None (Some format))
      end
  end.

(** [{ ...dto }] *)
Definition dto_json (dto : RequestPresentationDto) : json :=
  JObj (match dto.(rq_verificationProfileId) with
        | Some v => [("verificationProfileId", match v with Some s => JStr s | None => JNull end)]
        | None => []
        end ++
        match dto.(rq_presentationDefinition) with
        | Some v => [("presentationDefinition", match v with Some o => JObj o | None => JNull end)]
        | None => []
        end ++
        opt_field "format" (definition_format_str <$> dto.(rq_format)) ++
        opt_field "connectionId" dto.(rq_connectionId)).

(** ** Settling the operation *)

Definition request_outcome (exchange : AgentPresentation) : ProtocolOutcome :=
  default (mkOutcome (Some PROCESSING) None None None)
    (resolveProtocolOutcome present_proof (pres_ex_str exchange.(ag_state))).

Definition ag_correlation (exchange : AgentPresentation) : string :=
  default exchange.(ag_id) exchange.(ag_externalId).

(** Only a terminal outcome carries a result; [None] leaves the column. *)
Definition request_result (exchange : AgentPresentation) : option (option json) :=
  match (request_outcome exchange).(po_operationState) with
  | Some FAILED =>
      Some (Some (JObj [("code", JStr "PRESENTATION_REQUEST_FAILED");
                        ("message", JStr (default "Presentation request failed" exchange.(ag_error)))]))
  | Some COMPLETED => Some (Some (agent_presentation_json exchange))
  | _ => None
  end.

Definition settle_request (tenantId : string) (operation : Operation) (exchange : AgentPresentation)
    : Prog (Operation * bool) :=
  let outcome := request_outcome exchange in
  updated ← transitionStateIfForward operation.(op_id) outcome.(po_operationState)
              (operationStatesBelow outcome.(po_operationState)) (request_result exchange) Tx
              (Some (Some (ag_correlation exchange)));
  match updated with
  | None => current ← current_operation operation.(op_id) Tx; mret (current, false)
  | Some u =>
      _ ← match outcome.(po_event) with
          | Some event => dispatch Tx tenantId event (ag_correlation exchange)
          | None => mret tt
          end;
      mret (u, true)
  end.

Definition request_failed (tenantId : string) (operation : Operation) (code message : string)
    : Prog (Operation * bool) :=
  updated ← transitionStateIfForward operation.(op_id) (Some FAILED) (operationStatesBelow (Some FAILED))
              (Some (Some (JObj [("code", JStr code); ("message", JStr message)]))) Tx None;
  match updated with
  | None => current ← current_operation operation.(op_id) Tx; mret (current, false)
  | Some u =>
      _ ← dispatch Tx tenantId "presentation.request.failed" operation.(op_id);
      mret (u, true)
  end.

(** The error is rethrown once the operation is settled. *)
Definition failOperation (tenantId : string) (operation : Operation) (error : Exn) : Prog Operation :=
  let code := match is_adapter_error error with Some (c, _) => c | None => "ADAPTER_ERROR" end in
  '(_, won) ← transaction (request_failed tenantId operation code (exn_message error));
  _ ← prog_when won (audit_emit NoTx tenantId "verify" "presentation_request" operation.(op_id));
  throw error.

Section Service.
Context (registry : Registry).

Definition request_resolveAdapter (tenantId : string) (connection : Connection)
    (format : option CredentialDefinitionFormat) : Prog ResolvedAdapter :=
  catch
    (resolve registry tenantId (format ≫= toPortCredentialFormat)
       (mkResolveOptions None (Some connection.(cn_connectorType)) None false))
    (fun e => match is_adapter_error e with
              | Some (_, message) => throw (BadRequestException message)
              | None => throw e
              end).

Definition executeRequest (tenantId : string) (operation : Operation) (connection : Connection)
    (resolved : ResolvedRequest) (adapter : ResolvedAdapter) : Prog Operation :=
  if negb (truthy_str connection.(cn_externalConnectionId))
  then throw (BadRequestException ("Connection '" +:+ connection.(cn_id) +:+
         "' has no external connection id yet."))
  else
    answer ← catch
      (x ← adapter.(rs_adapter).(ad_requestPresentation) adapter.(rs_context)
             (mkPresentationRequest connection.(cn_externalConnectionId) resolved.(rr_name)
                resolved.(rr_requestedAttributes) resolved.(rr_requestedPredicates));
       mret (inr x))
      (fun e => mret (inl e));
    match answer with
    | inl error => failOperation tenantId operation error
    | inr exchange =>
        '(current, won) ← transaction (settle_request tenantId operation exchange);
        _ ← prog_when won
              (_ ← audit_emit NoTx tenantId "verify" "presentation_request" operation.(op_id);
               match (request_outcome exchange).(po_event) with
               | Some event => emit_event event tenantId (ag_correlation exchange)
               | None => mret tt
               end);
        mret current
    end.

Definition requestPresentation (tenantId : string) (dto : RequestPresentationDto) : Prog Operation :=
  _ ← of_sum (assertExactlyOneMode dto);
  if negb (truthy_str dto.(rq_connectionId))
  then throw (BadRequestException
         "OID4VP presentation requests are not supported yet; connection_id is required.")
  else
    resolved ← resolveRequest tenantId dto;
    row ← connections_findById (default "" dto.(rq_connectionId));
    match row with
    | Some connection =>
        if negb (String.eqb connection.(cn_tenantId) tenantId)
        then throw (BadRequestException ("Connection '" +:+ default "" dto.(rq_connectionId) +:+
               "' was not found for this tenant."))
        else
          _ ← of_sum (assertConnectionUsable connection);
          adapter ← request_resolveAdapter tenantId connection resolved.(rr_format);
          operation ← createOperation
            (mkCreateOp tenantId PRESENTATION_REQUEST
               (JObj [("method", JStr "POST");
                      ("path", JStr (API_BASE_PATH +:+ "/tenants/" +:+ tenantId +:+
                         "/presentations/request"));
                      ("body", dto_json dto)]) None None None) NoTx;
          executeRequest tenantId operation connection resolved adapter
    | None => throw (BadRequestException ("Connection '" +:+ default "" dto.(rq_connectionId) +:+
                "' was not found for this tenant."))
    end.
End Service.
