(* ===== verification/PresentationCorrectness.v ===== *)
(** * Presentation requests: correctness

    What a request carries to the agent, that its operation is settled whether
    the agent answers or fails, and two things the service does not guarantee:
    which connector the request goes through, and what becomes of the operation
    when the connection has no identifier at the agent. *)

From Stdlib Require Import Ascii ZArith Lia.
From stdpp Require Import base decidable strings sets gmap list list_relations sorting.
From S2P Require Import Prelude Js Entities StateMapping OperationTtl Db Pagination.
From S2P Require Import ConnectorRepository OperationService CredentialRepository.
From S2P Require Import DefinitionRepository ConnectionRepository ConnectorService AdapterRegistry.
From S2P Require Import ProtocolStateChange Lifecycle OperationCorrectness CredentialExchangeService.
From S2P Require Import ServiceLogic.
From S2P Require Import ExchangeCorrectness CredentialAction ActionCorrectness.
From S2P Require Import JsText FormatValidators ProfileService PresentationRequest.

Local Open Scope Z_scope.

(** ** Settling *)

(** The state the agent's answer calls for. *)
Definition answered_state (x : AgentPresentation) : OperationState :=
  match x.(ag_state) with
  | Verified | PDone => COMPLETED
  | PAbandoned => FAILED
  | _ => PROCESSING
  end.

Lemma request_outcome_state x : (request_outcome x).(po_operationState) = Some (answered_state x).
Proof. unfold request_outcome, answered_state. destruct (ag_state x); vm_compute; reflexivity. Qed.

Lemma event_operations (ev : option string) t r w w' u :
  (match ev with Some e => dispatch Tx t e r | None => mret tt end) w = (w', inr u) ->
  w'.(working).(db_operations) = w.(working).(db_operations).
Proof.
  destruct ev; intros E; [by apply (dispatch_operations Tx) in E|by injection E as <-].
Qed.

(** The shape of both settling transactions. *)
Lemma settle_shape id st r e (notify : Operation -> Prog unit) w w' o won :
  (forall u w1 w2 x, notify u w1 = (w2, inr x) ->
     w2.(working).(db_operations) = w1.(working).(db_operations)) ->
  transaction (updated ← transitionStateIfForward id (Some st) (operationStatesBelow (Some st)) r Tx e;
               match updated with
               | None => current ← current_operation id Tx; mret (current, false)
               | Some u => _ ← notify u; mret (u, true)
               end) w = (w', inr (o, won)) ->
  settled_row id st w'.(committed) o.
Proof.
  intros Hn. unfold transaction. destruct (mbind (M:=Prog) _ _ _) as [w1 [x|x]] eqn:E; [done|].
  intros H. injection H as <- ->. apply bind_inr in E as (w2 & res & E0 & E).
  apply transition_in_tx in E0. destruct res as [u|].
  - destruct E0 as [Hu Hst]. apply bind_inr in E as (w3 & x & E1 & E). injection E as <- <- <-.
    apply Hn in E1. split; [|by left]. simpl. by rewrite E1.
  - destruct E0 as [-> Hlost]. apply bind_inr in E as (w3 & cur & E1 & E). injection E as <- <- <-.
    apply current_operation_inr in E1 as [-> Hc]. simpl in *. split; [done|right; by apply Hlost].
Qed.

Lemma settle_request_row t op x w w' o won :
  transaction (settle_request t op x) w = (w', inr (o, won)) ->
  settled_row op.(op_id) (answered_state x) w'.(committed) o.
Proof.
  intros E. unfold settle_request in E. cbv zeta in E. rewrite (request_outcome_state x) in E.
  eapply (settle_shape _ _ _ _ (fun _ => match (request_outcome x).(po_event) with
    | Some event => dispatch Tx t event (ag_correlation x) | None => mret tt end)); [|exact E].
  intros u w1 w2 y. apply event_operations.
Qed.

Lemma request_failed_row t op code msg w w' o won :
  transaction (request_failed t op code msg) w = (w', inr (o, won)) ->
  settled_row op.(op_id) FAILED w'.(committed) o.
Proof.
  intros E. eapply (settle_shape _ _ _ _ (fun _ => dispatch Tx t "presentation.request.failed" (op_id op)));
    [|exact E]. intros u w1 w2 y Ed. by apply (dispatch_operations Tx) in Ed.
Qed.

#[export] Instance anything_request_failed t op code msg : VPres Tx anything (request_failed t op code msg).
Proof. unfold request_failed, current_operation, operations_findById. solve_frame. Qed.
#[export] Instance anything_settle_request t op x : VPres Tx anything (settle_request t op x).
Proof. unfold settle_request, current_operation, operations_findById. cbv zeta. solve_frame. Qed.

(** ** Running the request *)

(** The operation is stored, in the state asked for, unless another request had already
    taken it as far or further. *)
Definition brought_to (id : string) (st : OperationState) (d : DB) (o : Operation) : Prop :=
  d.(db_operations) !! id = Some o /\ (o.(op_state) = st \/ op_terminal o.(op_state)).

Lemma settled_brought id st d o : st <> PENDING -> settled_row id st d o -> brought_to id st d o.
Proof.
  intros Hst [H1 H2]. split; [done|]. destruct H2 as [|H2]; [by left|].
  rewrite operationStatesBelow_spec in H2. unfold op_terminal.
  destruct st, (op_state o); try done; auto; by destruct H2.
Qed.

Lemma answered_not_pending x : answered_state x <> PENDING.
Proof. unfold answered_state. by destruct (ag_state x). Qed.

(** An audit entry that follows a transaction leaves the operations alone, and never
    throws. *)
Lemma audit_after t a rt i won w w' r :
  prog_when won (audit_emit NoTx t a rt i) w = (w', r) ->
  r = inr tt /\ w'.(committed).(db_operations) = w.(committed).(db_operations).
Proof.
  destruct won; simpl; [|by intros [= <- <-]]. intros E. destruct r as [e|[]].
  - exfalso. unfold audit_emit, catch in E. by destruct (send _ _ w) as [? []].
  - split; [done|]. by apply audit_emit_operations in E.
Qed.

(** The transaction that was to record what the agent answered threw, and the caller got
    its error: nothing of it stays. *)
Definition not_recorded {A} (record : Prog A) (w1 w' : World) (r : Exn + Operation) : Prop :=
  exists w2 e, transaction record w1 = (w2, inl e) /\ r = inl e /\ w'.(committed) = w1.(committed).

(** What follows the agent's answer at [w1]. *)
Definition recorded (t : string) (op : Operation) (w1 : World) (answer : Exn + AgentPresentation)
    (w' : World) (r : Exn + Operation) : Prop :=
  match answer with
  | inr x => (exists o, r = inr o /\ brought_to op.(op_id) (answered_state x) w'.(committed) o) \/
             not_recorded (settle_request t op x) w1 w' r
  | inl e => (r = inl e /\ exists o, brought_to op.(op_id) FAILED w'.(committed) o) \/
             exists code message, not_recorded (request_failed t op code message) w1 w' r
  end.

Lemma failOperation_recorded t op e w1 w' r :
  failOperation t op e w1 = (w', r) -> recorded t op w1 (inl e) w' r.
Proof.
  unfold failOperation. cbv zeta. intros E. unfold mbind at 1, prog_bind at 1 in E.
  destruct (transaction _ w1) as [w2 [e'|[o won]]] eqn:Etx.
  - injection E as <- <-. right. eexists _, _, w2, e'. split; [exact Etx|]. split; [done|].
    apply transaction_throws in Etx; [done|apply _].
  - apply request_failed_row in Etx. unfold mbind, prog_bind in E.
    destruct (prog_when _ _ w2) as [w3 q] eqn:Ea. apply audit_after in Ea as [-> Hops].
    injection E as <- <-. left. split; [done|]. exists o. apply settled_brought; [done|].
    by eapply settled_row_same.
Qed.

Lemma settle_recorded t op x w1 w' r :
  ('(current, won) ← transaction (settle_request t op x);
   _ ← prog_when won (_ ← audit_emit NoTx t "verify" "presentation_request" op.(op_id);
                      match (request_outcome x).(po_event) with
                      | Some event => emit_event event t (ag_correlation x)
                      | None => mret tt
                      end);
   mret current) w1 = (w', r) -> recorded t op w1 (inr x) w' r.
Proof.
  intros E. unfold mbind at 1, prog_bind at 1 in E.
  destruct (transaction _ w1) as [w2 [e'|[o won]]] eqn:Etx.
  - injection E as <- <-. right. exists w2, e'. split; [exact Etx|]. split; [done|].
    apply transaction_throws in Etx; [done|apply _].
  - apply settle_request_row in Etx. left. unfold mbind at 1, prog_bind at 1 in E.
    assert (exists w3, prog_when won (_ ← audit_emit NoTx t "verify" "presentation_request" op.(op_id);
      match (request_outcome x).(po_event) with
      | Some event => emit_event event t (ag_correlation x) | None => mret tt end) w2 = (w3, inr tt) /\
      w3.(committed).(db_operations) = w2.(committed).(db_operations)) as (w3 & Ew & Hops).
    { destruct won; [|by exists w2]. cbn [prog_when].
      destruct (audit_emit NoTx t "verify" "presentation_request" op.(op_id) w2) as [w4 q] eqn:Ea.
      pose proof (audit_after _ _ _ _ true w2 w4 q Ea) as [-> Hops]. erewrite bind_run by exact Ea.
      exists (match (request_outcome x).(po_event) with
              | Some event => (emit_event event t (ag_correlation x) w4).1 | None => w4 end).
      by destruct (po_event _). }
    rewrite Ew in E. injection E as <- <-. exists o. split; [done|].
    apply settled_brought; [apply answered_not_pending|]. by eapply settled_row_same.
Qed.

#[export] Instance read_only_resolveRequest t dto : ReadOnly (resolveRequest t dto).
Proof.
  unfold resolveRequest, resolveProfile, resolveProfileByNameVersion, vprofiles_findById,
    vprofiles_findByNameAndVersion. solve_read_only.
Qed.
#[export] Instance read_only_cn i : ReadOnly (connections_findById i).
Proof. unfold connections_findById. apply _. Qed.
#[export] Instance rotates_resolveAdapter registry t cn f :
  Rotates t (request_resolveAdapter registry t cn f).
Proof.
  unfold request_resolveAdapter. apply rotates_catch; [apply _|]. intros e.
  destruct (is_adapter_error e) as [[]|]; apply _.
Qed.

(** What a request has done by the time it turns to the agent: it has resolved what to
    ask for and through which adapter, over an established connection of the tenant, and
    has committed a new operation, still pending. *)
Record begun (registry : Registry) (t : string) (dto : RequestPresentationDto) (w w0 : World)
    (cn : Connection) (rr : ResolvedRequest) (ra : ResolvedAdapter) (op : Operation) : Prop := {
  bg_connection : exists i, dto.(rq_connectionId) = Some i /\ w.(committed).(db_connections) !! i = Some cn;
  bg_tenant : cn.(cn_tenantId) = t;
  bg_usable : cn.(cn_state) ∈ USABLE_CONNECTION_STATES /\ cn.(cn_protocol) <> OPENID4VC;
  bg_resolved : resolveRequest t dto w = (w, inr rr);
  bg_adapter : exists w5, request_resolveAdapter registry t cn rr.(rr_format) w = (w5, inr ra) /\
               rotated t w.(committed) w5.(committed) /\
               w0.(committed).(db_operations) = <[op.(op_id) := op]> w5.(committed).(db_operations);
  bg_fresh : w.(committed).(db_operations) !! op.(op_id) = None;
  bg_operation : op.(op_tenantId) = t /\ op.(op_type) = PRESENTATION_REQUEST /\ op.(op_state) = PENDING
}.

Lemma request_begun registry t dto w w' r :
  requestPresentation registry t dto w = (w', r) ->
  (exists e, r = inl e) /\ rotated t w.(committed) w'.(committed) \/
  exists w0 cn rr ra op, begun registry t dto w w0 cn rr ra op /\ executeRequest t op cn rr ra w0 = (w', r).
Proof.
  unfold requestPresentation. intros E. pose proof (rotated_refl t w.(committed)) as Hrefl.
  unfold mbind at 1, prog_bind at 1 in E. destruct (of_sum _ w) as [w1 [e|u]] eqn:E1;
    apply (read_only_run _) in E1 as ->; [left; injection E as <- <-; by split; [eexists|]|].
  destruct (negb (truthy_str _)) eqn:Ec; [left; injection E as <- <-; by split; [eexists|]|].
  unfold mbind at 1, prog_bind at 1 in E. destruct (resolveRequest t dto w) as [w1 [e|rr]] eqn:Er;
    pose proof (read_only_run _ _ _ _ Er) as ->; [left; injection E as <- <-; by split; [eexists|]|].
  unfold connections_findById, read in E. unfold mbind at 1, prog_bind at 1 in E. cbn [view] in E.
  destruct (db_connections (committed w) !! _) as [cn|] eqn:Ecn; [|left; injection E as <- <-; by split; [eexists|]].
  destruct (String.eqb_spec (cn_tenantId cn) t) as [Ht|]; [|left; injection E as <- <-; by split; [eexists|]].
  cbn [negb] in E. unfold mbind at 1, prog_bind at 1 in E.
  destruct (of_sum (assertConnectionUsable cn) w) as [w1 [e|[]]] eqn:Eu;
    pose proof (read_only_run _ _ _ _ Eu) as ->; [left; injection E as <- <-; by split; [eexists|]|].
  pose proof (rotates_resolveAdapter registry t cn rr.(rr_format) w) as Hrot%rotates_rotated.
  unfold mbind at 1, prog_bind at 1 in E.
  destruct (request_resolveAdapter _ _ _ _ w) as [w5 [e|ra]] eqn:Ea; simpl in Hrot;
    [left; injection E as <- <-; by split; [eexists|]|].
  unfold mbind at 1, prog_bind at 1 in E. destruct (createOperation _ _ w5) as [w0 [e|op]] eqn:Eo.
  { left. injection E as <- <-. apply createOperation_throws in Eo as [-> _]. split; [by eexists|done]. }
  right. exists w0, cn, rr, ra, op. split; [|exact E].
  apply createOperation_row in Eo as (x & id & -> & Hops & _ & _ & Hfresh). simpl in Hops, Hfresh.
  assert (w5.(committed).(db_operations) = w.(committed).(db_operations)) as H5 by (by destruct Hrot as (T & _ & ->)).
  split; simpl; try done.
  - destruct (rq_connectionId dto) as [i|]; [|done]. by exists i.
  - unfold assertConnectionUsable in Eu. destruct (bool_decide_reflect (cn_state cn ∈ USABLE_CONNECTION_STATES)); [|done].
    split; [done|]. simpl in Eu. by case_bool_decide.
  - exists w5. by split_and!.
  - by rewrite <-H5.
Qed.

(** C30: a presentation request is settled by what the agent does.  A request either
    fails before it has stored anything, with nothing changed but the encryption of the
    tenant's connectors; or it has begun: it committed a new pending operation for this
    request.  If the connection has no identifier at the agent, the request then fails
    and its operation stays pending, as it was written.  Otherwise the agent is asked,
    over that connection, for exactly what the request resolved to, and what it did
    decides: its answer settles the operation, committed in the state the answer calls
    for (or terminal, when another request had settled it meanwhile), and is what the
    caller gets; its error fails the operation, committed as failed (or terminal), and
    is the error the caller gets; and only when the transaction that was to record this
    threw does the caller get that error, with nothing recorded. *)
Theorem presentation_request_settles registry t dto w w' r :
  requestPresentation registry t dto w = (w', r) ->
  (exists e, r = inl e) /\ rotated t w.(committed) w'.(committed) \/
  exists w0 cn rr ra op, begun registry t dto w w0 cn rr ra op /\
    if truthy_str cn.(cn_externalConnectionId) then
      exists w1 answer,
        ra.(rs_adapter).(ad_requestPresentation) ra.(rs_context)
          (mkPresentationRequest cn.(cn_externalConnectionId) rr.(rr_name) rr.(rr_requestedAttributes)
             rr.(rr_requestedPredicates)) w0 = (w1, answer) /\
        recorded t op w1 answer w' r
    else (exists e, r = inl e) /\ w' = w0.
Proof.
  intros [H|(w0 & cn & rr & ra & op & Hb & E)]%request_begun; [by left|right].
  exists w0, cn, rr, ra, op. split; [exact Hb|]. unfold executeRequest in E.
  destruct (truthy_str (cn_externalConnectionId cn)); cbn [negb] in E; [|injection E as <- <-; by split; [eexists|]].
  set (q := mkPresentationRequest _ _ _ _) in *.
  destruct (ad_requestPresentation (rs_adapter ra) (rs_context ra) q w0) as [w1 answer] eqn:Eag.
  exists w1, answer. split; [done|].
  destruct answer as [e|x]; (erewrite bind_run in E by (unfold catch, mbind, prog_bind; rewrite Eag; reflexivity)).
  - by apply failOperation_recorded.
  - by apply settle_recorded.
Qed.

(** ** The contract with the other requests *)

Section Contract.
Context (registry : Registry) (own : string -> Prop) (t : string) (Ht : own t).
Context (laws : forall ty a, registry.(rg_adapters) ty = Some a -> AdapterLaws (Evo own) a).
Abbreviation mine := (fun x : string => x = t).

Lemma txkeeps_settle_shape id st r e (notify : Prog unit) :
  VPres Tx (Evo mine) notify ->
  txkeeps mine (has_op t id)
    (updated ← transitionStateIfForward id st (operationStatesBelow st) r Tx e;
     match updated with
     | None => current ← current_operation id Tx; mret (current, false)
     | Some u => _ ← notify; mret (u, true)
     end).
Proof.
  intros Hn. apply txkeeps_seq; [apply stable_has_op|by apply (txkeeps_below mine t)|].
  intros [u|]; apply txkeeps_pres.
  - apply txpres_bind; [by apply txpres_vpres|intros; apply _].
  - apply txpres_bind; [apply txpres_read_only, _|intros; apply _].
Qed.

Lemma keeps_verify_audit id : keeps own (has_op t id)
  (audit_emit NoTx t "verify" "presentation_request" id).
Proof. eapply (keeps_statement _ mine); [by intros y ->|by apply vpres_audit_emit]. Qed.

Lemma keeps_executeRequest op cn rr ra :
  AdapterLaws (Evo own) ra.(rs_adapter) ->
  keeps own (has_op t op.(op_id)) (executeRequest t op cn rr ra).
Proof.
  intros HL. pose proof (stable_has_op own t op.(op_id)) as HS. unfold executeRequest.
  destruct (negb _); [apply keeps_read_only, _|]. apply keeps_seq; [done|apply keeps_pres|].
  { apply pres_catch; [apply _| |intros; apply _]. apply pres_bind; [apply _|apply _|intros; apply _]. }
  intros [e|x].
  - unfold failOperation. cbv zeta. apply keeps_seq; [done| |].
    + apply (keeps_tx own t Ht), txkeeps_settle_shape. by apply vpres_dispatch.
    + intros [o won]. apply keeps_seq; [done|apply keeps_when, keeps_verify_audit|].
      intros _. apply keeps_read_only, _.
  - apply keeps_seq; [done| |].
    + apply (keeps_tx own t Ht). unfold settle_request. cbv zeta.
      apply (txkeeps_settle_shape _ _ _ _ (match (request_outcome x).(po_event) with
        | Some event => dispatch Tx t event (ag_correlation x) | None => mret tt end)).
      destruct (po_event _); [by apply vpres_dispatch|apply _].
    + intros [o won]. apply keeps_seq; [done| |intros; apply keeps_read_only, _]. apply keeps_when.
      apply keeps_seq; [done|apply keeps_verify_audit|]. intros _.
      apply keeps_pres. destruct (po_event _); apply _.
Qed.

Lemma keeps_requestPresentation dto :
  keeps own (fun _ => True) (requestPresentation registry t dto).
Proof.
  unfold requestPresentation. apply keeps_seq; [apply stable_True|apply keeps_read_only, _|]. intros _.
  destruct (negb _); [apply keeps_read_only, _|].
  apply keeps_seq; [apply stable_True|apply keeps_read_only, _|]. intros rr.
  apply keeps_seq; [apply stable_True|apply keeps_read_only, _|]. intros [cn|]; [|apply keeps_read_only, _].
  destruct (negb _); [apply keeps_read_only, _|].
  apply keeps_seq; [apply stable_True|apply keeps_read_only, _|]. intros _.
  apply (keeps_bind own _ (fun ra _ => AdapterLaws (Evo own) ra.(rs_adapter)));
    [apply stable_True|apply (keeps_rotates own _ t); [apply _|exact Ht]| |].
  - intros w w' ra _ _ [E|(w1 & e & _ & E)]%catch_inr; [|by destruct (is_adapter_error e) as [[]|]].
    apply resolve_registered in E as [ty Hty]. by eapply laws.
  - intros ra. apply (keeps_bind own _ (fun o d => has_op t o.(op_id) d /\ AdapterLaws (Evo own) ra.(rs_adapter))).
    + by intros d d' _ _ Hd.
    + eapply (keeps_statement _ mine); [by intros x ->|by apply vpres_createOperation].
    + intros w w' o _ [_ HL] E. apply createOperation_row in E as (x & i & -> & Hops & _). simpl in Hops.
      split; [|done]. eexists. rewrite Hops. simpl. by rewrite lookup_insert_eq.
    + intros o w K (_ & Ho & HL). by apply keeps_executeRequest.
Qed.
End Contract.

(** ** What is asked *)

(** No construct the agent cannot be given. *)
Definition representable (definition : list (string * json)) : Prop :=
  (forall l, assoc "submission_requirements" definition = Some (JArr l) -> l = []) /\
  forall ds d fs f, assoc "input_descriptors" definition = Some (JArr ds) -> d ∈ ds ->
    descriptor_fields d = Some fs -> f ∈ fs -> get_prop "filter" (Some f) = None.

Lemma assertConstraints_ok definition :
  assertConstraintsRepresentable definition = inr tt -> representable definition.
Proof.
  unfold assertConstraintsRepresentable. intros H. split.
  - intros l Hl. rewrite Hl in H. by destruct l.
  - intros ds d fs f Hds Hd Hfs Hf.
    assert (existsb (fun d => existsb has_filter (default [] (descriptor_fields d))) ds = false) as Hn.
    { rewrite Hds in H. destruct (existsb _ ds); [|done]. by repeat case_match. }
    destruct (get_prop "filter" (Some f)) as [v|] eqn:Ev; [|done]. exfalso.
    apply not_true_iff_false in Hn. apply Hn. apply existsb_exists. exists d.
    split; [by apply list_elem_of_In|]. rewrite Hfs. simpl. apply existsb_exists. exists f.
    split; [by apply list_elem_of_In|]. unfold has_filter. rewrite Ev. by apply bool_decide_true.
Qed.

Definition predicate_carried (p : VerificationPredicate) (q : RequestedPredicate) : Prop :=
  q.(rp_name) = p.(pr_attribute) /\ q.(rp_pType) = p.(pr_condition) /\
  q.(rp_pValue) = JsNumber.of_string p.(pr_value) /\ q.(rp_pValue) <> NNaN.

Lemma map_sum_Forall2 {A B} (f : A -> Exn + B) l l' :
  map_sum f l = inr l' -> Forall2 (fun a b => f a = inr b) l l'.
Proof.
  revert l'. induction l as [|a l IH]; intros l'; simpl; [by intros [= <-]|].
  destruct (f a) as [|b] eqn:Ea; [done|]. destruct (map_sum f l) as [|bs]; [done|].
  intros [= <-]. constructor; [done|by apply IH].
Qed.

Lemma mapPredicates_carried ps out :
  mapPredicates ps = inr out -> Forall2 predicate_carried (default [] ps) (default [] out).
Proof.
  unfold mapPredicates. destruct ps as [[|p l]|]; [by intros [= <-]| |by intros [= <-]].
  destruct (map_sum _ _) as [|bs] eqn:E; [done|]. intros [= <-]. simpl.
  apply map_sum_Forall2 in E. eapply Forall2_impl; [exact E|]. intros x y. unfold map_predicate.
  destruct (JsNumber.of_string (pr_value x)) eqn:En; intros [= <-]; by repeat split.
Qed.

(** The source of a request: a published profile of the tenant, or the definition
    in the request. *)
Definition request_source (t : string) (dto : RequestPresentationDto) (d : DB)
    (definition : list (string * json)) (stored : option (list string))
    (ps : option (list VerificationPredicate)) : Prop :=
  (exists i p pid, dto.(rq_verificationProfileId) = Some (Some pid) /\
     d.(db_vprofiles) !! i = Some p /\ p.(vp_tenantId) = t /\ p.(vp_status) = IP_PUBLISHED /\
     definition = p.(vp_presentationDefinition) /\ stored = p.(vp_requestedAttributes) /\
     ps = p.(vp_predicates)) \/
  (dto.(rq_verificationProfileId) = None /\ dto.(rq_presentationDefinition) = Some (Some definition) /\
   stored = None /\ ps = None).

Lemma resolveProfile_run t pid w w' p :
  resolveProfile t pid w = (w', inr p) -> w' = w /\ (exists i, w.(committed).(db_vprofiles) !! i = Some p) /\
  p.(vp_tenantId) = t /\ p.(vp_status) = IP_PUBLISHED.
Proof.
  unfold resolveProfile. intros E. apply bind_inr in E as (w1 & row & E1 & E).
  assert (w1 = w /\ forall q, row = Some q -> exists i, w.(committed).(db_vprofiles) !! i = Some q)
    as [-> Hrow].
  { destruct (UUID_REGEX_test pid); [injection E1 as <- <-; eauto|].
    unfold resolveProfileByNameVersion in E1. destruct (split_first_slash pid) as [[[] []]|]; try done.
    injection E1 as <- <-. split; [done|]. intros q Hq. by apply find_one_Some in Hq as [_ ?]. }
  destruct row as [q|]; [|done]. destruct (String.eqb_spec (vp_tenantId q) t) as [Ht|]; [|done].
  destruct (bool_decide_reflect (vp_status q = IP_PUBLISHED)); [|done].
  injection E as <- <-. split_and!; auto.
Qed.

(** The agent is asked for exactly what was specified.  When a request resolves,
    its source is a published profile of the caller's tenant or the definition in
    the request itself; the source uses no construct the agent call cannot carry
    (no submission requirements, no field filters); the attributes are those
    stored with the profile, or those the definition's paths name; and every
    predicate goes out with its attribute, its condition and its numeric value,
    none of them lost or made NaN. *)
Theorem presentation_asks_what_was_specified t dto w w' rr :
  resolveRequest t dto w = (w', inr rr) -> w' = w /\
  exists definition stored ps, request_source t dto w.(committed) definition stored ps /\
    representable definition /\
    match stored with
    | Some names => rr.(rr_requestedAttributes) = names
    | None => extractRequestedAttributes definition = inr rr.(rr_requestedAttributes)
    end /\
    Forall2 predicate_carried (default [] ps) (default [] rr.(rr_requestedPredicates)).
Proof.
  unfold resolveRequest. destruct (rq_verificationProfileId dto) as [[pid|]|] eqn:Ep; [|done|].
  - intros E. apply bind_inr in E as (w1 & p & E1 & E). apply resolveProfile_run in E1 as (-> & [i Hi] & Ht & Hs).
    apply bind_inr in E as (w2 & [] & E2 & E). injection E2 as <- E2. apply assertConstraints_ok in E2.
    apply bind_inr in E as (w3 & names & E3 & E). apply bind_inr in E as (w4 & ps & E4 & E).
    injection E4 as <- E4. injection E as <- <-. simpl. apply mapPredicates_carried in E4.
    assert (w3 = w /\ match vp_requestedAttributes p with
            | Some l => names = l
            | None => extractRequestedAttributes (vp_presentationDefinition p) = inr names end) as [-> Hn].
    { destruct (vp_requestedAttributes p); by injection E3 as <- ->. }
    split; [done|]. eexists _, _, _. split; [left; by exists i, p, pid|]. by split_and!.
  - destruct (rq_format dto) as [f|]; [|done]. intros E. apply bind_inr in E as (w1 & def & E1 & E).
    destruct (rq_presentationDefinition dto) as [[d|]|] eqn:Ed; [|done..]. injection E1 as <- <-.
    apply bind_inr in E as (w2 & [] & E2 & E). injection E2 as <- E2. apply assertConstraints_ok in E2.
    apply bind_inr in E as (w3 & names & E3 & E). injection E3 as <- E3. injection E as <- <-. simpl.
    split; [done|]. exists d, None, None. split; [by right|]. by split_and!.
Qed.

(** ** Which connector *)

(** A presentation request can leave the connector its connection belongs to.
    For a tenant with a default connector, every request goes through that
    connector, whatever the connector and the type of the connection it names:
    the agent of the default connector is asked for a proof over a connection
    that another agent holds. *)
Theorem presentation_ignores_connection registry t cn w w' tn k ra :
  find_tenant t w.(committed).(db_tenants) = Some tn ->
  get_prop "default_connector" tn.(tn_config) = Some (JStr k) -> k <> "" -> connectors_keyed w.(committed) ->
  request_resolveAdapter registry t cn None w = (w', inr ra) ->
  ra.(rs_connector).(con_id) = k /\ ra.(rs_context).(cx_connectorId) = k.
Proof.
  intros Ht Hdef Hk K E. unfold request_resolveAdapter in E.
  apply catch_inr in E as [E|(w1 & e & _ & E)]; [|by destruct (is_adapter_error e) as [[]|]].
  unfold resolve in E. run_inv E. injection E0 as <- <-. run_inv E.
  pose proof (rotates_findConnector registry t None (Some (cn_connectorType cn)) w) as (T & n & _ & Hw).
  simpl in E0. rewrite E0 in Hw. simpl in Hw. apply findConnector_spec in E0 as [_ Hch]; [|done]. unfold connector_choice in Hch.
  subst w0. simpl in Hch. rewrite Ht in Hch. simpl in Hch. rewrite Hdef in Hch. simpl in Hch.
  destruct k as [|x k]; [done|]. injection Hch as Hch.
  run_inv E. run_inv E. injection E1 as <- (cs & _ & ->)%buildContext_spec. run_inv E. injection E as <- <-. done.
Qed.

(** ** Examples *)

(** Two connectors, the first the tenant's default; the connection was made
    through the second. *)
Definition second_connector : Connector := mkConnector "k2" "t" TRACTION "https://other" true "" (num_of_Z 1) None 0 0.
Definition proof_connection : Connection :=
  mkConnection "c1" "t" (Some "agent-c1") None None ACTIVE TRACTION (Some "k2") DIDCOMM_V1 [] 0 0.
Definition age_profile : VerificationProfile :=
  mkVProfile "v1" "t" "age" "1.0" None
    [("input_descriptors", JArr [JObj [("id", JStr "d")]])] (Some ["birthdate"])
    (Some [mkVPredicate "age" ">=" "18"]) [] false "auto" IP_PUBLISHED 0 0.
Definition presentation_db : DB :=
  set_vprofiles {[ "v1" := age_profile ]}
    (set_connections {[ "c1" := proof_connection ]}
      (set_tenants {[ "t" := sample_tenant "t" (Some (JObj [("default_connector", JStr "k1")])) ]}
        (set_connectors {[ "k1" := sample_connector; "k2" := second_connector ]} empty_db))).
Definition age_request : RequestPresentationDto :=
  mkRequestDto (Some (Some "age/1.0")) None None (Some "c1").

(** The agent answers that the request went out. *)
Lemma presentation_request_settles_witness :
  exists w' o, requestPresentation sample_registry "t" age_request (world_of presentation_db 0) = (w', inr o) /\
  exists w0 cn rr ra op, begun sample_registry "t" age_request (world_of presentation_db 0) w0 cn rr ra op /\
    cn = proof_connection /\ exists w1 answer, recorded "t" op w1 answer w' (inr o).
Proof.
  assert (match (requestPresentation sample_registry "t" age_request (world_of presentation_db 0)).2
          with inl _ => False | inr _ => True end) as Hok by (vm_compute; exact I).
  destruct (requestPresentation sample_registry "t" age_request (world_of presentation_db 0))
    as [w' [e|o]] eqn:E; [destruct Hok|].
  exists w', o. split; [reflexivity|].
  destruct (presentation_request_settles sample_registry "t" age_request (world_of presentation_db 0) w' (inr o) E)
    as [[[e [=]] _]|(w0 & cn & rr & ra & op & Hb & H)].
  exists w0, cn, rr, ra, op. split; [exact Hb|].
  destruct (bg_connection _ _ _ _ _ _ _ _ _ Hb) as (i & [= <-] & Hcn).
  assert (cn = proof_connection) as Hc.
  { change (db_connections (committed (world_of presentation_db 0))) with ({[ "c1" := proof_connection ]} : gmap string Connection) in Hcn.
    rewrite lookup_singleton_eq in Hcn. congruence. }
  split; [exact Hc|]. rewrite Hc in H. change (truthy_str (cn_externalConnectionId proof_connection)) with true in H.
  destruct H as (w1 & answer & _ & H). exists w1, answer. exact H.
Defined.

Lemma presentation_asks_what_was_specified_witness :
  let rr := mkResolvedRequest "age" ["birthdate"]
              (Some [mkPredicate "age" ">=" (JsNumber.of_string "18")]) None in
  resolveRequest "t" age_request (world_of presentation_db 0) = (world_of presentation_db 0, inr rr) /\
  exists definition stored ps, request_source "t" age_request presentation_db definition stored ps /\
    representable definition.
Proof.
  intros rr.
  assert (resolveRequest "t" age_request (world_of presentation_db 0)
          = (world_of presentation_db 0, inr rr)) as E by (vm_compute; reflexivity).
  split; [exact E|].
  destruct (presentation_asks_what_was_specified "t" age_request (world_of presentation_db 0)
    (world_of presentation_db 0) rr E) as (_ & definition & stored & ps & H1 & H2 & _).
  exists definition, stored, ps. split; [exact H1|exact H2].
Defined.

Lemma presentation_ignores_connection_witness :
  cn_connectorId proof_connection = Some "k2" /\
  exists ra, request_resolveAdapter sample_registry "t" proof_connection None (world_of presentation_db 0)
             = (world_of presentation_db 0, inr ra) /\ ra.(rs_context).(cx_connectorId) = "k1".
Proof.
  split; [reflexivity|].
  exists (mkResolved silent_adapter sample_connector sample_context (Some AnonCreds)).
  assert (E : request_resolveAdapter sample_registry "t" proof_connection None (world_of presentation_db 0)
    = (world_of presentation_db 0, inr (mkResolved silent_adapter sample_connector sample_context (Some AnonCreds))))
    by (vm_compute; reflexivity).
  split; [exact E|].
  apply (presentation_ignores_connection sample_registry "t" proof_connection (world_of presentation_db 0)
    (world_of presentation_db 0) (sample_tenant "t" (Some (JObj [("default_connector", JStr "k1")]))) "k1"
    (mkResolved silent_adapter sample_connector sample_context (Some AnonCreds))).
  - reflexivity.
  - reflexivity.
  - discriminate.
  - apply map_Forall_to_list. vm_compute. repeat constructor.
  - exact E.
Defined.
