(* ===== verification/CredentialOffer.v ===== *)
(** * CredentialOfferService

    Models credential/credential-offer.service.ts and credential/attribute-mapping.util.ts
    with the lookups they make in the profile and definition repositories: choosing
    the credential definition, checking what is offered against it, recording the
    offer and settling it with the agent's answer. *)

From Stdlib Require Import Ascii ZArith Lia.
From stdpp Require Import base decidable strings sets gmap list list_relations sorting.
From S2P Require Import Prelude Js Entities StateMapping OperationTtl Db Pagination.
From S2P Require Import OperationService CredentialRepository.
From S2P Require Import DefinitionRepository ConnectionRepository AdapterRegistry.
From S2P Require Import ConnectionService.
From S2P Require Import CredentialExchangeService CredentialAction FormatValidators.

Local Open Scope Z_scope.

(** ** The request *)

Record OfferDelivery := mkDelivery {
  dl_protocol : string;
  dl_connectionId : string
}.

Record OfferCredentialRequestDto := mkOfferDto {
  of_profileId : option string;
  of_credentialDefinitionId : option string;
  of_credentialSubject : list (string * json);
  of_delivery : option OfferDelivery;
  of_options : option (option bool)                 (* options.autoIssue *)
}.

(** ** Attributes *)

(** An array index: the canonical decimal of an integer below [2^32 - 1]. *)
Fixpoint decimal_of (acc : N) (s : string) : option N :=
  match s with
  | EmptyString => Some acc
  | String c s' =>
      let n := Ascii.N_of_ascii c in
      if ((48 <=? n) && (n <=? 57))%N then decimal_of (acc * 10 + (n - 48)) s' else None
  end.

Definition array_index (k : string) : option N :=
  match k with
  | EmptyString => None
  | String "0" (String _ _) => None
  | _ => match decimal_of 0 k with
         | Some n => if (n <? 4294967295)%N then Some n else None
         | None => None
         end
  end.

(** The order of an object's own properties: array indices ascending, then the
    others as they were added. *)
Definition index_le {A} (x y : string * A) : Prop :=
  (default 0 (array_index x.1) <= default 0 (array_index y.1))%N.

#[export] Instance index_le_dec {A} : RelDecision (index_le (A:=A)).
Proof. intros x y. unfold index_le. apply _. Defined.

Definition own_order {A} (o : list (string * A)) : list (string * A) :=
  merge_sort index_le (List.filter (fun kv => bool_decide (is_Some (array_index kv.1))) o) ++
  List.filter (fun kv => negb (bool_decide (is_Some (array_index kv.1)))) o.

Definition mergeAttributeDefaults (defaults attributes : list (string * json))
    : list (string * json) :=
  own_order (spread defaults attributes).

Definition toCredentialAttributes (attributes : list (string * json))
    : list (string * AttributeValue) :=
  (fun '(name, value) =>
     (name, match value with JStr s => AText s | v => ASerialized v end)) <$> attributes.

(** A flat value an AnonCreds claim may have. *)
Definition flat_claim (v : json) : bool :=
  match v with
  | JStr _ | JBool _ => true
  | JNum n => is_finite n
  | _ => false
  end.

(** ** Lookups *)

(** [s.lastIndexOf('/')], with the text on both sides. *)
Fixpoint split_last_slash (s : string) : option (string * string) :=
  match s with
  | EmptyString => None
  | String c s' =>
      match split_last_slash s' with
      | Some (name, version) => Some (String c name, version)
      | None => if eq_ascii c "/"%char then Some (EmptyString, s') else None
      end
  end.

(** ** The credential source *)

Record ResolvedCredentialSource := mkSource {
  src_credentialDefinitionId : string;
  src_externalCredentialDefinitionId : string;
  src_format : CredentialDefinitionFormat;
  src_connectorId : option string;
  src_schemaDefinition : list (string * json);
  src_defaults : list (string * json);
  src_issuanceProfileId : option string
}.

Definition assertDefinitionReady (d : CredentialDefinition) : Exn + unit :=
  if negb (bool_decide (d.(df_status) = DF_PUBLISHED))
  then inl (BadRequestException
              "Credential definition must be published before issuing credentials")
  else if negb (isCredentialDefinitionReadyForIssuance d)
  then inl (BadRequestException "Credential definition is not ready for issuance")
  else inr tt.

Definition source_of (d : CredentialDefinition) (defaults : list (string * json))
    (profileId : option string) : ResolvedCredentialSource :=
  mkSource d.(df_id) (default "" d.(df_externalId)) d.(df_format) d.(df_connectorId)
    d.(df_schemaDefinition) defaults profileId.

Definition resolveFromCredentialDefinition (tenantId credentialDefinitionId : string)
    : Prog ResolvedCredentialSource :=
  let notFound := throw (NotFoundException ("Credential definition '" +:+ credentialDefinitionId +:+
                    "' was not found")) in
  row ← definitions_findById credentialDefinitionId;
  match row with
  | None => notFound
  | Some d =>
      if negb (String.eqb d.(df_tenantId) tenantId) then notFound
      else _ ← of_sum (assertDefinitionReady d); mret (source_of d [] None)
  end.

Definition resolvePortFormat (f : CredentialDefinitionFormat) : Exn + CredentialFormat :=
  match toPortCredentialFormat f with
  | Some p => inr p
  | None => inl (BadRequestException ("Credential format '" +:+ definition_format_str f +:+
              "' is not yet supported for issuance"))
  end.

Definition toRequestBody (dto : OfferCredentialRequestDto) (delivery : OfferDelivery) : json :=
  JObj (match dto.(of_profileId) with Some p => [("profile_id", JStr p)] | None => [] end ++
        match dto.(of_credentialDefinitionId) with
        | Some d => [("credential_definition_id", JStr d)]
        | None => []
        end ++
        [("credential", JObj [("credentialSubject", JObj dto.(of_credentialSubject))]);
         ("delivery", JObj [("protocol", JStr delivery.(dl_protocol));
                            ("connection_id", JStr delivery.(dl_connectionId))])] ++
        match dto.(of_options) with
        | Some o => [("options", JObj [("auto_issue", JBool (default true o))])]
        | None => []
        end).

Section OfferService.
Context (registry : Registry) (validators : FormatValidatorRegistry).
(** [isUUID] of the class-validator package. *)
Context (isUUID : string -> bool).

Definition findProfile (tenantId profileId : string) : Prog (option IssuanceProfile) :=
  match split_last_slash profileId with
  | None =>
      if negb (isUUID profileId)
      then throw (BadRequestException ("profile_id '" +:+ profileId +:+
             "' is not a valid UUID or 'name/version'"))
      else profiles_findById profileId
  | Some (name, version) => profiles_findByNameAndVersion tenantId name version
  end.

Definition resolveFromProfile (tenantId profileId : string) : Prog ResolvedCredentialSource :=
  let refuse {A} what : Prog A :=
    throw (BadRequestException ("Issuance profile '" +:+ profileId +:+ what)) in
  profile ← findProfile tenantId profileId;
  match profile with
  | None => refuse "' was not found"
  | Some p =>
      if negb (String.eqb p.(ip_tenantId) tenantId) then refuse "' was not found"
      else if bool_decide (p.(ip_status) = IP_DRAFT) then refuse "' is not published"
      else if bool_decide (p.(ip_status) = IP_DEPRECATED) then refuse "' has been deprecated"
      else
        row ← definitions_findById p.(ip_credentialDefinitionId);
        match row with
        | None => refuse "' references a credential definition that is no longer active"
        | Some d =>
            if negb (String.eqb d.(df_tenantId) tenantId)
            then refuse "' references a credential definition that is no longer active"
            else
              _ ← of_sum (assertDefinitionReady d);
              mret (source_of d (default [] p.(ip_defaults)) (Some p.(ip_id)))
        end
  end.

Definition resolveCredentialSource (tenantId : string) (dto : OfferCredentialRequestDto)
    : Prog ResolvedCredentialSource :=
  match dto.(of_profileId), dto.(of_credentialDefinitionId) with
  | Some p, None => resolveFromProfile tenantId p
  | None, Some d => resolveFromCredentialDefinition tenantId d
  | _, _ => throw (BadRequestException
              "Exactly one of profile_id or credential_definition_id must be provided")
  end.

Definition assertAttributesValid (format : CredentialFormat)
    (schemaDefinition : list (string * json)) (attributes : list (string * AttributeValue))
    : Exn + unit :=
  if negb (validators_has format validators) then inr tt
  else
    match validators_resolve format validators with
    | inl e => inl e
    | inr v =>
        match v.(fv_validateAttributes) schemaDefinition attributes with
        | inl e => inl e
        | inr [] => inr tt
        | inr (_ :: _) => inl (BadRequestException "Credential attributes failed format validation")
        end
    end.

Definition offer_resolveAdapter (tenantId : string) (format : CredentialFormat)
    (connectorId : option string) : Prog ResolvedAdapter :=
  catch (resolve registry tenantId (Some format) (with_connector connectorId)) (fun error =>
    match is_adapter_error error with
    | Some (_, message) => throw (BadRequestException message)
    | None => throw error
    end).

(** Everything [offer] checks before it looks for an agent: the definition that
    is issued from, the delivery, and the request for the agent. *)
Definition prepare_offer (tenantId : string) (dto : OfferCredentialRequestDto)
    : Prog (ResolvedCredentialSource * OfferDelivery * OfferCredentialRequest) :=
  let refused := throw (BadRequestException "A didcomm-v1 delivery connection is required") in
  match dto.(of_delivery) with
  | None => refused
  | Some delivery =>
      if negb (String.eqb delivery.(dl_protocol) "didcomm-v1") ||
         String.eqb delivery.(dl_connectionId) ""
      then refused
      else
        source ← resolveCredentialSource tenantId dto;
        portFormat ← of_sum (resolvePortFormat source.(src_format));
        let attributes := mergeAttributeDefaults source.(src_defaults) dto.(of_credentialSubject) in
        if bool_decide (portFormat = AnonCreds) &&
           existsb (fun '(_, v) => negb (flat_claim v)) attributes
        then throw (BadRequestException
               "AnonCreds subject claims must be flat strings, finite numbers, or booleans")
        else
          let credentialAttributes := toCredentialAttributes attributes in
          _ ← of_sum (assertAttributesValid portFormat source.(src_schemaDefinition)
                        credentialAttributes);
          let offerRequest :=
            mkOfferRequest (Some delivery.(dl_connectionId))
              (Some source.(src_externalCredentialDefinitionId)) portFormat credentialAttributes
              (Some (default true (default None dto.(of_options)))) in
          match validateOfferCredentialRequest offerRequest with
          | Some _ => throw (BadRequestException "Offer request failed validation")
          | None => mret (source, delivery, offerRequest)
          end
  end.

(** The rows of a new offer, in one transaction. *)
Definition record_offer (tenantId : string) (dto : OfferCredentialRequestDto)
    (delivery : OfferDelivery) (source : ResolvedCredentialSource) (connectorId connectionId : string)
    : Prog (Operation * Credential) :=
  exchange ← exchanges_create (fun id now =>
    mkExchange id tenantId connectorId (Some connectionId) Issuer delivery.(dl_protocol)
      source.(src_format) ExPending None NotSubmitted None now now) Tx;
  operation ← createOperation
    (mkCreateOp tenantId CREDENTIAL_OFFER
       (JObj [("method", JStr "POST");
              ("path", JStr (API_BASE_PATH +:+ "/tenants/" +:+ tenantId +:+ "/credentials/offer"));
              ("body", toRequestBody dto delivery)]) None None (Some exchange.(ex_id))) Tx;
  credential ← credentials_create (fun id now =>
    mkCredential id tenantId source.(src_issuanceProfileId) (Some connectionId) connectorId None
      source.(src_format) OFFERED operation.(op_id) (Some exchange.(ex_id))
      (if truthy_str source.(src_issuanceProfileId) then JObj []
       else JObj [("credentialDefinitionId", JStr source.(src_credentialDefinitionId))])
      None None now now) Tx;
  mret (operation, credential).

Definition not_offerable {A} (credentialId operationId : string) : Prog A :=
  throw (JsError ("Credential '" +:+ credentialId +:+ "' was not in an offerable state " +:+
    "despite Operation '" +:+ operationId +:+ "' winning its own guard")).

Definition offer_outcome (exchange : AgentExchange) : ProtocolOutcome :=
  default (mkOutcome (Some PROCESSING) None None None)
    (resolveProtocolOutcome issue_credential (cred_ex_str exchange.(ae_state))).

Definition offer_result (exchange : AgentExchange) : option (option json) :=
  match (offer_outcome exchange).(po_operationState) with
  | Some FAILED =>
      Some (Some (JObj [("code", JStr "OFFER_FAILED");
                        ("message", JStr (default "Credential offer failed" exchange.(ae_error)))]))
  | Some COMPLETED => Some (Some (agent_exchange_json exchange))
  | _ => None
  end.

(** The transaction of an answered offer: the operation, and whether this
    caller's outcome is the one recorded. *)
Definition settle_offer (tenantId connectorId : string) (operation : Operation)
    (credential : Credential) (exchange : AgentExchange) : Prog (Operation * bool) :=
  let outcome := offer_outcome exchange in
  let externalId := ae_correlation exchange in
  _ ← (if truthy_str operation.(op_exchangeId) then
         transition ← exchanges_observe tenantId connectorId externalId
                        (cred_ex_str exchange.(ae_state)) Tx operation.(op_exchangeId);
         match transition with
         | Some t => prog_when (bool_decide (t.(et_to) = Ex RequestReceived))
                       (dispatch Tx tenantId "credential-exchange.request-received"
                          t.(et_exchangeId))
         | None => mret tt
         end
       else mret tt);
  updated ← transitionStateIfForward operation.(op_id) outcome.(po_operationState)
              (operationStatesBelow outcome.(po_operationState)) (offer_result exchange) Tx
              (Some (Some externalId));
  match updated with
  | None => current ← current_operation operation.(op_id) Tx; mret (current, false)
  | Some u =>
      _ ← match outcome.(po_credentialState) with
          | Some st =>
              now ← now_ms;
              ok ← credentials_updateStateIfForward credential.(cr_id) tenantId st
                     (credentialStatesBelow st)
                     (mkTimestamps (if bool_decide (st = ISSUED) then Some now else None) None
                        (Some (Some externalId))) Tx;
              if ok : bool then mret tt else not_offerable credential.(cr_id) operation.(op_id)
          | None => credentials_setExternalId credential.(cr_id) tenantId externalId Tx
          end;
      _ ← prog_when (bool_decide (outcome.(po_operationState) = Some COMPLETED) ||
                     bool_decide (outcome.(po_operationState) = Some FAILED))
            (dispatch Tx tenantId (default "credential.offer.failed" outcome.(po_event)) externalId);
      mret (u, true)
  end.

(** The transaction of an offer the agent failed to make. *)
Definition fail_offer (tenantId code message : string) (operation : Operation)
    (credential : Credential) : Prog Operation :=
  _ ← (if truthy_str operation.(op_exchangeId)
       then exchanges_markFailed tenantId (default "" operation.(op_exchangeId)) Tx
       else mret tt);
  failed ← transitionStateIfForward operation.(op_id) (Some FAILED)
             (operationStatesBelow (Some FAILED))
             (Some (Some (JObj [("code", JStr code); ("message", JStr message)]))) Tx None;
  match failed with
  | None => current_operation operation.(op_id) Tx
  | Some f =>
      ok ← credentials_updateStateIfForward credential.(cr_id) tenantId CFAILED
             (credentialStatesBelow CFAILED) no_timestamps Tx;
      if ok : bool then
        _ ← dispatch Tx tenantId "credential.offer.failed" operation.(op_id);
        mret f
      else not_offerable credential.(cr_id) operation.(op_id)
  end.

Definition executeOffer (tenantId : string) (operation : Operation) (credential : Credential)
    (resolved : ResolvedAdapter) (offerRequest : OfferCredentialRequest) : Prog Operation :=
  catch
    (exchange ← resolved.(rs_adapter).(ad_offerCredential) resolved.(rs_context) offerRequest;
     '(current, won) ← transaction (settle_offer tenantId resolved.(rs_connector).(con_id)
                                      operation credential exchange);
     _ ← audit_emit NoTx tenantId "issue" "credential" credential.(cr_id);
     _ ← match (offer_outcome exchange).(po_event) with
         | Some event => prog_when won (emit_event event tenantId (ae_correlation exchange))
         | None => mret tt
         end;
     mret current)
    (fun error =>
     match is_adapter_error error with
     | None => throw error
     | Some (code, message) =>
         current ← transaction (fail_offer tenantId code message operation credential);
         _ ← audit_emit NoTx tenantId "issue" "credential" credential.(cr_id);
         mret current
     end).

Definition offer (tenantId : string) (dto : OfferCredentialRequestDto) : Prog Operation :=
  '(source, delivery, offerRequest) ← prepare_offer tenantId dto;
  resolved ← offer_resolveAdapter tenantId offerRequest.(or_format) source.(src_connectorId);
  connection ← resolveForIssuance registry tenantId delivery.(dl_connectionId)
                 resolved.(rs_connector).(con_id);
  '(operation, credential) ← transaction (record_offer tenantId dto delivery source
                                            resolved.(rs_connector).(con_id) connection.(cn_id));
  executeOffer tenantId operation credential resolved
    (mkOfferRequest (Some (default "" connection.(cn_externalConnectionId)))
       offerRequest.(or_credentialDefinitionId) offerRequest.(or_format)
       offerRequest.(or_attributes) offerRequest.(or_autoIssue)).

Definition offer_reconcile (tenantId operationId : string) : Prog Operation :=
  row ← operations_findByIdForTenant operationId tenantId NoTx;
  match row with
  | None => throw (NotFoundException "Credential offer operation not found")
  | Some operation =>
      if negb (String.eqb operation.(op_type) CREDENTIAL_OFFER)
      then throw (NotFoundException "Credential offer operation not found")
      else if negb (truthy_str operation.(op_exchangeId))
      then throw (ConflictException "Offer has no linked credential exchange; do not resend")
      else
        _ ← exchange_reconcile registry tenantId (default "" operation.(op_exchangeId));
        updated ← operations_findByIdForTenant operationId tenantId NoTx;
        match updated with
        | Some u => mret u
        | None => throw (NotFoundException "Credential offer operation not found")
        end
  end.
End OfferService.
