(* ===== verification/OfferCorrectness.v ===== *)
(** * What an offer guarantees

    Only what the tenant may issue reaches the agent, and the rows an offer
    creates move together. *)

From Stdlib Require Import Ascii ZArith Lia.
From stdpp Require Import base decidable strings sets gmap list list_relations sorting.
From S2P Require Import Prelude Js Entities StateMapping OperationTtl Db Pagination.
From S2P Require Import OperationService CredentialRepository.
From S2P Require Import DefinitionRepository ConnectionRepository ConnectorService AdapterRegistry Auth.
From S2P Require Import ConnectionService.
From S2P Require Import ProtocolStateChange Lifecycle ProtocolLifecycle ProtocolNotification.
From S2P Require Import OperationCorrectness CredentialExchangeService ServiceLogic.
From S2P Require Import ConnectionCorrectness ExchangeCorrectness CredentialAction.
From S2P Require Import ActionCorrectness FormatValidators CredentialOffer.

Local Open Scope Z_scope.

(** ** Attributes *)

Lemma filter_partition {A} (f : A -> bool) l :
  List.filter f l ++ List.filter (fun x => negb (f x)) l ≡ₚ l.
Proof.
  induction l as [|x l IH]; simpl; [done|]. destruct (f x); simpl; [by rewrite IH|].
  by rewrite <-Permutation_middle, IH.
Qed.

Lemma own_order_perm {A} (o : list (string * A)) : own_order o ≡ₚ o.
Proof. unfold own_order. rewrite merge_sort_Permutation. apply filter_partition. Qed.

Lemma assoc_elem {A} k (v : A) o : NoDup o.*1 -> assoc k o = Some v <-> (k, v) ∈ o.
Proof.
  induction o as [|[k' v'] o IH]; simpl; [set_solver|]. intros [Hk Ho]%NoDup_cons.
  rewrite elem_of_cons. destruct (String.eqb_spec k k') as [->|Hne].
  - split; [intros [= ->]; by left|]. intros [[= ->]|Hin]; [done|].
    destruct Hk. by apply (list_elem_of_fmap_2 fst) in Hin.
  - rewrite IH by done. naive_solver.
Qed.

Lemma assoc_perm {A} k (o o' : list (string * A)) : NoDup o.*1 -> o ≡ₚ o' -> assoc k o = assoc k o'.
Proof.
  intros Hnd Hp. apply option_eq. intros v.
  rewrite !assoc_elem; [by rewrite Hp| |done]. by rewrite <-Hp.
Qed.

Lemma spread_keys {A} (a b : list (string * A)) : NoDup a.*1 -> NoDup (spread a b).*1.
Proof.
  unfold spread. revert a. induction b as [|[k v] b IH]; intros a Ha; simpl; [done|].
  by apply IH, assoc_set_keys.
Qed.

(** The claims a caller submits, with the profile's value for each omitted one. *)
Lemma assoc_merge k defaults attributes :
  NoDup defaults.*1 -> NoDup attributes.*1 ->
  assoc k (mergeAttributeDefaults defaults attributes) =
  match assoc k attributes with Some v => Some v | None => assoc k defaults end.
Proof.
  intros Hd Ha. unfold mergeAttributeDefaults.
  rewrite (assoc_perm k _ (spread defaults attributes)).
  - by apply assoc_spread.
  - rewrite own_order_perm. by apply spread_keys.
  - apply own_order_perm.
Qed.

Definition attribute_value (v : json) : AttributeValue :=
  match v with JStr s => AText s | v => ASerialized v end.

Lemma assoc_attributes k o :
  assoc k (toCredentialAttributes o) = attribute_value <$> assoc k o.
Proof.
  induction o as [|[k' v] o IH]; simpl; [done|]. destruct (String.eqb k k'); [|done]. by destruct v.
Qed.

(** ** The credential source *)

(** A definition the tenant may issue from. *)
Definition issuable (t : string) (d : DB) (df : CredentialDefinition) : Prop :=
  (exists i, d.(db_definitions) !! i = Some df) /\ df.(df_isActive) = true /\
  df.(df_tenantId) = t /\ df.(df_status) = DF_PUBLISHED /\ df.(df_registrationState) = RegReady.

(** The defaults of a published profile of the tenant, or none. *)
Definition profile_defaults (t : string) (d : DB) (defaults : list (string * json)) : Prop :=
  defaults = [] \/
  exists i p, d.(db_profiles) !! i = Some p /\ p.(ip_tenantId) = t /\ p.(ip_status) = IP_PUBLISHED /\
    defaults = default [] p.(ip_defaults).

#[export] Instance read_only_findProfile isUUID t p : ReadOnly (findProfile isUUID t p).
Proof. unfold findProfile, profiles_findById, profiles_findByNameAndVersion. solve_read_only. Qed.

Lemma findProfile_inr isUUID t id w w' p :
  findProfile isUUID t id w = (w', inr (Some p)) ->
  w' = w /\ exists i, w.(committed).(db_profiles) !! i = Some p.
Proof.
  intros E. split; [by eapply (read_only_run (findProfile _ _ _))|]. unfold findProfile in E.
  destruct (split_last_slash id) as [[n v]|].
  - injection E as _ Hp. by apply find_one_Some in Hp as [_ ?].
  - case_match; [done|]. injection E as _ Hp. eauto.
Qed.

Lemma definitions_findById_inr id w w' d :
  definitions_findById id w = (w', inr (Some d)) ->
  w' = w /\ (exists i, w.(committed).(db_definitions) !! i = Some d) /\ d.(df_isActive) = true.
Proof.
  unfold definitions_findById. intros E. injection E as <- H.
  destruct (_ !! id) as [d'|] eqn:Ed; [|done]. destruct (df_isActive d') eqn:Ea; [|done].
  injection H as <-. eauto.
Qed.

Lemma assertDefinitionReady_inr d u :
  assertDefinitionReady d = inr u ->
  d.(df_status) = DF_PUBLISHED /\ d.(df_registrationState) = RegReady /\
  truthy_str d.(df_externalId) = true /\ truthy_str d.(df_connectorId) = true.
Proof.
  unfold assertDefinitionReady, isCredentialDefinitionReadyForIssuance.
  case_bool_decide; [|done]. simpl. case_bool_decide; [|done]. simpl.
  destruct (truthy_str _); [|done]. by destruct (truthy_str _).
Qed.

(** What a resolved source rests on. *)
Definition sound_source (t : string) (d : DB) (s : ResolvedCredentialSource) : Prop :=
  exists df p, s = source_of df s.(src_defaults) p /\ issuable t d df /\
    truthy_str df.(df_externalId) = true /\ truthy_str df.(df_connectorId) = true /\
    profile_defaults t d s.(src_defaults).

Lemma resolveCredentialSource_inr isUUID t dto w w' s :
  resolveCredentialSource isUUID t dto w = (w', inr s) -> w' = w /\ sound_source t w.(committed) s.
Proof.
  unfold resolveCredentialSource.
  destruct (of_profileId dto) as [pid|], (of_credentialDefinitionId dto) as [did|]; try done.
  - unfold resolveFromProfile. cbv zeta. intros E. run_inv E. destruct a as [p|]; [|done].
    apply findProfile_inr in E0 as [-> [i Hi]].
    destruct (String.eqb_spec (ip_tenantId p) t) as [Hpt|]; [|done]. simpl in E.
    case_bool_decide; [done|]. case_bool_decide; [done|]. run_inv E. destruct a as [d|]; [|done].
    apply definitions_findById_inr in E0 as (-> & Hd & Ha).
    destruct (String.eqb_spec (df_tenantId d) t); [|done]. simpl in E. run_inv E.
    injection E0 as <- Hr. injection E as <- <-. split; [done|].
    apply assertDefinitionReady_inr in Hr as (? & ? & ? & ?). exists d, (Some (ip_id p)).
    split_and!; try done. right. exists i, p. split_and!; try done. by destruct (ip_status p).
  - unfold resolveFromCredentialDefinition. cbv zeta. intros E. run_inv E. destruct a as [d|]; [|done].
    apply definitions_findById_inr in E0 as (-> & Hd & Ha).
    destruct (String.eqb_spec (df_tenantId d) t); [|done]. simpl in E. run_inv E.
    injection E0 as <- Hr. injection E as <- <-. split; [done|].
    apply assertDefinitionReady_inr in Hr as (? & ? & ? & ?). exists d, None.
    split_and!; try done. by left.
Qed.

Lemma validators_resolve_has f vs v : validators_resolve f vs = inr v -> validators_has f vs = true.
Proof.
  unfold validators_resolve, validators_has. destruct (List.find _ vs) as [x|] eqn:Ef; [|done].
  intros _. apply List.find_some in Ef as [Hin Hx]. apply existsb_exists. eauto.
Qed.

Lemma assertAttributesValid_anoncreds vs schema attributes u :
  validators_resolve AnonCreds vs = inr anonCredsFormatValidator ->
  assertAttributesValid vs AnonCreds schema attributes = inr u ->
  AnonCredsFormatValidator.validateAttributes schema attributes = [].
Proof.
  intros Hv. unfold assertAttributesValid. rewrite (validators_resolve_has _ _ _ Hv), Hv. simpl.
  by destruct (AnonCredsFormatValidator.validateAttributes _ _).
Qed.

(** Only what the tenant may issue is put to an agent.  When the checks of an
    offer pass, nothing was written, and the request rests on an active, published
    and registered credential definition of the tenant: it names that definition
    on its connector and has its format.  Every attribute is the claim the caller
    submitted or, where the caller left it out, the default of a published profile
    of the tenant.  An AnonCreds request has flat values and exactly the attributes
    the definition's schema asks for. *)
Theorem offer_prepared_sound validators isUUID t dto w w' source delivery req :
  validators_resolve AnonCreds validators = inr anonCredsFormatValidator ->
  NoDup dto.(of_credentialSubject).*1 ->
  (forall i p, w.(committed).(db_profiles) !! i = Some p -> NoDup (default [] p.(ip_defaults)).*1) ->
  prepare_offer validators isUUID t dto w = (w', inr (source, delivery, req)) ->
  w' = w /\ exists df p,
    issuable t w.(committed) df /\ profile_defaults t w.(committed) source.(src_defaults) /\
    source = source_of df source.(src_defaults) p /\
    truthy_str df.(df_externalId) = true /\ truthy_str df.(df_connectorId) = true /\
    req.(or_credentialDefinitionId) = df.(df_externalId) /\
    toPortCredentialFormat df.(df_format) = Some req.(or_format) /\
    (forall n, assoc n req.(or_attributes) =
       attribute_value <$> match assoc n dto.(of_credentialSubject) with
                           | Some v => Some v
                           | None => assoc n source.(src_defaults)
                           end) /\
    req.(or_attributes) <> [] /\
    (req.(or_format) = AnonCreds ->
       AnonCredsFormatValidator.validateAttributes df.(df_schemaDefinition) req.(or_attributes) = [] /\
       forall n v, (n, ASerialized v) ∈ req.(or_attributes) -> flat_claim v = true).
Proof.
  intros Hval Hsub Hprof. unfold prepare_offer. cbv zeta.
  destruct (of_delivery dto) as [dl|]; [|done]. case_match; [done|]. intros E. run_inv E.
  apply resolveCredentialSource_inr in E0 as (-> & df & p & Hsrc & Hiss & Hx & Hk & Hdef).
  run_inv E. injection E0 as <- Hfmt. set (attrs := mergeAttributeDefaults _ _) in E.
  destruct (bool_decide (a0 = AnonCreds) && _) eqn:Eflat; [done|]. run_inv E. injection E0 as <- Hvalid.
  destruct (validateOfferCredentialRequest _) eqn:Eoffer; [done|]. injection E as <- <- <- <-.
  split; [done|]. exists df, p. simpl. rewrite Hsrc in Hvalid, Hfmt |- *. simpl in Hvalid, Hfmt |- *.
  assert (NoDup (src_defaults a).*1) as Hdnd.
  { destruct Hdef as [->|(i & q & Hi & _ & _ & ->)]; [constructor|by eapply Hprof]. }
  split_and!; try done.
  - by destruct (df_externalId df).
  - unfold resolvePortFormat in Hfmt. destruct (toPortCredentialFormat _); by simplify_eq.
  - intros n. rewrite assoc_attributes. unfold attrs. by rewrite assoc_merge.
  - intros Hnil. unfold validateOfferCredentialRequest in Eoffer. simpl in Eoffer.
    rewrite Hnil in Eoffer. by destruct (bool_decide (a0 ∈ credential_formats)).
  - intros ->. split; [by eapply assertAttributesValid_anoncreds|].
    intros n v ([m u] & Hm & Hin)%list_elem_of_fmap. rewrite bool_decide_eq_true_2 in Eflat by done.
    simpl in Eflat. destruct (flat_claim v) eqn:Ev; [done|]. exfalso.
    assert (u = v) as -> by (destruct u; by simplify_eq).
    assert (existsb (fun '(_, v) => negb (flat_claim v)) attrs = true) as Ht; [|congruence].
    apply existsb_exists. exists (m, v). rewrite <-list_elem_of_In. by rewrite Ev.
Qed.

(** A definition on the sample connector, a profile with a default, and an offer
    that leaves the default out. *)
Definition sample_definition : CredentialDefinition :=
  mkDefinition "df" "t" "Person" ANONCREDS
    [("attr_names", JArr [JStr "name"; JStr "city"]); ("schema_name", JStr "person");
     ("schema_version", JStr "1.0")]
    (Some "cred-def") (Some "k1") RegReady (Some "o1") [("format", JStr "anoncreds")] None TRACTION
    "1.0" DF_PUBLISHED None true 0 0.
Definition sample_profile : IssuanceProfile :=
  mkProfile "ip" "t" "person" "1" None "df" [] (Some [("city", JStr "Victoria")]) None [] "any"
    IP_PUBLISHED 0 0.
Definition sample_dto : OfferCredentialRequestDto :=
  mkOfferDto (Some "person/1") None [("name", JStr "Ann")] (Some (mkDelivery "didcomm-v1" "cn")) None.
Definition issuing_db : DB :=
  set_connections holder_db.(db_connections)
    (set_tenants holder_db.(db_tenants) (set_connectors holder_db.(db_connectors)
       (set_definitions {[ "df" := sample_definition ]}
          (set_profiles {[ "ip" := sample_profile ]} empty_db)))).
Definition sample_validators : FormatValidatorRegistry :=
  [anonCredsFormatValidator; mdlFormatValidator].

Lemma offer_prepared_sound_witness :
  exists source delivery req,
    prepare_offer sample_validators (fun _ => true) "t" sample_dto (world_of issuing_db 0) =
      (world_of issuing_db 0, inr (source, delivery, req)) /\
    req.(or_attributes) <> [].
Proof.
  destruct (prepare_offer sample_validators (fun _ => true) "t" sample_dto (world_of issuing_db 0))
    as [w' r] eqn:E.
  assert (exists x, r = inr x) as [[[source delivery] req] ->].
  { vm_compute in E. injection E as _ <-. eexists. reflexivity. }
  destruct (offer_prepared_sound sample_validators (fun _ => true) "t" sample_dto
    (world_of issuing_db 0) w' source delivery req) as (-> & df & p & H).
  - reflexivity.
  - vm_compute. apply NoDup_singleton.
  - intros i q Hq.
    change (({[ "ip" := sample_profile ]} : gmap string IssuanceProfile) !! i = Some q) in Hq.
    apply lookup_singleton_Some in Hq as [_ <-]. apply NoDup_singleton.
  - exact E.
  - exists source, delivery, req. split; [reflexivity|]. apply H.
Defined.

(** ** The rows of an offer *)

Lemma exchanges_create_row mk m w w' x :
  exchanges_create mk m w = (w', inr x) ->
  (exists id now, x = mk id now) /\
  (view m w').(db_operations) = (view m w).(db_operations) /\
  (view m w').(db_credentials) = (view m w).(db_credentials).
Proof.
  unfold exchanges_create, write_exchange. intros E. run_inv E. injection E0 as <- <-. run_inv E.
  injection E0 as <- <-. run_inv E. injection E0 as <- <-. case_bool_decide; [done|]. run_inv E.
  injection E as <- <-. run_inv E0. injection E as <- <-. destruct (existsb _ _); [done|].
  injection E0 as <- _. split; [eauto|]. by destruct m.
Qed.

Lemma credentials_create_row mk m w w' c :
  credentials_create mk m w = (w', inr c) ->
  exists id now, c = mk id now /\
  (view m w').(db_operations) = (view m w).(db_operations) /\
  (view m w').(db_credentials) !! id = Some c.
Proof.
  unfold credentials_create, write_credential. intros E. run_inv E. injection E0 as <- <-. run_inv E.
  injection E0 as <- <-. run_inv E. injection E0 as <- <-. case_bool_decide; [done|]. run_inv E.
  injection E as <- <-. run_inv E0. injection E as <- <-. destruct (existsb _ _); [done|].
  injection E0 as <- _. eexists _, _. split; [done|]. destruct m; simpl; by rewrite lookup_insert_eq.
Qed.

(** A new offer as its transaction commits it. *)
Definition offer_rows (t : string) (d : DB) (o : Operation) (c : Credential) : Prop :=
  d.(db_operations) !! o.(op_id) = Some o /\ d.(db_credentials) !! c.(cr_id) = Some c /\
  o.(op_tenantId) = t /\ o.(op_state) = PENDING /\ c.(cr_tenantId) = t /\ c.(cr_state) = OFFERED /\
  c.(cr_operationId) = o.(op_id) /\ c.(cr_exchangeId) = o.(op_exchangeId).

Lemma record_offer_rows t dto dl src k cn w w' o c :
  transaction (record_offer t dto dl src k cn) w = (w', inr (o, c)) -> offer_rows t w'.(committed) o c.
Proof.
  unfold transaction. destruct (record_offer _ _ _ _ _ _ _) as [w1 [e|x]] eqn:E; [done|].
  intros H. injection H as <- ->. unfold record_offer in E. run_inv E. run_inv E. run_inv E.
  injection E as <- <- <-. apply createOperation_row in E1 as (x & id & -> & Hop & _ & _).
  apply credentials_create_row in E2 as (cid & now & -> & Hop2 & Hcr). simpl in *.
  unfold offer_rows. simpl. rewrite Hop2, Hop, lookup_insert_eq. by split_and!.
Qed.

Section Contract.
Context (registry : Registry) (own : string -> Prop) (t : string) (Ht : own t).
Context (laws : forall ty a, registry.(rg_adapters) ty = Some a -> AdapterLaws (Evo own) a).

Abbreviation mine := (fun x : string => x = t).

Lemma txkeeps_record_offer dto dl src k cn P : txkeeps mine P (record_offer t dto dl src k cn).
Proof.
  apply txkeeps_pres. unfold record_offer.
  apply txpres_bind; [apply txpres_vpres, vpres_exchanges_create; by intros|]. intros x.
  apply txpres_bind; [by apply txpres_vpres, vpres_createOperation|]. intros o.
  apply txpres_bind; [apply txpres_vpres, vpres_credentials_create; by intros|]. intros; apply _.
Qed.

Lemma txkeeps_settle_offer k op c x :
  txkeeps mine (has_op t op.(op_id)) (settle_offer t k op c x).
Proof.
  pose proof (stable_has_op mine t op.(op_id)) as HS. unfold settle_offer. cbv zeta.
  apply txkeeps_seq; [done| |].
  { apply txkeeps_pres. case_match; [|apply _].
    apply txpres_bind; [by apply txpres_vpres, vpres_exchanges_observe|].
    intros [tr|]; [|apply _]. apply txpres_prog_when, txpres_vpres. by apply vpres_dispatch. }
  intros _. apply txkeeps_seq; [done|by apply (txkeeps_below mine t)|].
  intros [u|]; apply txkeeps_pres.
  - apply txpres_bind.
    + destruct (po_credentialState _); [|by apply txpres_vpres, vpres_credentials_setExternalId].
      apply txpres_bind; [apply _|]. intros now.
      apply txpres_bind; [by apply txpres_vpres, vpres_credentials_updateStateIfForward|].
      intros []; apply _.
    + intros _. apply txpres_bind; [|intros; apply _].
      apply txpres_prog_when, txpres_vpres. by apply vpres_dispatch.
  - apply txpres_bind; [apply txpres_read_only, _|intros; apply _].
Qed.

Lemma txkeeps_fail_offer code msg op c :
  txkeeps mine (has_op t op.(op_id)) (fail_offer t code msg op c).
Proof.
  pose proof (stable_has_op mine t op.(op_id)) as HS. unfold fail_offer.
  apply txkeeps_seq; [done| |].
  { apply txkeeps_pres. case_match; [|apply _]. by apply txpres_vpres, vpres_exchanges_markFailed. }
  intros _. apply txkeeps_seq; [done|by apply (txkeeps_below mine t)|].
  intros [u|]; apply txkeeps_pres; [|apply txpres_read_only, _].
  apply txpres_bind; [by apply txpres_vpres, vpres_credentials_updateStateIfForward|].
  intros []; [|apply _]. apply txpres_bind; [by apply txpres_vpres, vpres_dispatch|intros; apply _].
Qed.

Lemma keeps_executeOffer op c r req :
  AdapterLaws (Evo own) r.(rs_adapter) ->
  keeps own (has_op t op.(op_id)) (executeOffer t op c r req).
Proof.
  intros HL. pose proof (stable_has_op own t op.(op_id)) as HS. unfold executeOffer.
  apply keeps_catch; [done| |].
  - apply keeps_seq; [done|apply keeps_pres, _|]. intros x.
    apply keeps_seq; [done|by eapply keeps_tx, txkeeps_settle_offer|]. intros [current won].
    apply keeps_audit; [done..|]. intros _. apply pres_bind; [apply _| |intros; apply _].
    case_match; apply _.
  - intros e. destruct (is_adapter_error e) as [[code msg]|]; [|apply keeps_read_only, _].
    apply keeps_seq; [done|by eapply keeps_tx, txkeeps_fail_offer|].
    intros current. apply keeps_audit; [done..|intros; apply _].
Qed.

#[local] Instance read_only_prepare vs isUUID tt' dto : ReadOnly (prepare_offer vs isUUID tt' dto).
Proof.
  unfold prepare_offer, resolveCredentialSource, resolveFromProfile, resolveFromCredentialDefinition.
  unfold definitions_findById. cbv zeta. solve_read_only.
Qed.

Lemma keeps_offer vs isUUID dto : keeps own (fun _ => True) (offer registry vs isUUID t dto).
Proof.
  unfold offer. apply keeps_seq; [apply stable_True|apply keeps_read_only, _|].
  intros [[src dl] req].
  apply (keeps_bind own _ (fun r _ => AdapterLaws (Evo own) r.(rs_adapter))).
  - apply stable_True.
  - apply (keeps_rotates own _ t); [|done]. unfold offer_resolveAdapter. apply rotates_catch; [apply _|].
    intros e. destruct (is_adapter_error e) as [[]|]; apply _.
  - intros w w' r _ _ [E|(w1 & e & _ & E)]%catch_inr; [|by destruct (is_adapter_error e) as [[]|]].
    apply resolve_registered in E as [ty Hty]. by eapply laws.
  - intros r. apply (keeps_bind own _ (fun _ _ => True)).
    + by intros d d' _ _ Hd.
    + apply keeps_resolveForIssuance; [done|done|by intros d d' _ _ Hd].
    + done.
    + intros cn. apply (keeps_bind own _ (fun oc d => has_op t oc.1.(op_id) d)).
      * by intros d d' _ _ Hd.
      * by eapply keeps_tx, txkeeps_record_offer.
      * intros w w' [o c] _ _ E. apply record_offer_rows in E as (Ho & _ & Hot & _). by exists o.
      * intros [o c]. intros w K [[[_ HL] _] Hh]. by apply keeps_executeOffer.
Qed.

Lemma keeps_offer_reconcile id : keeps own (fun _ => True) (offer_reconcile registry t id).
Proof.
  unfold offer_reconcile. apply keeps_seq; [apply stable_True| |].
  { apply keeps_read_only. unfold operations_findByIdForTenant. apply _. }
  intros [o|]; [|apply keeps_read_only, _]. case_match; [apply keeps_read_only, _|].
  case_match; [apply keeps_read_only, _|].
  apply keeps_seq; [apply stable_True|apply keeps_exchange_reconcile; [done..|apply stable_True]|].
  intros _. apply keeps_read_only. unfold operations_findByIdForTenant. solve_read_only.
Qed.
End Contract.

(** ** Settling an offer *)

(** Statements that leave operations and credentials alone. *)
Definition same_records (d d' : DB) : Prop :=
  d'.(db_operations) = d.(db_operations) /\ d'.(db_credentials) = d.(db_credentials).

#[export] Instance same_records_preorder : PreOrder same_records.
Proof. split; [by intros d|]. intros d1 d2 d3 [? ?] [? ?]. split; congruence. Qed.

#[export] Instance same_records_send m j : VPres m same_records (send m j).
Proof. intros w. unfold send. destruct (send_fate _ _); by destruct m. Qed.
#[export] Instance same_records_dispatch m t e r : VPres m same_records (dispatch m t e r).
Proof. unfold dispatch. apply vpres_bind; [apply _..|]. intros; apply _. Qed.
#[export] Instance same_records_audit m t a rt ri : VPres m same_records (audit_emit m t a rt ri).
Proof. unfold audit_emit. apply vpres_catch; [apply _..|]. intros e. destruct m, e; apply _. Qed.
#[export] Instance same_records_write_exchange m i x : VPres m same_records (write_exchange m i x).
Proof.
  unfold write_exchange. apply vpres_bind; [apply _..|]. intros []; [apply _|]. by apply vpres_modify.
Qed.
#[export] Instance same_records_save x m : VPres m same_records (exchanges_save x m).
Proof.
  unfold exchanges_save. apply vpres_bind; [apply _..|]. intros [r|].
  - case_decide; apply _.
  - apply _.
Qed.
#[export] Instance same_records_observe t k e s m i : VPres m same_records (exchanges_observe t k e s m i).
Proof.
  unfold exchanges_observe. cbv zeta. apply vpres_bind; [apply _..|]. intros [x|]; [|apply _].
  case_match; [apply _|]. destruct (observed _ _); apply _.
Qed.
#[export] Instance same_records_markFailed t i m : VPres m same_records (exchanges_markFailed t i m).
Proof.
  unfold exchanges_markFailed, exchanges_lock. apply vpres_bind; [apply _..|]. intros [x|]; [|apply _].
  destruct (advance x ExFailed) as [[]|]; apply _.
Qed.

Lemma same_records_run {A} m (p : Prog A) `{!VPres m same_records p} w w' r :
  p w = (w', r) -> other_view m w' = other_view m w /\ same_records (view m w) (view m w').
Proof. intros E. pose proof (vpres (m:=m) (R:=same_records) (p:=p) w) as H. by rewrite E in H. Qed.

(** What a won statement on a credential leaves. *)
Lemma update_credential_row i g f m w w' :
  update_credential m i g f w = (w', inr true) ->
  (exists c, (view m w).(db_credentials) !! i = Some c /\ g c = true /\
     (view m w').(db_credentials) !! i = Some (f w.(clock) c)) /\
  (view m w').(db_operations) = (view m w).(db_operations).
Proof.
  unfold update_credential, write_credential. intros E. run_inv E. injection E0 as <- <-.
  destruct (db_credentials (view m w) !! i) as [c|] eqn:Ec; [|done].
  destruct (g c) eqn:Eg; [|done]. run_inv E. injection E0 as <- <-. run_inv E. injection E as <-.
  run_inv E0. injection E as <- <-. destruct (existsb _ _); [done|]. injection E0 as <- _.
  split; [|by destruct m]. exists c. destruct m; simpl; by rewrite lookup_insert_eq.
Qed.

Lemma update_credential_lost_world i g f m w w' :
  update_credential m i g f w = (w', inr false) -> w' = w.
Proof.
  unfold update_credential. intros E. run_inv E. injection E0 as <- <-.
  destruct (_ !! i) as [c|]; [|by injection E as <-]. destruct (g c); [|by injection E as <-].
  run_inv E. run_inv E. done.
Qed.

(** The credential state that goes with an operation's outcome. *)
Definition credential_for (s : OperationState) : CredentialState :=
  match s with PENDING | PROCESSING => OFFERED | COMPLETED => ISSUED | FAILED => CFAILED end.

Lemma offer_outcome_cases x :
  exists st, (offer_outcome x).(po_operationState) = Some st /\ st <> PENDING /\
    (offer_outcome x).(po_credentialState) =
      if decide (st = PROCESSING) then None else Some (credential_for st).
Proof.
  unfold offer_outcome. destruct (ae_state x); vm_compute; eexists; (split; [reflexivity|]); by split.
Qed.

(** The credential row of a settled offer. *)
Definition offer_credential (cid : string) (c : Credential) (st : OperationState) (d : DB) : Prop :=
  exists c', d.(db_credentials) !! cid = Some c' /\ c'.(cr_state) = credential_for st /\
    c'.(cr_operationId) = c.(cr_operationId) /\ c'.(cr_exchangeId) = c.(cr_exchangeId).

Lemma offer_credential_same cid c st d d' :
  d'.(db_credentials) = d.(db_credentials) -> offer_credential cid c st d -> offer_credential cid c st d'.
Proof. unfold offer_credential. by intros ->. Qed.

Lemma won_row i st r e w w1 o op :
  transitionStateIfForward i (Some st) (operationStatesBelow (Some st)) r Tx e w = (w1, inr (Some o)) ->
  w.(working).(db_operations) !! i = Some op ->
  o.(op_id) = op.(op_id) /\ o.(op_exchangeId) = op.(op_exchangeId) /\ o.(op_state) = st.
Proof.
  intros (o0 & x & H0 & _ & -> & _)%transitionStateIfForward_won Hop. simpl in H0.
  assert (o0 = op) as -> by congruence. unfold apply_patch. by destruct r, e.
Qed.

(** The two ways a settled offer writes its credential. *)
Lemma settle_credential st cid t ts c w w' :
  st = COMPLETED \/ st = FAILED ->
  credentials_updateStateIfForward cid t (credential_for st) (credentialStatesBelow (credential_for st))
    ts Tx w = (w', inr true) ->
  w.(working).(db_credentials) !! cid = Some c ->
  offer_credential cid c st w'.(working) /\ w'.(working).(db_operations) = w.(working).(db_operations).
Proof.
  intros Hst ((c0 & Hc0 & _ & Hc') & Hops)%update_credential_row Hc. split; [|done]. simpl in *.
  assert (c0 = c) as -> by congruence. eexists. by split_and!.
Qed.

Lemma offered_credential cid t ext c w w' u :
  credentials_setExternalId cid t ext Tx w = (w', inr u) ->
  w.(working).(db_credentials) !! cid = Some c -> c.(cr_state) = OFFERED ->
  offer_credential cid c PROCESSING w'.(working) /\
  w'.(working).(db_operations) = w.(working).(db_operations).
Proof.
  unfold credentials_setExternalId. intros E Hc Hs. run_inv E. injection E as <- _. destruct a.
  - apply update_credential_row in E0 as ((c0 & Hc0 & _ & Hc') & Hops). split; [|done]. simpl in *.
    assert (c0 = c) as -> by congruence. eexists. by split_and!.
  - apply update_credential_lost_world in E0 as ->. split; [|done]. by exists c.
Qed.

Lemma setExternalId_operations cid t ext w w' u :
  credentials_setExternalId cid t ext Tx w = (w', inr u) ->
  w'.(working).(db_operations) = w.(working).(db_operations).
Proof.
  unfold credentials_setExternalId. intros E. run_inv E. injection E as <- _. destruct a.
  - by apply update_credential_row in E0 as [_ ?].
  - by apply update_credential_lost_world in E0 as ->.
Qed.

(** The outcome of a settling transaction: the row other requests see, and, if
    nothing else wrote to the offer since it was recorded, the pair of rows. *)
Definition settled_offer (t : string) (op : Operation) (c : Credential) (d d' : DB) (o : Operation)
    : Prop :=
  exists st, st <> PENDING /\ settled_row op.(op_id) st d' o /\
    (offer_rows t d op c ->
     o.(op_id) = op.(op_id) /\ o.(op_exchangeId) = op.(op_exchangeId) /\
     offer_credential c.(cr_id) c o.(op_state) d').

Lemma settled_offer_won t op c st r e w0 w1 w2 d o :
  st <> PENDING ->
  transitionStateIfForward op.(op_id) (Some st) (operationStatesBelow (Some st)) r Tx e w0
    = (w1, inr (Some o)) ->
  same_records d w0.(working) ->
  w2.(db_operations) = w1.(working).(db_operations) ->
  (offer_rows t d op c -> w1.(working).(db_credentials) !! c.(cr_id) = Some c ->
   offer_credential c.(cr_id) c st w2) ->
  settled_offer t op c d w2 o.
Proof.
  intros Hnp E [Hops Hcrs] Hops2 Hcred. exists st. split; [done|].
  pose proof (transition_in_tx _ _ _ _ _ _ _ E) as [Hrow Hs].
  split; [split; [by rewrite Hops2|by left]|]. intros Hrows.
  destruct Hrows as (Ho & Hc & Hrest) eqn:Er. clear Er.
  destruct (won_row _ _ _ _ _ _ _ op E) as (? & ? & Hst); [by rewrite Hops|]. split_and!; [done..|].
  rewrite Hst. apply Hcred; [done|].
  apply transition_tx_frame in E as [_ (Hcr & _)]. by rewrite Hcr, Hcrs.
Qed.

Lemma settled_offer_lost t op c st r e w0 w1 d o :
  st <> PENDING ->
  transitionStateIfForward op.(op_id) (Some st) (operationStatesBelow (Some st)) r Tx e w0
    = (w1, inr None) ->
  same_records d w0.(working) -> w0.(working).(db_operations) !! op.(op_id) = Some o ->
  settled_offer t op c d w0.(working) o.
Proof.
  intros Hnp E [Hops Hcrs] Ho. exists st. split; [done|].
  apply transition_in_tx in E as E'. destruct E' as [_ Hlost].
  split; [split; [done|right; by apply Hlost]|]. intros (Hop & _ & _ & Hp & _).
  destruct (transition_matching _ _ _ _ _ _ _ _ _ op E) as [? ?]; [by simpl; rewrite Hops| |done].
  rewrite Hp. apply operationStatesBelow_spec. by destruct st.
Qed.

Lemma settle_offer_settled t k op c x w w' o won :
  transaction (settle_offer t k op c x) w = (w', inr (o, won)) ->
  settled_offer t op c w.(committed) w'.(committed) o.
Proof.
  unfold transaction. destruct (settle_offer _ _ _ _ _ _) as [w1 [e|y]] eqn:E; [done|].
  intros H. injection H as <- ->. destruct (offer_outcome_cases x) as (st & Hst & Hnp & Hcs).
  unfold settle_offer in E. cbv zeta in E. rewrite Hst, Hcs in E. run_inv E.
  apply (same_records_run Tx) in E0 as [_ Hsame];
    [|destruct (truthy_str _); [apply vpres_bind; [apply _..|]; intros []|]; apply _].
  simpl in Hsame. apply bind_inr in E as (w2 & [u|] & Etr & E); simpl.
  - apply bind_inr in E as (w3 & v & Ecr & E). apply bind_inr in E as (w4 & v' & Edp & E).
    injection E as <- <- <-.
    apply (same_records_run Tx) in Edp as [_ [Hops3 Hcrs3]]; [|apply _]. simpl in Hops3, Hcrs3.
    eapply settled_offer_won; [done|exact Etr|exact Hsame| |].
    + rewrite Hops3. case_decide; [by eapply setExternalId_operations|].
      apply bind_inr in Ecr as (? & ? & [= <- <-] & Ecr).
      apply bind_inr in Ecr as (? & [] & Eup & Ecr); [|done]. injection Ecr as <- _.
      by apply update_credential_row in Eup as [_ ?].
    + intros (_ & _ & _ & _ & _ & Hoff & _) Hc. eapply offer_credential_same; [exact Hcrs3|].
      case_decide as Hd; [subst st; by eapply offered_credential|].
      apply bind_inr in Ecr as (? & ? & [= <- <-] & Ecr).
      apply bind_inr in Ecr as (? & [] & Eup & Ecr); [|done]. injection Ecr as <- _.
      eapply settle_credential in Eup as [? _]; [done| |done]. destruct st; auto; done.
  - apply bind_inr in E as (w3 & v & Ecur & E). injection E as <- <- <-.
    apply current_operation_inr in Ecur as [-> Ho].
    apply transition_in_tx in Etr as E1'. destruct E1' as [-> _]. by eapply settled_offer_lost.
Qed.

Lemma fail_offer_settled t code msg op c w w' o :
  transaction (fail_offer t code msg op c) w = (w', inr o) ->
  settled_offer t op c w.(committed) w'.(committed) o.
Proof.
  unfold transaction. destruct (fail_offer _ _ _ _ _ _) as [w1 [e|y]] eqn:E; [done|].
  intros H. injection H as <- ->. unfold fail_offer in E. run_inv E.
  apply (same_records_run Tx) in E0 as [_ Hsame]; [|destruct (truthy_str _); apply _].
  simpl in Hsame. apply bind_inr in E as (w2 & [u|] & Etr & E); simpl.
  - apply bind_inr in E as (w3 & [] & Ecr & E); [|done].
    apply bind_inr in E as (w4 & v' & Edp & E). injection E as <- <-.
    apply (same_records_run Tx) in Edp as [_ [Hops3 Hcrs3]]; [|apply _]. simpl in Hops3, Hcrs3.
    eapply settled_offer_won; [|exact Etr|exact Hsame| |]; [done|..].
    + rewrite Hops3. by apply update_credential_row in Ecr as [_ ?].
    + intros _ Hc. eapply offer_credential_same; [exact Hcrs3|].
      eapply (settle_credential FAILED) in Ecr as [? _]; eauto.
  - apply current_operation_inr in E as [-> Ho].
    apply transition_in_tx in Etr as E1'. destruct E1' as [-> _]. by eapply (settled_offer_lost _ _ _ FAILED).
Qed.

Lemma settled_offer_same t op c d d1 d2 o :
  same_records d1 d2 -> settled_offer t op c d d1 o -> settled_offer t op c d d2 o.
Proof.
  intros [Ho Hc] (st & Hnp & Hrow & Hrest). exists st. split; [done|].
  split; [by eapply settled_row_same|]. intros (? & ? & ?)%Hrest. split_and!; [done..|].
  by eapply offer_credential_same.
Qed.

(** *** Rolling back leaves the committed tables *)

#[export] Instance anything_update_credential m i g f : VPres m anything (update_credential m i g f).
Proof.
  unfold update_credential, write_credential. apply vpres_bind; [apply _..|]. intros [c|]; [|apply _].
  destruct (g c); [|apply _]. apply vpres_bind; [apply _..|]. intros now.
  apply vpres_bind; [apply _| |intros; apply _]. apply vpres_bind; [apply _..|]. intros []; [apply _|].
  by apply vpres_modify.
Qed.

#[export] Instance anything_settle_offer t k op c x : VPres Tx anything (settle_offer t k op c x).
Proof.
  unfold settle_offer, credentials_setExternalId, credentials_updateStateIfForward. cbv zeta.
  apply vpres_bind; [apply _| |].
  { apply (vpres_anything _ same_records). destruct (truthy_str _); [|apply _].
    apply vpres_bind; [apply _..|]. intros []; apply _. }
  intros _. apply vpres_bind; [apply _|apply (vpres_anything _ only_operations), _|].
  assert (forall id, VPres Tx anything (current_operation id Tx)) as Hcur.
  { intros id w. rewrite read_only. reflexivity. }
  intros [u|]; [|apply vpres_bind; [apply _..|]; intros; apply _].
  apply vpres_bind; [apply _| |].
  - destruct (po_credentialState _); [|apply _]. apply vpres_bind; [apply _..|]. intros now.
    apply vpres_bind; [apply _..|]. intros []; apply _.
  - intros _. apply vpres_bind; [apply _| |intros; apply _].
    apply (vpres_anything _ same_records), _.
Qed.

Lemma audit_emit_returns t a rt ri w : (audit_emit NoTx t a rt ri w).2 = inr tt.
Proof. unfold audit_emit, catch. by destruct (send _ _ w) as [w' [e|[]]]. Qed.

Lemma audited {A} t a rt ri (k : unit -> Prog A) w w' o :
  (audit_emit NoTx t a rt ri ≫= k) w = (w', inr o) ->
  exists w1, same_records w.(committed) w1.(committed) /\ k tt w1 = (w', inr o).
Proof.
  intros E. run_inv E. destruct a0. apply (same_records_run NoTx) in E0 as [_ ?]; [|apply _]. eauto.
Qed.

Lemma executeOffer_settled t op c r req w w' o :
  executeOffer t op c r req w = (w', inr o) ->
  exists d, settled_offer t op c d w'.(committed) o /\
    (AdapterLaws eq r.(rs_adapter) -> d = w.(committed)).
Proof.
  unfold executeOffer. intros [E|(w1 & e & E1 & E)]%catch_inr.
  - apply bind_inr in E as (w1 & x & Eag & E). apply bind_inr in E as (w2 & [cur won] & Etx & E).
    apply audited in E as (w3 & Hsame & E). apply bind_inr in E as (w4 & u & Eem & E).
    injection E as <- <-. exists (committed w1). split.
    + eapply settled_offer_same, settle_offer_settled; [|exact Etx]. etrans; [exact Hsame|].
      destruct (po_event _); [destruct won|]; simpl in Eem; by injection Eem as <- _.
    + intros HL. destruct (al_offerCredential (R:=eq) (rs_context r) req w) as [H _]. by rewrite Eag in H.
  - destruct (is_adapter_error e) as [[code msg]|]; [|done]. apply bind_inr in E as (w2 & cur & Etx & E).
    apply audited in E as (w3 & Hsame & E). injection E as <- <-. exists (committed w1). split.
    { eapply settled_offer_same, fail_offer_settled; [exact Hsame|exact Etx]. }
    intros HL. destruct (al_offerCredential (R:=eq) (rs_context r) req w) as [H _].
    apply bind_inl in E1 as [E1|(w4 & x & Eag & E1)]; [by rewrite E1 in H|].
    rewrite Eag in H. simpl in H. rewrite H.
    apply bind_inl in E1 as [E1|(w5 & [cur' won] & Etx' & E1)].
    { by eapply transaction_throws; [|exact E1]; apply _. }
    exfalso. apply bind_inl in E1 as [E1|(w6 & u & _ & E1)].
    { pose proof (audit_emit_returns t "issue" "credential" (cr_id c) w5) as Hr. by rewrite E1 in Hr. }
    apply bind_inl in E1 as [E1|(w7 & u' & _ & E1)]; [|done].
    destruct (po_event _); [destruct won|]; done.
Qed.

(** C32: an offer is settled, and its records agree.  The operation [offer] answers
    with is a committed row that is no longer pending, whatever the agent answered
    and whoever else was writing.  If nothing else wrote while the agent was asked,
    the credential the offer created is committed beside it in the state that goes
    with the operation: offered while it is processing, issued when it completed,
    failed when it failed; and both are linked to the same exchange. *)
Theorem offer_settles registry validators isUUID t dto w w' o :
  offer registry validators isUUID t dto w = (w', inr o) ->
  (exists i, w'.(committed).(db_operations) !! i = Some o) /\ o.(op_state) <> PENDING /\
  ((forall ty a, registry.(rg_adapters) ty = Some a -> AdapterLaws eq a) ->
   exists i c, w'.(committed).(db_credentials) !! i = Some c /\
     c.(cr_operationId) = o.(op_id) /\ c.(cr_exchangeId) = o.(op_exchangeId) /\
     c.(cr_state) = credential_for o.(op_state)).
Proof.
  unfold offer. intros E. apply bind_inr in E as (w1 & [[src dl] req] & _ & E).
  apply bind_inr in E as (w2 & r & Er & E). apply bind_inr in E as (w3 & cn & _ & E).
  apply bind_inr in E as (w4 & [op c] & Erec & E). apply record_offer_rows in Erec as Hrows.
  apply executeOffer_settled in E as (d & (st & Hnp & Hrow & Hagree) & Hd).
  split; [exists (op_id op); apply Hrow|]. split; [by eapply settled_row_not_pending|]. intros laws.
  apply catch_inr in Er as [Er|(? & e & _ & Er)]; [|by destruct (is_adapter_error e) as [[]|]].
  apply resolve_registered in Er as [ty Hty]. rewrite Hd in Hagree by (by eapply laws).
  destruct (Hagree Hrows) as (Hid & Hx & c' & Hc' & Hs & Hop & Hex). exists (cr_id c), c'.
  destruct Hrows as (_ & _ & _ & _ & _ & _ & Hco & Hcx). split_and!; [done|congruence..|done].
Qed.

Lemma offer_settles_witness :
  exists w' o c, offer sample_registry sample_validators (fun _ => true) "t" sample_dto
      (world_of issuing_db 0) = (w', inr o) /\ o.(op_state) = PROCESSING /\
    c.(cr_operationId) = o.(op_id) /\ c.(cr_state) = OFFERED.
Proof.
  destruct (offer sample_registry sample_validators (fun _ => true) "t" sample_dto
    (world_of issuing_db 0)) as [w' r] eqn:E.
  assert (exists o, r = inr o /\ o.(op_state) = PROCESSING) as (o & -> & Hp).
  { vm_compute in E. injection E as _ <-. eexists. split; reflexivity. }
  destruct (offer_settles sample_registry sample_validators (fun _ => true) "t" sample_dto
    (world_of issuing_db 0) w' o E) as (_ & _ & H).
  destruct H as (i & c & _ & Hop & _ & Hs).
  { intros ty a Ha. unfold sample_registry in Ha. simpl in Ha. case_decide; [|done].
    injection Ha as <-. apply silent_adapter_laws, _. }
  rewrite Hp in Hs. exists w', o, c. split; [reflexivity|]. split; [exact Hp|]. split; [exact Hop|exact Hs].
Defined.
