(* ===== verification/Requests.v ===== *)
(** * The service under a sequence of requests

    The requests on operations, offers, exchanges and presentations, and the webhook
    worker's deliveries, as one type, and the tables after any sequence of them for
    any tenants.  (Creating and deleting a connection and the purges are not among
    them: ConnectionService writes its own row without a guard, and the purges delete.)  A request runs to its
    end whether it succeeds or fails; while it waits for an agent, other requests
    may commit (the agents' laws say along which relation). *)

From Stdlib Require Import Ascii ZArith Lia.
From stdpp Require Import base decidable strings sets gmap list list_relations.
From S2P Require Import Prelude Js Entities StateMapping OperationTtl Db Pagination.
From S2P Require Import OperationService CredentialRepository.
From S2P Require Import ConnectionRepository AdapterRegistry Auth ConnectionService.
From S2P Require Import ProtocolStateChange Lifecycle ProtocolLifecycle ProtocolNotification.
From S2P Require Import WebhookIngestion OperationCorrectness CredentialExchangeService ServiceLogic.
From S2P Require Import ConnectionCorrectness ExchangeCorrectness CredentialAction.
From S2P Require Import ActionCorrectness FormatValidators CredentialOffer OfferCorrectness.
From S2P Require Import PresentationRequest PresentationCorrectness.

Inductive Request :=
| Deliver (job : option RawJob)                       (* the protocol.state-change worker *)
| GetOperation (tenantId id : string)
| OfferCredential (tenantId : string) (dto : OfferCredentialRequestDto)
| ReconcileOffer (tenantId operationId : string)
| HolderActs (action : HolderAction) (tenantId exchangeId : string)
| RevokeCredential (tenantId credentialId : string)
| ReconcileExchange (tenantId id : string)
| IssueCredential (tenantId id : string)
| AskPresentation (tenantId : string) (dto : RequestPresentationDto).

Section Service.
Context (registry : Registry) (validators : FormatValidatorRegistry) (isUUID : string -> bool).

(** The answer or error of a request goes to its caller. *)
Definition answered {A} (p : Prog A) : Prog unit := catch (_ ← p; mret tt) (fun _ => mret tt).

Definition serve (r : Request) : Prog unit :=
  match r with
  | Deliver job => answered (handle job)
  | GetOperation t id => answered (getForTenant t id)
  | OfferCredential t dto => answered (offer registry validators isUUID t dto)
  | ReconcileOffer t id => answered (offer_reconcile registry t id)
  | HolderActs a t id => answered (perform registry a t id)
  | RevokeCredential t id => answered (revoke registry t id)
  | ReconcileExchange t id => answered (exchange_reconcile registry t id)
  | IssueCredential t id => answered (issue registry t id)
  | AskPresentation t dto => answered (requestPresentation registry t dto)
  end.

Fixpoint serve_all (rs : list Request) (w : World) : World :=
  match rs with
  | [] => w
  | r :: rs' => serve_all rs' (serve r w).1
  end.

Lemma keeps_answered {A} own P (p : Prog A) : stable own P -> keeps own P p -> keeps own P (answered p).
Proof.
  intros HS Hp. apply keeps_catch; [done| |intros; apply keeps_read_only, _].
  apply keeps_seq; [done|done|]. intros; apply keeps_read_only, _.
Qed.

Abbreviation anyone := (fun _ : string => True).
Context (laws : forall ty a, registry.(rg_adapters) ty = Some a -> AdapterLaws (Evo anyone) a).

Lemma keeps_handle job : keeps anyone (fun _ => True) (handle job).
Proof.
  unfold handle. apply keeps_seq; [apply stable_True|apply keeps_read_only, _|].
  intros data. by eapply (keeps_process anyone (psc_tenantId data)).
Qed.

Lemma keeps_serve r : keeps anyone (fun _ => True) (serve r).
Proof.
  destruct r; apply keeps_answered; try apply stable_True.
  - apply keeps_handle.
  - by apply keeps_getForTenant.
  - by apply keeps_offer.
  - by apply keeps_offer_reconcile.
  - by apply keeps_perform.
  - by apply keeps_revoke.
  - apply keeps_exchange_reconcile; [done..|apply stable_True].
  - by apply keeps_issue.
  - by apply keeps_requestPresentation.
Qed.

(** C2: records only move forward under the requests of [Request].  After any
    sequence of webhook deliveries, operation reads, offers, offer and exchange
    reconciliations, holder actions, revocations, issuances and presentation
    requests, of any tenants, answered or failed, with other such requests
    committing while an agent is waited for, every operation, credential,
    connection and exchange that was there still is, further along its lifecycle
    or where it was; terminal operations, completed and abandoned connections keep
    their state.  Creating and deleting a connection (whose writes to its own row
    are not guarded) and the retention purges are not among these requests. *)
Theorem requests_forward_only rs w :
  keyed w.(committed) -> moved_forward w.(committed) (serve_all rs w).(committed).
Proof.
  intros K. apply (evolves_moved_forward anyone). revert w K.
  induction rs as [|r rs IH]; intros w K; simpl; [reflexivity|].
  pose proof (keeps_serve r w K I) as Hr. etrans; [exact Hr|].
  apply IH. by eapply evolves_keyed.
Qed.
End Service.

(** An offer is made on the sample connector, the holder's request is reported, and
    the credential is revoked before it was issued. *)
Lemma issuing_db_keyed : keyed issuing_db.
Proof. repeat split; apply map_Forall_to_list; vm_compute; repeat constructor. Qed.

Definition sample_requests : list Request :=
  [OfferCredential "t" sample_dto; GetOperation "t" "u1"; RevokeCredential "t" "u2";
   ReconcileOffer "t" "u1"; HolderActs Accept "t" "u1"; IssueCredential "t" "u0"].

Lemma requests_forward_only_witness :
  moved_forward issuing_db
    (serve_all sample_registry sample_validators is_uuid sample_requests
       (world_of issuing_db 0)).(committed).
Proof.
  exact (requests_forward_only sample_registry sample_validators is_uuid (sample_registry_laws _)
    sample_requests (world_of issuing_db 0) issuing_db_keyed).
Defined.
