(* ===== verification/AuditLog.v ===== *)
(** * The audit log

    audit-log: the table of audit entries with its insert-only repository, the listing and
    the CSV export, the worker that writes queued entries, the interceptor that queues them
    for mutating requests, and the job that keeps the monthly partitions of the table
    (audit-partition.worker.ts, buildMonthlyPartitionSpecs of libs/database).  The calendar
    is that of the language's Date. *)

From Stdlib Require Import Ascii ZArith Lia Sorted.
From stdpp Require Import base decidable strings sets gmap list list_relations.
From S2P Require Import Prelude Js OperationTtl JsText Redaction Entities StateMapping Db Pagination RateLimit.

Local Open Scope Z_scope.

(** ** The calendar *)

Module JsDate.

Definition MS_PER_DAY : Z := 86400000.

Definition leap (y : Z) : bool := ((y mod 4 =? 0) && negb (y mod 100 =? 0)) || (y mod 400 =? 0).

Definition day_from_year (y : Z) : Z :=
  365 * (y - 1970) + (y - 1969) / 4 - (y - 1901) / 100 + (y - 1601) / 400.

(** The year a day falls in: the estimate by the mean year is off by one at most. *)
Definition year_of_day (d : Z) : Z :=
  let y := 1970 + 400 * d / 146097 in
  if day_from_year (y + 1) <=? d then y + 1 else if d <? day_from_year y then y - 1 else y.

Definition MONTH_OFFSETS : list Z := [0; 31; 59; 90; 120; 151; 181; 212; 243; 273; 304; 334].

(** The first day of month [m], from 0, within its year. *)
Definition month_offset (leap_year : bool) (m : Z) : Z :=
  nth (Z.to_nat m) MONTH_OFFSETS 0 + (if leap_year && (2 <=? m) then 1 else 0).

Definition month_of_day (leap_year : bool) (d : Z) : Z :=
  Z.of_nat (length (List.filter (fun m => month_offset leap_year m <=? d) [1; 2; 3; 4; 5; 6; 7; 8; 9; 10; 11])).

(** The parts of an instant in milliseconds. *)
Definition getUTCFullYear (t : Z) : Z := year_of_day (t / MS_PER_DAY).
Definition day_within_year (t : Z) : Z := t / MS_PER_DAY - day_from_year (getUTCFullYear t).
Definition getUTCMonth (t : Z) : Z := month_of_day (leap (getUTCFullYear t)) (day_within_year t).

(** [Date.UTC(y, m, 1)]: months beyond the year carry over, and the years 0 to 99 are
    those of the last century. *)
Definition month_start (y m : Z) : Z :=
  let ym := y + m / 12 in
  (day_from_year ym + month_offset (leap ym) (m mod 12)) * MS_PER_DAY.
Definition date_utc (y m : Z) : Z := month_start (if (0 <=? y) && (y <=? 99) then 1900 + y else y) m.

(** [new Date(t)]: [None] is an Invalid Date. *)
Definition time_clip (t : Z) : option Z := if Z.abs t <=? 8640000000000000 then Some t else None.

(** [String(n).padStart(k, '0')] *)
Definition padStart (k : nat) (n : Z) : string :=
  let s := JsValue.decimal_text n in JsValue.zeros (k - String.length s) +:+ s.

(** [toISOString] of a valid instant. *)
Definition toISOString (t : Z) : string :=
  let y := getUTCFullYear t in
  let m := getUTCMonth t in
  let year := if (0 <=? y) && (y <=? 9999) then padStart 4 y
              else (if y <? 0 then "-" else "+") +:+ padStart 6 (Z.abs y) in
  let ms := t mod MS_PER_DAY in
  year +:+ ("-" +:+ (padStart 2 (m + 1) +:+ ("-" +:+
    (padStart 2 (day_within_year t - month_offset (leap y) m + 1) +:+ ("T" +:+
      (padStart 2 (ms / 3600000) +:+ (":" +:+ (padStart 2 (ms / 60000 mod 60) +:+ (":" +:+
        (padStart 2 (ms / 1000 mod 60) +:+ ("." +:+ (padStart 3 (ms mod 1000) +:+ "Z")))))))))))).

Example iso_texts :
  map toISOString [0; 951782400000; 1767323045678; -1; 4102444799999; -62198755200000; 253402300800000]
  = ["1970-01-01T00:00:00.000Z"; "2000-02-29T00:00:00.000Z"; "2026-01-02T03:04:05.678Z"; "1969-12-31T23:59:59.999Z";
     "2099-12-31T23:59:59.999Z"; "-000001-01-01T00:00:00.000Z"; "+010000-01-01T00:00:00.000Z"].
Proof. vm_compute. reflexivity. Qed.

Lemma day_from_year_next y : day_from_year (y + 1) = day_from_year y + (if leap y then 366 else 365).
Proof.
  unfold day_from_year, leap.
  destruct (Z.eqb_spec (y mod 4) 0), (Z.eqb_spec (y mod 100) 0), (Z.eqb_spec (y mod 400) 0); simpl;
    Z.to_euclidean_division_equations; lia.
Qed.

Lemma year_of_day_spec d : day_from_year (year_of_day d) <= d < day_from_year (year_of_day d + 1).
Proof.
  unfold year_of_day. set (y := 1970 + 400 * d / 146097).
  assert (day_from_year (y - 1) <= d < day_from_year (y + 2)) as H.
  { unfold day_from_year, y. Z.to_euclidean_division_equations. lia. }
  destruct (Z.leb_spec (day_from_year (y + 1)) d); [replace (y + 1 + 1) with (y + 2) by lia; lia|].
  destruct (Z.ltb_spec d (day_from_year y)); [|lia]. replace (y - 1 + 1) with y by lia. lia.
Qed.

(** *** Months *)

Definition month_fits (leap_year : bool) (d : Z) : bool :=
  let m := month_of_day leap_year d in
  (0 <=? m) && (m <=? 11) && (month_offset leap_year m <=? d) &&
  (d <? (if m =? 11 then (if leap_year then 366 else 365) else month_offset leap_year (m + 1))).

Lemma month_of_day_fits (leap_year : bool) (d : Z) : 0 <= d < (if leap_year then 366 else 365) -> month_fits leap_year d = true.
Proof.
  intros Hd.
  assert (forall l : bool, forallb (fun n => month_fits l (Z.of_nat n)) (seq 0 (if l then 366 else 365)) = true) as Hall
    by (intros []; vm_compute; reflexivity).
  specialize (Hall leap_year). rewrite forallb_forall in Hall. specialize (Hall (Z.to_nat d)).
  rewrite Z2Nat.id in Hall by lia. apply Hall. apply in_seq. destruct leap_year; lia.
Qed.

Lemma month_of_day_spec (leap_year : bool) (d m : Z) :
  m = month_of_day leap_year d -> 0 <= d < (if leap_year then 366 else 365) ->
  0 <= m <= 11 /\ month_offset leap_year m <= d /\
  d < (if m =? 11 then (if leap_year then 366 else 365) else month_offset leap_year (m + 1)).
Proof.
  intros Hm Hd. pose proof (month_of_day_fits leap_year d Hd) as H. unfold month_fits in H. rewrite <-Hm in H.
  cbv zeta in H. rewrite !andb_true_iff, !Z.leb_le, Z.ltb_lt in H. tauto.
Qed.

(** The months in order: month [k] of all. *)
Definition month_at (k : Z) : Z := month_start (k / 12) (k mod 12).
Definition month_index (t : Z) : Z := 12 * getUTCFullYear t + getUTCMonth t.

Lemma month_start_at y m : month_start y m = month_at (12 * y + m).
Proof.
  unfold month_at, month_start. replace ((12 * y + m) mod 12) with (m mod 12) by (Z.to_euclidean_division_equations; lia).
  replace ((12 * y + m) / 12 + m mod 12 / 12) with (y + m / 12) by (Z.to_euclidean_division_equations; lia).
  by rewrite Zmod_mod.
Qed.

Lemma month_at_day k :
  month_at k = (day_from_year (k / 12) + month_offset (leap (k / 12)) (k mod 12)) * MS_PER_DAY.
Proof.
  unfold month_at, month_start. rewrite Zmod_mod. by rewrite (Z.div_small (k mod 12) 12), Z.add_0_r by (apply Z.mod_pos_bound; lia).
Qed.

(** What a check finds for each of the twelve months holds for a month. *)
Lemma by_month (P : Z -> bool) m : forallb (fun i => P (Z.of_nat i)) (seq 0 12) = true -> 0 <= m <= 11 -> P m = true.
Proof.
  intros H Hm. rewrite forallb_forall in H. specialize (H (Z.to_nat m)). rewrite Z2Nat.id in H by lia.
  apply H, in_seq. lia.
Qed.

Lemma month_offset_next (l : bool) m : 0 <= m < 11 -> month_offset l m < month_offset l (m + 1).
Proof.
  intros Hm. pose proof (by_month (fun m => (m =? 11) || (month_offset l m <? month_offset l (m + 1))) m) as H.
  cbn beta in H. rewrite orb_true_iff, Z.eqb_eq, Z.ltb_lt in H. destruct H as [->|H]; [by destruct l|lia|lia|done].
Qed.

Lemma month_at_next k : month_at k < month_at (k + 1).
Proof.
  rewrite !month_at_day. unfold MS_PER_DAY. assert (0 <= k mod 12 < 12) as Hm by (apply Z.mod_pos_bound; lia).
  destruct (Z.eq_dec (k mod 12) 11) as [E|E].
  - replace ((k + 1) / 12) with (k / 12 + 1) by (Z.to_euclidean_division_equations; lia).
    replace ((k + 1) mod 12) with 0 by (Z.to_euclidean_division_equations; lia).
    rewrite E, day_from_year_next. destruct (leap (k / 12)), (leap (k / 12 + 1));
      change (month_offset true 11) with 335; change (month_offset false 11) with 334;
      change (month_offset true 0) with 0; change (month_offset false 0) with 0; lia.
  - replace ((k + 1) / 12) with (k / 12) by (Z.to_euclidean_division_equations; lia).
    replace ((k + 1) mod 12) with (k mod 12 + 1) by (Z.to_euclidean_division_equations; lia).
    pose proof (month_offset_next (leap (k / 12)) (k mod 12) ltac:(lia)). lia.
Qed.

Lemma month_at_mono k k' : k <= k' -> month_at k <= month_at k'.
Proof.
  intros H. replace k' with (k + Z.of_nat (Z.to_nat (k' - k))) by lia. induction (Z.to_nat (k' - k)) as [|n IH]; [by rewrite Z.add_0_r|].
  rewrite Nat2Z.inj_succ. replace (k + Z.succ (Z.of_nat n)) with (k + Z.of_nat n + 1) by lia.
  pose proof (month_at_next (k + Z.of_nat n)). lia.
Qed.

Lemma month_bounds y m d :
  0 <= m <= 11 -> month_offset (leap y) m <= d - day_from_year y ->
  d - day_from_year y < (if m =? 11 then (if leap y then 366 else 365) else month_offset (leap y) (m + 1)) ->
  month_at (12 * y + m) <= d * MS_PER_DAY /\ (d + 1) * MS_PER_DAY <= month_at (12 * y + m + 1).
Proof.
  intros Hm Ho Hn. rewrite !month_at_day. unfold MS_PER_DAY.
  replace ((12 * y + m) / 12) with y by (Z.to_euclidean_division_equations; lia).
  replace ((12 * y + m) mod 12) with m by (Z.to_euclidean_division_equations; lia).
  split; [lia|]. destruct (Z.eqb_spec m 11) as [E|E].
  - replace ((12 * y + m + 1) / 12) with (y + 1) by (Z.to_euclidean_division_equations; lia).
    replace ((12 * y + m + 1) mod 12) with 0 by (Z.to_euclidean_division_equations; lia).
    rewrite day_from_year_next. assert (month_offset (leap (y + 1)) 0 = 0) as -> by (by destruct (leap (y + 1))).
    destruct (leap y); lia.
  - replace ((12 * y + m + 1) / 12) with y by (Z.to_euclidean_division_equations; lia).
    replace ((12 * y + m + 1) mod 12) with (m + 1) by (Z.to_euclidean_division_equations; lia). lia.
Qed.

Lemma getUTCMonth_unfold t : getUTCMonth t = month_of_day (leap (getUTCFullYear t)) (day_within_year t).
Proof. unfold getUTCMonth. reflexivity. Qed.
Lemma day_within_year_unfold t : day_within_year t = t / MS_PER_DAY - day_from_year (getUTCFullYear t).
Proof. unfold day_within_year. reflexivity. Qed.

Lemma month_index_unfold t : month_index t = 12 * getUTCFullYear t + getUTCMonth t.
Proof. unfold month_index. reflexivity. Qed.

(** An instant lies in its month. *)
Lemma month_index_spec t : month_at (month_index t) <= t < month_at (month_index t + 1).
Proof.
  pose proof (year_of_day_spec (t / MS_PER_DAY)) as Hy. rewrite day_from_year_next in Hy.
  assert (0 <= day_within_year t < (if leap (getUTCFullYear t) then 366 else 365)) as Hd.
  { unfold day_within_year, getUTCFullYear. destruct (leap _); lia. }
  destruct (month_of_day_spec _ _ (getUTCMonth t) (getUTCMonth_unfold t) Hd) as (Hm & Ho & Hn).
  rewrite day_within_year_unfold in Ho, Hn. destruct (month_bounds _ _ _ Hm Ho Hn) as [H1 H2]. unfold month_index.
  assert (t / MS_PER_DAY * MS_PER_DAY <= t < (t / MS_PER_DAY + 1) * MS_PER_DAY) as Ht.
  { unfold MS_PER_DAY. clear. Z.to_euclidean_division_equations. lia. }
  split; [exact (Z.le_trans _ _ _ H1 (proj1 Ht))|exact (Z.lt_le_trans _ _ _ (proj2 Ht) H2)].
Qed.

Lemma month_unique k k' t :
  month_at k <= t < month_at (k + 1) -> month_at k' <= t < month_at (k' + 1) -> k = k'.
Proof.
  intros H H'. destruct (Z.lt_trichotomy k k') as [E|[E|E]]; [|done|].
  - pose proof (month_at_mono (k + 1) k' ltac:(lia)). lia.
  - pose proof (month_at_mono (k' + 1) k ltac:(lia)). lia.
Qed.

Lemma month_exists k k' t :
  month_at k <= t < month_at k' -> exists j, k <= j < k' /\ month_at j <= t < month_at (j + 1).
Proof.
  intros H. exists (month_index t). pose proof (month_index_spec t) as Hi. split; [|done].
  split; apply Z.nlt_ge || apply Z.lt_nge; intros Hlt.
  - pose proof (month_at_mono (month_index t + 1) k ltac:(lia)). lia.
  - pose proof (month_at_mono k' (month_index t) ltac:(lia)). lia.
Qed.
End JsDate.

(** ** Entries *)

Inductive AuditActorType := USER | SYSTEM | CLIENT.
Inductive AuditAction := READ | ISSUE | VERIFY | HOLD | REVOKE | CREATE | UPDATE | DELETE | LOGIN | TOKEN_GRANT.

#[export] Instance AuditAction_eq_dec : EqDecision AuditAction.
Proof. solve_decision. Defined.

Definition actor_str (a : AuditActorType) : string := match a with USER => "user" | SYSTEM => "system" | CLIENT => "client" end.
Definition audit_action_str (a : AuditAction) : string :=
  match a with
  | READ => "read" | ISSUE => "issue" | VERIFY => "verify" | HOLD => "hold" | REVOKE => "revoke" | CREATE => "create"
  | UPDATE => "update" | DELETE => "delete" | LOGIN => "login" | TOKEN_GRANT => "token_grant"
  end.

Definition ACTOR_TYPES : list AuditActorType := [USER; SYSTEM; CLIENT].
Definition ACTIONS : list AuditAction := [READ; ISSUE; VERIFY; HOLD; REVOKE; CREATE; UPDATE; DELETE; LOGIN; TOKEN_GRANT].

Record AuditLog := mkAuditLog {
  al_id : string;
  al_tenantId : string;
  al_actorId : string;
  al_actorType : AuditActorType;
  al_action : AuditAction;
  al_resourceType : string;
  al_resourceId : string;
  al_operationId : option string;
  al_metadata : list (string * json);
  al_ipAddress : option string;
  al_createdAt : Z                                   (* microseconds *)
}.

Record WriteAuditLogInput := mkWrite {
  wa_tenantId : string;
  wa_actorId : string;
  wa_actorType : AuditActorType;
  wa_action : AuditAction;
  wa_resourceType : string;
  wa_resourceId : string;
  wa_operationId : option string;
  wa_metadata : option (list (string * json));
  wa_ipAddress : option string
}.

(** ** AuditLogRepository *)

Record AuditLogFilters := mkAuditFilters {
  af_action : option AuditAction;
  af_actorId : option string;
  af_resourceType : option string;
  af_resourceId : option string;
  af_operationId : option string;
  af_since : option Z;                               (* milliseconds *)
  af_until : option Z
}.

Definition AUDIT_LOG_EXPORT_MAX_ROWS : nat := Z.to_nat 10000.

(** A filter that is set: an empty text is not. *)
Definition asks (filter : option string) (value : option string) : bool :=
  match filter with Some ((String _ _) as f) => bool_decide (value = Some f) | _ => true end.

Definition baseFilterQuery (tenantId : string) (f : AuditLogFilters) (r : AuditLog) : bool :=
  String.eqb r.(al_tenantId) tenantId &&
  match f.(af_action) with Some a => bool_decide (r.(al_action) = a) | None => true end &&
  asks f.(af_actorId) (Some r.(al_actorId)) && asks f.(af_resourceType) (Some r.(al_resourceType)) &&
  asks f.(af_resourceId) (Some r.(al_resourceId)) && asks f.(af_operationId) r.(al_operationId) &&
  match f.(af_since) with Some t => column_of t <=? r.(al_createdAt) | None => true end &&
  match f.(af_until) with Some t => r.(al_createdAt) <=? column_of t | None => true end.

Definition al_key (r : AuditLog) : Z * string := (r.(al_createdAt), r.(al_id)).

(** [last.createdAt.toISOString()]: milliseconds of a column of microseconds. *)
Definition al_cursor (r : AuditLog) : Cursor := mkCursor (column_of (date_of r.(al_createdAt))) r.(al_id).

Definition audit_findByIdForTenant (tenantId id : string) (table : list AuditLog) : option AuditLog :=
  List.find (fun r => String.eqb r.(al_tenantId) tenantId && String.eqb r.(al_id) id) table.

Definition audit_findPageForTenant (tenantId : string) (f : AuditLogFilters) (limit : nat) (cursor : option Cursor)
    (table : list AuditLog) : Page :=
  find_page al_key DESC al_cursor (baseFilterQuery tenantId f) limit cursor table.

Definition audit_findForExport (tenantId : string) (f : AuditLogFilters) (maxRows : nat) (table : list AuditLog)
    : list AuditLog :=
  take maxRows (order_by al_key DESC (List.filter (baseFilterQuery tenantId f) table)).

(** [INSERT] for a tenant and an operation that exist: the identifier and the time are the
    database's. *)
Definition audit_insert (id : string) (now : Z) (w : WriteAuditLogInput) (table : list AuditLog) : list AuditLog :=
  table ++ [mkAuditLog id w.(wa_tenantId) w.(wa_actorId) w.(wa_actorType) w.(wa_action) w.(wa_resourceType)
              w.(wa_resourceId) w.(wa_operationId) (default [] w.(wa_metadata)) w.(wa_ipAddress) now].

(** ** AuditLogService *)

Definition auditLog_findById (tenantId id : string) (table : list AuditLog) : Exn + AuditLog :=
  match audit_findByIdForTenant tenantId id table with
  | Some r => inr r
  | None => inl (NotFoundException ("Audit log '" +:+ (id +:+ "' was not found.")))
  end.

Definition auditLog_list (tenantId : string) (f : AuditLogFilters) (limit : option nat) (cursor : option Cursor)
    (table : list AuditLog) : Page :=
  audit_findPageForTenant tenantId f (default 20%nat limit) cursor table.

(** [JSON.stringify]; [undefined] members have been left out. *)
Fixpoint stringify (v : json) : string :=
  match v with
  | JNull => "null"
  | JBool b => if b then "true" else "false"
  | JNum x => if is_finite x then JsValue.number_text x else "null"
  | JStr s => JsonText.print_string s
  | JArr l => "[" +:+ (String.concat "," (map stringify l) +:+ "]")
  | JObj o => "{" +:+ (String.concat "," (map (fun e => JsonText.print_string e.1 +:+ (":" +:+ stringify e.2)) o) +:+ "}")
  end.

Definition LF : ascii := ascii_of_N 10.
Definition COMMA : ascii := ","%char.

Definition formula_start (value : string) : bool :=
  match value with String c _ => eq_ascii c "=" || eq_ascii c "+" || eq_ascii c "-" || eq_ascii c "@" | "" => false end.

Definition neutral (value : string) : string := if formula_start value then String "'" value else value.

Definition csv_special (c : ascii) : bool := eq_ascii c JsonText.QUOTE || eq_ascii c COMMA || eq_ascii c LF.

Fixpoint has_special (s : string) : bool :=
  match s with String c r => csv_special c || has_special r | EmptyString => false end.

(** Every quote doubled. *)
Fixpoint double_quotes (s : string) : string :=
  match s with
  | EmptyString => EmptyString
  | String c r => if eq_ascii c JsonText.QUOTE then String c (String c (double_quotes r)) else String c (double_quotes r)
  end.

Definition csvEscape (value : string) : string :=
  let safe := neutral value in
  if has_special safe then String JsonText.QUOTE (double_quotes safe +:+ String JsonText.QUOTE "") else safe.

Definition csv_columns : list (string * (AuditLog -> string)) :=
  [("id", al_id); ("tenant_id", al_tenantId); ("actor_id", al_actorId); ("actor_type", fun r => actor_str r.(al_actorType));
   ("action", fun r => audit_action_str r.(al_action)); ("resource_type", al_resourceType); ("resource_id", al_resourceId);
   ("operation_id", fun r => default "" r.(al_operationId)); ("ip_address", fun r => default "" r.(al_ipAddress));
   ("created_at", fun r => JsDate.toISOString (date_of r.(al_createdAt)));
   ("metadata", fun r => stringify (JObj r.(al_metadata)))].

Definition exportCsv (tenantId : string) (f : AuditLogFilters) (table : list AuditLog) : string :=
  let rows := audit_findForExport tenantId f AUDIT_LOG_EXPORT_MAX_ROWS table in
  let header := String.concat "," (map fst csv_columns) in
  let lines := map (fun r => String.concat "," (map (fun c => csvEscape (c.2 r)) csv_columns)) rows in
  String.concat (String LF "") (header :: lines).

(** ** Reading the export back

    A reader of comma-separated values as spreadsheets have it: a field is plain or
    quoted, a quote within a quoted field is doubled, a record ends at a line feed, at a
    carriage return or at both. *)

Definition CR : ascii := ascii_of_N 13.

Fixpoint no_return (s : string) : bool :=
  match s with String c r => negb (eq_ascii c CR) && no_return r | EmptyString => true end.

Inductive CsvState := FieldStart | Plain | Quoted | QuoteSeen.

Fixpoint csv_read (s : string) (st : CsvState) (field : string) (row : list string) : list (list string) :=
  match s with
  | EmptyString => [row ++ [field]]
  | String c r =>
      let closes := match st with Quoted => false | _ => true end in
      if closes && eq_ascii c COMMA then csv_read r FieldStart "" (row ++ [field])
      else if closes && eq_ascii c LF then (row ++ [field]) :: csv_read r FieldStart "" []
      else if closes && eq_ascii c CR then
        (row ++ [field]) ::
          match r with
          | String n r' => if eq_ascii n LF then csv_read r' FieldStart "" [] else csv_read r FieldStart "" []
          | EmptyString => csv_read r FieldStart "" []
          end
      else if eq_ascii c JsonText.QUOTE then
        match st with
        | FieldStart => csv_read r Quoted field row
        | Quoted => csv_read r QuoteSeen field row
        | QuoteSeen => csv_read r Quoted (field +:+ String c "") row
        | Plain => csv_read r Plain (field +:+ String c "") row
        end
      else csv_read r (match st with Quoted => Quoted | _ => Plain end) (field +:+ String c "") row
  end.

Definition read_csv (s : string) : list (list string) := csv_read s FieldStart "" [].

(** What follows a field: the end, or a separator. *)
Definition closing (rest : string) : bool :=
  match rest with EmptyString => true | String c _ => eq_ascii c COMMA || eq_ascii c LF end.

Lemma snoc_app field c s : field +:+ String c s = (field +:+ String c "") +:+ s.
Proof. by rewrite assoc_string_app. Qed.

Lemma read_closing rest st field row :
  closing rest = true -> st <> Quoted -> csv_read rest st field row = csv_read rest Plain field row.
Proof.
  intros Hc Hst. destruct rest as [|c r]; [done|]. cbn [closing] in Hc. cbn [csv_read].
  destruct (eq_ascii c COMMA); [by destruct st|]. destruct (eq_ascii c LF); [by destruct st|done].
Qed.

Lemma neutral_no_return value : no_return value = true -> no_return (neutral value) = true.
Proof. unfold neutral. by destruct (formula_start value). Qed.

Lemma read_plain s rest : forall field row,
  has_special s = false -> no_return s = true ->
  csv_read (s +:+ rest) Plain field row = csv_read rest Plain (field +:+ s) row.
Proof.
  induction s as [|c s IH]; intros field row Hs Hr.
  - change ("" +:+ rest) with rest. by rewrite string_app_nil.
  - cbn [has_special] in Hs. apply orb_false_iff in Hs as [Hc Hs]. unfold csv_special in Hc.
    rewrite !orb_false_iff in Hc. destruct Hc as [[Hq Hm] Hl].
    cbn [no_return] in Hr. apply andb_true_iff in Hr as [Hcr%negb_true_iff Hr].
    change (String c s +:+ rest) with (String c (s +:+ rest)). cbn [csv_read]. rewrite Hq, Hm, Hl, Hcr. cbn [andb].
    rewrite IH by done. by rewrite <-snoc_app.
Qed.

Lemma read_quoted s rest : forall field row,
  csv_read (double_quotes s +:+ rest) Quoted field row = csv_read rest Quoted (field +:+ s) row.
Proof.
  induction s as [|c s IH]; intros field row.
  - change (double_quotes "" +:+ rest) with rest. by rewrite string_app_nil.
  - cbn [double_quotes]. destruct (eq_ascii c JsonText.QUOTE) eqn:Hq.
    + change (String c (String c (double_quotes s)) +:+ rest) with (String c (String c (double_quotes s +:+ rest))).
      cbn [csv_read andb]. rewrite Hq. assert (eq_ascii c COMMA = false /\ eq_ascii c LF = false /\ eq_ascii c CR = false) as (-> & -> & ->).
      { unfold eq_ascii in Hq. apply Ascii.eqb_eq in Hq as ->. done. }
      cbn [andb]. rewrite IH. by rewrite <-snoc_app.
    + change (String c (double_quotes s) +:+ rest) with (String c (double_quotes s +:+ rest)).
      cbn [csv_read andb]. rewrite Hq, IH. by rewrite <-snoc_app.
Qed.

(** A cell reads as its value. *)
Lemma read_cell value rest row :
  no_return value = true -> closing rest = true ->
  csv_read (csvEscape value +:+ rest) FieldStart "" row = csv_read rest Plain (neutral value) row.
Proof.
  intros Hret%neutral_no_return Hc. unfold csvEscape. cbv zeta. destruct (has_special (neutral value)) eqn:Hs.
  - change (String JsonText.QUOTE (double_quotes (neutral value) +:+ String JsonText.QUOTE "") +:+ rest)
      with (String JsonText.QUOTE ((double_quotes (neutral value) +:+ String JsonText.QUOTE "") +:+ rest)).
    rewrite assoc_string_app.
    change (csv_read (double_quotes (neutral value) +:+ String JsonText.QUOTE rest) Quoted "" row =
            csv_read rest Plain (neutral value) row).
    rewrite read_quoted. change (csv_read rest QuoteSeen (neutral value) row = csv_read rest Plain (neutral value) row).
    by apply read_closing.
  - destruct (neutral value) as [|c s] eqn:En.
    + change ("" +:+ rest) with rest. by rewrite read_closing.
    + transitivity (csv_read (String c s +:+ rest) Plain "" row); [|exact (read_plain (String c s) rest "" row Hs Hret)].
      cbn [no_return] in Hret. apply andb_true_iff in Hret as [Hcr%negb_true_iff _].
      cbn [has_special] in Hs. apply orb_false_iff in Hs as [Hq _]. unfold csv_special in Hq.
      rewrite !orb_false_iff in Hq. destruct Hq as [[Hq Hm] Hl].
      change (String c s +:+ rest) with (String c (s +:+ rest)). cbn [csv_read]. by rewrite Hq, Hm, Hl, Hcr.
Qed.

Lemma read_row values rest : forall row,
  values <> [] -> forallb no_return values = true -> closing rest = true ->
  csv_read (String.concat "," (map csvEscape values) +:+ rest) FieldStart "" row =
  csv_read rest Plain (default "" (last (neutral <$> values))) (row ++ removelast (neutral <$> values)).
Proof.
  induction values as [|v l IH]; intros row Hne Hret Hc; [done|].
  cbn [forallb] in Hret. apply andb_true_iff in Hret as [Hv Hl]. destruct l as [|v' l].
  - cbn [map String.concat]. rewrite read_cell by done. by rewrite app_nil_r.
  - change (String.concat "," (map csvEscape (v :: v' :: l)) +:+ rest)
      with ((csvEscape v +:+ String "," (String.concat "," (map csvEscape (v' :: l)))) +:+ rest).
    rewrite assoc_string_app. rewrite read_cell by done.
    change (String "," (String.concat "," (map csvEscape (v' :: l))) +:+ rest)
      with (String "," (String.concat "," (map csvEscape (v' :: l)) +:+ rest)).
    cbn [csv_read andb]. change (eq_ascii "," COMMA) with true. cbn [andb]. rewrite IH by done.
    change (last (neutral <$> v :: v' :: l)) with (last (neutral <$> v' :: l)).
    change (removelast (neutral <$> v :: v' :: l)) with (neutral v :: removelast (neutral <$> v' :: l)).
    by rewrite <-app_assoc.
Qed.

Lemma row_whole (values : list string) :
  values <> [] -> removelast values ++ [default "" (last values)] = values.
Proof.
  induction values as [|v l IH]; [done|]. intros _. destruct l as [|v' l]; [done|].
  change (v :: (removelast (v' :: l) ++ [default "" (last (v' :: l))]) = v :: v' :: l). by rewrite IH.
Qed.

Lemma read_rows rows :
  rows <> [] -> Forall (fun values => values <> [] /\ forallb no_return values = true) rows ->
  read_csv (String.concat (String LF "") (map (fun values => String.concat "," (map csvEscape values)) rows)) =
  map (map neutral) rows.
Proof.
  unfold read_csv. induction rows as [|values rows IH]; intros Hne Hall; [done|].
  apply Forall_cons in Hall as [[Hv Hret] Hall]. assert (map neutral values <> []) as Hn by (by destruct values).
  destruct rows as [|values' rows].
  - cbn [map String.concat]. rewrite <-(string_app_nil (String.concat "," (map csvEscape values))).
    rewrite read_row by done. exact (f_equal (fun r => [r]) (row_whole (map neutral values) Hn)).
  - set (tail := map (fun v => String.concat "," (map csvEscape v)) (values' :: rows)) in *.
    change (String.concat (String LF "") (map (fun v => String.concat "," (map csvEscape v)) (values :: values' :: rows)))
      with (String.concat "," (map csvEscape values) +:+ String LF (String.concat (String LF "") tail)).
    rewrite read_row by done. exact (f_equal2 cons (row_whole (map neutral values) Hn) (IH ltac:(done) Hall)).
Qed.

Lemma header_plain :
  map csvEscape (map fst csv_columns) = map fst csv_columns /\ map neutral (map fst csv_columns) = map fst csv_columns /\
  forallb no_return (map fst csv_columns) = true.
Proof. done. Qed.

(** *** What an export is made of *)

(** The entries a tenant asks for; a text that is empty filters nothing. *)
Record asked_for (tenantId : string) (f : AuditLogFilters) (r : AuditLog) : Prop := {
  ak_tenant : r.(al_tenantId) = tenantId;
  ak_action : forall a, f.(af_action) = Some a -> r.(al_action) = a;
  ak_actor : forall x, f.(af_actorId) = Some x -> x <> "" -> r.(al_actorId) = x;
  ak_resourceType : forall x, f.(af_resourceType) = Some x -> x <> "" -> r.(al_resourceType) = x;
  ak_resourceId : forall x, f.(af_resourceId) = Some x -> x <> "" -> r.(al_resourceId) = x;
  ak_operation : forall x, f.(af_operationId) = Some x -> x <> "" -> r.(al_operationId) = Some x;
  ak_since : forall ms, f.(af_since) = Some ms -> ms * 1000 <= r.(al_createdAt);
  ak_until : forall ms, f.(af_until) = Some ms -> r.(al_createdAt) <= ms * 1000
}.

Lemma asks_spec filter value :
  asks filter value = true <-> forall x, filter = Some x -> x <> "" -> value = Some x.
Proof.
  unfold asks. destruct filter as [[|c x]|]; [by split; [intros _ ? [= <-]|]| |by split].
  rewrite bool_decide_eq_true. split; [by intros -> ? [= <-]|]. intros H. by apply H.
Qed.

Lemma baseFilterQuery_spec tenantId f r : baseFilterQuery tenantId f r = true <-> asked_for tenantId f r.
Proof.
  unfold baseFilterQuery. rewrite !andb_true_iff, !asks_spec, String.eqb_eq. split.
  - intros [[[[[[[Ht Ha] H1] H2] H3] H4] Hs] Hu]. split; [done|..|done| |].
    + intros a E. rewrite E in Ha. by apply bool_decide_eq_true in Ha.
    + intros x E Hx. specialize (H1 x E Hx). congruence.
    + intros x E Hx. specialize (H2 x E Hx). congruence.
    + intros x E Hx. specialize (H3 x E Hx). congruence.
    + intros ms E. rewrite E in Hs. by apply Z.leb_le in Hs.
    + intros ms E. rewrite E in Hu. by apply Z.leb_le in Hu.
  - intros [Ht Ha H1 H2 H3 H4 Hs Hu]. split_and!; try done.
    + destruct (af_action f); [|done]. by apply bool_decide_eq_true, Ha.
    + intros x E Hx. f_equal. by apply H1.
    + intros x E Hx. f_equal. by apply H2.
    + intros x E Hx. f_equal. by apply H3.
    + destruct (af_since f); [|done]. by apply Z.leb_le, Hs.
    + destruct (af_until f); [|done]. by apply Z.leb_le, Hu.
Qed.

(** The entries of an export are all that were asked for, the newest first, cut off at
    the limit. *)
Record exported (tenantId : string) (f : AuditLogFilters) (limit : nat) (table rows rest : list AuditLog) : Prop := {
  ex_all : forall r, r ∈ rows ++ rest <-> r ∈ table /\ asked_for tenantId f r;
  ex_once : NoDup (al_key <$> rows ++ rest);
  ex_newest : StronglySorted (fun a b => b.(al_createdAt) <= a.(al_createdAt)) (rows ++ rest);
  ex_limit : (length rows <= limit)%nat /\ (rest <> [] -> length rows = limit)
}.

Lemma List_filter_filter {A} (P : A -> bool) l : List.filter P l = filter (fun x => P x = true) l.
Proof.
  induction l as [|x l IH]; [done|]. cbn [List.filter]. rewrite filter_cons, IH. by destruct (P x).
Qed.

Lemma StronglySorted_weaken {A} (R R' : A -> A -> Prop) l :
  (forall a b, R a b -> R' a b) -> StronglySorted R l -> StronglySorted R' l.
Proof. intros H. induction 1; constructor; [done|]. eapply Forall_impl; eauto. Qed.

Lemma export_entries tenantId f limit table :
  NoDup (al_key <$> table) -> exists rest, exported tenantId f limit table (audit_findForExport tenantId f limit table) rest.
Proof.
  intros Hk. unfold audit_findForExport. rewrite List_filter_filter.
  assert (distinct_keys al_key (filter (fun r => baseFilterQuery tenantId f r = true) table)) as Hd
    by (by apply distinct_keys_filter).
  set (l := order_by al_key DESC _). exists (drop limit l). split; rewrite ?take_drop.
  - intros r. unfold l. rewrite order_by_perm, list_elem_of_filter, baseFilterQuery_spec. tauto.
  - unfold l. by rewrite order_by_perm.
  - apply (StronglySorted_weaken (row_before al_key DESC)); [|by apply order_by_sorted].
    intros a b H. unfold row_before, before in H. apply key_ltb_spec in H. simpl in H. lia.
  - rewrite length_take. split; [lia|]. intros Hne. destruct (decide (limit <= length l)%nat); [lia|].
    destruct Hne. apply drop_ge. lia.
Qed.

(** A cell of the export for a value: the value itself, unless it starts the way a
    formula does; then an apostrophe keeps it from being one. *)
Definition cell_of (value cell : string) : Prop :=
  match value with
  | String c _ => if decide (c ∈ ["="; "+"; "-"; "@"]%char) then cell = String "'" value else cell = value
  | EmptyString => cell = ""
  end.

Lemma neutral_cell value : cell_of value (neutral value).
Proof.
  unfold cell_of, neutral, formula_start. destruct value as [|c s]; [done|].
  assert (eq_ascii c "=" || eq_ascii c "+" || eq_ascii c "-" || eq_ascii c "@" = true <-> c ∈ ["="; "+"; "-"; "@"]%char) as H.
  { unfold eq_ascii. rewrite !orb_true_iff, !Ascii.eqb_eq, !elem_of_cons. set_solver. }
  destruct (decide _) as [Hc|Hc].
  - by rewrite (proj2 H Hc).
  - by destruct (_ || _) eqn:E; [destruct Hc; apply H|].
Qed.

(** The texts of an entry, in the order of the columns. *)
Definition entry_texts (r : AuditLog) : list string :=
  [r.(al_id); r.(al_tenantId); r.(al_actorId); actor_str r.(al_actorType); audit_action_str r.(al_action);
   r.(al_resourceType); r.(al_resourceId); default "" r.(al_operationId); default "" r.(al_ipAddress);
   JsDate.toISOString (date_of r.(al_createdAt)); stringify (JObj r.(al_metadata))].

Lemma export_reads tenantId f table :
  let rows := audit_findForExport tenantId f AUDIT_LOG_EXPORT_MAX_ROWS table in
  Forall (fun r => forallb no_return (entry_texts r) = true) rows ->
  read_csv (exportCsv tenantId f table) = map fst csv_columns :: map (fun r => map neutral (entry_texts r)) rows.
Proof.
  cbv zeta. set (rows := audit_findForExport _ _ _ _). intros Hret. unfold exportCsv. fold rows.
  transitivity (read_csv (String.concat (String LF "") (map (fun values => String.concat "," (map csvEscape values))
    (map fst csv_columns :: map entry_texts rows)))).
  - cbn [map]. rewrite (proj1 header_plain), map_map. reflexivity.
  - rewrite read_rows; [cbn [map]; by rewrite (proj1 (proj2 header_plain)), map_map|done|].
    constructor; [by split; [|apply header_plain]|]. apply Forall_forall. intros v Hv.
    apply list_elem_of_In, in_map_iff in Hv as (r & <- & Hr%list_elem_of_In).
    split; [done|]. exact (proj1 (Forall_forall _ _) Hret r Hr).
Qed.

(** C39: the export of a tenant's audit log reads back as the entries it was made of.  They
    are exactly the entries of the table that belong to the tenant and meet every filter,
    each once, the newest first, cut off at 10000.  A spreadsheet that opens the file finds
    the column names and one record for each of them, cell by cell its texts; a text that
    starts with an equals, plus, minus or at sign, which would be a formula, has an
    apostrophe in front.  The table's key is the time and the identifier of an entry, and
    no text of an entry has a carriage return: the export does not quote it. *)
Theorem audit_export_round_trip tenantId f table :
  NoDup (al_key <$> table) -> Forall (fun r => forallb no_return (entry_texts r) = true) table ->
  exists rows rest, exported tenantId f 10000 table rows rest /\
    exists records, read_csv (exportCsv tenantId f table) =
      ["id"; "tenant_id"; "actor_id"; "actor_type"; "action"; "resource_type"; "resource_id"; "operation_id";
       "ip_address"; "created_at"; "metadata"] :: records /\
      Forall2 (fun r cells => Forall2 cell_of (entry_texts r) cells) rows records.
Proof.
  intros Hk Hret. destruct (export_entries tenantId f AUDIT_LOG_EXPORT_MAX_ROWS table Hk) as [rest Hrows].
  exists (audit_findForExport tenantId f AUDIT_LOG_EXPORT_MAX_ROWS table), rest. split; [exact Hrows|].
  eexists. split; [apply export_reads|].
  - apply Forall_forall. intros r Hr. rewrite Forall_forall in Hret. apply Hret.
    apply (ex_all _ _ _ _ _ _ Hrows). apply elem_of_app. by left.
  - apply Forall2_fmap_r, Forall_Forall2_diag, Forall_forall. intros r _. cbn beta.
    apply Forall2_fmap_r, Forall_Forall2_diag, Forall_forall. intros v _. apply neutral_cell.
Qed.

(** Two tenants' entries: one of them is asked for, and its actor would be a formula. *)
Definition formula_entry (t : string) (us : Z) : AuditLog :=
  mkAuditLog "a1" t "=1+1" USER CREATE "tenants" "r" None [("note", JStr "a,b")] None us.

Lemma audit_export_round_trip_witness :
  let table := [formula_entry "t" 0; formula_entry "u" 1000; formula_entry "t" 2000000] in
  let f := mkAuditFilters (Some CREATE) None None None None (Some 1000) None in
  exists rows rest, exported "t" f 10000 table rows rest /\
    exists records, read_csv (exportCsv "t" f table) = map fst csv_columns :: records /\
      Forall2 (fun r cells => Forall2 cell_of (entry_texts r) cells) rows records /\
      records = [["a1"; "t"; "'=1+1"; "user"; "create"; "tenants"; "r"; ""; ""; "1970-01-01T00:00:02.000Z";
                  stringify (JObj [("note", JStr "a,b")])]].
Proof.
  intros table f.
  destruct (audit_export_round_trip "t" f table) as (rows & rest & H1 & records & H2 & H3).
  - apply (bool_decide_unpack _). vm_compute. exact I.
  - repeat constructor.
  - exists rows, rest. split; [exact H1|]. exists records. split; [exact H2|]. split; [exact H3|].
    assert (read_csv (exportCsv "t" f table) = map fst csv_columns ::
      [["a1"; "t"; "'=1+1"; "user"; "create"; "tenants"; "r"; ""; ""; "1970-01-01T00:00:02.000Z";
        stringify (JObj [("note", JStr "a,b")])]]) as Hread by (vm_compute; reflexivity).
    rewrite Hread in H2. injection H2 as <-. reflexivity.
Defined.

(** The record of an entry with a carriage return in a text is read as two. *)
Example return_splits_record :
  length (read_csv (exportCsv "t" (mkAuditFilters None None None None None None None)
    [mkAuditLog "a1" "t" ("a" +:+ String CR "b") USER CREATE "tenants" "r" None [] None 0])) = 3%nat.
Proof. vm_compute. reflexivity. Qed.

(** ** What the listing leaves out *)

(** The cursor of a page keeps the milliseconds of its last row.  A later row of the same
    millisecond, unless it falls on it exactly, is on no page that the cursor leads to. *)
Lemma audit_page_gap tenantId f limit last r table :
  date_of r.(al_createdAt) = date_of last.(al_createdAt) -> column_of (date_of r.(al_createdAt)) <> r.(al_createdAt) ->
  r ∉ pg_items (audit_findPageForTenant tenantId f limit (Some (al_cursor last)) table).
Proof.
  intros Hsame Hfrac Hin. unfold audit_findPageForTenant, find_page, paginate, keyset_query in Hin. cbn [pg_items] in Hin.
  assert (r ∈ order_by al_key DESC (filter (fun x => baseFilterQuery tenantId f x &&
            after_cursor al_key DESC (Some (al_cursor last)) x = true) table)) as H.
  { set (l := order_by _ _ _) in *. rewrite <-(take_drop (limit + 1) l). apply elem_of_app. left.
    destruct (limit <? _)%nat; [|done]. rewrite <-(take_drop limit (take (limit + 1) l)). apply elem_of_app. by left. }
  rewrite order_by_perm in H. apply list_elem_of_filter in H as [H _]. apply andb_true_iff in H as [_ H].
  cbn [after_cursor] in H. unfold beforeb in H. apply key_ltb_spec in H. cbn in H. rewrite <-Hsame in H.
  assert (column_of (date_of (al_createdAt r)) <= al_createdAt r) as Hle
    by (unfold column_of, date_of; Z.to_euclidean_division_equations; lia).
  unfold al_key in H. cbn in H. lia.
Qed.

(** ** AuditWriteWorker *)

(** The payload of a queued entry, its enumerations still text. *)
Record AuditWriteJobData := mkAuditJob {
  aj_tenantId : string;
  aj_actorId : string;
  aj_actorType : string;
  aj_action : string;
  aj_resourceType : string;
  aj_resourceId : string;
  aj_operationId : option string;
  aj_metadata : option (list (string * json));
  aj_ipAddress : option string
}.

Definition job_hex (c : ascii) : bool :=
  let n := N_of_ascii (lower_ascii c) in ((48 <=? n) && (n <=? 57) || (97 <=? n) && (n <=? 102))%N.

(** [/^[0-9a-f]{8}-[0-9a-f]{4}-[0-9a-f]{4}-[0-9a-f]{4}-[0-9a-f]{12}$/i] *)
Definition UUID_RE : list (ascii -> bool) :=
  let dash := [eq_ascii "-"%char] in
  let quad := replicate 4 job_hex in
  replicate 8 job_hex ++ dash ++ quad ++ dash ++ quad ++ dash ++ quad ++ dash ++ replicate 12 job_hex.

Definition assertValidAuditPayload (data : option AuditWriteJobData) : Exn + WriteAuditLogInput :=
  let invalid := inl (JsError "Invalid audit.write payload") in
  match data with
  | None => invalid
  | Some d =>
      if existsb (String.eqb "") [d.(aj_tenantId); d.(aj_actorId); d.(aj_actorType); d.(aj_action); d.(aj_resourceType);
                                  d.(aj_resourceId)] then invalid
      else
        let operationId := match d.(aj_operationId) with Some ((String _ _) as o) => Some o | _ => None end in
        if negb (match_chars UUID_RE d.(aj_tenantId)) || negb (match_chars UUID_RE d.(aj_resourceId)) ||
           match operationId with Some o => negb (match_chars UUID_RE o) | None => false end then invalid
        else
          match List.find (fun a => String.eqb (actor_str a) d.(aj_actorType)) ACTOR_TYPES,
                List.find (fun a => String.eqb (audit_action_str a) d.(aj_action)) ACTIONS with
          | Some actorType, Some action =>
              inr (mkWrite d.(aj_tenantId) d.(aj_actorId) actorType action d.(aj_resourceType) d.(aj_resourceId)
                     operationId d.(aj_metadata) d.(aj_ipAddress))
          | _, _ => invalid
          end
  end.

(** The table after the job, or what it throws. *)
Definition audit_handle (id : string) (now : Z) (data : option AuditWriteJobData) (table : list AuditLog)
    : Exn + list AuditLog :=
  match assertValidAuditPayload data with
  | inl e => inl e
  | inr input => inr (audit_insert id now input table)
  end.

(** A job names a resource by its UUID, or it never becomes an entry. *)
Lemma audit_needs_uuid id now d table :
  match_chars UUID_RE d.(aj_resourceId) = false ->
  audit_handle id now (Some d) table = inl (JsError "Invalid audit.write payload").
Proof.
  intros H. unfold audit_handle, assertValidAuditPayload. destruct (existsb _ _); [done|].
  rewrite H, orb_true_r. by destruct (match aj_operationId d with Some _ => _ | None => _ end).
Qed.

(** The identifiers oidc-provider gives its grants are no UUIDs: the entry of a tenant
    switch is queued and refused. *)
Example grant_entry_refused :
  audit_handle "a" 0 (Some (mkAuditJob "123e4567-e89b-42d3-a456-426614174000" "system" "system" "token_grant" "oidc_grant"
    "V1StGXR8_Z5jdHi6B-myT4qPmXCj0vBhSV_yeOVGlLi" None None None)) [] = inl (JsError "Invalid audit.write payload").
Proof. vm_compute. reflexivity. Qed.

(** ** AuditAutoInterceptor *)

(** What of a request it reads; [None] is absent or not text. *)
Record AuditedRequest := mkAudited {
  ar_method : string;
  ar_path : string;
  ar_paramTenantId : option string;
  ar_bodyTenantId : option string;
  ar_paramId : option string;
  ar_skip : bool                                      (* SkipAutoAudit *)
}.

Definition MUTATING_METHODS : list string := ["POST"; "PUT"; "PATCH"; "DELETE"].
Definition SKIP_PATH_PREFIXES : list string := ["/health"; "/api/docs"; "/api/docs/"].

Definition shouldSkipPath (path : string) : bool :=
  occursb "/audit-logs" path || existsb (fun p => String.prefix p path) SKIP_PATH_PREFIXES.

Definition mapAction (method : string) : AuditAction :=
  if String.eqb method "POST" then CREATE else if String.eqb method "DELETE" then DELETE else UPDATE.

(** [path.split('/').filter(Boolean)[0] ?? 'unknown'] *)
Fixpoint first_segment (s acc : string) : string :=
  match s with
  | EmptyString => if String.eqb acc "" then "unknown" else acc
  | String c r =>
      if eq_ascii c "/" then (if String.eqb acc "" then first_segment r "" else acc)
      else first_segment r (acc +:+ String c "")
  end.

Definition mapResourceType (path : string) : string := replace_char "-" "_" (first_segment path "").

(** The job queued once the handler has answered; [method] in upper case. *)
Definition auto_audit (env : Env) (q : AuditedRequest) : option AuditWriteJobData :=
  if negb (String.eqb (default "false" (env "AUDIT_AUTO_INTERCEPTOR_ENABLED")) "true") then None
  else if q.(ar_skip) || negb (mem_str q.(ar_method) MUTATING_METHODS) || shouldSkipPath q.(ar_path) then None
  else
    let tenantId := if truthy_str q.(ar_paramTenantId) then q.(ar_paramTenantId)
                    else if truthy_str q.(ar_bodyTenantId) then q.(ar_bodyTenantId) else None in
    match tenantId, q.(ar_paramId) with
    | Some t, Some ((String _ _) as id) =>
        Some (mkAuditJob t "system" "system" (audit_action_str (mapAction q.(ar_method))) (mapResourceType q.(ar_path)) id None
                (Some [("source", JStr "auto-interceptor"); ("method", JStr q.(ar_method)); ("path", JStr q.(ar_path))]) None)
    | _, _ => None
    end.

(** ** Partitions *)

(** The bounds are written as ISO texts, which the database reads back as the instants. *)
Record PartitionSpec := mkPartition { ps_name : string; ps_from : Z; ps_to : Z }.

Definition partition_name (from : Z) : string :=
  "audit_log_" +:+ (JsValue.decimal_text (JsDate.getUTCFullYear from) +:+ ("_" +:+ JsDate.padStart 2 (JsDate.getUTCMonth from + 1))).

(** The specification of month [i] after the cursor; [None]: [toISOString] of an invalid
    date throws. *)
Definition month_spec (cursor i : Z) : option PartitionSpec :=
  let y := JsDate.getUTCFullYear cursor in
  let m := JsDate.getUTCMonth cursor in
  from ← JsDate.time_clip (JsDate.date_utc y (m + i));
  to ← JsDate.time_clip (JsDate.date_utc y (m + i + 1));
  Some (mkPartition (partition_name from) from to).

Fixpoint month_specs (cursor i : Z) (count : nat) : option (list PartitionSpec) :=
  match count with
  | O => Some []
  | S n => spec ← month_spec cursor i; rest ← month_specs cursor (i + 1) n; Some (spec :: rest)
  end.

(** [i] runs from 0 to [monthsAhead]. *)
Definition buildMonthlyPartitionSpecs (start monthsAhead : Z) : option (list PartitionSpec) :=
  cursor ← JsDate.time_clip (JsDate.date_utc (JsDate.getUTCFullYear start) (JsDate.getUTCMonth start));
  month_specs cursor 0 (Z.to_nat (monthsAhead + 1)).

(** [CREATE TABLE IF NOT EXISTS ... PARTITION OF]: an existing name is left alone, bounds
    that overlap another partition are an error. *)
Definition create_partition (spec : PartitionSpec) (ps : list PartitionSpec) : Exn + list PartitionSpec :=
  if existsb (fun p => String.eqb p.(ps_name) spec.(ps_name)) ps then inr ps
  else if existsb (fun p => (p.(ps_from) <? spec.(ps_to)) && (spec.(ps_from) <? p.(ps_to))) ps
  then inl (QueryFailed "42P17" "")
  else inr (ps ++ [spec]).

Fixpoint create_partitions (specs ps : list PartitionSpec) : list PartitionSpec * (Exn + unit) :=
  match specs with
  | [] => (ps, inr tt)
  | spec :: rest =>
      match create_partition spec ps with
      | inl e => (ps, inl e)
      | inr ps' => create_partitions rest ps'
      end
  end.

(** [Math.floor] of a configured number that is finite and not negative, 3 otherwise. *)
Definition months_ahead (env : Env) (data : option jsnum) : Z :=
  let configured := match data with Some x => x | None => env_number env "AUDIT_PARTITION_MONTHS_AHEAD" "3" end in
  match configured with
  | NFin m e => if 0 <=? m then num_trunc m e else 3
  | _ => 3
  end.

(** The job at [now]: the partitions it leaves, each statement on its own. *)
Definition partition_handle (env : Env) (now : Z) (data : option jsnum) (ps : list PartitionSpec)
    : list PartitionSpec * (Exn + unit) :=
  match buildMonthlyPartitionSpecs now (months_ahead env data) with
  | None => (ps, inl (JsError "Invalid time value"))
  | Some specs => create_partitions specs ps
  end.

(** *** Every month has its partition *)

Definition month_partition (k : Z) : PartitionSpec :=
  mkPartition (partition_name (JsDate.month_at k)) (JsDate.month_at k) (JsDate.month_at (k + 1)).

(** The partitions are those of months of the years from 100 on. *)
Definition monthly (ps : list PartitionSpec) : Prop := Forall (fun p => exists k, 1200 <= k /\ p = month_partition k) ps.

Lemma month_index_at k : JsDate.month_index (JsDate.month_at k) = k.
Proof.
  pose proof (JsDate.month_index_spec (JsDate.month_at k)) as H. pose proof (JsDate.month_at_next k).
  apply (JsDate.month_unique _ _ (JsDate.month_at k)); [done|lia].
Qed.

Lemma month_range t : 0 <= JsDate.getUTCMonth t <= 11.
Proof.
  rewrite JsDate.getUTCMonth_unfold. unfold JsDate.month_of_day. split; [lia|].
  pose proof (filter_length_le (fun m => JsDate.month_offset (JsDate.leap (JsDate.getUTCFullYear t)) m <=? JsDate.day_within_year t)
    [1; 2; 3; 4; 5; 6; 7; 8; 9; 10; 11]) as H. change (length [1; 2; 3; 4; 5; 6; 7; 8; 9; 10; 11]) with 11%nat in H. lia.
Qed.

Lemma string_app_inj_r a b x y : String.length x = String.length y -> a +:+ x = b +:+ y -> a = b /\ x = y.
Proof.
  intros Hl. revert b. induction a as [|c a IH]; intros [|d b] E; cbn in E.
  - done.
  - change (x = String d b +:+ y) in E. apply (f_equal String.length) in E. rewrite JsonText.string_length_app in E. simpl in E. lia.
  - change (String c a +:+ x = y) in E. apply (f_equal String.length) in E. rewrite JsonText.string_length_app in E. simpl in E. lia.
  - injection E as -> E. destruct (IH b E) as [-> ->]. done.
Qed.

Lemma padded_month m :
  0 <= m <= 11 -> String.length ("_" +:+ JsDate.padStart 2 (m + 1)) = 3%nat /\
  JsValue.decimal_read (JsDate.padStart 2 (m + 1)) 0 = m + 1.
Proof.
  intros Hm. pose proof (JsDate.by_month (fun m => (String.length ("_" +:+ JsDate.padStart 2 (m + 1)) =? 3)%nat &&
    (JsValue.decimal_read (JsDate.padStart 2 (m + 1)) 0 =? m + 1)) m eq_refl Hm) as H.
  by rewrite andb_true_iff, Nat.eqb_eq, Z.eqb_eq in H.
Qed.

Lemma padded_month_inj m m' :
  0 <= m <= 11 -> 0 <= m' <= 11 -> "_" +:+ JsDate.padStart 2 (m + 1) = "_" +:+ JsDate.padStart 2 (m' + 1) -> m = m'.
Proof.
  intros Hm Hm' E.
  apply (f_equal (fun s => JsValue.decimal_read (match s with String _ r => r | EmptyString => "" end) 0)) in E.
  change (JsValue.decimal_read (JsDate.padStart 2 (m + 1)) 0 = JsValue.decimal_read (JsDate.padStart 2 (m' + 1)) 0) in E.
  rewrite (proj2 (padded_month m Hm)), (proj2 (padded_month m' Hm')) in E. lia.
Qed.

Lemma month_name_inj y y' m m' :
  0 <= y -> 0 <= y' -> 0 <= m <= 11 -> 0 <= m' <= 11 ->
  "audit_log_" +:+ (JsValue.decimal_text y +:+ ("_" +:+ JsDate.padStart 2 (m + 1))) =
  "audit_log_" +:+ (JsValue.decimal_text y' +:+ ("_" +:+ JsDate.padStart 2 (m' + 1))) -> 12 * y + m = 12 * y' + m'.
Proof.
  intros Hy Hy' Hm Hm' E. apply (inj (String.append "audit_log_")) in E.
  apply string_app_inj_r in E as [Ey Em]; [|by rewrite (proj1 (padded_month m Hm)), (proj1 (padded_month m' Hm'))].
  apply padded_month_inj in Em; [|done..]. apply JsValue.decimal_text_inj in Ey; [lia|done..].
Qed.

(** Months that share a name are one. *)
Lemma partition_name_inj k k' :
  1200 <= k -> 1200 <= k' ->
  partition_name (JsDate.month_at k) = partition_name (JsDate.month_at k') -> k = k'.
Proof.
  intros Hk Hk'. pose proof (month_range (JsDate.month_at k)) as Hm. pose proof (month_range (JsDate.month_at k')) as Hm'.
  pose proof (month_index_at k) as Hi. pose proof (month_index_at k') as Hi'.
  unfold partition_name. rewrite JsDate.month_index_unfold in Hi, Hi'. revert Hm Hm' Hi Hi'.
  generalize (JsDate.getUTCFullYear (JsDate.month_at k)) (JsDate.getUTCMonth (JsDate.month_at k))
    (JsDate.getUTCFullYear (JsDate.month_at k')) (JsDate.getUTCMonth (JsDate.month_at k')).
  intros y m y' m' Hm Hm' Hi Hi' E. rewrite <-Hi, <-Hi'. apply month_name_inj; [lia|lia|done..].
Qed.

(** The months from that of [now] to [n] further ones, within the range of dates. *)
Lemma specs_monthly now n :
  1200 <= JsDate.month_index now -> 0 <= n -> JsDate.month_at (JsDate.month_index now + n + 1) <= 8640000000000000 ->
  buildMonthlyPartitionSpecs now n =
  Some (map (fun i => month_partition (JsDate.month_index now + Z.of_nat i)) (seq 0 (Z.to_nat (n + 1)))).
Proof.
  intros Hk Hn Hmax. set (k := JsDate.month_index now) in *.
  assert (forall t, 1200 <= JsDate.month_index t -> forall i,
    JsDate.date_utc (JsDate.getUTCFullYear t) (JsDate.getUTCMonth t + i) = JsDate.month_at (JsDate.month_index t + i)) as Hutc.
  { intros t Ht i. unfold JsDate.month_index in *. pose proof (month_range t).
    unfold JsDate.date_utc. destruct (Z.leb_spec (JsDate.getUTCFullYear t) 99); [lia|]. rewrite andb_false_r.
    rewrite JsDate.month_start_at. f_equal. lia. }
  assert (JsDate.month_at 1200 = -59011459200000) as H1200 by (vm_compute; reflexivity).
  assert (forall j, 1200 <= j <= k + n + 1 -> JsDate.time_clip (JsDate.month_at j) = Some (JsDate.month_at j)) as Hclip.
  { intros j Hj. unfold JsDate.time_clip. pose proof (JsDate.month_at_mono 1200 j ltac:(lia)).
    pose proof (JsDate.month_at_mono j (k + n + 1) ltac:(lia)). destruct (Z.leb_spec (Z.abs (JsDate.month_at j)) 8640000000000000); [done|lia]. }
  unfold buildMonthlyPartitionSpecs. rewrite <-(Z.add_0_r (JsDate.getUTCMonth now)), Hutc by done.
  rewrite Z.add_0_r. fold k. rewrite Hclip by lia. cbn [mbind option_bind].
  assert (forall count i, 0 <= i -> i + Z.of_nat count <= n + 1 ->
    month_specs (JsDate.month_at k) i count = Some (map (fun j => month_partition (k + (i + Z.of_nat j))) (seq 0 count))) as Hs.
  { induction count as [|c IH]; intros i Hi Hc; [done|]. cbn [month_specs]. unfold month_spec. cbv zeta.
    rewrite <-!Z.add_assoc, !Hutc by (rewrite month_index_at; lia). rewrite month_index_at, !Hclip by lia.
    cbn [mbind option_bind]. rewrite IH by lia. cbn [mbind option_bind]. f_equal. cbn [seq map]. f_equal.
    - unfold month_partition. rewrite !Z.add_0_r. by rewrite <-Z.add_assoc.
    - rewrite <-seq_shift, map_map. apply map_ext. intros j. f_equal. lia. }
  rewrite Hs by lia. apply (f_equal Some), map_ext. intros j. by rewrite Z.add_0_l.
Qed.

Lemma month_ranges_apart k k' :
  ps_from (month_partition k) < ps_to (month_partition k') -> ps_from (month_partition k') < ps_to (month_partition k) -> k = k'.
Proof.
  cbn. intros H1 H2. destruct (Z.lt_trichotomy k k') as [E|[E|E]]; [|done|].
  - pose proof (JsDate.month_at_mono (k + 1) k' ltac:(lia)). lia.
  - pose proof (JsDate.month_at_mono (k' + 1) k ltac:(lia)). lia.
Qed.

Lemma create_month k ps :
  1200 <= k -> monthly ps ->
  exists ps', create_partition (month_partition k) ps = inr ps' /\ monthly ps' /\ ps ⊆ ps' /\ month_partition k ∈ ps'.
Proof.
  intros Hk Hps. unfold create_partition. destruct (existsb _ ps) eqn:En.
  { exists ps. split; [done|]. split; [done|]. split; [done|]. apply existsb_exists in En as (p & Hp & En%String.eqb_eq).
    apply list_elem_of_In in Hp. pose proof (proj1 (Forall_forall _ _) Hps p Hp) as (j & Hj & ->).
    by rewrite <-(partition_name_inj j k Hj Hk En). }
  destruct (existsb (fun p => _ && _) ps) eqn:Eo.
  { apply existsb_exists in Eo as (p & Hp & Eo). apply list_elem_of_In in Hp.
    pose proof (proj1 (Forall_forall _ _) Hps p Hp) as (j & Hj & ->).
    rewrite andb_true_iff, !Z.ltb_lt in Eo. destruct Eo as [E1 E2]. rewrite (month_ranges_apart j k E1 E2) in Hp.
    assert (existsb (fun p => String.eqb p.(ps_name) (month_partition k).(ps_name)) ps = true) as Hx; [|congruence].
    apply existsb_exists. exists (month_partition k). split; [by apply list_elem_of_In|apply String.eqb_refl]. }
  exists (ps ++ [month_partition k]). split; [done|]. split.
  - apply Forall_app. split; [done|]. by repeat constructor; eauto.
  - split; [set_solver|]. apply elem_of_app. right. by apply list_elem_of_singleton.
Qed.

Lemma create_months ks : forall ps,
  Forall (fun k => 1200 <= k) ks -> monthly ps ->
  exists ps', create_partitions (map month_partition ks) ps = (ps', inr tt) /\ monthly ps' /\ ps ⊆ ps' /\
    Forall (fun k => month_partition k ∈ ps') ks.
Proof.
  induction ks as [|k ks IH]; intros ps Hks Hps; [by exists ps|]. apply Forall_cons in Hks as [Hk Hks].
  destruct (create_month k ps Hk Hps) as (ps1 & E & Hm & Hsub & Hin). cbn [map create_partitions]. rewrite E.
  destruct (IH ps1 Hks Hm) as (ps' & -> & Hm' & Hsub' & Hall). exists ps'. split; [done|]. split; [done|].
  split; [set_solver|]. constructor; [set_solver|done].
Qed.

Lemma months_ahead_nonneg env data : 0 <= months_ahead env data.
Proof.
  unfold months_ahead. destruct (match data with Some x => x | None => _ end) as [m e| |]; [|lia..].
  destruct (Z.leb_spec 0 m); [|lia]. unfold num_trunc. destruct (Z.leb_spec 0 e).
  - apply Z.mul_nonneg_nonneg; [done|]. apply Z.pow_nonneg. lia.
  - apply Z.quot_pos; [done|]. apply Z.pow_pos_nonneg; lia.
Qed.

(** C40: The audit log always has a place for its entries.  From partitions made of whole
    months, the job completes whatever number of months it is told to keep ahead, keeps
    the partitions there were, and leaves for every instant, from the beginning of the
    current month to the end of the last month ahead, exactly one partition. *)
Theorem audit_partitions_cover env now data ps :
  monthly ps -> 1200 <= JsDate.month_index now ->
  let last := JsDate.month_index now + months_ahead env data in
  JsDate.month_at (last + 1) <= 8640000000000000 ->
  exists ps', partition_handle env now data ps = (ps', inr tt) /\ monthly ps' /\ ps ⊆ ps' /\
    forall t, JsDate.month_at (JsDate.month_index now) <= t < JsDate.month_at (last + 1) ->
      exists p, p ∈ ps' /\ ps_from p <= t < ps_to p /\
        forall p', p' ∈ ps' -> ps_from p' <= t < ps_to p' -> p' = p.
Proof.
  cbv zeta. intros Hps Hk Hmax. pose proof (months_ahead_nonneg env data) as Hn. unfold partition_handle. rewrite specs_monthly by done.
  set (k := JsDate.month_index now) in *. set (n := months_ahead env data) in *.
  destruct (create_months (map (fun i => k + Z.of_nat i) (seq 0 (Z.to_nat (n + 1)))) ps) as (ps' & E & Hm & Hsub & Hall); [|done|].
  { apply Forall_forall. intros j Hj. apply list_elem_of_In, in_map_iff in Hj as (i & <- & _). lia. }
  rewrite map_map in E. exists ps'. split; [exact E|]. split; [done|]. split; [done|]. intros t Ht.
  destruct (JsDate.month_exists k (k + n + 1) t Ht) as (j & Hj & Htj). exists (month_partition j). split; [|split; [done|]].
  - apply (proj1 (Forall_forall _ _) Hall j). apply list_elem_of_In, in_map_iff. exists (Z.to_nat (j - k)).
    split; [lia|]. apply in_seq. lia.
  - intros p' Hp' Ht'. destruct (proj1 (Forall_forall _ _) Hm p' Hp') as (j' & _ & ->).
    by rewrite (JsDate.month_unique j' j t Ht' Htj).
Qed.

(** On the last day of February of a leap year, with March already there. *)
Lemma audit_partitions_cover_witness :
  let now := 1709251200000 - 1 in
  exists ps', partition_handle (fun _ => None) now None [month_partition (12 * 2024 + 2)] = (ps', inr tt) /\
    map ps_name ps' = ["audit_log_2024_03"; "audit_log_2024_02"; "audit_log_2024_04"; "audit_log_2024_05"] /\
    exists p, p ∈ ps' /\ ps_from p <= 1709251200000 < ps_to p.
Proof.
  cbv zeta. destruct (audit_partitions_cover (fun _ => None) (1709251200000 - 1) None [month_partition (12 * 2024 + 2)])
    as (ps' & E & _ & _ & Hcover).
  - constructor; [|constructor]. exists (12 * 2024 + 2). split; [lia|reflexivity].
  - vm_compute. discriminate.
  - vm_compute. discriminate.
  - exists ps'. split; [exact E|]. split.
    + apply (f_equal fst) in E. cbn [fst] in E. rewrite <-E. vm_compute. reflexivity.
    + destruct (Hcover 1709251200000) as (p & Hp & Ht & _); [vm_compute; split; [discriminate|reflexivity]|].
      exists p. split; [exact Hp|exact Ht].
Defined.
